(* ===== verification/_CoqProject ===== *)
-Q . S2P
Prelude.v
Layouts.v
Errors.v
FixedPoint.v
StateBase.v
LendingMarket.v
Reserve.v
ReserveFacts.v
LoanFacts.v
Obligation.v
ObligationFacts.v
Liquidation.v
Codec.v
CodecFacts.v
Instruction.v
Solana.v
Builders.v
Switchboard.v
SwitchboardHistory.v
Oracle.v
OracleFacts.v
Testbed.v
Tokens.v
VaultTestbed.v
ProcessorBase.v
ProcessorFacts.v
ProcessorInvariant.v
TestbedFacts.v
ProcessorReserve.v
ProcessorObligation.v
RefreshFacts.v
HandlerFacts.v
SwitchboardVrf.v
SwitchboardBundle.v
AnchorBase.v
AnchorAccounts.v
AnchorFacts.v
AnchorLife.v
AnchorConstraints.v
AnchorConstraintFacts.v
AnchorChecks.v
AnchorInit.v
AnchorIdl.v
AnchorProgram.v
AnchorEvents.v
AnchorClient.v
Pledges.v
ProcessorLoan.v
Processor.v
ProcessorSafety.v
RefreshSafety.v
LoanSafety.v
Solvency.v
SolvencySteps.v
RepaySafety.v
SupplySafety.v
SolvencyReserve.v
CollateralSafety.v
FlashSafety.v
SolvencyLoan.v
ProcessorReach.v
InitSafety.v
WriteSets.v
SolvencyMarket.v
Authority.v
CombinedSafety.v
SolvencyInit.v
SolvencyReach.v
LendingCli.v
CliFacts.v
CliSafety.v
ClientModel.v
ClientFetch.v
ClientSnapshot.v
ClientRefresh.v
ClientSelect.v
ClientTransaction.v
ClientLiquidation.v
ClientMarkets.v
ClientRounds.v
