(* ===== verification/Prelude.v ===== *)
(** * The Solend lending program: root of the development, and its prelude

    The repository holds a program and two clients.  The lending program
    ([src/solana-program-library/token-lending/program/src/]) runs on the Solana
    chain: depositors supply liquidity to the reserves of a lending market and
    receive collateral tokens, borrowers open obligations, pledge collateral
    tokens and borrow liquidity against them, liquidators repay the debt of
    unhealthy obligations and seize collateral with a bonus, and flash loans
    lend for the length of one instruction.  The liquidator
    ([src/solend-liquidator/src/]) is an off-chain client that watches
    obligations and sends liquidations.  The command line
    ([src/solana-program-library/token-lending/cli/]) creates markets and adds
    and reconfigures reserves.  This development models all three: the lending
    program from its arithmetic to the dispatch of instructions, and the clients
    from the answers of the node that they ask to the transactions that they
    send.  Of the libraries that the repository carries under [src/overriden/] it
    models the Switchboard crates, which prices come from, and of the framework
    Anchor what it puts around a program: the entry and the handlers of its
    instructions, the account types, the constraints on them, the creation of
    accounts, and the clients that call the program and listen to its events.

    ** How the parts fit together

    An instruction arrives as bytes with a list of accounts.
    [process_instruction] decodes it and calls one handler.  A handler reads
    records (market, reserve, obligation) from the data of accounts owned by the
    program, checks who signed, which accounts belong together and how recent
    the records are, computes with fixed-point numbers, writes records back, and
    has the token program move tokens.  A record that was changed is marked
    stale; loans, withdrawals and liquidations demand records refreshed in the
    current slot, and so force a refresh in between.

    The liquidator runs in rounds.  A round fetches every market (reserves,
    prices, obligations), values each obligation with its own copy of the
    program's refresh, picks the largest deposit and debt of those under water,
    and sends for each a transaction that refreshes the reserves and the
    obligation on the chain and then liquidates.

    ** What models what

    - Prelude (this file): results with errors and panics and their monad,
      machine integers as [Z] with checked operations, little-endian bytes,
      fixed layouts of byte arrays ([array_refs]), tactics.
    - Errors ([error.rs]): [LendingError] and its codes.
    - FixedPoint ([math/]): [Decimal] (192 bits) and [Rate] (128 bits), scaled
      by 10^18, with every checked operation.
    - StateBase ([state/mod.rs], [state/last_update.rs]), LendingMarket
      ([state/lending_market.rs]), Reserve and Liquidation
      ([state/reserve.rs]), Obligation ([state/obligation.rs]): the records and
      their operations, a Module per Rust type.  A [&mut self] method returns
      the new record; a returned mutable reference is an index.
    - Layouts: how packed structs lie in bytes, with the laws that an unchecked
      cast relies on ([LayoutOk]); the Switchboard and Anchor files build on it.
    - Codec: the layouts of reserves (619 bytes) and obligations (1300 bytes).
    - Instruction ([instruction.rs]): the instructions and their encoding.
    - Solana: the runtime as the program sees it.  The accounts are a store
      keyed by address, so handles with the same key share their data, as the
      runtime's [RefCell]s do; [M] is the state and error monad of a handler; a
      failed instruction reverts everything, so errors carry no state.  What the
      program calls outside the repository (sysvars, derived addresses,
      cross-program invocation, token instructions, protocol buffers) is the
      class [Sdk], a parameter of every handler; [SdkLaws] states the documented
      behaviour that theorems rely on.  Testbed gives an executable instance
      that satisfies [SdkLaws] and a ledger on which every handler theorem is
      applied; TestbedFacts shows that the ledger satisfies the invariant.
    - Tokens: the token accounts and the instructions of the token program, which
      [Sdk] leaves open ([TokenSdk], its documented behaviour [TokenLaws]), with
      VaultTestbed as an instance; Pledges sums what obligations have on deposit.
    - Switchboard (the two crates under [src/overriden/]) and Oracle ([pyth.rs]
      and the oracle functions of [processor.rs]): prices.  SwitchboardHistory,
      SwitchboardVrf and SwitchboardBundle are the other parts of the crates:
      decimals and history buffers, verifiable randomness, and the bundles of
      version 1.
    - AnchorBase, AnchorAccounts ([src/overriden/anchor/lang/src/]): errors with
      their codes, accounts behind cells that are borrowed (the monad [AM]), the
      traits as type classes, and every account type as a Module.
      AnchorConstraints ([lang/syn/src/parser/accounts/]): the builder of the
      constraints of a field; AnchorChecks ([lang/syn/src/codegen/accounts/]): their
      order, and what the generated code does with an account; AnchorInit
      ([system_program.rs], [context.rs] and the same file): calls of other programs
      and the code for [init].  The other programs are the class [Cpi], what the
      system program promises is [SystemLaws], with [test_cpi] as an instance.
    - AnchorIdl ([idl.rs]) and AnchorProgram ([lang/syn/src/codegen/program/]): the
      instructions for interface descriptions that every program has, its entrypoint
      and dispatch, and the handlers around the methods of the user, which are
      functions on accounts in [AM].  Hash, encodings and decoders are parameters.
    - AnchorEvents ([attribute/event], [client/src/lib.rs]): emitting events, and the
      client that finds them in logs ([LogSdk] stands for its regular expressions and
      base 64, with [LogLaws]; an executable instance is at the end).  AnchorClient
      ([lang/syn/src/codegen/program/instruction.rs], [cpi.rs], the lists of accounts,
      [client/src/]): those who call a program; the node is the class [ClientRpc].
    - ProcessorBase, ProcessorReserve, ProcessorObligation, ProcessorLoan,
      Processor ([processor.rs], [entrypoint.rs]): the shared steps, every handler,
      the dispatch and the entrypoint.  Definitions keep the names of the Rust functions; a guard
      [if bad { return Err(e) }] is [check (negb bad) e], in the order of the
      source.
    - Builders ([instruction.rs]): the functions with which clients build
      instructions, in the Module [instruction].
    - ClientModel ([client_model.rs], [model.rs], [constants.rs] of the
      liquidator): its data.  What it calls outside the repository is the class
      [ClientSdk]; the answers of the node are a [Node], so an unreachable node
      or a changing chain is another value.  An [unwrap] of a failure is [Panic].
    - ClientFetch ([client.rs], the requests), ClientRefresh ([binding.rs]),
      ClientSelect and ClientMarkets ([helpers.rs]; the capsule of markets of
      [client.rs]), ClientTransaction ([client.rs], [liquidate_and_redeem]).
      Concurrent tasks are folded in the order in which they are spawned and
      awaited; that other orders of their writes leave the same capsule is a
      theorem.  ClientFetch ends with an executable [ClientSdk].  ClientMarkets also
      holds [main.rs] and [performance.rs].
    - LendingCli ([cli/src/main.rs]), in the Module [cli]: the three commands and
      the arms of [main], from parsed arguments.  A run is a result with the
      transactions sent so far; outside code is the class [CliSdk], its
      documented behaviour [CliLaws], and CliFacts ends with an instance.

    ** What is proved

    - Arithmetic (FixedPoint): closure, rounding, powers.
    - Records (ReserveFacts, LoanFacts, Liquidation, ObligationFacts): each
      operation conserves what it should, keeps its record well formed, and
      stays within its limits; the vectors of an obligation refine two finite
      maps; the borrow rate is bounded and monotone.
    - Layouts (LendingMarket, Codec, CodecFacts, Instruction): decoding inverts
      encoding, and encoding what was decoded gives the bytes back.
    - Oracles (OracleFacts): when a price is accepted and what it is; the search
      for the quote currency ends.
    - Shared steps (ProcessorFacts, HandlerFacts): inversion of a successful
      handler into what it checked, read, wrote and invoked ([inv_handler]).
    - Invariant (ProcessorInvariant, ProcessorSafety, ProcessorReach): every
      instruction keeps the invariant of all accounts ([World_ok]), so every
      state reachable from an empty ledger satisfies it, whatever other programs
      do in between.
    - Handlers (RefreshSafety, LoanSafety, RepaySafety, SupplySafety,
      CollateralSafety, FlashSafety, CombinedSafety, InitSafety):
      under that invariant, what a successful refresh, borrow, repayment, liquidation,
      deposit, redemption, withdrawal, flash loan or initialisation checked, what
      it booked, which tokens it moved, and whose signature it had; collected fees go to the
      configured receiver (SupplySafety).
    - Authority: over all instructions, whose signature a change needs: of a market,
      of the settings of a reserve and of a new one, the owner that the very market
      records; of an obligation its own owner, but for refreshes, repayments and
      liquidations.  A handler is a run of steps that each keep what others own.
    - Solvency (Solvency, SolvencySteps, SolvencyReserve, SolvencyLoan,
      SolvencyMarket, SolvencyInit, SolvencyReach): with the laws of the
      token program, in every reachable state the token accounts of a reserve hold
      what its record says and what obligations have on deposit, out of reach of
      anybody but the program.
    - Switchboard: the search in a history and the order of decimals
      (SwitchboardHistory), reading an account of a random function
      (SwitchboardVrf) and an entry of a bundle (SwitchboardBundle).
    - Anchor: what an instruction leaves in an account is what the next one reads,
      and a zero-copy account refines a machine with three states (AnchorFacts,
      AnchorLife); the macro accepts only well-formed groups of constraints and
      never panics on them (AnchorConstraintFacts); the checks that it generates
      make closing an account safe (AnchorChecks); [init] gives a fresh account and
      never overwrites one (AnchorInit); an interface description changes only with
      the signature of its authority, or by a creation that is given its account for
      the new one (AnchorIdl); a program over one account, with the instructions for
      descriptions or without them, refines the methods of its user (AnchorProgram); a request reaches the handler of its
      method (AnchorClient), and a listener hears the events of its program (AnchorEvents).
    - Builders (WriteSets): an instruction as its builder assembles it changes no
      account of the program that it does not mark as writable.
    - Command line (InitSafety, CliFacts, CliSafety): its transactions carry the
      signatures that they need and are sent in order; a new market and an
      updated reserve get on the chain what the arguments say, and for a reserve
      without a switchboard feed an update of the options alone is refused.
    - Liquidator: its requests return exactly the records of a market
      (ClientSnapshot), its valuation equals the program's up to the global cap
      (ClientRefresh), the transaction names the picked reserves and no error
      is returned (ClientLiquidation); over whole rounds, what its tasks have sent,
      also before a panic, liquidates what the program finds liquidatable as long as
      no two reserves of a market share a symbol, concurrent writes do not race, and the
      obligations that it watches are those of the first round (ClientRounds).

    ** Bounds and fuel

    [Rate.try_pow] gets 64 rounds, one per bit of the exponent, and the search
    for a product's quote currency one round per byte of its attributes; both are
    proved to end within them.  Integers are [Z]; an operation that can leave its
    width is checked or wraps as in the source, and the [_ok] records state the
    widths that the layouts enforce.  The liquidator's loops run over lists and
    need no fuel; its endless outer loop is the fold over any list of rounds.

    ** What is not modelled

    Log messages, the [Display] instances, the tests, compute limits; of Anchor
    the parsing of tokens with the library syn, the printing of Rust code, structs
    of accounts in general (the fields are modelled, and the structs of the
    framework itself are written as they expand), the collection of bump seeds and its
    command line; of the
    Switchboard crates the account checks that Anchor derives for a request of
    randomness; of the command line the
    declaration and parsing of its arguments (the library clap), wallets and
    printed text; of the liquidator its command line, the download of the configuration
    over HTTP, log output, the signing of transactions and the transport.  A panic of
    the client ends it and leaves no outcome; what the tasks of that round had sent
    is its log ([round_log] of ClientRounds). *)

From stdpp Require Export base tactics numbers list option gmap.
From Stdlib Require Export ZArith Lia.

Open Scope Z_scope.

(** ** Results

    A Rust computation that returns [Result<A, E>] ends in one of three ways:
    [Ok a], [Err e], or a panic (an out-of-bounds index, an [unwrap] of the
    wrong variant, an [expect]).  A panic aborts the whole transaction just as
    an error does, but it carries no error value, so it is an outcome of its
    own. *)

Inductive result (E A : Type) : Type :=
| Ok (a : A)
| Err (e : E)
| Panic.
Arguments Ok {E A} a.
Arguments Err {E A} e.
Arguments Panic {E A}.

#[export] Instance result_ret E : MRet (result E) := fun A a => Ok a.

#[export] Instance result_bind E : MBind (result E) :=
  fun A B f m =>
    match m with
    | Ok a => f a
    | Err e => Err e
    | Panic => Panic
    end.

#[export] Instance result_fmap E : FMap (result E) :=
  fun A B f m =>
    match m with
    | Ok a => Ok (f a)
    | Err e => Err e
    | Panic => Panic
    end.

Definition is_Ok {E A} (m : result E A) : Prop := ∃ a, m = Ok a.

(** [Option::ok_or] *)
Definition ok_or {E A} (e : E) (o : option A) : result E A :=
  match o with
  | Some a => Ok a
  | None => Err e
  end.

(** [Option::unwrap] *)
Definition unwrap {E A} (o : option A) : result E A :=
  match o with
  | Some a => Ok a
  | None => Panic
  end.

(** [Result::unwrap] *)
Definition unwrap_result {E F A} (m : result E A) : result F A :=
  match m with
  | Ok a => Ok a
  | Err _ | Panic => Panic
  end.

(** [Result::map_err] *)
Definition map_err {E F A} (f : E -> F) (m : result E A) : result F A :=
  match m with
  | Ok a => Ok a
  | Err e => Err (f e)
  | Panic => Panic
  end.

(** [Result::unwrap_or]: a panic stays a panic. *)
Definition unwrap_or {E F A} (d : A) (m : result E A) : result F A :=
  match m with
  | Ok a => Ok a
  | Err _ => Ok d
  | Panic => Panic
  end.

(** [if cond { return Err(e) }] as a statement *)
Definition ensure {E} (cond : bool) (e : E) : result E unit :=
  if cond then Ok tt else Err e.

(** A [for] loop over a list whose body may fail, threading an accumulator. *)
Fixpoint try_fold {E A B} (f : B -> A -> result E B) (acc : B) (l : list A) : result E B :=
  match l with
  | [] => Ok acc
  | a :: l => acc ← f acc a; try_fold f acc l
  end.

(** ** Machine integers

    A [w]-bit unsigned integer is a [Z] in [[0, 2^w)].  [construct_uint!]
    types ([U192], [U128], [U256]) are such integers too.  The checked
    operations return [None] where the result leaves the range. *)

Definition in_width (w z : Z) : Prop := 0 ≤ z < 2 ^ w.

Abbreviation is_u8 := (in_width 8).
Abbreviation is_u32 := (in_width 32).
Abbreviation is_u64 := (in_width 64).
Abbreviation is_u128 := (in_width 128).
Abbreviation is_u192 := (in_width 192).
Abbreviation is_key := (in_width 256).

Definition u64_MAX : Z := 2 ^ 64 - 1.

Definition checked_add (w a b : Z) : option Z :=
  if a + b <? 2 ^ w then Some (a + b) else None.

Definition checked_sub (a b : Z) : option Z :=
  if b <=? a then Some (a - b) else None.

Definition checked_mul (w a b : Z) : option Z :=
  if a * b <? 2 ^ w then Some (a * b) else None.

Definition checked_div (a b : Z) : option Z :=
  if b =? 0 then None else Some (a / b).

Definition checked_pow (w a e : Z) : option Z :=
  if a ^ e <? 2 ^ w then Some (a ^ e) else None.

(** [uN::try_from] of a wider unsigned integer *)
Definition narrow (w a : Z) : option Z :=
  if a <? 2 ^ w then Some a else None.

(** Two's complement reading of a [w]-bit pattern *)
Definition to_signed (w z : Z) : Z :=
  if z <? 2 ^ (w - 1) then z else z - 2 ^ w.

(** ** Bytes

    A byte is a [Z] in [[0, 256)]; buffers are lists of bytes.  A fixed-size
    array that the program only copies and compares (a public key, a quote
    currency) is held as the little-endian number of its bytes. *)

Fixpoint le_bytes (n : nat) (z : Z) : list Z :=
  match n with
  | O => []
  | S n => z mod 256 :: le_bytes n (z / 256)
  end.

Fixpoint of_le_bytes (l : list Z) : Z :=
  match l with
  | [] => 0
  | b :: l => b + 256 * of_le_bytes l
  end.

(** [array_refs!] and [mut_array_refs!]: the consecutive sub-arrays of the
    given sizes. *)
Fixpoint array_refs {A} (sizes : list nat) (l : list A) : list (list A) :=
  match sizes with
  | [] => []
  | n :: ns => take n l :: array_refs ns (drop n l)
  end.

(** The [i]-th of the sub-arrays. *)
Definition seg {A} (i : nat) (segs : list (list A)) : list A := nth i segs [].

(** ** Automation *)

Create HintDb lending.

(** [inv_ok] takes apart hypotheses of the form [_ = Ok _] that a run of the
    program leaves: binds, early returns, injections. *)

Lemma bind_Ok {E A B} (m : result E A) (f : A -> result E B) b :
  (m ≫= f) = Ok b ↔ ∃ a, m = Ok a ∧ f a = Ok b.
Proof. destruct m; cbn; naive_solver. Qed.

Lemma bind_Err {E A B} (m : result E A) (f : A -> result E B) e :
  (m ≫= f) = Err e ↔ m = Err e ∨ ∃ a, m = Ok a ∧ f a = Err e.
Proof. destruct m; cbn; naive_solver. Qed.

Lemma bind_Panic {E A B} (m : result E A) (f : A -> result E B) :
  (m ≫= f) = Panic ↔ m = Panic ∨ ∃ a, m = Ok a ∧ f a = Panic.
Proof. destruct m; cbn; naive_solver. Qed.

Lemma fmap_Ok {E A B} (m : result E A) (f : A -> B) b :
  (f <$> m) = Ok b ↔ ∃ a, m = Ok a ∧ f a = b.
Proof. destruct m; cbn; naive_solver. Qed.

Lemma ok_or_Ok {E A} (e : E) (o : option A) a : ok_or e o = Ok a ↔ o = Some a.
Proof. destruct o; cbn; naive_solver. Qed.

Lemma unwrap_Ok {E A} (o : option A) (a : A) : (unwrap o : result E A) = Ok a ↔ o = Some a.
Proof. destruct o; cbn; naive_solver. Qed.

Lemma unwrap_result_Ok {E F A} (m : result E A) a : (unwrap_result m : result F A) = Ok a ↔ m = Ok a.
Proof. destruct m; cbn; naive_solver. Qed.

Lemma map_err_Ok {E F A} (f : E -> F) (m : result E A) a : map_err f m = Ok a ↔ m = Ok a.
Proof. destruct m; cbn; naive_solver. Qed.

Lemma ensure_Ok {E} (c : bool) (e : E) u : ensure c e = Ok u ↔ c = true.
Proof. destruct c, u; cbn; naive_solver. Qed.

Lemma ensure_Err {E} (c : bool) (e e' : E) : ensure c e = Err e' ↔ c = false ∧ e = e'.
Proof. destruct c; cbn; naive_solver. Qed.

Lemma checked_add_Some w a b c :
  checked_add w a b = Some c ↔ c = a + b ∧ a + b < 2 ^ w.
Proof. unfold checked_add. destruct (Z.ltb_spec (a + b) (2 ^ w)); naive_solver lia. Qed.

Lemma checked_sub_Some a b c : checked_sub a b = Some c ↔ c = a - b ∧ b ≤ a.
Proof. unfold checked_sub. destruct (Z.leb_spec b a); naive_solver lia. Qed.

Lemma checked_mul_Some w a b c :
  checked_mul w a b = Some c ↔ c = a * b ∧ a * b < 2 ^ w.
Proof. unfold checked_mul. destruct (Z.ltb_spec (a * b) (2 ^ w)); naive_solver lia. Qed.

Lemma checked_div_Some a b c : checked_div a b = Some c ↔ c = a / b ∧ b ≠ 0.
Proof. unfold checked_div. destruct (Z.eqb_spec b 0); naive_solver. Qed.

Lemma checked_pow_Some w a e c :
  checked_pow w a e = Some c ↔ c = a ^ e ∧ a ^ e < 2 ^ w.
Proof. unfold checked_pow. destruct (Z.ltb_spec (a ^ e) (2 ^ w)); naive_solver lia. Qed.

Lemma narrow_Some w a c : narrow w a = Some c ↔ c = a ∧ a < 2 ^ w.
Proof. unfold narrow. destruct (Z.ltb_spec a (2 ^ w)); naive_solver lia. Qed.

Ltac inv_ok_step :=
  match goal with
  | H : (_ ≫= _) = Ok _ |- _ => apply bind_Ok in H as (? & ? & H)
  | H : (_ <$> _) = Ok _ |- _ => apply fmap_Ok in H as (? & ? & H)
  | H : mret _ = Ok _ |- _ => unfold mret, result_ret in H
  | H : Ok _ = Ok _ |- _ => injection H as H
  | H : Err _ = Ok _ |- _ => discriminate H
  | H : Panic = Ok _ |- _ => discriminate H
  | H : ok_or _ _ = Ok _ |- _ => apply ok_or_Ok in H
  | H : unwrap _ = Ok _ |- _ => apply unwrap_Ok in H
  | H : map_err _ _ = Ok _ |- _ => apply map_err_Ok in H
  | H : ensure _ _ = Ok _ |- _ => apply ensure_Ok in H
  | H : checked_add _ _ _ = Some _ |- _ => apply checked_add_Some in H as [H ?]
  | H : checked_sub _ _ = Some _ |- _ => apply checked_sub_Some in H as [H ?]
  | H : checked_mul _ _ _ = Some _ |- _ => apply checked_mul_Some in H as [H ?]
  | H : checked_div _ _ = Some _ |- _ => apply checked_div_Some in H as [H ?]
  | H : checked_pow _ _ _ = Some _ |- _ => apply checked_pow_Some in H as [H ?]
  | H : narrow _ _ = Some _ |- _ => apply narrow_Some in H as [H ?]
  | H : ?x = ?y |- _ => is_var x; subst x
  | H : ?x = ?y |- _ => is_var y; subst y
  end.

Ltac inv_ok := repeat inv_ok_step.

(** Turn the boolean tests of the code into propositions. *)
Ltac bool_to_prop :=
  repeat match goal with
  | H : negb _ = true |- _ => apply negb_true_iff in H
  | H : negb _ = false |- _ => apply negb_false_iff in H
  | H : (_ && _)%bool = true |- _ => apply andb_true_iff in H as [? ?]
  | H : (_ || _)%bool = false |- _ => apply orb_false_iff in H as [? ?]
  | H : (_ =? _) = true |- _ => apply Z.eqb_eq in H
  | H : (_ =? _) = false |- _ => apply Z.eqb_neq in H
  | H : (_ <? _) = true |- _ => apply Z.ltb_lt in H
  | H : (_ <? _) = false |- _ => apply Z.ltb_ge in H
  | H : (_ <=? _) = true |- _ => apply Z.leb_le in H
  | H : (_ <=? _) = false |- _ => apply Z.leb_gt in H
  end.

(** Membership in an explicit list *)
Ltac solve_in := repeat first [apply list_elem_of_here | apply list_elem_of_further].

(** Case analysis on the first [if] of a hypothesis [_ = Ok _]. *)
Ltac case_if_in H :=
  match type of H with
  | context [if ?b then _ else _] => let E := fresh "E" in destruct b eqn:E
  end.

(** ** Lemmas on integers *)

Lemma in_width_dec_spec w z :
  (0 <=? z) && (z <? 2 ^ w) = true ↔ in_width w z.
Proof. unfold in_width. rewrite andb_true_iff, Z.leb_le, Z.ltb_lt. done. Qed.

#[export] Instance in_width_dec w z : Decision (in_width w z).
Proof. unfold in_width. apply _. Defined.

Lemma in_width_nonneg w z : in_width w z → 0 ≤ z.
Proof. by intros []. Qed.

Lemma in_width_mono w w' z : in_width w z → 0 ≤ w ≤ w' → in_width w' z.
Proof.
  intros [? ?] [? ?]. split; [done|].
  apply Z.lt_le_trans with (2 ^ w); [done|]. by apply Z.pow_le_mono_r.
Qed.

#[export] Hint Resolve in_width_nonneg : lending.

Lemma div_bounds a b : 0 < b → b * (a / b) ≤ a < b * (a / b) + b.
Proof.
  intros Hb. pose proof (Z.div_mod a b). pose proof (Z.mod_pos_bound a b). lia.
Qed.

Lemma div_le_upper a b c : 0 < b → a ≤ b * c → a / b ≤ c.
Proof. intros. by apply Z.div_le_upper_bound. Qed.

(** [floor (a / b)] does not grow past [c] when [a] stays under [b * (c + 1)]. *)
Lemma div_lt_upper a b c : 0 < b → a < b * c → a / b < c.
Proof. intros. by apply Z.div_lt_upper_bound. Qed.

Lemma div_mul_le_r a b c : 0 ≤ a → 0 ≤ b → 0 < c → b ≤ c → a * b / c ≤ a.
Proof. intros. apply Z.div_le_upper_bound; nia. Qed.

Lemma div_mul_ge_r a b c : 0 ≤ a → 0 < c → c ≤ b → a ≤ a * b / c.
Proof. intros. apply Z.div_le_lower_bound; nia. Qed.

(** ** Lemmas on bytes *)

Definition is_byte (z : Z) : Prop := 0 ≤ z < 256.

Lemma length_le_bytes n z : length (le_bytes n z) = n.
Proof. revert z. induction n; intros; cbn; auto. Qed.

Lemma le_bytes_is_byte n z : Forall is_byte (le_bytes n z).
Proof.
  revert z. induction n; intros; cbn; constructor; auto.
  unfold is_byte. pose proof (Z.mod_pos_bound z 256). lia.
Qed.

Lemma pow256_S n : 2 ^ (8 * Z.of_nat (S n)) = 256 * 2 ^ (8 * Z.of_nat n).
Proof.
  replace (8 * Z.of_nat (S n)) with (8 + 8 * Z.of_nat n) by lia.
  rewrite Z.pow_add_r by lia. done.
Qed.

(** Decoding what was encoded gives the number back, when it fits. *)
Lemma of_le_bytes_le_bytes n z :
  in_width (8 * Z.of_nat n) z → of_le_bytes (le_bytes n z) = z.
Proof.
  revert z. induction n as [|n IH]; intros z [H0 H1].
  - cbn in *. lia.
  - rewrite pow256_S in H1. cbn [le_bytes of_le_bytes].
    rewrite IH.
    + pose proof (Z.div_mod z 256). lia.
    + split; [apply Z.div_pos; lia | apply Z.div_lt_upper_bound; lia].
Qed.

Lemma of_le_bytes_bound l :
  Forall is_byte l → in_width (8 * Z.of_nat (length l)) (of_le_bytes l).
Proof.
  induction 1 as [|b l Hb _ IH]; cbn [of_le_bytes length].
  - split; cbn; lia.
  - unfold in_width, is_byte in *. rewrite pow256_S. lia.
Qed.

(** Encoding what was decoded gives the bytes back. *)
Lemma le_bytes_of_le_bytes l :
  Forall is_byte l → le_bytes (length l) (of_le_bytes l) = l.
Proof.
  induction 1 as [|b l Hb Hl IH]; cbn [of_le_bytes length le_bytes]; [done|].
  unfold is_byte in *. f_equal.
  - rewrite (Z.mul_comm 256), Z_mod_plus_full. apply Z.mod_small. lia.
  - rewrite (Z.mul_comm 256), Z_div_plus_full, Z.div_small by lia. done.
Qed.

Lemma le_bytes_inj n x y :
  in_width (8 * Z.of_nat n) x → in_width (8 * Z.of_nat n) y →
  le_bytes n x = le_bytes n y → x = y.
Proof.
  intros Hx Hy E. apply (f_equal of_le_bytes) in E.
  by rewrite !of_le_bytes_le_bytes in E.
Qed.

(** ** Lemmas on sub-arrays *)

Lemma array_refs_concat {A} (segs : list (list A)) sizes rest :
  length <$> segs = sizes → array_refs sizes (concat segs ++ rest) = segs.
Proof.
  revert sizes. induction segs as [|s segs IH]; intros sizes <-; cbn; [done|].
  rewrite <- (assoc_L (++)), take_app_length, drop_app_length. f_equal. by apply IH.
Qed.

Lemma array_refs_concat' {A} (segs : list (list A)) sizes :
  length <$> segs = sizes → array_refs sizes (concat segs) = segs.
Proof.
  intros H. rewrite <- (app_nil_r (concat segs)). by apply array_refs_concat.
Qed.

Lemma length_concat_sum {A} (segs : list (list A)) :
  length (concat segs) = sum_list (length <$> segs).
Proof. induction segs; cbn; [done|]. rewrite length_app. by f_equal. Qed.

Lemma length_array_refs {A} sizes (l : list A) : length (array_refs sizes l) = length sizes.
Proof. revert l. induction sizes; intros; cbn; auto. Qed.

Lemma lengths_array_refs {A} sizes (l : list A) :
  (sum_list sizes ≤ length l)%nat → length <$> array_refs sizes l = sizes.
Proof.
  revert l. induction sizes as [|n ns IH]; intros l H; cbn in *; [done|].
  f_equal; [rewrite length_take; lia | apply IH; rewrite length_drop; lia].
Qed.

Lemma Forall_array_refs {A} (P : A -> Prop) sizes l :
  Forall P l → Forall (Forall P) (array_refs sizes l).
Proof.
  revert l. induction sizes; intros; cbn; constructor.
  - by apply Forall_take.
  - apply IHsizes. by apply Forall_drop.
Qed.

Lemma concat_array_refs {A} sizes (l : list A) :
  concat (array_refs sizes l) = take (sum_list sizes) l.
Proof.
  revert l. induction sizes as [|n ns IH]; intros l; cbn [array_refs concat sum_list fold_right].
  - done.
  - rewrite IH. change (sum_list (n :: ns)) with (n + sum_list ns)%nat.
    by rewrite take_take_drop.
Qed.

(** The [i]-th sub-array has the [i]-th size. *)
Lemma length_seg {A} i n sizes (l : list A) :
  (sum_list sizes ≤ length l)%nat → sizes !! i = Some n →
  length (seg i (array_refs sizes l)) = n.
Proof.
  intros Hl Hi. pose proof (lengths_array_refs sizes l Hl) as H.
  rewrite <- H, list_lookup_fmap in Hi. unfold seg.
  destruct (array_refs sizes l !! i) as [s|] eqn:E; [|done].
  rewrite (nth_lookup_Some _ _ _ _ E). by injection Hi.
Qed.

Lemma Forall_seg {A} (P : A → Prop) i sizes (l : list A) :
  Forall P l → Forall P (seg i (array_refs sizes l)).
Proof.
  intros H. pose proof (Forall_array_refs P sizes l H) as Hs. unfold seg.
  rewrite nth_lookup. destruct (array_refs sizes l !! i) eqn:E; cbn; [|done].
  by eapply Forall_lookup_1 in Hs.
Qed.

(** Re-encoding the number read from a sub-array gives the sub-array. *)
Lemma le_bytes_seg i n sizes l :
  Forall is_byte l → (sum_list sizes ≤ length l)%nat → sizes !! i = Some n →
  le_bytes n (of_le_bytes (seg i (array_refs sizes l))) = seg i (array_refs sizes l).
Proof.
  intros Hb Hl Hi. rewrite <- (length_seg i n sizes l Hl Hi) at 1.
  apply le_bytes_of_le_bytes. by apply Forall_seg.
Qed.

(** The number read from a sub-array has its width. *)
Lemma seg_in_width i n sizes l :
  Forall is_byte l → (sum_list sizes ≤ length l)%nat → sizes !! i = Some n →
  in_width (8 * Z.of_nat n) (of_le_bytes (seg i (array_refs sizes l))).
Proof.
  intros Hb Hl Hi. rewrite <- (length_seg i n sizes l Hl Hi).
  apply of_le_bytes_bound. by apply Forall_seg.
Qed.

(** Gluing all sub-arrays and the rest back together. *)
Lemma concat_segs {A} sizes (l : list A) :
  concat (array_refs sizes l) ++ drop (sum_list sizes) l = l.
Proof. rewrite concat_array_refs. apply take_drop. Qed.

(** A list is the list of its entries. *)
Lemma segs_eta {A} (segs : list (list A)) n :
  length segs = n → segs = (λ i, seg i segs) <$> seq 0 n.
Proof.
  intros <-. apply list_eq. intros i. rewrite list_lookup_fmap.
  destruct (decide (i < length segs)%nat) as [H|H].
  - rewrite lookup_seq_lt by done. cbn. unfold seg.
    destruct (lookup_lt_is_Some_2 segs i H) as [s E]. by rewrite (nth_lookup_Some _ _ _ _ E).
  - rewrite lookup_seq_ge, lookup_ge_None_2 by lia. done.
Qed.

(** Writing all the sub-arrays of a layout over a buffer. *)
Lemma overwrite_segs {A} (segs : list (list A)) sizes output n :
  length <$> segs = sizes → sum_list sizes = n → (n ≤ length output)%nat →
  length (concat segs ++ drop n output) = length output ∧
  drop n (concat segs ++ drop n output) = drop n output ∧
  array_refs sizes (concat segs ++ drop n output) = segs.
Proof.
  intros Hs <- Hn. pose proof (length_concat_sum segs) as Hc. rewrite Hs in Hc.
  split; [|split].
  - rewrite length_app, length_drop. lia.
  - rewrite drop_app_ge, Hc, Nat.sub_diag by lia. done.
  - by apply array_refs_concat.
Qed.

#[global] Arguments array_refs : simpl never.
#[global] Arguments le_bytes : simpl never.

(** ** Lemmas on loops *)

(** The invariant of a loop *)
Lemma try_fold_ind {E A B} (P : B → Prop) (f : B → A → result E B) acc l b :
  try_fold f acc l = Ok b → P acc → (∀ b a b', a ∈ l → P b → f b a = Ok b' → P b') → P b.
Proof.
  revert acc. induction l as [|a l IH]; intros acc; cbn [try_fold]; [by intros [= <-]|].
  intros (b1 & H1 & H2)%bind_Ok Hacc HP. apply (IH b1 H2).
  - eapply HP; [apply list_elem_of_here|done..].
  - intros b2 a' b3 Ha. apply HP. by apply list_elem_of_further.
Qed.

Lemma try_fold_ext {E A B} (f g : B → A → result E B) acc l :
  (∀ b a, f b a = g b a) → try_fold f acc l = try_fold g acc l.
Proof.
  intros Hfg. revert acc. induction l as [|a l IH]; intros acc; cbn [try_fold]; [done|].
  rewrite Hfg. destruct (g acc a); cbn; auto.
Qed.

(** A loop whose body does not fail does not fail. *)
Lemma try_fold_is_Ok {E A B} (f : B → A → result E B) acc l :
  (∀ b a, a ∈ l → is_Ok (f b a)) → is_Ok (try_fold f acc l).
Proof.
  revert acc. induction l as [|a l IH]; intros acc Hf; cbn [try_fold]; [by eexists|].
  destruct (Hf acc a) as [b Hb]; [apply list_elem_of_here|]. rewrite Hb. apply IH.
  intros b' a' Ha. apply Hf. by apply list_elem_of_further.
Qed.

(** A loop fails only where its body does. *)
Lemma try_fold_Err {E A B} (f : B → A → result E B) acc l e :
  try_fold f acc l = Err e → ∃ b a, a ∈ l ∧ f b a = Err e.
Proof.
  revert acc. induction l as [|a l IH]; intros acc; cbn [try_fold]; [done|].
  intros [He|(b & _ & He)]%bind_Err.
  - exists acc, a. split; [apply list_elem_of_here|done].
  - destruct (IH b He) as (b' & a' & Ha & Hf). exists b', a'. split; [by apply list_elem_of_further|done].
Qed.

(** A loop that pushes one element per round *)
Lemma try_fold_push {E A B} (f : A → result E B) acc l r :
  try_fold (λ r a, b ← f a; mret (r ++ [b])) acc l = Ok r ↔
  ∃ bs, r = acc ++ bs ∧ Forall2 (λ a b, f a = Ok b) l bs.
Proof.
  revert acc. induction l as [|a l IH]; intros acc; cbn [try_fold].
  - split.
    + intros [= <-]. exists []. by rewrite app_nil_r.
    + intros (bs & -> & ->%Forall2_nil_inv_l). by rewrite app_nil_r.
  - rewrite bind_Ok. setoid_rewrite bind_Ok. setoid_rewrite IH. split.
    + intros (_ & (b & Hb & [= <-]) & bs & -> & Hbs). exists (b :: bs).
      rewrite <- (assoc_L (++)). by split; [|constructor].
    + intros (bs & -> & (b & bs' & Hb & Hbs & ->)%Forall2_cons_inv_l).
      exists (acc ++ [b]). split; [by exists b|]. exists bs'. by rewrite <- (assoc_L (++)).
Qed.

(** Tasks that are all awaited *)
Lemma mapM_Ok {E A B} (f : A → result E B) l bs :
  mapM f l = Ok bs ↔ Forall2 (λ a b, f a = Ok b) l bs.
Proof.
  revert bs. induction l as [|a l IH]; intros bs; cbn.
  - split; [by intros [= <-]|]. by intros ->%Forall2_nil_inv_l.
  - rewrite bind_Ok. setoid_rewrite bind_Ok. setoid_rewrite IH. split.
    + intros (b & Hb & bs' & Hbs & [= <-]). by constructor.
    + intros (b & bs' & Hb & Hbs & ->)%Forall2_cons_inv_l. exists b. split; [done|]. by exists bs'.
Qed.

(** A loop that inserts one entry per round, under distinct keys *)
Lemma try_fold_insert {E A B K} `{Countable K} (key : A → K) (f : A → result E B) acc l m :
  try_fold (λ (m : gmap K B) a, b ← f a; mret (<[key a := b]> m)) acc l = Ok m →
  NoDup (key <$> l) →
  (∀ a, a ∈ l → ∃ b, f a = Ok b ∧ m !! key a = Some b) ∧ (∀ k, k ∉ key <$> l → m !! k = acc !! k).
Proof.
  revert acc. induction l as [|a l IH]; intros acc; cbn [try_fold].
  - intros [= <-] _. split; [|done]. by intros a ?%elem_of_nil.
  - intros (m1 & (b & Hb & [= <-])%bind_Ok & Hm)%bind_Ok [Ha Hd]%NoDup_cons.
    destruct (IH _ Hm Hd) as [Hin Hout]. split.
    + intros a' [->|Ha']%elem_of_cons; [|by apply Hin]. exists b. split; [done|].
      by rewrite Hout, lookup_insert_eq.
    + cbn [fmap list_fmap]. intros k [Hk Hk']%not_elem_of_cons.
      rewrite (Hout k Hk'). by apply lookup_insert_ne.
Qed.
