(* ===== verification/Layouts.v ===== *)
(** * Packed layouts

    How a [#[repr(packed)]] struct lies in bytes, one field after the other: a
    [Layout] reads and writes a fixed number of bytes, layouts of fields combine
    to the layout of a struct, and [LayoutOk] is what an unchecked cast between
    bytes and struct ([bytemuck]) relies on: on values that fit their fields the
    two directions are inverse to each other. *)

From S2P Require Import Prelude.

Record Layout (A : Type) : Type := mkLayout {
  lay_size : nat;
  lay_read : list Z → A;
  lay_write : A → list Z;
  lay_valid : A → Prop;
}.
Declare Scope layout_scope.
Delimit Scope layout_scope with layout.
Bind Scope layout_scope with Layout.
Arguments mkLayout {A}.
Arguments lay_size {A}.
Arguments lay_read {A}.
Arguments lay_write {A}.
Arguments lay_valid {A}.

Class LayoutOk {A} (L : Layout A) : Prop := {
  lay_write_ok a : lay_valid L a → length (lay_write L a) = lay_size L ∧ Forall is_byte (lay_write L a);
  lay_read_write a : lay_valid L a → lay_read L (lay_write L a) = a;
  lay_read_valid bs : length bs = lay_size L → Forall is_byte bs → lay_valid L (lay_read L bs);
  lay_write_read bs : length bs = lay_size L → Forall is_byte bs → lay_write L (lay_read L bs) = bs;
}.

(** ** Fields *)

(** An unsigned integer of [n] bytes; a [Pubkey] is one of 32. *)
Definition uint (n : nat) : Layout Z :=
  mkLayout n of_le_bytes (le_bytes n) (in_width (8 * Z.of_nat n)).

(** A signed integer of [n] bytes, in two's complement *)
Definition sint (n : nat) : Layout Z :=
  let w := 8 * Z.of_nat n in
  mkLayout n (λ bs, to_signed w (of_le_bytes bs)) (λ z, le_bytes n (z mod 2 ^ w))
    (λ z, - 2 ^ (w - 1) ≤ z < 2 ^ (w - 1)).

(** [[u8; n]] *)
Definition raw (n : nat) : Layout (list Z) :=
  mkLayout n (λ bs, bs) (λ bs, bs) (λ bs, length bs = n ∧ Forall is_byte bs).

Fixpoint chunks (n size : nat) (bs : list Z) : list (list Z) :=
  match n with O => [] | S n => take size bs :: chunks n size (drop size bs) end.

(** [[A; n]] *)
Definition array {A} (n : nat) (L : Layout A) : Layout (list A) :=
  mkLayout (n * lay_size L) (λ bs, lay_read L <$> chunks n (lay_size L) bs)
    (λ l, concat (lay_write L <$> l)) (λ l, length l = n ∧ Forall (lay_valid L) l).

Definition both {A B} (L : Layout A) (K : Layout B) : Layout (A * B) :=
  mkLayout (lay_size L + lay_size K)
    (λ bs, (lay_read L (take (lay_size L) bs), lay_read K (drop (lay_size L) bs)))
    (λ p, lay_write L p.1 ++ lay_write K p.2) (λ p, lay_valid L p.1 ∧ lay_valid K p.2).

(** The tuple of the fields as a record *)
Definition fields {A B} (L : Layout A) (make : A → B) (parts : B → A) : Layout B :=
  mkLayout (lay_size L) (λ bs, make (lay_read L bs)) (λ b, lay_write L (parts b))
    (λ b, lay_valid L (parts b)).

Infix "⊗" := both (at level 40, left associativity) : layout_scope.

(** ** They are inverse to each other *)

#[export] Instance uint_ok n : LayoutOk (uint n).
Proof.
  split; cbn.
  - intros z _. split; [apply length_le_bytes|apply le_bytes_is_byte].
  - intros z Hz. by apply of_le_bytes_le_bytes.
  - intros bs <- Hb. by apply of_le_bytes_bound.
  - intros bs <- Hb. by apply le_bytes_of_le_bytes.
Qed.

Lemma pow2_half w : 0 < w → 2 ^ w = 2 * 2 ^ (w - 1).
Proof. intros. rewrite <- Z.pow_succ_r by lia. f_equal. lia. Qed.

Lemma to_signed_range w z :
  0 < w → in_width w z → - 2 ^ (w - 1) ≤ to_signed w z < 2 ^ (w - 1) ∧ to_signed w z mod 2 ^ w = z.
Proof.
  intros Hw [H0 H1]. unfold to_signed. pose proof (pow2_half w Hw) as E.
  destruct (Z.ltb_spec z (2 ^ (w - 1))).
  - split; [lia|]. by apply Z.mod_small.
  - split; [lia|]. rewrite <- (Z.mod_add _ 1) by lia. rewrite Z.mod_small by lia. lia.
Qed.

Lemma to_signed_mod w z : 0 < w → - 2 ^ (w - 1) ≤ z < 2 ^ (w - 1) → to_signed w (z mod 2 ^ w) = z.
Proof.
  intros Hw Hz. pose proof (pow2_half w Hw) as E. unfold to_signed.
  destruct (Z.lt_ge_cases z 0).
  - rewrite <- (Z.mod_add _ 1) by lia. rewrite Z.mod_small by lia.
    destruct (Z.ltb_spec (z + 1 * 2 ^ w) (2 ^ (w - 1))); lia.
  - rewrite Z.mod_small by lia. destruct (Z.ltb_spec z (2 ^ (w - 1))); lia.
Qed.

Lemma mod_in_width w z : 0 ≤ w → in_width w (z mod 2 ^ w).
Proof. intros. apply Z.mod_pos_bound. by apply Z.pow_pos_nonneg. Qed.

#[export] Instance sint_ok n : LayoutOk (sint (S n)).
Proof.
  set (w := 8 * Z.of_nat (S n)). assert (Hw : 0 < w) by lia. split; cbn [sint lay_size lay_read lay_write lay_valid]; fold w.
  - intros z _. split; [apply length_le_bytes|apply le_bytes_is_byte].
  - intros z Hz. rewrite of_le_bytes_le_bytes by (apply mod_in_width; lia). by apply to_signed_mod.
  - intros bs Hl Hb. apply to_signed_range; [done|]. unfold w. rewrite <- Hl. by apply of_le_bytes_bound.
  - intros bs Hl Hb. assert (Hr : in_width w (of_le_bytes bs)) by (unfold w; rewrite <- Hl; by apply of_le_bytes_bound).
    rewrite (proj2 (to_signed_range w _ Hw Hr)), <- Hl. by apply le_bytes_of_le_bytes.
Qed.

#[export] Instance raw_ok n : LayoutOk (raw n).
Proof. by split; cbn. Qed.

Section ok.
Context {A B : Type} (L : Layout A) (K : Layout B) `{OL : !LayoutOk L} `{OK : !LayoutOk K}.

Lemma chunks_ok n bs :
  length bs = (n * lay_size L)%nat → Forall is_byte bs →
  length (chunks n (lay_size L) bs) = n ∧ concat (chunks n (lay_size L) bs) = bs ∧
  Forall (λ c, length c = lay_size L ∧ Forall is_byte c) (chunks n (lay_size L) bs).
Proof.
  revert bs. induction n as [|n IH]; intros bs Hl Hb; cbn in *.
  - by apply nil_length_inv in Hl as ->.
  - destruct (IH (drop (lay_size L) bs)) as (H1 & H2 & H3); [rewrite length_drop; lia|by apply Forall_drop|].
    split; [by f_equal|]. split; [by rewrite H2, take_drop|]. constructor; [|done].
    split; [rewrite length_take; lia|by apply Forall_take].
Qed.

Lemma chunks_concat (cs : list (list Z)) :
  Forall (λ c, length c = lay_size L) cs → chunks (length cs) (lay_size L) (concat cs) = cs.
Proof.
  induction 1 as [|c cs Hc _ IH]; cbn; [done|]. by rewrite <- Hc, take_app_length, drop_app_length, Hc, IH.
Qed.

#[export] Instance array_ok n : LayoutOk (array n L).
Proof.
  split; cbn.
  - intros l [Hl Hv]. revert n Hl. induction Hv as [|a l Ha _ IH]; intros n <-; cbn; [by split|].
    destruct (IH _ eq_refl), (lay_write_ok a Ha) as [E ?]. rewrite length_app, E.
    split; [by f_equal|by apply Forall_app_2].
  - intros l [<- Hv]. rewrite <- (length_fmap (lay_write L) l), chunks_concat.
    + rewrite <- list_fmap_compose. rewrite <- (list_fmap_id l) at 2. apply list_fmap_ext.
      intros i a Ha. apply lay_read_write. by eapply (Forall_lookup_1 _ _ _ _ Hv).
    + apply Forall_fmap. eapply Forall_impl; [exact Hv|]. intros a Ha. by apply lay_write_ok.
  - intros bs Hl Hb. destruct (chunks_ok n bs Hl Hb) as (H1 & _ & H3). rewrite length_fmap. split; [done|].
    apply Forall_fmap. eapply Forall_impl; [exact H3|]. intros c []. by apply lay_read_valid.
  - intros bs Hl Hb. destruct (chunks_ok n bs Hl Hb) as (_ & H2 & H3). rewrite <- H2 at 2. f_equal.
    rewrite <- list_fmap_compose. rewrite <- (list_fmap_id (chunks _ _ _)) at 2. apply list_fmap_ext.
    intros i c Hc. eapply Forall_lookup_1 in H3 as []; [|exact Hc]. by apply lay_write_read.
Qed.

#[export] Instance both_ok : LayoutOk (both L K).
Proof.
  split; cbn.
  - intros [a b] [Ha Hb]. cbn in *. destruct (lay_write_ok a Ha) as [E1 ?], (lay_write_ok b Hb) as [E2 ?].
    rewrite length_app, E1, E2. split; [done|by apply Forall_app_2].
  - intros [a b] [Ha Hb]. cbn in *. destruct (lay_write_ok a Ha) as [E1 _].
    rewrite <- E1 at 1 2. rewrite take_app_length, drop_app_length. by rewrite !lay_read_write.
  - intros bs Hl Hb. split; apply lay_read_valid;
      first [by apply Forall_take|by apply Forall_drop|rewrite ?length_take, ?length_drop; lia].
  - intros bs Hl Hb. rewrite !lay_write_read; [apply take_drop|..];
      first [by apply Forall_take|by apply Forall_drop|rewrite ?length_take, ?length_drop; lia].
Qed.

Lemma fields_ok {C} (make : A → C) (parts : C → A) :
  (∀ a, parts (make a) = a) → (∀ c, make (parts c) = c) → LayoutOk (fields L make parts).
Proof.
  intros H1 H2. split; cbn.
  - intros c. apply lay_write_ok.
  - intros c Hc. by rewrite lay_read_write.
  - intros bs. rewrite H1. apply lay_read_valid.
  - intros bs. rewrite H1. apply lay_write_read.
Qed.

End ok.

(** The layout of a record from those of its fields *)
Ltac solve_fields :=
  apply fields_ok; [apply _|intros; repeat match goal with p : (_ * _)%type |- _ => destruct p end; reflexivity
    |intros []; reflexivity].

(** The field of a record lies behind those before it. *)
Definition cast {E A} (L : Layout A) (data : list Z) : result E A :=
  if decide (length data = lay_size L) then Ok (lay_read L data) else Panic.

Lemma cast_Ok {E A} (L : Layout A) `{!LayoutOk L} data (a : A) :
  Forall is_byte data → (cast L data : result E A) = Ok a ↔ lay_valid L a ∧ data = lay_write L a.
Proof.
  intros Hb. unfold cast. case_decide as Hl; split.
  - intros [= <-]. by rewrite lay_write_read; [split; [apply lay_read_valid|]|..].
  - intros [Hv ->]. by rewrite lay_read_write.
  - done.
  - intros [Hv ->]. by destruct Hl, (lay_write_ok a Hv).
Qed.

(** The discriminator of an account and the record behind it.  The slice of the
    discriminator panics on data that is too short for it. *)
Definition read_tagged {E A} (tag : list Z) (L : Layout A) (mismatch : E) (data : list Z) : result E A :=
  if (length data <? length tag)%nat then Panic
  else if decide (take (length tag) data = tag) then cast L (drop (length tag) data)
  else Err mismatch.

Section tagged.
Context {E A : Type} (tag : list Z) (L : Layout A) `{!LayoutOk L} (mismatch : E).
Implicit Types (data : list Z).

Lemma read_tagged_Ok data a :
  Forall is_byte data →
  read_tagged tag L mismatch data = Ok a ↔ lay_valid L a ∧ data = tag ++ lay_write L a.
Proof.
  intros Hb. unfold read_tagged. split.
  - destruct (Nat.ltb_spec (length data) (length tag)); [done|]. case_decide as Hd; [|done].
    intros [Hv Hw]%(cast_Ok L); [|by apply Forall_drop]. split; [done|].
    rewrite <- Hw. rewrite <- Hd at 1. by rewrite take_drop.
  - intros [Hv ->]. apply Forall_app in Hb as [_ ?].
    rewrite length_app, (proj2 (Nat.ltb_ge _ _)) by lia.
    rewrite take_app_length, drop_app_length, decide_True by done. by apply (cast_Ok L).
Qed.

Lemma read_tagged_length data a :
  read_tagged tag L mismatch data = Ok a → length data = (length tag + lay_size L)%nat.
Proof.
  unfold read_tagged, cast. destruct (Nat.ltb_spec (length data) (length tag)); [done|].
  case_decide; [|done]. case_decide as Hl; [|done]. intros _. rewrite length_drop in Hl. lia.
Qed.

Lemma read_tagged_short data : (length data < length tag)%nat → read_tagged tag L mismatch data = Panic.
Proof. intros Hl. unfold read_tagged. by rewrite (proj2 (Nat.ltb_lt _ _)). Qed.

Lemma read_tagged_mismatch data :
  (length tag ≤ length data)%nat → take (length tag) data ≠ tag →
  read_tagged tag L mismatch data = Err mismatch.
Proof.
  intros Hl Ht. unfold read_tagged. by rewrite (proj2 (Nat.ltb_ge _ _)), decide_False.
Qed.

Lemma read_tagged_size data :
  take (length tag) data = tag → length data ≠ (length tag + lay_size L)%nat →
  read_tagged tag L mismatch data = Panic.
Proof.
  intros Ht Hl. unfold read_tagged, cast. destruct (Nat.ltb_spec (length data) (length tag)); [done|].
  rewrite decide_True, decide_False by (rewrite ?length_drop; lia || done). done.
Qed.

End tagged.
