(* ===== verification/Errors.v ===== *)
(** * Errors of the lending program

    [LendingError] is the enum of [token-lending/program/src/error.rs], in the
    order of its discriminants; [ProgramError] is the part of the Solana SDK's
    error type that the program builds or can receive.  [From] turns the one
    into the other by its discriminant. *)

From S2P Require Import Prelude.

Inductive LendingError : Type :=
| InstructionUnpackError
| AlreadyInitialized
| NotRentExempt
| InvalidMarketAuthority
| InvalidMarketOwner
| InvalidAccountOwner
| InvalidTokenOwner
| InvalidTokenAccount
| InvalidTokenMint
| InvalidTokenProgram
| InvalidAmount
| InvalidConfig
| InvalidSigner
| InvalidAccountInput
| MathOverflow
| TokenInitializeMintFailed
| TokenInitializeAccountFailed
| TokenTransferFailed
| TokenMintToFailed
| TokenBurnFailed
| InsufficientLiquidity
| ReserveCollateralDisabled
| ReserveStale
| WithdrawTooSmall
| WithdrawTooLarge
| BorrowTooSmall
| BorrowTooLarge
| RepayTooSmall
| LiquidationTooSmall
| ObligationHealthy
| ObligationStale
| ObligationReserveLimit
| InvalidObligationOwner
| ObligationDepositsEmpty
| ObligationBorrowsEmpty
| ObligationDepositsZero
| ObligationBorrowsZero
| InvalidObligationCollateral
| InvalidObligationLiquidity
| ObligationCollateralEmpty
| ObligationLiquidityEmpty
| NegativeInterestRate
| InvalidOracleConfig
| InvalidFlashLoanReceiverProgram
| NotEnoughLiquidityAfterFlashLoan
| NullOracleConfig
| InsufficientProtocolFeesToRedeem.

#[export] Instance LendingError_eq_dec : EqDecision LendingError.
Proof. solve_decision. Defined.

(** The discriminants, counted from the top. *)
Definition LendingError_all : list LendingError :=
  [InstructionUnpackError; AlreadyInitialized; NotRentExempt; InvalidMarketAuthority;
   InvalidMarketOwner; InvalidAccountOwner; InvalidTokenOwner; InvalidTokenAccount;
   InvalidTokenMint; InvalidTokenProgram; InvalidAmount; InvalidConfig; InvalidSigner;
   InvalidAccountInput; MathOverflow; TokenInitializeMintFailed;
   TokenInitializeAccountFailed; TokenTransferFailed; TokenMintToFailed; TokenBurnFailed;
   InsufficientLiquidity; ReserveCollateralDisabled; ReserveStale; WithdrawTooSmall;
   WithdrawTooLarge; BorrowTooSmall; BorrowTooLarge; RepayTooSmall; LiquidationTooSmall;
   ObligationHealthy; ObligationStale; ObligationReserveLimit; InvalidObligationOwner;
   ObligationDepositsEmpty; ObligationBorrowsEmpty; ObligationDepositsZero;
   ObligationBorrowsZero; InvalidObligationCollateral; InvalidObligationLiquidity;
   ObligationCollateralEmpty; ObligationLiquidityEmpty; NegativeInterestRate;
   InvalidOracleConfig; InvalidFlashLoanReceiverProgram;
   NotEnoughLiquidityAfterFlashLoan; NullOracleConfig; InsufficientProtocolFeesToRedeem].

(** [e as u32] *)
Definition LendingError_as_u32 (e : LendingError) : Z :=
  Z.of_nat (from_option fst 0%nat (list_find (e =.) LendingError_all)).

(** [ProgramError] of the Solana SDK, as far as the program meets it. *)
Inductive ProgramError : Type :=
| Custom (code : Z)
| InvalidArgument
| InvalidInstructionData
| InvalidAccountData
| AccountDataTooSmall
| InsufficientFunds
| IncorrectProgramId
| MissingRequiredSignature
| AccountAlreadyInitialized
| UninitializedAccount
| NotEnoughAccountKeys
| AccountBorrowFailed
| MaxSeedLengthExceeded
| InvalidSeeds.

#[export] Instance ProgramError_eq_dec : EqDecision ProgramError.
Proof. solve_decision. Defined.

(** [impl From<LendingError> for ProgramError]; a coercion, as the [?] and the
    [.into()] of the source insert it. *)
Definition ProgramError_from (e : LendingError) : ProgramError := Custom (LendingError_as_u32 e).
Coercion ProgramError_from : LendingError >-> ProgramError.

(** [ProgramResult]-valued computations *)
Abbreviation outcome := (result ProgramError).

(** [.ok_or(e)?] with a lending error *)
Definition ok_or_err {A} (e : LendingError) (o : option A) : outcome A :=
  ok_or (ProgramError_from e) o.

(** [.ok_or(LendingError::MathOverflow)?] *)
Definition ok_or_overflow {A} (o : option A) : outcome A := ok_or_err MathOverflow o.

(** [if !cond { return Err(e.into()); }] *)
Definition require (cond : bool) (e : LendingError) : outcome unit :=
  ensure cond (ProgramError_from e).

(** [return Err(e.into());] *)
Definition fail {A} (e : LendingError) : outcome A := Err (ProgramError_from e).

(** No two lending errors are reported by the same code. *)
Lemma LendingError_as_u32_inj e e' : LendingError_as_u32 e = LendingError_as_u32 e' → e = e'.
Proof.
  assert (H : ∀ e, LendingError_all !! Z.to_nat (LendingError_as_u32 e) = Some e)
    by (intros []; reflexivity).
  intros E. pose proof (H e) as H1. rewrite E, H in H1. congruence.
Qed.

#[export] Instance ProgramError_from_inj : Inj (=) (=) ProgramError_from.
Proof. intros e e' [= E]. by apply LendingError_as_u32_inj. Qed.

Lemma ok_or_err_Ok {A} e (o : option A) a : ok_or_err e o = Ok a ↔ o = Some a.
Proof. apply ok_or_Ok. Qed.

Lemma ok_or_overflow_Ok {A} (o : option A) a : ok_or_overflow o = Ok a ↔ o = Some a.
Proof. apply ok_or_Ok. Qed.

Lemma ok_or_overflow_no_panic {A} (o : option A) : ok_or_overflow o ≠ Panic.
Proof. by destruct o. Qed.

Lemma require_Ok c e u : require c e = Ok u ↔ c = true.
Proof. apply ensure_Ok. Qed.

Lemma require_Err c e e' : require c e = Err e' ↔ c = false ∧ e' = e.
Proof. unfold require. rewrite ensure_Err. naive_solver. Qed.

(** A guard that lets the rest of the handler run. *)
Lemma require_bind_Ok {A} c e (k : outcome A) a :
  (require c e ≫= λ _, k) = Ok a ↔ c = true ∧ k = Ok a.
Proof. destruct c; cbn; naive_solver. Qed.

(** One step of taking a successful run apart; [inv_run] does all of them. *)
Ltac inv_run_step :=
  first
    [ inv_ok_step
    | match goal with
      | H : ok_or_err _ _ = Ok _ |- _ => apply ok_or_err_Ok in H
      | H : ok_or_overflow _ = Ok _ |- _ => apply ok_or_overflow_Ok in H
      | H : require _ _ = Ok _ |- _ => apply require_Ok in H
      | H : fail _ = Ok _ |- _ => discriminate H
      end ].

Ltac inv_run := repeat inv_run_step.

(** [throws es m]: [m] does not panic, and when it fails, it is with one of the
    lending errors [es]. *)
Definition throws {A} (es : list LendingError) (m : outcome A) : Prop :=
  match m with
  | Ok _ => True
  | Err e => e ∈ ProgramError_from <$> es
  | Panic => False
  end.

Lemma throws_bind {A B} es (m : outcome A) (f : A → outcome B) :
  throws es m → (∀ a, m = Ok a → throws es (f a)) → throws es (m ≫= f).
Proof. destruct m; cbn; auto. Qed.

Lemma throws_fmap {A B} es (m : outcome A) (f : A → B) : throws es m → throws es (f <$> m).
Proof. by destruct m. Qed.

Lemma throws_mono {A} es es' (m : outcome A) : es ⊆ es' → throws es m → throws es' m.
Proof. intros Hs. destruct m; cbn; try done. intros He. set_solver. Qed.

Lemma throws_Ok {A} es (a : A) : throws es (Ok a).
Proof. done. Qed.

Lemma throws_ok_or_err {A} es e (o : option A) : e ∈ es → throws es (ok_or_err e o).
Proof. destruct o; cbn; [done|]. intros. by apply list_elem_of_fmap_2. Qed.

Lemma throws_ok_or_overflow {A} es (o : option A) : MathOverflow ∈ es → throws es (ok_or_overflow o).
Proof. apply throws_ok_or_err. Qed.

Lemma throws_require es c e : e ∈ es → throws es (require c e).
Proof. destruct c; cbn; [done|]. intros. by apply list_elem_of_fmap_2. Qed.

Lemma throws_fail {A} es e : e ∈ es → throws es (fail e : outcome A).
Proof. cbn. intros. by apply list_elem_of_fmap_2. Qed.

(** Goals [e ∈ [e1; ...; en]] on concrete lists. *)
Ltac solve_elem := repeat first [apply list_elem_of_here | apply list_elem_of_further].

#[export] Hint Resolve throws_Ok throws_fmap : lending.
#[export] Hint Extern 1 (_ ∈ _) => solve [solve_elem] : lending.
#[export] Hint Extern 2 (throws _ (_ ≫= _)) => apply throws_bind; [|intros ? ?] : lending.
#[export] Hint Resolve throws_ok_or_err throws_ok_or_overflow throws_require throws_fail : lending.
