(* ===== verification/FixedPoint.v ===== *)
(** * Fixed-point numbers

    [token-lending/program/src/math/]: [Decimal] is a 192-bit integer scaled by
    [WAD], [Rate] a 128-bit one.  The traits of [common.rs] are classes, their
    [impl]s the instances; the methods keep their names inside the Modules
    [Decimal] and [Rate]. *)

From S2P Require Import Prelude Errors.

(** ** common.rs *)

Definition SCALE : nat := 18.
Definition WAD : Z := 1000000000000000000.
Definition HALF_WAD : Z := 500000000000000000.
Definition PERCENT_SCALER : Z := 10000000000000000.

Class TrySub (A : Type) : Type := try_sub : A → A → outcome A.
Class TryAdd (A : Type) : Type := try_add : A → A → outcome A.
Class TryDiv (A RHS : Type) : Type := try_div : A → RHS → outcome A.
Class TryMul (A RHS : Type) : Type := try_mul : A → RHS → outcome A.

(** ** The number types *)

(** [pub struct Decimal(pub U192)] *)
Record Decimal : Type := mkDecimal { dec : Z }.

(** [pub struct Rate(pub U128)] *)
Record Rate : Type := mkRate { rat : Z }.

#[export] Instance Decimal_eq_dec : EqDecision Decimal.
Proof. solve_decision. Defined.
#[export] Instance Rate_eq_dec : EqDecision Rate.
Proof. solve_decision. Defined.

(** The invariant of each type: the width of its integer. *)
Definition Decimal_ok (d : Decimal) : Prop := is_u192 (dec d).
Definition Rate_ok (r : Rate) : Prop := is_u128 (rat r).

(** ** decimal.rs *)

Module Decimal.

Definition wad : Z := WAD.
Definition half_wad : Z := HALF_WAD.
Definition one : Decimal := mkDecimal wad.
Definition zero : Decimal := mkDecimal 0.

Definition from_percent (percent : Z) : Decimal := mkDecimal (percent * PERCENT_SCALER).

Definition to_scaled_val (self : Decimal) : outcome Z := ok_or_overflow (narrow 128 (dec self)).

Definition from_scaled_val (scaled_val : Z) : Decimal := mkDecimal scaled_val.

Definition try_round_u64 (self : Decimal) : outcome Z :=
  sum ← ok_or_overflow (checked_add 192 half_wad (dec self));
  rounded_val ← ok_or_overflow (checked_div sum wad);
  ok_or_overflow (narrow 64 rounded_val).

Definition try_ceil_u64 (self : Decimal) : outcome Z :=
  wad_less_one ← ok_or_overflow (checked_sub wad 1);
  sum ← ok_or_overflow (checked_add 192 wad_less_one (dec self));
  ceil_val ← ok_or_overflow (checked_div sum wad);
  ok_or_overflow (narrow 64 ceil_val).

Definition try_floor_u64 (self : Decimal) : outcome Z :=
  ceil_val ← ok_or_overflow (checked_div (dec self) wad);
  ok_or_overflow (narrow 64 ceil_val).

(** [From<u64>] and [From<u128>]; the product with [WAD] stays within 192 bits
    ([from_u128_ok]), so the panic of the unchecked [*] cannot happen. *)
Definition from_u64 (val : Z) : Decimal := mkDecimal (wad * val).
Definition from_u128 (val : Z) : Decimal := mkDecimal (wad * val).
Definition from_rate (val : Rate) : Decimal := mkDecimal (rat val).

Definition add (self rhs : Decimal) : outcome Decimal :=
  mkDecimal <$> ok_or_overflow (checked_add 192 (dec self) (dec rhs)).

Definition sub (self rhs : Decimal) : outcome Decimal :=
  mkDecimal <$> ok_or_overflow (checked_sub (dec self) (dec rhs)).

Definition div_u64 (self : Decimal) (rhs : Z) : outcome Decimal :=
  mkDecimal <$> ok_or_overflow (checked_div (dec self) rhs).

Definition div (self rhs : Decimal) : outcome Decimal :=
  n ← ok_or_overflow (checked_mul 192 (dec self) wad);
  mkDecimal <$> ok_or_overflow (checked_div n (dec rhs)).

Definition div_rate (self : Decimal) (rhs : Rate) : outcome Decimal := div self (from_rate rhs).

Definition mul_u64 (self : Decimal) (rhs : Z) : outcome Decimal :=
  mkDecimal <$> ok_or_overflow (checked_mul 192 (dec self) rhs).

Definition mul (self rhs : Decimal) : outcome Decimal :=
  p ← ok_or_overflow (checked_mul 192 (dec self) (dec rhs));
  mkDecimal <$> ok_or_overflow (checked_div p wad).

Definition mul_rate (self : Decimal) (rhs : Rate) : outcome Decimal := mul self (from_rate rhs).

(** The derived ordering. *)
Definition leb (a b : Decimal) : bool := dec a <=? dec b.
Definition ltb (a b : Decimal) : bool := dec a <? dec b.
Definition eqb (a b : Decimal) : bool := dec a =? dec b.
Definition min (a b : Decimal) : Decimal := if leb a b then a else b.
Definition max (a b : Decimal) : Decimal := if leb a b then b else a.

End Decimal.

#[export] Instance Decimal_try_add : TryAdd Decimal := Decimal.add.
#[export] Instance Decimal_try_sub : TrySub Decimal := Decimal.sub.
#[export] Instance Decimal_try_div_u64 : TryDiv Decimal Z := Decimal.div_u64.
#[export] Instance Decimal_try_div_rate : TryDiv Decimal Rate := Decimal.div_rate.
#[export] Instance Decimal_try_div : TryDiv Decimal Decimal := Decimal.div.
#[export] Instance Decimal_try_mul_u64 : TryMul Decimal Z := Decimal.mul_u64.
#[export] Instance Decimal_try_mul_rate : TryMul Decimal Rate := Decimal.mul_rate.
#[export] Instance Decimal_try_mul : TryMul Decimal Decimal := Decimal.mul.

(** ** rate.rs *)

Module Rate.

Definition wad : Z := WAD.
Definition one : Rate := mkRate wad.
Definition zero : Rate := mkRate 0.

Definition from_percent (percent : Z) : Rate := mkRate (percent * PERCENT_SCALER).

Definition to_scaled_val (self : Rate) : Z := rat self.

Definition from_scaled_val (scaled_val : Z) : Rate := mkRate scaled_val.

(** [TryFrom<Decimal>] *)
Definition try_from (decimal : Decimal) : outcome Rate :=
  mkRate <$> Decimal.to_scaled_val decimal.

Definition add (self rhs : Rate) : outcome Rate :=
  mkRate <$> ok_or_overflow (checked_add 128 (rat self) (rat rhs)).

Definition sub (self rhs : Rate) : outcome Rate :=
  mkRate <$> ok_or_overflow (checked_sub (rat self) (rat rhs)).

Definition div_u64 (self : Rate) (rhs : Z) : outcome Rate :=
  mkRate <$> ok_or_overflow (checked_div (rat self) rhs).

Definition div (self rhs : Rate) : outcome Rate :=
  n ← ok_or_overflow (checked_mul 128 (rat self) wad);
  mkRate <$> ok_or_overflow (checked_div n (rat rhs)).

Definition mul_u64 (self : Rate) (rhs : Z) : outcome Rate :=
  mkRate <$> ok_or_overflow (checked_mul 128 (rat self) rhs).

Definition mul (self rhs : Rate) : outcome Rate :=
  p ← ok_or_overflow (checked_mul 128 (rat self) (rat rhs));
  mkRate <$> ok_or_overflow (checked_div p wad).

(** The [while exp > 0] loop of [try_pow]; [None] when the fuel runs out. *)
Fixpoint try_pow_loop (fuel : nat) (exp : Z) (base ret : Rate) : option (outcome Rate) :=
  if exp =? 0 then Some (Ok ret)
  else
    match fuel with
    | O => None
    | S fuel =>
        let exp := exp / 2 in
        match mul base base with
        | Ok base =>
            if negb (exp mod 2 =? 0) then
              match mul ret base with
              | Ok ret => try_pow_loop fuel exp base ret
              | Err e => Some (Err e)
              | Panic => Some Panic
              end
            else try_pow_loop fuel exp base ret
        | Err e => Some (Err e)
        | Panic => Some Panic
        end
    end.

(** The number of halvings that bring any [u64] to zero. *)
Definition try_pow_fuel : nat := 64.

Definition try_pow_start (self : Rate) (exp : Z) : Rate :=
  if negb (exp mod 2 =? 0) then self else mkRate wad.

(** [try_pow_terminates]: the default of [from_option] is never taken. *)
Definition try_pow (self : Rate) (exp : Z) : outcome Rate :=
  from_option id Panic (try_pow_loop try_pow_fuel exp self (try_pow_start self exp)).

Definition leb (a b : Rate) : bool := rat a <=? rat b.
Definition ltb (a b : Rate) : bool := rat a <? rat b.
Definition eqb (a b : Rate) : bool := rat a =? rat b.

End Rate.

#[export] Instance Rate_try_add : TryAdd Rate := Rate.add.
#[export] Instance Rate_try_sub : TrySub Rate := Rate.sub.
#[export] Instance Rate_try_div_u64 : TryDiv Rate Z := Rate.div_u64.
#[export] Instance Rate_try_div : TryDiv Rate Rate := Rate.div.
#[export] Instance Rate_try_mul_u64 : TryMul Rate Z := Rate.mul_u64.
#[export] Instance Rate_try_mul : TryMul Rate Rate := Rate.mul.

(** ** What a successful operation computed *)

Section ops.
Implicit Types a b c d : Decimal.
Implicit Types r s t : Rate.

Lemma Decimal_eq a b : dec a = dec b → a = b.
Proof. destruct a, b; cbn; congruence. Qed.

Lemma Rate_eq r s : rat r = rat s → r = s.
Proof. destruct r, s; cbn; congruence. Qed.

Lemma Decimal_add_Ok a b c :
  try_add a b = Ok c ↔ c = mkDecimal (dec a + dec b) ∧ dec a + dec b < 2 ^ 192.
Proof.
  unfold try_add, Decimal_try_add, Decimal.add.
  rewrite fmap_Ok. setoid_rewrite ok_or_overflow_Ok. setoid_rewrite checked_add_Some. naive_solver.
Qed.

Lemma Decimal_sub_Ok a b c :
  try_sub a b = Ok c ↔ c = mkDecimal (dec a - dec b) ∧ dec b ≤ dec a.
Proof.
  unfold try_sub, Decimal_try_sub, Decimal.sub.
  rewrite fmap_Ok. setoid_rewrite ok_or_overflow_Ok. setoid_rewrite checked_sub_Some. naive_solver.
Qed.

Lemma Decimal_div_u64_Ok a z c :
  try_div a z = Ok c ↔ c = mkDecimal (dec a / z) ∧ z ≠ 0.
Proof.
  unfold try_div, Decimal_try_div_u64, Decimal.div_u64.
  rewrite fmap_Ok. setoid_rewrite ok_or_overflow_Ok. setoid_rewrite checked_div_Some. naive_solver.
Qed.

Lemma Decimal_div_Ok a b c :
  try_div a b = Ok c ↔
  c = mkDecimal (dec a * WAD / dec b) ∧ dec b ≠ 0 ∧ dec a * WAD < 2 ^ 192.
Proof.
  unfold try_div, Decimal_try_div, Decimal.div, Decimal.wad.
  rewrite bind_Ok. setoid_rewrite fmap_Ok. setoid_rewrite ok_or_overflow_Ok.
  setoid_rewrite checked_div_Some. setoid_rewrite checked_mul_Some. naive_solver.
Qed.

Lemma Decimal_div_rate_Ok a r c :
  try_div a r = Ok c ↔
  c = mkDecimal (dec a * WAD / rat r) ∧ rat r ≠ 0 ∧ dec a * WAD < 2 ^ 192.
Proof. apply (Decimal_div_Ok a (Decimal.from_rate r)). Qed.

Lemma Decimal_mul_u64_Ok a z c :
  try_mul a z = Ok c ↔ c = mkDecimal (dec a * z) ∧ dec a * z < 2 ^ 192.
Proof.
  unfold try_mul, Decimal_try_mul_u64, Decimal.mul_u64.
  rewrite fmap_Ok. setoid_rewrite ok_or_overflow_Ok. setoid_rewrite checked_mul_Some. naive_solver.
Qed.

Lemma Decimal_mul_Ok a b c :
  try_mul a b = Ok c ↔ c = mkDecimal (dec a * dec b / WAD) ∧ dec a * dec b < 2 ^ 192.
Proof.
  unfold try_mul, Decimal_try_mul, Decimal.mul, Decimal.wad.
  rewrite bind_Ok. setoid_rewrite fmap_Ok. setoid_rewrite ok_or_overflow_Ok.
  setoid_rewrite checked_div_Some. setoid_rewrite checked_mul_Some.
  unfold WAD. naive_solver lia.
Qed.

Lemma Decimal_mul_rate_Ok a r c :
  try_mul a r = Ok c ↔ c = mkDecimal (dec a * rat r / WAD) ∧ dec a * rat r < 2 ^ 192.
Proof. apply (Decimal_mul_Ok a (Decimal.from_rate r)). Qed.

Lemma Decimal_to_scaled_val_Ok a z :
  Decimal.to_scaled_val a = Ok z ↔ z = dec a ∧ dec a < 2 ^ 128.
Proof. unfold Decimal.to_scaled_val. rewrite ok_or_overflow_Ok, narrow_Some. done. Qed.

Lemma Decimal_floor_Ok a z :
  Decimal.try_floor_u64 a = Ok z ↔ z = dec a / WAD ∧ dec a / WAD < 2 ^ 64.
Proof.
  unfold Decimal.try_floor_u64, Decimal.wad. rewrite bind_Ok.
  setoid_rewrite ok_or_overflow_Ok. setoid_rewrite checked_div_Some.
  setoid_rewrite narrow_Some. unfold WAD. naive_solver lia.
Qed.

Lemma Decimal_round_Ok a z :
  Decimal.try_round_u64 a = Ok z ↔
  z = (HALF_WAD + dec a) / WAD ∧ z < 2 ^ 64 ∧ HALF_WAD + dec a < 2 ^ 192.
Proof.
  unfold Decimal.try_round_u64, Decimal.wad, Decimal.half_wad. rewrite !bind_Ok.
  setoid_rewrite bind_Ok. setoid_rewrite ok_or_overflow_Ok.
  setoid_rewrite checked_add_Some. setoid_rewrite checked_div_Some.
  setoid_rewrite narrow_Some. unfold WAD. naive_solver lia.
Qed.

Lemma Decimal_ceil_Ok a z :
  Decimal.try_ceil_u64 a = Ok z ↔
  z = (WAD - 1 + dec a) / WAD ∧ z < 2 ^ 64 ∧ WAD - 1 + dec a < 2 ^ 192.
Proof.
  unfold Decimal.try_ceil_u64, Decimal.wad.
  change (ok_or_overflow (checked_sub WAD 1)) with (Ok (WAD - 1) : outcome Z).
  rewrite !bind_Ok. setoid_rewrite bind_Ok. setoid_rewrite bind_Ok.
  setoid_rewrite ok_or_overflow_Ok.
  setoid_rewrite checked_add_Some. setoid_rewrite checked_div_Some.
  setoid_rewrite narrow_Some. unfold WAD. naive_solver lia.
Qed.

Lemma Rate_add_Ok r s t :
  try_add r s = Ok t ↔ t = mkRate (rat r + rat s) ∧ rat r + rat s < 2 ^ 128.
Proof.
  unfold try_add, Rate_try_add, Rate.add.
  rewrite fmap_Ok. setoid_rewrite ok_or_overflow_Ok. setoid_rewrite checked_add_Some. naive_solver.
Qed.

Lemma Rate_sub_Ok r s t :
  try_sub r s = Ok t ↔ t = mkRate (rat r - rat s) ∧ rat s ≤ rat r.
Proof.
  unfold try_sub, Rate_try_sub, Rate.sub.
  rewrite fmap_Ok. setoid_rewrite ok_or_overflow_Ok. setoid_rewrite checked_sub_Some. naive_solver.
Qed.

Lemma Rate_div_u64_Ok r z t :
  try_div r z = Ok t ↔ t = mkRate (rat r / z) ∧ z ≠ 0.
Proof.
  unfold try_div, Rate_try_div_u64, Rate.div_u64.
  rewrite fmap_Ok. setoid_rewrite ok_or_overflow_Ok. setoid_rewrite checked_div_Some. naive_solver.
Qed.

Lemma Rate_div_Ok r s t :
  try_div r s = Ok t ↔ t = mkRate (rat r * WAD / rat s) ∧ rat s ≠ 0 ∧ rat r * WAD < 2 ^ 128.
Proof.
  unfold try_div, Rate_try_div, Rate.div, Rate.wad.
  rewrite bind_Ok. setoid_rewrite fmap_Ok. setoid_rewrite ok_or_overflow_Ok.
  setoid_rewrite checked_div_Some. setoid_rewrite checked_mul_Some. naive_solver.
Qed.

Lemma Rate_mul_u64_Ok r z t :
  try_mul r z = Ok t ↔ t = mkRate (rat r * z) ∧ rat r * z < 2 ^ 128.
Proof.
  unfold try_mul, Rate_try_mul_u64, Rate.mul_u64.
  rewrite fmap_Ok. setoid_rewrite ok_or_overflow_Ok. setoid_rewrite checked_mul_Some. naive_solver.
Qed.

Lemma Rate_mul_Ok r s t :
  try_mul r s = Ok t ↔ t = mkRate (rat r * rat s / WAD) ∧ rat r * rat s < 2 ^ 128.
Proof.
  unfold try_mul, Rate_try_mul, Rate.mul, Rate.wad.
  rewrite bind_Ok. setoid_rewrite fmap_Ok. setoid_rewrite ok_or_overflow_Ok.
  setoid_rewrite checked_div_Some. setoid_rewrite checked_mul_Some.
  unfold WAD. naive_solver lia.
Qed.

Lemma Rate_try_from_Ok d r :
  Rate.try_from d = Ok r ↔ r = mkRate (dec d) ∧ dec d < 2 ^ 128.
Proof.
  unfold Rate.try_from. rewrite fmap_Ok. setoid_rewrite Decimal_to_scaled_val_Ok. naive_solver.
Qed.
End ops.

(** [inv_fp] takes a successful run apart down to integers. *)
Ltac inv_fp_step :=
  first
    [ inv_run_step
    | match goal with
      | H : @try_add Decimal _ _ _ = Ok _ |- _ => apply Decimal_add_Ok in H as [H ?]
      | H : @try_sub Decimal _ _ _ = Ok _ |- _ => apply Decimal_sub_Ok in H as [H ?]
      | H : @try_div Decimal Z _ _ _ = Ok _ |- _ => apply Decimal_div_u64_Ok in H as [H ?]
      | H : @try_div Decimal Decimal _ _ _ = Ok _ |- _ => apply Decimal_div_Ok in H as (H & ? & ?)
      | H : @try_div Decimal Rate _ _ _ = Ok _ |- _ => apply Decimal_div_rate_Ok in H as (H & ? & ?)
      | H : @try_mul Decimal Z _ _ _ = Ok _ |- _ => apply Decimal_mul_u64_Ok in H as [H ?]
      | H : @try_mul Decimal Decimal _ _ _ = Ok _ |- _ => apply Decimal_mul_Ok in H as [H ?]
      | H : @try_mul Decimal Rate _ _ _ = Ok _ |- _ => apply Decimal_mul_rate_Ok in H as [H ?]
      | H : @try_add Rate _ _ _ = Ok _ |- _ => apply Rate_add_Ok in H as [H ?]
      | H : @try_sub Rate _ _ _ = Ok _ |- _ => apply Rate_sub_Ok in H as [H ?]
      | H : @try_div Rate Z _ _ _ = Ok _ |- _ => apply Rate_div_u64_Ok in H as [H ?]
      | H : @try_div Rate Rate _ _ _ = Ok _ |- _ => apply Rate_div_Ok in H as (H & ? & ?)
      | H : @try_mul Rate Z _ _ _ = Ok _ |- _ => apply Rate_mul_u64_Ok in H as [H ?]
      | H : @try_mul Rate Rate _ _ _ = Ok _ |- _ => apply Rate_mul_Ok in H as [H ?]
      | H : Rate.try_from _ = Ok _ |- _ => apply Rate_try_from_Ok in H as [H ?]
      | H : Rate.mul _ _ = Ok _ |- _ => apply Rate_mul_Ok in H as [H ?]
      | H : Decimal.to_scaled_val _ = Ok _ |- _ => apply Decimal_to_scaled_val_Ok in H as [H ?]
      | H : Decimal.try_floor_u64 _ = Ok _ |- _ => apply Decimal_floor_Ok in H as [H ?]
      | H : Decimal.try_round_u64 _ = Ok _ |- _ => apply Decimal_round_Ok in H as (H & ? & ?)
      | H : Decimal.try_ceil_u64 _ = Ok _ |- _ => apply Decimal_ceil_Ok in H as (H & ? & ?)
      end ].

(** Compute the integers of numbers built by constructors. *)
Ltac fp_simpl :=
  cbn [dec rat Decimal.from_u64 Decimal.from_u128 Decimal.from_rate Decimal.from_percent
       Decimal.from_scaled_val Decimal.zero Decimal.one Rate.from_percent
       Rate.from_scaled_val Rate.zero Rate.one] in *;
  unfold Decimal.wad, Rate.wad in *.

Ltac inv_fp := repeat inv_fp_step; fp_simpl.

(** ** Errors of the arithmetic *)

Section throws.
Context (es : list LendingError) (Hes : MathOverflow ∈ es).
Implicit Types a b : Decimal.
Implicit Types r s : Rate.

Lemma throws_Decimal_add a b : throws es (try_add a b).
Proof. by apply throws_fmap, throws_ok_or_overflow. Qed.
Lemma throws_Decimal_sub a b : throws es (try_sub a b).
Proof. by apply throws_fmap, throws_ok_or_overflow. Qed.
Lemma throws_Decimal_div_u64 a (z : Z) : throws es (try_div a z).
Proof. by apply throws_fmap, throws_ok_or_overflow. Qed.
Lemma throws_Decimal_div a b : throws es (try_div a b).
Proof.
  apply throws_bind; [by apply throws_ok_or_overflow|].
  intros ??. by apply throws_fmap, throws_ok_or_overflow.
Qed.
Lemma throws_Decimal_div_rate a r : throws es (try_div a r).
Proof. apply (throws_Decimal_div a (Decimal.from_rate r)). Qed.
Lemma throws_Decimal_mul_u64 a (z : Z) : throws es (try_mul a z).
Proof. by apply throws_fmap, throws_ok_or_overflow. Qed.
Lemma throws_Decimal_mul a b : throws es (try_mul a b).
Proof.
  apply throws_bind; [by apply throws_ok_or_overflow|].
  intros ??. by apply throws_fmap, throws_ok_or_overflow.
Qed.
Lemma throws_Decimal_mul_rate a r : throws es (try_mul a r).
Proof. apply (throws_Decimal_mul a (Decimal.from_rate r)). Qed.
Lemma throws_Decimal_floor a : throws es (Decimal.try_floor_u64 a).
Proof. unfold Decimal.try_floor_u64. auto with lending. Qed.
Lemma throws_Decimal_round a : throws es (Decimal.try_round_u64 a).
Proof. unfold Decimal.try_round_u64. auto 6 with lending. Qed.
Lemma throws_Decimal_ceil a : throws es (Decimal.try_ceil_u64 a).
Proof. unfold Decimal.try_ceil_u64. auto 8 with lending. Qed.

Lemma throws_Rate_add r s : throws es (try_add r s).
Proof. by apply throws_fmap, throws_ok_or_overflow. Qed.
Lemma throws_Rate_sub r s : throws es (try_sub r s).
Proof. by apply throws_fmap, throws_ok_or_overflow. Qed.
Lemma throws_Rate_div_u64 r (z : Z) : throws es (try_div r z).
Proof. by apply throws_fmap, throws_ok_or_overflow. Qed.
Lemma throws_Rate_div r s : throws es (try_div r s).
Proof.
  apply throws_bind; [by apply throws_ok_or_overflow|].
  intros ??. by apply throws_fmap, throws_ok_or_overflow.
Qed.
Lemma throws_Rate_mul_u64 r (z : Z) : throws es (try_mul r z).
Proof. by apply throws_fmap, throws_ok_or_overflow. Qed.
Lemma throws_Rate_mul r s : throws es (try_mul r s).
Proof.
  apply throws_bind; [by apply throws_ok_or_overflow|].
  intros ??. by apply throws_fmap, throws_ok_or_overflow.
Qed.
Lemma throws_Rate_try_from a : throws es (Rate.try_from a).
Proof. by apply throws_fmap, throws_ok_or_overflow. Qed.
End throws.

#[export] Hint Resolve throws_Decimal_add throws_Decimal_sub throws_Decimal_div_u64
  throws_Decimal_div throws_Decimal_div_rate throws_Decimal_mul_u64 throws_Decimal_mul
  throws_Decimal_mul_rate throws_Decimal_floor throws_Decimal_round throws_Decimal_ceil
  throws_Rate_add throws_Rate_sub throws_Rate_div_u64 throws_Rate_div throws_Rate_mul_u64
  throws_Rate_mul throws_Rate_try_from : lending.

(** ** Ranges *)

Lemma quot_in_width w a b : in_width w a → 0 ≤ b → in_width w (a / b).
Proof.
  intros [? ?] ?. destruct (decide (b = 0)) as [->|].
  - rewrite Z.div_0_r. split; lia.
  - split; [apply Z.div_pos; lia|]. apply Z.le_lt_trans with a; [|done].
    apply Z.div_le_upper_bound; nia.
Qed.

Lemma from_u128_ok v : is_u128 v → Decimal_ok (Decimal.from_u128 v).
Proof. unfold Decimal_ok, in_width, Decimal.from_u128, Decimal.wad, WAD; cbn [dec]. lia. Qed.

Lemma from_u64_ok v : is_u64 v → Decimal_ok (Decimal.from_u64 v).
Proof. unfold Decimal_ok, in_width, Decimal.from_u64, Decimal.wad, WAD; cbn [dec]. lia. Qed.

(** The value of a wad-scaled product or quotient, between its floor and the
    next unit. *)
Lemma floor_wad z : WAD * (z / WAD) ≤ z < WAD * (z / WAD) + WAD.
Proof. apply div_bounds. reflexivity. Qed.

(** ** try_pow *)

Lemma half_lt e : 0 < e → 0 ≤ e / 2 < e.
Proof. intros. split; [apply Z.div_pos; lia | apply Z.div_lt; lia]. Qed.

(** [n] halvings bring a number below [2 ^ n] to zero, so fuel [n] is enough. *)
Lemma try_pow_loop_total n e base ret :
  0 ≤ e < 2 ^ Z.of_nat n → ∃ out, Rate.try_pow_loop n e base ret = Some out.
Proof.
  revert e base ret. induction n as [|n IH]; intros e base ret [He Hn].
  - cbn in *. assert (e = 0) as -> by lia. by eexists.
  - cbn [Rate.try_pow_loop]. destruct (Z.eqb_spec e 0); [by eexists|].
    destruct (Rate.mul base base) as [b| |]; try by eexists.
    assert (0 ≤ e / 2 < 2 ^ Z.of_nat n).
    { split; [apply Z.div_pos; lia|]. apply Z.div_lt_upper_bound; [lia|].
      rewrite <- Z.pow_succ_r by lia. by rewrite <- Nat2Z.inj_succ. }
    case_match; [|by apply IH].
    destruct (Rate.mul ret b); try by eexists. by apply IH.
Qed.

(** More fuel does not change the answer. *)
Lemma try_pow_loop_mono n m e base ret out :
  (n ≤ m)%nat → Rate.try_pow_loop n e base ret = Some out →
  Rate.try_pow_loop m e base ret = Some out.
Proof.
  revert m e base ret. induction n as [|n IH]; intros m e base ret Hm;
    destruct m as [|m]; try lia; cbn [Rate.try_pow_loop]; try done.
  - by destruct (e =? 0).
  - destruct (e =? 0); [done|]. destruct (Rate.mul base base) as [b| |]; try done.
    case_match; [|apply IH; lia]. destruct (Rate.mul ret b); try done. apply IH; lia.
Qed.

Lemma try_pow_eq r e :
  is_u64 e →
  Rate.try_pow_loop Rate.try_pow_fuel e r (Rate.try_pow_start r e) = Some (Rate.try_pow r e).
Proof.
  intros He. destruct (try_pow_loop_total Rate.try_pow_fuel e r (Rate.try_pow_start r e)) as [out E].
  { done. }
  unfold Rate.try_pow. by rewrite E.
Qed.

(** Induction on the rounds of a successful loop: [P e base ret p] says that the
    loop at [e], [base], [ret] ends with [p]. *)
Lemma try_pow_loop_ind (P : Z → Z → Z → Z → Prop) :
  (∀ b r, P 0 b r r) →
  (∀ e b r p, 0 < e → (e / 2) mod 2 = 0 → P (e / 2) (b * b / WAD) r p → P e b r p) →
  (∀ e b r p, 0 < e → (e / 2) mod 2 ≠ 0 →
     P (e / 2) (b * b / WAD) (r * (b * b / WAD) / WAD) p → P e b r p) →
  ∀ n e base ret p, 0 ≤ e →
    Rate.try_pow_loop n e base ret = Some (Ok p) → P e (rat base) (rat ret) (rat p).
Proof.
  intros H0 Heven Hodd n. induction n as [|n IH]; intros e base ret p He;
    cbn [Rate.try_pow_loop]; destruct (Z.eqb_spec e 0) as [->|]; try done.
  - intros [= ->]. apply H0.
  - intros [= ->]. apply H0.
  - assert (He' : 0 ≤ e / 2) by (apply Z.div_pos; lia).
    destruct (Rate.mul base base) as [b| |] eqn:Eb; try done. inv_fp.
    destruct (Z.eqb_spec ((e / 2) mod 2) 0) as [E|E]; cbn [negb].
    + intros Hl. apply IH in Hl; [|done]. apply Heven; [lia|done..].
    + destruct (Rate.mul ret _) as [r| |] eqn:Er; try done. inv_fp.
      intros Hl. apply IH in Hl; [|done]. apply Hodd; [lia|done..].
Qed.

Lemma try_pow_loop_ge_one n e base ret p :
  0 ≤ e → Rate.try_pow_loop n e base ret = Some (Ok p) →
  WAD ≤ rat base → WAD ≤ rat ret → WAD ≤ rat p.
Proof.
  apply (try_pow_loop_ind (λ _ b r p, WAD ≤ b → WAD ≤ r → WAD ≤ p)); [done|..].
  - intros e' b r q _ _ IH Hb Hr. apply IH; [|done].
    apply Z.div_le_lower_bound; [done|]. unfold WAD in *. nia.
  - intros e' b r q _ _ IH Hb Hr.
    assert (WAD ≤ b * b / WAD) by (apply Z.div_le_lower_bound; [done|]; unfold WAD in *; nia).
    apply IH; [done|]. apply Z.div_le_lower_bound; [done|]. unfold WAD in *. nia.
Qed.

(** One squaring of the base: [b' <= b * b / WAD] over [k] factors. *)
Lemma square_pow_bound b k :
  0 ≤ b → 0 ≤ k → (b * b / WAD) ^ k * WAD ^ k ≤ b ^ (2 * k).
Proof.
  intros Hb Hk. rewrite <- Z.pow_mul_l, Z.pow_mul_r, Z.pow_2_r by lia.
  apply Z.pow_le_mono_l. pose proof (floor_wad (b * b)).
  split; [|lia]. apply Z.mul_nonneg_nonneg; [apply Z.div_pos; [nia|done]|done].
Qed.

Lemma try_pow_loop_upper n e base ret p :
  0 ≤ e → Rate.try_pow_loop n e base ret = Some (Ok p) →
  0 ≤ rat base → 0 ≤ rat ret →
  rat p * WAD ^ (2 * (e / 2)) ≤ rat ret * rat base ^ (2 * (e / 2)).
Proof.
  apply (try_pow_loop_ind
           (λ e b r p, 0 ≤ b → 0 ≤ r → p * WAD ^ (2 * (e / 2)) ≤ r * b ^ (2 * (e / 2)))).
  - intros b r _ _. rewrite Z.div_0_l by done. cbn. lia.
  - intros e' b r q He Hk IH Hb Hr. set (k := e' / 2) in *.
    assert (Hk0 : 0 ≤ k) by (apply Z.div_pos; lia).
    assert (E : 2 * (k / 2) = k) by (pose proof (Z.div_mod k 2); lia). rewrite E in IH.
    assert (Hb' : 0 ≤ b * b / WAD) by (apply Z.div_pos; [nia|done]).
    specialize (IH Hb' Hr). pose proof (square_pow_bound b k Hb Hk0).
    replace (2 * k) with (k + k) at 1 by lia. rewrite Z.pow_add_r by done.
    pose proof (Z.pow_nonneg WAD k). unfold WAD in *. nia.
  - intros e' b r q He Hk IH Hb Hr. set (k := e' / 2) in *.
    assert (Hk0 : 0 ≤ k) by (apply Z.div_pos; lia).
    assert (E : 2 * (k / 2) = k - 1)
      by (pose proof (Z.div_mod k 2); pose proof (Z.mod_pos_bound k 2); lia).
    rewrite E in IH. assert (Hk1 : 0 ≤ k - 1) by (rewrite <- E; pose proof (Z.div_pos k 2); lia).
    assert (Hb' : 0 ≤ b * b / WAD) by (apply Z.div_pos; [nia|done]).
    pose proof (square_pow_bound b k Hb Hk0) as Hsq. revert IH Hsq.
    set (b' := b * b / WAD) in *. intros IH Hsq.
    assert (Hr' : 0 ≤ r * b' / WAD) by (apply Z.div_pos; [nia|done]).
    specialize (IH Hb' Hr'). pose proof (floor_wad (r * b')) as Hf.
    set (r' := r * b' / WAD) in *.
    assert (Hstep : q * WAD ^ k ≤ r * b' ^ k).
    { replace k with (1 + (k - 1)) by lia. rewrite !Z.pow_add_r, !Z.pow_1_r by lia.
      pose proof (Z.pow_nonneg b' (k - 1) Hb'). unfold WAD in *. nia. }
    replace (2 * k) with (k + k) at 1 by lia. rewrite Z.pow_add_r by done.
    pose proof (Z.pow_nonneg WAD k). unfold WAD in *. nia.
Qed.

(** [try_pow] of a rate of at least one is at least one. *)
Lemma try_pow_ge_one r e p :
  is_u64 e → Rate.try_pow r e = Ok p → WAD ≤ rat r → WAD ≤ rat p.
Proof.
  intros He E Hr. pose proof (try_pow_eq r e He) as El. rewrite E in El.
  apply (try_pow_loop_ge_one _ _ _ _ _ (proj1 He) El Hr).
  unfold Rate.try_pow_start. by case_match.
Qed.

(** [try_pow] rounds down: the result never exceeds the exact power. *)
Lemma try_pow_le_exact r e p :
  is_u64 e → 0 ≤ rat r → Rate.try_pow r e = Ok p →
  rat p * WAD ^ e ≤ WAD * rat r ^ e.
Proof.
  intros He Hr E. pose proof (try_pow_eq r e He) as El. rewrite E in El.
  assert (Hm : e = 2 * (e / 2) + e mod 2) by (apply Z.div_mod; done).
  assert (Hk : 0 ≤ e / 2) by (apply Z.div_pos; [apply He|done]).
  pose proof (Z.mod_pos_bound e 2 eq_refl) as Hmod.
  apply try_pow_loop_upper in El; [|apply He|done|].
  - revert El. unfold Rate.try_pow_start. destruct (Z.eqb_spec (e mod 2) 0) as [E0|E0]; cbn [negb rat].
    + intros El. unfold Rate.wad in El. replace e with (2 * (e / 2)) by lia. done.
    + intros El. assert (E1 : e mod 2 = 1) by lia. rewrite E1 in Hm.
      rewrite Hm, !Z.pow_add_r, !Z.pow_1_r by lia. unfold WAD in *. nia.
  - unfold Rate.try_pow_start. by case_match.
Qed.

Lemma throws_try_pow es r e :
  MathOverflow ∈ es → is_u64 e → throws es (Rate.try_pow r e).
Proof.
  intros Hes He.
  assert (Hl : ∀ n e b s out, Rate.try_pow_loop n e b s = Some out → throws es out).
  { induction n as [|n IH]; intros e' b s out; cbn [Rate.try_pow_loop];
      destruct (e' =? 0); try (by intros [= <-]); try done.
    pose proof (throws_Rate_mul es Hes b b) as Ht.
    change (try_mul b b) with (Rate.mul b b) in Ht.
    destruct (Rate.mul b b) as [b'| |]; [|by intros [= <-]..].
    case_match; [|apply IH].
    pose proof (throws_Rate_mul es Hes s b') as Ht'.
    change (try_mul s b') with (Rate.mul s b') in Ht'.
    destruct (Rate.mul s b'); [apply IH|by intros [= <-]..]. }
  eapply Hl, try_pow_eq, He.
Qed.
#[export] Hint Resolve throws_try_pow : lending.

(** ** Properties *)

(** ** The operations keep the width *)

Section closed.
Implicit Types a b c : Decimal.

Ltac closed_step :=
  unfold Decimal_ok, Rate_ok, in_width in *; cbn [dec];
  first [lia | apply quot_in_width; [unfold in_width; nia|unfold WAD in *; lia]].

Lemma Decimal_zero_ok : Decimal_ok Decimal.zero.
Proof. by split. Qed.

Lemma Decimal_add_ok a b c : Decimal_ok a → Decimal_ok b → try_add a b = Ok c → Decimal_ok c.
Proof. intros Ha Hb [-> ?]%Decimal_add_Ok. closed_step. Qed.

Lemma Decimal_sub_ok a b c : Decimal_ok a → Decimal_ok b → try_sub a b = Ok c → Decimal_ok c.
Proof. intros Ha Hb [-> ?]%Decimal_sub_Ok. closed_step. Qed.

Lemma Decimal_mul_ok a b c : Decimal_ok a → Decimal_ok b → try_mul a b = Ok c → Decimal_ok c.
Proof. intros Ha Hb [-> ?]%Decimal_mul_Ok. closed_step. Qed.

Lemma Decimal_mul_rate_ok a (r : Rate) c : Decimal_ok a → 0 ≤ rat r → try_mul a r = Ok c → Decimal_ok c.
Proof. intros Ha Hr [-> ?]%Decimal_mul_rate_Ok. closed_step. Qed.

Lemma Decimal_mul_u64_ok a (z : Z) c : Decimal_ok a → 0 ≤ z → try_mul a z = Ok c → Decimal_ok c.
Proof. intros Ha Hz [-> ?]%Decimal_mul_u64_Ok. closed_step. Qed.

Lemma Decimal_div_ok a b c : Decimal_ok a → Decimal_ok b → try_div a b = Ok c → Decimal_ok c.
Proof. intros Ha Hb (-> & ? & ?)%Decimal_div_Ok. unfold WAD in *. closed_step. Qed.

Lemma Decimal_div_rate_ok a (r : Rate) c : Decimal_ok a → 0 ≤ rat r → try_div a r = Ok c → Decimal_ok c.
Proof. intros Ha Hr (-> & ? & ?)%Decimal_div_rate_Ok. unfold WAD in *. closed_step. Qed.

Lemma Decimal_div_u64_ok a (z : Z) c : Decimal_ok a → 0 ≤ z → try_div a z = Ok c → Decimal_ok c.
Proof. intros Ha Hz [-> ?]%Decimal_div_u64_Ok. closed_step. Qed.

Lemma Decimal_min_ok a b : Decimal_ok a → Decimal_ok b → Decimal_ok (Decimal.min a b).
Proof. intros ? ?. unfold Decimal.min. by destruct (Decimal.leb a b). Qed.

End closed.
#[export] Hint Resolve Decimal_zero_ok Decimal_min_ok : lending.

(** C39: every arithmetic operation on decimals keeps the 192-bit range and
    fails only with [MathOverflow], never with a panic. *)
Theorem decimal_ops_closed (a b c : Decimal) (Ha : Decimal_ok a) (Hb : Decimal_ok b) :
  (∀ m, m ∈ [try_add a b; try_sub a b; try_mul a b; try_div a b] →
     throws [MathOverflow] m ∧ (m = Ok c → Decimal_ok c)) ∧
  (try_add a b = Ok c → dec c = dec a + dec b) ∧
  (try_sub a b = Ok c → dec c = dec a - dec b) ∧
  (try_mul a b = Ok c → WAD * dec c ≤ dec a * dec b < WAD * dec c + WAD) ∧
  (try_div a b = Ok c → dec b * dec c ≤ WAD * dec a < dec b * dec c + dec b).
Proof.
  unfold Decimal_ok, in_width in *.
  split; [|split; [|split; [|split]]]; [|intros E; inv_fp..].
  - intros m Hm. repeat (apply elem_of_cons in Hm as [->|Hm]); [..|by apply elem_of_nil in Hm].
    all: split; [auto with lending|]; intros E; inv_fp; try lia.
    + apply quot_in_width; [|done]. unfold in_width. nia.
    + apply quot_in_width; [|lia]. unfold in_width, WAD in *. lia.
  - done.
  - done.
  - apply floor_wad.
  - rewrite (Z.mul_comm WAD). apply div_bounds. lia.
Qed.

Lemma decimal_ops_closed_witness :
  (try_mul (Decimal.from_u64 3) (Decimal.from_percent 150) = Ok (mkDecimal 4500000000000000000)) ∧
  WAD * 4500000000000000000 ≤ dec (Decimal.from_u64 3) * dec (Decimal.from_percent 150).
Proof.
  split; [vm_compute; reflexivity|].
  apply (decimal_ops_closed (Decimal.from_u64 3) (Decimal.from_percent 150)
           (mkDecimal 4500000000000000000)).
  - split; vm_compute; congruence.
  - split; vm_compute; congruence.
  - vm_compute; reflexivity.
Defined.

(** Floor, round and ceiling are the bracketing integers: each is a [u64],
    they are ordered and at most one apart, and rounding is off by at most half
    a unit. *)
Theorem decimal_rounding (d : Decimal) (f r c : Z) (Hd : Decimal_ok d)
    (Hf : Decimal.try_floor_u64 d = Ok f)
    (Hr : Decimal.try_round_u64 d = Ok r)
    (Hc : Decimal.try_ceil_u64 d = Ok c) :
  is_u64 f ∧ is_u64 r ∧ is_u64 c ∧ f ≤ r ≤ c ∧ c ≤ f + 1 ∧
  f * WAD ≤ dec d ≤ c * WAD ∧ dec d < (f + 1) * WAD ∧ (c - 1) * WAD < dec d ∧
  - HALF_WAD ≤ dec d - r * WAD < HALF_WAD.
Proof.
  inv_fp. unfold Decimal_ok, in_width in *.
  pose proof (floor_wad (dec d)). pose proof (floor_wad (HALF_WAD + dec d)).
  pose proof (floor_wad (WAD - 1 + dec d)).
  revert H H0 H1 H2 H3 H4 H5 H6. unfold WAD, HALF_WAD in *.
  generalize (dec d / 1000000000000000000), ((500000000000000000 + dec d) / 1000000000000000000),
    ((1000000000000000000 - 1 + dec d) / 1000000000000000000).
  intros. lia.
Qed.

Lemma decimal_rounding_witness :
  2 * WAD ≤ dec (mkDecimal 2500000000000000000) ≤ 3 * WAD.
Proof.
  apply (decimal_rounding (mkDecimal 2500000000000000000) 2 3 3);
    [split; vm_compute; congruence | vm_compute; reflexivity ..].
Defined.

(** a [u64] amount converted to a decimal comes back unchanged under
    floor, round and ceiling, and converting never overflows. *)
Theorem decimal_u64_roundtrip (v : Z) (Hv : is_u64 v) :
  Decimal_ok (Decimal.from_u64 v) ∧
  Decimal.try_floor_u64 (Decimal.from_u64 v) = Ok v ∧
  Decimal.try_round_u64 (Decimal.from_u64 v) = Ok v ∧
  Decimal.try_ceil_u64 (Decimal.from_u64 v) = Ok v.
Proof.
  assert (E : ∀ x, 0 ≤ x < WAD → (x + WAD * v) / WAD = v).
  { intros x Hx. rewrite (Z.mul_comm WAD), Z.div_add, Z.div_small; [lia..|done|done]. }
  unfold in_width in Hv. split; [by apply from_u64_ok|].
  rewrite Decimal_floor_Ok, Decimal_round_Ok, Decimal_ceil_Ok.
  cbn [dec Decimal.from_u64]. unfold Decimal.wad.
  pose proof (E 0 ltac:(done)) as E0. rewrite Z.add_0_l in E0.
  pose proof (E HALF_WAD ltac:(done)) as E1.
  pose proof (E (WAD - 1) ltac:(done)) as E2.
  rewrite E0, E1, E2. unfold WAD, HALF_WAD. lia.
Qed.

Lemma decimal_u64_roundtrip_witness :
  Decimal.try_round_u64 (Decimal.from_u64 u64_MAX) = Ok u64_MAX.
Proof. apply (decimal_u64_roundtrip u64_MAX). split; vm_compute; congruence. Defined.

(** C40: the squaring loop of [try_pow] ends for every [u64] exponent: 64 rounds
    are enough, any larger bound gives the same answer, and the only failure is
    [MathOverflow]. *)
Theorem try_pow_terminates (r : Rate) (e : Z) (fuel : nat) (He : is_u64 e) (Hf : (64 ≤ fuel)%nat) :
  Rate.try_pow_loop fuel e r (Rate.try_pow_start r e) = Some (Rate.try_pow r e) ∧
  throws [MathOverflow] (Rate.try_pow r e).
Proof.
  split; [|auto with lending].
  eapply try_pow_loop_mono, try_pow_eq; done.
Qed.

Lemma try_pow_terminates_witness :
  throws [MathOverflow] (Rate.try_pow Rate.one u64_MAX).
Proof. apply (try_pow_terminates Rate.one u64_MAX 64); [split; vm_compute; congruence | lia]. Defined.

(** A successful [try_pow] is a compound growth factor rounded down: it does
    not exceed the exact power [WAD * (r / WAD) ^ e], and it is at least one
    when the base is. *)
Theorem try_pow_bounds (r p : Rate) (e : Z)
    (He : is_u64 e) (Hr : Rate_ok r) (E : Rate.try_pow r e = Ok p) :
  rat p * WAD ^ e ≤ WAD * rat r ^ e ∧ (rat Rate.one ≤ rat r → rat Rate.one ≤ rat p).
Proof.
  split; [apply try_pow_le_exact; [done|apply Hr|done]|].
  by apply (try_pow_ge_one r e p).
Qed.

Lemma try_pow_bounds_witness :
  Rate.try_pow (Rate.from_percent 110) 3 = Ok (mkRate 1331000000000000000) ∧
  1331000000000000000 * WAD ^ 3 ≤ WAD * rat (Rate.from_percent 110) ^ 3.
Proof.
  split; [vm_compute; reflexivity|].
  apply (try_pow_bounds (Rate.from_percent 110) (mkRate 1331000000000000000) 3);
    [split; vm_compute; congruence.. | vm_compute; reflexivity].
Defined.

(** [try_pow] squares its base once more after the last bit of the
    exponent, so a power that fits can still be reported as an overflow: any
    rate of at least [2 ^ 64] fails already at exponent one, whose result is
    the rate itself. *)
Theorem try_pow_spurious_overflow (r : Rate) (Hr : 2 ^ 64 ≤ rat r) :
  Rate.try_pow r 1 = fail MathOverflow.
Proof.
  assert (E : Rate.mul r r = fail MathOverflow).
  { unfold Rate.mul, checked_mul. destruct (Z.ltb_spec (rat r * rat r) (2 ^ 128)); [nia|done]. }
  assert (El : ∀ n s, Rate.try_pow_loop (S n) 1 r s = Some (fail MathOverflow)).
  { intros n s. cbn [Rate.try_pow_loop]. by rewrite E. }
  unfold Rate.try_pow. by rewrite (El 63%nat).
Qed.

Lemma try_pow_spurious_overflow_witness :
  Rate.try_pow (mkRate (2 ^ 64)) 1 = fail MathOverflow.
Proof. apply try_pow_spurious_overflow. vm_compute. congruence. Defined.
