(* ===== verification/StateBase.v ===== *)
(** * State: constants, packing helpers, last update

    [token-lending/program/src/state/mod.rs] and [state/last_update.rs], with
    the [IsInitialized] and [Pack] interfaces that the account types implement
    ([program_pack] of the Solana SDK): [Pack] is the class of a type's own
    packing methods. *)

From S2P Require Import Prelude Errors FixedPoint.

(** ** mod.rs *)

Definition INITIAL_COLLATERAL_RATIO : Z := 1.
Definition INITIAL_COLLATERAL_RATE : Z := INITIAL_COLLATERAL_RATIO * WAD.
Definition PROGRAM_VERSION : Z := 1.
Definition UNINITIALIZED_VERSION : Z := 0.
Definition SLOTS_PER_YEAR : Z := 63072000.
Definition PUBKEY_BYTES : nat := 32.

(** A 32-byte address, as the little-endian number of its bytes. *)
Abbreviation Pubkey := Z (only parsing).

(** [expect] panics when the value does not fit in 128 bits. *)
Definition pack_decimal (decimal : Decimal) : outcome (list Z) :=
  match Decimal.to_scaled_val decimal with
  | Ok v => Ok (le_bytes 16 v)
  | _ => Panic
  end.

Definition unpack_decimal (src : list Z) : Decimal := Decimal.from_scaled_val (of_le_bytes src).

Definition pack_bool (boolean : bool) : list Z := le_bytes 1 (Z.b2z boolean).

Definition unpack_bool (src : list Z) : outcome bool :=
  match of_le_bytes src with
  | 0 => Ok false
  | 1 => Ok true
  | _ => Err InvalidAccountData
  end.

(** The interfaces of an account type. *)
Class IsInitialized (A : Type) : Type := is_initialized : A → bool.

(** [pack_into_slice] receives the bytes it overwrites. *)
Class Pack (A : Type) : Type := {
  LEN : nat;
  pack_into_slice : A → list Z → outcome (list Z);
  unpack_from_slice : list Z → outcome A;
}.
Arguments LEN A {_}.

(** ** last_update.rs *)

Definition STALE_AFTER_SLOTS_ELAPSED : Z := 1.

Record LastUpdate : Type := mkLastUpdate {
  slot : Z;
  stale : bool;
}.

#[export] Instance LastUpdate_eq_dec : EqDecision LastUpdate.
Proof. solve_decision. Defined.

Module LastUpdate.

Definition default : LastUpdate := mkLastUpdate 0 false.

Definition new (slot : Z) : LastUpdate := mkLastUpdate slot true.

Definition slots_elapsed (self : LastUpdate) (slot : Z) : outcome Z :=
  ok_or_overflow (checked_sub slot (StateBase.slot self)).

Definition update_slot (self : LastUpdate) (slot : Z) : LastUpdate := mkLastUpdate slot false.

Definition mark_stale (self : LastUpdate) : LastUpdate := mkLastUpdate (slot self) true.

(** [||] does not run its right side when the left one holds. *)
Definition is_stale (self : LastUpdate) (slot : Z) : outcome bool :=
  if stale self then Ok true
  else
    elapsed ← slots_elapsed self slot;
    mret (STALE_AFTER_SLOTS_ELAPSED <=? elapsed).

(** [PartialEq] and [PartialOrd] look at the slot only. *)
Definition eqb (self other : LastUpdate) : bool := slot self =? slot other.
Definition partial_cmp (self other : LastUpdate) : option comparison :=
  Some (slot self ?= slot other).

End LastUpdate.

Definition LastUpdate_ok (u : LastUpdate) : Prop := is_u64 (slot u).

(** ** Lemmas *)

Lemma slots_elapsed_Ok u s n :
  LastUpdate.slots_elapsed u s = Ok n ↔ n = s - slot u ∧ slot u ≤ s.
Proof. unfold LastUpdate.slots_elapsed. rewrite ok_or_overflow_Ok, checked_sub_Some. done. Qed.

(** Fresh means: not marked, and updated in this very slot. *)
Lemma is_stale_false u s :
  LastUpdate.is_stale u s = Ok false ↔ stale u = false ∧ slot u = s.
Proof.
  unfold LastUpdate.is_stale, STALE_AFTER_SLOTS_ELAPSED. destruct (stale u); [naive_solver|].
  rewrite bind_Ok. split.
  - intros (n & Hn & E). apply slots_elapsed_Ok in Hn as [-> ?].
    injection E as E. apply Z.leb_gt in E. split; [done|lia].
  - intros [_ <-]. exists 0. rewrite slots_elapsed_Ok. split; [lia|done].
Qed.

Lemma update_slot_fresh u s : LastUpdate.is_stale (LastUpdate.update_slot u s) s = Ok false.
Proof. by apply is_stale_false. Qed.

Lemma mark_stale_stale u s : LastUpdate.is_stale (LastUpdate.mark_stale u) s = Ok true.
Proof. done. Qed.

Lemma throws_slots_elapsed es u s : MathOverflow ∈ es → throws es (LastUpdate.slots_elapsed u s).
Proof. apply throws_ok_or_overflow. Qed.

Lemma throws_is_stale es u s : MathOverflow ∈ es → throws es (LastUpdate.is_stale u s).
Proof.
  intros. unfold LastUpdate.is_stale. destruct (stale u); [done|].
  apply throws_bind; [by apply throws_slots_elapsed|done].
Qed.
#[export] Hint Resolve throws_slots_elapsed throws_is_stale update_slot_fresh mark_stale_stale : lending.

Lemma pack_decimal_Ok d bs :
  pack_decimal d = Ok bs ↔ dec d < 2 ^ 128 ∧ bs = le_bytes 16 (dec d).
Proof.
  unfold pack_decimal. destruct (Decimal.to_scaled_val d) as [v|e|] eqn:E.
  - apply Decimal_to_scaled_val_Ok in E as [-> ?]. naive_solver.
  - assert (¬ dec d < 2 ^ 128); [|naive_solver].
    intros H. rewrite (proj2 (Decimal_to_scaled_val_Ok d (dec d))) in E; naive_solver.
  - assert (¬ dec d < 2 ^ 128); [|naive_solver].
    intros H. rewrite (proj2 (Decimal_to_scaled_val_Ok d (dec d))) in E; naive_solver.
Qed.

Lemma length_pack_bool b : length (pack_bool b) = 1%nat.
Proof. done. Qed.

Lemma unpack_pack_bool b : unpack_bool (pack_bool b) = Ok b.
Proof. by destruct b. Qed.

Lemma unpack_pack_decimal d :
  0 ≤ dec d < 2 ^ 128 → unpack_decimal (le_bytes 16 (dec d)) = d.
Proof.
  intros H. unfold unpack_decimal. rewrite of_le_bytes_le_bytes by done. by destruct d.
Qed.

(** Decoding a one-byte boolean yields the byte it came from. *)
Lemma pack_unpack_bool bs b :
  Forall is_byte bs → length bs = 1%nat → unpack_bool bs = Ok b → pack_bool b = bs.
Proof.
  intros Hb Hl. destruct bs as [|x [|]]; try done. unfold unpack_bool. cbn [of_le_bytes].
  replace (x + 256 * 0) with x by lia.
  destruct x as [|[]|]; naive_solver.
Qed.

Lemma pack_unpack_decimal bs :
  Forall is_byte bs → length bs = 16%nat → pack_decimal (unpack_decimal bs) = Ok bs.
Proof.
  intros Hb Hl. apply pack_decimal_Ok. pose proof (of_le_bytes_bound bs Hb) as Hr.
  rewrite Hl in Hr. split; [apply Hr|].
  cbn [unpack_decimal Decimal.from_scaled_val dec]. by rewrite <- Hl, le_bytes_of_le_bytes.
Qed.
