(* ===== verification/LendingMarket.v ===== *)
(** * Lending market

    [token-lending/program/src/state/lending_market.rs]: the market's record,
    its initialisation and its 290-byte layout. *)

From S2P Require Import Prelude Errors FixedPoint StateBase.

Record LendingMarket : Type := mkLendingMarket {
  lm_version : Z;
  lm_bump_seed : Z;
  lm_owner : Pubkey;
  lm_quote_currency : Z;
  lm_token_program_id : Pubkey;
  lm_oracle_program_id : Pubkey;
  lm_switchboard_oracle_program_id : Pubkey;
}.

Record InitLendingMarketParams : Type := mkInitLendingMarketParams {
  ilm_bump_seed : Z;
  ilm_owner : Pubkey;
  ilm_quote_currency : Z;
  ilm_token_program_id : Pubkey;
  ilm_oracle_program_id : Pubkey;
  ilm_switchboard_oracle_program_id : Pubkey;
}.

#[export] Instance LendingMarket_eq_dec : EqDecision LendingMarket.
Proof. solve_decision. Defined.

Module LendingMarket.

Definition default : LendingMarket := mkLendingMarket 0 0 0 0 0 0 0.

Definition init (self : LendingMarket) (params : InitLendingMarketParams) : LendingMarket := {|
  lm_version := PROGRAM_VERSION;
  lm_bump_seed := ilm_bump_seed params;
  lm_owner := ilm_owner params;
  lm_quote_currency := ilm_quote_currency params;
  lm_token_program_id := ilm_token_program_id params;
  lm_oracle_program_id := ilm_oracle_program_id params;
  lm_switchboard_oracle_program_id := ilm_switchboard_oracle_program_id params;
|}.

Definition new (params : InitLendingMarketParams) : LendingMarket := init default params.

(** [lending_market.owner = new_owner], the only field a handler changes. *)
Definition set_owner (self : LendingMarket) (new_owner : Pubkey) : LendingMarket := {|
  lm_version := lm_version self;
  lm_bump_seed := lm_bump_seed self;
  lm_owner := new_owner;
  lm_quote_currency := lm_quote_currency self;
  lm_token_program_id := lm_token_program_id self;
  lm_oracle_program_id := lm_oracle_program_id self;
  lm_switchboard_oracle_program_id := lm_switchboard_oracle_program_id self;
|}.

Definition is_initialized (self : LendingMarket) : bool :=
  negb (lm_version self =? UNINITIALIZED_VERSION).

Definition LENDING_MARKET_LEN : nat := 290.

Definition layout : list nat :=
  [1; 1; PUBKEY_BYTES; 32; PUBKEY_BYTES; PUBKEY_BYTES; PUBKEY_BYTES; 128]%nat.

(** The padding keeps the bytes it had. *)
Definition pack_into_slice (self : LendingMarket) (output : list Z) : outcome (list Z) :=
  if (length output <? LENDING_MARKET_LEN)%nat then Panic
  else
    let segs := array_refs layout output in
    Ok (concat
          [le_bytes 1 (lm_version self);
           le_bytes 1 (lm_bump_seed self);
           le_bytes 32 (lm_owner self);
           le_bytes 32 (lm_quote_currency self);
           le_bytes 32 (lm_token_program_id self);
           le_bytes 32 (lm_oracle_program_id self);
           le_bytes 32 (lm_switchboard_oracle_program_id self);
           seg 7 segs] ++ drop LENDING_MARKET_LEN output).

Definition unpack_from_slice (input : list Z) : outcome LendingMarket :=
  if (length input <? LENDING_MARKET_LEN)%nat then Panic
  else
    let segs := array_refs layout input in
    let version := of_le_bytes (seg 0 segs) in
    if version >? PROGRAM_VERSION then Err InvalidAccountData
    else
      Ok {|
        lm_version := version;
        lm_bump_seed := of_le_bytes (seg 1 segs);
        lm_owner := of_le_bytes (seg 2 segs);
        lm_quote_currency := of_le_bytes (seg 3 segs);
        lm_token_program_id := of_le_bytes (seg 4 segs);
        lm_oracle_program_id := of_le_bytes (seg 5 segs);
        lm_switchboard_oracle_program_id := of_le_bytes (seg 6 segs);
      |}.

End LendingMarket.

#[export] Instance LendingMarket_IsInitialized : IsInitialized LendingMarket :=
  LendingMarket.is_initialized.

#[export] Instance LendingMarket_Pack : Pack LendingMarket := {|
  LEN := LendingMarket.LENDING_MARKET_LEN;
  pack_into_slice := LendingMarket.pack_into_slice;
  unpack_from_slice := LendingMarket.unpack_from_slice;
|}.

(** The widths of the fields. *)
Record LendingMarket_ok (m : LendingMarket) : Prop := {
  lm_ok_version : 0 ≤ lm_version m ≤ PROGRAM_VERSION;
  lm_ok_bump_seed : is_u8 (lm_bump_seed m);
  lm_ok_owner : is_key (lm_owner m);
  lm_ok_quote_currency : is_key (lm_quote_currency m);
  lm_ok_token : is_key (lm_token_program_id m);
  lm_ok_oracle : is_key (lm_oracle_program_id m);
  lm_ok_switchboard : is_key (lm_switchboard_oracle_program_id m);
}.

(** ** Packing *)

(** The sub-arrays that [pack_into_slice] writes have the sizes of the layout. *)
Lemma lending_market_segs m output :
  (LendingMarket.LENDING_MARKET_LEN ≤ length output)%nat →
  length <$>
    [le_bytes 1 (lm_version m); le_bytes 1 (lm_bump_seed m); le_bytes 32 (lm_owner m);
     le_bytes 32 (lm_quote_currency m); le_bytes 32 (lm_token_program_id m);
     le_bytes 32 (lm_oracle_program_id m); le_bytes 32 (lm_switchboard_oracle_program_id m);
     seg 7 (array_refs LendingMarket.layout output)] = LendingMarket.layout.
Proof.
  intros H. cbn [fmap list_fmap]. rewrite !length_le_bytes.
  by rewrite (length_seg 7 128).
Qed.

Lemma lending_market_pack_unpack m output :
  LendingMarket_ok m → (LendingMarket.LENDING_MARKET_LEN ≤ length output)%nat →
  ∃ bs, LendingMarket.pack_into_slice m output = Ok bs ∧
    length bs = length output ∧
    seg 7 (array_refs LendingMarket.layout bs) = seg 7 (array_refs LendingMarket.layout output) ∧
    drop LendingMarket.LENDING_MARKET_LEN bs = drop LendingMarket.LENDING_MARKET_LEN output ∧
    LendingMarket.unpack_from_slice bs = Ok m.
Proof.
  intros [] Hlen. unfold LendingMarket.pack_into_slice, LendingMarket.unpack_from_slice.
  rewrite (proj2 (Nat.ltb_ge _ _)) by done. eexists; split; [done|].
  destruct (overwrite_segs _ _ output LendingMarket.LENDING_MARKET_LEN
              (lending_market_segs m output Hlen) eq_refl Hlen) as (Hl & Hd & Ha).
  split; [exact Hl|]. rewrite Ha. split; [done|]. split; [exact Hd|].
  rewrite (proj2 (Nat.ltb_ge _ _)) by (rewrite Hl; exact Hlen).
  cbn [seg nth].
  rewrite !of_le_bytes_le_bytes by (try done; unfold in_width, PROGRAM_VERSION in *; cbn; lia).
  rewrite Z.gtb_ltb, (proj2 (Z.ltb_ge _ _)) by (unfold PROGRAM_VERSION in *; lia).
  by destruct m.
Qed.

Lemma lending_market_unpack_pack m input :
  Forall is_byte input → LendingMarket.unpack_from_slice input = Ok m →
  LendingMarket_ok m ∧ LendingMarket.pack_into_slice m input = Ok input.
Proof.
  intros Hb. unfold LendingMarket.pack_into_slice, LendingMarket.unpack_from_slice.
  destruct (Nat.ltb_spec (length input) LendingMarket.LENDING_MARKET_LEN) as [|Hlen]; [done|].
  rewrite Z.gtb_ltb. destruct (Z.ltb_spec PROGRAM_VERSION (of_le_bytes (seg 0 (array_refs LendingMarket.layout input)))); [done|].
  intros [= <-].
  assert (Hw : ∀ i n, LendingMarket.layout !! i = Some n → in_width (8 * Z.of_nat n)
             (of_le_bytes (seg i (array_refs LendingMarket.layout input))))
    by (intros; by apply seg_in_width).
  split.
  - exact (Build_LendingMarket_ok (mkLendingMarket _ _ _ _ _ _ _)
             (conj (proj1 (Hw 0 1 eq_refl)) H) (Hw 1 1 eq_refl) (Hw 2 32 eq_refl) (Hw 3 32 eq_refl)
             (Hw 4 32 eq_refl) (Hw 5 32 eq_refl) (Hw 6 32 eq_refl))%nat.
  - cbn [lm_version lm_bump_seed lm_owner lm_quote_currency lm_token_program_id
      lm_oracle_program_id lm_switchboard_oracle_program_id].
    rewrite (le_bytes_seg 0 1), (le_bytes_seg 1 1), (le_bytes_seg 2 32), (le_bytes_seg 3 32),
      (le_bytes_seg 4 32), (le_bytes_seg 5 32), (le_bytes_seg 6 32) by done.
    exact (f_equal Ok (concat_segs LendingMarket.layout input)).
Qed.

(** ** Properties *)

(** Packing a market into an account and unpacking it gives the market
    back; the packed buffer keeps its length, its padding and everything after
    the market's bytes.  Conversely a buffer that unpacks is the packing of the
    market it unpacks to, so no two buffers with equal padding decode alike. *)
Theorem lending_market_codec (m : LendingMarket) (output : list Z)
    (Hm : LendingMarket_ok m) (Hb : Forall is_byte output)
    (Hl : (LEN LendingMarket ≤ length output)%nat) :
  (∃ bs, pack_into_slice m output = Ok bs ∧ length bs = length output ∧
     seg 7 (array_refs LendingMarket.layout bs) = seg 7 (array_refs LendingMarket.layout output) ∧
     drop (LEN LendingMarket) bs = drop (LEN LendingMarket) output ∧
     unpack_from_slice bs = Ok m) ∧
  (∀ m', unpack_from_slice output = Ok m' →
     LendingMarket_ok m' ∧ pack_into_slice m' output = Ok output).
Proof.
  split; [by apply lending_market_pack_unpack|].
  intros m'. by apply lending_market_unpack_pack.
Qed.

Lemma lending_market_codec_witness :
  ∃ bs, pack_into_slice (mkLendingMarket 1 255 7 8 9 10 11) (replicate 300 0) = Ok bs ∧
    unpack_from_slice bs = Ok (mkLendingMarket 1 255 7 8 9 10 11).
Proof.
  destruct (lending_market_codec (mkLendingMarket 1 255 7 8 9 10 11) (replicate 300 0))
    as [(bs & H1 & _ & _ & _ & H2) _].
  - constructor; split; vm_compute; congruence.
  - apply Forall_replicate. split; vm_compute; congruence.
  - vm_compute. repeat constructor.
  - exists bs. split; [exact H1|exact H2].
Defined.
