(* ===== verification/Reserve.v ===== *)
(** * Reserves

    [token-lending/program/src/state/reserve.rs], without packing (see Codec)
    and without the parts that involve an obligation (see Liquidation): the
    reserve's liquidity and collateral, its exchange rate, its interest, and the
    fees of a loan. *)

From S2P Require Import Prelude Errors FixedPoint StateBase.

(** ** Data *)

(** Percentage of an obligation that one liquidation can repay. *)
Definition LIQUIDATION_CLOSE_FACTOR : Z := 1.

(** Debts below this amount are closed out whole. *)
Definition LIQUIDATION_CLOSE_AMOUNT : Z := 2.

Record ReserveFees : Type := mkReserveFees {
  borrow_fee_wad : Z;
  flash_loan_fee_wad : Z;
  host_fee_percentage : Z;
}.

Record ReserveConfig : Type := mkReserveConfig {
  optimal_utilization_rate : Z;
  loan_to_value_ratio : Z;
  liquidation_bonus : Z;
  liquidation_threshold : Z;
  min_borrow_rate : Z;
  optimal_borrow_rate : Z;
  max_borrow_rate : Z;
  fees : ReserveFees;
  deposit_limit : Z;
  borrow_limit : Z;
  fee_receiver : Pubkey;
  protocol_liquidation_fee : Z;
  protocol_take_rate : Z;
}.

Record ReserveLiquidity : Type := mkReserveLiquidity {
  rl_mint_pubkey : Pubkey;
  rl_mint_decimals : Z;
  rl_supply_pubkey : Pubkey;
  rl_pyth_oracle_pubkey : Pubkey;
  rl_switchboard_oracle_pubkey : Pubkey;
  rl_available_amount : Z;
  rl_borrowed_amount_wads : Decimal;
  rl_cumulative_borrow_rate_wads : Decimal;
  rl_accumulated_protocol_fees_wads : Decimal;
  rl_market_price : Decimal;
}.

Record NewReserveLiquidityParams : Type := mkNewReserveLiquidityParams {
  nrl_mint_pubkey : Pubkey;
  nrl_mint_decimals : Z;
  nrl_supply_pubkey : Pubkey;
  nrl_pyth_oracle_pubkey : Pubkey;
  nrl_switchboard_oracle_pubkey : Pubkey;
  nrl_market_price : Decimal;
}.

Record ReserveCollateral : Type := mkReserveCollateral {
  rc_mint_pubkey : Pubkey;
  rc_mint_total_supply : Z;
  rc_supply_pubkey : Pubkey;
}.

Record NewReserveCollateralParams : Type := mkNewReserveCollateralParams {
  nrc_mint_pubkey : Pubkey;
  nrc_supply_pubkey : Pubkey;
}.

(** [pub struct CollateralExchangeRate(Rate)] *)
Record CollateralExchangeRate : Type := mkCollateralExchangeRate { exchange_rate_rate : Rate }.

Record Reserve : Type := mkReserve {
  r_version : Z;
  r_last_update : LastUpdate;
  r_lending_market : Pubkey;
  r_liquidity : ReserveLiquidity;
  r_collateral : ReserveCollateral;
  r_config : ReserveConfig;
}.

Record InitReserveParams : Type := mkInitReserveParams {
  ir_current_slot : Z;
  ir_lending_market : Pubkey;
  ir_liquidity : ReserveLiquidity;
  ir_collateral : ReserveCollateral;
  ir_config : ReserveConfig;
}.

Record CalculateBorrowResult : Type := mkCalculateBorrowResult {
  cb_borrow_amount : Decimal;
  cb_receive_amount : Z;
  cb_borrow_fee : Z;
  cb_host_fee : Z;
}.

Record CalculateRepayResult : Type := mkCalculateRepayResult {
  cr_settle_amount : Decimal;
  cr_repay_amount : Z;
}.

Inductive FeeCalculation : Type :=
| Exclusive
| Inclusive.

#[export] Instance ReserveFees_eq_dec : EqDecision ReserveFees.
Proof. solve_decision. Defined.
#[export] Instance ReserveConfig_eq_dec : EqDecision ReserveConfig.
Proof. solve_decision. Defined.
#[export] Instance ReserveLiquidity_eq_dec : EqDecision ReserveLiquidity.
Proof. solve_decision. Defined.
#[export] Instance ReserveCollateral_eq_dec : EqDecision ReserveCollateral.
Proof. solve_decision. Defined.
#[export] Instance Reserve_eq_dec : EqDecision Reserve.
Proof. solve_decision. Defined.

(** ** Liquidity *)

Module ReserveLiquidity.

Definition default : ReserveLiquidity :=
  mkReserveLiquidity 0 0 0 0 0 0 Decimal.zero Decimal.zero Decimal.zero Decimal.zero.

Definition new (params : NewReserveLiquidityParams) : ReserveLiquidity := {|
  rl_mint_pubkey := nrl_mint_pubkey params;
  rl_mint_decimals := nrl_mint_decimals params;
  rl_supply_pubkey := nrl_supply_pubkey params;
  rl_pyth_oracle_pubkey := nrl_pyth_oracle_pubkey params;
  rl_switchboard_oracle_pubkey := nrl_switchboard_oracle_pubkey params;
  rl_available_amount := 0;
  rl_borrowed_amount_wads := Decimal.zero;
  rl_cumulative_borrow_rate_wads := Decimal.one;
  rl_accumulated_protocol_fees_wads := Decimal.zero;
  rl_market_price := nrl_market_price params;
|}.

(** Assignment to the amounts of [self]: available, borrowed, cumulative rate,
    accumulated fees, market price. *)
Definition with_amounts (self : ReserveLiquidity) (available : Z)
    (borrowed cumulative accumulated price : Decimal) : ReserveLiquidity :=
  mkReserveLiquidity (rl_mint_pubkey self) (rl_mint_decimals self) (rl_supply_pubkey self)
    (rl_pyth_oracle_pubkey self) (rl_switchboard_oracle_pubkey self)
    available borrowed cumulative accumulated price.

Definition with_available (self : ReserveLiquidity) (available : Z) : ReserveLiquidity :=
  with_amounts self available (rl_borrowed_amount_wads self)
    (rl_cumulative_borrow_rate_wads self) (rl_accumulated_protocol_fees_wads self)
    (rl_market_price self).

Definition with_available_borrowed (self : ReserveLiquidity) (available : Z)
    (borrowed : Decimal) : ReserveLiquidity :=
  with_amounts self available borrowed
    (rl_cumulative_borrow_rate_wads self) (rl_accumulated_protocol_fees_wads self)
    (rl_market_price self).

Definition with_market_price (self : ReserveLiquidity) (price : Decimal) : ReserveLiquidity :=
  with_amounts self (rl_available_amount self) (rl_borrowed_amount_wads self)
    (rl_cumulative_borrow_rate_wads self) (rl_accumulated_protocol_fees_wads self) price.

(** Assignment to the two oracle keys. *)
Definition with_oracles (self : ReserveLiquidity) (pyth switchboard : Pubkey) : ReserveLiquidity :=
  mkReserveLiquidity (rl_mint_pubkey self) (rl_mint_decimals self) (rl_supply_pubkey self)
    pyth switchboard (rl_available_amount self) (rl_borrowed_amount_wads self)
    (rl_cumulative_borrow_rate_wads self) (rl_accumulated_protocol_fees_wads self)
    (rl_market_price self).

Definition total_supply (self : ReserveLiquidity) : outcome Decimal :=
  gross ← try_add (Decimal.from_u64 (rl_available_amount self)) (rl_borrowed_amount_wads self);
  try_sub gross (rl_accumulated_protocol_fees_wads self).

Definition deposit (self : ReserveLiquidity) (liquidity_amount : Z) : outcome ReserveLiquidity :=
  available ← ok_or_overflow (checked_add 64 (rl_available_amount self) liquidity_amount);
  mret (with_available self available).

Definition withdraw (self : ReserveLiquidity) (liquidity_amount : Z) : outcome ReserveLiquidity :=
  if liquidity_amount >? rl_available_amount self then fail InsufficientLiquidity
  else
    available ← ok_or_overflow (checked_sub (rl_available_amount self) liquidity_amount);
    mret (with_available self available).

Definition borrow (self : ReserveLiquidity) (borrow_decimal : Decimal) : outcome ReserveLiquidity :=
  borrow_amount ← Decimal.try_floor_u64 borrow_decimal;
  if borrow_amount >? rl_available_amount self then fail InsufficientLiquidity
  else
    available ← ok_or_overflow (checked_sub (rl_available_amount self) borrow_amount);
    borrowed ← try_add (rl_borrowed_amount_wads self) borrow_decimal;
    mret (with_available_borrowed self available borrowed).

Definition repay (self : ReserveLiquidity) (repay_amount : Z) (settle_amount : Decimal) :
    outcome ReserveLiquidity :=
  available ← ok_or_overflow (checked_add 64 (rl_available_amount self) repay_amount);
  let safe_settle_amount := Decimal.min settle_amount (rl_borrowed_amount_wads self) in
  borrowed ← try_sub (rl_borrowed_amount_wads self) safe_settle_amount;
  mret (with_available_borrowed self available borrowed).

Definition redeem_fees (self : ReserveLiquidity) (withdraw_amount : Z) : outcome ReserveLiquidity :=
  available ← ok_or_overflow (checked_sub (rl_available_amount self) withdraw_amount);
  accumulated ← try_sub (rl_accumulated_protocol_fees_wads self) (Decimal.from_u64 withdraw_amount);
  mret (with_amounts self available (rl_borrowed_amount_wads self)
          (rl_cumulative_borrow_rate_wads self) accumulated (rl_market_price self)).

Definition utilization_rate (self : ReserveLiquidity) : outcome Rate :=
  supply ← total_supply self;
  if Decimal.eqb supply Decimal.zero then mret Rate.zero
  else
    ratio ← try_div (rl_borrowed_amount_wads self) supply;
    Rate.try_from ratio.

Definition compound_interest (self : ReserveLiquidity) (current_borrow_rate : Rate)
    (slots_elapsed : Z) (take_rate : Rate) : outcome ReserveLiquidity :=
  slot_interest_rate ← try_div current_borrow_rate SLOTS_PER_YEAR;
  base ← try_add Rate.one slot_interest_rate;
  compounded_interest_rate ← Rate.try_pow base slots_elapsed;
  cumulative ← try_mul (rl_cumulative_borrow_rate_wads self) compounded_interest_rate;
  compounded_debt ← try_mul (rl_borrowed_amount_wads self) compounded_interest_rate;
  net_new_debt ← try_sub compounded_debt (rl_borrowed_amount_wads self);
  protocol_share ← try_mul net_new_debt take_rate;
  accumulated ← try_add protocol_share (rl_accumulated_protocol_fees_wads self);
  borrowed ← try_add (rl_borrowed_amount_wads self) net_new_debt;
  mret (with_amounts self (rl_available_amount self) borrowed cumulative accumulated
          (rl_market_price self)).

End ReserveLiquidity.

(** ** Exchange rate *)

Module CollateralExchangeRate.

Definition decimal_collateral_to_liquidity (self : CollateralExchangeRate)
    (collateral_amount : Decimal) : outcome Decimal :=
  try_div collateral_amount (exchange_rate_rate self).

Definition collateral_to_liquidity (self : CollateralExchangeRate) (collateral_amount : Z) :
    outcome Z :=
  amount ← decimal_collateral_to_liquidity self (Decimal.from_u64 collateral_amount);
  Decimal.try_floor_u64 amount.

Definition decimal_liquidity_to_collateral (self : CollateralExchangeRate)
    (liquidity_amount : Decimal) : outcome Decimal :=
  try_mul liquidity_amount (exchange_rate_rate self).

Definition liquidity_to_collateral (self : CollateralExchangeRate) (liquidity_amount : Z) :
    outcome Z :=
  amount ← decimal_liquidity_to_collateral self (Decimal.from_u64 liquidity_amount);
  Decimal.try_floor_u64 amount.

Definition to_rate (self : CollateralExchangeRate) : Rate := exchange_rate_rate self.

End CollateralExchangeRate.

(** ** Collateral *)

Module ReserveCollateral.

Definition default : ReserveCollateral := mkReserveCollateral 0 0 0.

Definition new (params : NewReserveCollateralParams) : ReserveCollateral := {|
  rc_mint_pubkey := nrc_mint_pubkey params;
  rc_mint_total_supply := 0;
  rc_supply_pubkey := nrc_supply_pubkey params;
|}.

Definition with_supply (self : ReserveCollateral) (supply : Z) : ReserveCollateral :=
  mkReserveCollateral (rc_mint_pubkey self) supply (rc_supply_pubkey self).

Definition mint (self : ReserveCollateral) (collateral_amount : Z) : outcome ReserveCollateral :=
  supply ← ok_or_overflow (checked_add 64 (rc_mint_total_supply self) collateral_amount);
  mret (with_supply self supply).

Definition burn (self : ReserveCollateral) (collateral_amount : Z) : outcome ReserveCollateral :=
  supply ← ok_or_overflow (checked_sub (rc_mint_total_supply self) collateral_amount);
  mret (with_supply self supply).

Definition exchange_rate (self : ReserveCollateral) (total_liquidity : Decimal) :
    outcome CollateralExchangeRate :=
  rate ← (if (rc_mint_total_supply self =? 0) || Decimal.eqb total_liquidity Decimal.zero
          then mret (Rate.from_scaled_val INITIAL_COLLATERAL_RATE)
          else
            ratio ← try_div (Decimal.from_u64 (rc_mint_total_supply self)) total_liquidity;
            Rate.try_from ratio);
  mret (mkCollateralExchangeRate rate).

End ReserveCollateral.

(** ** Fees *)

Module ReserveFees.

Definition default : ReserveFees := mkReserveFees 0 0 0.

Definition calculate_fees (self : ReserveFees) (amount : Decimal) (fee_wad : Z)
    (fee_calculation : FeeCalculation) : outcome (Z * Z) :=
  let borrow_fee_rate := Rate.from_scaled_val fee_wad in
  let host_fee_rate := Rate.from_percent (host_fee_percentage self) in
  if Rate.ltb Rate.zero borrow_fee_rate && Decimal.ltb Decimal.zero amount then
    let need_to_assess_host_fee := Rate.ltb Rate.zero host_fee_rate in
    let minimum_fee := if need_to_assess_host_fee then 2 else 1 in
    borrow_fee_amount ←
      match fee_calculation with
      | Exclusive => try_mul amount borrow_fee_rate
      | Inclusive =>
          one_plus ← try_add borrow_fee_rate Rate.one;
          borrow_fee_rate ← try_div borrow_fee_rate one_plus;
          try_mul amount borrow_fee_rate
      end;
    let borrow_fee_decimal := Decimal.max borrow_fee_amount (Decimal.from_u64 minimum_fee) in
    if Decimal.leb amount borrow_fee_decimal then fail BorrowTooSmall
    else
      borrow_fee ← Decimal.try_round_u64 borrow_fee_decimal;
      host_fee ←
        (if need_to_assess_host_fee then
           share ← try_mul borrow_fee_decimal host_fee_rate;
           rounded ← Decimal.try_round_u64 share;
           mret (Z.max rounded 1)
         else mret 0);
      mret (borrow_fee, host_fee)
  else mret (0, 0).

Definition calculate_borrow_fees (self : ReserveFees) (borrow_amount : Decimal)
    (fee_calculation : FeeCalculation) : outcome (Z * Z) :=
  calculate_fees self borrow_amount (borrow_fee_wad self) fee_calculation.

Definition calculate_flash_loan_fees (self : ReserveFees) (flash_loan_amount : Decimal) :
    outcome (Z * Z) :=
  calculate_fees self flash_loan_amount (flash_loan_fee_wad self) Exclusive.

End ReserveFees.

Module ReserveConfig.

Definition default : ReserveConfig :=
  mkReserveConfig 0 0 0 0 0 0 0 ReserveFees.default 0 0 0 0 0.

End ReserveConfig.

(** ** The reserve *)

Module Reserve.

Definition default : Reserve :=
  mkReserve 0 LastUpdate.default 0 ReserveLiquidity.default ReserveCollateral.default
    ReserveConfig.default.

Definition init (self : Reserve) (params : InitReserveParams) : Reserve := {|
  r_version := PROGRAM_VERSION;
  r_last_update := LastUpdate.new (ir_current_slot params);
  r_lending_market := ir_lending_market params;
  r_liquidity := ir_liquidity params;
  r_collateral := ir_collateral params;
  r_config := ir_config params;
|}.

Definition new (params : InitReserveParams) : Reserve := init default params.

Definition is_initialized (self : Reserve) : bool :=
  negb (r_version self =? UNINITIALIZED_VERSION).

(** Assignment to one of the sub-structs. *)
Definition with_last_update (self : Reserve) (u : LastUpdate) : Reserve :=
  mkReserve (r_version self) u (r_lending_market self) (r_liquidity self) (r_collateral self)
    (r_config self).
Definition with_liquidity (self : Reserve) (l : ReserveLiquidity) : Reserve :=
  mkReserve (r_version self) (r_last_update self) (r_lending_market self) l (r_collateral self)
    (r_config self).
Definition with_collateral (self : Reserve) (c : ReserveCollateral) : Reserve :=
  mkReserve (r_version self) (r_last_update self) (r_lending_market self) (r_liquidity self) c
    (r_config self).
Definition with_config (self : Reserve) (c : ReserveConfig) : Reserve :=
  mkReserve (r_version self) (r_last_update self) (r_lending_market self) (r_liquidity self)
    (r_collateral self) c.

(** [reserve.last_update.mark_stale()] and [update_slot(slot)] *)
Definition mark_stale (self : Reserve) : Reserve :=
  with_last_update self (LastUpdate.mark_stale (r_last_update self)).
Definition update_slot (self : Reserve) (slot : Z) : Reserve :=
  with_last_update self (LastUpdate.update_slot (r_last_update self) slot).

Definition collateral_exchange_rate (self : Reserve) : outcome CollateralExchangeRate :=
  total_liquidity ← ReserveLiquidity.total_supply (r_liquidity self);
  ReserveCollateral.exchange_rate (r_collateral self) total_liquidity.

Definition deposit_liquidity (self : Reserve) (liquidity_amount : Z) : outcome (Reserve * Z) :=
  rate ← collateral_exchange_rate self;
  collateral_amount ← CollateralExchangeRate.liquidity_to_collateral rate liquidity_amount;
  liquidity ← ReserveLiquidity.deposit (r_liquidity self) liquidity_amount;
  collateral ← ReserveCollateral.mint (r_collateral self) collateral_amount;
  mret (with_collateral (with_liquidity self liquidity) collateral, collateral_amount).

Definition redeem_collateral (self : Reserve) (collateral_amount : Z) : outcome (Reserve * Z) :=
  rate ← collateral_exchange_rate self;
  liquidity_amount ← CollateralExchangeRate.collateral_to_liquidity rate collateral_amount;
  collateral ← ReserveCollateral.burn (r_collateral self) collateral_amount;
  liquidity ← ReserveLiquidity.withdraw (r_liquidity self) liquidity_amount;
  mret (with_liquidity (with_collateral self collateral) liquidity, liquidity_amount).

(** The rates that stand for maxima above 250 percent. *)
Definition special_borrow_rate (max_borrow_rate : Z) : outcome Rate :=
  let rate := Rate.from_percent 50 in
  match max_borrow_rate with
  | 251 => try_mul rate 6
  | 252 => try_mul rate 7
  | 253 => try_mul rate 8
  | 254 => try_mul rate 10
  | 255 => try_mul rate 12
  | 250 => try_mul rate 20
  | 249 => try_mul rate 30
  | 248 => try_mul rate 40
  | 247 => try_mul rate 50
  | _ => mret (Rate.from_percent max_borrow_rate)
  end.

Definition current_borrow_rate (self : Reserve) : outcome Rate :=
  let config := r_config self in
  utilization_rate ← ReserveLiquidity.utilization_rate (r_liquidity self);
  let optimal_utilization := Rate.from_percent (optimal_utilization_rate config) in
  let low_utilization := Rate.ltb utilization_rate optimal_utilization in
  if low_utilization || (optimal_utilization_rate config =? 100) then
    normalized_rate ← try_div utilization_rate optimal_utilization;
    let min_rate := Rate.from_percent (min_borrow_rate config) in
    range ← ok_or_overflow (checked_sub (optimal_borrow_rate config) (min_borrow_rate config));
    let rate_range := Rate.from_percent range in
    scaled ← try_mul normalized_rate rate_range;
    try_add scaled min_rate
  else if optimal_borrow_rate config =? max_borrow_rate config then
    special_borrow_rate (max_borrow_rate config)
  else
    excess ← try_sub utilization_rate optimal_utilization;
    rest ← ok_or_overflow (checked_sub 100 (optimal_utilization_rate config));
    normalized_rate ← try_div excess (Rate.from_percent rest);
    let min_rate := Rate.from_percent (optimal_borrow_rate config) in
    range ← ok_or_overflow (checked_sub (max_borrow_rate config) (optimal_borrow_rate config));
    let rate_range := Rate.from_percent range in
    scaled ← try_mul normalized_rate rate_range;
    try_add scaled min_rate.

Definition accrue_interest (self : Reserve) (current_slot : Z) : outcome Reserve :=
  slots_elapsed ← LastUpdate.slots_elapsed (r_last_update self) current_slot;
  if slots_elapsed >? 0 then
    rate ← current_borrow_rate self;
    let take_rate := Rate.from_percent (protocol_take_rate (r_config self)) in
    liquidity ← ReserveLiquidity.compound_interest (r_liquidity self) rate slots_elapsed take_rate;
    mret (with_liquidity self liquidity)
  else mret self.

Definition calculate_borrow (self : Reserve) (amount_to_borrow : Z)
    (max_borrow_value remaining_reserve_borrow : Decimal) : outcome CalculateBorrowResult :=
  let liquidity := r_liquidity self in
  decimals ← ok_or_overflow (checked_pow 64 10 (rl_mint_decimals liquidity));
  if amount_to_borrow =? u64_MAX then
    scaled_value ← try_mul max_borrow_value decimals;
    quotient ← try_div scaled_value (rl_market_price liquidity);
    let borrow_amount :=
      Decimal.min (Decimal.min quotient remaining_reserve_borrow)
        (Decimal.from_u64 (rl_available_amount liquidity)) in
    '(borrow_fee, host_fee) ←
      ReserveFees.calculate_borrow_fees (fees (r_config self)) borrow_amount Inclusive;
    floor ← Decimal.try_floor_u64 borrow_amount;
    receive_amount ← ok_or_overflow (checked_sub floor borrow_fee);
    mret (mkCalculateBorrowResult borrow_amount receive_amount borrow_fee host_fee)
  else
    let receive_amount := amount_to_borrow in
    let borrow_amount := Decimal.from_u64 receive_amount in
    '(borrow_fee, host_fee) ←
      ReserveFees.calculate_borrow_fees (fees (r_config self)) borrow_amount Exclusive;
    borrow_amount ← try_add borrow_amount (Decimal.from_u64 borrow_fee);
    scaled_value ← try_mul borrow_amount (rl_market_price liquidity);
    borrow_value ← try_div scaled_value decimals;
    if Decimal.ltb max_borrow_value borrow_value then fail BorrowTooLarge
    else mret (mkCalculateBorrowResult borrow_amount receive_amount borrow_fee host_fee).

Definition calculate_repay (self : Reserve) (amount_to_repay : Z) (borrowed_amount : Decimal) :
    outcome CalculateRepayResult :=
  let settle_amount :=
    if amount_to_repay =? u64_MAX then borrowed_amount
    else Decimal.min (Decimal.from_u64 amount_to_repay) borrowed_amount in
  repay_amount ← Decimal.try_ceil_u64 settle_amount;
  mret (mkCalculateRepayResult settle_amount repay_amount).

(** The configured percentage is not used: the cut is computed with 0 percent
    and raised to one. *)
Definition calculate_protocol_liquidation_fee (self : Reserve) (amount_liquidated : Z) : outcome Z :=
  bonus_rate ← try_add (Rate.from_percent (liquidation_bonus (r_config self))) Rate.one;
  let amount_liquidated_wads := Decimal.from_u64 amount_liquidated in
  net ← try_div amount_liquidated_wads bonus_rate;
  bonus ← try_sub amount_liquidated_wads net;
  cut ← try_mul bonus (Rate.from_percent 0);
  cut ← Decimal.try_ceil_u64 cut;
  mret (Z.max cut 1).

Definition calculate_redeem_fees (self : Reserve) : outcome Z :=
  accumulated ← Decimal.try_floor_u64 (rl_accumulated_protocol_fees_wads (r_liquidity self));
  mret (Z.min (rl_available_amount (r_liquidity self)) accumulated).

End Reserve.

#[export] Instance Reserve_IsInitialized : IsInitialized Reserve := Reserve.is_initialized.

(** ** Configuration checks

    [validate_reserve_config] of [processor.rs]. *)
Definition validate_reserve_config (config : ReserveConfig) : outcome unit :=
  require (negb (optimal_utilization_rate config >? 100)) InvalidConfig;;
  require (negb (loan_to_value_ratio config >=? 100)) InvalidConfig;;
  require (negb (liquidation_bonus config >? 100)) InvalidConfig;;
  require (negb ((liquidation_threshold config <? loan_to_value_ratio config)
                 || (liquidation_threshold config >? 100))) InvalidConfig;;
  require (negb (optimal_borrow_rate config <? min_borrow_rate config)) InvalidConfig;;
  require (negb (optimal_borrow_rate config >? max_borrow_rate config)) InvalidConfig;;
  require (negb (borrow_fee_wad (fees config) >=? WAD)) InvalidConfig;;
  require (negb (host_fee_percentage (fees config) >? 100)) InvalidConfig;;
  require (negb (protocol_liquidation_fee config >? 100)) InvalidConfig;;
  require (negb (protocol_take_rate config >? 100)) InvalidConfig;;
  mret tt.

(** ** Invariants *)

Record ReserveFees_ok (f : ReserveFees) : Prop := {
  ok_borrow_fee_wad : is_u64 (borrow_fee_wad f);
  ok_flash_loan_fee_wad : is_u64 (flash_loan_fee_wad f);
  ok_host_fee_percentage : is_u8 (host_fee_percentage f);
}.

Record ReserveConfig_ok (c : ReserveConfig) : Prop := {
  ok_optimal_utilization_rate : is_u8 (optimal_utilization_rate c);
  ok_loan_to_value_ratio : is_u8 (loan_to_value_ratio c);
  ok_liquidation_bonus : is_u8 (liquidation_bonus c);
  ok_liquidation_threshold : is_u8 (liquidation_threshold c);
  ok_min_borrow_rate : is_u8 (min_borrow_rate c);
  ok_optimal_borrow_rate : is_u8 (optimal_borrow_rate c);
  ok_max_borrow_rate : is_u8 (max_borrow_rate c);
  ok_fees : ReserveFees_ok (fees c);
  ok_deposit_limit : is_u64 (deposit_limit c);
  ok_borrow_limit : is_u64 (borrow_limit c);
  ok_fee_receiver : is_key (fee_receiver c);
  ok_protocol_liquidation_fee : is_u8 (protocol_liquidation_fee c);
  ok_protocol_take_rate : is_u8 (protocol_take_rate c);
}.

Record ReserveLiquidity_ok (l : ReserveLiquidity) : Prop := {
  ok_rl_mint_pubkey : is_key (rl_mint_pubkey l);
  ok_rl_mint_decimals : is_u8 (rl_mint_decimals l);
  ok_rl_supply_pubkey : is_key (rl_supply_pubkey l);
  ok_rl_pyth : is_key (rl_pyth_oracle_pubkey l);
  ok_rl_switchboard : is_key (rl_switchboard_oracle_pubkey l);
  ok_rl_available : is_u64 (rl_available_amount l);
  ok_rl_borrowed : Decimal_ok (rl_borrowed_amount_wads l);
  ok_rl_cumulative : Decimal_ok (rl_cumulative_borrow_rate_wads l);
  ok_rl_accumulated : Decimal_ok (rl_accumulated_protocol_fees_wads l);
  ok_rl_market_price : Decimal_ok (rl_market_price l);
}.

Record ReserveCollateral_ok (c : ReserveCollateral) : Prop := {
  ok_rc_mint_pubkey : is_key (rc_mint_pubkey c);
  ok_rc_mint_total_supply : is_u64 (rc_mint_total_supply c);
  ok_rc_supply_pubkey : is_key (rc_supply_pubkey c);
}.

Record Reserve_ok (r : Reserve) : Prop := {
  ok_r_version : 0 ≤ r_version r ≤ PROGRAM_VERSION;
  ok_r_last_update : LastUpdate_ok (r_last_update r);
  ok_r_lending_market : is_key (r_lending_market r);
  ok_r_liquidity : ReserveLiquidity_ok (r_liquidity r);
  ok_r_collateral : ReserveCollateral_ok (r_collateral r);
  ok_r_config : ReserveConfig_ok (r_config r);
}.

#[export] Hint Resolve ok_r_liquidity ok_r_collateral ok_r_config ok_rl_available ok_rl_borrowed
  ok_rl_cumulative ok_rl_accumulated ok_rl_market_price ok_rc_mint_total_supply : lending.

(** What a validated configuration satisfies. *)
Lemma validate_reserve_config_Ok c :
  validate_reserve_config c = Ok tt ↔
  optimal_utilization_rate c ≤ 100 ∧ loan_to_value_ratio c < 100 ∧ liquidation_bonus c ≤ 100 ∧
  loan_to_value_ratio c ≤ liquidation_threshold c ≤ 100 ∧
  min_borrow_rate c ≤ optimal_borrow_rate c ≤ max_borrow_rate c ∧
  borrow_fee_wad (fees c) < WAD ∧ host_fee_percentage (fees c) ≤ 100 ∧
  protocol_liquidation_fee c ≤ 100 ∧ protocol_take_rate c ≤ 100.
Proof.
  unfold validate_reserve_config. rewrite !require_bind_Ok, !negb_true_iff, orb_false_iff.
  rewrite !Z.gtb_ltb, !Z.geb_leb, !Z.ltb_ge, !Z.leb_gt.
  split; [lia|]. intros H. repeat (split; [lia|]). done.
Qed.
