(* ===== verification/ReserveFacts.v ===== *)
(** * Facts about reserves

    Liquidity bookkeeping, interest, the borrow rate, the exchange rate and the
    fees of [Reserve]. *)

From S2P Require Import Prelude Errors FixedPoint StateBase Reserve.

(** ** Liquidity *)

(** The liquidity that depositors own, in wads: what is available and lent out,
    less the protocol's fees. *)
Definition supply_wads (l : ReserveLiquidity) : Z :=
  WAD * rl_available_amount l + dec (rl_borrowed_amount_wads l)
  - dec (rl_accumulated_protocol_fees_wads l).

Lemma total_supply_Ok l d :
  ReserveLiquidity.total_supply l = Ok d ↔
  d = mkDecimal (supply_wads l) ∧ 0 ≤ supply_wads l ∧
  WAD * rl_available_amount l + dec (rl_borrowed_amount_wads l) < 2 ^ 192.
Proof.
  unfold ReserveLiquidity.total_supply, supply_wads. rewrite bind_Ok. split.
  - intros (g & Hg & H). inv_fp. split; [done|lia].
  - intros (-> & ? & ?). eexists (mkDecimal _). rewrite Decimal_add_Ok, Decimal_sub_Ok.
    fp_simpl. split; [done|]. split; [done|lia].
Qed.

Lemma deposit_Ok l n l' :
  ReserveLiquidity.deposit l n = Ok l' ↔
  l' = ReserveLiquidity.with_available l (rl_available_amount l + n) ∧
  rl_available_amount l + n < 2 ^ 64.
Proof.
  unfold ReserveLiquidity.deposit. rewrite bind_Ok. setoid_rewrite ok_or_overflow_Ok.
  setoid_rewrite checked_add_Some. unfold mret, result_ret. naive_solver.
Qed.

Lemma withdraw_Ok l n l' :
  ReserveLiquidity.withdraw l n = Ok l' ↔
  l' = ReserveLiquidity.with_available l (rl_available_amount l - n) ∧ n ≤ rl_available_amount l.
Proof.
  unfold ReserveLiquidity.withdraw. rewrite Z.gtb_ltb.
  destruct (Z.ltb_spec (rl_available_amount l) n); [split; [done|lia]|].
  rewrite bind_Ok. setoid_rewrite ok_or_overflow_Ok.
  setoid_rewrite checked_sub_Some. unfold mret, result_ret. naive_solver.
Qed.

Lemma borrow_Ok l d l' :
  ReserveLiquidity.borrow l d = Ok l' →
  dec d / WAD ≤ rl_available_amount l ∧ dec d / WAD < 2 ^ 64 ∧
  dec (rl_borrowed_amount_wads l) + dec d < 2 ^ 192 ∧
  l' = ReserveLiquidity.with_available_borrowed l (rl_available_amount l - dec d / WAD)
         (mkDecimal (dec (rl_borrowed_amount_wads l) + dec d)).
Proof.
  unfold ReserveLiquidity.borrow. intros H. apply bind_Ok in H as (n & Hn & H).
  rewrite Z.gtb_ltb in H. destruct (Z.ltb_spec (rl_available_amount l) n); [done|]. inv_fp. done.
Qed.

Lemma repay_Ok l n d l' :
  ReserveLiquidity.repay l n d = Ok l' →
  rl_available_amount l + n < 2 ^ 64 ∧
  l' = ReserveLiquidity.with_available_borrowed l (rl_available_amount l + n)
         (mkDecimal (dec (rl_borrowed_amount_wads l)
                     - Z.min (dec d) (dec (rl_borrowed_amount_wads l)))).
Proof.
  unfold ReserveLiquidity.repay, Decimal.min, Decimal.leb. intros H.
  destruct (Z.leb_spec (dec d) (dec (rl_borrowed_amount_wads l))); inv_fp;
    (split; [done|]); do 2 f_equal; lia.
Qed.

Lemma redeem_fees_Ok l n l' :
  ReserveLiquidity.redeem_fees l n = Ok l' ↔
  n ≤ rl_available_amount l ∧ WAD * n ≤ dec (rl_accumulated_protocol_fees_wads l) ∧
  l' = ReserveLiquidity.with_amounts l (rl_available_amount l - n) (rl_borrowed_amount_wads l)
         (rl_cumulative_borrow_rate_wads l)
         (mkDecimal (dec (rl_accumulated_protocol_fees_wads l) - WAD * n)) (rl_market_price l).
Proof.
  unfold ReserveLiquidity.redeem_fees. rewrite bind_Ok. split.
  - intros (? & ? & H). inv_fp. done.
  - intros (? & ? & ->). eexists. rewrite ok_or_overflow_Ok, checked_sub_Some. split; [done|].
    rewrite bind_Ok. eexists. rewrite Decimal_sub_Ok. done.
Qed.

(** Only the amounts of a liquidity change, so its invariant is theirs. *)
Lemma with_amounts_ok l a b c f p :
  ReserveLiquidity_ok l → is_u64 a → Decimal_ok b → Decimal_ok c → Decimal_ok f → Decimal_ok p →
  ReserveLiquidity_ok (ReserveLiquidity.with_amounts l a b c f p).
Proof. intros []. by constructor. Qed.

Lemma floor_wad_in_width w z : 0 ≤ z → z / WAD < 2 ^ w → in_width w (z / WAD).
Proof. split; [apply Z.div_pos; done|done]. Qed.
#[export] Hint Resolve with_amounts_ok : lending.

(** ** Interest *)

(** The three amounts that a compounding step changes, and by how much. *)
Lemma compound_interest_Ok l rate n take l' :
  is_u64 n → 0 ≤ rat rate →
  ReserveLiquidity.compound_interest l rate n take = Ok l' →
  ∃ p, Rate.try_pow (mkRate (WAD + rat rate / SLOTS_PER_YEAR)) n = Ok p ∧ WAD ≤ rat p ∧
    let debt := dec (rl_borrowed_amount_wads l) in
    let net := debt * rat p / WAD - debt in
    0 ≤ net ∧ debt * rat p < 2 ^ 192 ∧ dec (rl_cumulative_borrow_rate_wads l) * rat p < 2 ^ 192 ∧
    debt + net < 2 ^ 192 ∧ dec (rl_accumulated_protocol_fees_wads l) + net * rat take / WAD < 2 ^ 192 ∧
    l' = ReserveLiquidity.with_amounts l (rl_available_amount l)
           (mkDecimal (debt + net))
           (mkDecimal (dec (rl_cumulative_borrow_rate_wads l) * rat p / WAD))
           (mkDecimal (net * rat take / WAD + dec (rl_accumulated_protocol_fees_wads l)))
           (rl_market_price l).
Proof.
  intros Hn Hr H. unfold ReserveLiquidity.compound_interest in H.
  inv_fp. match goal with E : Rate.try_pow _ _ = Ok ?p |- _ => exists p; rename E into Ep end.
  split; [exact Ep|]. split.
  { apply (try_pow_ge_one _ _ _ Hn Ep). cbn [rat Rate.one]. unfold Rate.wad.
    pose proof (Z.div_pos (rat rate) SLOTS_PER_YEAR Hr eq_refl). lia. }
  cbn zeta. repeat (split; [lia|]). done.
Qed.

(** ** Utilization and borrow rate *)

(** The utilization as an integer. *)
Definition utilization_wads (l : ReserveLiquidity) : Z :=
  if supply_wads l =? 0 then 0
  else dec (rl_borrowed_amount_wads l) * WAD / supply_wads l.

Lemma utilization_rate_Ok l u :
  ReserveLiquidity.utilization_rate l = Ok u → rat u = utilization_wads l ∧ 0 ≤ supply_wads l.
Proof.
  unfold ReserveLiquidity.utilization_rate, utilization_wads, Decimal.eqb. intros H.
  apply bind_Ok in H as (d & Hd & H). apply total_supply_Ok in Hd as (-> & ? & ?).
  cbn [dec Decimal.zero] in H. destruct (supply_wads l =? 0); inv_fp; done.
Qed.

Lemma utilization_wads_nonneg l :
  0 ≤ dec (rl_borrowed_amount_wads l) → 0 ≤ supply_wads l → 0 ≤ utilization_wads l.
Proof.
  intros. unfold utilization_wads. destruct (Z.eqb_spec (supply_wads l) 0); [done|].
  apply Z.div_pos; [unfold WAD; lia|lia].
Qed.

(** Debt stays within the supply while the fees are covered by what is
    available. *)
Lemma utilization_wads_le_one l :
  0 ≤ dec (rl_borrowed_amount_wads l) → 0 ≤ supply_wads l →
  dec (rl_accumulated_protocol_fees_wads l) ≤ WAD * rl_available_amount l →
  utilization_wads l ≤ WAD.
Proof.
  intros H0 Hs Hf. unfold utilization_wads. destruct (Z.eqb_spec (supply_wads l) 0); [done|].
  apply div_le_upper; [lia|]. unfold supply_wads in *. unfold WAD in *. nia.
Qed.

(** The rates for maxima above 246, checked one by one. *)
Lemma special_borrow_rate_spec m :
  is_u8 m → ∃ r, Reserve.special_borrow_rate m = Ok r ∧
    m * PERCENT_SCALER ≤ rat r ≤ 25 * WAD ∧ (m < 247 → rat r = m * PERCENT_SCALER).
Proof.
  intros Hm.
  assert (Hall : forallb (λ m,
      match Reserve.special_borrow_rate m with
      | Ok r => (m * PERCENT_SCALER <=? rat r) && (rat r <=? 25 * WAD)
                && ((247 <=? m) || (rat r =? m * PERCENT_SCALER))
      | _ => false
      end) (seqZ 0 256) = true) by (vm_compute; reflexivity).
  rewrite forallb_forall in Hall. specialize (Hall m).
  destruct (Reserve.special_borrow_rate m) as [r| |].
  - exists r. split; [done|]. rewrite !andb_true_iff, orb_true_iff, !Z.leb_le, Z.eqb_eq in Hall.
    destruct Hall as [[? ?] ?]; [|lia]. apply list_elem_of_In, elem_of_seqZ.
    unfold in_width in Hm. lia.
  - discriminate Hall. apply list_elem_of_In, elem_of_seqZ. unfold in_width in Hm. lia.
  - discriminate Hall. apply list_elem_of_In, elem_of_seqZ. unfold in_width in Hm. lia.
Qed.

(** The borrow curve as a function of the utilization: linear from the minimum
    to the optimal rate, then linear to the maximum. *)
Definition borrow_curve (c : ReserveConfig) (u : Z) : Z :=
  if (u <? optimal_utilization_rate c * PERCENT_SCALER) || (optimal_utilization_rate c =? 100) then
    u * WAD / (optimal_utilization_rate c * PERCENT_SCALER)
      * ((optimal_borrow_rate c - min_borrow_rate c) * PERCENT_SCALER) / WAD
    + min_borrow_rate c * PERCENT_SCALER
  else if optimal_borrow_rate c =? max_borrow_rate c then
    match Reserve.special_borrow_rate (max_borrow_rate c) with Ok r => rat r | _ => 0 end
  else
    (u - optimal_utilization_rate c * PERCENT_SCALER) * WAD
      / ((100 - optimal_utilization_rate c) * PERCENT_SCALER)
      * ((max_borrow_rate c - optimal_borrow_rate c) * PERCENT_SCALER) / WAD
    + optimal_borrow_rate c * PERCENT_SCALER.

Lemma current_borrow_rate_Ok r rate :
  Reserve.current_borrow_rate r = Ok rate →
  rat rate = borrow_curve (r_config r) (utilization_wads (r_liquidity r)) ∧
  0 ≤ supply_wads (r_liquidity r).
Proof.
  unfold Reserve.current_borrow_rate, borrow_curve, Rate.ltb. intros H.
  apply bind_Ok in H as (u & Hu & H). apply utilization_rate_Ok in Hu as [<- Hs].
  cbn [rat Rate.from_percent] in H.
  destruct (rat u <? _); cbn [orb] in *; [|destruct (_ =? 100)]; [inv_fp; done..|].
  destruct (_ =? max_borrow_rate _); [by rewrite H|]. inv_fp. done.
Qed.

Section borrow_curve.
Context (c : ReserveConfig) (Hc : ReserveConfig_ok c) (Hv : validate_reserve_config c = Ok tt).

(** Each leg of the curve stays between its ends. *)
Lemma leg_bounds x d w : 0 ≤ x ≤ d → 0 < d → 0 ≤ w → 0 ≤ x * WAD / d * w / WAD ≤ w.
Proof.
  intros Hx Hd Hw.
  assert (0 ≤ x * WAD / d ≤ WAD).
  { split; [apply Z.div_pos; [unfold WAD|]; lia|]. apply div_le_upper; [done|]. unfold WAD. nia. }
  split; [apply Z.div_pos; [nia|done]|]. apply div_le_upper; [done|]. nia.
Qed.

Lemma leg_mono x y d w : x ≤ y → 0 < d → 0 ≤ w → x * WAD / d * w / WAD ≤ y * WAD / d * w / WAD.
Proof.
  intros. apply Z.div_le_mono; [done|]. apply Z.mul_le_mono_nonneg_r; [done|].
  apply Z.div_le_mono; [done|]. unfold WAD. lia.
Qed.

Lemma borrow_curve_low u :
  0 ≤ u ≤ optimal_utilization_rate c * PERCENT_SCALER →
  u < optimal_utilization_rate c * PERCENT_SCALER ∨ optimal_utilization_rate c = 100 →
  min_borrow_rate c * PERCENT_SCALER ≤ borrow_curve c u ≤ optimal_borrow_rate c * PERCENT_SCALER.
Proof.
  intros Hu Hlow. apply validate_reserve_config_Ok in Hv. unfold borrow_curve.
  assert (Hg : (u <? optimal_utilization_rate c * PERCENT_SCALER)
               || (optimal_utilization_rate c =? 100) = true).
  { apply orb_true_iff. rewrite Z.ltb_lt, Z.eqb_eq. done. }
  rewrite Hg. unfold PERCENT_SCALER in *.
  pose proof (leg_bounds u (optimal_utilization_rate c * 10000000000000000)
    ((optimal_borrow_rate c - min_borrow_rate c) * 10000000000000000)
    ltac:(lia) ltac:(lia) ltac:(lia)). lia.
Qed.

Lemma borrow_curve_high u :
  optimal_utilization_rate c * PERCENT_SCALER ≤ u ≤ WAD → optimal_utilization_rate c ≠ 100 →
  optimal_borrow_rate c ≠ max_borrow_rate c →
  optimal_borrow_rate c * PERCENT_SCALER ≤ borrow_curve c u ≤ max_borrow_rate c * PERCENT_SCALER.
Proof.
  intros Hu Hne Hom. apply validate_reserve_config_Ok in Hv. unfold borrow_curve.
  rewrite (proj2 (Z.ltb_ge _ _)), (proj2 (Z.eqb_neq _ _)), (proj2 (Z.eqb_neq _ _)) by lia.
  cbn [orb]. unfold PERCENT_SCALER, WAD in Hu |- *.
  pose proof (leg_bounds (u - optimal_utilization_rate c * 10000000000000000)
    ((100 - optimal_utilization_rate c) * 10000000000000000)
    ((max_borrow_rate c - optimal_borrow_rate c) * 10000000000000000)
    ltac:(lia) ltac:(lia) ltac:(lia)) as H. unfold WAD in H. lia.
Qed.

Lemma borrow_curve_special u :
  optimal_utilization_rate c * PERCENT_SCALER ≤ u → optimal_utilization_rate c ≠ 100 →
  optimal_borrow_rate c = max_borrow_rate c →
  max_borrow_rate c * PERCENT_SCALER ≤ borrow_curve c u ≤ 25 * WAD ∧
  (max_borrow_rate c < 247 → borrow_curve c u = max_borrow_rate c * PERCENT_SCALER).
Proof.
  intros Hu Hne Hom. unfold borrow_curve.
  rewrite (proj2 (Z.ltb_ge _ _)), (proj2 (Z.eqb_neq _ _)), (proj2 (Z.eqb_eq _ _)) by lia.
  cbn [orb]. destruct (special_borrow_rate_spec (max_borrow_rate c)) as (s & -> & ?); [apply Hc|done].
Qed.

(** At full utilization at most, the rate lies between the configured ends; the
    maxima from 247 percent stand for larger rates, up to 2500 percent. *)
Lemma borrow_curve_bounds u :
  0 ≤ u ≤ WAD →
  min_borrow_rate c * PERCENT_SCALER ≤ borrow_curve c u ≤
    (if max_borrow_rate c <? 247 then max_borrow_rate c * PERCENT_SCALER else 25 * WAD).
Proof.
  intros Hu. pose proof (proj1 (validate_reserve_config_Ok c) Hv) as Hv'.
  pose proof (ok_max_borrow_rate c Hc) as [_ Hmax].
  assert (Hle : max_borrow_rate c * PERCENT_SCALER ≤
      (if max_borrow_rate c <? 247 then max_borrow_rate c * PERCENT_SCALER else 25 * WAD)).
  { destruct (_ <? 247); [done|]. unfold PERCENT_SCALER, WAD. lia. }
  destruct (decide (u < optimal_utilization_rate c * PERCENT_SCALER
                    ∨ optimal_utilization_rate c = 100)) as [Hlow|Hhigh].
  - pose proof (borrow_curve_low u) as Hb. unfold PERCENT_SCALER, WAD in *. lia.
  - apply Decidable.not_or in Hhigh as [Hge Hne].
    destruct (decide (optimal_borrow_rate c = max_borrow_rate c)) as [Ho|Ho].
    + destruct (borrow_curve_special u) as [Hb Hs]; [lia|done..|].
      destruct (Z.ltb_spec (max_borrow_rate c) 247).
      * rewrite Hs by done. unfold PERCENT_SCALER. lia.
      * unfold PERCENT_SCALER in *. lia.
    + pose proof (borrow_curve_high u ltac:(lia) Hne Ho). unfold PERCENT_SCALER in *. lia.
Qed.

(** More utilization never costs less, up to full utilization. *)
Lemma borrow_curve_mono u v : 0 ≤ u ≤ v → v ≤ WAD → borrow_curve c u ≤ borrow_curve c v.
Proof.
  intros Huv Hv1. pose proof (proj1 (validate_reserve_config_Ok c) Hv) as Hv'.
  destruct (decide (v < optimal_utilization_rate c * PERCENT_SCALER
                    ∨ optimal_utilization_rate c = 100)) as [Hlow|Hhigh].
  - assert (E : ∀ w, w ≤ v → (w <? optimal_utilization_rate c * PERCENT_SCALER)
               || (optimal_utilization_rate c =? 100) = true).
    { intros. apply orb_true_iff. rewrite Z.ltb_lt, Z.eqb_eq. lia. }
    unfold borrow_curve. rewrite !E by lia.
    pose proof (leg_mono u v (optimal_utilization_rate c * PERCENT_SCALER)
      ((optimal_borrow_rate c - min_borrow_rate c) * PERCENT_SCALER)) as H.
    unfold PERCENT_SCALER in *. lia.
  - apply Decidable.not_or in Hhigh as [Hge Hne].
    destruct (decide (u < optimal_utilization_rate c * PERCENT_SCALER)) as [Hul|Hul].
    + pose proof (borrow_curve_low u ltac:(lia) ltac:(lia)).
      destruct (decide (optimal_borrow_rate c = max_borrow_rate c)) as [Ho|Ho].
      * pose proof (borrow_curve_special v ltac:(lia) Hne Ho). rewrite Ho in *. lia.
      * pose proof (borrow_curve_high v ltac:(lia) Hne Ho). lia.
    + assert (E : ∀ w, u ≤ w → (w <? optimal_utilization_rate c * PERCENT_SCALER)
               || (optimal_utilization_rate c =? 100) = false).
      { intros. apply orb_false_iff. rewrite Z.ltb_ge, Z.eqb_neq. lia. }
      unfold borrow_curve. rewrite !E by lia. destruct (_ =? max_borrow_rate c); [done|].
      pose proof (leg_mono (u - optimal_utilization_rate c * PERCENT_SCALER)
        (v - optimal_utilization_rate c * PERCENT_SCALER)
        ((100 - optimal_utilization_rate c) * PERCENT_SCALER)
        ((max_borrow_rate c - optimal_borrow_rate c) * PERCENT_SCALER)) as H.
      unfold PERCENT_SCALER in *. lia.
Qed.
End borrow_curve.

Lemma current_borrow_rate_nonneg r rate :
  Reserve_ok r → validate_reserve_config (r_config r) = Ok tt →
  Reserve.current_borrow_rate r = Ok rate → 0 ≤ rat rate.
Proof.
  intros Hr Hv H. pose proof (ok_r_config r Hr) as Hc.
  apply current_borrow_rate_Ok in H as [-> Hs].
  pose proof (utilization_wads_nonneg (r_liquidity r)) as Hu.
  destruct (ok_rl_borrowed _ (ok_r_liquidity r Hr)) as [Hb _]. specialize (Hu Hb Hs).
  apply validate_reserve_config_Ok in Hv.
  pose proof (ok_min_borrow_rate _ Hc) as [Hm _]. pose proof (ok_optimal_utilization_rate _ Hc) as [Ho _].
  unfold borrow_curve.
  destruct (_ || _) eqn:Elow; [|destruct (_ =? max_borrow_rate _) eqn:Eo].
  - apply Z.add_nonneg_nonneg; [|unfold PERCENT_SCALER; lia].
    apply Z.div_pos; [|done]. apply Z.mul_nonneg_nonneg; [|unfold PERCENT_SCALER; lia].
    destruct (decide (optimal_utilization_rate (r_config r) = 0)) as [->|].
    + rewrite Z.mul_0_l, Z.div_0_r. done.
    + apply Z.div_pos; unfold WAD, PERCENT_SCALER; lia.
  - destruct (special_borrow_rate_spec (max_borrow_rate (r_config r))) as (s & -> & ? & _);
      [apply Hc|]. pose proof (ok_max_borrow_rate _ Hc) as [? _]. unfold PERCENT_SCALER in *. lia.
  - apply orb_false_iff in Elow as [Elow Eh]. bool_to_prop.
    apply Z.add_nonneg_nonneg; [|unfold PERCENT_SCALER; lia].
    apply Z.div_pos; [|done]. apply Z.mul_nonneg_nonneg; [|unfold PERCENT_SCALER; lia].
    apply Z.div_pos; unfold WAD, PERCENT_SCALER in *; lia.
Qed.

(** The parts of a reserve that accruing interest leaves alone. *)
Definition same_but_debt (l l' : ReserveLiquidity) : Prop :=
  l' = ReserveLiquidity.with_amounts l (rl_available_amount l) (rl_borrowed_amount_wads l')
         (rl_cumulative_borrow_rate_wads l') (rl_accumulated_protocol_fees_wads l')
         (rl_market_price l).

Lemma compound_interest_grows l rate n take l' :
  ReserveLiquidity_ok l → is_u64 n → 0 ≤ rat rate → 0 ≤ rat take ≤ WAD →
  ReserveLiquidity.compound_interest l rate n take = Ok l' →
  ReserveLiquidity_ok l' ∧ same_but_debt l l' ∧
  dec (rl_cumulative_borrow_rate_wads l) ≤ dec (rl_cumulative_borrow_rate_wads l') ∧
  0 ≤ dec (rl_accumulated_protocol_fees_wads l') - dec (rl_accumulated_protocol_fees_wads l)
    ≤ dec (rl_borrowed_amount_wads l') - dec (rl_borrowed_amount_wads l).
Proof.
  intros Hl Hn Hr Ht H.
  destruct (compound_interest_Ok l rate n take l' Hn Hr H)
    as (p & _ & Hp & Hnet & ? & ? & Hb & Hf & ->).
  pose proof (ok_rl_borrowed l Hl) as [Hb0 _]. pose proof (ok_rl_cumulative l Hl) as [Hc0 _].
  pose proof (ok_rl_accumulated l Hl) as [Hf0 _]. revert Hnet Hb Hf.
  set (net := dec (rl_borrowed_amount_wads l) * rat p / WAD - dec (rl_borrowed_amount_wads l)).
  intros Hnet Hb Hf.
  assert (Hs : 0 ≤ net * rat take / WAD ≤ net).
  { split; [apply Z.div_pos; [lia|done]|]. apply div_le_upper; [done|]. nia. }
  assert (Hcum : dec (rl_cumulative_borrow_rate_wads l)
                 ≤ dec (rl_cumulative_borrow_rate_wads l) * rat p / WAD)
    by (apply Z.div_le_lower_bound; [done|nia]).
  split; [|split; [done|cbn; lia]].
  apply with_amounts_ok; try apply Hl; try done.
  - unfold Decimal_ok, in_width. cbn [dec]. lia.
  - apply quot_in_width; [|done]. unfold in_width, WAD in *. nia.
  - unfold Decimal_ok, in_width. cbn [dec]. lia.
Qed.

Lemma accrue_interest_grows r slot r' :
  Reserve_ok r → is_u64 slot → validate_reserve_config (r_config r) = Ok tt →
  Reserve.accrue_interest r slot = Ok r' →
  Reserve_ok r' ∧ r' = Reserve.with_liquidity r (r_liquidity r') ∧
  same_but_debt (r_liquidity r) (r_liquidity r') ∧
  dec (rl_cumulative_borrow_rate_wads (r_liquidity r))
    ≤ dec (rl_cumulative_borrow_rate_wads (r_liquidity r')) ∧
  0 ≤ dec (rl_accumulated_protocol_fees_wads (r_liquidity r'))
        - dec (rl_accumulated_protocol_fees_wads (r_liquidity r))
    ≤ dec (rl_borrowed_amount_wads (r_liquidity r')) - dec (rl_borrowed_amount_wads (r_liquidity r)) ∧
  StateBase.slot (r_last_update r) ≤ slot ∧
  (StateBase.slot (r_last_update r) = slot → r' = r).
Proof.
  intros Hr Hs Hv H. unfold Reserve.accrue_interest in H.
  apply bind_Ok in H as (n & Hn & H). apply slots_elapsed_Ok in Hn as [-> Hle].
  rewrite Z.gtb_ltb in H. destruct (Z.ltb_spec 0 (slot - StateBase.slot (r_last_update r))).
  - apply bind_Ok in H as (rate & Hrate & H). apply bind_Ok in H as (l & Hl & [= <-]).
    pose proof (current_borrow_rate_nonneg r rate Hr Hv Hrate).
    apply validate_reserve_config_Ok in Hv. destruct Hr as [? Hu ? ? ? Hc].
    pose proof (ok_protocol_take_rate _ Hc) as [? _].
    apply compound_interest_grows in Hl as (? & ? & ? & ?); try done.
    + cbn. split; [by constructor|]. split; [done|]. split; [done|]. split; [done|].
      split; [done|]. split; [done|lia].
    + unfold LastUpdate_ok, in_width in *. lia.
    + cbn [rat Rate.from_percent]. unfold PERCENT_SCALER, WAD. lia.
  - injection H as <-. repeat split; try done; try lia; try apply Hr. 
    all: destruct r as [???[]??]; done.
Qed.

(** ** Exchange rate, deposits and redemptions *)

(** Collateral tokens per unit of liquidity, in wads. *)
Definition exchange_rate_wads (r : Reserve) : Z :=
  let mint := rc_mint_total_supply (r_collateral r) in
  let supply := supply_wads (r_liquidity r) in
  if (mint =? 0) || (supply =? 0) then INITIAL_COLLATERAL_RATE else mint * WAD * WAD / supply.

Lemma collateral_exchange_rate_Ok r rate :
  Reserve.collateral_exchange_rate r = Ok rate →
  rat (exchange_rate_rate rate) = exchange_rate_wads r ∧ 0 ≤ supply_wads (r_liquidity r).
Proof.
  unfold Reserve.collateral_exchange_rate, ReserveCollateral.exchange_rate, exchange_rate_wads.
  intros H. apply bind_Ok in H as (d & Hd & H). apply total_supply_Ok in Hd as (-> & ? & ?).
  unfold Decimal.eqb in H. cbn [dec Decimal.zero] in H.
  destruct ((_ =? 0) || (_ =? 0)); inv_fp; [done|].
  split; [|done]. by rewrite (Z.mul_comm WAD).
Qed.

Lemma liquidity_to_collateral_Ok rate n c :
  CollateralExchangeRate.liquidity_to_collateral rate n = Ok c ↔
  c = n * rat (exchange_rate_rate rate) / WAD ∧ c < 2 ^ 64 ∧
  WAD * n * rat (exchange_rate_rate rate) < 2 ^ 192.
Proof.
  unfold CollateralExchangeRate.liquidity_to_collateral,
    CollateralExchangeRate.decimal_liquidity_to_collateral.
  assert (E : WAD * n * rat (exchange_rate_rate rate) / WAD = n * rat (exchange_rate_rate rate)).
  { rewrite <- Z.mul_assoc, Z.mul_comm. by apply Z.div_mul. }
  rewrite bind_Ok. setoid_rewrite Decimal_mul_rate_Ok. setoid_rewrite Decimal_floor_Ok. fp_simpl.
  rewrite E. split.
  - intros (d & [-> ?] & -> & ?). cbn [dec] in *. done.
  - intros (-> & ? & ?). eexists; split; [split; [done|done]|]. done.
Qed.

Lemma collateral_to_liquidity_Ok rate c n :
  0 ≤ rat (exchange_rate_rate rate) →
  CollateralExchangeRate.collateral_to_liquidity rate c = Ok n →
  n = c * WAD / rat (exchange_rate_rate rate) ∧ n < 2 ^ 64 ∧ 0 < rat (exchange_rate_rate rate).
Proof.
  unfold CollateralExchangeRate.collateral_to_liquidity,
    CollateralExchangeRate.decimal_collateral_to_liquidity. intros H0 H. inv_fp.
  assert (E : WAD * c * WAD / rat (exchange_rate_rate rate) / WAD
              = c * WAD / rat (exchange_rate_rate rate)).
  { rewrite Z.div_div by (try done; lia). rewrite (Z.mul_comm WAD c). by apply Z.div_mul_cancel_r. }
  rewrite E in *. split; [done|]. split; [done|lia].
Qed.

(** A deposit: what is minted, and the reserve afterwards. *)
Lemma deposit_liquidity_Ok r n r' c :
  Reserve.deposit_liquidity r n = Ok (r', c) →
  c = n * exchange_rate_wads r / WAD ∧ 0 ≤ supply_wads (r_liquidity r) ∧
  rl_available_amount (r_liquidity r) + n < 2 ^ 64 ∧
  rc_mint_total_supply (r_collateral r) + c < 2 ^ 64 ∧
  r_liquidity r' =
    ReserveLiquidity.with_available (r_liquidity r) (rl_available_amount (r_liquidity r) + n) ∧
  r_collateral r' =
    ReserveCollateral.with_supply (r_collateral r) (rc_mint_total_supply (r_collateral r) + c) ∧
  r' = Reserve.with_collateral (Reserve.with_liquidity r (r_liquidity r')) (r_collateral r').
Proof.
  unfold Reserve.deposit_liquidity, ReserveCollateral.mint. intros H.
  apply bind_Ok in H as (rate & Hrate & H). apply collateral_exchange_rate_Ok in Hrate as [Er Hs].
  apply bind_Ok in H as (c' & Hc & H). apply liquidity_to_collateral_Ok in Hc as (Hc & ? & ?).
  apply bind_Ok in H as (l & Hl & H). apply deposit_Ok in Hl as [-> ?].
  rewrite Er in Hc. inv_run. simplify_eq. done.
Qed.

Lemma exchange_rate_wads_nonneg r :
  0 ≤ rc_mint_total_supply (r_collateral r) → 0 ≤ supply_wads (r_liquidity r) →
  0 ≤ exchange_rate_wads r.
Proof.
  intros. unfold exchange_rate_wads. destruct (_ || _) eqn:E; [done|].
  apply orb_false_iff in E as [E1 E2]. bool_to_prop. apply Z.div_pos; [|lia]. unfold WAD. lia.
Qed.

Lemma redeem_collateral_Ok r c r' n :
  0 ≤ rc_mint_total_supply (r_collateral r) →
  Reserve.redeem_collateral r c = Ok (r', n) →
  n = c * WAD / exchange_rate_wads r ∧ 0 < exchange_rate_wads r ∧
  0 ≤ supply_wads (r_liquidity r) ∧
  c ≤ rc_mint_total_supply (r_collateral r) ∧ n ≤ rl_available_amount (r_liquidity r) ∧
  r_liquidity r' =
    ReserveLiquidity.with_available (r_liquidity r) (rl_available_amount (r_liquidity r) - n) ∧
  r_collateral r' =
    ReserveCollateral.with_supply (r_collateral r) (rc_mint_total_supply (r_collateral r) - c) ∧
  r' = Reserve.with_collateral (Reserve.with_liquidity r (r_liquidity r')) (r_collateral r').
Proof.
  unfold Reserve.redeem_collateral, ReserveCollateral.burn. intros Hm H.
  apply bind_Ok in H as (rate & Hrate & H). apply collateral_exchange_rate_Ok in Hrate as [Er Hs].
  apply bind_Ok in H as (n' & Hn & H).
  apply collateral_to_liquidity_Ok in Hn as (Hn & ? & Hpos);
    [|rewrite Er; by apply exchange_rate_wads_nonneg].
  apply bind_Ok in H as (cl & Hcl & H). apply bind_Ok in H as (l & Hl & H).
  apply withdraw_Ok in Hl as [-> ?]. rewrite Er in *. inv_run. simplify_eq. done.
Qed.

(** The share of the supply that [c] newly minted tokens stand for never exceeds
    the deposit that paid for them. *)
Lemma minted_at_most_share r n :
  0 ≤ n → 0 < rc_mint_total_supply (r_collateral r) → 0 < supply_wads (r_liquidity r) →
  n * exchange_rate_wads r / WAD * supply_wads (r_liquidity r)
    ≤ WAD * n * rc_mint_total_supply (r_collateral r).
Proof.
  intros Hn Hm Hs. unfold exchange_rate_wads.
  rewrite (proj2 (Z.eqb_neq _ _)), (proj2 (Z.eqb_neq _ _)) by lia. cbn [orb].
  set (m := rc_mint_total_supply _) in *. set (s := supply_wads _) in *.
  pose proof (div_bounds (m * WAD * WAD) s Hs) as Hx. set (x := m * WAD * WAD / s) in *.
  pose proof (floor_wad (n * x)) as Hc. set (c := n * x / WAD) in *.
  assert (WAD * c * s ≤ n * (m * WAD * WAD)).
  { transitivity (n * x * s); [apply Z.mul_le_mono_nonneg_r; lia|].
    rewrite <- Z.mul_assoc. apply Z.mul_le_mono_nonneg_l; lia. }
  unfold WAD in *. nia.
Qed.

(** What a redemption pays exceeds the burnt share by at most the rounding of
    the exchange rate, one part in [exchange_rate_wads]. *)
Lemma redeemed_share_bound r c :
  0 ≤ c → 0 < rc_mint_total_supply (r_collateral r) → 0 < supply_wads (r_liquidity r) →
  0 < exchange_rate_wads r →
  WAD * (c * WAD / exchange_rate_wads r) * rc_mint_total_supply (r_collateral r)
      * exchange_rate_wads r
    ≤ c * supply_wads (r_liquidity r) * (exchange_rate_wads r + 1).
Proof.
  intros Hc Hm Hs. unfold exchange_rate_wads.
  rewrite (proj2 (Z.eqb_neq _ _)), (proj2 (Z.eqb_neq _ _)) by lia. cbn [orb].
  set (m := rc_mint_total_supply _) in *. set (s := supply_wads _) in *.
  pose proof (div_bounds (m * WAD * WAD) s Hs) as Hx. set (x := m * WAD * WAD / s) in *.
  intros Hpos. pose proof (div_bounds (c * WAD) x Hpos) as Hn. set (n := c * WAD / x) in *.
  assert (H1 : m * WAD * (x * n) ≤ m * WAD * (c * WAD)) by (apply Z.mul_le_mono_nonneg_l; unfold WAD in *; lia).
  assert (H2 : c * (m * WAD * WAD) ≤ c * (s * (x + 1))) by (apply Z.mul_le_mono_nonneg_l; lia).
  lia.
Qed.

(** ** The operations keep the invariant *)

Section ops_ok.
Implicit Types (l : ReserveLiquidity) (r : Reserve).

Ltac amounts_ok Hl :=
  apply with_amounts_ok; try apply Hl; try done; split; cbn [dec]; lia.

Lemma liquidity_deposit_ok l n l' :
  ReserveLiquidity_ok l → 0 ≤ n → ReserveLiquidity.deposit l n = Ok l' → ReserveLiquidity_ok l'.
Proof.
  intros Hl Hn H. apply deposit_Ok in H as [-> ?]. destruct (ok_rl_available l Hl). amounts_ok Hl.
Qed.

Lemma liquidity_withdraw_ok l n l' :
  ReserveLiquidity_ok l → 0 ≤ n → ReserveLiquidity.withdraw l n = Ok l' → ReserveLiquidity_ok l'.
Proof.
  intros Hl Hn H. apply withdraw_Ok in H as [-> ?]. destruct (ok_rl_available l Hl). amounts_ok Hl.
Qed.

Lemma liquidity_borrow_ok l d l' :
  ReserveLiquidity_ok l → 0 ≤ dec d → ReserveLiquidity.borrow l d = Ok l' → ReserveLiquidity_ok l'.
Proof.
  intros Hl Hd H. apply borrow_Ok in H as (? & ? & ? & ->).
  pose proof (Z.div_pos (dec d) WAD Hd eq_refl). destruct (ok_rl_available l Hl).
  destruct (ok_rl_borrowed l Hl). amounts_ok Hl.
Qed.

Lemma liquidity_repay_ok l n d l' :
  ReserveLiquidity_ok l → 0 ≤ n → 0 ≤ dec d →
  ReserveLiquidity.repay l n d = Ok l' → ReserveLiquidity_ok l'.
Proof.
  intros Hl Hn Hd H. apply repay_Ok in H as (? & ->). destruct (ok_rl_available l Hl).
  destruct (ok_rl_borrowed l Hl). amounts_ok Hl.
Qed.

Lemma liquidity_redeem_fees_ok l n l' :
  ReserveLiquidity_ok l → 0 ≤ n → ReserveLiquidity.redeem_fees l n = Ok l' → ReserveLiquidity_ok l'.
Proof.
  intros Hl Hn H. apply redeem_fees_Ok in H as (? & ? & ->). destruct (ok_rl_available l Hl).
  destruct (ok_rl_accumulated l Hl). unfold WAD in *. amounts_ok Hl.
Qed.

Lemma with_supply_ok c n : ReserveCollateral_ok c → is_u64 n → ReserveCollateral_ok (ReserveCollateral.with_supply c n).
Proof. intros [] ?. by constructor. Qed.

Lemma with_liquidity_ok r l : Reserve_ok r → ReserveLiquidity_ok l → Reserve_ok (Reserve.with_liquidity r l).
Proof. intros [] ?. by constructor. Qed.

Lemma with_collateral_ok r c : Reserve_ok r → ReserveCollateral_ok c → Reserve_ok (Reserve.with_collateral r c).
Proof. intros [] ?. by constructor. Qed.

Lemma with_config_ok r c : Reserve_ok r → ReserveConfig_ok c → Reserve_ok (Reserve.with_config r c).
Proof. intros [] ?. by constructor. Qed.

Lemma reserve_mark_stale_ok r : Reserve_ok r → Reserve_ok (Reserve.mark_stale r).
Proof. intros []. by constructor. Qed.

Lemma reserve_update_slot_ok r s : Reserve_ok r → is_u64 s → Reserve_ok (Reserve.update_slot r s).
Proof. intros [] ?. by constructor. Qed.

Lemma deposit_liquidity_ok r n r' c :
  Reserve_ok r → is_u64 n → Reserve.deposit_liquidity r n = Ok (r', c) →
  Reserve_ok r' ∧ is_u64 c ∧ r_config r' = r_config r.
Proof.
  intros Hr [Hn0 Hn1] H.
  destruct (deposit_liquidity_Ok r n r' c H) as (Hc & Hs & Ha & Hm & El & Ec & Er).
  destruct (ok_rl_available _ (ok_r_liquidity r Hr)) as [Ha0 _].
  destruct (ok_rc_mint_total_supply _ (ok_r_collateral r Hr)) as [Hm0 _].
  assert (Hc0 : 0 ≤ c).
  { subst c. apply Z.div_pos; [|done]. apply Z.mul_nonneg_nonneg; [done|].
    by apply exchange_rate_wads_nonneg. }
  split; [|split; [split; lia|by rewrite Er]]. rewrite Er, El, Ec.
  apply with_collateral_ok; [apply with_liquidity_ok; [done|]|].
  - pose proof (ok_r_liquidity r Hr) as Hl. amounts_ok Hl.
  - apply with_supply_ok; [apply Hr|split; lia].
Qed.

Lemma redeem_collateral_ok r c r' n :
  Reserve_ok r → is_u64 c → Reserve.redeem_collateral r c = Ok (r', n) →
  Reserve_ok r' ∧ is_u64 n ∧ r_config r' = r_config r.
Proof.
  intros Hr [Hc0 Hc1] H.
  destruct (ok_rl_available _ (ok_r_liquidity r Hr)) as [Ha0 Ha1].
  destruct (ok_rc_mint_total_supply _ (ok_r_collateral r Hr)) as [Hm0 Hm1].
  destruct (redeem_collateral_Ok r c r' n Hm0 H) as (Hn & Hpos & Hs & Hle & Hav & El & Ec & Er).
  assert (Hn0 : 0 ≤ n) by (subst n; apply Z.div_pos; [unfold WAD|]; lia).
  split; [|split; [split; lia|by rewrite Er]]. rewrite Er, El, Ec.
  apply with_collateral_ok; [apply with_liquidity_ok; [done|]|].
  - pose proof (ok_r_liquidity r Hr) as Hl. amounts_ok Hl.
  - apply with_supply_ok; [apply Hr|split; lia].
Qed.

End ops_ok.

(** ** A concrete reserve

    The witnesses evaluate the definitions on this reserve: 6 decimals, one
    thousand tokens available, five hundred lent out, priced at 1. *)

Definition sample_config : ReserveConfig :=
  mkReserveConfig 80 50 5 55 0 4 30 (mkReserveFees 10000000000000000 3000000000000000 20)
    u64_MAX u64_MAX 77 10 20.

Definition sample_liquidity : ReserveLiquidity :=
  mkReserveLiquidity 11 6 12 13 14 1000000000
    (Decimal.from_u64 500000000) Decimal.one (Decimal.from_u64 1000000) Decimal.one.

Definition sample_reserve : Reserve :=
  mkReserve 1 (mkLastUpdate 100 false) 9 sample_liquidity
    (mkReserveCollateral 15 1400000000 16) sample_config.

(** Decide ranges and finish by computation. *)
Ltac decide_ok :=
  match goal with
  | |- Decimal_ok _ => split; vm_compute; congruence
  | |- Rate_ok _ => split; vm_compute; congruence
  | |- LastUpdate_ok _ => split; vm_compute; congruence
  | |- in_width _ _ => split; vm_compute; congruence
  | |- _ ∧ _ => split; vm_compute; congruence
  | |- _ = _ => vm_compute; reflexivity
  | |- _ ≤ _ => vm_compute; congruence
  | |- _ < _ => vm_compute; reflexivity
  end.

Lemma sample_reserve_ok : Reserve_ok sample_reserve.
Proof. repeat (constructor; try decide_ok). Qed.

(** ** Properties *)

(** The reserve's books balance.  Depositing adds exactly what came in,
    withdrawing and redeeming fees take exactly what went out, a borrow moves
    debt and tokens without lowering the supply, and a repayment that covers
    what it settles never lowers the supply; the field ranges are kept. *)
Theorem liquidity_conservation (l l' : ReserveLiquidity) (n : Z) (d : Decimal)
    (Hl : ReserveLiquidity_ok l) (Hn : is_u64 n) (Hd : Decimal_ok d) :
  (ReserveLiquidity.deposit l n = Ok l' →
     ReserveLiquidity_ok l' ∧ rl_available_amount l' = rl_available_amount l + n ∧
     supply_wads l' = supply_wads l + WAD * n) ∧
  (ReserveLiquidity.withdraw l n = Ok l' →
     ReserveLiquidity_ok l' ∧ rl_available_amount l' = rl_available_amount l - n ∧
     supply_wads l' = supply_wads l - WAD * n) ∧
  (ReserveLiquidity.borrow l d = Ok l' →
     ReserveLiquidity_ok l' ∧ rl_available_amount l' = rl_available_amount l - dec d / WAD ∧
     supply_wads l ≤ supply_wads l' < supply_wads l + WAD) ∧
  (ReserveLiquidity.repay l n d = Ok l' →
     ReserveLiquidity_ok l' ∧ rl_available_amount l' = rl_available_amount l + n ∧
     (dec d ≤ WAD * n → supply_wads l ≤ supply_wads l')) ∧
  (ReserveLiquidity.redeem_fees l n = Ok l' →
     ReserveLiquidity_ok l' ∧ rl_available_amount l' = rl_available_amount l - n ∧
     supply_wads l' = supply_wads l).
Proof.
  destruct Hn as [Hn _]. destruct Hd as [Hd _]. pose proof (floor_wad (dec d)) as Hfl.
  split; [|split; [|split; [|split]]]; intros H.
  - split; [by apply (liquidity_deposit_ok l n)|]. apply deposit_Ok in H as [-> ?].
    unfold supply_wads; cbn; lia.
  - split; [by apply (liquidity_withdraw_ok l n)|]. apply withdraw_Ok in H as [-> ?].
    unfold supply_wads; cbn; lia.
  - split; [by apply (liquidity_borrow_ok l d)|]. apply borrow_Ok in H as (? & ? & ? & ->).
    unfold supply_wads; cbn; lia.
  - split; [by apply (liquidity_repay_ok l n d)|]. apply repay_Ok in H as (? & ->).
    unfold supply_wads; cbn; lia.
  - split; [by apply (liquidity_redeem_fees_ok l n)|]. apply redeem_fees_Ok in H as (? & ? & ->).
    unfold supply_wads; cbn; lia.
Qed.

Lemma liquidity_conservation_witness :
  ∃ l', ReserveLiquidity.borrow sample_liquidity (Decimal.from_percent 250) = Ok l' ∧
    supply_wads sample_liquidity ≤ supply_wads l'.
Proof.
  destruct (ReserveLiquidity.borrow sample_liquidity (Decimal.from_percent 250)) as [l'| |] eqn:E;
    [|discriminate E..].
  exists l'. split; [reflexivity|].
  destruct (liquidity_conservation sample_liquidity l' 0 (Decimal.from_percent 250))
    as (_ & _ & Hb & _).
  - apply (ok_r_liquidity _ sample_reserve_ok).
  - decide_ok.
  - decide_ok.
  - apply (Hb E).
Defined.

(** Accruing interest only grows debts.  It changes nothing but the debt,
    the cumulative rate and the protocol's fees; neither of them falls, the fees
    take no more than the new debt, so the depositors' supply does not fall
    either, and accruing twice in one slot does nothing. *)
Theorem accrue_interest_monotone (r r' : Reserve) (slot : Z)
    (Hr : Reserve_ok r) (Hs : is_u64 slot)
    (Hv : validate_reserve_config (r_config r) = Ok tt)
    (H : Reserve.accrue_interest r slot = Ok r') :
  Reserve_ok r' ∧ r' = Reserve.with_liquidity r (r_liquidity r') ∧
  same_but_debt (r_liquidity r) (r_liquidity r') ∧
  dec (rl_borrowed_amount_wads (r_liquidity r)) ≤ dec (rl_borrowed_amount_wads (r_liquidity r')) ∧
  dec (rl_cumulative_borrow_rate_wads (r_liquidity r))
    ≤ dec (rl_cumulative_borrow_rate_wads (r_liquidity r')) ∧
  dec (rl_accumulated_protocol_fees_wads (r_liquidity r))
    ≤ dec (rl_accumulated_protocol_fees_wads (r_liquidity r')) ∧
  supply_wads (r_liquidity r) ≤ supply_wads (r_liquidity r') ∧
  (StateBase.slot (r_last_update r) = slot → r' = r).
Proof.
  destruct (accrue_interest_grows r slot r' Hr Hs Hv H) as (? & ? & Hsame & ? & ? & ? & ?).
  assert (Ha : rl_available_amount (r_liquidity r') = rl_available_amount (r_liquidity r))
    by (rewrite Hsame; done).
  unfold supply_wads. rewrite Ha. repeat (split; [done || lia|]). done.
Qed.

Lemma accrue_interest_monotone_witness :
  ∃ r', Reserve.accrue_interest sample_reserve 1000 = Ok r' ∧
    supply_wads (r_liquidity sample_reserve) ≤ supply_wads (r_liquidity r').
Proof.
  destruct (Reserve.accrue_interest sample_reserve 1000) as [r'| |] eqn:E;
    [|vm_compute in E; discriminate E..].
  exists r'. split; [reflexivity|].
  apply (accrue_interest_monotone sample_reserve r' 1000).
  - exact sample_reserve_ok.
  - decide_ok.
  - reflexivity.
  - exact E.
Defined.

(** For a validated configuration whose protocol fees are covered by the
    available liquidity, the borrow rate lies between the configured minimum and
    maximum; the maxima from 247 percent encode rates of up to 2500 percent. *)
Theorem borrow_rate_bounds (r : Reserve) (rate : Rate)
    (Hr : Reserve_ok r) (Hv : validate_reserve_config (r_config r) = Ok tt)
    (Hf : dec (rl_accumulated_protocol_fees_wads (r_liquidity r))
          ≤ WAD * rl_available_amount (r_liquidity r))
    (H : Reserve.current_borrow_rate r = Ok rate) :
  let c := r_config r in
  min_borrow_rate c * PERCENT_SCALER ≤ rat rate ≤
    (if max_borrow_rate c <? 247 then max_borrow_rate c * PERCENT_SCALER else 25 * WAD).
Proof.
  apply current_borrow_rate_Ok in H as [-> Hs].
  destruct (ok_rl_borrowed _ (ok_r_liquidity r Hr)) as [Hb _].
  apply borrow_curve_bounds; [apply Hr|done|]. split.
  - by apply utilization_wads_nonneg.
  - by apply utilization_wads_le_one.
Qed.

Lemma borrow_rate_bounds_witness :
  Reserve.current_borrow_rate sample_reserve = Ok (mkRate 16677785190126751) ∧
  0 ≤ 16677785190126751 ≤ 30 * PERCENT_SCALER.
Proof.
  split; [reflexivity|].
  apply (borrow_rate_bounds sample_reserve (mkRate 16677785190126751));
    [exact sample_reserve_ok | reflexivity | vm_compute; congruence | reflexivity].
Defined.

(** Under one validated configuration, a reserve that is used more charges
    no less. *)
Theorem borrow_rate_monotone (r1 r2 : Reserve) (u1 u2 rate1 rate2 : Rate)
    (Hr : Reserve_ok r1) (Hv : validate_reserve_config (r_config r1) = Ok tt)
    (Hc : r_config r1 = r_config r2)
    (Hu1 : ReserveLiquidity.utilization_rate (r_liquidity r1) = Ok u1)
    (Hu2 : ReserveLiquidity.utilization_rate (r_liquidity r2) = Ok u2)
    (Hu : rat u1 ≤ rat u2 ≤ WAD)
    (H1 : Reserve.current_borrow_rate r1 = Ok rate1)
    (H2 : Reserve.current_borrow_rate r2 = Ok rate2) :
  rat rate1 ≤ rat rate2.
Proof.
  apply utilization_rate_Ok in Hu1 as [E1 Hs1]. apply utilization_rate_Ok in Hu2 as [E2 _].
  apply current_borrow_rate_Ok in H1 as [-> _]. apply current_borrow_rate_Ok in H2 as [-> _].
  rewrite <- Hc. rewrite E1, E2 in Hu.
  destruct (ok_rl_borrowed _ (ok_r_liquidity r1 Hr)) as [Hb _].
  apply borrow_curve_mono; [apply Hr|done| |lia].
  split; [by apply utilization_wads_nonneg|lia].
Qed.

(** The sample reserve with nine times its debt. *)
Definition busy_reserve : Reserve :=
  Reserve.with_liquidity sample_reserve
    (ReserveLiquidity.with_available_borrowed sample_liquidity 1000000000
       (Decimal.from_u64 4500000000)).

Lemma borrow_rate_monotone_witness :
  ∃ rate2, Reserve.current_borrow_rate busy_reserve = Ok rate2 ∧ 16677785190126751 ≤ rat rate2.
Proof.
  destruct (Reserve.current_borrow_rate busy_reserve) as [rate2| |] eqn:E;
    [|vm_compute in E; discriminate E..].
  destruct (ReserveLiquidity.utilization_rate (r_liquidity busy_reserve)) as [u2| |] eqn:Eu;
    [|vm_compute in Eu; discriminate Eu..].
  exists rate2. split; [reflexivity|].
  apply (borrow_rate_monotone sample_reserve busy_reserve (mkRate 333555703802535023) u2
           (mkRate 16677785190126751) rate2).
  - exact sample_reserve_ok.
  - reflexivity.
  - reflexivity.
  - reflexivity.
  - exact Eu.
  - vm_compute in Eu. injection Eu as <-. split; vm_compute; congruence.
  - reflexivity.
  - exact E.
Defined.

(** Lent out completely, with two tokens of unredeemed protocol fees: the debt
    exceeds the depositors' supply. *)
Definition drained_reserve : Reserve :=
  Reserve.with_liquidity sample_reserve
    (ReserveLiquidity.with_amounts sample_liquidity 0 (Decimal.from_u64 10000000) Decimal.one
       (Decimal.from_u64 2000000) Decimal.one).

(** When unredeemed protocol fees exceed the available liquidity, the
    utilization exceeds one and the borrow rate exceeds the configured maximum:
    here the maximum is 30 percent and the rate 62.5 percent. *)
Theorem borrow_rate_above_max :
  Reserve_ok drained_reserve ∧ validate_reserve_config (r_config drained_reserve) = Ok tt ∧
  max_borrow_rate (r_config drained_reserve) = 30 ∧
  ReserveLiquidity.utilization_rate (r_liquidity drained_reserve)
    = Ok (mkRate (WAD + WAD / 4)) ∧
  Reserve.current_borrow_rate drained_reserve = Ok (mkRate 625000000000000000).
Proof.
  split; [|repeat split; vm_compute; reflexivity].
  repeat (constructor; try decide_ok).
Qed.

(** A deposit mints collateral at the current rate, rounded down: the new
    tokens' share of the supply never exceeds what was paid for them, an empty
    reserve mints one for one, and the books grow by exactly the two amounts. *)
Theorem deposit_mints_at_most_share (r r' : Reserve) (n c : Z)
    (Hr : Reserve_ok r) (Hn : is_u64 n)
    (H : Reserve.deposit_liquidity r n = Ok (r', c)) :
  Reserve_ok r' ∧ is_u64 c ∧
  rl_available_amount (r_liquidity r') = rl_available_amount (r_liquidity r) + n ∧
  supply_wads (r_liquidity r') = supply_wads (r_liquidity r) + WAD * n ∧
  rc_mint_total_supply (r_collateral r') = rc_mint_total_supply (r_collateral r) + c ∧
  (rc_mint_total_supply (r_collateral r) = 0 ∨ supply_wads (r_liquidity r) = 0 → c = n) ∧
  (0 < rc_mint_total_supply (r_collateral r) → 0 < supply_wads (r_liquidity r) →
     c * supply_wads (r_liquidity r) ≤ WAD * n * rc_mint_total_supply (r_collateral r)).
Proof.
  destruct (deposit_liquidity_ok r n r' c Hr Hn H) as (Hr' & Hcw & _).
  destruct (deposit_liquidity_Ok r n r' c H) as (Hc & Hs & Ha & Hm & El & Ec & Er).
  split; [done|]. split; [done|]. rewrite El, Ec. unfold supply_wads at 1. cbn. split; [done|].
  split; [unfold supply_wads; lia|]. split; [done|]. split.
  - intros Hz. rewrite Hc. unfold exchange_rate_wads.
    replace (_ || _) with true; [by apply Z.div_mul|].
    symmetry. apply orb_true_iff. rewrite !Z.eqb_eq. done.
  - intros. rewrite Hc. apply minted_at_most_share; [apply Hn|done..].
Qed.

Lemma deposit_mints_at_most_share_witness :
  ∃ r', Reserve.deposit_liquidity sample_reserve 300 = Ok (r', 280) ∧
    280 * supply_wads sample_liquidity ≤ WAD * 300 * 1400000000.
Proof.
  destruct (Reserve.deposit_liquidity sample_reserve 300) as [[r' c]| |] eqn:E;
    [|vm_compute in E; discriminate E..].
  assert (c = 280) as -> by (vm_compute in E; congruence).
  exists r'. split; [reflexivity|].
  apply (deposit_mints_at_most_share sample_reserve r' 300 280).
  - exact sample_reserve_ok.
  - decide_ok.
  - exact E.
  - reflexivity.
  - reflexivity.
Defined.

(** A redemption burns what it was asked to burn and pays the exchange rate's
    worth, rounded down; the payment exceeds the burnt share of the supply by at
    most the rounding of the rate itself, and never what is available. *)
Theorem redeem_pays_share (r r' : Reserve) (c n : Z)
    (Hr : Reserve_ok r) (Hc : is_u64 c)
    (H : Reserve.redeem_collateral r c = Ok (r', n)) :
  Reserve_ok r' ∧ is_u64 n ∧
  rl_available_amount (r_liquidity r') = rl_available_amount (r_liquidity r) - n ∧
  supply_wads (r_liquidity r') = supply_wads (r_liquidity r) - WAD * n ∧
  rc_mint_total_supply (r_collateral r') = rc_mint_total_supply (r_collateral r) - c ∧
  n * exchange_rate_wads r ≤ c * WAD < (n + 1) * exchange_rate_wads r ∧
  (0 < rc_mint_total_supply (r_collateral r) → 0 < supply_wads (r_liquidity r) →
     WAD * n * rc_mint_total_supply (r_collateral r) * exchange_rate_wads r
       ≤ c * supply_wads (r_liquidity r) * (exchange_rate_wads r + 1)).
Proof.
  destruct (redeem_collateral_ok r c r' n Hr Hc H) as (Hr' & Hnw & _).
  pose proof (ok_rc_mint_total_supply _ (ok_r_collateral r Hr)) as [Hm0 _].
  destruct (redeem_collateral_Ok r c r' n Hm0 H) as (Hn & Hpos & Hs & Hle & Hav & El & Ec & Er).
  split; [done|]. split; [done|]. rewrite El, Ec. unfold supply_wads at 1. cbn. split; [done|].
  split; [unfold supply_wads; lia|]. split; [done|]. split.
  - pose proof (div_bounds (c * WAD) _ Hpos). rewrite <- Hn in *. lia.
  - intros. rewrite Hn. apply redeemed_share_bound; [apply Hc|done..].
Qed.

Lemma redeem_pays_share_witness :
  ∃ r', Reserve.redeem_collateral sample_reserve 280 = Ok (r', 299) ∧
    299 * exchange_rate_wads sample_reserve ≤ 280 * WAD.
Proof.
  destruct (Reserve.redeem_collateral sample_reserve 280) as [[r' n]| |] eqn:E;
    [|vm_compute in E; discriminate E..].
  assert (n = 299) as -> by (vm_compute in E; congruence).
  exists r'. split; [reflexivity|].
  destruct (redeem_pays_share sample_reserve r' 280 299 sample_reserve_ok)
    as (_ & _ & _ & _ & _ & [Hle _] & _).
  - decide_ok.
  - exact E.
  - exact Hle.
Defined.
