(* ===== verification/LoanFacts.v ===== *)
(** * Facts about loans

    The fees of a loan, the amounts of a borrow and of a repayment, and the
    protocol's cuts, as [Reserve] computes them. *)

From S2P Require Import Prelude Errors FixedPoint StateBase Reserve ReserveFacts.

(** ** Fees *)

(** The fee rate that applies to the amount, in wads. *)
Definition fee_rate_wads (kind : FeeCalculation) (fee_wad : Z) : Z :=
  match kind with
  | Exclusive => fee_wad
  | Inclusive => fee_wad * WAD / (fee_wad + WAD)
  end.

(** One token for the owner and one for the host, if there is a host. *)
Definition minimum_fee (f : ReserveFees) : Z := if 0 <? host_fee_percentage f then 2 else 1.

(** The fee before it is rounded. *)
Definition fee_amount_wads (f : ReserveFees) (amount : Decimal) (fee_wad : Z)
    (kind : FeeCalculation) : Z :=
  Z.max (dec amount * fee_rate_wads kind fee_wad / WAD) (WAD * minimum_fee f).

Lemma Decimal_max_dec a b : dec (Decimal.max a b) = Z.max (dec a) (dec b).
Proof. unfold Decimal.max, Decimal.leb. destruct (Z.leb_spec (dec a) (dec b)); lia. Qed.

Lemma Decimal_min_dec a b : dec (Decimal.min a b) = Z.min (dec a) (dec b).
Proof. unfold Decimal.min, Decimal.leb. destruct (Z.leb_spec (dec a) (dec b)); lia. Qed.

Lemma host_rate_positive f :
  Rate.ltb Rate.zero (Rate.from_percent (host_fee_percentage f)) = (0 <? host_fee_percentage f).
Proof.
  unfold Rate.ltb. cbn [rat Rate.zero Rate.from_percent]. unfold PERCENT_SCALER.
  destruct (Z.ltb_spec 0 (host_fee_percentage f)), (Z.ltb_spec 0 (host_fee_percentage f * 10000000000000000)); lia.
Qed.

Lemma calculate_fees_zero f amount w kind :
  w ≤ 0 ∨ dec amount ≤ 0 → ReserveFees.calculate_fees f amount w kind = Ok (0, 0).
Proof.
  intros H. unfold ReserveFees.calculate_fees, Rate.ltb, Decimal.ltb. fp_simpl.
  destruct (Z.ltb_spec 0 w), (Z.ltb_spec 0 (dec amount)); try done. lia.
Qed.

(** The raw fee computation of the two kinds. *)
Lemma fee_amount_Ok kind amount w d :
  (match kind with
   | Exclusive => try_mul amount (Rate.from_scaled_val w)
   | Inclusive =>
       one_plus ← try_add (Rate.from_scaled_val w) Rate.one;
       borrow_fee_rate ← try_div (Rate.from_scaled_val w) one_plus;
       try_mul amount borrow_fee_rate
   end) = Ok d →
  d = mkDecimal (dec amount * fee_rate_wads kind w / WAD).
Proof. destruct kind; intros H; inv_fp; done. Qed.

(** The fees of an amount that is charged. *)
Lemma calculate_fees_Ok f amount w kind b h :
  0 < w → 0 < dec amount →
  ReserveFees.calculate_fees f amount w kind = Ok (b, h) →
  let fee := fee_amount_wads f amount w kind in
  fee < dec amount ∧ b = (HALF_WAD + fee) / WAD ∧
  h = (if 0 <? host_fee_percentage f
       then Z.max ((HALF_WAD + fee * (host_fee_percentage f * PERCENT_SCALER) / WAD) / WAD) 1
       else 0).
Proof.
  intros Hw Ha H. unfold ReserveFees.calculate_fees in H. rewrite host_rate_positive in H.
  assert (E : Rate.ltb Rate.zero (Rate.from_scaled_val w) && Decimal.ltb Decimal.zero amount = true).
  { unfold Rate.ltb, Decimal.ltb. fp_simpl. apply andb_true_iff. rewrite !Z.ltb_lt. done. }
  rewrite E in H. cbv zeta in H. apply bind_Ok in H as (d & Hd & H).
  apply fee_amount_Ok in Hd as ->. unfold Decimal.leb in H. rewrite Decimal_max_dec in H.
  cbn [dec] in H. fold (minimum_fee f) in H.
  change (dec (Decimal.from_u64 (minimum_fee f))) with (WAD * minimum_fee f) in H.
  unfold fee_amount_wads. set (fee := Z.max _ _) in *.
  destruct (Z.leb_spec (dec amount) fee) as [|Hlt]; [done|].
  apply bind_Ok in H as (b' & Hb & H). apply Decimal_round_Ok in Hb as (Hb & _).
  rewrite Decimal_max_dec in Hb. cbn [dec] in Hb.
  change (dec (Decimal.from_u64 (minimum_fee f))) with (WAD * minimum_fee f) in Hb.
  apply bind_Ok in H as (h' & Hh & [= <- <-]). split; [done|]. split; [done|].
  destruct (0 <? host_fee_percentage f); [|by injection Hh].
  apply bind_Ok in Hh as (s & Hs & Hh). apply Decimal_mul_rate_Ok in Hs as [-> _].
  apply bind_Ok in Hh as (r & Hr & [= <-]). apply Decimal_round_Ok in Hr as (-> & _).
  rewrite Decimal_max_dec. done.
Qed.

(** An amount that the fee would use up is refused. *)
Lemma calculate_fees_too_small f amount w kind :
  ReserveFees_ok f → 0 < w → 0 < dec amount →
  dec amount * Z.max w WAD < 2 ^ 192 → w < 2 ^ 64 →
  dec amount ≤ fee_amount_wads f amount w kind →
  ReserveFees.calculate_fees f amount w kind = fail BorrowTooSmall.
Proof.
  intros Hf Hw Ha Hfit Hw64 Hle. unfold ReserveFees.calculate_fees. rewrite host_rate_positive.
  assert (E : Rate.ltb Rate.zero (Rate.from_scaled_val w) && Decimal.ltb Decimal.zero amount = true).
  { unfold Rate.ltb, Decimal.ltb. fp_simpl. apply andb_true_iff. rewrite !Z.ltb_lt. done. }
  rewrite E. cbv zeta. fold (minimum_fee f).
  assert (Ed : (match kind with
     | Exclusive => try_mul amount (Rate.from_scaled_val w)
     | Inclusive =>
         one_plus ← try_add (Rate.from_scaled_val w) Rate.one;
         borrow_fee_rate ← try_div (Rate.from_scaled_val w) one_plus;
         try_mul amount borrow_fee_rate
     end) = Ok (mkDecimal (dec amount * fee_rate_wads kind w / WAD))).
  { destruct kind; cbn [fee_rate_wads].
    - apply Decimal_mul_rate_Ok. fp_simpl. split; [done|]. nia.
    - apply bind_Ok. eexists. rewrite Rate_add_Ok. fp_simpl.
      split; [split; [done|unfold WAD; lia]|]. apply bind_Ok. eexists. rewrite Rate_div_Ok.
      fp_simpl. split; [split; [done|unfold WAD; lia]|]. apply Decimal_mul_rate_Ok. fp_simpl.
      split; [done|]. assert (w * WAD / (w + WAD) ≤ Z.max w WAD); [|nia].
      apply div_le_upper; unfold WAD; nia. }
  rewrite Ed. cbn [mbind result_bind]. unfold Decimal.leb. rewrite Decimal_max_dec. cbn [dec].
  change (dec (Decimal.from_u64 (minimum_fee f))) with (WAD * minimum_fee f).
  fold (fee_amount_wads f amount w kind). by rewrite (proj2 (Z.leb_le _ _)).
Qed.

Lemma round_wad_mono a b : a ≤ b → (HALF_WAD + a) / WAD ≤ (HALF_WAD + b) / WAD.
Proof. intros. apply Z.div_le_mono; [done|lia]. Qed.

Lemma round_wad_mult n : (HALF_WAD + WAD * n) / WAD = n.
Proof. rewrite (Z.mul_comm WAD), Z.div_add, Z.div_small; [lia|done|done]. Qed.

(** The host's part is within the fee, and both get at least their token. *)
Lemma fee_split_bounds f amount w kind b h :
  0 ≤ host_fee_percentage f ≤ 100 → 0 < w → 0 < dec amount →
  ReserveFees.calculate_fees f amount w kind = Ok (b, h) →
  minimum_fee f ≤ b ∧ 0 ≤ h ≤ b ∧ (0 < host_fee_percentage f → 1 ≤ h ∧ 2 ≤ b) ∧
  b ≤ (HALF_WAD + dec amount) / WAD.
Proof.
  intros Hh Hw Ha H. destruct (calculate_fees_Ok f amount w kind b h Hw Ha H) as (Hlt & Hb & Hhost).
  assert (Hmin : WAD * minimum_fee f ≤ fee_amount_wads f amount w kind) by apply Z.le_max_r.
  set (fee := fee_amount_wads f amount w kind) in *.
  assert (Hmb : minimum_fee f ≤ b).
  { subst b. rewrite <- (round_wad_mult (minimum_fee f)). by apply round_wad_mono. }
  assert (Hle : b ≤ (HALF_WAD + dec amount) / WAD) by (subst b; apply round_wad_mono; lia).
  split; [done|]. revert Hmin Hmb Hhost. unfold minimum_fee.
  destruct (Z.ltb_spec 0 (host_fee_percentage f)) as [Hpos|Hpos]; intros Hmin Hmb ->.
  - assert ((HALF_WAD + fee * (host_fee_percentage f * PERCENT_SCALER) / WAD) / WAD ≤ b).
    { subst b. apply round_wad_mono. apply div_le_upper; [done|].
      unfold PERCENT_SCALER, WAD in *. nia. }
    lia.
  - lia.
Qed.

(** ** Borrowing *)

Lemma mul_div_le a b c : 0 < c → a * b / c * c ≤ a * b.
Proof. intros Hc. pose proof (div_bounds (a * b) c Hc). lia. Qed.

(** What a computed borrow satisfies: its value stays within the allowance, and
    its whole part is what the borrower receives plus the fee. *)
Lemma calculate_borrow_Ok r amount max_value remaining res :
  0 ≤ amount → 0 ≤ rl_mint_decimals (r_liquidity r) →
  0 ≤ dec max_value → 0 ≤ dec (rl_market_price (r_liquidity r)) →
  Reserve.calculate_borrow r amount max_value remaining = Ok res →
  let price := dec (rl_market_price (r_liquidity r)) in
  let decimals := 10 ^ rl_mint_decimals (r_liquidity r) in
  let borrowed := dec (cb_borrow_amount res) in
  borrowed * price / WAD / decimals ≤ dec max_value ∧
  borrowed / WAD = cb_receive_amount res + cb_borrow_fee res ∧
  (amount = u64_MAX →
     borrowed ≤ dec remaining ∧ borrowed ≤ WAD * rl_available_amount (r_liquidity r) ∧
     0 ≤ cb_receive_amount res ∧
     ReserveFees.calculate_borrow_fees (fees (r_config r)) (cb_borrow_amount res) Inclusive
       = Ok (cb_borrow_fee res, cb_host_fee res)) ∧
  (amount ≠ u64_MAX →
     cb_receive_amount res = amount ∧ borrowed = WAD * (amount + cb_borrow_fee res) ∧
     ReserveFees.calculate_borrow_fees (fees (r_config r)) (Decimal.from_u64 amount) Exclusive
       = Ok (cb_borrow_fee res, cb_host_fee res)).
Proof.
  intros Ha Hd Hm Hp H. cbv zeta. unfold Reserve.calculate_borrow in H.
  apply bind_Ok in H as (ten & Hten & H). inv_run.
  assert (Hpos : 0 < 10 ^ rl_mint_decimals (r_liquidity r)) by (apply Z.pow_pos_nonneg; lia).
  destruct (Z.eqb_spec amount u64_MAX) as [Emax|Emax].
  - apply bind_Ok in H as (sv & Hsv & H). apply bind_Ok in H as (q & Hq & H).
    apply bind_Ok in H as ([b h] & Hfee & H). apply bind_Ok in H as (fl & Hfl & H).
    apply bind_Ok in H as (rc & Hrc & [= <-]). cbn [cb_borrow_amount cb_receive_amount cb_borrow_fee cb_host_fee] in *.
    inv_fp. rewrite !Decimal_min_dec in *. cbn [dec] in *.
    set (q := dec max_value * _ * WAD / _) in *.
    assert (Hq : q * dec (rl_market_price (r_liquidity r)) ≤
      dec max_value * 10 ^ rl_mint_decimals (r_liquidity r) * WAD) by (apply mul_div_le; lia).
    set (x := Z.min _ _) in *. assert (Hx : x ≤ q) by lia.
    split; [|split; [lia|split; [intros _|done]]].
    + apply div_le_upper; [done|]. apply div_le_upper; [done|].
      nia.
    + split; [unfold x; lia|]. split; [apply Z.le_min_r|]. split; [|exact Hfee].
      change (0 ≤ x / WAD - b). lia.
  - apply bind_Ok in H as ([b h] & Hfee & H). apply bind_Ok in H as (ba & Hba & H).
    apply bind_Ok in H as (sv & Hsv & H). apply bind_Ok in H as (bv & Hbv & H).
    unfold Decimal.ltb in H. destruct (Z.ltb_spec (dec max_value) (dec bv)) as [|Hle]; [done|].
    injection H as <-. cbn [cb_borrow_amount cb_receive_amount cb_borrow_fee cb_host_fee] in *.
    inv_fp. split; [exact Hle|]. split; [|split; [done|]].
    + rewrite <- Z.mul_add_distr_l, (Z.mul_comm WAD). by apply Z.div_mul.
    + intros _. split; [done|]. split; [lia|done].
Qed.

(** ** Repaying *)

Lemma calculate_fees_nonneg f amount w kind b h :
  ReserveFees.calculate_fees f amount w kind = Ok (b, h) → 0 ≤ b.
Proof.
  intros H. destruct (decide (0 < w ∧ 0 < dec amount)) as [[Hw Ha]|Hz].
  - destruct (calculate_fees_Ok f amount w kind b h Hw Ha H) as (_ & -> & _).
    assert (WAD * minimum_fee f ≤ fee_amount_wads f amount w kind) by apply Z.le_max_r.
    apply Z.div_pos; [|done]. unfold minimum_fee, HALF_WAD, WAD in *. case_match; lia.
  - rewrite calculate_fees_zero in H by lia. by injection H as <- _.
Qed.

(** The host's part is within the fee, also when there is no fee. *)
Lemma calculate_fees_split f amount w kind b h :
  ReserveFees_ok f → host_fee_percentage f ≤ 100 →
  ReserveFees.calculate_fees f amount w kind = Ok (b, h) → 0 ≤ h ≤ b.
Proof.
  intros Hf Hh E. destruct (decide (0 < w ∧ 0 < dec amount)) as [[? ?]|Hz].
  - destruct (ok_host_fee_percentage f Hf) as [Hh0 _].
    apply (fee_split_bounds _ _ _ _ _ _ (conj Hh0 Hh)) in E; [lia|done..].
  - rewrite calculate_fees_zero in E by lia. injection E as <- <-. done.
Qed.

Lemma calculate_borrow_split r amount max_value remaining res :
  Reserve_ok r → is_u64 amount → 0 ≤ dec max_value →
  host_fee_percentage (fees (r_config r)) ≤ 100 →
  Reserve.calculate_borrow r amount max_value remaining = Ok res →
  0 ≤ cb_host_fee res ≤ cb_borrow_fee res.
Proof.
  intros Hr Ha Hm Hh H. destruct (ok_r_liquidity r Hr) as [_ Hd _ _ _ _ _ _ _ Hp].
  destruct (calculate_borrow_Ok r amount max_value remaining res) as (_ & _ & Hmax & Hother);
    [apply Ha|apply Hd|done|apply Hp|done|].
  pose proof (ok_fees _ (ok_r_config r Hr)) as Hf.
  destruct (decide (amount = u64_MAX)) as [E|E];
    [apply Hmax in E as (_ & _ & _ & E)|apply Hother in E as (_ & _ & E)];
    by apply calculate_fees_split in E.
Qed.

(** A computed borrow is not negative. *)
Lemma calculate_borrow_nonneg r amount max_value remaining res :
  Reserve_ok r → is_u64 amount → 0 ≤ dec max_value → 0 ≤ dec remaining →
  Reserve.calculate_borrow r amount max_value remaining = Ok res →
  0 ≤ dec (cb_borrow_amount res).
Proof.
  intros Hr [Ha _] Hm Hrem H. unfold Reserve.calculate_borrow in H.
  pose proof (ok_r_liquidity r Hr) as Hl.
  apply bind_Ok in H as (ten & Hten & H). inv_run.
  assert (0 ≤ 10 ^ rl_mint_decimals (r_liquidity r)) by (by apply Z.pow_nonneg).
  destruct (amount =? u64_MAX).
  - apply bind_Ok in H as (sv & Hsv & H). apply bind_Ok in H as (q & Hq & H).
    apply bind_Ok in H as ([b h] & _ & H). inv_run. cbn [cb_borrow_amount].
    apply Decimal_mul_u64_Ok in Hsv as [-> _]. apply Decimal_div_Ok in Hq as (-> & ? & _).
    destruct (ok_rl_market_price _ Hl). destruct (ok_rl_available _ Hl).
    rewrite !Decimal_min_dec. cbn [dec Decimal.from_u64]. change Decimal.wad with WAD.
    assert (0 ≤ dec max_value * 10 ^ rl_mint_decimals (r_liquidity r) * WAD
              / dec (rl_market_price (r_liquidity r))).
    { apply Z.div_pos; [|lia]. unfold WAD. nia. }
    unfold WAD in *. lia.
  - apply bind_Ok in H as ([b h] & Hb & H). apply calculate_fees_nonneg in Hb.
    apply bind_Ok in H as (s & Hs & H). apply Decimal_add_Ok in Hs as [-> _].
    apply bind_Ok in H as (v & _ & H). apply bind_Ok in H as (d & _ & H).
    destruct (Decimal.ltb _ _); inv_run. cbn [cb_borrow_amount dec Decimal.from_u64].
    change Decimal.wad with WAD. unfold WAD. lia.
Qed.

Lemma calculate_repay_Ok r amount borrowed res :
  Reserve.calculate_repay r amount borrowed = Ok res →
  dec (cr_settle_amount res)
    = (if amount =? u64_MAX then dec borrowed else Z.min (WAD * amount) (dec borrowed)) ∧
  cr_repay_amount res = (WAD - 1 + dec (cr_settle_amount res)) / WAD.
Proof.
  unfold Reserve.calculate_repay. intros H. apply bind_Ok in H as (n & Hn & [= <-]).
  apply Decimal_ceil_Ok in Hn as (-> & _). cbn [cr_settle_amount cr_repay_amount].
  split; [|done]. destruct (amount =? u64_MAX); [done|]. by rewrite Decimal_min_dec.
Qed.

(** The least whole number of tokens that covers an amount. *)
Lemma ceil_wad_bounds z : z ≤ WAD * ((WAD - 1 + z) / WAD) < z + WAD.
Proof. pose proof (floor_wad (WAD - 1 + z)). lia. Qed.

Lemma ceil_wad_le z n : z ≤ WAD * n → (WAD - 1 + z) / WAD ≤ n.
Proof.
  intros H. apply Z.lt_succ_r. apply div_lt_upper; [done|]. unfold WAD in *. lia.
Qed.

(** ** The protocol's cuts *)

Lemma calculate_protocol_liquidation_fee_one r n :
  ReserveConfig_ok (r_config r) → is_u64 n →
  Reserve.calculate_protocol_liquidation_fee r n = Ok 1.
Proof.
  intros Hc Hn. unfold Reserve.calculate_protocol_liquidation_fee.
  pose proof (ok_liquidation_bonus _ Hc) as Hb. unfold in_width in Hb, Hn.
  set (b := liquidation_bonus _) in *.
  assert (Hbw : 0 ≤ b * PERCENT_SCALER < 256 * PERCENT_SCALER) by (unfold PERCENT_SCALER; lia).
  set (bonus := mkRate (b * PERCENT_SCALER + WAD)).
  set (net := mkDecimal (WAD * n * WAD / rat bonus)).
  assert (Hnet : 0 ≤ dec net ≤ WAD * n).
  { cbn [dec net rat bonus]. split; [apply Z.div_pos; unfold WAD; lia|].
    apply div_le_upper; unfold WAD; nia. }
  apply bind_Ok. exists bonus. split.
  { apply Rate_add_Ok. fp_simpl. split; [done|]. unfold WAD, PERCENT_SCALER in *. lia. }
  apply bind_Ok. exists net. split.
  { apply Decimal_div_rate_Ok. fp_simpl. split; [done|]. cbn [rat bonus]. unfold WAD. lia. }
  apply bind_Ok. exists (mkDecimal (WAD * n - dec net)). split.
  { apply Decimal_sub_Ok. fp_simpl. split; [done|lia]. }
  apply bind_Ok. exists (mkDecimal 0). split.
  { apply Decimal_mul_rate_Ok. fp_simpl. split; [|lia]. by rewrite Z.mul_0_r. }
  done.
Qed.

(** The fees a redemption takes are covered twice: by the liquidity and by the
    accumulated fees. *)
Lemma redeem_fees_succeeds r n :
  Reserve.calculate_redeem_fees r = Ok n →
  n ≤ rl_available_amount (r_liquidity r) ∧
  WAD * n ≤ dec (rl_accumulated_protocol_fees_wads (r_liquidity r)) ∧
  is_Ok (ReserveLiquidity.redeem_fees (r_liquidity r) n).
Proof.
  unfold Reserve.calculate_redeem_fees. intros H. apply bind_Ok in H as (a & Ha & [= <-]).
  apply Decimal_floor_Ok in Ha as [-> _].
  pose proof (floor_wad (dec (rl_accumulated_protocol_fees_wads (r_liquidity r)))).
  assert (Hw : WAD * Z.min (rl_available_amount (r_liquidity r))
     (dec (rl_accumulated_protocol_fees_wads (r_liquidity r)) / WAD)
     ≤ dec (rl_accumulated_protocol_fees_wads (r_liquidity r))) by (unfold WAD in *; lia).
  split; [lia|]. split; [done|]. eexists. apply redeem_fees_Ok. split; [lia|]. split; [done|done].
Qed.

(** ** Properties *)

(** The fees of a charged amount.  The borrow fee is the rate's share of the
    amount (or of what remains after it), but at least one token, two with a
    host; it is rounded to the nearest token and less than the amount before
    rounding; the host gets at least one token when there is one and never more
    than the fee.  Nothing is charged without a rate or an amount, and an amount
    that the fee would consume is refused. *)
Theorem calculate_fees_spec (f : ReserveFees) (amount : Decimal) (w b h : Z) (kind : FeeCalculation)
    (Hf : ReserveFees_ok f) (Hh : host_fee_percentage f ≤ 100) (Hw : is_u64 w) (Ha : Decimal_ok amount) :
  (w = 0 ∨ dec amount = 0 → ReserveFees.calculate_fees f amount w kind = Ok (0, 0)) ∧
  (0 < w → 0 < dec amount → ReserveFees.calculate_fees f amount w kind = Ok (b, h) →
     b = (HALF_WAD + fee_amount_wads f amount w kind) / WAD ∧
     fee_amount_wads f amount w kind < dec amount ∧
     minimum_fee f ≤ b ≤ (HALF_WAD + dec amount) / WAD ∧ 0 ≤ h ≤ b ∧
     (0 < host_fee_percentage f → 1 ≤ h) ∧ (host_fee_percentage f = 0 → h = 0)) ∧
  (0 < w → 0 < dec amount → dec amount * Z.max w WAD < 2 ^ 192 →
     dec amount ≤ fee_amount_wads f amount w kind →
     ReserveFees.calculate_fees f amount w kind = fail BorrowTooSmall).
Proof.
  pose proof (ok_host_fee_percentage f Hf) as [Hh0 _]. split; [|split].
  - intros Hz. apply calculate_fees_zero. lia.
  - intros Hw0 Ha0 H. destruct (calculate_fees_Ok f amount w kind b h Hw0 Ha0 H) as (Hlt & Hb & Hhost).
    destruct (fee_split_bounds f amount w kind b h (conj Hh0 Hh) Hw0 Ha0 H) as (? & ? & Hp & ?).
    repeat (split; [done || lia|]). intros Hz. rewrite Hz in Hhost. exact Hhost.
  - intros. apply calculate_fees_too_small; try done. apply Hw.
Qed.

Lemma calculate_fees_spec_witness :
  ReserveFees.calculate_fees (fees sample_config) (Decimal.from_u64 1000) 10000000000000000 Exclusive
    = Ok (10, 2) ∧ 0 ≤ 2 ≤ 10.
Proof.
  split; [vm_compute; reflexivity|].
  destruct (calculate_fees_spec (fees sample_config) (Decimal.from_u64 1000) 10000000000000000 10 2
              Exclusive) as (_ & Hspec & _).
  - constructor; decide_ok.
  - decide_ok.
  - decide_ok.
  - decide_ok.
  - apply Hspec; [reflexivity..|vm_compute; reflexivity].
Defined.

(** A computed borrow stays within its limits.  The value of the borrowed
    amount does not exceed the allowance, its whole part is what the borrower
    receives plus the fee, and the host's part is within the fee; borrowing the
    maximum also respects the reserve's remaining limit and what is available. *)
Theorem calculate_borrow_within_limits (r : Reserve) (amount : Z) (max_value remaining : Decimal)
    (res : CalculateBorrowResult)
    (Hr : Reserve_ok r) (Ha : is_u64 amount) (Hm : Decimal_ok max_value)
    (Hh : host_fee_percentage (fees (r_config r)) ≤ 100)
    (H : Reserve.calculate_borrow r amount max_value remaining = Ok res) :
  dec (cb_borrow_amount res) * dec (rl_market_price (r_liquidity r)) / WAD
    / 10 ^ rl_mint_decimals (r_liquidity r) ≤ dec max_value ∧
  dec (cb_borrow_amount res) / WAD = cb_receive_amount res + cb_borrow_fee res ∧
  cb_host_fee res ≤ cb_borrow_fee res ∧
  (amount = u64_MAX →
     dec (cb_borrow_amount res) ≤ dec remaining ∧
     dec (cb_borrow_amount res) ≤ WAD * rl_available_amount (r_liquidity r)) ∧
  (amount ≠ u64_MAX → cb_receive_amount res = amount).
Proof.
  destruct (ok_r_liquidity r Hr) as [_ Hd _ _ _ _ _ _ _ Hp].
  destruct (calculate_borrow_Ok r amount max_value remaining res) as (Hval & Hsum & Hmax & Hother);
    [apply Ha|apply Hd|apply Hm|apply Hp|done|].
  split; [done|]. split; [done|]. split; [|split; intros E; [apply Hmax in E|apply Hother in E]; tauto].
  by apply (calculate_borrow_split r amount max_value remaining res Hr Ha (proj1 Hm) Hh).
Qed.

Lemma calculate_borrow_within_limits_witness :
  ∃ res, Reserve.calculate_borrow sample_reserve u64_MAX (Decimal.from_u64 20) (Decimal.from_u64 99)
    = Ok res ∧ dec (cb_borrow_amount res) ≤ dec (Decimal.from_u64 99).
Proof.
  destruct (Reserve.calculate_borrow sample_reserve u64_MAX (Decimal.from_u64 20) (Decimal.from_u64 99))
    as [res| |] eqn:E; [|vm_compute in E; discriminate E..].
  exists res. split; [reflexivity|].
  destruct (calculate_borrow_within_limits sample_reserve u64_MAX (Decimal.from_u64 20)
              (Decimal.from_u64 99) res) as (_ & _ & _ & Hmax & _).
  - exact sample_reserve_ok.
  - decide_ok.
  - decide_ok.
  - decide_ok.
  - exact E.
  - apply (Hmax eq_refl).
Defined.

(** A repayment settles at most the debt and at most what was offered, and
    takes from the payer the least whole number of tokens that covers what it
    settles. *)
Theorem calculate_repay_covers (r : Reserve) (amount : Z) (borrowed : Decimal)
    (res : CalculateRepayResult) (Ha : is_u64 amount) (Hb : Decimal_ok borrowed)
    (H : Reserve.calculate_repay r amount borrowed = Ok res) :
  dec (cr_settle_amount res)
    = (if amount =? u64_MAX then dec borrowed else Z.min (WAD * amount) (dec borrowed)) ∧
  0 ≤ dec (cr_settle_amount res) ≤ dec borrowed ∧
  dec (cr_settle_amount res) ≤ WAD * cr_repay_amount res < dec (cr_settle_amount res) + WAD ∧
  (amount ≠ u64_MAX → cr_repay_amount res ≤ amount).
Proof.
  destruct (calculate_repay_Ok r amount borrowed res H) as [Hs Hn].
  destruct Ha as [Ha0 _]. destruct Hb as [Hb0 _].
  split; [done|]. rewrite Hn. split; [|split; [apply ceil_wad_bounds|]].
  - rewrite Hs. destruct (amount =? u64_MAX); [lia|]. unfold WAD. lia.
  - intros Hne. apply ceil_wad_le. rewrite Hs, (proj2 (Z.eqb_neq _ _)) by done. apply Z.le_min_l.
Qed.

Lemma calculate_repay_covers_witness :
  Reserve.calculate_repay sample_reserve 10 (mkDecimal 2500000000000000000)
    = Ok (mkCalculateRepayResult (mkDecimal 2500000000000000000) 3) ∧
  2500000000000000000 ≤ WAD * 3.
Proof.
  split; [vm_compute; reflexivity|].
  destruct (calculate_repay_covers sample_reserve 10 (mkDecimal 2500000000000000000)
     (mkCalculateRepayResult (mkDecimal 2500000000000000000) 3)) as (_ & _ & [Hle _] & _).
  - decide_ok.
  - decide_ok.
  - vm_compute. reflexivity.
  - exact Hle.
Defined.

(** The protocol's cut of a liquidation is one token, whatever the amount
    and whatever the reserve's configured percentage. *)
Theorem protocol_liquidation_fee_is_one (r : Reserve) (amount : Z)
    (Hr : Reserve_ok r) (Ha : is_u64 amount) :
  Reserve.calculate_protocol_liquidation_fee r amount = Ok 1.
Proof. apply calculate_protocol_liquidation_fee_one; [apply Hr|done]. Qed.

Lemma protocol_liquidation_fee_is_one_witness :
  protocol_liquidation_fee (r_config sample_reserve) = 10 ∧
  Reserve.calculate_protocol_liquidation_fee sample_reserve 1000000 = Ok 1.
Proof.
  split; [reflexivity|].
  apply (protocol_liquidation_fee_is_one sample_reserve 1000000); [exact sample_reserve_ok|decide_ok].
Defined.

(** Redeeming the computed protocol fees always succeeds: they are covered
    by the available liquidity and by the accumulated fees, and the depositors'
    supply is the same afterwards. *)
Theorem redeem_fees_covered (r : Reserve) (n : Z)
    (H : Reserve.calculate_redeem_fees r = Ok n) :
  n ≤ rl_available_amount (r_liquidity r) ∧
  WAD * n ≤ dec (rl_accumulated_protocol_fees_wads (r_liquidity r)) ∧
  ∃ l, ReserveLiquidity.redeem_fees (r_liquidity r) n = Ok l ∧
    supply_wads l = supply_wads (r_liquidity r).
Proof.
  destruct (redeem_fees_succeeds r n H) as (? & ? & [l Hl]).
  split; [done|]. split; [done|]. exists l. split; [done|].
  apply redeem_fees_Ok in Hl as (_ & _ & ->). unfold supply_wads. cbn. lia.
Qed.

Lemma redeem_fees_covered_witness :
  Reserve.calculate_redeem_fees sample_reserve = Ok 1000000 ∧
  is_Ok (ReserveLiquidity.redeem_fees sample_liquidity 1000000).
Proof.
  split; [vm_compute; reflexivity|].
  destruct (redeem_fees_covered sample_reserve 1000000) as (_ & _ & l & Hl & _).
  - vm_compute. reflexivity.
  - exists l. exact Hl.
Defined.
