(* ===== verification/Obligation.v ===== *)
(** * Obligations

    [token-lending/program/src/state/obligation.rs], without packing (see
    Codec): a user's deposits and borrows, each unique by reserve, and the
    values that the last refresh gave them.  A method that returns a [&mut] into
    a vector returns the index instead; its caller updates the entry. *)

From S2P Require Import Prelude Errors FixedPoint StateBase Reserve.

(** ** Data *)

Definition MAX_OBLIGATION_RESERVES : nat := 10.

Record ObligationCollateral : Type := mkObligationCollateral {
  deposit_reserve : Pubkey;
  deposited_amount : Z;
  oc_market_value : Decimal;
}.

Record ObligationLiquidity : Type := mkObligationLiquidity {
  borrow_reserve : Pubkey;
  ol_cumulative_borrow_rate_wads : Decimal;
  ol_borrowed_amount_wads : Decimal;
  ol_market_value : Decimal;
}.

Record Obligation : Type := mkObligation {
  o_version : Z;
  o_last_update : LastUpdate;
  o_lending_market : Pubkey;
  o_owner : Pubkey;
  o_deposits : list ObligationCollateral;
  o_borrows : list ObligationLiquidity;
  o_deposited_value : Decimal;
  o_borrowed_value : Decimal;
  o_allowed_borrow_value : Decimal;
  o_unhealthy_borrow_value : Decimal;
}.

Record InitObligationParams : Type := mkInitObligationParams {
  io_current_slot : Z;
  io_lending_market : Pubkey;
  io_owner : Pubkey;
  io_deposits : list ObligationCollateral;
  io_borrows : list ObligationLiquidity;
}.

#[export] Instance ObligationCollateral_eq_dec : EqDecision ObligationCollateral.
Proof. solve_decision. Defined.
#[export] Instance ObligationLiquidity_eq_dec : EqDecision ObligationLiquidity.
Proof. solve_decision. Defined.
#[export] Instance Obligation_eq_dec : EqDecision Obligation.
Proof. solve_decision. Defined.

(** ** One deposit *)

Module ObligationCollateral.

Definition new (deposit_reserve : Pubkey) : ObligationCollateral :=
  mkObligationCollateral deposit_reserve 0 Decimal.zero.

Definition with_amount (self : ObligationCollateral) (amount : Z) : ObligationCollateral :=
  mkObligationCollateral (deposit_reserve self) amount (oc_market_value self).

Definition with_market_value (self : ObligationCollateral) (value : Decimal) : ObligationCollateral :=
  mkObligationCollateral (deposit_reserve self) (deposited_amount self) value.

Definition deposit (self : ObligationCollateral) (collateral_amount : Z) :
    outcome ObligationCollateral :=
  amount ← ok_or_overflow (checked_add 64 (deposited_amount self) collateral_amount);
  mret (with_amount self amount).

Definition withdraw (self : ObligationCollateral) (collateral_amount : Z) :
    outcome ObligationCollateral :=
  amount ← ok_or_overflow (checked_sub (deposited_amount self) collateral_amount);
  mret (with_amount self amount).

End ObligationCollateral.

(** ** One borrow *)

Module ObligationLiquidity.

Definition new (borrow_reserve : Pubkey) (cumulative_borrow_rate_wads : Decimal) :
    ObligationLiquidity :=
  mkObligationLiquidity borrow_reserve cumulative_borrow_rate_wads Decimal.zero Decimal.zero.

Definition with_debt (self : ObligationLiquidity) (cumulative borrowed : Decimal) :
    ObligationLiquidity :=
  mkObligationLiquidity (borrow_reserve self) cumulative borrowed (ol_market_value self).

Definition with_market_value (self : ObligationLiquidity) (value : Decimal) : ObligationLiquidity :=
  mkObligationLiquidity (borrow_reserve self) (ol_cumulative_borrow_rate_wads self)
    (ol_borrowed_amount_wads self) value.

Definition repay (self : ObligationLiquidity) (settle_amount : Decimal) :
    outcome ObligationLiquidity :=
  borrowed ← try_sub (ol_borrowed_amount_wads self) settle_amount;
  mret (with_debt self (ol_cumulative_borrow_rate_wads self) borrowed).

Definition borrow (self : ObligationLiquidity) (borrow_amount : Decimal) :
    outcome ObligationLiquidity :=
  borrowed ← try_add (ol_borrowed_amount_wads self) borrow_amount;
  mret (with_debt self (ol_cumulative_borrow_rate_wads self) borrowed).

Definition accrue_interest (self : ObligationLiquidity) (cumulative_borrow_rate_wads : Decimal) :
    outcome ObligationLiquidity :=
  match dec cumulative_borrow_rate_wads ?= dec (ol_cumulative_borrow_rate_wads self) with
  | Lt => fail NegativeInterestRate
  | Eq => mret self
  | Gt =>
      ratio ← try_div cumulative_borrow_rate_wads (ol_cumulative_borrow_rate_wads self);
      compounded_interest_rate ← Rate.try_from ratio;
      borrowed ← try_mul (ol_borrowed_amount_wads self) compounded_interest_rate;
      mret (with_debt self cumulative_borrow_rate_wads borrowed)
  end.

End ObligationLiquidity.

(** ** The obligation *)

Module Obligation.

Definition default : Obligation :=
  mkObligation 0 LastUpdate.default 0 0 [] [] Decimal.zero Decimal.zero Decimal.zero Decimal.zero.

Definition init (self : Obligation) (params : InitObligationParams) : Obligation := {|
  o_version := PROGRAM_VERSION;
  o_last_update := LastUpdate.new (io_current_slot params);
  o_lending_market := io_lending_market params;
  o_owner := io_owner params;
  o_deposits := io_deposits params;
  o_borrows := io_borrows params;
  o_deposited_value := o_deposited_value self;
  o_borrowed_value := o_borrowed_value self;
  o_allowed_borrow_value := o_allowed_borrow_value self;
  o_unhealthy_borrow_value := o_unhealthy_borrow_value self;
|}.

Definition new (params : InitObligationParams) : Obligation := init default params.

Definition is_initialized (self : Obligation) : bool :=
  negb (o_version self =? UNINITIALIZED_VERSION).

(** Assignments *)
Definition with_entries (self : Obligation) (deposits : list ObligationCollateral)
    (borrows : list ObligationLiquidity) : Obligation :=
  mkObligation (o_version self) (o_last_update self) (o_lending_market self) (o_owner self)
    deposits borrows (o_deposited_value self) (o_borrowed_value self)
    (o_allowed_borrow_value self) (o_unhealthy_borrow_value self).
Definition with_deposits (self : Obligation) (deposits : list ObligationCollateral) : Obligation :=
  with_entries self deposits (o_borrows self).
Definition with_borrows (self : Obligation) (borrows : list ObligationLiquidity) : Obligation :=
  with_entries self (o_deposits self) borrows.
Definition with_values (self : Obligation) (deposited borrowed allowed unhealthy : Decimal) :
    Obligation :=
  mkObligation (o_version self) (o_last_update self) (o_lending_market self) (o_owner self)
    (o_deposits self) (o_borrows self) deposited borrowed allowed unhealthy.
Definition with_last_update (self : Obligation) (u : LastUpdate) : Obligation :=
  mkObligation (o_version self) u (o_lending_market self) (o_owner self)
    (o_deposits self) (o_borrows self) (o_deposited_value self) (o_borrowed_value self)
    (o_allowed_borrow_value self) (o_unhealthy_borrow_value self).
Definition mark_stale (self : Obligation) : Obligation :=
  with_last_update self (LastUpdate.mark_stale (o_last_update self)).
Definition update_slot (self : Obligation) (slot : Z) : Obligation :=
  with_last_update self (LastUpdate.update_slot (o_last_update self) slot).

Definition loan_to_value (self : Obligation) : outcome Decimal :=
  try_div (o_borrowed_value self) (o_deposited_value self).

(** Indexing a vector out of range panics. *)
Definition repay (self : Obligation) (settle_amount : Decimal) (liquidity_index : nat) :
    outcome Obligation :=
  liquidity ← unwrap (o_borrows self !! liquidity_index);
  if Decimal.eqb settle_amount (ol_borrowed_amount_wads liquidity) then
    mret (with_borrows self (delete liquidity_index (o_borrows self)))
  else
    liquidity ← ObligationLiquidity.repay liquidity settle_amount;
    mret (with_borrows self (<[liquidity_index := liquidity]> (o_borrows self))).

Definition withdraw (self : Obligation) (withdraw_amount : Z) (collateral_index : nat) :
    outcome Obligation :=
  collateral ← unwrap (o_deposits self !! collateral_index);
  if withdraw_amount =? deposited_amount collateral then
    mret (with_deposits self (delete collateral_index (o_deposits self)))
  else
    collateral ← ObligationCollateral.withdraw collateral withdraw_amount;
    mret (with_deposits self (<[collateral_index := collateral]> (o_deposits self))).

Definition max_withdraw_value (self : Obligation) (withdraw_collateral_ltv : Rate) :
    outcome Decimal :=
  if Decimal.leb (o_allowed_borrow_value self) (o_borrowed_value self) then mret Decimal.zero
  else if Rate.eqb withdraw_collateral_ltv Rate.zero then mret (o_deposited_value self)
  else
    room ← try_sub (o_allowed_borrow_value self) (o_borrowed_value self);
    try_div room withdraw_collateral_ltv.

Definition remaining_borrow_value (self : Obligation) : outcome Decimal :=
  try_sub (o_allowed_borrow_value self) (o_borrowed_value self).

Definition max_liquidation_amount (self : Obligation) (liquidity : ObligationLiquidity) :
    outcome Decimal :=
  close ← try_mul (o_borrowed_value self) (Rate.from_percent LIQUIDATION_CLOSE_FACTOR);
  let max_liquidation_value := Decimal.min close (ol_market_value liquidity) in
  max_liquidation_pct ← try_div max_liquidation_value (ol_market_value liquidity);
  try_mul (ol_borrowed_amount_wads liquidity) max_liquidation_pct.

(** [iter().position(...)] *)
Definition _find_collateral_index_in_deposits (self : Obligation) (reserve : Pubkey) : option nat :=
  fst <$> list_find (λ collateral, deposit_reserve collateral = reserve) (o_deposits self).

Definition _find_liquidity_index_in_borrows (self : Obligation) (reserve : Pubkey) : option nat :=
  fst <$> list_find (λ liquidity, borrow_reserve liquidity = reserve) (o_borrows self).

Definition find_collateral_in_deposits (self : Obligation) (reserve : Pubkey) :
    outcome (ObligationCollateral * nat) :=
  if decide (o_deposits self = []) then fail ObligationDepositsEmpty
  else
    collateral_index ←
      ok_or_err InvalidObligationCollateral (_find_collateral_index_in_deposits self reserve);
    collateral ← unwrap (o_deposits self !! collateral_index);
    mret (collateral, collateral_index).

(** [find_liquidity_in_borrows] and its [_mut] variant *)
Definition find_liquidity_in_borrows (self : Obligation) (reserve : Pubkey) :
    outcome (ObligationLiquidity * nat) :=
  if decide (o_borrows self = []) then fail ObligationBorrowsEmpty
  else
    liquidity_index ←
      ok_or_err InvalidObligationLiquidity (_find_liquidity_index_in_borrows self reserve);
    liquidity ← unwrap (o_borrows self !! liquidity_index);
    mret (liquidity, liquidity_index).

Definition find_or_add_collateral_to_deposits (self : Obligation) (reserve : Pubkey) :
    outcome (Obligation * nat) :=
  match _find_collateral_index_in_deposits self reserve with
  | Some collateral_index => mret (self, collateral_index)
  | None =>
      if (MAX_OBLIGATION_RESERVES <=? length (o_deposits self) + length (o_borrows self))%nat
      then fail ObligationReserveLimit
      else
        mret (with_deposits self (o_deposits self ++ [ObligationCollateral.new reserve]),
              length (o_deposits self))
  end.

Definition find_or_add_liquidity_to_borrows (self : Obligation) (reserve : Pubkey)
    (cumulative_borrow_rate_wads : Decimal) : outcome (Obligation * nat) :=
  match _find_liquidity_index_in_borrows self reserve with
  | Some liquidity_index => mret (self, liquidity_index)
  | None =>
      if (MAX_OBLIGATION_RESERVES <=? length (o_deposits self) + length (o_borrows self))%nat
      then fail ObligationReserveLimit
      else
        mret (with_borrows self
                (o_borrows self ++ [ObligationLiquidity.new reserve cumulative_borrow_rate_wads]),
              length (o_borrows self))
  end.

(** [obligation.find_or_add_collateral_to_deposits(reserve)?.deposit(amount)?] *)
Definition deposit_collateral (self : Obligation) (reserve : Pubkey) (amount : Z) :
    outcome Obligation :=
  '(self, i) ← find_or_add_collateral_to_deposits self reserve;
  collateral ← unwrap (o_deposits self !! i);
  collateral ← ObligationCollateral.deposit collateral amount;
  mret (with_deposits self (<[i := collateral]> (o_deposits self))).

(** [obligation.find_or_add_liquidity_to_borrows(reserve, rate)?.borrow(amount)?] *)
Definition borrow_liquidity (self : Obligation) (reserve : Pubkey) (rate amount : Decimal) :
    outcome Obligation :=
  '(self, i) ← find_or_add_liquidity_to_borrows self reserve rate;
  liquidity ← unwrap (o_borrows self !! i);
  liquidity ← ObligationLiquidity.borrow liquidity amount;
  mret (with_borrows self (<[i := liquidity]> (o_borrows self))).

(** [obligation.find_liquidity_in_borrows_mut(reserve)?.0.accrue_interest(rate)?] *)
Definition accrue_liquidity_interest (self : Obligation) (reserve : Pubkey) (rate : Decimal) :
    outcome Obligation :=
  '(liquidity, i) ← find_liquidity_in_borrows self reserve;
  liquidity ← ObligationLiquidity.accrue_interest liquidity rate;
  mret (with_borrows self (<[i := liquidity]> (o_borrows self))).

End Obligation.

#[export] Instance Obligation_IsInitialized : IsInitialized Obligation := Obligation.is_initialized.
