(* ===== verification/ObligationFacts.v ===== *)
(** * Facts about obligations

    The invariant of an obligation (unique reserves, at most ten entries, field
    widths), the refinement of its vectors to finite maps from reserves to
    amounts, and the bounds of the values it computes. *)

From S2P Require Import Prelude Errors FixedPoint StateBase Reserve ReserveFacts LoanFacts Obligation.

(** ** Invariant *)

Record ObligationCollateral_ok (c : ObligationCollateral) : Prop := {
  ok_deposit_reserve : is_key (deposit_reserve c);
  ok_deposited_amount : is_u64 (deposited_amount c);
  ok_oc_market_value : Decimal_ok (oc_market_value c);
}.

Record ObligationLiquidity_ok (l : ObligationLiquidity) : Prop := {
  ok_borrow_reserve : is_key (borrow_reserve l);
  ok_ol_cumulative : Decimal_ok (ol_cumulative_borrow_rate_wads l);
  ok_ol_borrowed : Decimal_ok (ol_borrowed_amount_wads l);
  ok_ol_market_value : Decimal_ok (ol_market_value l);
}.

Record Obligation_ok (o : Obligation) : Prop := {
  ok_o_version : 0 ≤ o_version o ≤ PROGRAM_VERSION;
  ok_o_last_update : LastUpdate_ok (o_last_update o);
  ok_o_lending_market : is_key (o_lending_market o);
  ok_o_owner : is_key (o_owner o);
  ok_o_deposits : Forall ObligationCollateral_ok (o_deposits o);
  ok_o_borrows : Forall ObligationLiquidity_ok (o_borrows o);
  ok_o_deposited_value : Decimal_ok (o_deposited_value o);
  ok_o_borrowed_value : Decimal_ok (o_borrowed_value o);
  ok_o_allowed_borrow_value : Decimal_ok (o_allowed_borrow_value o);
  ok_o_unhealthy_borrow_value : Decimal_ok (o_unhealthy_borrow_value o);
  ok_o_unique_deposits : NoDup (deposit_reserve <$> o_deposits o);
  ok_o_unique_borrows : NoDup (borrow_reserve <$> o_borrows o);
  ok_o_limit : (length (o_deposits o) + length (o_borrows o) ≤ MAX_OBLIGATION_RESERVES)%nat;
}.

(** Replacing the vectors keeps the invariant of everything else. *)
Lemma with_entries_ok o ds bs :
  Obligation_ok o → Forall ObligationCollateral_ok ds → Forall ObligationLiquidity_ok bs →
  NoDup (deposit_reserve <$> ds) → NoDup (borrow_reserve <$> bs) →
  (length ds + length bs ≤ MAX_OBLIGATION_RESERVES)%nat →
  Obligation_ok (Obligation.with_entries o ds bs).
Proof. intros []. by constructor. Qed.

(** ** Keyed vectors

    Deposits and borrows are vectors whose entries carry a key; with unique keys
    such a vector is a finite map. *)
Section keyed.
Context {A : Type} (key : A → Z).

Definition keyed_map {B} (val : A → B) (l : list A) : gmap Z B :=
  list_to_map ((λ a, (key a, val a)) <$> l).

Lemma keyed_map_lookup {B} (val : A → B) l i a :
  NoDup (key <$> l) → l !! i = Some a → keyed_map val l !! key a = Some (val a).
Proof.
  intros Hnd Hi. unfold keyed_map. apply elem_of_list_to_map.
  - rewrite <- list_fmap_compose. done.
  - apply list_elem_of_fmap. exists a. split; [done|]. by eapply list_elem_of_lookup_2.
Qed.

Lemma keyed_map_lookup_None {B} (val : A → B) l k :
  keyed_map val l !! k = None ↔ k ∉ key <$> l.
Proof.
  unfold keyed_map. rewrite <- not_elem_of_list_to_map. rewrite <- list_fmap_compose. done.
Qed.

Lemma keyed_map_cons {B} (val : A → B) a l :
  keyed_map val (a :: l) = <[key a := val a]> (keyed_map val l).
Proof. done. Qed.

Lemma key_neq (l : list A) (i : nat) (a b : A) : key b ∉ key <$> l → l !! i = Some a → key b ≠ key a.
Proof.
  intros Hb Hi E. apply Hb. rewrite E. apply list_elem_of_fmap_2. by eapply list_elem_of_lookup_2.
Qed.

(** Updating an entry in place updates the map at its key. *)
Lemma keyed_map_insert {B} (val : A → B) l i a a' :
  NoDup (key <$> l) → l !! i = Some a → key a' = key a →
  keyed_map val (<[i := a']> l) = <[key a := val a']> (keyed_map val l).
Proof.
  revert i. induction l as [|b l IH]; intros [|i] Hnd Hi Hk; try done.
  - injection Hi as ->. change (<[0%nat:=a']> (a :: l)) with (a' :: l).
    rewrite !keyed_map_cons, insert_insert_eq, Hk. done.
  - change (<[S i:=a']> (b :: l)) with (b :: <[i:=a']> l). rewrite !keyed_map_cons.
    apply NoDup_cons in Hnd as [Hb Hnd]. rewrite (IH i Hnd Hi Hk). apply insert_insert_ne.
    by eapply key_neq.
Qed.

(** Removing an entry removes its key. *)
Lemma keyed_map_delete {B} (val : A → B) l i a :
  NoDup (key <$> l) → l !! i = Some a →
  keyed_map val (delete i l) = delete (key a) (keyed_map val l).
Proof.
  revert i. induction l as [|b l IH]; intros [|i] Hnd Hi; try done;
    apply NoDup_cons in Hnd as [Hb Hnd].
  - injection Hi as ->. change (delete 0%nat (a :: l)) with l. rewrite keyed_map_cons.
    rewrite delete_insert_id; [done|]. by apply keyed_map_lookup_None.
  - change (delete (S i) (b :: l)) with (b :: delete i l). rewrite !keyed_map_cons.
    rewrite (IH i Hnd Hi). rewrite delete_insert_ne; [done|].
    apply not_eq_sym. by eapply key_neq.
Qed.

(** Pushing an entry with a new key adds it. *)
Lemma keyed_map_push {B} (val : A → B) l a :
  key a ∉ key <$> l → keyed_map val (l ++ [a]) = <[key a := val a]> (keyed_map val l).
Proof.
  induction l as [|b l IH]; intros Ha; [done|]. cbn [app]. rewrite !keyed_map_cons.
  apply not_elem_of_cons in Ha as [Hne Ha]. rewrite IH by done. by apply insert_insert_ne.
Qed.

Lemma keys_insert (l : list A) (i : nat) a a' :
  l !! i = Some a → key a' = key a → key <$> (<[i := a']> l) = key <$> l.
Proof.
  intros Hi Hk. rewrite list_fmap_insert, Hk. apply list_insert_id.
  by rewrite list_lookup_fmap, Hi.
Qed.

Lemma keys_delete_NoDup (l : list A) (i : nat) : NoDup (key <$> l) → NoDup (key <$> delete i l).
Proof.
  intros H. eapply sublist_NoDup; [done|]. apply fmap_sublist, sublist_delete.
Qed.

Lemma keys_push_NoDup (l : list A) a : NoDup (key <$> l) → key a ∉ key <$> l → NoDup (key <$> (l ++ [a])).
Proof.
  intros Hnd Ha. rewrite fmap_app. apply NoDup_app. split; [done|]. split.
  - intros x Hx. cbn. rewrite list_elem_of_singleton. by intros ->.
  - cbn. apply NoDup_singleton.
Qed.

(** [iter().position(...)] finds the entry of a key. *)
Lemma position_Some (l : list A) k i :
  fst <$> list_find (λ a, key a = k) l = Some i → ∃ a, l !! i = Some a ∧ key a = k.
Proof.
  intros H. apply fmap_Some in H as ([j a] & Hf & ->). apply list_find_Some in Hf as (? & ? & _).
  by exists a.
Qed.

Lemma position_None (l : list A) k :
  fst <$> list_find (λ a, key a = k) l = None ↔ k ∉ key <$> l.
Proof.
  rewrite fmap_None, list_find_None, Forall_forall, list_elem_of_fmap. naive_solver.
Qed.

Lemma position_unique (l : list A) k i a :
  NoDup (key <$> l) → l !! i = Some a → key a = k →
  fst <$> list_find (λ a, key a = k) l = Some i.
Proof.
  intros Hnd Hi Hk. destruct (fst <$> list_find (λ a, key a = k) l) as [j|] eqn:E.
  - apply position_Some in E as (b & Hj & Hb). f_equal.
    eapply NoDup_lookup; [exact Hnd|rewrite list_lookup_fmap, Hj; cbn; by rewrite Hb|].
    rewrite list_lookup_fmap, Hi. cbn. by rewrite Hk.
  - apply position_None in E. destruct E. rewrite <- Hk.
    apply list_elem_of_fmap_2. by eapply list_elem_of_lookup_2.
Qed.
End keyed.

(** ** The obligation as two finite maps *)

Definition deposits_map (o : Obligation) : gmap Z Z :=
  keyed_map deposit_reserve deposited_amount (o_deposits o).

Definition borrows_map (o : Obligation) : gmap Z Z :=
  keyed_map borrow_reserve (λ l, dec (ol_borrowed_amount_wads l)) (o_borrows o).

(** Add an amount to a key, absent keys counting as zero. *)
Definition map_add (k n : Z) (m : gmap Z Z) : gmap Z Z := <[k := default 0 (m !! k) + n]> m.

(** Take an amount from a key; a key whose amount is used up disappears. *)
Definition map_take (k n : Z) (m : gmap Z Z) : gmap Z Z :=
  let x := default 0 (m !! k) in if n =? x then delete k m else <[k := x - n]> m.

Lemma find_collateral_Ok o k c i :
  Obligation.find_collateral_in_deposits o k = Ok (c, i) →
  o_deposits o !! i = Some c ∧ deposit_reserve c = k.
Proof.
  unfold Obligation.find_collateral_in_deposits, Obligation._find_collateral_index_in_deposits.
  intros H. case_decide; [done|]. inv_run. 
  match goal with E : fst <$> _ = Some _ |- _ => apply position_Some in E as (a & Ha & Hk) end.
  simplify_eq. done.
Qed.

Lemma find_liquidity_Ok o k l i :
  Obligation.find_liquidity_in_borrows o k = Ok (l, i) →
  o_borrows o !! i = Some l ∧ borrow_reserve l = k.
Proof.
  unfold Obligation.find_liquidity_in_borrows, Obligation._find_liquidity_index_in_borrows.
  intros H. case_decide; [done|]. inv_run.
  match goal with E : fst <$> _ = Some _ |- _ => apply position_Some in E as (a & Ha & Hk) end.
  simplify_eq. done.
Qed.

(** The three errors of a lookup. *)
Lemma find_collateral_missing o k :
  k ∉ deposit_reserve <$> o_deposits o →
  Obligation.find_collateral_in_deposits o k
    = fail (if decide (o_deposits o = []) then ObligationDepositsEmpty
            else InvalidObligationCollateral).
Proof.
  intros Hk. unfold Obligation.find_collateral_in_deposits, Obligation._find_collateral_index_in_deposits.
  case_decide; [done|]. by rewrite (proj2 (position_None deposit_reserve _ _) Hk).
Qed.

Lemma find_liquidity_missing o k :
  k ∉ borrow_reserve <$> o_borrows o →
  Obligation.find_liquidity_in_borrows o k
    = fail (if decide (o_borrows o = []) then ObligationBorrowsEmpty
            else InvalidObligationLiquidity).
Proof.
  intros Hk. unfold Obligation.find_liquidity_in_borrows, Obligation._find_liquidity_index_in_borrows.
  case_decide; [done|]. by rewrite (proj2 (position_None borrow_reserve _ _) Hk).
Qed.

(** Repaying at an index. *)
Lemma obligation_repay_Ok o d i o' :
  Obligation.repay o d i = Ok o' →
  ∃ l, o_borrows o !! i = Some l ∧ dec d ≤ dec (ol_borrowed_amount_wads l) ∧
    o' = Obligation.with_borrows o
           (if dec d =? dec (ol_borrowed_amount_wads l) then delete i (o_borrows o)
            else <[i := ObligationLiquidity.with_debt l (ol_cumulative_borrow_rate_wads l)
                          (mkDecimal (dec (ol_borrowed_amount_wads l) - dec d))]> (o_borrows o)).
Proof.
  unfold Obligation.repay, Decimal.eqb. intros H. apply bind_Ok in H as (l & Hl & H).
  apply unwrap_Ok in Hl. exists l. split; [done|].
  destruct (Z.eqb_spec (dec d) (dec (ol_borrowed_amount_wads l))) as [E|E].
  - injection H as <-. split; [lia|done].
  - unfold ObligationLiquidity.repay in H. inv_fp. done.
Qed.

Lemma obligation_withdraw_Ok o n i o' :
  Obligation.withdraw o n i = Ok o' →
  ∃ c, o_deposits o !! i = Some c ∧ n ≤ deposited_amount c ∧
    o' = Obligation.with_deposits o
           (if n =? deposited_amount c then delete i (o_deposits o)
            else <[i := ObligationCollateral.with_amount c (deposited_amount c - n)]> (o_deposits o)).
Proof.
  unfold Obligation.withdraw. intros H. apply bind_Ok in H as (c & Hc & H).
  apply unwrap_Ok in Hc. exists c. split; [done|].
  destruct (Z.eqb_spec n (deposited_amount c)) as [E|E].
  - injection H as <-. split; [lia|done].
  - unfold ObligationCollateral.withdraw in H. inv_fp. done.
Qed.

(** A deposit finds its entry or pushes a new one. *)
Lemma deposit_collateral_Ok o k n o' :
  Obligation.deposit_collateral o k n = Ok o' →
  (∃ i c, o_deposits o !! i = Some c ∧ deposit_reserve c = k ∧ deposited_amount c + n < 2 ^ 64 ∧
     o' = Obligation.with_deposits o
            (<[i := ObligationCollateral.with_amount c (deposited_amount c + n)]> (o_deposits o))) ∨
  (k ∉ deposit_reserve <$> o_deposits o ∧ n < 2 ^ 64 ∧
   (length (o_deposits o) + length (o_borrows o) < MAX_OBLIGATION_RESERVES)%nat ∧
   o' = Obligation.with_deposits o (o_deposits o ++ [mkObligationCollateral k n Decimal.zero])).
Proof.
  unfold Obligation.deposit_collateral, Obligation.find_or_add_collateral_to_deposits,
    ObligationCollateral.deposit. intros H. apply bind_Ok in H as ([o1 i] & H1 & H).
  destruct (Obligation._find_collateral_index_in_deposits o k) as [j|] eqn:E.
  - injection H1 as -> ->. apply position_Some in E as (c & Hc & Hk). left. exists i, c.
    rewrite Hc in H. cbn in H. inv_run. done.
  - apply position_None in E. right. split; [done|].
    destruct (Nat.leb_spec MAX_OBLIGATION_RESERVES (length (o_deposits o) + length (o_borrows o)));
      [done|]. injection H1 as <- <-. cbn [o_deposits Obligation.with_deposits Obligation.with_entries] in H.
    rewrite lookup_app_r, Nat.sub_diag in H by done. cbn in H. inv_run.
    split; [done|]. split; [done|]. f_equal.
    rewrite list_insert_middle_alt || rewrite insert_app_r_alt, Nat.sub_diag by done. done.
Qed.

Lemma borrow_liquidity_Ok o k rate d o' :
  Obligation.borrow_liquidity o k rate d = Ok o' →
  (∃ i l, o_borrows o !! i = Some l ∧ borrow_reserve l = k ∧
     dec (ol_borrowed_amount_wads l) + dec d < 2 ^ 192 ∧
     o' = Obligation.with_borrows o
            (<[i := ObligationLiquidity.with_debt l (ol_cumulative_borrow_rate_wads l)
                      (mkDecimal (dec (ol_borrowed_amount_wads l) + dec d))]> (o_borrows o))) ∨
  (k ∉ borrow_reserve <$> o_borrows o ∧ dec d < 2 ^ 192 ∧
   (length (o_deposits o) + length (o_borrows o) < MAX_OBLIGATION_RESERVES)%nat ∧
   o' = Obligation.with_borrows o (o_borrows o ++ [mkObligationLiquidity k rate d Decimal.zero])).
Proof.
  unfold Obligation.borrow_liquidity, Obligation.find_or_add_liquidity_to_borrows,
    ObligationLiquidity.borrow. intros H. apply bind_Ok in H as ([o1 i] & H1 & H).
  destruct (Obligation._find_liquidity_index_in_borrows o k) as [j|] eqn:E.
  - injection H1 as -> ->. apply position_Some in E as (c & Hc & Hk). left. exists i, c.
    rewrite Hc in H. cbn in H. inv_fp. done.
  - apply position_None in E. right. split; [done|].
    destruct (Nat.leb_spec MAX_OBLIGATION_RESERVES (length (o_deposits o) + length (o_borrows o)));
      [done|]. injection H1 as <- <-. cbn [o_borrows Obligation.with_borrows Obligation.with_entries] in H.
    rewrite lookup_app_r, Nat.sub_diag in H by done. cbn in H. inv_fp.
    split; [done|]. split; [done|]. f_equal.
    rewrite insert_app_r_alt, Nat.sub_diag by done. by destruct d.
Qed.

(** ** Invariant preservation *)

Lemma deposits_insert_ok o i c n :
  Obligation_ok o → o_deposits o !! i = Some c → is_u64 n →
  Obligation_ok (Obligation.with_deposits o (<[i := ObligationCollateral.with_amount c n]> (o_deposits o))).
Proof.
  intros Ho Hi Hn. apply with_entries_ok; try apply Ho; try done.
  - apply Forall_insert; [apply Ho|]. destruct (Forall_lookup_1 _ _ _ _ (ok_o_deposits o Ho) Hi).
    by constructor.
  - rewrite (keys_insert deposit_reserve _ _ _ _ Hi) by done. apply Ho.
  - rewrite length_insert. apply Ho.
Qed.

Lemma borrows_insert_ok o i l rate d :
  Obligation_ok o → o_borrows o !! i = Some l → Decimal_ok rate → Decimal_ok d →
  Obligation_ok (Obligation.with_borrows o (<[i := ObligationLiquidity.with_debt l rate d]> (o_borrows o))).
Proof.
  intros Ho Hi Hr Hd. apply with_entries_ok; try apply Ho; try done.
  - apply Forall_insert; [apply Ho|]. destruct (Forall_lookup_1 _ _ _ _ (ok_o_borrows o Ho) Hi).
    by constructor.
  - rewrite (keys_insert borrow_reserve _ _ _ _ Hi) by done. apply Ho.
  - rewrite length_insert. apply Ho.
Qed.

Lemma delete_length_le {A} (i : nat) (l : list A) : (length (delete i l) ≤ length l)%nat.
Proof. apply sublist_length, sublist_delete. Qed.

Lemma deposits_delete_ok o i :
  Obligation_ok o → Obligation_ok (Obligation.with_deposits o (delete i (o_deposits o))).
Proof.
  intros Ho. apply with_entries_ok; try apply Ho; try done.
  - apply Forall_delete, Ho.
  - apply keys_delete_NoDup, Ho.
  - pose proof (delete_length_le i (o_deposits o)). pose proof (ok_o_limit o Ho). lia.
Qed.

Lemma borrows_delete_ok o i :
  Obligation_ok o → Obligation_ok (Obligation.with_borrows o (delete i (o_borrows o))).
Proof.
  intros Ho. apply with_entries_ok; try apply Ho; try done.
  - apply Forall_delete, Ho.
  - apply keys_delete_NoDup, Ho.
  - pose proof (delete_length_le i (o_borrows o)). pose proof (ok_o_limit o Ho). lia.
Qed.

Lemma deposits_push_ok o c :
  Obligation_ok o → ObligationCollateral_ok c → deposit_reserve c ∉ deposit_reserve <$> o_deposits o →
  (length (o_deposits o) + length (o_borrows o) < MAX_OBLIGATION_RESERVES)%nat →
  Obligation_ok (Obligation.with_deposits o (o_deposits o ++ [c])).
Proof.
  intros Ho Hc Hk Hlen. apply with_entries_ok; try apply Ho; try done.
  - apply Forall_app; split; [apply Ho|by constructor].
  - apply keys_push_NoDup; [apply Ho|done].
  - rewrite length_app. cbn. lia.
Qed.

Lemma borrows_push_ok o l :
  Obligation_ok o → ObligationLiquidity_ok l → borrow_reserve l ∉ borrow_reserve <$> o_borrows o →
  (length (o_deposits o) + length (o_borrows o) < MAX_OBLIGATION_RESERVES)%nat →
  Obligation_ok (Obligation.with_borrows o (o_borrows o ++ [l])).
Proof.
  intros Ho Hl Hk Hlen. apply with_entries_ok; try apply Ho; try done.
  - apply Forall_app; split; [apply Ho|by constructor].
  - apply keys_push_NoDup; [apply Ho|done].
  - rewrite length_app. cbn. lia.
Qed.

(** ** Interest of a borrow *)

(** Interest follows the reserve's cumulative rate and is rounded down. *)
Lemma liquidity_accrue_reserve l rate l' :
  ObligationLiquidity.accrue_interest l rate = Ok l' → borrow_reserve l' = borrow_reserve l.
Proof.
  unfold ObligationLiquidity.accrue_interest. destruct (_ ?= _); intros H; [by injection H as <-|done|].
  inv_ok. by repeat match goal with H : Ok _ = Ok _ |- _ => injection H as <- end.
Qed.

Lemma liquidity_accrue_Ok l rate l' :
  ObligationLiquidity_ok l → Decimal_ok rate →
  ObligationLiquidity.accrue_interest l rate = Ok l' →
  dec (ol_cumulative_borrow_rate_wads l) ≤ dec rate ∧
  l' = ObligationLiquidity.with_debt l rate (ol_borrowed_amount_wads l') ∧
  Decimal_ok (ol_borrowed_amount_wads l') ∧
  dec (ol_borrowed_amount_wads l) ≤ dec (ol_borrowed_amount_wads l') ∧
  dec (ol_borrowed_amount_wads l') * dec (ol_cumulative_borrow_rate_wads l)
    ≤ dec (ol_borrowed_amount_wads l) * dec rate.
Proof.
  intros Hl [Hr0 _]. unfold ObligationLiquidity.accrue_interest.
  pose proof (ok_ol_borrowed l Hl) as Hb. pose proof (ok_ol_cumulative l Hl) as [Hc0 _].
  destruct (Z.compare_spec (dec rate) (dec (ol_cumulative_borrow_rate_wads l))) as [E|E|E];
    intros H; [|done|].
  - injection H as <-. split; [lia|]. split; [|split; [done|lia]].
    destruct l as [k c b m], rate; cbn in *; subst; by destruct c.
  - inv_fp. split; [lia|]. split; [done|]. cbn [ol_borrowed_amount_wads ObligationLiquidity.with_debt dec].
    destruct Hb as [Hb0 Hb1].
    set (q := dec rate * WAD / dec (ol_cumulative_borrow_rate_wads l)) in *.
    assert (Hq : WAD ≤ q) by (apply Z.div_le_lower_bound; [lia|]; unfold WAD; lia).
    assert (Hqc : q * dec (ol_cumulative_borrow_rate_wads l) ≤ dec rate * WAD) by (apply mul_div_le; lia).
    assert (Hf := floor_wad (dec (ol_borrowed_amount_wads l) * q)).
    split; [|split].
    + apply quot_in_width; [|done]. split; [unfold WAD in *; nia|done].
    + apply Z.div_le_lower_bound; [done|]. nia.
    + set (b := dec (ol_borrowed_amount_wads l)) in *. set (c := dec (ol_cumulative_borrow_rate_wads l)) in *.
      set (b' := b * q / WAD) in *.
      assert (WAD * b' * c ≤ b * (q * c)) by nia.
      assert (b * (q * c) ≤ b * (dec rate * WAD)) by (apply Z.mul_le_mono_nonneg_l; done).
      unfold WAD in *. nia.
Qed.

(** A rate that went down is refused. *)
Lemma liquidity_accrue_negative l rate :
  dec rate < dec (ol_cumulative_borrow_rate_wads l) →
  ObligationLiquidity.accrue_interest l rate = fail NegativeInterestRate.
Proof.
  intros H. unfold ObligationLiquidity.accrue_interest. by rewrite (proj2 (Z.compare_lt_iff _ _)).
Qed.

(** ** Values *)

Lemma max_withdraw_value_Ok o ltv v :
  0 ≤ rat ltv → Obligation.max_withdraw_value o ltv = Ok v →
  (dec (o_allowed_borrow_value o) ≤ dec (o_borrowed_value o) → v = Decimal.zero) ∧
  (dec (o_borrowed_value o) < dec (o_allowed_borrow_value o) → rat ltv = 0 → v = o_deposited_value o) ∧
  (dec (o_borrowed_value o) < dec (o_allowed_borrow_value o) → 0 < rat ltv →
     dec v * rat ltv ≤ (dec (o_allowed_borrow_value o) - dec (o_borrowed_value o)) * WAD).
Proof.
  unfold Obligation.max_withdraw_value, Decimal.leb, Rate.eqb. intros Hltv H. fp_simpl.
  destruct (Z.leb_spec (dec (o_allowed_borrow_value o)) (dec (o_borrowed_value o))).
  - injection H as <-. repeat split; lia || done.
  - destruct (Z.eqb_spec (rat ltv) 0) as [E|E].
    + injection H as <-. repeat split; lia || done.
    + inv_fp. repeat split; [lia|lia|]. intros _ Hpos. by apply mul_div_le.
Qed.

Lemma max_withdraw_value_nonneg o ltv v :
  Obligation_ok o → 0 ≤ rat ltv → Obligation.max_withdraw_value o ltv = Ok v → 0 ≤ dec v.
Proof.
  intros Ho Hltv Hv. unfold Obligation.max_withdraw_value in Hv.
  case_match; [by injection Hv as <-|].
  case_match; [injection Hv as <-; apply (ok_o_deposited_value o Ho)|].
  apply bind_Ok in Hv as (room & [-> ?]%Decimal_sub_Ok & (-> & ? & _)%Decimal_div_rate_Ok).
  cbn [dec]. apply Z.div_pos; [unfold WAD|]; lia.
Qed.

Lemma max_liquidation_amount_Ok o l d :
  0 ≤ dec (o_borrowed_value o) → 0 ≤ dec (ol_borrowed_amount_wads l) →
  0 ≤ dec (ol_market_value l) →
  Obligation.max_liquidation_amount o l = Ok d →
  0 ≤ dec d ≤ dec (ol_borrowed_amount_wads l) ∧
  dec d * dec (ol_market_value l)
    ≤ dec (ol_borrowed_amount_wads l) * (dec (o_borrowed_value o) * (LIQUIDATION_CLOSE_FACTOR * PERCENT_SCALER) / WAD).
Proof.
  intros Hv Hb Hm. unfold Obligation.max_liquidation_amount. intros H. inv_fp.
  rewrite Decimal_min_dec in *. fp_simpl.
  set (close := dec (o_borrowed_value o) * _ / WAD) in *.
  assert (Hclose : 0 ≤ close) by (apply Z.div_pos; [unfold PERCENT_SCALER, LIQUIDATION_CLOSE_FACTOR; lia|done]).
  set (m := dec (ol_market_value l)) in *. set (b := dec (ol_borrowed_amount_wads l)) in *.
  set (pct := Z.min close m * WAD / m) in *.
  assert (Hpct : 0 ≤ pct ≤ WAD).
  { split; [apply Z.div_pos; unfold WAD; lia|]. apply div_le_upper; [lia|]. unfold WAD. lia. }
  assert (Hpm : pct * m ≤ Z.min close m * WAD) by (apply mul_div_le; lia).
  assert (Hf := floor_wad (b * pct)).
  split.
  - split; [apply Z.div_pos; [nia|done]|]. apply div_le_upper; [done|]. nia.
  - set (x := b * pct / WAD) in *.
    assert (WAD * x * m ≤ b * (pct * m)) by nia.
    assert (b * (pct * m) ≤ b * (close * WAD)) by (apply Z.mul_le_mono_nonneg_l; unfold WAD in *; lia).
    unfold WAD in *. nia.
Qed.

(** ** The operations on the two maps *)

Lemma deposit_collateral_map o o' k n :
  Obligation_ok o → Obligation.deposit_collateral o k n = Ok o' →
  deposits_map o' = map_add k n (deposits_map o) ∧ borrows_map o' = borrows_map o.
Proof.
  intros Ho H. pose proof (ok_o_unique_deposits o Ho) as Hd. unfold map_add.
  apply deposit_collateral_Ok in H as [(j & c & Hc & <- & _ & ->)|(Hk & _ & _ & ->)];
    (split; [|done]); unfold deposits_map.
  - rewrite (keyed_map_lookup _ _ _ _ _ Hd Hc).
    by apply (keyed_map_insert _ deposited_amount _ _ c).
  - rewrite (proj2 (keyed_map_lookup_None _ _ _ _) Hk).
    exact (keyed_map_push _ deposited_amount _ (mkObligationCollateral k n Decimal.zero) Hk).
Qed.

Lemma borrow_liquidity_map o o' k rate d :
  Obligation_ok o → Obligation.borrow_liquidity o k rate d = Ok o' →
  borrows_map o' = map_add k (dec d) (borrows_map o) ∧ deposits_map o' = deposits_map o.
Proof.
  intros Ho H. pose proof (ok_o_unique_borrows o Ho) as Hb. unfold map_add.
  apply borrow_liquidity_Ok in H as [(j & l & Hl & <- & _ & ->)|(Hk & _ & _ & ->)];
    (split; [|done]); unfold borrows_map.
  - rewrite (keyed_map_lookup _ _ _ _ _ Hb Hl).
    by apply (keyed_map_insert _ (λ l, dec (ol_borrowed_amount_wads l)) _ _ l).
  - rewrite (proj2 (keyed_map_lookup_None _ _ _ _) Hk).
    exact (keyed_map_push _ (λ l, dec (ol_borrowed_amount_wads l)) _
             (mkObligationLiquidity k rate d Decimal.zero) Hk).
Qed.

Lemma obligation_withdraw_map o o' n c i :
  Obligation_ok o → o_deposits o !! i = Some c → Obligation.withdraw o n i = Ok o' →
  deposits_map o !! deposit_reserve c = Some (deposited_amount c) ∧ n ≤ deposited_amount c ∧
  deposits_map o' = map_take (deposit_reserve c) n (deposits_map o) ∧ borrows_map o' = borrows_map o.
Proof.
  intros Ho Hc H. pose proof (ok_o_unique_deposits o Ho) as Hd. unfold map_take.
  apply obligation_withdraw_Ok in H as (c' & Hc' & ? & ->).
  rewrite Hc in Hc'. injection Hc' as <-. unfold deposits_map.
  rewrite (keyed_map_lookup _ _ _ _ _ Hd Hc). split; [done|]. split; [done|]. split; [|done].
  cbn [default from_option id]. destruct (n =? deposited_amount c);
    [by apply keyed_map_delete|by apply (keyed_map_insert _ deposited_amount _ _ c)].
Qed.

Lemma obligation_repay_map o o' d l i :
  Obligation_ok o → o_borrows o !! i = Some l → Obligation.repay o d i = Ok o' →
  borrows_map o !! borrow_reserve l = Some (dec (ol_borrowed_amount_wads l)) ∧
  dec d ≤ dec (ol_borrowed_amount_wads l) ∧
  borrows_map o' = map_take (borrow_reserve l) (dec d) (borrows_map o) ∧
  deposits_map o' = deposits_map o.
Proof.
  intros Ho Hl H. pose proof (ok_o_unique_borrows o Ho) as Hb. unfold map_take.
  apply obligation_repay_Ok in H as (l' & Hl' & ? & ->).
  rewrite Hl in Hl'. injection Hl' as <-. unfold borrows_map.
  rewrite (keyed_map_lookup _ _ _ _ _ Hb Hl). split; [done|]. split; [done|]. split; [|done].
  cbn [default from_option id]. destruct (dec d =? dec (ol_borrowed_amount_wads l));
    [by apply keyed_map_delete
    |by apply (keyed_map_insert _ (λ l, dec (ol_borrowed_amount_wads l)) _ _ l)].
Qed.

(** Interest replaces the debt of one reserve. *)
Lemma accrue_entry_map o i l rate l' :
  Obligation_ok o → Decimal_ok rate → o_borrows o !! i = Some l →
  ObligationLiquidity.accrue_interest l rate = Ok l' →
  borrow_reserve l' = borrow_reserve l ∧
  borrows_map (Obligation.with_borrows o (<[i := l']> (o_borrows o)))
    = <[borrow_reserve l := dec (ol_borrowed_amount_wads l')]> (borrows_map o).
Proof.
  intros Ho Hrate Hl Hl'.
  apply liquidity_accrue_Ok in Hl' as (_ & -> & _); [|by eapply Forall_lookup_1, Hl; apply Ho|done].
  split; [done|]. unfold borrows_map.
  apply (keyed_map_insert _ (λ l, dec (ol_borrowed_amount_wads l)) _ _ l); [apply Ho|done..].
Qed.

(** ** A concrete obligation

    Two deposits and one borrow, refreshed in slot 100. *)
Definition sample_obligation : Obligation :=
  mkObligation 1 (mkLastUpdate 100 false) 9 21
    [mkObligationCollateral 31 5000 (Decimal.from_u64 400);
     mkObligationCollateral 32 70 (Decimal.from_u64 600)]
    [mkObligationLiquidity 33 Decimal.one (Decimal.from_u64 300) (Decimal.from_u64 300)]
    (Decimal.from_u64 1000) (Decimal.from_u64 300) (Decimal.from_u64 500) (Decimal.from_u64 550).

Lemma sample_obligation_ok : Obligation_ok sample_obligation.
Proof.
  constructor; try decide_ok.
  - repeat constructor; decide_ok.
  - repeat constructor; decide_ok.
  - apply (bool_decide_unpack _). vm_compute. exact I.
  - apply (bool_decide_unpack _). vm_compute. exact I.
  - vm_compute. repeat constructor.
Qed.

(** ** Properties *)

(** ** The operations keep the invariant *)

Section ops_ok.
Implicit Types o : Obligation.

Lemma deposit_collateral_ok o k n o' :
  Obligation_ok o → is_key k → is_u64 n →
  Obligation.deposit_collateral o k n = Ok o' → Obligation_ok o'.
Proof.
  intros Ho Hk [Hn0 Hn1] H.
  apply deposit_collateral_Ok in H as [(j & c & Hc & _ & ? & ->)|(? & ? & ? & ->)].
  - destruct (Forall_lookup_1 _ _ _ _ (ok_o_deposits o Ho) Hc) as [_ [? _] _].
    apply deposits_insert_ok; [done|done|split; lia].
  - by apply deposits_push_ok.
Qed.

Lemma obligation_withdraw_ok o n i o' :
  Obligation_ok o → 0 ≤ n → Obligation.withdraw o n i = Ok o' → Obligation_ok o'.
Proof.
  intros Ho Hn H. apply obligation_withdraw_Ok in H as (c & Hc & ? & ->).
  destruct (Forall_lookup_1 _ _ _ _ (ok_o_deposits o Ho) Hc) as [_ [_ ?] _].
  destruct (n =? _); [by apply deposits_delete_ok|]. apply deposits_insert_ok; [done|done|split; lia].
Qed.

Lemma borrow_liquidity_ok o k rate d o' :
  Obligation_ok o → is_key k → Decimal_ok rate → 0 ≤ dec d →
  Obligation.borrow_liquidity o k rate d = Ok o' → Obligation_ok o'.
Proof.
  intros Ho Hk Hrate Hd H.
  apply borrow_liquidity_Ok in H as [(j & l & Hl & _ & ? & ->)|(? & ? & ? & ->)].
  - destruct (Forall_lookup_1 _ _ _ _ (ok_o_borrows o Ho) Hl) as [_ ? [? _] _].
    apply borrows_insert_ok; [done..|split; cbn; lia].
  - apply borrows_push_ok; try done.
Qed.

Lemma obligation_repay_ok o d i o' :
  Obligation_ok o → 0 ≤ dec d → Obligation.repay o d i = Ok o' → Obligation_ok o'.
Proof.
  intros Ho Hd H. apply obligation_repay_Ok in H as (l & Hl & ? & ->).
  destruct (Forall_lookup_1 _ _ _ _ (ok_o_borrows o Ho) Hl) as [_ ? [_ ?] _].
  destruct (dec d =? _); [by apply borrows_delete_ok|]. apply borrows_insert_ok; [done..|split; cbn; lia].
Qed.

(** Interest on the entry at an index. *)
Lemma accrue_entry_ok o i l rate l' :
  Obligation_ok o → Decimal_ok rate → o_borrows o !! i = Some l →
  ObligationLiquidity.accrue_interest l rate = Ok l' →
  Obligation_ok (Obligation.with_borrows o (<[i := l']> (o_borrows o))).
Proof.
  intros Ho Hrate Hl Hl'.
  apply liquidity_accrue_Ok in Hl' as (_ & -> & ? & _); [|by eapply Forall_lookup_1, Hl; apply Ho|done].
  by apply borrows_insert_ok.
Qed.

Lemma obligation_mark_stale_ok o : Obligation_ok o → Obligation_ok (Obligation.mark_stale o).
Proof. intros []. by constructor. Qed.

Lemma obligation_update_slot_ok o s :
  Obligation_ok o → is_u64 s → Obligation_ok (Obligation.update_slot o s).
Proof. intros [] ?. by constructor. Qed.

End ops_ok.

(** C24: every operation of an obligation keeps its invariant: deposits and
    borrows stay unique by reserve, there are never more than ten of them, and
    every field keeps its width. *)
Theorem obligation_ops_keep_invariant (o o' : Obligation) (k n : Z) (i : nat) (rate d : Decimal)
    (Ho : Obligation_ok o) (Hk : is_key k) (Hn : is_u64 n) (Hrate : Decimal_ok rate)
    (Hd : Decimal_ok d)
    (H : Obligation.deposit_collateral o k n = Ok o' ∨
         Obligation.withdraw o n i = Ok o' ∨
         Obligation.borrow_liquidity o k rate d = Ok o' ∨
         Obligation.repay o d i = Ok o' ∨
         Obligation.accrue_liquidity_interest o k rate = Ok o') :
  Obligation_ok o'.
Proof.
  destruct H as [H|[H|[H|[H|H]]]].
  - by apply (deposit_collateral_ok o k n).
  - apply (obligation_withdraw_ok o n i); [done|apply Hn|done].
  - apply (borrow_liquidity_ok o k rate d); [done..|apply Hd|done].
  - apply (obligation_repay_ok o d i); [done|apply Hd|done].
  - unfold Obligation.accrue_liquidity_interest in H. apply bind_Ok in H as ([l j] & Hl & H).
    apply find_liquidity_Ok in Hl as [Hl _]. apply bind_Ok in H as (l' & Hl' & [= <-]).
    exact (accrue_entry_ok o j l rate l' Ho Hrate Hl Hl').
Qed.

Lemma obligation_ops_keep_invariant_witness :
  ∃ o', Obligation.withdraw sample_obligation 70 1 = Ok o' ∧ Obligation_ok o'.
Proof.
  eexists. split; [vm_compute; reflexivity|].
  apply (obligation_ops_keep_invariant sample_obligation _ 31 70 1 Decimal.one Decimal.zero);
    [exact sample_obligation_ok | decide_ok | decide_ok | decide_ok | decide_ok |].
  right; left. vm_compute. reflexivity.
Defined.

(** C25: an obligation's vectors implement two finite maps from reserves to
    amounts.  Depositing and borrowing add to the entry of the reserve, created
    on demand; withdrawing and repaying at the index of a lookup take from the
    reserve's entry and remove it when it is used up; each touches one map. *)
Theorem obligation_refines_maps (o o' : Obligation) (k n : Z) (rate d : Decimal)
    (Ho : Obligation_ok o) :
  (Obligation.deposit_collateral o k n = Ok o' →
     deposits_map o' = map_add k n (deposits_map o) ∧ borrows_map o' = borrows_map o) ∧
  (Obligation.borrow_liquidity o k rate d = Ok o' →
     borrows_map o' = map_add k (dec d) (borrows_map o) ∧ deposits_map o' = deposits_map o) ∧
  (∀ c i, Obligation.find_collateral_in_deposits o k = Ok (c, i) →
     Obligation.withdraw o n i = Ok o' →
     deposits_map o !! k = Some (deposited_amount c) ∧ n ≤ deposited_amount c ∧
     deposits_map o' = map_take k n (deposits_map o) ∧ borrows_map o' = borrows_map o) ∧
  (∀ l i, Obligation.find_liquidity_in_borrows o k = Ok (l, i) →
     Obligation.repay o d i = Ok o' →
     borrows_map o !! k = Some (dec (ol_borrowed_amount_wads l)) ∧
     dec d ≤ dec (ol_borrowed_amount_wads l) ∧
     borrows_map o' = map_take k (dec d) (borrows_map o) ∧ deposits_map o' = deposits_map o).
Proof.
  split_and!; intros *; [by apply deposit_collateral_map|by apply borrow_liquidity_map| |].
  - intros [Hc <-]%find_collateral_Ok. by apply obligation_withdraw_map.
  - intros [Hl <-]%find_liquidity_Ok. by apply obligation_repay_map.
Qed.

Lemma obligation_refines_maps_witness :
  ∃ o', Obligation.withdraw sample_obligation 20 1 = Ok o' ∧
    deposits_map o' = map_take 32 20 (deposits_map sample_obligation).
Proof.
  destruct (Obligation.withdraw sample_obligation 20 1) as [o'| |] eqn:E; [|vm_compute in E; discriminate E..].
  exists o'. split; [reflexivity|].
  destruct (obligation_refines_maps sample_obligation o' 32 20 Decimal.one Decimal.one
              sample_obligation_ok) as (_ & _ & Hw & _).
  apply (Hw (mkObligationCollateral 32 70 (Decimal.from_u64 600)) 1%nat);
    [vm_compute; reflexivity | exact E].
Defined.

(** A borrow's debt follows the reserve's cumulative rate: it never falls,
    it never grows by more than the rate did, and a rate below the recorded one
    is refused as a negative interest rate. *)
Theorem obligation_interest_follows_rate (l l' : ObligationLiquidity) (rate : Decimal)
    (Hl : ObligationLiquidity_ok l) (Hr : Decimal_ok rate) :
  (dec rate < dec (ol_cumulative_borrow_rate_wads l) →
     ObligationLiquidity.accrue_interest l rate = fail NegativeInterestRate) ∧
  (ObligationLiquidity.accrue_interest l rate = Ok l' →
     ObligationLiquidity_ok l' ∧ borrow_reserve l' = borrow_reserve l ∧
     ol_cumulative_borrow_rate_wads l' = rate ∧
     dec (ol_borrowed_amount_wads l) ≤ dec (ol_borrowed_amount_wads l') ∧
     dec (ol_borrowed_amount_wads l') * dec (ol_cumulative_borrow_rate_wads l)
       ≤ dec (ol_borrowed_amount_wads l) * dec rate).
Proof.
  split; [apply liquidity_accrue_negative|]. intros H.
  apply liquidity_accrue_Ok in H as (_ & E & ? & ? & ?); [|done..]. rewrite E.
  cbn [ol_borrowed_amount_wads borrow_reserve ol_cumulative_borrow_rate_wads ObligationLiquidity.with_debt].
  destruct Hl. by repeat (split; [done || constructor; done|]).
Qed.

Lemma obligation_interest_follows_rate_witness :
  ObligationLiquidity.accrue_interest
    (mkObligationLiquidity 33 Decimal.one (Decimal.from_u64 300) Decimal.zero)
    (Decimal.from_percent 90) = fail NegativeInterestRate.
Proof.
  apply (obligation_interest_follows_rate
           (mkObligationLiquidity 33 Decimal.one (Decimal.from_u64 300) Decimal.zero)
           (mkObligationLiquidity 33 Decimal.one Decimal.zero Decimal.zero) (Decimal.from_percent 90)).
  - constructor; decide_ok.
  - decide_ok.
  - decide_ok.
Defined.

(** Withdrawing collateral of at most the computed value keeps the debt
    allowed: the loan-to-value share of the withdrawn value fits in the room
    between the debt and the allowance.  An obligation at its limit can withdraw
    nothing, and collateral that supports no borrowing can be withdrawn whole. *)
Theorem max_withdraw_keeps_allowed (o : Obligation) (ltv : Rate) (v : Decimal) (w : Z)
    (Hltv : Rate_ok ltv) (H : Obligation.max_withdraw_value o ltv = Ok v)
    (Hw : 0 ≤ w ≤ dec v) (Hallowed : dec (o_borrowed_value o) < dec (o_allowed_borrow_value o)) :
  dec (o_borrowed_value o) * WAD ≤ dec (o_allowed_borrow_value o) * WAD - w * rat ltv ∧
  (rat ltv = 0 → v = o_deposited_value o).
Proof.
  destruct Hltv as [Hl0 _]. destruct (max_withdraw_value_Ok o ltv v Hl0 H) as (_ & Hz & Hp).
  split; [|by apply Hz].
  destruct (decide (rat ltv = 0)) as [->|]; [unfold WAD; lia|].
  specialize (Hp Hallowed ltac:(lia)). assert (w * rat ltv ≤ dec v * rat ltv) by nia. lia.
Qed.

Lemma max_withdraw_keeps_allowed_witness :
  Obligation.max_withdraw_value sample_obligation (Rate.from_percent 50) = Ok (Decimal.from_u64 400) ∧
  dec (o_borrowed_value sample_obligation) * WAD
    ≤ dec (o_allowed_borrow_value sample_obligation) * WAD - 400 * WAD * rat (Rate.from_percent 50).
Proof.
  split; [vm_compute; reflexivity|].
  apply (max_withdraw_keeps_allowed sample_obligation (Rate.from_percent 50) (Decimal.from_u64 400)
           (400 * WAD)); [decide_ok | decide_ok | decide_ok | decide_ok].
Defined.
