(* ===== verification/Liquidation.v ===== *)
(** * Liquidation amounts

    [Reserve::calculate_liquidation] of
    [token-lending/program/src/state/reserve.rs]: how much of a debt one
    liquidation settles, what the liquidator pays and what collateral is seized. *)

From S2P Require Import Prelude Errors FixedPoint StateBase Reserve ReserveFacts LoanFacts.
From S2P Require Import Obligation ObligationFacts.

Record CalculateLiquidationResult : Type := mkCalculateLiquidationResult {
  cl_settle_amount : Decimal;
  cl_repay_amount : Z;
  cl_withdraw_amount : Z;
}.

Module Liquidation.

(** The [match liquidation_value.cmp(&collateral.market_value)] of a debt that
    is closed out whole: [settle_amount] is fixed. *)
Definition close_out (max_amount settle_amount liquidation_value : Decimal)
    (collateral : ObligationCollateral) : outcome CalculateLiquidationResult :=
  match dec liquidation_value ?= dec (oc_market_value collateral) with
  | Gt =>
      repay_pct ← try_div (oc_market_value collateral) liquidation_value;
      paid ← try_mul max_amount repay_pct;
      repay_amount ← Decimal.try_ceil_u64 paid;
      mret (mkCalculateLiquidationResult settle_amount repay_amount (deposited_amount collateral))
  | Eq =>
      repay_amount ← Decimal.try_ceil_u64 max_amount;
      mret (mkCalculateLiquidationResult settle_amount repay_amount (deposited_amount collateral))
  | Lt =>
      withdraw_pct ← try_div liquidation_value (oc_market_value collateral);
      repay_amount ← Decimal.try_ceil_u64 max_amount;
      withdrawn ← try_mul (Decimal.from_u64 (deposited_amount collateral)) withdraw_pct;
      withdraw_amount ← Decimal.try_floor_u64 withdrawn;
      mret (mkCalculateLiquidationResult settle_amount repay_amount withdraw_amount)
  end.

(** The same [match] of a partial liquidation: [settle_amount] follows. *)
Definition partial (liquidation_amount liquidation_value : Decimal)
    (collateral : ObligationCollateral) : outcome CalculateLiquidationResult :=
  match dec liquidation_value ?= dec (oc_market_value collateral) with
  | Gt =>
      repay_pct ← try_div (oc_market_value collateral) liquidation_value;
      settle_amount ← try_mul liquidation_amount repay_pct;
      repay_amount ← Decimal.try_ceil_u64 settle_amount;
      mret (mkCalculateLiquidationResult settle_amount repay_amount (deposited_amount collateral))
  | Eq =>
      repay_amount ← Decimal.try_ceil_u64 liquidation_amount;
      mret (mkCalculateLiquidationResult liquidation_amount repay_amount
              (deposited_amount collateral))
  | Lt =>
      withdraw_pct ← try_div liquidation_value (oc_market_value collateral);
      repay_amount ← Decimal.try_ceil_u64 liquidation_amount;
      withdrawn ← try_mul (Decimal.from_u64 (deposited_amount collateral)) withdraw_pct;
      withdraw_amount ← Decimal.try_floor_u64 withdrawn;
      mret (mkCalculateLiquidationResult liquidation_amount repay_amount withdraw_amount)
  end.

Definition max_amount (amount_to_liquidate : Z) (liquidity : ObligationLiquidity) : Decimal :=
  if amount_to_liquidate =? u64_MAX then ol_borrowed_amount_wads liquidity
  else Decimal.min (Decimal.from_u64 amount_to_liquidate) (ol_borrowed_amount_wads liquidity).

Definition calculate_liquidation (self : Reserve) (amount_to_liquidate : Z)
    (obligation : Obligation) (liquidity : ObligationLiquidity)
    (collateral : ObligationCollateral) : outcome CalculateLiquidationResult :=
  bonus_rate ← try_add (Rate.from_percent (liquidation_bonus (r_config self))) Rate.one;
  let max_amount := max_amount amount_to_liquidate liquidity in
  if Decimal.ltb (ol_borrowed_amount_wads liquidity) (Decimal.from_u64 LIQUIDATION_CLOSE_AMOUNT) then
    liquidation_value ← try_mul (ol_market_value liquidity) bonus_rate;
    close_out max_amount (ol_borrowed_amount_wads liquidity) liquidation_value collateral
  else
    allowed ← Obligation.max_liquidation_amount obligation liquidity;
    let liquidation_amount := Decimal.min allowed max_amount in
    liquidation_pct ← try_div liquidation_amount (ol_borrowed_amount_wads liquidity);
    settled_value ← try_mul (ol_market_value liquidity) liquidation_pct;
    liquidation_value ← try_mul settled_value bonus_rate;
    partial liquidation_amount liquidation_value collateral.

End Liquidation.

(** ** Bounds *)

Lemma max_amount_bounds n l :
  0 ≤ n → 0 ≤ dec (ol_borrowed_amount_wads l) →
  0 ≤ dec (Liquidation.max_amount n l) ≤ dec (ol_borrowed_amount_wads l) ∧
  (n ≠ u64_MAX → dec (Liquidation.max_amount n l) ≤ WAD * n).
Proof.
  intros Hn Hb. unfold Liquidation.max_amount. destruct (Z.eqb_spec n u64_MAX); [split; [lia|done]|].
  rewrite Decimal_min_dec. fp_simpl. unfold WAD in *. split; [lia|]. intros _. lia.
Qed.

(** A value above another's: the quotient of the lesser by the greater is at
    most one, in wads. *)
Lemma ratio_le_one a b : 0 ≤ a → a < b → 0 ≤ a * WAD / b ≤ WAD.
Proof.
  intros. split; [apply Z.div_pos; unfold WAD; lia|]. apply div_le_upper; [lia|]. unfold WAD. lia.
Qed.

Lemma share_le x p : 0 ≤ x → 0 ≤ p ≤ WAD → 0 ≤ x * p / WAD ≤ x.
Proof.
  intros. split; [apply Z.div_pos; [nia|done]|]. apply div_le_upper; [done|]. nia.
Qed.

(** The share of a deposit that is seized is worth at most the liquidation's
    value. *)
Lemma seized_value dep value cmv :
  0 ≤ dep → 0 ≤ value → value < cmv →
  0 ≤ WAD * dep * (value * WAD / cmv) / WAD / WAD ≤ dep ∧
  WAD * dep * (value * WAD / cmv) / WAD / WAD * cmv ≤ dep * value.
Proof.
  intros Hd Hv Hlt. pose proof (ratio_le_one value cmv Hv Hlt) as Hp.
  pose proof (mul_div_le value WAD cmv ltac:(lia)) as Hpm. set (p := value * WAD / cmv) in *.
  rewrite <- Z.mul_assoc, (Z.mul_comm WAD (dep * p)), Z.div_mul by done.
  split; [by apply share_le|]. pose proof (floor_wad (dep * p)) as Hf. set (w := dep * p / WAD) in *.
  assert (WAD * w * cmv ≤ dep * (p * cmv)) by nia.
  assert (dep * (p * cmv) ≤ dep * (value * WAD)) by (apply Z.mul_le_mono_nonneg_l; lia).
  unfold WAD in *. nia.
Qed.

(** What both branches guarantee of their result, for an amount [x] that the
    liquidator may settle and the value [v] the seizure may reach. *)
Definition seizure_ok (x v : Z) (collateral : ObligationCollateral)
    (res : CalculateLiquidationResult) : Prop :=
  0 ≤ cl_repay_amount res ≤ (WAD - 1 + x) / WAD ∧
  0 ≤ cl_withdraw_amount res ≤ deposited_amount collateral ∧
  cl_withdraw_amount res * dec (oc_market_value collateral) ≤ deposited_amount collateral * v.

Lemma ceil_wad_mono a b : a ≤ b → (WAD - 1 + a) / WAD ≤ (WAD - 1 + b) / WAD.
Proof. intros. apply Z.div_le_mono; [done|lia]. Qed.

Lemma ceil_wad_nonneg a : 0 ≤ a → 0 ≤ (WAD - 1 + a) / WAD.
Proof. intros. apply Z.div_pos; unfold WAD; lia. Qed.

Lemma close_out_Ok x settle v c res :
  0 ≤ dec x → 0 ≤ dec v → ObligationCollateral_ok c →
  Liquidation.close_out x settle v c = Ok res →
  cl_settle_amount res = settle ∧ seizure_ok (dec x) (dec v) c res.
Proof.
  intros Hx Hv [_ [Hd _] [Hm _]] H. unfold Liquidation.close_out in H. unfold seizure_ok.
  destruct (Z.compare_spec (dec v) (dec (oc_market_value c))) as [E|E|E]; inv_fp; cbn; (split; [done|]).
  - split; [split; [by apply ceil_wad_nonneg|done]|]. split; [done|]. rewrite E. lia.
  - split; [split; [by apply ceil_wad_nonneg|done]|].
    by apply seized_value.
  - pose proof (share_le (dec x) _ Hx (ratio_le_one _ _ Hm E)).
    split; [split; [apply ceil_wad_nonneg; lia|apply ceil_wad_mono; lia]|]. split; [done|]. nia.
Qed.

Lemma partial_Ok x v c res :
  0 ≤ dec x → 0 ≤ dec v → ObligationCollateral_ok c →
  Liquidation.partial x v c = Ok res →
  0 ≤ dec (cl_settle_amount res) ≤ dec x ∧
  cl_repay_amount res = (WAD - 1 + dec (cl_settle_amount res)) / WAD ∧
  seizure_ok (dec x) (dec v) c res.
Proof.
  intros Hx Hv [_ [Hd _] [Hm _]] H. unfold Liquidation.partial in H. unfold seizure_ok.
  destruct (Z.compare_spec (dec v) (dec (oc_market_value c))) as [E|E|E]; inv_fp; cbn.
  - split; [done|]. split; [done|]. split; [split; [by apply ceil_wad_nonneg|done]|].
    split; [done|]. rewrite E. lia.
  - split; [done|]. split; [done|]. split; [split; [by apply ceil_wad_nonneg|done]|].
    by apply seized_value.
  - pose proof (share_le (dec x) _ Hx (ratio_le_one _ _ Hm E)).
    split; [done|]. split; [done|].
    split; [split; [apply ceil_wad_nonneg; lia|apply ceil_wad_mono; lia]|]. split; [done|]. nia.
Qed.

Lemma Decimal_mul_rate_le a r : 0 ≤ a → 0 ≤ r → 0 ≤ a * r / WAD ∧ WAD * (a * r / WAD) ≤ a * r.
Proof. intros. pose proof (floor_wad (a * r)). split; [apply Z.div_pos; [nia|done]|lia]. Qed.

Definition bonus_wads (r : Reserve) : Z := liquidation_bonus (r_config r) * PERCENT_SCALER + WAD.

Lemma calculate_liquidation_Ok r n o l c res :
  Reserve_ok r → is_u64 n → 0 ≤ dec (o_borrowed_value o) →
  ObligationLiquidity_ok l → ObligationCollateral_ok c →
  Liquidation.calculate_liquidation r n o l c = Ok res →
  let debt := dec (ol_borrowed_amount_wads l) in
  0 ≤ dec (cl_settle_amount res) ≤ debt ∧
  (∃ x v, 0 ≤ x ≤ debt ∧ (n ≠ u64_MAX → x ≤ WAD * n) ∧ seizure_ok x v c res ∧
     WAD * v ≤ dec (ol_market_value l) * bonus_wads r) ∧
  (debt < WAD * LIQUIDATION_CLOSE_AMOUNT → cl_settle_amount res = ol_borrowed_amount_wads l) ∧
  (WAD * LIQUIDATION_CLOSE_AMOUNT ≤ debt →
     cl_repay_amount res = (WAD - 1 + dec (cl_settle_amount res)) / WAD ∧
     ∃ allowed, Obligation.max_liquidation_amount o l = Ok allowed ∧
       dec (cl_settle_amount res) ≤ dec allowed).
Proof.
  intros Hr [Hn _] Hbv Hl Hc H. cbv zeta. unfold Liquidation.calculate_liquidation in H.
  destruct (ok_ol_borrowed l Hl) as [Hb0 _]. destruct (ok_ol_market_value l Hl) as [Hm0 _].
  destruct (ok_liquidation_bonus _ (ok_r_config r Hr)) as [Hbonus _].
  pose proof (max_amount_bounds n l Hn Hb0) as [Hx Hxn].
  apply bind_Ok in H as (bonus & Hbr & H). apply Rate_add_Ok in Hbr as [-> _]. fp_simpl.
  fold (bonus_wads r) in H. assert (Hbp : WAD ≤ bonus_wads r) by (unfold bonus_wads, PERCENT_SCALER, WAD; lia).
  unfold Decimal.ltb in H. fp_simpl.
  destruct (Z.ltb_spec (dec (ol_borrowed_amount_wads l)) (WAD * LIQUIDATION_CLOSE_AMOUNT)) as [Hs|Hs].
  - apply bind_Ok in H as (v & Hv & H). apply Decimal_mul_rate_Ok in Hv as [-> _]. fp_simpl.
    destruct (Decimal_mul_rate_le (dec (ol_market_value l)) (bonus_wads r)) as [Hv0 Hv1];
      [done|unfold WAD in *; lia|].
    apply close_out_Ok in H as [-> Hsz]; [|apply Hx|done|done]. cbn [dec] in Hsz.
    split; [lia|]. split; [|split; [done|lia]]. eexists _, _. split; [exact Hx|]. split; [exact Hxn|].
    split; [exact Hsz|done].
  - apply bind_Ok in H as (allowed & Ha & H).
    destruct (max_liquidation_amount_Ok o l allowed Hbv Hb0 Hm0 Ha) as [Ha0 _].
    apply bind_Ok in H as (pct & Hpct & H). apply Decimal_div_Ok in Hpct as (-> & Hne & _).
    apply bind_Ok in H as (sv & Hsv & H). apply Decimal_mul_Ok in Hsv as [-> _].
    apply bind_Ok in H as (v & Hv & H). apply Decimal_mul_rate_Ok in Hv as [-> _].
    cbn [dec rat] in *. rewrite Decimal_min_dec in H.
    set (x := Z.min (dec allowed) (dec (Liquidation.max_amount n l))) in *.
    assert (Hxx : 0 ≤ x ≤ dec (ol_borrowed_amount_wads l)) by lia.
    assert (Hp : 0 ≤ x * WAD / dec (ol_borrowed_amount_wads l) ≤ WAD).
    { split; [apply Z.div_pos; unfold WAD; lia|]. apply div_le_upper; unfold WAD; lia. }
    pose proof (share_le (dec (ol_market_value l)) _ Hm0 Hp) as Hsv.
    set (sv := dec (ol_market_value l) * _ / WAD) in *.
    destruct (Decimal_mul_rate_le sv (bonus_wads r)) as [Hv0 Hv1]; [lia|unfold WAD in *; lia|].
    apply partial_Ok in H as (Hset & Hrep & Hsz); [|rewrite Decimal_min_dec; lia|done|done].
    rewrite Decimal_min_dec in *. fold x in Hset, Hsz. cbn [dec] in Hsz.
    split; [lia|]. split; [|split; [lia|]].
    + eexists x, _. split; [exact Hxx|]. split; [intros Hne'; specialize (Hxn Hne'); lia|].
      split; [exact Hsz|]. unfold WAD in *. nia.
    + intros _. split; [done|]. exists allowed. split; [done|lia].
Qed.

(** ** Properties *)

(** What a liquidation may take.  It settles no more than the debt, and a
    debt of two tokens or more no more than the close factor allows; the
    liquidator pays at most what was offered and the settled amount rounded up;
    the seized collateral is within the deposit, and worth at most the debt's
    value plus the bonus; a smaller debt is settled whole. *)
Theorem liquidation_bounds (r : Reserve) (n : Z) (o : Obligation) (l : ObligationLiquidity)
    (c : ObligationCollateral) (res : CalculateLiquidationResult)
    (Hr : Reserve_ok r) (Hn : is_u64 n) (Ho : Obligation_ok o)
    (Hl : ObligationLiquidity_ok l) (Hc : ObligationCollateral_ok c)
    (H : Liquidation.calculate_liquidation r n o l c = Ok res) :
  let debt := dec (ol_borrowed_amount_wads l) in
  0 ≤ dec (cl_settle_amount res) ≤ debt ∧
  0 ≤ cl_withdraw_amount res ≤ deposited_amount c ∧
  0 ≤ cl_repay_amount res ∧ (n ≠ u64_MAX → cl_repay_amount res ≤ n) ∧
  WAD * cl_repay_amount res < debt + WAD ∧
  WAD * (cl_withdraw_amount res * dec (oc_market_value c))
    ≤ deposited_amount c * (dec (ol_market_value l) * bonus_wads r) ∧
  (debt < WAD * LIQUIDATION_CLOSE_AMOUNT → cl_settle_amount res = ol_borrowed_amount_wads l) ∧
  (WAD * LIQUIDATION_CLOSE_AMOUNT ≤ debt →
     dec (cl_settle_amount res) * dec (ol_market_value l)
       ≤ debt * (dec (o_borrowed_value o) * (LIQUIDATION_CLOSE_FACTOR * PERCENT_SCALER) / WAD)).
Proof.
  destruct (ok_o_borrowed_value o Ho) as [Hbv _]. destruct (ok_ol_borrowed l Hl) as [Hb0 _].
  destruct (ok_ol_market_value l Hl) as [Hm0 _]. destruct (ok_deposited_amount c Hc) as [Hd0 _].
  destruct (calculate_liquidation_Ok r n o l c res Hr Hn Hbv Hl Hc H)
    as (Hs & (x & v & Hx & Hxn & (Hrep & Hw & Hwv) & Hv) & Hsmall & Hlarge). cbv zeta in *.
  pose proof (ceil_wad_bounds x). split; [done|]. split; [done|]. split; [lia|].
  split; [intros Hne; pose proof (ceil_wad_le x n (Hxn Hne)); lia|].
  split; [unfold WAD in *; lia|]. split; [unfold WAD in *; nia|]. split; [done|].
  intros Hge. destruct (Hlarge Hge) as [_ (allowed & Ha & Hle)].
  destruct (max_liquidation_amount_Ok o l allowed Hbv Hb0 Hm0 Ha) as [_ Hcf]. nia.
Qed.

Lemma liquidation_bounds_witness :
  ∃ res, Liquidation.calculate_liquidation sample_reserve 1000 sample_obligation
           (mkObligationLiquidity 33 Decimal.one (Decimal.from_u64 300) (Decimal.from_u64 300))
           (mkObligationCollateral 31 5000 (Decimal.from_u64 400)) = Ok res ∧
    cl_repay_amount res = 3 ∧ cl_withdraw_amount res = 39 ∧ 39 ≤ 5000.
Proof.
  eexists. split; [vm_compute; reflexivity|]. split; [reflexivity|]. split; [reflexivity|].
  destruct (liquidation_bounds sample_reserve 1000 sample_obligation
     (mkObligationLiquidity 33 Decimal.one (Decimal.from_u64 300) (Decimal.from_u64 300))
     (mkObligationCollateral 31 5000 (Decimal.from_u64 400))
     (mkCalculateLiquidationResult (Decimal.from_u64 3) 3 39)) as (_ & [_ Hw] & _).
  - exact sample_reserve_ok.
  - decide_ok.
  - exact sample_obligation_ok.
  - constructor; decide_ok.
  - constructor; decide_ok.
  - vm_compute. reflexivity.
  - exact Hw.
Defined.

(** The amounts of a liquidation can always be booked: repaying the settled
    amount and withdrawing the seized amount at the looked-up entries both
    succeed on the obligation. *)
Theorem liquidation_amounts_bookable (r : Reserve) (n kb kc : Z) (o : Obligation)
    (l : ObligationLiquidity) (c : ObligationCollateral) (i j : nat)
    (res : CalculateLiquidationResult)
    (Hr : Reserve_ok r) (Hn : is_u64 n) (Ho : Obligation_ok o)
    (Hl : Obligation.find_liquidity_in_borrows o kb = Ok (l, i))
    (Hc : Obligation.find_collateral_in_deposits o kc = Ok (c, j))
    (H : Liquidation.calculate_liquidation r n o l c = Ok res) :
  ∃ o1 o2, Obligation.repay o (cl_settle_amount res) i = Ok o1 ∧
    Obligation.withdraw o1 (cl_withdraw_amount res) j = Ok o2.
Proof.
  apply find_liquidity_Ok in Hl as [Hl _]. apply find_collateral_Ok in Hc as [Hc _].
  pose proof (Forall_lookup_1 _ _ _ _ (ok_o_borrows o Ho) Hl) as Hlok.
  pose proof (Forall_lookup_1 _ _ _ _ (ok_o_deposits o Ho) Hc) as Hcok.
  destruct (calculate_liquidation_Ok r n o l c res Hr Hn (proj1 (ok_o_borrowed_value o Ho)) Hlok Hcok H)
    as (Hs & (x & v & _ & _ & (_ & Hw & _) & _) & _ & _).
  assert (Hrepay : ∃ o1, Obligation.repay o (cl_settle_amount res) i = Ok o1 ∧
             o_deposits o1 = o_deposits o).
  { unfold Obligation.repay, ObligationLiquidity.repay. rewrite Hl. cbn [unwrap mbind result_bind].
    destruct (Decimal.eqb _ _); [by eexists|].
    rewrite (proj2 (Decimal_sub_Ok _ _ _) (conj eq_refl (proj2 Hs))). by eexists. }
  destruct Hrepay as (o1 & Ho1 & E). exists o1.
  assert (Hd : ∃ o2, Obligation.withdraw o1 (cl_withdraw_amount res) j = Ok o2).
  { unfold Obligation.withdraw, ObligationCollateral.withdraw. rewrite E, Hc.
    cbn [unwrap mbind result_bind]. destruct (_ =? _); [by eexists|].
    rewrite (proj2 (checked_sub_Some _ _ _) (conj eq_refl (proj2 Hw))). by eexists. }
  destruct Hd as [o2 ?]. by exists o2.
Qed.

Lemma liquidation_amounts_bookable_witness :
  ∃ o1 o2, Obligation.repay sample_obligation (Decimal.from_u64 3) 0 = Ok o1 ∧
    Obligation.withdraw o1 39 0 = Ok o2.
Proof.
  apply (liquidation_amounts_bookable sample_reserve 1000 33 31 sample_obligation
     (mkObligationLiquidity 33 Decimal.one (Decimal.from_u64 300) (Decimal.from_u64 300))
     (mkObligationCollateral 31 5000 (Decimal.from_u64 400)) 0 0
     (mkCalculateLiquidationResult (Decimal.from_u64 3) 3 39)).
  - exact sample_reserve_ok.
  - decide_ok.
  - exact sample_obligation_ok.
  - vm_compute. reflexivity.
  - vm_compute. reflexivity.
  - vm_compute. reflexivity.
Defined.
