(* ===== verification/Codec.v ===== *)
(** * Account layouts of reserves and obligations

    The [impl Pack] blocks of [state/reserve.rs] (619 bytes) and
    [state/obligation.rs] (1300 bytes). *)

From S2P Require Import Prelude Errors FixedPoint StateBase Reserve ReserveFacts Obligation.
From S2P Require Import ObligationFacts.

(** ** Reserve *)

Module ReserveCodec.

Definition RESERVE_LEN : nat := 619.

Definition layout : list nat :=
  [1; 8; 1; PUBKEY_BYTES; PUBKEY_BYTES; 1; PUBKEY_BYTES; PUBKEY_BYTES; PUBKEY_BYTES; 8; 16; 16; 16;
   PUBKEY_BYTES; 8; PUBKEY_BYTES; 1; 1; 1; 1; 1; 1; 1; 8; 8; 1; 8; 8; PUBKEY_BYTES; 1; 1; 16; 230]%nat.

(** The segments in the order of the layout; the last is the padding. *)
Definition segments (self : Reserve) (padding : list Z) : list (list Z) :=
  let liquidity := r_liquidity self in
  let collateral := r_collateral self in
  let config := r_config self in
  [le_bytes 1 (r_version self);
   le_bytes 8 (slot (r_last_update self));
   pack_bool (stale (r_last_update self));
   le_bytes 32 (r_lending_market self);
   le_bytes 32 (rl_mint_pubkey liquidity);
   le_bytes 1 (rl_mint_decimals liquidity);
   le_bytes 32 (rl_supply_pubkey liquidity);
   le_bytes 32 (rl_pyth_oracle_pubkey liquidity);
   le_bytes 32 (rl_switchboard_oracle_pubkey liquidity);
   le_bytes 8 (rl_available_amount liquidity);
   le_bytes 16 (dec (rl_borrowed_amount_wads liquidity));
   le_bytes 16 (dec (rl_cumulative_borrow_rate_wads liquidity));
   le_bytes 16 (dec (rl_market_price liquidity));
   le_bytes 32 (rc_mint_pubkey collateral);
   le_bytes 8 (rc_mint_total_supply collateral);
   le_bytes 32 (rc_supply_pubkey collateral);
   le_bytes 1 (optimal_utilization_rate config);
   le_bytes 1 (loan_to_value_ratio config);
   le_bytes 1 (liquidation_bonus config);
   le_bytes 1 (liquidation_threshold config);
   le_bytes 1 (min_borrow_rate config);
   le_bytes 1 (optimal_borrow_rate config);
   le_bytes 1 (max_borrow_rate config);
   le_bytes 8 (borrow_fee_wad (fees config));
   le_bytes 8 (flash_loan_fee_wad (fees config));
   le_bytes 1 (host_fee_percentage (fees config));
   le_bytes 8 (deposit_limit config);
   le_bytes 8 (borrow_limit config);
   le_bytes 32 (fee_receiver config);
   le_bytes 1 (protocol_liquidation_fee config);
   le_bytes 1 (protocol_take_rate config);
   le_bytes 16 (dec (rl_accumulated_protocol_fees_wads liquidity));
   padding].

(** [pack_decimal] of the four decimals can panic; what it writes is part of
    [segments]. *)
Definition pack_into_slice (self : Reserve) (output : list Z) : outcome (list Z) :=
  if (length output <? RESERVE_LEN)%nat then Panic
  else
    pack_decimal (rl_borrowed_amount_wads (r_liquidity self));;
    pack_decimal (rl_cumulative_borrow_rate_wads (r_liquidity self));;
    pack_decimal (rl_accumulated_protocol_fees_wads (r_liquidity self));;
    pack_decimal (rl_market_price (r_liquidity self));;
    mret (concat (segments self (seg 32 (array_refs layout output))) ++ drop RESERVE_LEN output).

Definition unpack_from_slice (input : list Z) : outcome Reserve :=
  if (length input <? RESERVE_LEN)%nat then Panic
  else
    let segs := array_refs layout input in
    let num i := of_le_bytes (seg i segs) in
    let version := num 0%nat in
    if version >? PROGRAM_VERSION then Err InvalidAccountData
    else
      stale ← unpack_bool (seg 2 segs);
      mret {|
        r_version := version;
        r_last_update := mkLastUpdate (num 1%nat) stale;
        r_lending_market := num 3%nat;
        r_liquidity := {|
          rl_mint_pubkey := num 4%nat;
          rl_mint_decimals := num 5%nat;
          rl_supply_pubkey := num 6%nat;
          rl_pyth_oracle_pubkey := num 7%nat;
          rl_switchboard_oracle_pubkey := num 8%nat;
          rl_available_amount := num 9%nat;
          rl_borrowed_amount_wads := unpack_decimal (seg 10 segs);
          rl_cumulative_borrow_rate_wads := unpack_decimal (seg 11 segs);
          rl_accumulated_protocol_fees_wads := unpack_decimal (seg 31 segs);
          rl_market_price := unpack_decimal (seg 12 segs);
        |};
        r_collateral := {|
          rc_mint_pubkey := num 13%nat;
          rc_mint_total_supply := num 14%nat;
          rc_supply_pubkey := num 15%nat;
        |};
        r_config := {|
          optimal_utilization_rate := num 16%nat;
          loan_to_value_ratio := num 17%nat;
          liquidation_bonus := num 18%nat;
          liquidation_threshold := num 19%nat;
          min_borrow_rate := num 20%nat;
          optimal_borrow_rate := num 21%nat;
          max_borrow_rate := num 22%nat;
          fees := {|
            borrow_fee_wad := num 23%nat;
            flash_loan_fee_wad := num 24%nat;
            host_fee_percentage := num 25%nat;
          |};
          deposit_limit := num 26%nat;
          borrow_limit := num 27%nat;
          fee_receiver := num 28%nat;
          protocol_liquidation_fee := num 29%nat;
          protocol_take_rate := num 30%nat;
        |};
      |}.

End ReserveCodec.

#[export] Instance Reserve_Pack : Pack Reserve := {|
  LEN := ReserveCodec.RESERVE_LEN;
  pack_into_slice := ReserveCodec.pack_into_slice;
  unpack_from_slice := ReserveCodec.unpack_from_slice;
|}.

(** ** Obligation *)

Module ObligationCodec.

Definition OBLIGATION_COLLATERAL_LEN : nat := 88.
Definition OBLIGATION_LIQUIDITY_LEN : nat := 112.
Definition OBLIGATION_LEN : nat := 1300.

(** [OBLIGATION_COLLATERAL_LEN + (OBLIGATION_LIQUIDITY_LEN * (MAX_OBLIGATION_RESERVES - 1))] *)
Definition DATA_FLAT_LEN : nat := 1096.

Definition layout : list nat :=
  [1; 8; 1; PUBKEY_BYTES; PUBKEY_BYTES; 16; 16; 16; 16; 64; 1; 1; DATA_FLAT_LEN]%nat.
Definition deposit_layout : list nat := [PUBKEY_BYTES; 8; 16; 32]%nat.
Definition borrow_layout : list nat := [PUBKEY_BYTES; 16; 16; 16; 32]%nat.

(** One deposit, over the 88 bytes at the offset. *)
Definition pack_deposit (collateral : ObligationCollateral) (flat : list Z) : outcome (list Z) :=
  if (length flat <? OBLIGATION_COLLATERAL_LEN)%nat then Panic
  else
    market_value ← pack_decimal (oc_market_value collateral);
    mret (concat [le_bytes 32 (deposit_reserve collateral);
                  le_bytes 8 (deposited_amount collateral);
                  market_value;
                  seg 3 (array_refs deposit_layout flat)]).

(** One borrow, over the 112 bytes at the offset. *)
Definition pack_borrow (liquidity : ObligationLiquidity) (flat : list Z) : outcome (list Z) :=
  if (length flat <? OBLIGATION_LIQUIDITY_LEN)%nat then Panic
  else
    cumulative ← pack_decimal (ol_cumulative_borrow_rate_wads liquidity);
    borrowed ← pack_decimal (ol_borrowed_amount_wads liquidity);
    market_value ← pack_decimal (ol_market_value liquidity);
    mret (concat [le_bytes 32 (borrow_reserve liquidity); cumulative; borrowed; market_value;
                  seg 4 (array_refs borrow_layout flat)]).

(** A loop of fixed-size entries: each writes at the offset, which then
    advances by the entry's size.  Returns the bytes written and the rest. *)
Fixpoint pack_entries {A} (pack_one : A → list Z → outcome (list Z)) (size : nat) (l : list A)
    (flat : list Z) : outcome (list Z * list Z) :=
  match l with
  | [] => mret ([], flat)
  | a :: l =>
      entry ← pack_one a flat;
      '(entries, rest) ← pack_entries pack_one size l (drop size flat);
      mret (entry ++ entries, rest)
  end.

(** [u8::try_from(len).unwrap()] *)
Definition len_u8 (n : nat) : outcome (list Z) :=
  len ← unwrap (narrow 8 (Z.of_nat n));
  mret (le_bytes 1 len).

Definition pack_into_slice (self : Obligation) (dst : list Z) : outcome (list Z) :=
  if (length dst <? OBLIGATION_LEN)%nat then Panic
  else
    let segs := array_refs layout dst in
    deposited_value ← pack_decimal (o_deposited_value self);
    borrowed_value ← pack_decimal (o_borrowed_value self);
    allowed_borrow_value ← pack_decimal (o_allowed_borrow_value self);
    unhealthy_borrow_value ← pack_decimal (o_unhealthy_borrow_value self);
    deposits_len ← len_u8 (length (o_deposits self));
    borrows_len ← len_u8 (length (o_borrows self));
    '(deposits, flat) ← pack_entries pack_deposit OBLIGATION_COLLATERAL_LEN (o_deposits self)
                          (seg 12 segs);
    '(borrows, flat) ← pack_entries pack_borrow OBLIGATION_LIQUIDITY_LEN (o_borrows self) flat;
    mret (concat [le_bytes 1 (o_version self);
                  le_bytes 8 (slot (o_last_update self));
                  pack_bool (stale (o_last_update self));
                  le_bytes 32 (o_lending_market self);
                  le_bytes 32 (o_owner self);
                  deposited_value; borrowed_value; allowed_borrow_value; unhealthy_borrow_value;
                  seg 9 segs;
                  deposits_len; borrows_len;
                  deposits ++ borrows ++ flat] ++ drop OBLIGATION_LEN dst).

Definition unpack_deposit (flat : list Z) : outcome ObligationCollateral :=
  if (length flat <? OBLIGATION_COLLATERAL_LEN)%nat then Panic
  else
    let segs := array_refs deposit_layout flat in
    mret (mkObligationCollateral (of_le_bytes (seg 0 segs)) (of_le_bytes (seg 1 segs))
            (unpack_decimal (seg 2 segs))).

Definition unpack_borrow (flat : list Z) : outcome ObligationLiquidity :=
  if (length flat <? OBLIGATION_LIQUIDITY_LEN)%nat then Panic
  else
    let segs := array_refs borrow_layout flat in
    mret (mkObligationLiquidity (of_le_bytes (seg 0 segs)) (unpack_decimal (seg 1 segs))
            (unpack_decimal (seg 2 segs)) (unpack_decimal (seg 3 segs))).

Fixpoint unpack_entries {A} (unpack_one : list Z → outcome A) (size n : nat) (flat : list Z) :
    outcome (list A * list Z) :=
  match n with
  | O => mret ([], flat)
  | S n =>
      a ← unpack_one flat;
      '(l, rest) ← unpack_entries unpack_one size n (drop size flat);
      mret (a :: l, rest)
  end.

Definition unpack_from_slice (src : list Z) : outcome Obligation :=
  if (length src <? OBLIGATION_LEN)%nat then Panic
  else
    let segs := array_refs layout src in
    let version := of_le_bytes (seg 0 segs) in
    if version >? PROGRAM_VERSION then Err InvalidAccountData
    else
      let deposits_len := Z.to_nat (of_le_bytes (seg 10 segs)) in
      let borrows_len := Z.to_nat (of_le_bytes (seg 11 segs)) in
      '(deposits, flat) ← unpack_entries unpack_deposit OBLIGATION_COLLATERAL_LEN deposits_len
                            (seg 12 segs);
      '(borrows, _) ← unpack_entries unpack_borrow OBLIGATION_LIQUIDITY_LEN borrows_len flat;
      stale ← unpack_bool (seg 2 segs);
      mret {|
        o_version := version;
        o_last_update := mkLastUpdate (of_le_bytes (seg 1 segs)) stale;
        o_lending_market := of_le_bytes (seg 3 segs);
        o_owner := of_le_bytes (seg 4 segs);
        o_deposits := deposits;
        o_borrows := borrows;
        o_deposited_value := unpack_decimal (seg 5 segs);
        o_borrowed_value := unpack_decimal (seg 6 segs);
        o_allowed_borrow_value := unpack_decimal (seg 7 segs);
        o_unhealthy_borrow_value := unpack_decimal (seg 8 segs);
      |}.

End ObligationCodec.

#[export] Instance Obligation_Pack : Pack Obligation := {|
  LEN := ObligationCodec.OBLIGATION_LEN;
  pack_into_slice := ObligationCodec.pack_into_slice;
  unpack_from_slice := ObligationCodec.unpack_from_slice;
|}.

(** ** Reserve round trip *)

(** The four decimals fit in the 16 bytes of the layout. *)
Definition Reserve_fits (r : Reserve) : Prop :=
  dec (rl_borrowed_amount_wads (r_liquidity r)) < 2 ^ 128 ∧
  dec (rl_cumulative_borrow_rate_wads (r_liquidity r)) < 2 ^ 128 ∧
  dec (rl_accumulated_protocol_fees_wads (r_liquidity r)) < 2 ^ 128 ∧
  dec (rl_market_price (r_liquidity r)) < 2 ^ 128.

Lemma pack_decimal_fits d : dec d < 2 ^ 128 → pack_decimal d = Ok (le_bytes 16 (dec d)).
Proof. intros. by apply pack_decimal_Ok. Qed.

Lemma reserve_segments_layout r padding :
  length padding = 230%nat → length <$> ReserveCodec.segments r padding = ReserveCodec.layout.
Proof.
  intros Hp. unfold ReserveCodec.segments. cbn [fmap list_fmap].
  rewrite !length_le_bytes, length_pack_bool, Hp. done.
Qed.

Lemma reserve_pack_Ok r output :
  Reserve_fits r → (ReserveCodec.RESERVE_LEN ≤ length output)%nat →
  ReserveCodec.pack_into_slice r output
    = Ok (concat (ReserveCodec.segments r (seg 32 (array_refs ReserveCodec.layout output)))
          ++ drop ReserveCodec.RESERVE_LEN output).
Proof.
  intros (? & ? & ? & ?) Hl. unfold ReserveCodec.pack_into_slice.
  rewrite (proj2 (Nat.ltb_ge _ _)) by done. by rewrite !pack_decimal_fits.
Qed.

(** A field of a given width comes back from its bytes. *)
Ltac num_back :=
  rewrite of_le_bytes_le_bytes by (unfold in_width, Decimal_ok, LastUpdate_ok, PROGRAM_VERSION in *; cbn; lia).

Lemma reserve_pack_unpack r output :
  Reserve_ok r → Reserve_fits r → (ReserveCodec.RESERVE_LEN ≤ length output)%nat →
  ∃ bs, ReserveCodec.pack_into_slice r output = Ok bs ∧
    length bs = length output ∧
    seg 32 (array_refs ReserveCodec.layout bs) = seg 32 (array_refs ReserveCodec.layout output) ∧
    drop ReserveCodec.RESERVE_LEN bs = drop ReserveCodec.RESERVE_LEN output ∧
    ReserveCodec.unpack_from_slice bs = Ok r.
Proof.
  intros Hr Hf Hlen. rewrite reserve_pack_Ok by done. eexists; split; [done|].
  assert (Hp : length (seg 32 (array_refs ReserveCodec.layout output)) = 230%nat)
    by (by apply (length_seg 32 230)).
  destruct (overwrite_segs _ _ output ReserveCodec.RESERVE_LEN
              (reserve_segments_layout r _ Hp) eq_refl Hlen) as (Hl & Hd & Ha).
  split; [exact Hl|]. rewrite Ha. split; [done|]. split; [exact Hd|].
  unfold ReserveCodec.unpack_from_slice. rewrite (proj2 (Nat.ltb_ge _ _)) by (rewrite Hl; exact Hlen).
  rewrite Ha. unfold ReserveCodec.segments. cbn [seg nth].
  destruct Hr as [Hv Hu Hm [] [] [? ? ? ? ? ? ? [] ? ? ? ? ?]]. destruct Hf as (? & ? & ? & ?).
  rewrite !unpack_pack_bool, !unpack_pack_decimal by (unfold Decimal_ok, in_width in *; lia).
  rewrite !of_le_bytes_le_bytes by (try done; unfold in_width, LastUpdate_ok, PROGRAM_VERSION in *; cbn; lia).
  rewrite Z.gtb_ltb, (proj2 (Z.ltb_ge _ _)) by (unfold PROGRAM_VERSION in *; lia).
  by destruct r as [? [] ? [] [] [? ? ? ? ? ? ? [] ? ? ? ? ?]].
Qed.

Lemma dec_unpack_decimal bs : dec (unpack_decimal bs) = of_le_bytes bs.
Proof. done. Qed.

Lemma reserve_unpack_pack r input :
  Forall is_byte input → ReserveCodec.unpack_from_slice input = Ok r →
  Reserve_ok r ∧ Reserve_fits r ∧ ReserveCodec.pack_into_slice r input = Ok input.
Proof.
  intros Hb. unfold ReserveCodec.unpack_from_slice.
  destruct (Nat.ltb_spec (length input) ReserveCodec.RESERVE_LEN) as [|Hlen]; [done|].
  rewrite Z.gtb_ltb. destruct (Z.ltb_spec PROGRAM_VERSION (of_le_bytes (seg 0 (array_refs ReserveCodec.layout input)))) as [|Hver]; [done|].
  intros H. apply bind_Ok in H as (stale & Hstale & [= <-]).
  assert (Hw : ∀ i n, ReserveCodec.layout !! i = Some n → in_width (8 * Z.of_nat n)
             (of_le_bytes (seg i (array_refs ReserveCodec.layout input))))
    by (intros; by apply seg_in_width).
  assert (Hd : ∀ i, ReserveCodec.layout !! i = Some 16%nat →
             0 ≤ of_le_bytes (seg i (array_refs ReserveCodec.layout input)) < 2 ^ 128)
    by (intros i Hi; exact (Hw i 16%nat Hi)).
  match goal with |- _ ∧ Reserve_fits ?r ∧ _ => assert (Hfits : Reserve_fits r) end.
  { unfold Reserve_fits. cbn -[seg of_le_bytes Z.pow].
    repeat split; apply Hd; reflexivity. }
  split; [|split; [exact Hfits|]].
  - assert (Hdec : ∀ i, ReserveCodec.layout !! i = Some 16%nat →
               Decimal_ok (unpack_decimal (seg i (array_refs ReserveCodec.layout input)))).
    { intros i Hi. destruct (Hd i Hi). unfold Decimal_ok, in_width. rewrite dec_unpack_decimal. lia. }
    constructor; cbn [r_version r_last_update r_lending_market r_liquidity r_collateral r_config].
    + split; [apply (Hw 0 1 eq_refl)%nat|done].
    + apply (Hw 1 8 eq_refl)%nat.
    + apply (Hw 3 32 eq_refl)%nat.
    + constructor; first [apply Hdec; reflexivity | apply (Hw _ 32%nat); reflexivity
        | apply (Hw _ 1%nat); reflexivity | apply (Hw _ 8%nat); reflexivity].
    + constructor; first [apply (Hw _ 32%nat); reflexivity | apply (Hw _ 8%nat); reflexivity].
    + repeat constructor; first [eapply (Hw _ 32%nat); reflexivity
        | eapply (Hw _ 1%nat); reflexivity | eapply (Hw _ 8%nat); reflexivity].
  - rewrite reserve_pack_Ok by done. unfold ReserveCodec.segments.
    cbn [r_version r_last_update r_lending_market r_liquidity r_collateral r_config slot StateBase.stale
      rl_mint_pubkey rl_mint_decimals rl_supply_pubkey rl_pyth_oracle_pubkey
      rl_switchboard_oracle_pubkey rl_available_amount rl_borrowed_amount_wads
      rl_cumulative_borrow_rate_wads rl_accumulated_protocol_fees_wads rl_market_price
      rc_mint_pubkey rc_mint_total_supply rc_supply_pubkey optimal_utilization_rate
      loan_to_value_ratio liquidation_bonus liquidation_threshold min_borrow_rate
      optimal_borrow_rate max_borrow_rate fees borrow_fee_wad flash_loan_fee_wad
      host_fee_percentage deposit_limit borrow_limit fee_receiver protocol_liquidation_fee
      protocol_take_rate].
    rewrite (pack_unpack_bool (seg 2 (array_refs ReserveCodec.layout input)) stale);
      [|by apply Forall_seg|by apply (length_seg 2 1)|done].
    rewrite !dec_unpack_decimal.
    repeat (erewrite (le_bytes_seg _ _ ReserveCodec.layout input Hb Hlen) by reflexivity).
    exact (f_equal Ok (concat_segs ReserveCodec.layout input)).
Qed.

(** ** Vectors of fixed-size entries *)

Section entries.
Context {A : Type} (pack_one : A → list Z → outcome (list Z)) (unpack_one : list Z → outcome A).
Context (size : nat) (P : A → Prop).
Hypothesis pack_one_Ok : ∀ a flat, P a → (size ≤ length flat)%nat →
  ∃ e, pack_one a flat = Ok e ∧ length e = size ∧ ∀ rest, unpack_one (e ++ rest) = Ok a.
Hypothesis unpack_one_Ok : ∀ a flat, Forall is_byte flat → unpack_one flat = Ok a →
  (size ≤ length flat)%nat ∧ P a ∧ pack_one a flat = Ok (take size flat).

Lemma pack_entries_Ok l flat :
  Forall P l → (size * length l ≤ length flat)%nat →
  ∃ es, ObligationCodec.pack_entries pack_one size l flat = Ok (es, drop (size * length l) flat) ∧
    length es = (size * length l)%nat ∧
    ∀ rest, ObligationCodec.unpack_entries unpack_one size (length l) (es ++ rest) = Ok (l, rest).
Proof.
  intros Hl. revert flat. induction Hl as [|a l Ha Hl IH]; intros flat Hlen; cbn [length] in *.
  - exists []. rewrite Nat.mul_0_r. done.
  - rewrite Nat.mul_succ_r in *. destruct (pack_one_Ok a flat Ha) as (e & He & Hel & Hun); [lia|].
    destruct (IH (drop size flat)) as (es & Hes & Hesl & Huns); [rewrite length_drop; lia|].
    exists (e ++ es). cbn [ObligationCodec.pack_entries ObligationCodec.unpack_entries].
    rewrite He. cbn [mbind result_bind]. rewrite Hes. cbn [mbind result_bind].
    rewrite drop_drop. split; [by rewrite (Nat.add_comm size)|]. split; [rewrite length_app; lia|].
    intros rest. rewrite <- (assoc_L (++)), Hun. cbn [mbind result_bind].
    rewrite drop_app_ge, Hel, Nat.sub_diag by lia. change (drop 0 (es ++ rest)) with (es ++ rest).
    by rewrite Huns.
Qed.

Lemma unpack_entries_Ok n flat l rest :
  Forall is_byte flat → ObligationCodec.unpack_entries unpack_one size n flat = Ok (l, rest) →
  length l = n ∧ (size * n ≤ length flat)%nat ∧ Forall P l ∧ rest = drop (size * n) flat ∧
  ObligationCodec.pack_entries pack_one size l flat = Ok (take (size * n) flat, rest).
Proof.
  revert flat l rest. induction n as [|n IH]; intros flat l rest Hb;
    cbn [ObligationCodec.unpack_entries].
  - intros [= <- <-]. rewrite Nat.mul_0_r. repeat split; try done; lia.
  - intros H. apply bind_Ok in H as (a & Ha & H). apply bind_Ok in H as ([l' rest'] & Hl & [= <- <-]).
    destruct (unpack_one_Ok a flat Hb Ha) as (Hlen & HP & Hpack).
    destruct (IH (drop size flat) l' rest') as (Hn & Hle & HPl & Hrest & Hpk);
      [by apply Forall_drop|done|].
    rewrite length_drop in Hle. rewrite Nat.mul_succ_r. cbn [length ObligationCodec.pack_entries].
    split; [lia|]. split; [lia|]. split; [by constructor|].
    split; [by rewrite Hrest, drop_drop, (Nat.add_comm size)|].
    rewrite Hpack. cbn [mbind result_bind]. rewrite Hpk. cbn [mbind result_bind].
    rewrite take_take_drop, (Nat.add_comm size). done.
Qed.
End entries.

Definition deposit_fits (c : ObligationCollateral) : Prop :=
  ObligationCollateral_ok c ∧ dec (oc_market_value c) < 2 ^ 128.

Definition borrow_fits (l : ObligationLiquidity) : Prop :=
  ObligationLiquidity_ok l ∧ dec (ol_cumulative_borrow_rate_wads l) < 2 ^ 128 ∧
  dec (ol_borrowed_amount_wads l) < 2 ^ 128 ∧ dec (ol_market_value l) < 2 ^ 128.

Lemma pack_deposit_Ok c flat :
  deposit_fits c → (ObligationCodec.OBLIGATION_COLLATERAL_LEN ≤ length flat)%nat →
  ∃ e, ObligationCodec.pack_deposit c flat = Ok e ∧
    length e = ObligationCodec.OBLIGATION_COLLATERAL_LEN ∧
    ∀ rest, ObligationCodec.unpack_deposit (e ++ rest) = Ok c.
Proof.
  intros [[Hk Ha Hm] Hf] Hlen. unfold ObligationCodec.pack_deposit, ObligationCodec.unpack_deposit.
  rewrite (proj2 (Nat.ltb_ge _ _)) by done. rewrite pack_decimal_fits by done.
  cbn [mbind result_bind]. eexists; split; [done|].
  match goal with |- context [concat ?l] => set (segs := l) end.
  assert (Hs : length <$> segs = ObligationCodec.deposit_layout).
  { unfold segs. cbn [fmap list_fmap]. rewrite !length_le_bytes. by rewrite (length_seg 3 32). }
  pose proof (length_concat_sum segs) as Hl. rewrite Hs in Hl. split; [exact Hl|]. intros rest.
  rewrite (proj2 (Nat.ltb_ge _ _)) by (rewrite length_app, Hl; cbn; unfold ObligationCodec.OBLIGATION_COLLATERAL_LEN; lia).
  rewrite (array_refs_concat _ _ _ Hs). unfold segs. cbn [seg nth].
  rewrite !of_le_bytes_le_bytes by done. rewrite unpack_pack_decimal by (unfold Decimal_ok, in_width in *; lia).
  by destruct c.
Qed.

Lemma pack_borrow_Ok l flat :
  borrow_fits l → (ObligationCodec.OBLIGATION_LIQUIDITY_LEN ≤ length flat)%nat →
  ∃ e, ObligationCodec.pack_borrow l flat = Ok e ∧
    length e = ObligationCodec.OBLIGATION_LIQUIDITY_LEN ∧
    ∀ rest, ObligationCodec.unpack_borrow (e ++ rest) = Ok l.
Proof.
  intros [[Hk Hc Hb Hm] (Hf1 & Hf2 & Hf3)] Hlen.
  unfold ObligationCodec.pack_borrow, ObligationCodec.unpack_borrow.
  rewrite (proj2 (Nat.ltb_ge _ _)) by done. rewrite !pack_decimal_fits by done.
  cbn [mbind result_bind]. eexists; split; [done|].
  match goal with |- context [concat ?l] => set (segs := l) end.
  assert (Hs : length <$> segs = ObligationCodec.borrow_layout).
  { unfold segs. cbn [fmap list_fmap]. rewrite !length_le_bytes. by rewrite (length_seg 4 32). }
  pose proof (length_concat_sum segs) as Hl. rewrite Hs in Hl. split; [exact Hl|]. intros rest.
  rewrite (proj2 (Nat.ltb_ge _ _)) by (rewrite length_app, Hl; cbn; unfold ObligationCodec.OBLIGATION_LIQUIDITY_LEN; lia).
  rewrite (array_refs_concat _ _ _ Hs). unfold segs. cbn [seg nth].
  rewrite !of_le_bytes_le_bytes by done.
  rewrite !unpack_pack_decimal by (unfold Decimal_ok, in_width in *; lia). by destruct l.
Qed.

Lemma unpack_decimal_ok i n sizes l :
  Forall is_byte l → (sum_list sizes ≤ length l)%nat → sizes !! i = Some n → (n = 16)%nat →
  Decimal_ok (unpack_decimal (seg i (array_refs sizes l))) ∧
  dec (unpack_decimal (seg i (array_refs sizes l))) < 2 ^ 128.
Proof.
  intros Hb Hl Hi ->. destruct (seg_in_width i 16 sizes l Hb Hl Hi) as [H0 H1].
  unfold Decimal_ok, in_width. rewrite dec_unpack_decimal. cbn [Z.of_nat] in H1.
  change (8 * Z.of_nat 16) with 128 in H1. lia.
Qed.

Lemma unpack_deposit_Ok c flat :
  Forall is_byte flat → ObligationCodec.unpack_deposit flat = Ok c →
  (ObligationCodec.OBLIGATION_COLLATERAL_LEN ≤ length flat)%nat ∧ deposit_fits c ∧
  ObligationCodec.pack_deposit c flat = Ok (take ObligationCodec.OBLIGATION_COLLATERAL_LEN flat).
Proof.
  intros Hb. unfold ObligationCodec.unpack_deposit, ObligationCodec.pack_deposit.
  destruct (Nat.ltb_spec (length flat) ObligationCodec.OBLIGATION_COLLATERAL_LEN) as [|Hlen]; [done|].
  intros [= <-]. split; [done|].
  destruct (unpack_decimal_ok 2 16 ObligationCodec.deposit_layout flat Hb Hlen eq_refl eq_refl) as [Hd Hf].
  split.
  - split; [|done]. constructor; [apply (seg_in_width 0 32)|apply (seg_in_width 1 8)|]; done.
  - cbn [deposit_reserve deposited_amount oc_market_value]. rewrite pack_decimal_fits by done.
    cbn [mbind result_bind]. rewrite dec_unpack_decimal.
    repeat (erewrite (le_bytes_seg _ _ ObligationCodec.deposit_layout flat Hb Hlen) by reflexivity).
    exact (f_equal Ok (concat_array_refs ObligationCodec.deposit_layout flat)).
Qed.

Lemma unpack_borrow_Ok l flat :
  Forall is_byte flat → ObligationCodec.unpack_borrow flat = Ok l →
  (ObligationCodec.OBLIGATION_LIQUIDITY_LEN ≤ length flat)%nat ∧ borrow_fits l ∧
  ObligationCodec.pack_borrow l flat = Ok (take ObligationCodec.OBLIGATION_LIQUIDITY_LEN flat).
Proof.
  intros Hb. unfold ObligationCodec.unpack_borrow, ObligationCodec.pack_borrow.
  destruct (Nat.ltb_spec (length flat) ObligationCodec.OBLIGATION_LIQUIDITY_LEN) as [|Hlen]; [done|].
  intros [= <-]. split; [done|].
  destruct (unpack_decimal_ok 1 16 ObligationCodec.borrow_layout flat Hb Hlen eq_refl eq_refl) as [Hd1 Hf1].
  destruct (unpack_decimal_ok 2 16 ObligationCodec.borrow_layout flat Hb Hlen eq_refl eq_refl) as [Hd2 Hf2].
  destruct (unpack_decimal_ok 3 16 ObligationCodec.borrow_layout flat Hb Hlen eq_refl eq_refl) as [Hd3 Hf3].
  split.
  - split; [|done]. constructor; [apply (seg_in_width 0 32)|..]; done.
  - cbn [borrow_reserve ol_cumulative_borrow_rate_wads ol_borrowed_amount_wads ol_market_value].
    rewrite !pack_decimal_fits by done. cbn [mbind result_bind]. rewrite !dec_unpack_decimal.
    repeat (erewrite (le_bytes_seg _ _ ObligationCodec.borrow_layout flat Hb Hlen) by reflexivity).
    exact (f_equal Ok (concat_array_refs ObligationCodec.borrow_layout flat)).
Qed.

(** ** Obligation round trip *)

Definition Obligation_fits (o : Obligation) : Prop :=
  dec (o_deposited_value o) < 2 ^ 128 ∧ dec (o_borrowed_value o) < 2 ^ 128 ∧
  dec (o_allowed_borrow_value o) < 2 ^ 128 ∧ dec (o_unhealthy_borrow_value o) < 2 ^ 128 ∧
  Forall deposit_fits (o_deposits o) ∧ Forall borrow_fits (o_borrows o).

(** Ten entries fit in the flat area unless all of them are borrows. *)
Lemma entries_fit d b :
  (d + b ≤ MAX_OBLIGATION_RESERVES)%nat → (b < MAX_OBLIGATION_RESERVES)%nat →
  (ObligationCodec.OBLIGATION_COLLATERAL_LEN * d + ObligationCodec.OBLIGATION_LIQUIDITY_LEN * b
     ≤ ObligationCodec.DATA_FLAT_LEN)%nat.
Proof.
  unfold MAX_OBLIGATION_RESERVES, ObligationCodec.OBLIGATION_COLLATERAL_LEN,
    ObligationCodec.OBLIGATION_LIQUIDITY_LEN, ObligationCodec.DATA_FLAT_LEN. lia.
Qed.

Lemma len_u8_Ok n : (n < 256)%nat → ObligationCodec.len_u8 n = Ok (le_bytes 1 (Z.of_nat n)).
Proof.
  intros H. unfold ObligationCodec.len_u8, narrow.
  rewrite (proj2 (Z.ltb_lt _ _)); [done|]. change (2 ^ 8) with 256. lia.
Qed.

Lemma obligation_pack_unpack o output :
  Obligation_ok o → Obligation_fits o → (length (o_borrows o) < MAX_OBLIGATION_RESERVES)%nat →
  (ObligationCodec.OBLIGATION_LEN ≤ length output)%nat →
  ∃ bs, ObligationCodec.pack_into_slice o output = Ok bs ∧
    length bs = length output ∧
    seg 9 (array_refs ObligationCodec.layout bs) = seg 9 (array_refs ObligationCodec.layout output) ∧
    drop ObligationCodec.OBLIGATION_LEN bs = drop ObligationCodec.OBLIGATION_LEN output ∧
    ObligationCodec.unpack_from_slice bs = Ok o.
Proof.
  intros Ho (Hf1 & Hf2 & Hf3 & Hf4 & Hfd & Hfb) Hnb Hlen.
  pose proof (ok_o_limit o Ho) as Hlim. pose proof (entries_fit _ _ Hlim Hnb) as Hfit.
  set (flat := seg 12 (array_refs ObligationCodec.layout output)).
  assert (Hflat : length flat = ObligationCodec.DATA_FLAT_LEN) by (by apply (length_seg 12)).
  destruct (pack_entries_Ok _ _ _ _ pack_deposit_Ok (o_deposits o) flat Hfd) as (ds & Hds & Hdl & Hdu);
    [rewrite Hflat; lia|].
  destruct (pack_entries_Ok _ _ _ _ pack_borrow_Ok (o_borrows o)
    (drop (ObligationCodec.OBLIGATION_COLLATERAL_LEN * length (o_deposits o)) flat) Hfb)
    as (bs & Hbs & Hbl & Hbu); [rewrite length_drop, Hflat; lia|].
  unfold ObligationCodec.pack_into_slice. rewrite (proj2 (Nat.ltb_ge _ _)) by done.
  rewrite !pack_decimal_fits by done. unfold MAX_OBLIGATION_RESERVES in *.
  rewrite !len_u8_Ok by lia. cbn [mbind result_bind]. fold flat. rewrite Hds. cbn [mbind result_bind].
  rewrite Hbs. cbn [mbind result_bind]. eexists; split; [done|].
  match goal with |- context [concat ?l ++ _] => set (segs := l) end.
  assert (Hs : length <$> segs = ObligationCodec.layout).
  { unfold segs. cbn [fmap list_fmap]. rewrite !length_le_bytes, length_pack_bool, !length_app, !length_drop.
    rewrite Hdl, Hbl, Hflat. rewrite (length_seg 9 64) by done. unfold ObligationCodec.layout.
    repeat f_equal. lia. }
  destruct (overwrite_segs segs _ output ObligationCodec.OBLIGATION_LEN Hs eq_refl Hlen) as (Hl & Hd & Ha).
  split; [exact Hl|]. rewrite Ha. split; [done|]. split; [exact Hd|].
  unfold ObligationCodec.unpack_from_slice. rewrite (proj2 (Nat.ltb_ge _ _)) by (rewrite Hl; exact Hlen).
  rewrite Ha. unfold segs. cbn [seg nth].
  destruct Ho as [Hv Hu ? ? ? ? [? ?] [? ?] [? ?] [? ?] _ _ _].
  rewrite !of_le_bytes_le_bytes by (try done; unfold in_width, LastUpdate_ok, PROGRAM_VERSION in *; cbn; lia).
  rewrite !Nat2Z.id. rewrite Z.gtb_ltb, (proj2 (Z.ltb_ge _ _)) by (unfold PROGRAM_VERSION in *; lia).
  rewrite Hdu. cbn [mbind result_bind]. rewrite Hbu. cbn [mbind result_bind].
  rewrite unpack_pack_bool, !unpack_pack_decimal by done. cbn [mbind result_bind].
  by destruct o as [? [] ? ? ? ? ? ? ? ?].
Qed.

(** Ten borrows without a deposit pass the limit of ten entries, but not the
    layout. *)
Lemma obligation_pack_ten_borrows o output :
  Obligation_ok o → Obligation_fits o → length (o_borrows o) = MAX_OBLIGATION_RESERVES →
  (ObligationCodec.OBLIGATION_LEN ≤ length output)%nat →
  ObligationCodec.pack_into_slice o output = Panic.
Proof.
  intros Ho (Hf1 & Hf2 & Hf3 & Hf4 & Hfd & Hfb) Hnb Hlen.
  pose proof (ok_o_limit o Ho) as Hlim. rewrite Hnb in Hlim.
  set (flat := seg 12 (array_refs ObligationCodec.layout output)).
  assert (Hflat : length flat = ObligationCodec.DATA_FLAT_LEN) by (by apply (length_seg 12)).
  unfold ObligationCodec.pack_into_slice. rewrite (proj2 (Nat.ltb_ge _ _)) by done.
  rewrite !pack_decimal_fits by done. unfold MAX_OBLIGATION_RESERVES in *.
  rewrite !len_u8_Ok by lia. cbn [mbind result_bind]. fold flat.
  assert (Hd0 : o_deposits o = []) by (destruct (o_deposits o); [done|cbn in Hlim; lia]).
  rewrite Hd0. cbn [ObligationCodec.pack_entries mbind result_bind mret result_ret].
  assert (Hover : ∀ l f, Forall borrow_fits l →
     (length f < ObligationCodec.OBLIGATION_LIQUIDITY_LEN * length l)%nat →
     ObligationCodec.pack_entries ObligationCodec.pack_borrow ObligationCodec.OBLIGATION_LIQUIDITY_LEN l f = Panic).
  { induction l as [|b l IH]; intros f Hl Hlt; [cbn in Hlt; lia|].
    apply Forall_cons in Hl as [Hb Hl]. cbn [ObligationCodec.pack_entries].
    destruct (Nat.ltb_spec (length f) ObligationCodec.OBLIGATION_LIQUIDITY_LEN) as [H|H].
    - unfold ObligationCodec.pack_borrow. by rewrite (proj2 (Nat.ltb_lt _ _) H).
    - destruct (pack_borrow_Ok b f Hb H) as (e & -> & _). cbn [mbind result_bind].
      rewrite IH; [done|done|]. rewrite length_drop. cbn [length] in Hlt. lia. }
  rewrite Hover; [done|done|]. rewrite Hflat, Hnb. apply Nat.ltb_lt. reflexivity.
Qed.

Lemma obligation_unpack_pack o input :
  Forall is_byte input → ObligationCodec.unpack_from_slice input = Ok o →
  Obligation_fits o ∧ ObligationCodec.pack_into_slice o input = Ok input.
Proof.
  intros Hb. unfold ObligationCodec.unpack_from_slice.
  destruct (Nat.ltb_spec (length input) ObligationCodec.OBLIGATION_LEN) as [|Hlen]; [done|].
  rewrite Z.gtb_ltb. destruct (Z.ltb_spec PROGRAM_VERSION (of_le_bytes (seg 0 (array_refs ObligationCodec.layout input)))) as [|Hver]; [done|].
  intros H. apply bind_Ok in H as ([ds flat1] & Hds & H). apply bind_Ok in H as ([bs flat2] & Hbs & H).
  apply bind_Ok in H as (stale & Hstale & [= <-]).
  set (segs := array_refs ObligationCodec.layout input) in *.
  assert (Hfb : Forall is_byte (seg 12 segs)) by (by apply Forall_seg).
  destruct (unpack_entries_Ok _ _ _ _ unpack_deposit_Ok _ _ _ _ Hfb Hds) as (Hnd & Hdle & Hdf & -> & Hdp).
  destruct (unpack_entries_Ok _ _ _ _ unpack_borrow_Ok _ _ _ _ (Forall_drop _ _ _ Hfb) Hbs)
    as (Hnb & Hble & Hbf & -> & Hbp).
  assert (Hw : ∀ i n, ObligationCodec.layout !! i = Some n →
             in_width (8 * Z.of_nat n) (of_le_bytes (seg i segs))) by (intros; by apply seg_in_width).
  assert (Hd : ∀ i, ObligationCodec.layout !! i = Some 16%nat → of_le_bytes (seg i segs) < 2 ^ 128)
    by (intros i Hi; exact (proj2 (Hw i 16%nat Hi))).
  split.
  { unfold Obligation_fits. cbn -[seg of_le_bytes Z.pow]. repeat (split; [apply Hd; reflexivity|]). done. }
  unfold ObligationCodec.pack_into_slice. rewrite (proj2 (Nat.ltb_ge _ _)) by done. fold segs.
  cbn [o_version o_last_update o_lending_market o_owner o_deposits o_borrows o_deposited_value
       o_borrowed_value o_allowed_borrow_value o_unhealthy_borrow_value slot StateBase.stale].
  rewrite !pack_decimal_fits by (rewrite dec_unpack_decimal; by apply Hd). rewrite Hnd, Hnb.
  destruct (Hw 10%nat 1%nat eq_refl) as [Hd0 Hd1]. destruct (Hw 11%nat 1%nat eq_refl) as [Hb0 Hb1].
  change (2 ^ (8 * Z.of_nat 1)) with 256 in *.
  rewrite !len_u8_Ok, !Z2Nat.id by lia. cbn [mbind result_bind].
  rewrite Hdp. cbn [mbind result_bind]. rewrite Hbp. cbn [mbind result_bind mret result_ret].
  rewrite (pack_unpack_bool (seg 2 segs) stale);
    [|by apply Forall_seg|by apply (length_seg 2 1)|done].
  rewrite !dec_unpack_decimal. rewrite take_drop, take_drop.
  repeat (erewrite (le_bytes_seg _ _ ObligationCodec.layout input Hb Hlen) by reflexivity).
  exact (f_equal Ok (concat_segs ObligationCodec.layout input)).
Qed.

(** ** Properties *)

Lemma sample_reserve_fits : Reserve_fits sample_reserve.
Proof. repeat split; vm_compute; reflexivity. Qed.

Lemma sample_obligation_fits : Obligation_fits sample_obligation.
Proof.
  do 4 (split; [vm_compute; reflexivity|]).
  split; repeat constructor; try decide_ok; vm_compute; reflexivity.
Qed.

(** Packing a reserve and unpacking it gives the reserve back; the buffer
    keeps its length, its padding and what follows the reserve.  Conversely a
    buffer that unpacks is the packing of what it unpacks to, so updating an
    account rewrites exactly the fields that changed. *)
Theorem reserve_codec (r : Reserve) (output : list Z)
    (Hr : Reserve_ok r) (Hf : Reserve_fits r) (Hb : Forall is_byte output)
    (Hl : (LEN Reserve ≤ length output)%nat) :
  (∃ bs, pack_into_slice r output = Ok bs ∧ length bs = length output ∧
     seg 32 (array_refs ReserveCodec.layout bs) = seg 32 (array_refs ReserveCodec.layout output) ∧
     drop (LEN Reserve) bs = drop (LEN Reserve) output ∧ unpack_from_slice bs = Ok r) ∧
  (∀ r', unpack_from_slice output = Ok r' →
     Reserve_ok r' ∧ Reserve_fits r' ∧ pack_into_slice r' output = Ok output).
Proof.
  split; [by apply reserve_pack_unpack|]. intros r'. by apply reserve_unpack_pack.
Qed.

Lemma reserve_codec_witness :
  ∃ bs, pack_into_slice sample_reserve (replicate 619 0) = Ok bs ∧ unpack_from_slice bs = Ok sample_reserve.
Proof.
  destruct (reserve_codec sample_reserve (replicate 619 0)) as [(bs & H1 & _ & _ & _ & H2) _].
  - exact sample_reserve_ok.
  - exact sample_reserve_fits.
  - apply Forall_replicate. split; vm_compute; congruence.
  - vm_compute. repeat constructor.
  - exists bs. split; [exact H1|exact H2].
Defined.

(** C38: packing an obligation with at most nine borrows and unpacking it gives
    the obligation back, with the padding and what follows kept; conversely a
    buffer that unpacks is the packing of what it unpacks to. *)
Theorem obligation_codec (o : Obligation) (output : list Z)
    (Ho : Obligation_ok o) (Hf : Obligation_fits o)
    (Hn : (length (o_borrows o) < MAX_OBLIGATION_RESERVES)%nat)
    (Hb : Forall is_byte output) (Hl : (LEN Obligation ≤ length output)%nat) :
  (∃ bs, pack_into_slice o output = Ok bs ∧ length bs = length output ∧
     seg 9 (array_refs ObligationCodec.layout bs) = seg 9 (array_refs ObligationCodec.layout output) ∧
     drop (LEN Obligation) bs = drop (LEN Obligation) output ∧ unpack_from_slice bs = Ok o) ∧
  (∀ o', unpack_from_slice output = Ok o' →
     Obligation_fits o' ∧ pack_into_slice o' output = Ok output).
Proof.
  split; [by apply obligation_pack_unpack|]. intros o'. by apply obligation_unpack_pack.
Qed.

Lemma obligation_codec_witness :
  ∃ bs, pack_into_slice sample_obligation (replicate 1300 0) = Ok bs ∧
    unpack_from_slice bs = Ok sample_obligation.
Proof.
  destruct (obligation_codec sample_obligation (replicate 1300 0)) as [(bs & H1 & _ & _ & _ & H2) _].
  - exact sample_obligation_ok.
  - exact sample_obligation_fits.
  - vm_compute. repeat constructor.
  - apply Forall_replicate. split; vm_compute; congruence.
  - vm_compute. repeat constructor.
  - exists bs. split; [exact H1|exact H2].
Defined.

(** The limit of ten entries is one more than the layout holds when all of
    them are borrows: packing an obligation with ten borrows and no deposit
    panics, whatever the account. *)
Theorem obligation_ten_borrows_panics (o : Obligation) (output : list Z)
    (Ho : Obligation_ok o) (Hf : Obligation_fits o)
    (Hn : length (o_borrows o) = MAX_OBLIGATION_RESERVES)
    (Hl : (LEN Obligation ≤ length output)%nat) :
  pack_into_slice o output = Panic.
Proof. by apply obligation_pack_ten_borrows. Qed.

Definition ten_borrows : Obligation :=
  Obligation.with_entries sample_obligation []
    ((λ k, mkObligationLiquidity k Decimal.one Decimal.one Decimal.one) <$> seqZ 40 10).

Lemma obligation_ten_borrows_panics_witness :
  pack_into_slice ten_borrows (replicate 1300 0) = Panic.
Proof.
  apply (obligation_ten_borrows_panics ten_borrows (replicate 1300 0)).
  - apply with_entries_ok.
    + exact sample_obligation_ok.
    + constructor.
    + repeat constructor; decide_ok.
    + apply NoDup_nil_2.
    + apply (bool_decide_unpack _). vm_compute. exact I.
    + vm_compute. repeat constructor.
  - do 4 (split; [vm_compute; reflexivity|]). split; [constructor|].
    repeat constructor; try decide_ok; vm_compute; reflexivity.
  - vm_compute. reflexivity.
  - vm_compute. repeat constructor.
Defined.
