(* ===== verification/CodecFacts.v ===== *)
(** * Packing that succeeded

    A handler packs into a buffer that it has just read.  When [pack_into_slice]
    returns, the value fitted its layout, the buffer is still bytes of the same
    length, and unpacking it gives the value back. *)

From S2P Require Import Prelude Errors FixedPoint StateBase LendingMarket Reserve.
From S2P Require Import ReserveFacts Obligation ObligationFacts Codec.

(** What a successful pack leaves. *)
Definition packed {A} `{Pack A} (a : A) (output bs : list Z) : Prop :=
  length bs = length output ∧ Forall is_byte bs ∧ unpack_from_slice bs = Ok a.

Lemma bytes_concat (segs : list (list Z)) : Forall (Forall is_byte) segs → Forall is_byte (concat segs).
Proof. intros Hs. induction Hs; cbn; [constructor|]. by apply Forall_app. Qed.

Lemma pack_bool_bytes b : Forall is_byte (pack_bool b).
Proof. apply le_bytes_is_byte. Qed.

Lemma pack_decimal_bytes d bs : pack_decimal d = Ok bs → Forall is_byte bs.
Proof. rewrite pack_decimal_Ok. intros [_ ->]. apply le_bytes_is_byte. Qed.

Lemma is_byte_0 : is_byte 0.
Proof. by split. Qed.

(** Goals [Forall is_byte _] about what the codecs write. *)
Ltac solve_bytes :=
  repeat match goal with
  | |- Forall is_byte (_ ++ _) => apply Forall_app; split
  | |- Forall is_byte (concat _) => apply bytes_concat
  | |- Forall (Forall is_byte) (_ :: _) => apply Forall_cons; split
  | |- Forall _ [] => apply Forall_nil; exact I
  | |- Forall is_byte (le_bytes _ _) => apply le_bytes_is_byte
  | |- Forall is_byte (pack_bool _) => apply pack_bool_bytes
  | |- Forall is_byte (seg _ (array_refs _ _)) => apply Forall_seg; assumption
  | |- Forall is_byte (drop _ _) => apply Forall_drop; assumption
  | |- Forall is_byte _ => first [assumption | eapply pack_decimal_bytes; eassumption]
  end.

(** [injection] would compute the bytes. *)
Lemma Ok_inj {E A} (a b : A) : (Ok a : result E A) = Ok b → a = b.
Proof. congruence. Qed.

(** ** Markets *)

Lemma market_pack_back m output bs :
  LendingMarket_ok m → Forall is_byte output →
  LendingMarket.pack_into_slice m output = Ok bs → packed m output bs.
Proof.
  intros Hm Hb Hp. pose proof Hp as Hp'. unfold LendingMarket.pack_into_slice in Hp'.
  destruct (Nat.ltb_spec (length output) LendingMarket.LENDING_MARKET_LEN) as [|Hlen]; [done|].
  apply Ok_inj in Hp' as <-.
  destruct (lending_market_pack_unpack m output Hm Hlen) as (bs' & Hp2 & Hl & _ & _ & Hu).
  rewrite Hp in Hp2. apply Ok_inj in Hp2 as <-. split; [done|]. split; [|done]. solve_bytes.
Qed.

(** ** Reserves *)

Lemma reserve_pack_fits r output bs : ReserveCodec.pack_into_slice r output = Ok bs → Reserve_fits r.
Proof.
  unfold ReserveCodec.pack_into_slice. case_match; [done|]. intros Hp. inv_run.
  repeat match goal with H : pack_decimal _ = Ok _ |- _ => apply pack_decimal_Ok in H as [? _] end.
  done.
Qed.

Lemma reserve_pack_back r output bs :
  Reserve_ok r → Forall is_byte output →
  ReserveCodec.pack_into_slice r output = Ok bs → packed r output bs.
Proof.
  intros Hr Hb Hp. pose proof (reserve_pack_fits r output bs Hp) as Hf.
  destruct (Nat.ltb_spec (length output) ReserveCodec.RESERVE_LEN) as [H|Hlen].
  { unfold ReserveCodec.pack_into_slice in Hp. by rewrite (proj2 (Nat.ltb_lt _ _) H) in Hp. }
  destruct (reserve_pack_unpack r output Hr Hf Hlen) as (bs' & Hp2 & Hl & _ & _ & Hu).
  pose proof (reserve_pack_Ok r output Hf Hlen) as Hp3.
  rewrite Hp in Hp2. apply Ok_inj in Hp2 as <-. rewrite Hp in Hp3. apply Ok_inj in Hp3 as ->.
  split; [done|]. split; [|done]. unfold ReserveCodec.segments. solve_bytes.
Qed.

(** ** Obligations *)

Lemma pack_entries_inv {A} (pack_one : A → list Z → outcome (list Z)) size (P : A → Prop) l flat r :
  (∀ a f e, Forall is_byte f → pack_one a f = Ok e → P a ∧ Forall is_byte e) →
  Forall is_byte flat → ObligationCodec.pack_entries pack_one size l flat = Ok r →
  Forall P l ∧ Forall is_byte r.1 ∧ Forall is_byte r.2.
Proof.
  intros Hone. revert flat r. induction l as [|a l IH]; intros flat r Hb;
    cbn [ObligationCodec.pack_entries].
  - intros [= <-]. split; [constructor|]. by split.
  - intros Hp. apply bind_Ok in Hp as (e & He & Hp). apply bind_Ok in Hp as ([es rest] & Hes & [= <-]).
    destruct (Hone _ _ _ Hb He) as [Ha Heb].
    destruct (IH _ _ (Forall_drop _ _ _ Hb) Hes) as (Hl & Hbs & Hr). cbn in *.
    split; [by constructor|]. split; [by apply Forall_app|done].
Qed.

Lemma pack_deposit_inv c flat e :
  Forall is_byte flat → ObligationCodec.pack_deposit c flat = Ok e →
  dec (oc_market_value c) < 2 ^ 128 ∧ Forall is_byte e.
Proof.
  intros Hb. unfold ObligationCodec.pack_deposit. case_match; [done|]. intros Hp.
  apply bind_Ok in Hp as (bs & Hd & <-%Ok_inj). pose proof Hd as [? _]%pack_decimal_Ok.
  split; [done|]. solve_bytes.
Qed.

Lemma pack_borrow_inv l flat e :
  Forall is_byte flat → ObligationCodec.pack_borrow l flat = Ok e →
  (dec (ol_cumulative_borrow_rate_wads l) < 2 ^ 128 ∧ dec (ol_borrowed_amount_wads l) < 2 ^ 128 ∧
   dec (ol_market_value l) < 2 ^ 128) ∧ Forall is_byte e.
Proof.
  intros Hb. unfold ObligationCodec.pack_borrow. case_match; [done|]. intros Hp.
  apply bind_Ok in Hp as (b1 & H1 & Hp). apply bind_Ok in Hp as (b2 & H2 & Hp).
  apply bind_Ok in Hp as (b3 & H3 & <-%Ok_inj).
  pose proof H1 as [? _]%pack_decimal_Ok. pose proof H2 as [? _]%pack_decimal_Ok.
  pose proof H3 as [? _]%pack_decimal_Ok. split; [done|]. solve_bytes.
Qed.

(** The parts of a successful [pack_into_slice]. *)
Lemma obligation_pack_inv o output bs :
  Forall is_byte output → ObligationCodec.pack_into_slice o output = Ok bs →
  (ObligationCodec.OBLIGATION_LEN ≤ length output)%nat ∧ Forall is_byte bs ∧
  dec (o_deposited_value o) < 2 ^ 128 ∧ dec (o_borrowed_value o) < 2 ^ 128 ∧
  dec (o_allowed_borrow_value o) < 2 ^ 128 ∧ dec (o_unhealthy_borrow_value o) < 2 ^ 128 ∧
  Forall (λ c, dec (oc_market_value c) < 2 ^ 128) (o_deposits o) ∧
  Forall (λ l, dec (ol_cumulative_borrow_rate_wads l) < 2 ^ 128 ∧
               dec (ol_borrowed_amount_wads l) < 2 ^ 128 ∧ dec (ol_market_value l) < 2 ^ 128)
    (o_borrows o).
Proof.
  intros Hb. unfold ObligationCodec.pack_into_slice.
  destruct (Nat.ltb_spec (length output) ObligationCodec.OBLIGATION_LEN) as [|Hlen]; [done|].
  intros Hp. apply bind_Ok in Hp as (b1 & H1 & Hp). apply bind_Ok in Hp as (b2 & H2 & Hp).
  apply bind_Ok in Hp as (b3 & H3 & Hp). apply bind_Ok in Hp as (b4 & H4 & Hp).
  apply bind_Ok in Hp as (b5 & H5 & Hp). apply bind_Ok in Hp as (b6 & H6 & Hp).
  apply bind_Ok in Hp as ([ds flat] & Hds & Hp). apply bind_Ok in Hp as ([ls flat'] & Hls & <-%Ok_inj).
  destruct (pack_entries_inv _ _ (λ c, dec (oc_market_value c) < 2 ^ 128) _ _ _ pack_deposit_inv
              (Forall_seg _ _ _ _ Hb) Hds) as (Hd & Hdsb & Hflat).
  destruct (pack_entries_inv _ _ _ _ _ _ pack_borrow_inv Hflat Hls) as (Hl & Hlsb & Hflat').
  cbn [fst snd] in *.
  unfold ObligationCodec.len_u8 in *. inv_run.
  pose proof H1 as [? _]%pack_decimal_Ok. pose proof H2 as [? _]%pack_decimal_Ok.
  pose proof H3 as [? _]%pack_decimal_Ok. pose proof H4 as [? _]%pack_decimal_Ok.
  split; [done|]. split; [|done]. solve_bytes.
Qed.

Lemma obligation_pack_fits o output bs :
  Obligation_ok o → Forall is_byte output → ObligationCodec.pack_into_slice o output = Ok bs →
  Obligation_fits o.
Proof.
  intros Ho Hb Hp. destruct (obligation_pack_inv o output bs Hb Hp) as (_ & _ & ? & ? & ? & ? & Hd & Hl).
  do 4 (split; [done|]).
  unfold deposit_fits, borrow_fits.
  split; apply Forall_and; (split; [apply Ho|done]).
Qed.

Lemma obligation_pack_back o output bs :
  Obligation_ok o → Forall is_byte output →
  ObligationCodec.pack_into_slice o output = Ok bs → packed o output bs.
Proof.
  intros Ho Hb Hp. pose proof (obligation_pack_fits o output bs Ho Hb Hp) as Hf.
  destruct (obligation_pack_inv o output bs Hb Hp) as (Hlen & Hbs & _).
  assert (Hn : (length (o_borrows o) < MAX_OBLIGATION_RESERVES)%nat).
  { pose proof (ok_o_limit o Ho). destruct (decide (length (o_borrows o) = MAX_OBLIGATION_RESERVES)) as [E|];
      [|lia]. by rewrite (obligation_pack_ten_borrows o output Ho Hf E Hlen) in Hp. }
  destruct (obligation_pack_unpack o output Ho Hf Hn Hlen) as (bs' & Hp2 & Hl & _ & _ & Hu).
  rewrite Hp in Hp2. apply Ok_inj in Hp2 as <-. done.
Qed.

(** The scalar fields of an unpacked obligation have their widths. *)
Lemma obligation_unpack_values o input :
  Forall is_byte input → ObligationCodec.unpack_from_slice input = Ok o →
  Decimal_ok (o_deposited_value o) ∧ Decimal_ok (o_borrowed_value o) ∧
  Decimal_ok (o_allowed_borrow_value o) ∧ Decimal_ok (o_unhealthy_borrow_value o).
Proof.
  intros Hb. unfold ObligationCodec.unpack_from_slice.
  destruct (Nat.ltb_spec (length input) ObligationCodec.OBLIGATION_LEN) as [|Hlen]; [done|].
  case_match; [done|]. intros Hu. apply bind_Ok in Hu as ([ds flat] & _ & Hu).
  apply bind_Ok in Hu as ([ls flat'] & _ & Hu). apply bind_Ok in Hu as (st & _ & [= <-]). cbn.
  split; [|split; [|split]]; eapply unpack_decimal_ok; first [done | reflexivity].
Qed.

(** ** Zeroed accounts *)

(** A buffer of zeros is not initialised. *)
Lemma of_le_bytes_zeros l : Forall (eq 0) l → of_le_bytes l = 0.
Proof. intros Hl. induction Hl as [|b l <- _ IH]; cbn; [done|]. by rewrite IH. Qed.

Lemma reserve_zeros bs r :
  Forall (eq 0) bs → ReserveCodec.unpack_from_slice bs = Ok r → Reserve.is_initialized r = false.
Proof.
  intros Hz. unfold ReserveCodec.unpack_from_slice. case_match; [done|].
  case_match; [done|]. intros Hu. apply bind_Ok in Hu as (st & _ & [= <-]).
  unfold Reserve.is_initialized. cbn. rewrite of_le_bytes_zeros; [done|]. by apply Forall_seg.
Qed.

Lemma obligation_zeros bs o :
  Forall (eq 0) bs → ObligationCodec.unpack_from_slice bs = Ok o → Obligation.is_initialized o = false.
Proof.
  intros Hz. unfold ObligationCodec.unpack_from_slice. case_match; [done|].
  case_match; [done|]. intros Hu. apply bind_Ok in Hu as ([ds flat] & _ & Hu).
  apply bind_Ok in Hu as ([ls flat'] & _ & Hu). apply bind_Ok in Hu as (st & _ & [= <-]).
  unfold Obligation.is_initialized. cbn. rewrite of_le_bytes_zeros; [done|]. by apply Forall_seg.
Qed.
