(* ===== verification/Instruction.v ===== *)
(** * Instructions

    [token-lending/program/src/instruction.rs]: the instruction enum with its
    byte encoding. *)

From S2P Require Import Prelude Errors FixedPoint StateBase Reserve ReserveFacts.

Inductive LendingInstruction : Type :=
| InitLendingMarket (owner quote_currency : Z)
| SetLendingMarketOwner (new_owner : Pubkey)
| InitReserve (liquidity_amount : Z) (config : ReserveConfig)
| RefreshReserve
| DepositReserveLiquidity (liquidity_amount : Z)
| RedeemReserveCollateral (collateral_amount : Z)
| InitObligation
| RefreshObligation
| DepositObligationCollateral (collateral_amount : Z)
| WithdrawObligationCollateral (collateral_amount : Z)
| BorrowObligationLiquidity (liquidity_amount : Z)
| RepayObligationLiquidity (liquidity_amount : Z)
| LiquidateObligation (liquidity_amount : Z)
| FlashLoan (amount : Z)
| DepositReserveLiquidityAndObligationCollateral (liquidity_amount : Z)
| WithdrawObligationCollateralAndRedeemReserveCollateral (collateral_amount : Z)
| UpdateReserveConfig (config : ReserveConfig)
| LiquidateObligationAndRedeemReserveCollateral (liquidity_amount : Z)
| RedeemFees.

#[export] Instance LendingInstruction_eq_dec : EqDecision LendingInstruction.
Proof. solve_decision. Defined.

Module LendingInstruction.

(** The integer readers: the value of the first [n] bytes, and the rest. *)
Definition unpack_int (n : nat) (input : list Z) : outcome (Z * list Z) :=
  if (length input <? n)%nat then fail InstructionUnpackError
  else mret (of_le_bytes (take n input), drop n input).

Definition unpack_u64 (input : list Z) : outcome (Z * list Z) := unpack_int 8 input.
Definition unpack_u8 (input : list Z) : outcome (Z * list Z) := unpack_int 1 input.
Definition unpack_bytes32 (input : list Z) : outcome (Z * list Z) := unpack_int 32 input.
Definition unpack_pubkey (input : list Z) : outcome (Z * list Z) := unpack_int PUBKEY_BYTES input.

(** The fields of a configuration, in the order of [InitReserve] and
    [UpdateReserveConfig]. *)
Definition unpack_config (rest : list Z) : outcome (ReserveConfig * list Z) :=
  '(optimal_utilization_rate, rest) ← unpack_u8 rest;
  '(loan_to_value_ratio, rest) ← unpack_u8 rest;
  '(liquidation_bonus, rest) ← unpack_u8 rest;
  '(liquidation_threshold, rest) ← unpack_u8 rest;
  '(min_borrow_rate, rest) ← unpack_u8 rest;
  '(optimal_borrow_rate, rest) ← unpack_u8 rest;
  '(max_borrow_rate, rest) ← unpack_u8 rest;
  '(borrow_fee_wad, rest) ← unpack_u64 rest;
  '(flash_loan_fee_wad, rest) ← unpack_u64 rest;
  '(host_fee_percentage, rest) ← unpack_u8 rest;
  '(deposit_limit, rest) ← unpack_u64 rest;
  '(borrow_limit, rest) ← unpack_u64 rest;
  '(fee_receiver, rest) ← unpack_pubkey rest;
  '(protocol_liquidation_fee, rest) ← unpack_u8 rest;
  '(protocol_take_rate, rest) ← unpack_u8 rest;
  mret (mkReserveConfig optimal_utilization_rate loan_to_value_ratio liquidation_bonus
          liquidation_threshold min_borrow_rate optimal_borrow_rate max_borrow_rate
          (mkReserveFees borrow_fee_wad flash_loan_fee_wad host_fee_percentage)
          deposit_limit borrow_limit fee_receiver protocol_liquidation_fee protocol_take_rate,
        rest).

(** An instruction whose only field is a [u64]. *)
Definition unpack_amount (make : Z → LendingInstruction) (rest : list Z) :
    outcome LendingInstruction :=
  '(amount, _) ← unpack_u64 rest;
  mret (make amount).

Definition unpack (input : list Z) : outcome LendingInstruction :=
  match input with
  | [] => fail InstructionUnpackError
  | tag :: rest =>
      match tag with
      | 0 =>
          '(owner, rest) ← unpack_pubkey rest;
          '(quote_currency, _) ← unpack_bytes32 rest;
          mret (InitLendingMarket owner quote_currency)
      | 1 =>
          '(new_owner, _) ← unpack_pubkey rest;
          mret (SetLendingMarketOwner new_owner)
      | 2 =>
          '(liquidity_amount, rest) ← unpack_u64 rest;
          '(config, _) ← unpack_config rest;
          mret (InitReserve liquidity_amount config)
      | 3 => mret RefreshReserve
      | 4 => unpack_amount DepositReserveLiquidity rest
      | 5 => unpack_amount RedeemReserveCollateral rest
      | 6 => mret InitObligation
      | 7 => mret RefreshObligation
      | 8 => unpack_amount DepositObligationCollateral rest
      | 9 => unpack_amount WithdrawObligationCollateral rest
      | 10 => unpack_amount BorrowObligationLiquidity rest
      | 11 => unpack_amount RepayObligationLiquidity rest
      | 12 => unpack_amount LiquidateObligation rest
      | 13 => unpack_amount FlashLoan rest
      | 14 => unpack_amount DepositReserveLiquidityAndObligationCollateral rest
      | 15 => unpack_amount WithdrawObligationCollateralAndRedeemReserveCollateral rest
      | 16 =>
          '(config, _) ← unpack_config rest;
          mret (UpdateReserveConfig config)
      | 17 => unpack_amount LiquidateObligationAndRedeemReserveCollateral rest
      | 18 => mret RedeemFees
      | _ => fail InstructionUnpackError
      end
  end.

Definition pack_config (config : ReserveConfig) : list Z :=
  concat
    [le_bytes 1 (optimal_utilization_rate config);
     le_bytes 1 (loan_to_value_ratio config);
     le_bytes 1 (liquidation_bonus config);
     le_bytes 1 (liquidation_threshold config);
     le_bytes 1 (min_borrow_rate config);
     le_bytes 1 (optimal_borrow_rate config);
     le_bytes 1 (max_borrow_rate config);
     le_bytes 8 (borrow_fee_wad (fees config));
     le_bytes 8 (flash_loan_fee_wad (fees config));
     le_bytes 1 (host_fee_percentage (fees config));
     le_bytes 8 (deposit_limit config);
     le_bytes 8 (borrow_limit config);
     le_bytes 32 (fee_receiver config);
     le_bytes 1 (protocol_liquidation_fee config);
     le_bytes 1 (protocol_take_rate config)].

Definition pack (self : LendingInstruction) : list Z :=
  match self with
  | InitLendingMarket owner quote_currency => 0 :: le_bytes 32 owner ++ le_bytes 32 quote_currency
  | SetLendingMarketOwner new_owner => 1 :: le_bytes 32 new_owner
  | InitReserve liquidity_amount config => 2 :: le_bytes 8 liquidity_amount ++ pack_config config
  | RefreshReserve => [3]
  | DepositReserveLiquidity liquidity_amount => 4 :: le_bytes 8 liquidity_amount
  | RedeemReserveCollateral collateral_amount => 5 :: le_bytes 8 collateral_amount
  | InitObligation => [6]
  | RefreshObligation => [7]
  | DepositObligationCollateral collateral_amount => 8 :: le_bytes 8 collateral_amount
  | WithdrawObligationCollateral collateral_amount => 9 :: le_bytes 8 collateral_amount
  | BorrowObligationLiquidity liquidity_amount => 10 :: le_bytes 8 liquidity_amount
  | RepayObligationLiquidity liquidity_amount => 11 :: le_bytes 8 liquidity_amount
  | LiquidateObligation liquidity_amount => 12 :: le_bytes 8 liquidity_amount
  | FlashLoan amount => 13 :: le_bytes 8 amount
  | DepositReserveLiquidityAndObligationCollateral liquidity_amount =>
      14 :: le_bytes 8 liquidity_amount
  | WithdrawObligationCollateralAndRedeemReserveCollateral collateral_amount =>
      15 :: le_bytes 8 collateral_amount
  | UpdateReserveConfig config => 16 :: pack_config config
  | LiquidateObligationAndRedeemReserveCollateral liquidity_amount =>
      17 :: le_bytes 8 liquidity_amount
  | RedeemFees => [18]
  end.

End LendingInstruction.

(** The widths of an instruction's fields. *)
Definition LendingInstruction_ok (i : LendingInstruction) : Prop :=
  match i with
  | InitLendingMarket owner quote_currency => is_key owner ∧ is_key quote_currency
  | SetLendingMarketOwner new_owner => is_key new_owner
  | InitReserve liquidity_amount config => is_u64 liquidity_amount ∧ ReserveConfig_ok config
  | UpdateReserveConfig config => ReserveConfig_ok config
  | DepositReserveLiquidity n | RedeemReserveCollateral n | DepositObligationCollateral n
  | WithdrawObligationCollateral n | BorrowObligationLiquidity n | RepayObligationLiquidity n
  | LiquidateObligation n | FlashLoan n | DepositReserveLiquidityAndObligationCollateral n
  | WithdrawObligationCollateralAndRedeemReserveCollateral n
  | LiquidateObligationAndRedeemReserveCollateral n => is_u64 n
  | RefreshReserve | InitObligation | RefreshObligation | RedeemFees => True
  end.

(** ** Lemmas *)

Lemma unpack_int_app n z rest :
  in_width (8 * Z.of_nat n) z →
  LendingInstruction.unpack_int n (le_bytes n z ++ rest) = Ok (z, rest).
Proof.
  intros Hz. unfold LendingInstruction.unpack_int.
  rewrite (proj2 (Nat.ltb_ge _ _)) by (rewrite length_app, length_le_bytes; lia).
  by rewrite take_app_length', drop_app_length', of_le_bytes_le_bytes by (try done; symmetry; apply length_le_bytes).
Qed.

Lemma unpack_int_exact n z :
  in_width (8 * Z.of_nat n) z → LendingInstruction.unpack_int n (le_bytes n z) = Ok (z, []).
Proof. intros. rewrite <- (app_nil_r (le_bytes n z)). by apply unpack_int_app. Qed.

Lemma unpack_config_app c rest :
  ReserveConfig_ok c →
  LendingInstruction.unpack_config (LendingInstruction.pack_config c ++ rest) = Ok (c, rest).
Proof.
  intros [? ? ? ? ? ? ? [] ? ? ? ? ?]. unfold LendingInstruction.unpack_config,
    LendingInstruction.pack_config, LendingInstruction.unpack_u8, LendingInstruction.unpack_u64,
    LendingInstruction.unpack_pubkey, PUBKEY_BYTES. cbn [concat].
  rewrite <- !(assoc_L (++)).
  repeat (rewrite unpack_int_app by done; cbn [mbind result_bind]).
  by destruct c as [? ? ? ? ? ? ? [] ? ? ? ? ?].
Qed.

(** Reading fails exactly on short input. *)
Lemma unpack_int_short n input :
  (length input < n)%nat → LendingInstruction.unpack_int n input = fail InstructionUnpackError.
Proof. intros. unfold LendingInstruction.unpack_int. by rewrite (proj2 (Nat.ltb_lt _ _)). Qed.

Lemma throws_unpack_int n input :
  throws [InstructionUnpackError] (LendingInstruction.unpack_int n input).
Proof. unfold LendingInstruction.unpack_int. destruct (_ <? n)%nat; [auto with lending|done]. Qed.
#[export] Hint Resolve throws_unpack_int : lending.

Ltac throws_step :=
  first
    [ apply throws_bind; [|intros [? ?] _]
    | apply throws_unpack_int
    | apply throws_Ok
    | apply throws_fail; solve_elem ].

Lemma throws_unpack_config input :
  throws [InstructionUnpackError] (LendingInstruction.unpack_config input).
Proof. unfold LendingInstruction.unpack_config. repeat throws_step. Qed.

Lemma throws_unpack_amount make input :
  throws [InstructionUnpackError] (LendingInstruction.unpack_amount make input).
Proof. unfold LendingInstruction.unpack_amount. repeat throws_step. Qed.

Lemma throws_unpack input : throws [InstructionUnpackError] (LendingInstruction.unpack input).
Proof.
  unfold LendingInstruction.unpack. destruct input as [|tag rest]; [repeat throws_step|].
  repeat case_match; try apply throws_unpack_amount;
    repeat first [throws_step | apply throws_unpack_config].
Qed.

(** ** Decoded instructions are well formed *)

Lemma unpack_int_ok n input z rest :
  Forall is_byte input → LendingInstruction.unpack_int n input = Ok (z, rest) →
  in_width (8 * Z.of_nat n) z ∧ Forall is_byte rest.
Proof.
  unfold LendingInstruction.unpack_int. intros Hb H.
  destruct (Nat.ltb_spec (length input) n) as [|Hl]; [done|]. injection H as <- <-.
  split; [|by apply Forall_drop].
  pose proof (of_le_bytes_bound (take n input) (Forall_take _ _ _ Hb)) as Hw.
  by rewrite length_take_le in Hw.
Qed.

Lemma unpack_config_ok input c rest :
  Forall is_byte input → LendingInstruction.unpack_config input = Ok (c, rest) → ReserveConfig_ok c.
Proof.
  unfold LendingInstruction.unpack_config. intros Hb H.
  repeat match goal with
         | H : (LendingInstruction.unpack_int _ _ ≫= _) = Ok _ |- _ =>
             let x := fresh "x" in let r := fresh "r" in let Hx := fresh "Hx" in
             apply bind_Ok in H as ([x r] & Hx & H);
             apply unpack_int_ok in Hx as [? ?]; [|assumption]
         | _ => progress unfold LendingInstruction.unpack_u8, LendingInstruction.unpack_u64,
             LendingInstruction.unpack_pubkey, PUBKEY_BYTES in H
         end.
  injection H as <- _. constructor; try assumption. by constructor.
Qed.

Lemma unpack_amount_ok make input i :
  (∀ n, is_u64 n → LendingInstruction_ok (make n)) → Forall is_byte input →
  LendingInstruction.unpack_amount make input = Ok i → LendingInstruction_ok i.
Proof.
  intros Hm Hb H. apply bind_Ok in H as ([n rest] & Hn & [= <-]).
  apply unpack_int_ok in Hn as [? ?]; [|done]. by apply Hm.
Qed.

Lemma instruction_unpack_ok input i :
  Forall is_byte input → LendingInstruction.unpack input = Ok i → LendingInstruction_ok i.
Proof.
  intros Hb H. destruct input as [|tag rest]; [done|]. apply Forall_cons in Hb as [_ Hb].
  unfold LendingInstruction.unpack in H.
  repeat case_match; try done; try (injection H as <-; done);
    try (eapply unpack_amount_ok; [|exact Hb|exact H]; done).
  all: repeat match goal with
       | H : (_ ≫= _) = Ok _ |- _ => apply bind_Ok in H as ([? ?] & ? & H)
       end; injection H as <-;
    repeat match goal with
    | H : LendingInstruction.unpack_config _ = Ok _ |- _ => apply unpack_config_ok in H; [|assumption]
    | H : LendingInstruction.unpack_u64 _ = Ok _ |- _ => apply unpack_int_ok in H as [? ?]; [|assumption]
    | H : LendingInstruction.unpack_pubkey _ = Ok _ |- _ => apply unpack_int_ok in H as [? ?]; [|assumption]
    | H : LendingInstruction.unpack_bytes32 _ = Ok _ |- _ => apply unpack_int_ok in H as [? ?]; [|assumption]
    end; done.
Qed.

Lemma instruction_unpack_pack i rest :
  LendingInstruction_ok i → LendingInstruction.unpack (LendingInstruction.pack i ++ rest) = Ok i.
Proof.
  intros Hi.
  destruct i; cbn [LendingInstruction.pack LendingInstruction.unpack app];
    cbn [LendingInstruction_ok] in Hi; try done;
    unfold LendingInstruction.unpack_amount, LendingInstruction.unpack_u64,
      LendingInstruction.unpack_pubkey, LendingInstruction.unpack_bytes32, PUBKEY_BYTES;
    rewrite <- ?(assoc_L (++)).
  1, 3: destruct Hi as [? ?].
  all: repeat first [rewrite unpack_int_app by done | rewrite unpack_config_app by done
                    | progress cbn [mbind result_bind]]; done.
Qed.

(** ** Properties *)

(** C37: decoding an encoded instruction gives the instruction back, and trailing
    bytes are ignored; decoding anything else fails with
    [InstructionUnpackError] and never panics. *)
Theorem instruction_roundtrip (i : LendingInstruction) (rest input : list Z)
    (Hi : LendingInstruction_ok i) :
  LendingInstruction.unpack (LendingInstruction.pack i ++ rest) = Ok i ∧
  throws [InstructionUnpackError] (LendingInstruction.unpack input).
Proof.
  split; [by apply instruction_unpack_pack|apply throws_unpack].
Qed.

Lemma instruction_roundtrip_witness :
  LendingInstruction.unpack (LendingInstruction.pack (InitReserve 5 sample_config) ++ [1; 2])
    = Ok (InitReserve 5 sample_config).
Proof.
  apply (instruction_roundtrip (InitReserve 5 sample_config) [1; 2] []).
  split; [decide_ok|]. apply (ok_r_config _ sample_reserve_ok).
Defined.
