(* ===== verification/Solana.v ===== *)
(** * The Solana runtime as the program sees it

    What [processor.rs] uses of [solana_program], [spl_token] and the
    Switchboard protocol buffers.  None of that code is part of the repository,
    so it is the class [Sdk], a parameter of every handler; [SdkLaws] states
    the documented behaviour that theorems rely on.  The accounts of a transaction
    are a store keyed by address: two [AccountInfo]s with the same key share
    their data, as the runtime's [RefCell]s do. *)

From Stdlib Require Export Floats.SpecFloat.
From S2P Require Import Prelude Errors FixedPoint StateBase.

(** ** Data *)

(** The handle that a handler receives; what it points to is in the store. *)
Record AccountInfo : Type := mkAccountInfo {
  key : Pubkey;
  is_signer : bool;
  is_writable : bool;
}.

Record AccountState : Type := mkAccountState {
  owner : Pubkey;
  lamports : Z;
  data : list Z;
}.

Record AccountMeta : Type := mkAccountMeta {
  pubkey : Pubkey;
  meta_is_signer : bool;
  meta_is_writable : bool;
}.

Record Instruction : Type := mkInstruction {
  ix_program_id : Pubkey;
  ix_accounts : list AccountMeta;
  ix_data : list Z;
}.

(** The fields of the [Clock] sysvar that the program reads; [unix_timestamp]
    is an [i64]. *)
Record Clock : Type := mkClock {
  clock_slot : Z;
  unix_timestamp : Z;
}.

(** A call of one of the instruction builders of [spl_token::instruction], with
    its arguments in the order of the call. *)
Inductive TokenCall : Type :=
| initialize_account (token_program account mint owner : Pubkey)
| initialize_mint (token_program mint authority : Pubkey) (freeze : option Pubkey) (decimals : Z)
| transfer (token_program source destination authority : Pubkey) (signers : list Pubkey) (amount : Z)
| mint_to (token_program mint destination authority : Pubkey) (signers : list Pubkey) (amount : Z)
| burn (token_program source mint authority : Pubkey) (signers : list Pubkey) (amount : Z).

Definition token_call_program (c : TokenCall) : Pubkey :=
  match c with
  | initialize_account tp _ _ _ | initialize_mint tp _ _ _ _
  | transfer tp _ _ _ _ _ | mint_to tp _ _ _ _ _ | burn tp _ _ _ _ _ => tp
  end.

(** What the Switchboard crate reads of its protocol-buffer messages; an [f64]
    is its IEEE value. *)
Record RoundResult : Type := mkRoundResult {
  rr_num_success : option Z;
  rr_round_open_slot : option Z;
  rr_result : option spec_float;
}.

Record AggregatorState : Type := mkAggregatorState {
  ag_min_confirmations : option (option Z);   (* [configs], then its field *)
  ag_current_round_result : option RoundResult;
  ag_last_round_result : option RoundResult;
}.

(** Signer seeds: the byte strings that derive one address. *)
Abbreviation Seeds := (list (list Z)).

Abbreviation Accounts := (gmap Pubkey AccountState).

#[export] Instance AccountState_eq_dec : EqDecision AccountState.
Proof. solve_decision. Defined.
#[export] Instance AccountInfo_eq_dec : EqDecision AccountInfo.
Proof. solve_decision. Defined.
#[export] Instance AccountMeta_eq_dec : EqDecision AccountMeta.
Proof. solve_decision. Defined.
#[export] Instance Instruction_eq_dec : EqDecision Instruction.
Proof. solve_decision. Defined.

(** ** Code outside the repository *)

Class Sdk : Type := {
  (* solana_program::account_info *)
  next_account_info : list AccountInfo → outcome (AccountInfo * list AccountInfo);
  (* solana_program::program_pack: the provided methods of the trait [Pack] *)
  pack_unpack : ∀ {A} `{Pack A} `{IsInitialized A}, list Z → outcome A;
  pack_unpack_unchecked : ∀ {A} `{Pack A}, list Z → outcome A;
  pack_pack : ∀ {A} `{Pack A}, A → list Z → outcome (list Z);
  (* solana_program::sysvar *)
  clock_from_account_info : AccountInfo → list Z → outcome Clock;
  clock_get : outcome Clock;
  Rent : Type;
  rent_from_account_info : AccountInfo → list Z → outcome Rent;
  rent_is_exempt : Rent → Z → nat → bool;
  (* solana_program::pubkey *)
  create_program_address : Seeds → Pubkey → outcome Pubkey;
  find_program_address : Seeds → Pubkey → Pubkey * Z;
  (* solana_program::program *)
  invoke_signed : Instruction → list AccountInfo → list Seeds → Accounts → outcome Accounts;
  (* solana_program::sysvar::clock::id, sysvar::rent::id and spl_token::id *)
  sysvar_clock_id : Pubkey;
  sysvar_rent_id : Pubkey;
  spl_token_id : Pubkey;
  (* spl_token *)
  token_instruction : TokenCall → outcome Instruction;
  mint_decimals : list Z → outcome Z;
  token_amount : list Z → outcome Z;
  (* switchboard_protos and quick_protobuf *)
  TYPE_AGGREGATOR : Z;
  deserialize_aggregator : list Z → option AggregatorState;
}.

(** ** The state of a transaction and its monad *)

(** [inner] lists the completed cross-program invocations, the newest last. *)
Record Invocation : Type := mkInvocation {
  inv_instruction : Instruction;
  inv_seeds : list Seeds;
}.

Record World : Type := mkWorld {
  accounts : Accounts;
  inner : list Invocation;
}.

(** A failed instruction reverts the transaction, so errors carry no state. *)
Definition M (A : Type) : Type := World → outcome (A * World).

#[export] Instance M_ret : MRet M := λ A a w, Ok (a, w).
#[export] Instance M_bind : MBind M := λ A B f m w,
  match m w with
  | Ok (a, w) => f a w
  | Err e => Err e
  | Panic => Panic
  end.

Definition lift {A} (m : outcome A) : M A := λ w, a ← m; Ok (a, w).

(** [if !cond { return Err(e.into()); }] *)
Definition check (cond : bool) (e : LendingError) : M unit := lift (require cond e).

Definition get : M World := λ w, Ok (w, w).

(** The account behind a handle. *)
Definition account_of (w : World) (k : Pubkey) : AccountState :=
  default (mkAccountState 0 0 []) (accounts w !! k).

Definition data_of (info : AccountInfo) : M (list Z) := λ w, Ok (data (account_of w (key info)), w).
Definition owner_of (info : AccountInfo) : M Pubkey := λ w, Ok (owner (account_of w (key info)), w).
Definition lamports_of (info : AccountInfo) : M Z :=
  λ w, Ok (lamports (account_of w (key info)), w).

Definition set_account (w : World) (k : Pubkey) (bs : list Z) : World :=
  mkWorld
    (<[k := mkAccountState (owner (account_of w k)) (lamports (account_of w k)) bs]> (accounts w))
    (inner w).

Definition write_data (info : AccountInfo) (bs : list Z) : M unit :=
  λ w, Ok (tt, set_account w (key info) bs).

(** A handler's list of accounts, consumed by [next_account_info(iter)?]. *)
Section sdk.
Context `{Sdk}.

Definition next (iter : list AccountInfo) : M (AccountInfo * list AccountInfo) :=
  lift (next_account_info iter).

(** [T::unpack(&info.data.borrow())?] *)
Definition unpack (A : Type) `{Pack A} `{IsInitialized A} (info : AccountInfo) : M A :=
  bs ← data_of info;
  lift (pack_unpack bs).

Definition unpack_unchecked (A : Type) `{Pack A} (info : AccountInfo) : M A :=
  bs ← data_of info;
  lift (pack_unpack_unchecked bs).

(** [T::pack(a, &mut info.data.borrow_mut())?] *)
Definition pack {A} `{Pack A} (a : A) (info : AccountInfo) : M unit :=
  bs ← data_of info;
  bs ← lift (pack_pack a bs);
  write_data info bs.

(** [Clock::from_account_info(info)?], [Rent::from_account_info(info)?] *)
Definition clock_of (info : AccountInfo) : M Clock :=
  bs ← data_of info;
  lift (clock_from_account_info info bs).

Definition rent_of (info : AccountInfo) : M Rent :=
  bs ← data_of info;
  lift (rent_from_account_info info bs).

(** [invoke] is [invoke_signed] without seeds. *)
Definition run_cpi (ix : Instruction) (infos : list AccountInfo) (seeds : list Seeds) : M unit :=
  λ w,
    accounts ← invoke_signed ix infos seeds (accounts w);
    Ok (tt, mkWorld accounts (inner w ++ [mkInvocation ix seeds])).

End sdk.

(** ** What the theorems assume of that code *)

Class SdkLaws `{Sdk} (program_id : Pubkey) : Prop := {
  (* [Iterator::next], or [NotEnoughAccountKeys] *)
  next_account_info_nil : next_account_info [] = Err NotEnoughAccountKeys;
  next_account_info_cons : ∀ a l, next_account_info (a :: l) = Ok (a, l);
  (* [Pack] checks the length of the buffer before it calls the type's methods *)
  pack_unpack_unchecked_eq : ∀ A `{!Pack A} bs,
    pack_unpack_unchecked (A := A) bs =
      if decide (length bs = LEN A) then unpack_from_slice bs else Err InvalidAccountData;
  pack_unpack_eq : ∀ A `{!Pack A} `{!IsInitialized A} bs,
    pack_unpack (A := A) bs =
      (a ← pack_unpack_unchecked bs;
       if is_initialized a then Ok a else Err UninitializedAccount);
  pack_pack_eq : ∀ A `{!Pack A} (a : A) bs,
    pack_pack a bs =
      if decide (length bs = LEN A) then pack_into_slice a bs else Err InvalidAccountData;
  (* the widths of the results *)
  clock_from_account_info_u64 : ∀ info bs clock,
    clock_from_account_info info bs = Ok clock → is_u64 (clock_slot clock);
  clock_get_u64 : ∀ clock, clock_get = Ok clock → is_u64 (clock_slot clock);
  find_program_address_u8 : ∀ seeds id, is_u8 (snd (find_program_address seeds id));
  mint_decimals_u8 : ∀ bs n, mint_decimals bs = Ok n → is_u8 n;
  (* a token instruction is addressed to the token program, which is not the caller *)
  token_instruction_program : ∀ c ix,
    token_instruction c = Ok ix → ix_program_id ix = token_call_program c ∧
    ix_program_id ix ≠ program_id;
  (* account data is bytes *)
  invoke_signed_bytes : ∀ ix infos seeds accs accs',
    invoke_signed ix infos seeds accs = Ok accs' →
    map_Forall (λ _ a, Forall is_byte (data a)) accs →
    map_Forall (λ _ a, Forall is_byte (data a)) accs';
  (* only the owner of an account may change its data or its owner, and a
     program cannot be re-entered through another one *)
  invoke_signed_frame : ∀ ix infos seeds accs accs' k a,
    invoke_signed ix infos seeds accs = Ok accs' →
    ix_program_id ix ≠ program_id →
    accs !! k = Some a → owner a = program_id →
    ∃ a', accs' !! k = Some a' ∧ owner a' = owner a ∧ data a' = data a;
  (* an account is created with, and handed to another owner only with, zeroed data *)
  invoke_signed_new : ∀ ix infos seeds accs accs' k a',
    invoke_signed ix infos seeds accs = Ok accs' →
    ix_program_id ix ≠ program_id →
    accs' !! k = Some a' → owner a' = program_id →
    (∃ a, accs !! k = Some a ∧ owner a = program_id) ∨ Forall (eq 0) (data a');
}.

(** ** Running the monad *)

Lemma M_bind_Ok {A B} (m : M A) (f : A → M B) w b w' :
  (m ≫= f) w = Ok (b, w') ↔ ∃ a w1, m w = Ok (a, w1) ∧ f a w1 = Ok (b, w').
Proof.
  unfold mbind, M_bind. destruct (m w) as [[a w1]|e|]; split; try naive_solver.
Qed.

Lemma M_ret_Ok {A} (a : A) w b w' : (mret a : M A) w = Ok (b, w') ↔ b = a ∧ w' = w.
Proof. unfold mret, M_ret. naive_solver. Qed.

Lemma lift_Ok {A} (m : outcome A) w b w' : lift m w = Ok (b, w') ↔ m = Ok b ∧ w' = w.
Proof. unfold lift. rewrite bind_Ok. naive_solver. Qed.

Lemma check_Ok c e w u w' : check c e w = Ok (u, w') ↔ c = true ∧ w' = w.
Proof. unfold check. rewrite lift_Ok, require_Ok. done. Qed.

Lemma data_of_Ok info w bs w' :
  data_of info w = Ok (bs, w') ↔ bs = data (account_of w (key info)) ∧ w' = w.
Proof. unfold data_of. naive_solver. Qed.

Lemma owner_of_Ok info w o w' :
  owner_of info w = Ok (o, w') ↔ o = owner (account_of w (key info)) ∧ w' = w.
Proof. unfold owner_of. naive_solver. Qed.

Lemma lamports_of_Ok info w n w' :
  lamports_of info w = Ok (n, w') ↔ n = lamports (account_of w (key info)) ∧ w' = w.
Proof. unfold lamports_of. naive_solver. Qed.

Lemma write_data_Ok info bs w u w' :
  write_data info bs w = Ok (u, w') ↔ w' = set_account w (key info) bs.
Proof. unfold write_data. destruct u. naive_solver. Qed.

(** ** Inversion of a successful run *)

Ltac inv_m_step :=
  match goal with
  | H : (_ ≫= _) _ = Ok _ |- _ =>
      apply M_bind_Ok in H; destruct H as (? & ? & ? & H)
  | H : (mret _ : M _) _ = Ok _ |- _ => apply M_ret_Ok in H as [? ?]
  | H : check _ _ _ = Ok _ |- _ => apply check_Ok in H as [? ?]
  | H : lift _ _ = Ok _ |- _ => apply lift_Ok in H as [? ?]
  | H : data_of _ _ = Ok _ |- _ => apply data_of_Ok in H as [? ?]
  | H : owner_of _ _ = Ok _ |- _ => apply owner_of_Ok in H as [? ?]
  | H : lamports_of _ _ = Ok _ |- _ => apply lamports_of_Ok in H as [? ?]
  | H : write_data _ _ _ = Ok _ |- _ => apply write_data_Ok in H
  | x : unit |- _ => destruct x
  | x : (_ * _)%type |- _ => destruct x
  | H : ?x = ?y |- _ => is_var x; subst x
  | H : ?x = ?y |- _ => is_var y; subst y
  end.

Ltac inv_m := repeat inv_m_step.

(** ** The store *)

Lemma account_of_set w k bs :
  account_of (set_account w k bs) k =
  mkAccountState (owner (account_of w k)) (lamports (account_of w k)) bs.
Proof. unfold account_of, set_account. cbn [accounts]. by rewrite lookup_insert_eq. Qed.

Lemma account_of_set_ne w k k' bs : k ≠ k' → account_of (set_account w k bs) k' = account_of w k'.
Proof. intros. unfold account_of, set_account. cbn [accounts]. by rewrite lookup_insert_ne. Qed.

(** Writing an account keeps every owner. *)
Lemma owner_set w k bs k' : owner (account_of (set_account w k bs) k') = owner (account_of w k').
Proof.
  destruct (decide (k = k')) as [<-|]; [by rewrite account_of_set|by rewrite account_of_set_ne].
Qed.

Lemma data_set w k bs : data (account_of (set_account w k bs) k) = bs.
Proof. by rewrite account_of_set. Qed.

Lemma data_set_ne w k bs k' :
  k ≠ k' → data (account_of (set_account w k bs) k') = data (account_of w k').
Proof. intros. by rewrite account_of_set_ne. Qed.

Lemma inner_set w k bs : inner (set_account w k bs) = inner w.
Proof. done. Qed.
