(* ===== verification/Builders.v ===== *)
(** * Instruction builders

    The functions of [token-lending/program/src/instruction.rs] that clients
    call to build an instruction of the program: which accounts it lists, in
    which order, and which of them it marks as writable and as signers. *)

From S2P Require Import Prelude Errors FixedPoint StateBase Reserve Solana Instruction.

(** [AccountMeta::new] and [AccountMeta::new_readonly] *)
Definition meta_new (pubkey : Pubkey) (is_signer : bool) : AccountMeta :=
  mkAccountMeta pubkey is_signer true.
Definition meta_new_readonly (pubkey : Pubkey) (is_signer : bool) : AccountMeta :=
  mkAccountMeta pubkey is_signer false.

Module instruction.
Section builders.
Context `{Sdk}.
Implicit Types (program_id : Pubkey).

(** [Pubkey::find_program_address(&[&lending_market_pubkey.to_bytes()[..PUBKEY_BYTES]], &program_id).0] *)
Definition lending_market_authority program_id (lending_market_pubkey : Pubkey) : Pubkey :=
  fst (find_program_address [le_bytes PUBKEY_BYTES lending_market_pubkey] program_id).

Definition init_lending_market program_id (owner : Pubkey) (quote_currency : Z)
    (lending_market_pubkey oracle_program_id switchboard_oracle_program_id : Pubkey) :
    Instruction := {|
  ix_program_id := program_id;
  ix_accounts :=
    [meta_new lending_market_pubkey false;
     meta_new_readonly sysvar_rent_id false;
     meta_new_readonly spl_token_id false;
     meta_new_readonly oracle_program_id false;
     meta_new_readonly switchboard_oracle_program_id false];
  ix_data := LendingInstruction.pack (InitLendingMarket owner quote_currency);
|}.

Definition set_lending_market_owner program_id
    (lending_market_pubkey lending_market_owner new_owner : Pubkey) : Instruction := {|
  ix_program_id := program_id;
  ix_accounts :=
    [meta_new lending_market_pubkey false;
     meta_new_readonly lending_market_owner true];
  ix_data := LendingInstruction.pack (SetLendingMarketOwner new_owner);
|}.

Definition init_reserve program_id (liquidity_amount : Z) (config : ReserveConfig)
    (source_liquidity_pubkey destination_collateral_pubkey reserve_pubkey
     reserve_liquidity_mint_pubkey reserve_liquidity_supply_pubkey reserve_collateral_mint_pubkey
     reserve_collateral_supply_pubkey pyth_product_pubkey pyth_price_pubkey switchboard_feed_pubkey
     lending_market_pubkey lending_market_owner_pubkey user_transfer_authority_pubkey : Pubkey) :
    Instruction := {|
  ix_program_id := program_id;
  ix_accounts :=
    [meta_new source_liquidity_pubkey false;
     meta_new destination_collateral_pubkey false;
     meta_new reserve_pubkey false;
     meta_new_readonly reserve_liquidity_mint_pubkey false;
     meta_new reserve_liquidity_supply_pubkey false;
     meta_new (fee_receiver config) false;
     meta_new reserve_collateral_mint_pubkey false;
     meta_new reserve_collateral_supply_pubkey false;
     meta_new_readonly pyth_product_pubkey false;
     meta_new_readonly pyth_price_pubkey false;
     meta_new_readonly switchboard_feed_pubkey false;
     meta_new_readonly lending_market_pubkey false;
     meta_new_readonly (lending_market_authority program_id lending_market_pubkey) false;
     meta_new_readonly lending_market_owner_pubkey true;
     meta_new_readonly user_transfer_authority_pubkey true;
     meta_new_readonly sysvar_clock_id false;
     meta_new_readonly sysvar_rent_id false;
     meta_new_readonly spl_token_id false];
  ix_data := LendingInstruction.pack (InitReserve liquidity_amount config);
|}.

Definition refresh_reserve program_id
    (reserve_pubkey reserve_liquidity_pyth_oracle_pubkey
     reserve_liquidity_switchboard_oracle_pubkey : Pubkey) : Instruction := {|
  ix_program_id := program_id;
  ix_accounts :=
    [meta_new reserve_pubkey false;
     meta_new_readonly reserve_liquidity_pyth_oracle_pubkey false;
     meta_new_readonly reserve_liquidity_switchboard_oracle_pubkey false;
     meta_new_readonly sysvar_clock_id false];
  ix_data := LendingInstruction.pack RefreshReserve;
|}.

Definition deposit_reserve_liquidity program_id (liquidity_amount : Z)
    (source_liquidity_pubkey destination_collateral_pubkey reserve_pubkey
     reserve_liquidity_supply_pubkey reserve_collateral_mint_pubkey lending_market_pubkey
     user_transfer_authority_pubkey : Pubkey) : Instruction := {|
  ix_program_id := program_id;
  ix_accounts :=
    [meta_new source_liquidity_pubkey false;
     meta_new destination_collateral_pubkey false;
     meta_new reserve_pubkey false;
     meta_new reserve_liquidity_supply_pubkey false;
     meta_new reserve_collateral_mint_pubkey false;
     meta_new_readonly lending_market_pubkey false;
     meta_new_readonly (lending_market_authority program_id lending_market_pubkey) false;
     meta_new_readonly user_transfer_authority_pubkey true;
     meta_new_readonly sysvar_clock_id false;
     meta_new_readonly spl_token_id false];
  ix_data := LendingInstruction.pack (DepositReserveLiquidity liquidity_amount);
|}.

Definition redeem_reserve_collateral program_id (collateral_amount : Z)
    (source_collateral_pubkey destination_liquidity_pubkey reserve_pubkey
     reserve_collateral_mint_pubkey reserve_liquidity_supply_pubkey lending_market_pubkey
     user_transfer_authority_pubkey : Pubkey) : Instruction := {|
  ix_program_id := program_id;
  ix_accounts :=
    [meta_new source_collateral_pubkey false;
     meta_new destination_liquidity_pubkey false;
     meta_new reserve_pubkey false;
     meta_new reserve_collateral_mint_pubkey false;
     meta_new reserve_liquidity_supply_pubkey false;
     meta_new_readonly lending_market_pubkey false;
     meta_new_readonly (lending_market_authority program_id lending_market_pubkey) false;
     meta_new_readonly user_transfer_authority_pubkey true;
     meta_new_readonly sysvar_clock_id false;
     meta_new_readonly spl_token_id false];
  ix_data := LendingInstruction.pack (RedeemReserveCollateral collateral_amount);
|}.

Definition init_obligation program_id
    (obligation_pubkey lending_market_pubkey obligation_owner_pubkey : Pubkey) : Instruction := {|
  ix_program_id := program_id;
  ix_accounts :=
    [meta_new obligation_pubkey false;
     meta_new_readonly lending_market_pubkey false;
     meta_new_readonly obligation_owner_pubkey true;
     meta_new_readonly sysvar_clock_id false;
     meta_new_readonly sysvar_rent_id false;
     meta_new_readonly spl_token_id false];
  ix_data := LendingInstruction.pack InitObligation;
|}.

Definition refresh_obligation program_id (obligation_pubkey : Pubkey)
    (reserve_pubkeys : list Pubkey) : Instruction := {|
  ix_program_id := program_id;
  ix_accounts :=
    [meta_new obligation_pubkey false;
     meta_new_readonly sysvar_clock_id false]
    ++ ((λ pubkey, meta_new_readonly pubkey false) <$> reserve_pubkeys);
  ix_data := LendingInstruction.pack RefreshObligation;
|}.

Definition deposit_obligation_collateral program_id (collateral_amount : Z)
    (source_collateral_pubkey destination_collateral_pubkey deposit_reserve_pubkey
     obligation_pubkey lending_market_pubkey obligation_owner_pubkey
     user_transfer_authority_pubkey : Pubkey) : Instruction := {|
  ix_program_id := program_id;
  ix_accounts :=
    [meta_new source_collateral_pubkey false;
     meta_new destination_collateral_pubkey false;
     meta_new deposit_reserve_pubkey false;
     meta_new obligation_pubkey false;
     meta_new_readonly lending_market_pubkey false;
     meta_new_readonly obligation_owner_pubkey true;
     meta_new_readonly user_transfer_authority_pubkey true;
     meta_new_readonly sysvar_clock_id false;
     meta_new_readonly spl_token_id false];
  ix_data := LendingInstruction.pack (DepositObligationCollateral collateral_amount);
|}.

Definition deposit_reserve_liquidity_and_obligation_collateral program_id (liquidity_amount : Z)
    (source_liquidity_pubkey user_collateral_pubkey reserve_pubkey reserve_liquidity_supply_pubkey
     reserve_collateral_mint_pubkey lending_market_pubkey destination_deposit_collateral_pubkey
     obligation_pubkey obligation_owner_pubkey reserve_liquidity_pyth_oracle_pubkey
     reserve_liquidity_switchboard_oracle_pubkey user_transfer_authority_pubkey : Pubkey) :
    Instruction := {|
  ix_program_id := program_id;
  ix_accounts :=
    [meta_new source_liquidity_pubkey false;
     meta_new user_collateral_pubkey false;
     meta_new reserve_pubkey false;
     meta_new reserve_liquidity_supply_pubkey false;
     meta_new reserve_collateral_mint_pubkey false;
     meta_new_readonly lending_market_pubkey false;
     meta_new_readonly (lending_market_authority program_id lending_market_pubkey) false;
     meta_new destination_deposit_collateral_pubkey false;
     meta_new obligation_pubkey false;
     meta_new obligation_owner_pubkey true;
     meta_new_readonly reserve_liquidity_pyth_oracle_pubkey false;
     meta_new_readonly reserve_liquidity_switchboard_oracle_pubkey false;
     meta_new_readonly user_transfer_authority_pubkey true;
     meta_new_readonly sysvar_clock_id false;
     meta_new_readonly spl_token_id false];
  ix_data := LendingInstruction.pack (DepositReserveLiquidityAndObligationCollateral liquidity_amount);
|}.

Definition withdraw_obligation_collateral_and_redeem_reserve_collateral program_id
    (collateral_amount : Z)
    (source_collateral_pubkey destination_collateral_pubkey withdraw_reserve_pubkey
     obligation_pubkey lending_market_pubkey destination_liquidity_pubkey
     reserve_collateral_mint_pubkey reserve_liquidity_supply_pubkey obligation_owner_pubkey
     user_transfer_authority_pubkey : Pubkey) : Instruction := {|
  ix_program_id := program_id;
  ix_accounts :=
    [meta_new source_collateral_pubkey false;
     meta_new destination_collateral_pubkey false;
     meta_new withdraw_reserve_pubkey false;
     meta_new obligation_pubkey false;
     meta_new_readonly lending_market_pubkey false;
     meta_new_readonly (lending_market_authority program_id lending_market_pubkey) false;
     meta_new destination_liquidity_pubkey false;
     meta_new reserve_collateral_mint_pubkey false;
     meta_new reserve_liquidity_supply_pubkey false;
     meta_new obligation_owner_pubkey true;
     meta_new_readonly user_transfer_authority_pubkey true;
     meta_new_readonly sysvar_clock_id false;
     meta_new_readonly spl_token_id false];
  ix_data :=
    LendingInstruction.pack (WithdrawObligationCollateralAndRedeemReserveCollateral collateral_amount);
|}.

Definition withdraw_obligation_collateral program_id (collateral_amount : Z)
    (source_collateral_pubkey destination_collateral_pubkey withdraw_reserve_pubkey
     obligation_pubkey lending_market_pubkey obligation_owner_pubkey : Pubkey) : Instruction := {|
  ix_program_id := program_id;
  ix_accounts :=
    [meta_new source_collateral_pubkey false;
     meta_new destination_collateral_pubkey false;
     meta_new_readonly withdraw_reserve_pubkey false;
     meta_new obligation_pubkey false;
     meta_new_readonly lending_market_pubkey false;
     meta_new_readonly (lending_market_authority program_id lending_market_pubkey) false;
     meta_new_readonly obligation_owner_pubkey true;
     meta_new_readonly sysvar_clock_id false;
     meta_new_readonly spl_token_id false];
  ix_data := LendingInstruction.pack (WithdrawObligationCollateral collateral_amount);
|}.

Definition borrow_obligation_liquidity program_id (liquidity_amount : Z)
    (source_liquidity_pubkey destination_liquidity_pubkey borrow_reserve_pubkey
     borrow_reserve_liquidity_fee_receiver_pubkey obligation_pubkey lending_market_pubkey
     obligation_owner_pubkey : Pubkey) (host_fee_receiver_pubkey : option Pubkey) :
    Instruction := {|
  ix_program_id := program_id;
  ix_accounts :=
    [meta_new source_liquidity_pubkey false;
     meta_new destination_liquidity_pubkey false;
     meta_new borrow_reserve_pubkey false;
     meta_new borrow_reserve_liquidity_fee_receiver_pubkey false;
     meta_new obligation_pubkey false;
     meta_new_readonly lending_market_pubkey false;
     meta_new_readonly (lending_market_authority program_id lending_market_pubkey) false;
     meta_new_readonly obligation_owner_pubkey true;
     meta_new_readonly sysvar_clock_id false;
     meta_new_readonly spl_token_id false]
    ++ match host_fee_receiver_pubkey with
       | Some host_fee_receiver_pubkey => [meta_new host_fee_receiver_pubkey false]
       | None => []
       end;
  ix_data := LendingInstruction.pack (BorrowObligationLiquidity liquidity_amount);
|}.

Definition repay_obligation_liquidity program_id (liquidity_amount : Z)
    (source_liquidity_pubkey destination_liquidity_pubkey repay_reserve_pubkey obligation_pubkey
     lending_market_pubkey user_transfer_authority_pubkey : Pubkey) : Instruction := {|
  ix_program_id := program_id;
  ix_accounts :=
    [meta_new source_liquidity_pubkey false;
     meta_new destination_liquidity_pubkey false;
     meta_new repay_reserve_pubkey false;
     meta_new obligation_pubkey false;
     meta_new_readonly lending_market_pubkey false;
     meta_new_readonly user_transfer_authority_pubkey true;
     meta_new_readonly sysvar_clock_id false;
     meta_new_readonly spl_token_id false];
  ix_data := LendingInstruction.pack (RepayObligationLiquidity liquidity_amount);
|}.

Definition liquidate_obligation program_id (liquidity_amount : Z)
    (source_liquidity_pubkey destination_collateral_pubkey repay_reserve_pubkey
     repay_reserve_liquidity_supply_pubkey withdraw_reserve_pubkey
     withdraw_reserve_collateral_supply_pubkey obligation_pubkey lending_market_pubkey
     user_transfer_authority_pubkey : Pubkey) : Instruction := {|
  ix_program_id := program_id;
  ix_accounts :=
    [meta_new source_liquidity_pubkey false;
     meta_new destination_collateral_pubkey false;
     meta_new repay_reserve_pubkey false;
     meta_new repay_reserve_liquidity_supply_pubkey false;
     meta_new_readonly withdraw_reserve_pubkey false;
     meta_new withdraw_reserve_collateral_supply_pubkey false;
     meta_new obligation_pubkey false;
     meta_new_readonly lending_market_pubkey false;
     meta_new_readonly (lending_market_authority program_id lending_market_pubkey) false;
     meta_new_readonly user_transfer_authority_pubkey true;
     meta_new_readonly sysvar_clock_id false;
     meta_new_readonly spl_token_id false];
  ix_data := LendingInstruction.pack (LiquidateObligation liquidity_amount);
|}.

Definition generic_flash_loan program_id (amount : Z)
    (source_liquidity_pubkey destination_liquidity_pubkey reserve_pubkey
     reserve_liquidity_fee_receiver_pubkey host_fee_receiver_pubkey lending_market_pubkey
     flash_loan_receiver_program_id : Pubkey)
    (flash_loan_receiver_program_accounts : list AccountMeta) : Instruction := {|
  ix_program_id := program_id;
  ix_accounts :=
    [meta_new source_liquidity_pubkey false;
     meta_new destination_liquidity_pubkey false;
     meta_new reserve_pubkey false;
     meta_new reserve_liquidity_fee_receiver_pubkey false;
     meta_new host_fee_receiver_pubkey false;
     meta_new_readonly lending_market_pubkey false;
     meta_new_readonly (lending_market_authority program_id lending_market_pubkey) false;
     meta_new_readonly spl_token_id false;
     meta_new_readonly flash_loan_receiver_program_id false]
    ++ flash_loan_receiver_program_accounts;
  ix_data := LendingInstruction.pack (FlashLoan amount);
|}.

Definition flash_loan program_id (amount : Z)
    (source_liquidity_pubkey destination_liquidity_pubkey reserve_pubkey
     reserve_liquidity_fee_receiver_pubkey host_fee_receiver_pubkey lending_market_pubkey
     flash_loan_receiver_program_id : Pubkey)
    (flash_loan_receiver_program_accounts : list AccountMeta) : Instruction := {|
  ix_program_id := program_id;
  ix_accounts :=
    [meta_new source_liquidity_pubkey false;
     meta_new destination_liquidity_pubkey false;
     meta_new reserve_pubkey false;
     meta_new reserve_liquidity_fee_receiver_pubkey false;
     meta_new host_fee_receiver_pubkey false;
     meta_new_readonly lending_market_pubkey false;
     meta_new_readonly (lending_market_authority program_id lending_market_pubkey) false;
     meta_new_readonly spl_token_id false;
     meta_new_readonly flash_loan_receiver_program_id false]
    ++ flash_loan_receiver_program_accounts;
  ix_data := LendingInstruction.pack (FlashLoan amount);
|}.

Definition update_reserve_config program_id (config : ReserveConfig)
    (reserve_pubkey lending_market_pubkey lending_market_owner_pubkey pyth_product_pubkey
     pyth_price_pubkey switchboard_feed_pubkey : Pubkey) : Instruction := {|
  ix_program_id := program_id;
  ix_accounts :=
    [meta_new reserve_pubkey false;
     meta_new_readonly lending_market_pubkey false;
     meta_new_readonly (lending_market_authority program_id lending_market_pubkey) false;
     meta_new_readonly lending_market_owner_pubkey true;
     meta_new_readonly pyth_product_pubkey false;
     meta_new_readonly pyth_price_pubkey false;
     meta_new_readonly switchboard_feed_pubkey false];
  ix_data := LendingInstruction.pack (UpdateReserveConfig config);
|}.

Definition liquidate_obligation_and_redeem_reserve_collateral program_id (liquidity_amount : Z)
    (source_liquidity_pubkey destination_collateral_pubkey destination_liquidity_pubkey
     repay_reserve_pubkey repay_reserve_liquidity_supply_pubkey withdraw_reserve_pubkey
     withdraw_reserve_collateral_mint_pubkey withdraw_reserve_collateral_supply_pubkey
     withdraw_reserve_liquidity_supply_pubkey withdraw_reserve_liquidity_fee_receiver_pubkey
     obligation_pubkey lending_market_pubkey user_transfer_authority_pubkey : Pubkey) :
    Instruction := {|
  ix_program_id := program_id;
  ix_accounts :=
    [meta_new source_liquidity_pubkey false;
     meta_new destination_collateral_pubkey false;
     meta_new destination_liquidity_pubkey false;
     meta_new repay_reserve_pubkey false;
     meta_new repay_reserve_liquidity_supply_pubkey false;
     meta_new withdraw_reserve_pubkey false;
     meta_new withdraw_reserve_collateral_mint_pubkey false;
     meta_new withdraw_reserve_collateral_supply_pubkey false;
     meta_new withdraw_reserve_liquidity_supply_pubkey false;
     meta_new withdraw_reserve_liquidity_fee_receiver_pubkey false;
     meta_new obligation_pubkey false;
     meta_new_readonly lending_market_pubkey false;
     meta_new_readonly (lending_market_authority program_id lending_market_pubkey) false;
     meta_new_readonly user_transfer_authority_pubkey true;
     meta_new_readonly spl_token_id false];
  ix_data := LendingInstruction.pack (LiquidateObligationAndRedeemReserveCollateral liquidity_amount);
|}.

Definition redeem_fees program_id
    (reserve_pubkey reserve_liquidity_fee_receiver_pubkey reserve_supply_liquidity_pubkey
     lending_market_pubkey : Pubkey) : Instruction := {|
  ix_program_id := program_id;
  ix_accounts :=
    [meta_new reserve_pubkey false;
     meta_new reserve_liquidity_fee_receiver_pubkey false;
     meta_new reserve_supply_liquidity_pubkey false;
     meta_new_readonly lending_market_pubkey false;
     meta_new_readonly (lending_market_authority program_id lending_market_pubkey) false;
     meta_new_readonly spl_token_id false];
  ix_data := LendingInstruction.pack RedeemFees;
|}.

End builders.
End instruction.
