(* ===== verification/Switchboard.v ===== *)
(** * Switchboard feeds

    The parts of the repository's copies of the Switchboard crates
    ([overriden/switchboard-program-0.2.1] and [overriden/switchboard-v2-0.1.10])
    that the lending program calls: reading a feed and choosing the round whose
    result counts. *)

From S2P Require Import Prelude Errors FixedPoint StateBase Solana.

(** ** Version 1: [switchboard-program-0.2.1/src/lib.rs] *)

(** [<] of [Option<i32>]: [None] comes first. *)
Definition option_ltb (a b : option Z) : bool :=
  match a, b with
  | None, Some _ => true
  | Some a, Some b => a <? b
  | _, None => false
  end.

Definition is_current_round_valid (aggregator : AggregatorState) : outcome bool :=
  match ag_current_round_result aggregator with
  | None => mret false
  | Some round =>
      min_confirmations ← ok_or InvalidAccountData (ag_min_confirmations aggregator);
      mret (negb (option_ltb (rr_num_success round) min_confirmations))
  end.

Definition get_aggregator_result (aggregator : AggregatorState) : outcome RoundResult :=
  valid ← is_current_round_valid aggregator;
  ok_or InvalidAccountData
    (if (valid : bool) then ag_current_round_result aggregator else ag_last_round_result aggregator).

(** [state_buffer] is what [try_borrow_data] returns. *)
Definition get_aggregator `{Sdk} (state_buffer : list Z) : outcome AggregatorState :=
  match state_buffer with
  | [] => Err InvalidAccountData
  | tag :: rest =>
      _ ← ensure (tag =? TYPE_AGGREGATOR) InvalidAccountData;
      ok_or InvalidAccountData (deserialize_aggregator rest)
  end.

(** ** Version 2: [switchboard-v2-0.1.10/src/{aggregator,decimal,error}.rs] *)

Record SwitchboardDecimal : Type := mkSwitchboardDecimal {
  mantissa : Z;   (* i128 *)
  scale : Z;      (* u32 *)
}.

Module AggregatorAccountData.

(** Custom error codes of an Anchor program start at 6000. *)
Definition InvalidAggregatorRound : ProgramError := Custom 6000.
Definition AccountDiscriminatorMismatch : ProgramError := Custom 6004.

Definition discriminator : list Z := [217; 230; 65; 101; 201; 162; 27; 125].

(** The packed sizes of the fields of [AggregatorRound] and of
    [AggregatorAccountData]. *)
Definition round_layout : list nat :=
  [4; 4; 1; 8; 8; 20; 20; 20; 20; 16 * 32; 16 * 20; 16 * 8; 16; 16]%nat.

Definition layout : list nat :=
  [32; 128; 32; 32; 4; 4; 4; 4; 8; 20; 8; 8; 8; 8; 1; 32; sum_list round_layout;
   sum_list round_layout; 16 * 32; 16 * 32; 4; 32; 32; 224]%nat.

(** The fields that are read: [min_oracle_results], and of the latest confirmed
    round [num_success], [round_open_slot] and [result]. *)
Record t : Type := mk {
  min_oracle_results : Z;
  num_success : Z;
  round_open_slot : Z;
  result : SwitchboardDecimal;
}.

Definition decimal_of_bytes (bs : list Z) : SwitchboardDecimal :=
  mkSwitchboardDecimal (to_signed 128 (of_le_bytes (take 16 bs))) (of_le_bytes (drop 16 bs)).

Definition of_bytes (bs : list Z) : t :=
  let segs := array_refs layout bs in
  let round := array_refs round_layout (seg 16 segs) in
  mk (of_le_bytes (seg 5 segs)) (of_le_bytes (seg 0 round)) (of_le_bytes (seg 3 round))
    (decimal_of_bytes (seg 5 round)).

(** [&data[..8]] panics on short data, [bytemuck::from_bytes] on any other size
    than the record's. *)
Definition new (data : list Z) : outcome t :=
  if (length data <? 8)%nat then Panic
  else if decide (take 8 data = discriminator) then
    if decide (length (drop 8 data) = sum_list layout) then Ok (of_bytes (drop 8 data)) else Panic
  else Err AccountDiscriminatorMismatch.

Definition get_result (self : t) : outcome SwitchboardDecimal :=
  _ ← ensure (negb (num_success self <? min_oracle_results self)) InvalidAggregatorRound;
  mret (result self).

End AggregatorAccountData.
