(* ===== verification/SwitchboardHistory.v ===== *)
(** * Switchboard decimals and histories

    [switchboard-v2-0.1.10/src/decimal.rs]: a mantissa and a scale, with the
    conversions from and to the 96-bit decimals of the crate [rust_decimal], which
    is outside the repository.  [history_buffer.rs]: the results of a feed over time
    and the search for the one that counts at a given time. *)

From Stdlib Require Import Floats.SpecFloat.
From stdpp Require Import sorting.
From S2P Require Import Prelude Errors Layouts StateBase Solana Switchboard.

(** ** [decimal.rs] *)

(** What the source uses of [rust_decimal::Decimal] *)
Class RustDecimal : Type := {
  Dec : Type;
  dec_mantissa : Dec → Z;
  dec_scale : Dec → Z;
  try_from_i128_with_scale : Z → Z → option Dec;
  dec_cmp : Dec → Dec → comparison;
  dec_round : Dec → Dec;
  dec_to_u64 : Dec → option Z;
  dec_to_i64 : Dec → option Z;
  dec_to_f64 : Dec → option spec_float;
  dec_from_f64 : spec_float → option Dec;
}.

(** The value of a decimal is its mantissa over a power of ten. *)
Class RustDecimalLaws `{RustDecimal} : Prop := {
  (* 96 bits of mantissa and a sign, and at most 28 decimal places *)
  dec_bounds : ∀ d, - 2 ^ 96 < dec_mantissa d < 2 ^ 96 ∧ 0 ≤ dec_scale d ≤ 28;
  try_from_some : ∀ m s d,
    try_from_i128_with_scale m s = Some d → dec_mantissa d = m ∧ dec_scale d = s;
  try_from_none : ∀ m s,
    try_from_i128_with_scale m s = None → ¬ (- 2 ^ 96 < m < 2 ^ 96 ∧ 0 ≤ s ≤ 28);
  (* the order of the values *)
  dec_cmp_value : ∀ a b,
    dec_cmp a b = (dec_mantissa a * 10 ^ dec_scale b ?= dec_mantissa b * 10 ^ dec_scale a);
  (* the integer part, if it fits; a negative number has no [u64] *)
  dec_to_u64_trunc : ∀ d, 0 < dec_mantissa d →
    dec_to_u64 d = (let n := dec_mantissa d / 10 ^ dec_scale d in if n <? 2 ^ 64 then Some n else None);
  dec_to_u64_negative : ∀ d, dec_mantissa d < 0 → dec_to_u64 d = None;
  (* to the nearest integer, and to an even one when two are as near *)
  dec_round_half : ∀ d, 0 ≤ dec_mantissa d →
    dec_mantissa (dec_round d) = 0 ↔ 2 * dec_mantissa d ≤ 10 ^ dec_scale d;
}.

Module SwitchboardDecimal.
Section decimal.
Context `{RustDecimal}.
Implicit Types (self other : SwitchboardDecimal).

Definition DecimalConversionError : ProgramError := Custom 6002.
Definition IntegerOverflowError : ProgramError := Custom 6003.

Definition new (mantissa scale : Z) : SwitchboardDecimal := mkSwitchboardDecimal mantissa scale.

Definition from_rust_decimal (d : Dec) : SwitchboardDecimal := new (dec_mantissa d) (dec_scale d).

Definition from_f64 (v : spec_float) : outcome SwitchboardDecimal :=
  dec ← unwrap (dec_from_f64 v);
  mret (from_rust_decimal dec).

(** [TryInto<Decimal>], of a value and of a reference *)
Definition try_into_decimal self : outcome Dec :=
  ok_or DecimalConversionError (try_from_i128_with_scale (mantissa self) (scale self)).

(** The two sides of a comparison; a failed conversion panics. *)
Definition both_decimals self other : outcome (Dec * Dec) :=
  s ← unwrap_result (try_into_decimal self);
  other ← unwrap_result (try_into_decimal other);
  mret (s, other).

(** [Ord::cmp]; [partial_cmp] wraps the same in [Some]. *)
Definition cmp self other : outcome comparison :=
  '(s, other) ← both_decimals self other;
  mret (dec_cmp s other).

Definition partial_cmp self other : outcome (option comparison) :=
  '(s, other) ← both_decimals self other;
  mret (Some (dec_cmp s other)).

Definition lt self other : outcome bool :=
  '(s, other) ← both_decimals self other;
  mret (match dec_cmp s other with Lt => true | _ => false end).

Definition le self other : outcome bool :=
  '(s, other) ← both_decimals self other;
  mret (match dec_cmp s other with Gt => false | _ => true end).

Definition gt self other : outcome bool :=
  '(s, other) ← both_decimals self other;
  mret (match dec_cmp s other with Gt => true | _ => false end).

Definition ge self other : outcome bool :=
  '(s, other) ← both_decimals self other;
  mret (match dec_cmp s other with Lt => false | _ => true end).

(** [From<SwitchboardDecimal> for bool] *)
Definition to_bool self : outcome bool :=
  dec ← unwrap_result (try_into_decimal self);
  mret (negb (dec_mantissa (dec_round dec) =? 0)).

Definition try_into_u64 self : outcome Z :=
  dec ← unwrap_result (try_into_decimal self);
  ok_or IntegerOverflowError (dec_to_u64 dec).

Definition try_into_i64 self : outcome Z :=
  dec ← unwrap_result (try_into_decimal self);
  ok_or IntegerOverflowError (dec_to_i64 dec).

Definition try_into_f64 self : outcome spec_float :=
  dec ← unwrap_result (try_into_decimal self);
  ok_or IntegerOverflowError (dec_to_f64 dec).

(** ** What a decimal can hold *)

Definition representable self : Prop := - 2 ^ 96 < mantissa self < 2 ^ 96 ∧ 0 ≤ scale self ≤ 28.

#[export] Instance representable_dec self : Decision (representable self).
Proof. unfold representable. apply _. Defined.

Context `{!RustDecimalLaws}.

Lemma try_into_decimal_Ok self :
  representable self → ∃ d, try_into_decimal self = Ok d ∧ from_rust_decimal d = self.
Proof.
  intros Hr. unfold try_into_decimal. destruct (try_from_i128_with_scale _ _) as [d|] eqn:E.
  - exists d. split; [done|]. destruct (try_from_some _ _ _ E) as [E1 E2], self.
    unfold from_rust_decimal, new. cbn in *. congruence.
  - by destruct (try_from_none _ _ E).
Qed.

Lemma try_into_decimal_Err self :
  ¬ representable self → try_into_decimal self = Err DecimalConversionError.
Proof.
  intros Hr. unfold try_into_decimal. destruct (try_from_i128_with_scale _ _) as [d|] eqn:E; [|done].
  destruct Hr. unfold representable. destruct (try_from_some _ _ _ E) as [<- <-]. apply dec_bounds.
Qed.

Lemma from_rust_decimal_representable d : representable (from_rust_decimal d).
Proof. apply (dec_bounds d). Qed.

(** The order of the values [mantissa / 10 ^ scale] *)
Definition value_compare self other : comparison :=
  mantissa self * 10 ^ scale other ?= mantissa other * 10 ^ scale self.

Lemma both_decimals_Ok self other :
  representable self → representable other →
  ∃ a b, both_decimals self other = Ok (a, b) ∧ dec_cmp a b = value_compare self other.
Proof.
  intros (a & Ha & Ea)%try_into_decimal_Ok (b & Hb & Eb)%try_into_decimal_Ok. exists a, b.
  unfold both_decimals. rewrite Ha, Hb. split; [done|].
  rewrite dec_cmp_value. by subst.
Qed.

Lemma both_decimals_Panic self other :
  ¬ (representable self ∧ representable other) → both_decimals self other = Panic.
Proof.
  intros Hr. unfold both_decimals. destruct (decide (representable self)) as [Hs|Hs].
  - destruct (try_into_decimal_Ok self Hs) as (a & -> & _). cbn.
    rewrite (try_into_decimal_Err other); [done|tauto].
  - by rewrite (try_into_decimal_Err self Hs).
Qed.

End decimal.
End SwitchboardDecimal.

Import SwitchboardDecimal.

(** ** Properties *)

(** Feed values compare by value.  If both are representable, a mantissa of
    96 bits and at most 28 decimal places, then every comparison is that of the
    mantissas over their powers of ten, and a value that went through a decimal
    comes back unchanged; if one is not, then every comparison panics and so do
    the conversions to a truth value and to an integer, although the latter
    returns its errors otherwise.  A positive value converts to its integer part,
    or to [IntegerOverflowError] when that exceeds 64 bits, and counts as true
    when it is above one half. *)
Theorem decimal_order_is_value_order `{RustDecimal} `{!RustDecimalLaws} (a b : SwitchboardDecimal) :
  (representable a ∧ representable b →
     cmp a b = Ok (value_compare a b) ∧ partial_cmp a b = Ok (Some (value_compare a b)) ∧
     lt a b = Ok (match value_compare a b with Lt => true | _ => false end) ∧
     le a b = Ok (match value_compare a b with Gt => false | _ => true end) ∧
     gt a b = Ok (match value_compare a b with Gt => true | _ => false end) ∧
     ge a b = Ok (match value_compare a b with Lt => false | _ => true end)) ∧
  (¬ (representable a ∧ representable b) →
     cmp a b = Panic ∧ partial_cmp a b = Panic ∧ lt a b = Panic ∧ le a b = Panic ∧ gt a b = Panic ∧
     ge a b = Panic) ∧
  (representable a ↔ (from_rust_decimal <$> try_into_decimal a) = Ok a) ∧
  (¬ representable a →
     try_into_decimal a = Err DecimalConversionError ∧ to_bool a = Panic ∧ try_into_u64 a = Panic) ∧
  (representable a → 0 < mantissa a →
     try_into_u64 a = (let n := mantissa a / 10 ^ scale a in
                       if n <? 2 ^ 64 then Ok n else Err IntegerOverflowError) ∧
     to_bool a = Ok (bool_decide (10 ^ scale a < 2 * mantissa a))).
Proof.
  split_and!.
  - intros [Ha Hb]. destruct (both_decimals_Ok a b Ha Hb) as (x & y & E & Ev).
    unfold cmp, partial_cmp, lt, le, gt, ge. rewrite E. cbn. by rewrite Ev.
  - intros Hn. unfold cmp, partial_cmp, lt, le, gt, ge. by rewrite both_decimals_Panic.
  - destruct (decide (representable a)) as [Ha|Ha].
    + destruct (try_into_decimal_Ok a Ha) as (d & -> & Ed). split; [|done]. intros _. cbn. by rewrite Ed.
    + rewrite try_into_decimal_Err by done. by split.
  - intros Ha. unfold to_bool, try_into_u64. by rewrite try_into_decimal_Err.
  - intros Ha Hp. destruct (try_into_decimal_Ok a Ha) as (d & E & <-). unfold to_bool, try_into_u64.
    rewrite E. cbn in *. rewrite dec_to_u64_trunc by done. cbv zeta. split; [by case_match|].
    f_equal. destruct (dec_round_half d) as [H1 H2]; [lia|].
    destruct (Z.eqb_spec (dec_mantissa (dec_round d)) 0) as [E0|E0]; case_bool_decide; try done; exfalso.
    + specialize (H1 E0). lia.
    + apply E0, H2. lia.
Qed.

(** Decimals as switchboard decimals within the bounds, without floats; a decimal
    without fraction is its integer part. *)
Definition half_even (m d : Z) : Z :=
  let q := m / d in
  match 2 * (m mod d) ?= d with Lt => q | Gt => q + 1 | Eq => if Z.even q then q else q + 1 end.

Definition checked (m s : Z) : option {d : SwitchboardDecimal | bool_decide (representable d)} :=
  match decide (representable (new m s)) with
  | left Hr => Some (exist _ (new m s) (bool_decide_pack _ Hr))
  | right _ => None
  end.

#[local] Instance test_decimal : RustDecimal := {|
  Dec := {d : SwitchboardDecimal | bool_decide (representable d)};
  dec_mantissa := λ d, mantissa (`d);
  dec_scale := λ d, scale (`d);
  try_from_i128_with_scale := checked;
  dec_cmp := λ a b, value_compare (`a) (`b);
  dec_round := λ d, default d (checked (half_even (mantissa (`d)) (10 ^ scale (`d))) 0);
  dec_to_u64 := λ d,
    let n := mantissa (`d) / 10 ^ scale (`d) in
    if (0 <=? mantissa (`d)) && (n <? 2 ^ 64) then Some n else None;
  dec_to_i64 := λ d,
    let n := Z.quot (mantissa (`d)) (10 ^ scale (`d)) in
    if (- 2 ^ 63 <=? n) && (n <? 2 ^ 63) then Some n else None;
  dec_to_f64 := λ _, None;
  dec_from_f64 := λ _, None;
|}.

Lemma checked_Some m s d : checked m s = Some d → `d = new m s.
Proof. unfold checked. case_match; [|done]. by intros [= <-]. Qed.

Lemma checked_None m s : checked m s = None → ¬ representable (new m s).
Proof. unfold checked. by case_match. Qed.

Lemma half_even_zero m s : 0 ≤ m < 2 ^ 96 → 0 ≤ s →
  0 ≤ half_even m (10 ^ s) < 2 ^ 96 ∧ (half_even m (10 ^ s) = 0 ↔ 2 * m ≤ 10 ^ s).
Proof.
  intros Hm Hs. assert (Hd : 0 < 10 ^ s) by by apply Z.pow_pos_nonneg. unfold half_even.
  assert (Hone : s = 0 ∨ 2 ≤ 10 ^ s).
  { destruct (decide (s = 0)); [by left|right]. transitivity (10 ^ 1); [done|]. apply Z.pow_le_mono_r; lia. }
  pose proof (Z.div_mod m (10 ^ s)) as E. pose proof (Z.mod_pos_bound m (10 ^ s) Hd) as Hr.
  pose proof (Z.div_pos m (10 ^ s)). set (q := m / 10 ^ s) in *. set (d := 10 ^ s) in *.
  assert (Hq : q ≤ m) by nia.
  assert (Hq' : d ≤ 2 * (m mod d) → q + 1 < 2 ^ 96).
  { intros. destruct Hone as [->|]; [change d with 1 in *; lia|]. nia. }
  destruct (Z.compare_spec (2 * (m mod d)) d) as [Ec|Ec|Ec].
  - destruct (Z.even q) eqn:Ev; [|assert (q ≠ 0) by (intros ->; done)];
      (split; [lia|]); split; intros; nia.
  - split; [lia|]. split; intros; nia.
  - split; [lia|]. split; intros; nia.
Qed.

#[local] Instance test_decimal_laws : RustDecimalLaws.
Proof.
  split; cbn.
  - intros d. exact (bool_decide_unpack _ (proj2_sig d)).
  - intros m s d Hd%checked_Some. by rewrite Hd.
  - intros m s. apply checked_None.
  - done.
  - intros d Hd. rewrite (proj2 (Z.leb_le 0 _)) by lia. done.
  - intros d Hd. by rewrite (proj2 (Z.leb_gt 0 _)) by lia.
  - intros d Hd. destruct (bool_decide_unpack _ (proj2_sig d)) as [[_ Hm] [Hs _]].
    destruct (half_even_zero (mantissa (`d)) (scale (`d))) as [Hr <-]; [lia|done|].
    destruct (checked _ 0) as [x|] eqn:Ex; cbn; [by rewrite (checked_Some _ _ _ Ex)|].
    destruct (checked_None _ _ Ex). split; cbn; lia.
Qed.

(** 1.50 and 1.5 compare as equal, although they are different records; 10^40
    compares with nothing. *)
Lemma decimal_order_is_value_order_witness :
  cmp (new 150 2) (new 15 1) = Ok Eq ∧ new 150 2 ≠ new 15 1 ∧
  cmp (new 1 0) (new (10 ^ 40) 0) = Panic ∧ try_into_u64 (new 12345678 4) = Ok 1234.
Proof.
  destruct (decimal_order_is_value_order (new 150 2) (new 15 1)) as (H1 & _).
  destruct (decimal_order_is_value_order (new 1 0) (new (10 ^ 40) 0)) as (_ & H2 & _).
  destruct (decimal_order_is_value_order (new 12345678 4) (new 1 0)) as (_ & _ & _ & _ & H3).
  split; [apply H1; split; split; cbn; lia|]. split; [discriminate|].
  split; [apply H2; intros [_ [Hr _]]; cbn in Hr; lia|].
  apply H3; [split; cbn; lia|cbn; lia].
Defined.

(** ** [history_buffer.rs] *)

(** [SliceExt::lower_bound_by] of the crate superslice *)
Class Superslice : Type := {
  lower_bound_by : ∀ {A}, (A → comparison) → list A → nat;
}.

(** In a slice ordered by [f] it is the index of the first element that is not
    less. *)
Class SupersliceLaws `{Superslice} : Prop := {
  lower_bound_by_first : ∀ A (f : A → comparison) l i,
    (i ≤ length l)%nat → (∀ j x, l !! j = Some x → f x = Lt ↔ (j < i)%nat) → lower_bound_by f l = i;
}.

Definition decimal_layout : Layout SwitchboardDecimal :=
  fields (sint 16 ⊗ uint 4) (λ '(m, s), mkSwitchboardDecimal m s) (λ d, (mantissa d, scale d)).

Record AggregatorHistoryRow : Type := mkAggregatorHistoryRow {
  timestamp : Z;                   (* i64 *)
  value : SwitchboardDecimal;
}.

Definition row_layout : Layout AggregatorHistoryRow :=
  fields (sint 8 ⊗ decimal_layout) (λ '(t, v), mkAggregatorHistoryRow t v) (λ r, (timestamp r, value r)).

#[export] Instance decimal_layout_ok : LayoutOk decimal_layout.
Proof. solve_fields. Qed.

#[export] Instance row_layout_ok : LayoutOk row_layout.
Proof. solve_fields. Qed.

Module AggregatorHistoryBuffer.

Record t : Type := mk {
  insertion_idx : nat;
  rows : list AggregatorHistoryRow;
}.

(** [b"BUFFERxx"] *)
Definition discriminator : list Z := [66; 85; 70; 70; 69; 82; 120; 120].

(** Slices out of range panic, and so does [try_cast_slice] on a length that is
    no multiple of the size of a row; the data of an account is aligned. *)
Definition new (data : list Z) : outcome t :=
  if (length data <? 8)%nat then Panic
  else if decide (take 8 data = discriminator) then
    if (length data <? 12)%nat then Panic
    else
      let body := drop 12 data in
      let n := (length body / lay_size row_layout)%nat in
      if decide (length body mod lay_size row_layout = 0)%nat then
        Ok (mk (Z.to_nat (of_le_bytes (take 4 (drop 8 data)))) (lay_read (array n row_layout) body))
      else Panic
  else Err AggregatorAccountData.AccountDiscriminatorMismatch.

Section superslice.
Context `{Superslice}.

(** The row at the timestamp, or the one before it: done first for the rows up
    to the newest, then for those behind it *)
Definition search (slice : list AggregatorHistoryRow) (ts : Z) : outcome (option AggregatorHistoryRow) :=
  let ahr := lower_bound_by (λ x, timestamp x ?= ts) slice in
  exact ←
    (if (ahr <? length slice)%nat then
       row ← unwrap (slice !! ahr); mret (timestamp row =? ts)
     else mret false);
  if (exact : bool) then row ← unwrap (slice !! ahr); mret (Some row)
  else if (ahr =? 0)%nat then mret None
  else row ← unwrap (slice !! (ahr - 1)%nat); mret (Some row).

(** Return the previous row in the history buffer for a given timestamp. *)
Definition lower_bound (self : t) (ts : Z) : outcome (option AggregatorHistoryRow) :=
  current ← unwrap (rows self !! insertion_idx self);
  if timestamp current =? 0 then mret None
  else
    lower ← search (take (S (insertion_idx self)) (rows self)) ts;
    match lower with
    | Some row => mret (Some row)
    | None =>
        wrapped ←
          (if (S (insertion_idx self) <? length (rows self))%nat then
             row ← unwrap (rows self !! S (insertion_idx self)); mret (negb (timestamp row =? 0))
           else mret false);
        if (wrapped : bool) then search (drop (S (insertion_idx self)) (rows self)) ts
        else mret None
    end.

(** The rows that were written, the oldest first *)
Definition history (self : t) : list AggregatorHistoryRow :=
  match rows self !! insertion_idx self with
  | Some current =>
      if timestamp current =? 0 then []
      else
        (match rows self !! S (insertion_idx self) with
         | Some row => if timestamp row =? 0 then [] else drop (S (insertion_idx self)) (rows self)
         | None => []
         end) ++ take (S (insertion_idx self)) (rows self)
  | None => []
  end.

(** ** The search *)

Context `{!SupersliceLaws}.
Implicit Types (l : list AggregatorHistoryRow) (r : AggregatorHistoryRow).

Definition earlier r r' : Prop := timestamp r ≤ timestamp r'.

(** The newest row of [l] that is not after [ts], if there is one *)
Definition newest_until l ts (found : option AggregatorHistoryRow) : Prop :=
  match found with
  | Some r => r ∈ l ∧ timestamp r ≤ ts ∧ ∀ r', r' ∈ l → timestamp r' ≤ ts → timestamp r' ≤ timestamp r
  | None => ∀ r, r ∈ l → ts < timestamp r
  end.

(** In an ordered list the earlier rows are a prefix. *)
Lemma sorted_split l ts :
  StronglySorted earlier l →
  ∃ i, (i ≤ length l)%nat ∧ ∀ j x, l !! j = Some x → timestamp x < ts ↔ (j < i)%nat.
Proof.
  induction 1 as [|r l _ (i & Hi & Hs) Hr]; [by exists 0%nat|].
  destruct (decide (timestamp r < ts)) as [Hlt|Hge].
  - exists (S i). split; [cbn; lia|]. intros [|j] x; cbn; [|intros ->%Hs; lia].
    intros [= <-]. split; [lia|done].
  - exists 0%nat. split; [lia|]. intros [|j] x; cbn; [intros [= <-]; lia|].
    intros Hx. eapply Forall_lookup_1 in Hr; [|exact Hx]. unfold earlier in Hr. lia.
Qed.

Lemma sorted_le l i j x y :
  StronglySorted earlier l → l !! i = Some x → l !! j = Some y → (i ≤ j)%nat → timestamp x ≤ timestamp y.
Proof.
  intros Hs. revert i j. induction Hs as [|r l _ IH Hr]; intros i j Hx Hy Hij; [done|].
  destruct i as [|i], j as [|j]; cbn in *; [simplify_eq; lia| |lia|apply (IH i j); auto with lia].
  injection Hx as <-. by apply (Forall_lookup_1 _ _ _ _ Hr Hy).
Qed.

(** The row before the first that is not earlier, when none has the timestamp *)
Lemma previous_newest l ts i :
  StronglySorted earlier l → (i ≤ length l)%nat →
  (∀ j x, l !! j = Some x → timestamp x < ts ↔ (j < i)%nat) →
  (∀ r, r ∈ l → timestamp r ≠ ts) →
  ∃ found, (if (i =? 0)%nat then mret None else row ← unwrap (l !! (i - 1)%nat); mret (Some row)) =
             (Ok found : outcome (option AggregatorHistoryRow)) ∧ newest_until l ts found.
Proof.
  intros Hs Hi Hp Hne.
  assert (Hlt : ∀ r, r ∈ l → timestamp r ≤ ts → ∃ j, (j < i)%nat ∧ l !! j = Some r).
  { intros r Hr Hle. pose proof (Hne r Hr). apply list_elem_of_lookup in Hr as [j Hj]. exists j.
    split; [|done]. apply (Hp j r Hj). lia. }
  destruct (Nat.eqb_spec i 0) as [->|Hi0].
  - exists None. split; [done|]. intros r Hr. destruct (Z.lt_ge_cases ts (timestamp r)) as [|Hle]; [done|].
    destruct (Hlt r Hr Hle) as (j & ? & _). lia.
  - destruct (lookup_lt_is_Some_2 l (i - 1)) as [y Hy]; [lia|]. rewrite Hy. exists (Some y).
    split; [done|]. split; [by eapply list_elem_of_lookup_2|]. split.
    + assert (timestamp y < ts) by (apply (Hp _ _ Hy); lia). lia.
    + intros r Hr Hle. destruct (Hlt r Hr Hle) as (j & Hj & Hjr). eapply sorted_le; [done..|lia].
Qed.

Lemma search_spec l ts : StronglySorted earlier l → ∃ found, search l ts = Ok found ∧ newest_until l ts found.
Proof.
  intros Hs. destruct (sorted_split l ts Hs) as (i & Hi & Hp). unfold search.
  rewrite (lower_bound_by_first _ (λ x, timestamp x ?= ts) l i Hi)
    by (intros j x Hx; rewrite Z.compare_lt_iff; by apply Hp).
  destruct (Nat.ltb_spec i (length l)) as [Hlt|Hge].
  - destruct (lookup_lt_is_Some_2 l i Hlt) as [x Hx]. rewrite Hx. cbn [unwrap mbind mret result_bind result_ret].
    assert (Hxi : ts ≤ timestamp x) by (apply Z.nlt_ge; rewrite (Hp i x Hx); lia).
    destruct (Z.eqb_spec (timestamp x) ts) as [E|Hne].
    + exists (Some x). split; [done|]. split; [by eapply list_elem_of_lookup_2|]. split; lia.
    + apply previous_newest; [done..|]. intros r [j Hj]%list_elem_of_lookup E.
      assert (¬ (j < i)%nat) by (rewrite <- (Hp j r Hj); lia).
      pose proof (sorted_le l i j x r Hs Hx Hj ltac:(lia)). lia.
  - apply previous_newest; [done..|]. intros r [j Hj]%list_elem_of_lookup E.
    apply lookup_lt_Some in Hj as Hjl. assert (timestamp r < ts) by (apply (Hp j r Hj); lia). lia.
Qed.

Lemma newest_app l l' ts found :
  StronglySorted earlier (l ++ l') → newest_until l' ts (Some found) → newest_until (l ++ l') ts (Some found).
Proof.
  intros Hs (Hin & Hle & Hmax). split; [set_solver|]. split; [done|].
  intros r [Hr|Hr]%elem_of_app Hr'; [|by apply Hmax].
  apply StronglySorted_app in Hs as (Hc & _ & _). by apply (Hc r found).
Qed.

Lemma newest_before l l' ts found :
  (∀ r, r ∈ l' → ts < timestamp r) → newest_until l ts found → newest_until (l ++ l') ts found.
Proof.
  intros Ha. destruct found as [r|]; cbn.
  - intros (Hin & Hle & Hmax). split; [set_solver|]. split; [done|].
    intros r' [Hr|Hr]%elem_of_app Hr'; [by apply Hmax|]. specialize (Ha r' Hr). lia.
  - intros Hn r [Hr|Hr]%elem_of_app; auto.
Qed.

Lemma lower_bound_newest self ts :
  (insertion_idx self < length (rows self))%nat → StronglySorted earlier (history self) →
  ∃ found, lower_bound self ts = Ok found ∧ newest_until (history self) ts found.
Proof.
  intros [current Hc]%lookup_lt_is_Some_2. unfold lower_bound, history. rewrite Hc.
  cbn [unwrap mbind mret result_bind result_ret].
  destruct (timestamp current =? 0); [intros _; exists None; split; [done|set_solver]|].
  intros Hs. apply StronglySorted_app in Hs as Hs'. destruct Hs' as (_ & Hs1 & Hs2).
  destruct (search_spec _ ts Hs2) as (lower & -> & Hl).
  destruct lower as [row|]; [exists (Some row); split; [done|by apply newest_app]|].
  destruct (rows self !! S (insertion_idx self)) as [next|] eqn:En.
  - rewrite (proj2 (Nat.ltb_lt _ _)) by (by eapply lookup_lt_Some). cbn [unwrap mbind mret result_bind result_ret].
    destruct (timestamp next =? 0); cbn [negb].
    + exists None. by split.
    + destruct (search_spec _ ts Hs1) as (found & Hf & Hn). exists found. split; [done|].
      by apply newest_before.
  - rewrite (proj2 (Nat.ltb_ge _ _)) by (by apply lookup_ge_None). exists None. by split.
Qed.

(** ** The account *)

Lemma new_Ok data self :
  Forall is_byte data → new data = Ok self →
  data = discriminator ++ le_bytes 4 (Z.of_nat (insertion_idx self)) ++
         lay_write (array (length (rows self)) row_layout) (rows self).
Proof.
  intros Hb. unfold new. destruct (Nat.ltb_spec (length data) 8); [done|]. case_decide as Hd; [|done].
  destruct (Nat.ltb_spec (length data) 12); [done|]. case_decide as Hm; [|done].
  assert (Hinj : ∀ a b : t, (Ok a : outcome t) = Ok b → b = a) by congruence. intros ->%Hinj.
  set (body := drop 12 data) in *. cbn [rows insertion_idx].
  assert (Hl : length body = (length body / lay_size row_layout * lay_size row_layout)%nat).
  { rewrite (Nat.div_mod_eq (length body) (lay_size row_layout)) at 1. lia. }
  set (n := (length body / lay_size row_layout)%nat) in *.
  assert (Hbody : Forall is_byte body) by by apply Forall_drop.
  pose proof (lay_read_valid (LayoutOk := array_ok row_layout n) body Hl Hbody) as [Hn _].
  rewrite Hn, (lay_write_read (LayoutOk := array_ok row_layout n)) by done.
  set (idx := take 4 (drop 8 data)). assert (Hi : Forall is_byte idx) by by apply Forall_take, Forall_drop.
  assert (length idx = 4%nat) as Hil by (unfold idx; rewrite length_take, length_drop; lia).
  pose proof (of_le_bytes_bound idx Hi) as [? _]. rewrite Z2Nat.id by done. rewrite <- Hil, le_bytes_of_le_bytes by done.
  unfold idx, body. rewrite <- Hd, (assoc_L (++)), take_take_drop. by rewrite take_drop.
Qed.

End superslice.

End AggregatorHistoryBuffer.

Import AggregatorHistoryBuffer.

(** ** Properties *)

(** C27: a history buffer is read as it was written, and searching it finds what
    it should.  What [new] accepts is the discriminator, the index and the rows,
    and nothing else.  If the index is that of a row and the rows are in the order
    of time from behind that index on, then [lower_bound] does not panic, returns
    the newest row that is not after the timestamp, and nothing only if all rows
    are after it.  With an index beyond the rows it panics. *)
Theorem history_lower_bound `{Superslice} `{!SupersliceLaws} (data : list Z) (self : t) (ts : Z)
    (Hb : Forall is_byte data) (Hn : new data = Ok self) :
  data = discriminator ++ le_bytes 4 (Z.of_nat (insertion_idx self)) ++
         lay_write (array (length (rows self)) row_layout) (rows self) ∧
  ((insertion_idx self < length (rows self))%nat → StronglySorted earlier (history self) →
   ∃ found, lower_bound self ts = Ok found ∧ newest_until (history self) ts found) ∧
  ((length (rows self) ≤ insertion_idx self)%nat → lower_bound self ts = Panic).
Proof.
  split; [by apply new_Ok|]. split; [apply lower_bound_newest|].
  intros Hi%lookup_ge_None_2. unfold lower_bound. by rewrite Hi.
Qed.

(** The search as a scan, and the buffer of the unit test *)
Fixpoint scan {A} (f : A → comparison) (l : list A) : nat :=
  match l with
  | [] => 0
  | x :: l => match f x with Lt => S (scan f l) | _ => 0 end
  end.

#[local] Instance scan_superslice : Superslice := {| lower_bound_by := @scan |}.

#[local] Instance scan_laws : SupersliceLaws.
Proof.
  split. intros A f l. cbn. induction l as [|x l IH]; intros i Hi Hp; cbn in *; [lia|].
  pose proof (Hp 0%nat x eq_refl) as H0. destruct i as [|i].
  - destruct (f x); [done| |done]. pose proof (proj1 H0 eq_refl). lia.
  - rewrite (proj2 H0) by lia. f_equal. apply IH; [lia|]. intros j y Hy. rewrite (Hp (S j) y Hy). lia.
Qed.

Definition test_buffer : list Z :=
  [
    66; 85; 70; 70; 69; 82; 120; 120; 1; 0; 0; 0; 212; 199; 31; 98; 0; 0; 0; 0; 69; 210; 158; 59;
    234; 0; 0; 0; 0; 0; 0; 0; 0; 0; 0; 0; 10; 0; 0; 0; 221; 199; 31; 98; 0; 0; 0; 0; 95; 37; 234;
    59; 0; 0; 0; 0; 0; 0; 0; 0; 0; 0; 0; 0; 7; 0; 0; 0; 241; 198; 31; 98; 0; 0; 0; 0; 11; 195;
    200; 59; 0; 0; 0; 0; 0; 0; 0; 0; 0; 0; 0; 0; 7; 0; 0; 0; 24; 199; 31; 98; 0; 0; 0; 0; 183; 43;
    255; 101; 23; 0; 0; 0; 0; 0; 0; 0; 0; 0; 0; 0; 9; 0; 0; 0; 153; 199; 31; 98; 0; 0; 0; 0; 117;
    187; 242; 59; 0; 0; 0; 0; 0; 0; 0; 0; 0; 0; 0; 0; 7; 0; 0; 0; 165; 199; 31; 98; 0; 0; 0; 0;
    69; 250; 67; 236; 233; 0; 0; 0; 0; 0; 0; 0; 0; 0; 0; 0; 10; 0; 0; 0; 174; 199; 31; 98; 0; 0;
    0; 0; 83; 177; 74; 103; 23; 0; 0; 0; 0; 0; 0; 0; 0; 0; 0; 0; 9; 0; 0; 0; 183; 199; 31; 98; 0;
    0; 0; 0; 113; 186; 62; 0; 234; 0; 0; 0; 0; 0; 0; 0; 0; 0; 0; 0; 10; 0; 0; 0; 190; 199; 31; 98;
    0; 0; 0; 0; 146; 224; 37; 87; 2; 0; 0; 0; 0; 0; 0; 0; 0; 0; 0; 0; 8; 0; 0; 0; 201; 199; 31;
    98; 0; 0; 0; 0; 215; 90; 246; 59; 0; 0; 0; 0; 0; 0; 0; 0; 0; 0; 0; 0; 7; 0; 0; 0].

Definition test_history : t := match new test_buffer with Ok self => self | _ => mk 0 [] end.

(** Between the rows of 1646249911 and 1646249918 the first of them is found. *)
Lemma history_lower_bound_witness :
  ∃ found, lower_bound test_history 1646249912 = Ok found ∧
    newest_until (history test_history) 1646249912 found ∧
    timestamp <$> found = Some 1646249911 ∧ value <$> found = Some (mkSwitchboardDecimal 1005026458225 10).
Proof.
  destruct (history_lower_bound test_buffer test_history 1646249912) as (_ & Hs & _).
  - vm_compute. repeat (apply Forall_cons_2; [split; congruence|]). apply Forall_nil_2.
  - vm_compute. reflexivity.
  - destruct Hs as (found & Hf & Hn).
    + vm_compute. lia.
    + unfold history. vm_compute. repeat constructor; cbv; congruence.
    + exists found. split; [exact Hf|]. split; [exact Hn|].
      vm_compute in Hf. injection Hf as <-. split; reflexivity.
Defined.
