(* ===== verification/Oracle.v ===== *)
(** * Price oracles

    The oracle part of [token-lending/program/src/processor.rs] with the account
    layouts of [pyth.rs]: prices from Pyth accounts, prices from Switchboard
    feeds, and the checks of the oracle keys a reserve is configured with. *)

From Stdlib Require Import Strings.Ascii Strings.String.
From S2P Require Import Prelude Errors FixedPoint StateBase LendingMarket Solana Switchboard.

Open Scope Z_scope.

(** ** Addresses *)

(** [declare_id!]: a base-58 numeral for the 32 bytes in big-endian order. *)
Definition base58_alphabet : string :=
  "123456789ABCDEFGHJKLMNPQRSTUVWXYZabcdefghijkmnopqrstuvwxyz".

Definition base58_digit (c : ascii) : Z :=
  match String.index 0 (String c EmptyString) base58_alphabet with
  | Some i => Z.of_nat i
  | None => 0
  end.

Fixpoint base58_value (acc : Z) (s : string) : Z :=
  match s with
  | EmptyString => acc
  | String c s => base58_value (58 * acc + base58_digit c) s
  end.

Definition declare_id (s : string) : Pubkey := of_le_bytes (rev (le_bytes 32 (base58_value 0 s))).

Definition switchboard_v2_mainnet_id : Pubkey :=
  Eval vm_compute in declare_id "SW1TCH7qEPTdLsDHRgPuMQjbQxKdH2aBStViMFnt64f".

Definition switchboard_v2_devnet_id : Pubkey :=
  Eval vm_compute in declare_id "2TfB33aLaneQb5TNVwyDz3jSZXS6jdW2ARw1Dgf84XCG".

(** [solend_program::id()] *)
Definition solend_program_id : Pubkey :=
  Eval vm_compute in declare_id "So1endDq2YkqhipRh3WViPa8hdiSpxWy6z3Z6tMCpAo".

Definition NULL_PUBKEY : Pubkey :=
  Eval vm_compute in of_le_bytes
    [11; 193; 238; 216; 208; 116; 241; 195; 55; 212; 76; 22; 75; 202; 40; 216; 76; 206; 27; 169;
     138; 64; 177; 28; 19; 90; 156; 0; 0; 0; 0; 0].

(** ** pyth.rs *)

Module pyth.

Definition MAGIC : Z := 0xa1b2c3d4.
Definition VERSION_2 : Z := 2.
Definition PROD_ACCT_SIZE : nat := 512.
Definition PROD_HDR_SIZE : nat := 48.
Definition PROD_ATTR_SIZE : nat := PROD_ACCT_SIZE - PROD_HDR_SIZE.

(** The enums are compared by their discriminants. *)
Definition AccountType_Product : Z := 2.
Definition PriceStatus_Trading : Z := 1.
Definition PriceType_Price : Z := 1.

(** The fields that the program reads of [PriceInfo], [Price] and [Product]. *)
Record PriceInfo : Type := mkPriceInfo {
  price : Z;
  conf : Z;
  status : Z;
}.

Record Price : Type := mkPrice {
  ptype : Z;
  expo : Z;
  valid_slot : Z;
  agg : PriceInfo;
}.

Record Product : Type := mkProduct {
  magic : Z;
  ver : Z;
  atype : Z;
  px_acc : Pubkey;
  attr : list Z;
}.

(** The [repr(C)] layout: magic, ver, atype, size, ptype, expo, num, unused;
    curr_slot, valid_slot, twap, avol, drv0 to drv5; prod, next, agg_pub; the
    aggregate's price, conf, status, corp_act and pub_slot; 32 components. *)
Definition Price_layout : list nat :=
  [4; 4; 4; 4; 4; 4; 4; 4; 8; 8; 8; 8; 8; 8; 8; 8; 8; 8; 32; 32; 32; 8; 8; 4; 4; 8; 32 * 96]%nat.

Definition Product_layout : list nat := [4; 4; 4; 4; 32; PROD_ATTR_SIZE]%nat.

Definition Price_of_bytes (segs : list (list Z)) : Price := {|
  ptype := of_le_bytes (seg 4 segs);
  expo := to_signed 32 (of_le_bytes (seg 5 segs));
  valid_slot := of_le_bytes (seg 9 segs);
  agg := {|
    price := to_signed 64 (of_le_bytes (seg 21 segs));
    conf := of_le_bytes (seg 22 segs);
    status := of_le_bytes (seg 23 segs);
  |};
|}.

Definition Product_of_bytes (segs : list (list Z)) : Product := {|
  magic := of_le_bytes (seg 0 segs);
  ver := of_le_bytes (seg 1 segs);
  atype := of_le_bytes (seg 2 segs);
  px_acc := of_le_bytes (seg 4 segs);
  attr := seg 5 segs;
|}.

(** [load::<T>]: slicing [data[0..size]] panics on a short buffer; the casts of
    an 8-byte-aligned account buffer do not fail. *)
Definition load {T} (layout : list nat) (of_bytes : list (list Z) → T) (data : list Z) : outcome T :=
  if (length data <? sum_list layout)%nat then Panic
  else Ok (of_bytes (array_refs layout data)).

Definition load_Price : list Z → outcome Price := load Price_layout Price_of_bytes.
Definition load_Product : list Z → outcome Product := load Product_layout Product_of_bytes.

End pyth.

(** ** Pyth prices *)

Definition STALE_AFTER_SLOTS_ELAPSED : Z := 240.

(** The mantissa times ten to the exponent. *)
Definition scale_pyth_price (price expo : Z) : outcome Decimal :=
  if 0 <=? expo then
    zeros ← ok_or_overflow (checked_pow 64 10 expo);
    try_mul (Decimal.from_u64 price) zeros
  else
    exponent ← ok_or_overflow (if expo =? - 2 ^ 31 then None else Some (Z.abs expo));
    decimals ← ok_or_overflow (checked_pow 64 10 exponent);
    try_div (Decimal.from_u64 price) decimals.

(** [pyth_price_data] is what [try_borrow_data] returns. *)
Definition get_pyth_price (pyth_price_info : AccountInfo) (pyth_price_data : list Z)
    (clock : Clock) : outcome Decimal :=
  _ ← require (negb (key pyth_price_info =? NULL_PUBKEY)) NullOracleConfig;
  pyth_price ← pyth.load_Price pyth_price_data;
  _ ← require (pyth.ptype pyth_price =? pyth.PriceType_Price) InvalidOracleConfig;
  _ ← require (pyth.status (pyth.agg pyth_price) =? pyth.PriceStatus_Trading) InvalidOracleConfig;
  slots_elapsed ← ok_or_overflow (checked_sub (clock_slot clock) (pyth.valid_slot pyth_price));
  _ ← require (negb (STALE_AFTER_SLOTS_ELAPSED <=? slots_elapsed)) InvalidOracleConfig;
  let price := pyth.price (pyth.agg pyth_price) in
  _ ← require (0 <=? price) InvalidOracleConfig;
  let conf := pyth.conf (pyth.agg pyth_price) in
  let confidence_ratio := 10 in
  wide ← unwrap (checked_mul 64 conf confidence_ratio);
  _ ← require (negb (price <? wide)) InvalidOracleConfig;
  scale_pyth_price price (pyth.expo pyth_price).

(** The bytes of ["quote_currency"]. *)
Definition QUOTE_CURRENCY_KEY : list Z :=
  [113; 117; 111; 116; 101; 95; 99; 117; 114; 114; 101; 110; 99; 121].

(** The body of the [while] loop of [get_pyth_product_quote_currency]: the
    value that it returns, or the next [start].  Indexing panics past the end. *)
Definition quote_currency_step (attr : list Z) (start : nat) : outcome (Z + nat) :=
  let LEN := 14%nat in
  length ← Z.to_nat <$> unwrap (attr !! start);
  let start := S start in
  let skip : outcome (Z + nat) :=
    let start := (start + length)%nat in
    l ← Z.to_nat <$> unwrap (attr !! start);
    mret (inr (start + (1 + l))%nat) in
  if (length =? LEN)%nat then
    let end_ := (start + length)%nat in
    if (pyth.PROD_ATTR_SIZE <? end_)%nat then fail InvalidOracleConfig
    else if decide (take length (drop start attr) = QUOTE_CURRENCY_KEY) then
      let start := (start + length)%nat in
      length ← Z.to_nat <$> unwrap (attr !! start);
      let start := S start in
      let end_ := (start + length)%nat in
      if (32 <? length)%nat || (pyth.PROD_ATTR_SIZE <? end_)%nat then fail InvalidOracleConfig
      else mret (inl (of_le_bytes (take length (drop start attr) ++ replicate (32 - length) 0)))
    else skip
  else skip.

(** [None] when the fuel runs out. *)
Fixpoint quote_currency_loop (fuel : nat) (attr : list Z) (start : nat) : option (outcome Z) :=
  if (start <? pyth.PROD_ATTR_SIZE)%nat then
    match fuel with
    | O => None
    | S fuel =>
        match quote_currency_step attr start with
        | Ok (inl value) => Some (Ok value)
        | Ok (inr start) => quote_currency_loop fuel attr start
        | Err e => Some (Err e)
        | Panic => Some Panic
        end
    end
  else Some (fail InvalidOracleConfig).

(** Every turn moves [start] forward ([quote_currency_terminates]), so the
    default of [from_option] is never taken. *)
Definition get_pyth_product_quote_currency (pyth_product : pyth.Product) : outcome Z :=
  from_option id Panic (quote_currency_loop pyth.PROD_ATTR_SIZE (pyth.attr pyth_product) 0).

(** ** Switchboard prices *)

(** [f64] values and the operations used on them. *)
Definition f64_mul : spec_float → spec_float → spec_float := SFmul 53 1024.

Definition f64_of_Z (z : Z) : spec_float := binary_normalize 53 1024 z 0 false.

(** [as u128] truncates, saturates, and sends NaN to zero. *)
Definition f64_as_u128 (f : spec_float) : Z :=
  match f with
  | S754_zero _ | S754_nan | S754_infinity true | S754_finite true _ _ => 0
  | S754_infinity false => 2 ^ 128 - 1
  | S754_finite false m e => Z.min (Z.shiftl (Z.pos m) e) (2 ^ 128 - 1)
  end.

Section oracle.
Context `{Sdk}.

Definition get_switchboard_price_v2 (switchboard_feed_info : AccountInfo) (clock : Clock) :
    M Decimal :=
  bs ← data_of switchboard_feed_info;
  feed ← lift (AggregatorAccountData.new bs);
  slots_elapsed ←
    lift (ok_or_overflow
            (checked_sub (clock_slot clock) (AggregatorAccountData.round_open_slot feed)));
  check (negb (STALE_AFTER_SLOTS_ELAPSED <=? slots_elapsed)) InvalidOracleConfig;;
  price_switchboard_desc ← lift (AggregatorAccountData.get_result feed);
  check (negb (mantissa price_switchboard_desc <? 0)) InvalidOracleConfig;;
  let price := Decimal.from_u128 (mantissa price_switchboard_desc) in
  exp ← lift (unwrap (checked_pow 128 10 (scale price_switchboard_desc)));
  lift (try_div price (Decimal.from_u128 exp)).

Definition get_switchboard_price (switchboard_feed_info : AccountInfo) (clock : Clock) :
    M Decimal :=
  check (negb (key switchboard_feed_info =? NULL_PUBKEY)) NullOracleConfig;;
  o ← owner_of switchboard_feed_info;
  if (o =? switchboard_v2_mainnet_id) || (o =? switchboard_v2_devnet_id) then
    get_switchboard_price_v2 switchboard_feed_info clock
  else
    account_buf ← data_of switchboard_feed_info;
    discriminator ← lift (unwrap (account_buf !! 0%nat));
    check (discriminator =? TYPE_AGGREGATOR) InvalidAccountInput;;
    aggregator ← lift (get_aggregator account_buf);
    round_result ← lift (get_aggregator_result aggregator);
    round_open_slot ← lift (unwrap (rr_round_open_slot round_result));
    slots_elapsed ← lift (ok_or_overflow (checked_sub (clock_slot clock) round_open_slot));
    check (negb (STALE_AFTER_SLOTS_ELAPSED <=? slots_elapsed)) InvalidOracleConfig;;
    let price_float := default (S754_zero false) (rr_result round_result) in
    let price_quotient := 10 ^ 9 in
    let price := f64_as_u128 (f64_mul (f64_of_Z price_quotient) price_float) in
    lift (try_div (Decimal.from_u128 price) price_quotient).

(** Any error of the Pyth price counts as a price of zero
    ([unwrap_or_default]). *)
Definition get_price (switchboard_feed_info pyth_price_account_info : AccountInfo) (clock : Clock) :
    M Decimal :=
  bs ← data_of pyth_price_account_info;
  pyth_price ← lift (unwrap_or Decimal.zero (get_pyth_price pyth_price_account_info bs clock));
  if negb (Decimal.eqb pyth_price Decimal.zero) then mret pyth_price
  else get_switchboard_price switchboard_feed_info clock.

(** ** Keys *)

Definition validate_pyth_keys (lending_market : LendingMarket)
    (pyth_product_info pyth_price_info : AccountInfo) : M unit :=
  if key pyth_price_info =? NULL_PUBKEY then mret tt
  else
    o ← owner_of pyth_product_info;
    check (lm_oracle_program_id lending_market =? o) InvalidOracleConfig;;
    o ← owner_of pyth_price_info;
    check (lm_oracle_program_id lending_market =? o) InvalidOracleConfig;;
    pyth_product_data ← data_of pyth_product_info;
    pyth_product ← lift (pyth.load_Product pyth_product_data);
    check (pyth.magic pyth_product =? pyth.MAGIC) InvalidOracleConfig;;
    check (pyth.ver pyth_product =? pyth.VERSION_2) InvalidOracleConfig;;
    check (pyth.atype pyth_product =? pyth.AccountType_Product) InvalidOracleConfig;;
    check (pyth.px_acc pyth_product =? key pyth_price_info) InvalidOracleConfig;;
    quote_currency ← lift (get_pyth_product_quote_currency pyth_product);
    check (lm_quote_currency lending_market =? quote_currency) InvalidOracleConfig.

Definition validate_switchboard_keys (lending_market : LendingMarket)
    (switchboard_feed_info : AccountInfo) : M unit :=
  if key switchboard_feed_info =? NULL_PUBKEY then mret tt
  else
    o ← owner_of switchboard_feed_info;
    check ((o =? lm_switchboard_oracle_program_id lending_market)
           || (o =? switchboard_v2_mainnet_id) || (o =? switchboard_v2_devnet_id))
      InvalidOracleConfig.

End oracle.
