(* ===== verification/OracleFacts.v ===== *)
(** * Facts about prices

    What a Pyth price account is read as and when it is accepted, that prices
    have the width of a [Decimal], and that the search for the quote currency in
    a product's attributes finds it. *)

From S2P Require Import Prelude Errors FixedPoint StateBase LendingMarket Solana Oracle.

(** ** Prices *)

Lemma scale_pyth_price_Ok price expo d :
  scale_pyth_price price expo = Ok d ↔
  (0 ≤ expo ∧ 10 ^ expo < 2 ^ 64 ∧ WAD * price * 10 ^ expo < 2 ^ 192 ∧
     d = mkDecimal (WAD * price * 10 ^ expo)) ∨
  (expo < 0 ∧ expo ≠ - 2 ^ 31 ∧ 10 ^ (- expo) < 2 ^ 64 ∧ d = mkDecimal (WAD * price / 10 ^ (- expo))).
Proof.
  unfold scale_pyth_price. destruct (Z.leb_spec 0 expo) as [He|He]; rewrite bind_Ok; split.
  - intros (z & [-> ?]%ok_or_overflow_Ok%checked_pow_Some & [-> ?]%Decimal_mul_u64_Ok). by left.
  - intros [(_ & Hz & Hm & ->)|(? & _)]; [|lia]. exists (10 ^ expo). split.
    + by apply ok_or_overflow_Ok, checked_pow_Some.
    + by apply Decimal_mul_u64_Ok.
  - intros (x & Hx & (z & [-> ?]%ok_or_overflow_Ok%checked_pow_Some & [-> ?]%Decimal_div_u64_Ok)%bind_Ok).
    apply ok_or_overflow_Ok in Hx. destruct (Z.eqb_spec expo (- 2 ^ 31)) as [|E]; [done|].
    injection Hx as <-. rewrite Z.abs_neq in * by lia. by right.
  - intros [(? & _)|(_ & E & Hz & ->)]; [lia|]. exists (- expo).
    rewrite (proj2 (Z.eqb_neq _ _) E), Z.abs_neq by lia. split; [done|].
    apply bind_Ok. exists (10 ^ (- expo)). split; [by apply ok_or_overflow_Ok, checked_pow_Some|].
    apply Decimal_div_u64_Ok. split; [done|].
    pose proof (Z.pow_pos_nonneg 10 (- expo) eq_refl ltac:(lia)). lia.
Qed.

Lemma scale_pyth_price_ok price expo d :
  0 ≤ price < 2 ^ 64 → scale_pyth_price price expo = Ok d → Decimal_ok d.
Proof.
  intros Hp Hs. apply scale_pyth_price_Ok in Hs as [(? & _ & ? & ->)|(? & _ & _ & ->)].
  - pose proof (Z.pow_nonneg 10 expo ltac:(lia)). split; cbn; unfold WAD in *; [nia|lia].
  - pose proof (Z.pow_pos_nonneg 10 (- expo) eq_refl ltac:(lia)).
    split; cbn [dec]; [apply Z.div_pos; unfold WAD; lia|].
    apply Z.le_lt_trans with (WAD * price); [|unfold WAD in *; lia].
    apply Z.div_le_upper_bound; [done|]. unfold WAD. nia.
Qed.

(** When a Pyth price account is accepted. *)
Record pyth_price_accepted (k : Pubkey) (p : pyth.Price) (slot : Z) : Prop := {
  accepted_key : k ≠ NULL_PUBKEY;
  accepted_ptype : pyth.ptype p = pyth.PriceType_Price;
  accepted_status : pyth.status (pyth.agg p) = pyth.PriceStatus_Trading;
  accepted_slot : pyth.valid_slot p ≤ slot < pyth.valid_slot p + STALE_AFTER_SLOTS_ELAPSED;
  accepted_conf : 0 ≤ pyth.price (pyth.agg p) ∧
    pyth.conf (pyth.agg p) * 10 ≤ pyth.price (pyth.agg p);
}.

Lemma get_pyth_price_Ok info bs clock d :
  get_pyth_price info bs clock = Ok d ↔
  ∃ p, pyth.load_Price bs = Ok p ∧ pyth_price_accepted (key info) p (clock_slot clock) ∧
    pyth.conf (pyth.agg p) * 10 < 2 ^ 64 ∧
    scale_pyth_price (pyth.price (pyth.agg p)) (pyth.expo p) = Ok d.
Proof.
  unfold get_pyth_price. split.
  - intros Hg. inv_run. bool_to_prop. subst. eexists. split; [eassumption|].
    split; [constructor; try done; lia|]. split; [done|]. eassumption.
  - intros (p & Hl & [Hk Ht Hst [Hs1 Hs2] [Hc1 Hc2]] & Hc3 & Hs).
    apply require_bind_Ok. split; [by apply negb_true_iff, Z.eqb_neq|].
    apply bind_Ok. exists p. split; [done|].
    apply require_bind_Ok. split; [by apply Z.eqb_eq|].
    apply require_bind_Ok. split; [by apply Z.eqb_eq|].
    apply bind_Ok. exists (clock_slot clock - pyth.valid_slot p).
    split; [by apply ok_or_overflow_Ok, checked_sub_Some|].
    apply require_bind_Ok. split; [apply negb_true_iff, Z.leb_gt; lia|].
    apply require_bind_Ok. split; [by apply Z.leb_le|].
    apply bind_Ok. exists (pyth.conf (pyth.agg p) * 10).
    split; [by apply unwrap_Ok, checked_mul_Some|].
    apply require_bind_Ok. split; [by apply negb_true_iff, Z.ltb_ge|]. done.
Qed.

Lemma to_signed_bound w z : 0 < w → in_width w z → to_signed w z < 2 ^ (w - 1).
Proof.
  intros Hw [H0 H1]. unfold to_signed. destruct (Z.ltb_spec z (2 ^ (w - 1))) as [|Hz]; [done|].
  pose proof (Z.pow_pos_nonneg 2 (w - 1) eq_refl ltac:(lia)). lia.
Qed.

Lemma load_Price_bound bs p :
  Forall is_byte bs → pyth.load_Price bs = Ok p → pyth.price (pyth.agg p) < 2 ^ 63.
Proof.
  intros Hb. unfold pyth.load_Price, pyth.load.
  destruct (Nat.ltb_spec (length bs) (sum_list pyth.Price_layout)) as [|Hl]; [done|].
  intros Hp. injection Hp as <-. unfold pyth.Price_of_bytes. cbn [pyth.agg pyth.price].
  apply (to_signed_bound 64); [done|]. exact (seg_in_width 21 8 pyth.Price_layout bs Hb Hl eq_refl).
Qed.

Lemma get_pyth_price_width info bs clock d :
  Forall is_byte bs → get_pyth_price info bs clock = Ok d → Decimal_ok d.
Proof.
  intros Hb (p & Hp & Ha & _ & Hs)%get_pyth_price_Ok.
  eapply scale_pyth_price_ok, Hs. pose proof (load_Price_bound bs p Hb Hp).
  pose proof (accepted_conf _ _ _ Ha). lia.
Qed.

Lemma f64_as_u128_width f : is_u128 (f64_as_u128 f).
Proof.
  unfold in_width, f64_as_u128. destruct f as [|[]| |[] m e]; try (split; [lia|reflexivity]).
  pose proof (proj2 (Z.shiftl_nonneg (Z.pos m) e) ltac:(lia)). lia.
Qed.

Section sdk.
Context `{Sdk}.

(** Prices are read without changing the world, and have the width of a
    [Decimal]. *)
Definition reads {A} (m : M A) (Φ : World → A → Prop) : Prop :=
  ∀ w a w', m w = Ok (a, w') → w' = w ∧ Φ w a.

Lemma get_switchboard_price_v2_reads info clock :
  reads (get_switchboard_price_v2 info clock) (λ _ d, Decimal_ok d).
Proof.
  intros w d w' Hr. unfold get_switchboard_price_v2 in Hr. inv_m.
  split; [done|]. bool_to_prop.
  match goal with E : unwrap _ = Ok _ |- _ => apply unwrap_Ok, checked_pow_Some in E as [-> ?] end.
  match goal with E : try_div _ _ = Ok _ |- _ => apply Decimal_div_Ok in E as (-> & Hz & ?) end.
  cbn [Decimal.from_u128 dec] in *. change Decimal.wad with WAD in *.
  match goal with |- Decimal_ok (mkDecimal (?a / ?b)) =>
    assert (0 ≤ a) by (unfold WAD in *; lia); assert (0 ≤ b)
      by (apply Z.mul_nonneg_nonneg; [done|by apply Z.pow_nonneg]) end.
  split; cbn [dec]; [apply Z.div_pos; lia|].
  eapply Z.le_lt_trans; [|eassumption]. apply Z.div_le_upper_bound; nia.
Qed.
Lemma get_switchboard_price_reads info clock :
  reads (get_switchboard_price info clock) (λ _ d, Decimal_ok d).
Proof.
  intros w d w' Hr. unfold get_switchboard_price in Hr. inv_m.
  match goal with Hr : (if ?b then _ else _) _ = Ok _ |- _ => destruct b end.
  { by eapply get_switchboard_price_v2_reads. }
  inv_m. split; [done|].
  match goal with E : try_div _ _ = Ok _ |- _ => apply Decimal_div_u64_Ok in E as (-> & _) end.
  match goal with |- Decimal_ok (mkDecimal (dec (Decimal.from_u128 ?z) / _)) =>
    assert (Hz : is_u128 z) by apply f64_as_u128_width; set (n := z) in * end.
  cbn [Decimal.from_u128 dec]. change Decimal.wad with WAD. unfold in_width, WAD in *.
  split; cbn [dec]; [apply Z.div_pos; lia|].
  apply Z.le_lt_trans with (1000000000000000000 * n); [|lia]. apply Z.div_le_upper_bound; lia.
Qed.

Lemma get_price_reads switchboard pyth_price clock w d w' :
  Forall is_byte (data (account_of w (key pyth_price))) →
  get_price switchboard pyth_price clock w = Ok (d, w') → w' = w ∧ Decimal_ok d.
Proof.
  intros Hb Hr. unfold get_price in Hr. inv_m.
  match goal with E : unwrap_or _ _ = Ok ?p |- _ => rename E into Hp, p into price end.
  match goal with Hr : (if ?b then _ else _) _ = Ok _ |- _ => destruct b end.
  - inv_m. split; [done|].
    destruct (get_pyth_price _ _ _) eqn:E; cbn in Hp; try done; injection Hp as <-; [|by split].
    by eapply get_pyth_price_width.
  - by eapply get_switchboard_price_reads.
Qed.

Lemma validate_switchboard_keys_reads m info : reads (validate_switchboard_keys m info) (λ _ _, True).
Proof.
  intros w u w' Hr. unfold validate_switchboard_keys in Hr.
  destruct (_ =? _); inv_m; done.
Qed.

Lemma validate_pyth_keys_reads m product price : reads (validate_pyth_keys m product price) (λ _ _, True).
Proof.
  intros w u w' Hr. unfold validate_pyth_keys in Hr. destruct (_ =? _); inv_m; done.
Qed.

End sdk.

(** ** The quote currency of a product *)

(** The attributes of a product as Pyth writes them: keys and values, each
    behind its length. *)
Definition attr_entry (kv : list Z * list Z) : list Z :=
  Z.of_nat (length kv.1) :: kv.1 ++ Z.of_nat (length kv.2) :: kv.2.

Definition attr_bytes (kvs : list (list Z * list Z)) : list Z := concat (attr_entry <$> kvs).

Lemma lookup_suffix (attr : list Z) start i l :
  drop start attr = l → attr !! (start + i)%nat = l !! i.
Proof. intros <-. by rewrite lookup_drop. Qed.

Lemma drop_suffix (attr : list Z) start n l :
  drop start attr = l → drop (start + n) attr = drop n l.
Proof. intros <-. by rewrite drop_drop. Qed.

Lemma suffix_length (attr : list Z) start l n :
  length attr = n → drop start attr = l → l ≠ [] → (start + length l = n)%nat.
Proof.
  intros <- <- Hne. rewrite length_drop. destruct (decide (start ≤ length attr)%nat); [lia|].
  rewrite drop_ge in Hne by lia. done.
Qed.

(** One turn of the loop at the start of an entry. *)
Lemma quote_currency_step_entry attr start k v rest :
  length attr = pyth.PROD_ATTR_SIZE → drop start attr = attr_entry (k, v) ++ rest →
  (k = QUOTE_CURRENCY_KEY → length v ≤ 32)%nat →
  quote_currency_step attr start =
    Ok (if decide (k = QUOTE_CURRENCY_KEY) then inl (of_le_bytes (v ++ replicate (32 - length v) 0))
        else inr (start + length (attr_entry (k, v)))%nat).
Proof.
  intros Hlen Hd Hv.
  assert (Hsize : (start + length (attr_entry (k, v) ++ rest) = pyth.PROD_ATTR_SIZE)%nat)
    by (by eapply suffix_length).
  assert (Hsz : length (attr_entry (k, v)) = (2 + length k + length v)%nat)
    by (unfold attr_entry; cbn; rewrite length_app; cbn; lia).
  rewrite length_app, Hsz in Hsize. unfold attr_entry in Hd. cbn [fst snd app] in Hd.
  rewrite <- (assoc_L (++)) in Hd. cbn [app] in Hd.
  assert (Hd1 : drop (S start) attr = k ++ Z.of_nat (length v) :: v ++ rest).
  { rewrite <- Nat.add_1_r. by apply (drop_suffix attr start 1) in Hd. }
  assert (Hd2 : drop (S (S start + length k)) attr = v ++ rest).
  { rewrite <- Nat.add_1_r, <- Nat.add_assoc. apply (drop_suffix _ _ (length k + 1)) in Hd1.
    rewrite Hd1, <- drop_drop, drop_app_length. done. }
  assert (H0 : attr !! start = Some (Z.of_nat (length k))).
  { rewrite <- (Nat.add_0_r start). by rewrite (lookup_suffix _ _ _ _ Hd). }
  assert (H1 : attr !! (S start + length k)%nat = Some (Z.of_nat (length v))).
  { rewrite (lookup_suffix _ _ _ _ Hd1), lookup_app_r, Nat.sub_diag by lia. done. }
  unfold quote_currency_step. rewrite H0. cbn [unwrap fmap result_fmap mbind result_bind].
  rewrite Nat2Z.id.
  assert (Hskip : (l ← Z.to_nat <$> (unwrap (attr !! (S start + length k)%nat) : outcome Z);
             mret (inr (S start + length k + (1 + l))%nat) : outcome (Z + nat))
           = Ok (inr (start + length (attr_entry (k, v)))%nat)).
  { rewrite H1. cbn [unwrap fmap result_fmap mbind result_bind mret result_ret].
    rewrite Nat2Z.id, Hsz. do 2 f_equal. lia. }
  destruct (Nat.eqb_spec (length k) 14) as [E|E].
  - rewrite (proj2 (Nat.ltb_ge _ _)) by lia. rewrite Hd1, take_app_length.
    destruct (decide (k = QUOTE_CURRENCY_KEY)) as [Ek|Ek]; [|exact Hskip].
    rewrite H1. cbn [unwrap fmap result_fmap mbind result_bind]. rewrite Nat2Z.id.
    rewrite (proj2 (Nat.ltb_ge 32 _)) by auto. rewrite (proj2 (Nat.ltb_ge _ _)) by lia.
    cbn [orb]. by rewrite Hd2, take_app_length.
  - destruct (decide (k = QUOTE_CURRENCY_KEY)) as [->|]; [by destruct E|]. exact Hskip.
Qed.

(** The loop passes the entries before the one it looks for. *)
Lemma quote_currency_loop_entries pre v post rest attr start fuel :
  length attr = pyth.PROD_ATTR_SIZE →
  drop start attr = attr_bytes (pre ++ (QUOTE_CURRENCY_KEY, v) :: post) ++ rest →
  Forall (λ kv, kv.1 ≠ QUOTE_CURRENCY_KEY) pre → (length v ≤ 32)%nat →
  (length pre < fuel)%nat →
  quote_currency_loop fuel attr start = Some (Ok (of_le_bytes (v ++ replicate (32 - length v) 0))).
Proof.
  intros Hlen. revert start fuel. induction pre as [|[k v'] pre IH]; intros start [|fuel] Hd Hpre Hv Hf;
    [lia| |cbn in Hf; lia|].
  - cbn in Hd. assert (start < pyth.PROD_ATTR_SIZE)%nat.
    { pose proof (suffix_length _ _ _ _ Hlen Hd ltac:(done)) as Hs. cbn [length] in Hs. lia. }
    cbn [quote_currency_loop]. rewrite (proj2 (Nat.ltb_lt _ _)) by done.
    rewrite (quote_currency_step_entry attr start QUOTE_CURRENCY_KEY v (attr_bytes post ++ rest));
      [|done|cbn; by rewrite Hd, <- (assoc_L (++))|done].
    by rewrite decide_True.
  - apply Forall_cons in Hpre as [Hk Hpre]. cbn [app] in Hd.
    change (attr_bytes ((k, v') :: pre ++ (QUOTE_CURRENCY_KEY, v) :: post))
      with (attr_entry (k, v') ++ attr_bytes (pre ++ (QUOTE_CURRENCY_KEY, v) :: post)) in Hd.
    rewrite <- (assoc_L (++)) in Hd. assert (start < pyth.PROD_ATTR_SIZE)%nat.
    { pose proof (suffix_length _ _ _ _ Hlen Hd ltac:(done)) as Hs. cbn [length app attr_entry] in Hs. lia. }
    cbn [quote_currency_loop]. rewrite (proj2 (Nat.ltb_lt _ _)) by done.
    rewrite (quote_currency_step_entry attr start k v' _ Hlen Hd) by done.
    rewrite decide_False by done. cbn in Hf. apply IH; [|done|done|lia].
    rewrite (drop_suffix _ _ _ _ Hd). apply drop_app_length.
Qed.

Lemma attr_bytes_length kvs : (2 * length kvs ≤ length (attr_bytes kvs))%nat.
Proof.
  induction kvs as [|kv kvs IH]; [done|]. cbn [attr_bytes fmap list_fmap concat length].
  change (concat (attr_entry <$> kvs)) with (attr_bytes kvs). rewrite length_app.
  unfold attr_entry at 1. cbn [length]. rewrite length_app. cbn. lia.
Qed.

(** Every turn moves on, so the fuel suffices whatever the bytes are. *)
Lemma quote_currency_step_grows attr start s :
  quote_currency_step attr start = Ok (inr s) → (S start < s)%nat.
Proof.
  unfold quote_currency_step. intros Hs.
  apply bind_Ok in Hs as (n & _ & Hs).
  assert (Hskip : ∀ st n', (l ← Z.to_nat <$> (unwrap (attr !! st) : outcome Z);
             mret (inr (st + (1 + l))%nat) : outcome (Z + nat)) = Ok (inr n') → (st < n')%nat).
  { intros st n' (l & _ & [= <-])%bind_Ok. lia. }
  repeat case_match; try done; try (apply Hskip in Hs; lia).
  apply bind_Ok in Hs as (l & _ & Hs). case_match; done.
Qed.

Lemma quote_currency_loop_terminates attr fuel start :
  (pyth.PROD_ATTR_SIZE ≤ start + fuel)%nat → ∃ r, quote_currency_loop fuel attr start = Some r.
Proof.
  revert start. induction fuel as [|fuel IH]; intros start Hf; cbn [quote_currency_loop].
  - rewrite (proj2 (Nat.ltb_ge _ _)) by lia. by eexists.
  - case_match; [|by eexists].
    destruct (quote_currency_step attr start) as [[v|s]|e|] eqn:E; try by eexists.
    apply quote_currency_step_grows in E. apply IH. lia.
Qed.

(** ** Properties *)

(** C26: a Pyth price is accepted exactly when the key is not null, the account
    is a trading price of at most 239 slots ago, the price is not negative and
    its confidence interval is within a tenth of it; the result is then the price
    times ten to its exponent, in wads, rounded down. *)
Theorem pyth_price_spec (info : AccountInfo) (bs : list Z) (clock : Clock) (p : pyth.Price)
    (d : Decimal) (Hp : pyth.load_Price bs = Ok p)
    (Hc : pyth.conf (pyth.agg p) * 10 < 2 ^ 64) (Hb : Forall is_byte bs) :
  (get_pyth_price info bs clock = Ok d ↔
   pyth_price_accepted (key info) p (clock_slot clock) ∧
   let price := pyth.price (pyth.agg p) in
   (0 ≤ pyth.expo p ∧ 10 ^ pyth.expo p < 2 ^ 64 ∧ WAD * price * 10 ^ pyth.expo p < 2 ^ 192 ∧
      dec d = WAD * price * 10 ^ pyth.expo p ∨
    pyth.expo p < 0 ∧ pyth.expo p ≠ - 2 ^ 31 ∧ 10 ^ (- pyth.expo p) < 2 ^ 64 ∧
      dec d = WAD * price / 10 ^ (- pyth.expo p))) ∧
  (get_pyth_price info bs clock = Ok d → Decimal_ok d).
Proof.
  split; [|by apply get_pyth_price_width]. rewrite get_pyth_price_Ok. cbv zeta. split.
  - intros (p' & Hp' & Ha & _ & Hs). rewrite Hp in Hp'. injection Hp' as <-.
    split; [done|]. apply scale_pyth_price_Ok in Hs.
    destruct Hs as [(? & ? & ? & ->)|(? & ? & ? & ->)]; [by left|by right].
  - intros [Ha Hs]. exists p. split; [done|]. split; [done|]. split; [done|].
    apply scale_pyth_price_Ok.
    destruct Hs as [(? & ? & ? & E)|(? & ? & ? & E)]; [left|right]; (do 3 (split; [done|]));
      rewrite <- E; by destruct d.
Qed.

(** A price account: 12.34 with exponent -2, valid in slot 1000. *)
Definition sample_price_account : list Z :=
  replicate 16 0 ++ le_bytes 4 1 ++ le_bytes 4 (2 ^ 32 - 2) ++ replicate 16 0 ++ le_bytes 8 1000
  ++ replicate 160 0 ++ le_bytes 8 1234 ++ le_bytes 8 5 ++ le_bytes 4 1 ++ replicate 3084 0.

Lemma pyth_price_spec_witness :
  get_pyth_price (mkAccountInfo 5 false false) sample_price_account (mkClock 1100 0)
    = Ok (Decimal.from_percent 1234).
Proof.
  apply (pyth_price_spec _ _ _ (pyth.mkPrice 1 (-2) 1000 (pyth.mkPriceInfo 1234 5 1))).
  - vm_compute. reflexivity.
  - vm_compute. reflexivity.
  - unfold sample_price_account. repeat (apply Forall_app; split);
      first [apply le_bytes_is_byte | apply Forall_replicate; split; reflexivity || discriminate].
  - split; [constructor; vm_compute; intuition congruence|].
    right. vm_compute. intuition congruence.
Defined.

Lemma quote_currency_entry (product : pyth.Product) (pre post : list (list Z * list Z)) (v rest : list Z) :
  length (pyth.attr product) = pyth.PROD_ATTR_SIZE →
  pyth.attr product = attr_bytes (pre ++ (QUOTE_CURRENCY_KEY, v) :: post) ++ rest →
  Forall (λ kv, kv.1 ≠ QUOTE_CURRENCY_KEY) pre → (length v ≤ 32)%nat →
  get_pyth_product_quote_currency product = Ok (of_le_bytes (v ++ replicate (32 - length v) 0)).
Proof.
  intros Hlen Hattr Hpre Hv. unfold get_pyth_product_quote_currency.
  rewrite (quote_currency_loop_entries pre v post rest); try done.
  pose proof (attr_bytes_length (pre ++ (QUOTE_CURRENCY_KEY, v) :: post)) as Hl.
  apply (f_equal length) in Hattr. rewrite length_app, Hlen in Hattr.
  rewrite length_app in Hl. cbn [length] in Hl. lia.
Qed.

(** The search for a product's quote currency always ends; when the
    attributes are written as length-prefixed keys and values, it returns the
    zero-padded value of the first [quote_currency] key, whatever follows. *)
Theorem quote_currency_found (product : pyth.Product) (pre post : list (list Z * list Z))
    (v rest : list Z)
    (Hlen : length (pyth.attr product) = pyth.PROD_ATTR_SIZE)
    (Hattr : pyth.attr product = attr_bytes (pre ++ (QUOTE_CURRENCY_KEY, v) :: post) ++ rest)
    (Hpre : Forall (λ kv, kv.1 ≠ QUOTE_CURRENCY_KEY) pre) (Hv : (length v ≤ 32)%nat) :
  get_pyth_product_quote_currency product
    = Ok (of_le_bytes (v ++ replicate (32 - length v) 0)) ∧
  ∀ attr, ∃ r, quote_currency_loop pyth.PROD_ATTR_SIZE attr 0 = Some r.
Proof.
  split; [|intros; by apply quote_currency_loop_terminates].
  by apply (quote_currency_entry product pre post v rest).
Qed.

(** Attributes [symbol = "A"] and [quote_currency = "USD"]. *)
Definition sample_product : pyth.Product :=
  let attrs := attr_bytes [([115; 121; 109; 98; 111; 108], [65]); (QUOTE_CURRENCY_KEY, [85; 83; 68])] in
  pyth.mkProduct pyth.MAGIC pyth.VERSION_2 pyth.AccountType_Product 5
    (attrs ++ replicate (pyth.PROD_ATTR_SIZE - length attrs) 0).

Lemma quote_currency_found_witness :
  get_pyth_product_quote_currency sample_product = Ok (85 + 256 * (83 + 256 * 68)).
Proof.
  apply (quote_currency_found sample_product [([115; 121; 109; 98; 111; 108], [65])] [] [85; 83; 68]
           (replicate (pyth.PROD_ATTR_SIZE - 28) 0)).
  - vm_compute. reflexivity.
  - vm_compute. reflexivity.
  - constructor; [discriminate|constructor].
  - vm_compute. lia.
Defined.
