(* ===== verification/Testbed.v ===== *)
(** * A concrete runtime

    An executable instance of [Sdk] that satisfies [SdkLaws], with a small
    ledger of accounts: the theorems about handlers are applied to it, so their
    hypotheses can hold and the handlers run.  Token accounts keep their amount
    at byte 64 of 165, mints their decimals at byte 44 of 82; the flash-loan
    receiver pays back what it is asked for. *)

From S2P Require Import Prelude Errors FixedPoint StateBase LendingMarket Reserve.
From S2P Require Import ReserveFacts Obligation ObligationFacts Codec Solana Oracle.

Definition test_token_id : Pubkey := 1000.
Definition test_receiver_id : Pubkey := 1001.
Definition test_clock_id : Pubkey := 44.

(** ** Token accounts *)

Definition test_token_amount (bs : list Z) : outcome Z :=
  if (length bs =? 165)%nat then Ok (of_le_bytes (take 8 (drop 64 bs))) else Err InvalidAccountData.

Definition set_amount (bs : list Z) (n : Z) : list Z := take 64 bs ++ le_bytes 8 n ++ drop 72 bs.

Definition add_tokens (accs : Accounts) (k : Pubkey) (delta : Z) : outcome Accounts :=
  a ← ok_or InvalidArgument (accs !! k);
  _ ← ensure (owner a =? test_token_id) IncorrectProgramId;
  n ← test_token_amount (data a);
  _ ← ensure ((0 <=? n + delta) && (n + delta <? 2 ^ 64)) InsufficientFunds;
  mret (<[k := mkAccountState (owner a) (lamports a) (set_amount (data a) (n + delta))]> accs).

Definition move_tokens (accs : Accounts) (src dst : Pubkey) (n : Z) : outcome Accounts :=
  accs ← add_tokens accs src (- n);
  add_tokens accs dst n.

Definition test_token_instruction (c : TokenCall) : outcome Instruction :=
  let meta k := mkAccountMeta k false true in
  let ix tp ks bs := Ok (mkInstruction tp (meta <$> ks) bs) in
  if token_call_program c =? test_token_id then
    match c with
    | initialize_account tp account mint owner => ix tp [account; mint; owner] [1]
    | initialize_mint tp mint authority _ decimals => ix tp [mint; authority] [0; decimals]
    | transfer tp src dst auth _ n => ix tp [src; dst; auth] (3 :: le_bytes 8 n)
    | mint_to tp mint dst auth _ n => ix tp [mint; dst; auth] (7 :: le_bytes 8 n)
    | burn tp src mint auth _ n => ix tp [src; mint; auth] (8 :: le_bytes 8 n)
    end
  else Err IncorrectProgramId.

Definition test_invoke (ix : Instruction) (infos : list AccountInfo) (seeds : list Seeds)
    (accs : Accounts) : outcome Accounts :=
  if ix_program_id ix =? test_token_id then
    match ix_data ix, pubkey <$> ix_accounts ix with
    | 3 :: n, src :: dst :: _ => move_tokens accs src dst (of_le_bytes n)
    | 7 :: n, _ :: dst :: _ => add_tokens accs dst (of_le_bytes n)
    | 8 :: n, src :: _ => add_tokens accs src (- of_le_bytes n)
    | _, _ => Ok accs
    end
  else if ix_program_id ix =? test_receiver_id then
    match ix_data ix, pubkey <$> ix_accounts ix with
    | 0 :: n, borrower :: reserve :: _ => move_tokens accs borrower reserve (of_le_bytes n)
    | _, _ => Ok accs
    end
  else Ok accs.

(** ** The instance *)

Definition test_clock (bs : list Z) : Clock :=
  mkClock (of_le_bytes (take 8 bs) mod 2 ^ 64) (to_signed 64 (of_le_bytes (take 8 (drop 32 bs)))).

Definition test_sdk : Sdk := {|
  next_account_info := λ l, match l with [] => Err NotEnoughAccountKeys | a :: l => Ok (a, l) end;
  pack_unpack := λ A _ _ bs,
    a ← (if decide (length bs = LEN A) then unpack_from_slice bs else Err InvalidAccountData);
    if is_initialized a then Ok a else Err UninitializedAccount;
  pack_unpack_unchecked := λ A _ bs,
    if decide (length bs = LEN A) then unpack_from_slice bs else Err InvalidAccountData;
  pack_pack := λ A _ a bs,
    if decide (length bs = LEN A) then pack_into_slice a bs else Err InvalidAccountData;
  clock_from_account_info := λ info bs,
    if key info =? test_clock_id then Ok (test_clock bs) else Err InvalidArgument;
  clock_get := Ok (mkClock 100 1656000000);
  Rent := unit;
  rent_from_account_info := λ _ _, Ok tt;
  rent_is_exempt := λ _ lamports len, Z.of_nat len <=? lamports;
  create_program_address := λ seeds _, Ok ((of_le_bytes (concat seeds) + 12345) mod 2 ^ 256);
  find_program_address := λ seeds _, ((of_le_bytes (concat seeds) + 12345) mod 2 ^ 256, 255);
  invoke_signed := test_invoke;
  sysvar_clock_id := test_clock_id;
  sysvar_rent_id := 45;
  spl_token_id := test_token_id;
  token_instruction := test_token_instruction;
  mint_decimals := λ bs,
    if (length bs =? 82)%nat then Ok (nth 44 bs 0 mod 256) else Err InvalidAccountData;
  token_amount := test_token_amount;
  TYPE_AGGREGATOR := 1;
  deserialize_aggregator := λ _,
    Some (mkAggregatorState (Some (Some 1)) (Some (mkRoundResult (Some 3) (Some 90) (Some (f64_of_Z 7)))) None);
|}.

(** ** The laws *)

(** Moving tokens touches accounts of the token program only. *)
Definition token_only (accs accs' : Accounts) : Prop :=
  ∀ k, match accs !! k, accs' !! k with
       | Some a, Some a' =>
           owner a' = owner a ∧ (owner a ≠ test_token_id → data a' = data a) ∧
           (Forall is_byte (data a) → Forall is_byte (data a'))
       | None, None => True
       | _, _ => False
       end.

Lemma token_only_refl accs : token_only accs accs.
Proof. intros k. by destruct (accs !! k). Qed.

Lemma token_only_trans a b c : token_only a b → token_only b c → token_only a c.
Proof.
  intros H1 H2 k. specialize (H1 k). specialize (H2 k).
  destruct (a !! k), (b !! k), (c !! k); try done.
  destruct H1 as (E1 & D1 & B1), H2 as (E2 & D2 & B2). split; [congruence|]. split; [|auto].
  intros Hne. rewrite D2 by congruence. auto.
Qed.

Lemma set_amount_bytes bs n : Forall is_byte bs → Forall is_byte (set_amount bs n).
Proof.
  intros. unfold set_amount. apply Forall_app. split; [by apply Forall_take|].
  apply Forall_app. split; [apply le_bytes_is_byte|by apply Forall_drop].
Qed.

Lemma add_tokens_only accs k d accs' : add_tokens accs k d = Ok accs' → token_only accs accs'.
Proof.
  unfold add_tokens. intros Ha. inv_run. bool_to_prop.
  intros j. destruct (decide (k = j)) as [<-|].
  - rewrite lookup_insert_eq. match goal with E : accs !! k = Some _ |- _ => rewrite E end. cbn.
    split; [done|]. split; [done|]. apply set_amount_bytes.
  - rewrite lookup_insert_ne by done. apply token_only_refl.
Qed.

Lemma move_tokens_only accs src dst n accs' : move_tokens accs src dst n = Ok accs' → token_only accs accs'.
Proof.
  unfold move_tokens. intros (accs1 & H1 & H2)%bind_Ok.
  eapply token_only_trans; by eapply add_tokens_only.
Qed.

Lemma test_invoke_only ix infos seeds accs accs' :
  test_invoke ix infos seeds accs = Ok accs' → token_only accs accs'.
Proof.
  unfold test_invoke. intros Hi.
  repeat case_match; simplify_eq;
    first [apply token_only_refl | by eapply move_tokens_only | by eapply add_tokens_only].
Qed.

#[export] Instance test_laws : SdkLaws (H := test_sdk) solend_program_id.
Proof.
  split; cbn; try done.
  - intros info bs clock. destruct (_ =? _); [|done]. intros [= <-].
    split; [by apply Z.mod_pos_bound|by apply Z.mod_pos_bound].
  - intros clock [= <-]. by split.
  - intros bs n. destruct (_ =? _)%nat; [|done]. intros [= <-]. by apply Z.mod_pos_bound.
  - intros c ix. unfold test_token_instruction.
    destruct (Z.eqb_spec (token_call_program c) test_token_id) as [E|]; [|done].
    destruct c; cbn in E; intros [= <-]; cbn; (split; [done|]); by rewrite E.
  - intros ix infos seeds accs accs' Hi Hb k a' Ha'. apply test_invoke_only in Hi.
    specialize (Hi k). rewrite Ha' in Hi. destruct (accs !! k) eqn:E; [|done].
    apply Hi. by apply (Hb k).
  - intros ix infos seeds accs accs' k a Hi _ Ha Ho. apply test_invoke_only in Hi.
    specialize (Hi k). rewrite Ha in Hi. destruct (accs' !! k) eqn:E; [|done].
    destruct Hi as (? & Hd & _). eexists. split; [done|]. split; [done|]. apply Hd. by rewrite Ho.
  - intros ix infos seeds accs accs' k a' Hi _ Ha Ho. apply test_invoke_only in Hi.
    specialize (Hi k). rewrite Ha in Hi. destruct (accs !! k) eqn:E; [|done].
    left. eexists. split; [done|]. destruct Hi. congruence.
Qed.

(** ** A ledger

    The market 9 with the reserves 31, 32 and 33 and the obligation 50 of owner
    21; the token accounts 12, 16, 60, 61, 62 and 77; everything fresh in slot
    100, the slot of the clock account. *)

Definition the_bytes (m : outcome (list Z)) : list Z := match m with Ok bs => bs | _ => [] end.

Definition packed_account {A} `{Pack A} (a : A) : AccountState :=
  mkAccountState solend_program_id 2000 (the_bytes (pack_into_slice a (replicate (LEN A) 0))).

Definition token_account (amount : Z) : AccountState :=
  mkAccountState test_token_id 2000 (set_amount (replicate 165 0) amount).

Definition sample_market : LendingMarket := mkLendingMarket 1 255 21 0 test_token_id 40 41.

Definition test_authority : Pubkey :=
  (of_le_bytes (le_bytes 32 9 ++ le_bytes 1 255) + 12345) mod 2 ^ 256.

Definition ledger_of (reserve31 reserve33 : Reserve) (obligation : Obligation) : World :=
  mkWorld
    (list_to_map
       [(9, packed_account sample_market);
        (31, packed_account reserve31);
        (32, packed_account sample_reserve);
        (33, packed_account reserve33);
        (50, packed_account obligation);
        (test_clock_id, mkAccountState 5 1 (le_bytes 32 100 ++ le_bytes 8 1656000000));
        (12, token_account 1000000000);
        (16, token_account 1000000);
        (60, token_account 5000000);
        (61, token_account 1000);
        (62, token_account 0);
        (77, token_account 0)])
    [].

Definition ledger : World := ledger_of sample_reserve sample_reserve sample_obligation.

Definition signer (k : Pubkey) : AccountInfo := mkAccountInfo k true false.
Definition account (k : Pubkey) : AccountInfo := mkAccountInfo k false true.

(** The ledger that a successful handler leaves *)
Definition world_after {A} (m : outcome (A * World)) : World :=
  match m with Ok (_, w) => w | _ => mkWorld ∅ [] end.
