(* ===== verification/Tokens.v ===== *)
(** * Token accounts

    What the safety of the deposits relies on of the token program: the state of
    an account as [spl_token::state::Account] decodes it, the documented effect
    of the five instructions that the program sends, and that nobody without the
    owner's signature can take tokens away.  A vault is a token account of a
    derived address of the program, for which only the program can sign. *)

From S2P Require Import Prelude Errors StateBase Solana.

(** The fields of [spl_token::state::Account] that decide who may move what. *)
Record TokenAccount : Type := mkTokenAccount {
  ta_mint : Pubkey;
  ta_owner : Pubkey;
  ta_amount : Z;
  ta_delegate : option Pubkey;
  ta_close_authority : option Pubkey;
}.

Definition with_tokens (a : TokenAccount) (amount : Z) (delegate : option Pubkey) : TokenAccount :=
  mkTokenAccount (ta_mint a) (ta_owner a) amount delegate (ta_close_authority a).

(** [spl_token::state::Account::unpack], which is outside the repository *)
Class TokenSdk : Type := {
  token_account_unpack : list Z → option TokenAccount;
}.

Section tokens.
Context `{S : Sdk} `{TS : TokenSdk} (program_id : Pubkey).
Implicit Types (accs : Accounts) (k : Pubkey).

(** The token account at an address, if there is one *)
Definition token_at accs k : option TokenAccount :=
  match accs !! k with
  | Some a => if owner a =? spl_token_id then token_account_unpack (data a) else None
  | None => None
  end.

(** An address that the program derives, for which it alone can sign *)
Definition derived k : Prop := ∃ seeds, create_program_address seeds program_id = Ok k.

(** A transaction or another program cannot sign for a derived address. *)
Definition undeclared (info : AccountInfo) : Prop := is_signer info = true → ¬ derived (key info).

(** The vault at an address, with its balance *)
Definition vault accs k (n : Z) : Prop :=
  ∃ a, token_at accs k = Some a ∧ derived (ta_owner a) ∧ ta_delegate a = None ∧
    ta_close_authority a = None ∧ ta_amount a = n.

(** Nothing was taken out of a vault. *)
Definition vaults_kept accs accs' : Prop :=
  ∀ k n, vault accs k n → ∃ n', n ≤ n' ∧ vault accs' k n'.

(** What a call of the token program does to the token accounts [t] *)
Definition token_effect (c : TokenCall) (t t' : Pubkey → option TokenAccount) : Prop :=
  match c with
  | initialize_account _ account mint owner =>
      t account = None ∧
      (∃ n, 0 ≤ n ∧ t' account = Some (mkTokenAccount mint owner n None None)) ∧
      ∀ k, k ≠ account → t' k = t k
  | initialize_mint _ _ _ _ _ => ∀ k, t' k = t k
  | transfer _ source destination _ _ n =>
      ∃ s d, t source = Some s ∧ t destination = Some d ∧
        if decide (source = destination) then ∀ k, t' k = t k
        else
          (∃ delegate, (delegate = ta_delegate s ∨ delegate = None) ∧
             t' source = Some (with_tokens s (ta_amount s - n) delegate)) ∧
          t' destination = Some (with_tokens d (ta_amount d + n) (ta_delegate d)) ∧
          ∀ k, k ≠ source → k ≠ destination → t' k = t k
  | mint_to _ _ destination _ _ n =>
      ∃ d, t destination = Some d ∧
        t' destination = Some (with_tokens d (ta_amount d + n) (ta_delegate d)) ∧
        ∀ k, k ≠ destination → t' k = t k
  | burn _ source _ _ _ n =>
      ∃ s, t source = Some s ∧
        (∃ delegate, (delegate = ta_delegate s ∨ delegate = None) ∧
           t' source = Some (with_tokens s (ta_amount s - n) delegate)) ∧
        ∀ k, k ≠ source → t' k = t k
  end.

Class TokenLaws : Prop := {
  (* a token account takes 165 bytes, and its amount is what [token_amount] reads *)
  token_account_size : ∀ bs a, token_account_unpack bs = Some a → length bs = 165%nat;
  token_account_amount : ∀ bs a,
    token_account_unpack bs = Some a → token_amount bs = Ok (ta_amount a);
  (* the builders of spl_token refuse any other token program *)
  token_instruction_spl : ∀ c ix, token_instruction c = Ok ix → token_call_program c = spl_token_id;
  (* the instructions do what they are documented to do *)
  token_instruction_effect : ∀ c ix infos seeds accs accs',
    token_instruction c = Ok ix → invoke_signed ix infos seeds accs = Ok accs' →
    token_effect c (token_at accs) (token_at accs');
  (* tokens leave an account, and its owner changes, only with the signature of its
     owner or of a delegate; an invocation without seeds carries the signatures of
     its accounts only *)
  unsigned_keeps_vaults : ∀ ix infos accs accs',
    ix_program_id ix ≠ program_id → Forall undeclared infos →
    invoke_signed ix infos [] accs = Ok accs' → vaults_kept accs accs';
}.

(** ** Vaults *)

Lemma vault_inj accs k n n' : vault accs k n → vault accs k n' → n = n'.
Proof. intros (a & Ha & _ & _ & _ & <-) (b & Hb & _ & _ & _ & <-). congruence. Qed.

Lemma vault_token_at accs k n : vault accs k n → token_at accs k ≠ None.
Proof. intros (a & -> & _). done. Qed.

Lemma vaults_kept_refl accs : vaults_kept accs accs.
Proof. intros k n Hv. by exists n. Qed.

Lemma vaults_kept_trans a b c : vaults_kept a b → vaults_kept b c → vaults_kept a c.
Proof.
  intros H1 H2 k n (n1 & Hn1 & (n2 & Hn2 & Hv)%H2)%H1. exists n2. split; [lia|done].
Qed.

(** Vaults depend on the token accounts only. *)
Lemma vault_eq accs accs' k n : token_at accs' k = token_at accs k → vault accs k n → vault accs' k n.
Proof. unfold vault. by intros ->. Qed.

Lemma vault_paid accs' k a amount delegate :
  derived (ta_owner a) → ta_delegate a = None → ta_close_authority a = None →
  (delegate = ta_delegate a ∨ delegate = None) →
  token_at accs' k = Some (with_tokens a amount delegate) → vault accs' k amount.
Proof.
  intros Hd He Hc Hdel Ht. exists (with_tokens a amount delegate). split_and!; try done.
  destruct Hdel as [->| ->]; [exact He|done].
Qed.

(** ** The calls of the token program, seen from a vault

    [n] tokens leave the source and reach the destination. *)

(** How much a vault gains at least, whatever it is to the call *)
Definition gain (c : TokenCall) k : Z :=
  match c with
  | transfer _ source destination _ _ n =>
      if decide (source = destination) then 0
      else (if decide (k = destination) then n else 0) - (if decide (k = source) then n else 0)
  | mint_to _ _ destination _ _ n => if decide (k = destination) then n else 0
  | burn _ source _ _ _ n => - (if decide (k = source) then n else 0)
  | _ => 0
  end.

Lemma token_effect_vault c accs accs' k n :
  token_effect c (token_at accs) (token_at accs') → vault accs k n → vault accs' k (n + gain c k).
Proof.
  intros He (a & Ha & Hd & Hdel & Hcl & <-).
  assert (Hsame : token_at accs' k = token_at accs k → vault accs' k (ta_amount a + 0)).
  { intros E. rewrite Z.add_0_r. eapply vault_eq; [exact E|]. by exists a. }
  destruct c as [tp acc mint own|tp mint auth fr dec|tp src dst auth sg m|tp mint dst auth sg m|tp src mint auth sg m];
    cbn [token_effect gain] in *.
  - destruct He as (Hn & _ & Ho). apply Hsame, Ho. intros ->. congruence.
  - by apply Hsame.
  - destruct He as (s & d & Hs & Hdst & He). case_decide as E1; [by apply Hsame|].
    destruct He as ((del & Hdl & Hs') & Hd' & Ho).
    destruct (decide (k = dst)) as [->|E2]; [|destruct (decide (k = src)) as [->|E3]].
    + rewrite Ha in Hdst. injection Hdst as <-. destruct (decide (dst = src)); [congruence|].
      rewrite Z.sub_0_r. eapply vault_paid; [exact Hd|exact Hdel|exact Hcl|left; reflexivity|exact Hd'].
    + rewrite Ha in Hs. injection Hs as <-. eapply vault_paid; [exact Hd|exact Hdel|exact Hcl|exact Hdl|exact Hs'].
    + by apply Hsame, Ho.
  - destruct He as (d & Hdst & Hd' & Ho). case_decide as E; [subst|by apply Hsame, Ho].
    rewrite Ha in Hdst. injection Hdst as <-. eapply vault_paid; [exact Hd|exact Hdel|exact Hcl|left; reflexivity|exact Hd'].
  - destruct He as (s & Hs & (del & Hdl & Hs') & Ho). case_decide as E; [subst|by apply Hsame, Ho].
    rewrite Ha in Hs. injection Hs as <-. eapply vault_paid; [exact Hd|exact Hdel|exact Hcl|exact Hdl|exact Hs'].
Qed.

(** A new token account of a derived address is a vault. *)
Lemma initialize_account_vault tp k mint own accs accs' :
  token_effect (initialize_account tp k mint own) (token_at accs) (token_at accs') → derived own →
  (∀ n, ¬ vault accs k n) ∧ ∃ n, 0 ≤ n ∧ vault accs' k n.
Proof.
  intros (Hn & (n & Hpos & Ht) & _) Hd. split; [intros m Hv; by eapply vault_token_at|].
  exists n. split; [done|]. eexists. by split_and!.
Qed.

End tokens.
Arguments TokenLaws {S TS} program_id.
