(* ===== verification/VaultTestbed.v ===== *)
(** * A concrete runtime with real token accounts

    An executable instance of [Sdk], [TokenSdk] and [TokenLaws]: the 165 bytes of
    [spl_token::state::Account] at their offsets, the token instructions with the
    signature of the owner that they demand, and derived addresses of the upper
    half of the key space, which no transaction can sign for.  The theorems about
    the safety of the deposits are applied to it. *)

From S2P Require Import Prelude Errors FixedPoint StateBase LendingMarket Reserve.
From S2P Require Import ReserveFacts Obligation ObligationFacts Codec Solana Oracle Testbed Tokens.

#[export] Instance token_account_eq_dec : EqDecision TokenAccount.
Proof. solve_decision. Defined.

(** ** Token accounts as bytes *)

Definition coption_key (bs : list Z) : option Pubkey :=
  if of_le_bytes (take 4 bs) =? 1 then Some (of_le_bytes (take 32 (drop 4 bs))) else None.

Definition coption_bytes (k : option Pubkey) : list Z :=
  match k with Some k => le_bytes 4 1 ++ le_bytes 32 k | None => le_bytes 36 0 end.

(** mint 0..32, owner 32..64, amount 64..72, delegate 72..108, state 108, native
    reserve 109..121, delegated amount 121..129, close authority 129..165 *)
Definition vault_unpack (bs : list Z) : option TokenAccount :=
  if (length bs =? 165)%nat && (nth 108 bs 0 =? 1) then
    Some (mkTokenAccount (of_le_bytes (take 32 bs)) (of_le_bytes (take 32 (drop 32 bs)))
            (of_le_bytes (take 8 (drop 64 bs))) (coption_key (drop 72 bs)) (coption_key (drop 129 bs)))
  else None.

Definition vault_pack (a : TokenAccount) : list Z :=
  le_bytes 32 (ta_mint a) ++ le_bytes 32 (ta_owner a) ++ le_bytes 8 (ta_amount a) ++
  coption_bytes (ta_delegate a) ++ [1] ++ replicate 20 0 ++ coption_bytes (ta_close_authority a).

#[export] Instance vault_tokens : TokenSdk := {| token_account_unpack := vault_unpack |}.

(** ** The token program *)

Definition vault_address (seeds : Seeds) : Pubkey := 2 ^ 255 + of_le_bytes (concat seeds) mod 2 ^ 255.

(** [authority] signed the invocation, or the caller derived it. *)
Definition signed (infos : list AccountInfo) (seeds : list Seeds) (authority : Pubkey) : bool :=
  existsb (λ i, is_signer i && (key i =? authority)) infos ||
  existsb (λ s, vault_address s =? authority) seeds.

Definition read_token (accs : Accounts) (k : Pubkey) : outcome TokenAccount :=
  a ← ok_or InvalidArgument (accs !! k);
  _ ← ensure (owner a =? test_token_id) IncorrectProgramId;
  ok_or InvalidAccountData (vault_unpack (data a)).

(** A state that does not survive its encoding is refused. *)
Definition write_token (accs : Accounts) (k : Pubkey) (t : TokenAccount) : outcome Accounts :=
  a ← ok_or InvalidArgument (accs !! k);
  _ ← ensure (owner a =? test_token_id) IncorrectProgramId;
  _ ← ensure (bool_decide (vault_unpack (vault_pack t) = Some t)) InvalidArgument;
  mret (<[k := mkAccountState (owner a) (lamports a) (vault_pack t)]> accs).

Definition debit (ok : Pubkey → bool) (accs : Accounts) (k : Pubkey) (n : Z) : outcome Accounts :=
  t ← read_token accs k;
  _ ← ensure (ok (ta_owner t)) MissingRequiredSignature;
  _ ← ensure (n <=? ta_amount t) InsufficientFunds;
  write_token accs k (with_tokens t (ta_amount t - n) (ta_delegate t)).

Definition credit (accs : Accounts) (k : Pubkey) (n : Z) : outcome Accounts :=
  t ← read_token accs k;
  write_token accs k (with_tokens t (ta_amount t + n) (ta_delegate t)).

Definition init_token (accs : Accounts) (k mint own : Pubkey) : outcome Accounts :=
  a ← ok_or InvalidArgument (accs !! k);
  _ ← ensure (bool_decide (vault_unpack (data a) = None)) AccountAlreadyInitialized;
  write_token accs k (mkTokenAccount mint own 0 None None).

(** An account that pays itself keeps its tokens. *)
Definition transfer_tokens (ok : Pubkey → bool) (accs : Accounts) (src dst : Pubkey) (n : Z) :
    outcome Accounts :=
  if decide (src = dst) then
    t ← read_token accs src;
    _ ← ensure (ok (ta_owner t)) MissingRequiredSignature;
    mret accs
  else
    d ← read_token accs dst;
    accs1 ← debit ok accs src n;
    credit accs1 dst n.

Definition vault_token_instruction (c : TokenCall) : outcome Instruction :=
  let meta k := mkAccountMeta k false true in
  let ix tp ks bs := Ok (mkInstruction tp (meta <$> ks) bs) in
  let amount tp ks tag n :=
    if bool_decide (is_u64 n) then ix tp ks (tag :: le_bytes 8 n) else Err InvalidArgument in
  if token_call_program c =? test_token_id then
    match c with
    | initialize_account tp account mint owner => ix tp [account; mint; owner] [1]
    | initialize_mint tp mint authority _ decimals => ix tp [mint; authority] [0; decimals]
    | transfer tp src dst auth _ n => amount tp [src; dst; auth] 3 n
    | mint_to tp mint dst auth _ n => amount tp [mint; dst; auth] 7 n
    | burn tp src mint auth _ n => amount tp [src; mint; auth] 8 n
    end
  else Err IncorrectProgramId.

Definition vault_invoke (ix : Instruction) (infos : list AccountInfo) (seeds : list Seeds)
    (accs : Accounts) : outcome Accounts :=
  if ix_program_id ix =? test_token_id then
    match ix_data ix, pubkey <$> ix_accounts ix with
    | 1 :: _, account :: mint :: own :: _ => init_token accs account mint own
    | 3 :: n, src :: dst :: _ => transfer_tokens (signed infos seeds) accs src dst (of_le_bytes n mod 2 ^ 64)
    | 7 :: n, _ :: dst :: _ => credit accs dst (of_le_bytes n mod 2 ^ 64)
    | 8 :: n, src :: _ => debit (signed infos seeds) accs src (of_le_bytes n mod 2 ^ 64)
    | _, _ => Ok accs
    end
  else Ok accs.

Definition vault_sdk : Sdk := {|
  next_account_info := @next_account_info test_sdk;
  pack_unpack := @pack_unpack test_sdk;
  pack_unpack_unchecked := @pack_unpack_unchecked test_sdk;
  pack_pack := @pack_pack test_sdk;
  clock_from_account_info := @clock_from_account_info test_sdk;
  clock_get := @clock_get test_sdk;
  Rent := unit;
  rent_from_account_info := λ _ _, Ok tt;
  rent_is_exempt := λ _, @rent_is_exempt test_sdk tt;
  create_program_address := λ seeds _, Ok (vault_address seeds);
  find_program_address := λ seeds _, (vault_address seeds, 255);
  invoke_signed := vault_invoke;
  sysvar_clock_id := test_clock_id;
  sysvar_rent_id := 45;
  spl_token_id := test_token_id;
  token_instruction := vault_token_instruction;
  mint_decimals := @mint_decimals test_sdk;
  token_amount := test_token_amount;
  TYPE_AGGREGATOR := 1;
  deserialize_aggregator := @deserialize_aggregator test_sdk;
|}.

(** ** Its laws *)

#[local] Existing Instance vault_sdk.
Implicit Types (accs : Accounts) (k : Pubkey) (t : TokenAccount).

Lemma vault_derived k : derived solend_program_id k → 2 ^ 255 ≤ k.
Proof.
  intros (seeds & [= <-]). unfold vault_address.
  pose proof (Z.mod_pos_bound (of_le_bytes (concat seeds)) (2 ^ 255) eq_refl). lia.
Qed.

Lemma coption_bytes_bytes o : Forall is_byte (coption_bytes o).
Proof. destruct o; [apply Forall_app; split|]; apply le_bytes_is_byte. Qed.

Lemma vault_pack_bytes t : Forall is_byte (vault_pack t).
Proof.
  unfold vault_pack. repeat apply Forall_app_2;
    first [apply le_bytes_is_byte|apply coption_bytes_bytes|apply Forall_replicate; by split|by repeat constructor].
Qed.

Lemma read_token_Ok accs k t : read_token accs k = Ok t ↔ token_at accs k = Some t.
Proof.
  unfold read_token, token_at. destruct (accs !! k) as [a|]; cbn; [|done].
  destruct (owner a =? test_token_id); cbn; [|done]. destruct (vault_unpack (data a)); cbn; naive_solver.
Qed.

(** One token account was written, and nothing else. *)
Record token_written accs k t accs' : Prop := {
  tw_at : token_at accs' k = Some t;
  tw_others : ∀ j, j ≠ k → token_at accs' j = token_at accs j;
  tw_only : token_only accs accs';
}.

Lemma write_token_Ok accs k t accs' : write_token accs k t = Ok accs' → token_written accs k t accs'.
Proof.
  unfold write_token. intros Hw. inv_run. case_bool_decide as Hp; [|done].
  match goal with H : (_ =? _) = true |- _ => apply Z.eqb_eq in H as Ho end.
  split.
  - unfold token_at. rewrite lookup_insert_eq. cbn. by rewrite Ho.
  - intros j Hj. unfold token_at. by rewrite lookup_insert_ne.
  - intros j. destruct (decide (k = j)) as [<-|].
    + rewrite lookup_insert_eq. match goal with E : accs !! k = Some _ |- _ => rewrite E end. cbn.
      split; [done|]. split; [done|]. intros _. apply vault_pack_bytes.
    + rewrite lookup_insert_ne by done. apply token_only_refl.
Qed.

Lemma debit_Ok ok accs k n accs' :
  debit ok accs k n = Ok accs' →
  ∃ t, token_at accs k = Some t ∧ ok (ta_owner t) = true ∧
    token_written accs k (with_tokens t (ta_amount t - n) (ta_delegate t)) accs'.
Proof.
  unfold debit. intros (t & Ht%read_token_Ok & H)%bind_Ok. exists t. split; [done|].
  destruct (ok (ta_owner t)); [|done]. cbn in H. split; [done|].
  destruct (n <=? ta_amount t); [|done]. by apply write_token_Ok.
Qed.

Lemma credit_Ok accs k n accs' :
  credit accs k n = Ok accs' →
  ∃ t, token_at accs k = Some t ∧
    token_written accs k (with_tokens t (ta_amount t + n) (ta_delegate t)) accs'.
Proof.
  unfold credit. intros (t & Ht%read_token_Ok & H)%bind_Ok. exists t. split; [done|].
  by apply write_token_Ok.
Qed.

Lemma init_token_Ok accs k mint own accs' :
  init_token accs k mint own = Ok accs' →
  token_at accs k = None ∧ token_written accs k (mkTokenAccount mint own 0 None None) accs'.
Proof.
  unfold init_token. intros H. destruct (accs !! k) as [a|] eqn:E; [cbn in H|done].
  case_bool_decide as Hn; [|done]. split; [|by apply write_token_Ok].
  unfold token_at. rewrite E. cbn. by rewrite Hn; destruct (_ =? _).
Qed.

(** The documented effect, and who had to agree to it *)
Lemma transfer_tokens_Ok ok accs src dst n accs' tp auth signers :
  transfer_tokens ok accs src dst n = Ok accs' →
  token_effect (transfer tp src dst auth signers n) (token_at accs) (token_at accs') ∧
  token_only accs accs' ∧
  (accs' = accs ∨ ∃ t, token_at accs src = Some t ∧ ok (ta_owner t) = true).
Proof.
  unfold transfer_tokens, token_effect. case_decide as E.
  - subst. intros (t & Ht%read_token_Ok & H)%bind_Ok. destruct (ok (ta_owner t)); [|done].
    injection H as <-. split; [by exists t, t|]. split; [apply token_only_refl|by left].
  - intros (d & Hd%read_token_Ok & H)%bind_Ok.
    apply bind_Ok in H as (accs1 & (s & Hs & Hok & [Hs1 Ho1 Hf1])%debit_Ok & (d' & Hd' & [Hd1 Ho2 Hf2])%credit_Ok).
    rewrite Ho1 in Hd' by done. assert (d' = d) as -> by congruence.
    split; [|split; [by eapply token_only_trans|right; by exists s]].
    exists s, d. split; [done|]. split; [done|]. split; [|split; [done|]].
    + exists (ta_delegate s). split; [by left|]. by rewrite Ho2.
    + intros k H1 H2. by rewrite Ho2, Ho1.
Qed.

(** An invocation, as the call that it decodes to *)
Lemma vault_invoke_Ok ix infos seeds accs accs' :
  vault_invoke ix infos seeds accs = Ok accs' →
  accs' = accs ∨
  (∃ k mint own, init_token accs k mint own = Ok accs') ∨
  (∃ src dst n, 0 ≤ n ∧ transfer_tokens (signed infos seeds) accs src dst n = Ok accs') ∨
  (∃ dst n, 0 ≤ n ∧ credit accs dst n = Ok accs') ∨
  (∃ src n, 0 ≤ n ∧ debit (signed infos seeds) accs src n = Ok accs').
Proof.
  unfold vault_invoke. intros H. assert (Hp : ∀ n, 0 ≤ n mod 2 ^ 64) by (intros n; by apply Z.mod_pos_bound).
  repeat case_match; simplify_eq; eauto 8.
Qed.

Lemma vault_invoke_only ix infos seeds accs accs' :
  vault_invoke ix infos seeds accs = Ok accs' → token_only accs accs'.
Proof.
  intros [->|[(k & mint & own & H)|[(src & dst & n & _ & H)|[(dst & n & _ & H)|(src & n & _ & H)]]]]%vault_invoke_Ok.
  - apply token_only_refl.
  - by apply init_token_Ok in H as [_ ?%tw_only].
  - by apply (transfer_tokens_Ok _ _ _ _ _ _ 0 0 []) in H as (_ & ? & _).
  - by apply credit_Ok in H as (t & _ & ?%tw_only).
  - by apply debit_Ok in H as (t & _ & _ & ?%tw_only).
Qed.

#[export] Instance vault_laws : SdkLaws solend_program_id.
Proof.
  split; cbn; try done.
  - exact (@clock_from_account_info_u64 test_sdk solend_program_id test_laws).
  - exact (@clock_get_u64 test_sdk solend_program_id test_laws).
  - exact (@mint_decimals_u8 test_sdk solend_program_id test_laws).
  - intros c ix. unfold vault_token_instruction.
    destruct (Z.eqb_spec (token_call_program c) test_token_id) as [E|]; [|done].
    destruct c; cbn in *; try case_bool_decide; intros [= <-]; cbn; (split; [done|]); by rewrite E.
  - intros ix infos seeds accs accs' Hi Hb k a' Ha'. apply vault_invoke_only in Hi.
    specialize (Hi k). rewrite Ha' in Hi. destruct (accs !! k) eqn:E; [|done].
    apply Hi. by apply (Hb k).
  - intros ix infos seeds accs accs' k a Hi _ Ha Ho. apply vault_invoke_only in Hi.
    specialize (Hi k). rewrite Ha in Hi. destruct (accs' !! k) eqn:E; [|done].
    destruct Hi as (? & Hd & _). eexists. split; [done|]. split; [done|]. apply Hd. by rewrite Ho.
  - intros ix infos seeds accs accs' k a' Hi _ Ha Ho. apply vault_invoke_only in Hi.
    specialize (Hi k). rewrite Ha in Hi. destruct (accs !! k) eqn:E; [|done].
    left. eexists. split; [done|]. destruct Hi. congruence.
Qed.

(** ** The laws of the token program *)

Lemma token_written_keeps accs k t t' accs' :
  token_at accs k = Some t → token_written accs k t' accs' →
  (ta_owner t', ta_delegate t', ta_close_authority t') = (ta_owner t, ta_delegate t, ta_close_authority t) →
  (derived solend_program_id (ta_owner t) → ta_amount t ≤ ta_amount t') →
  vaults_kept solend_program_id accs accs'.
Proof.
  intros Ht [Ht' Ho _] Hf Ha j n (a & Hat & Hd & Hdel & Hcl & <-).
  destruct (decide (j = k)) as [->|Hne].
  - assert (a = t) as -> by congruence. injection Hf as E1 E2 E3. exists (ta_amount t').
    split; [auto|]. exists t'. split_and!; congruence.
  - exists (ta_amount a). split; [done|]. exists a. by rewrite Ho.
Qed.

(** Without seeds, only a signer of the transaction agrees, and no derived
    address is one. *)
Lemma unsigned_owner infos k :
  Forall (undeclared solend_program_id) infos → signed infos [] k = true → ¬ derived solend_program_id k.
Proof.
  unfold signed. cbn [existsb]. rewrite orb_false_r.
  intros Hu (i & Hi & [Hs <-%Z.eqb_eq]%andb_prop)%existsb_exists.
  rewrite Forall_forall in Hu. apply (Hu i); [by apply list_elem_of_In|done].
Qed.

Lemma unsigned_debit infos accs k n accs' :
  Forall (undeclared solend_program_id) infos → debit (signed infos []) accs k n = Ok accs' →
  vaults_kept solend_program_id accs accs'.
Proof.
  intros Hu (t & Ht & Hok & Hw)%debit_Ok. eapply token_written_keeps; [done..|].
  intros Hd. by destruct (unsigned_owner _ _ Hu Hok).
Qed.

Lemma credit_keeps accs k n accs' :
  0 ≤ n → credit accs k n = Ok accs' → vaults_kept solend_program_id accs accs'.
Proof.
  intros Hn (t & Ht & Hw)%credit_Ok. eapply token_written_keeps; [done..|]. cbn. lia.
Qed.

Lemma unsigned_transfer infos accs src dst n accs' :
  Forall (undeclared solend_program_id) infos → 0 ≤ n →
  transfer_tokens (signed infos []) accs src dst n = Ok accs' → vaults_kept solend_program_id accs accs'.
Proof.
  intros Hu Hn. unfold transfer_tokens. case_decide as E.
  - intros (t & _ & H)%bind_Ok. apply bind_Ok in H as (? & _ & [= <-]). apply vaults_kept_refl.
  - intros (d & _ & H)%bind_Ok. apply bind_Ok in H as (accs1 & H1 & H2).
    eapply vaults_kept_trans; [by eapply unsigned_debit|by eapply credit_keeps].
Qed.

Lemma init_token_keeps accs k mint own accs' :
  init_token accs k mint own = Ok accs' → vaults_kept solend_program_id accs accs'.
Proof.
  intros [Hn [_ Ho _]]%init_token_Ok j n Hv. exists n. split; [done|].
  eapply vault_eq; [|exact Hv]. apply Ho. intros ->. by eapply vault_token_at in Hv.
Qed.

Lemma vault_unpack_size bs a : vault_unpack bs = Some a → length bs = 165%nat.
Proof. unfold vault_unpack. by destruct (Nat.eqb_spec (length bs) 165). Qed.

(** An instruction that the builder made runs the call that it was made for. *)
Lemma vault_instruction_effect c ix infos seeds accs accs' :
  vault_token_instruction c = Ok ix → vault_invoke ix infos seeds accs = Ok accs' →
  token_effect c (token_at accs) (token_at accs').
Proof.
  unfold vault_token_instruction.
  destruct (Z.eqb_spec (token_call_program c) test_token_id) as [E|]; [|done].
  destruct c as [tp acc mint own|tp mint auth fr dec|tp src dst auth sg n|tp mint dst auth sg n|tp src mint auth sg n];
    cbn [token_call_program] in E; subst tp; cbv zeta;
    try (case_bool_decide as Hn; [|done]); intros [= <-]; unfold vault_invoke;
    cbn [ix_program_id ix_data ix_accounts fmap list_fmap pubkey]; rewrite Z.eqb_refl;
    try rewrite (of_le_bytes_le_bytes 8 n Hn).
  - intros [Hno [Ht Ho _]]%init_token_Ok. split; [done|]. split; [by exists 0|done].
  - by intros [= <-].
  - rewrite Z.mod_small by apply Hn. intros Ht. by apply (transfer_tokens_Ok _ _ _ _ _ _ test_token_id auth sg) in Ht as (? & _).
  - rewrite Z.mod_small by apply Hn. intros (t & Ht & [Hw Ho _])%credit_Ok. by exists t.
  - rewrite Z.mod_small by apply Hn. intros (t & Ht & _ & [Hw Ho _])%debit_Ok. exists t.
    split; [done|]. split; [|done]. exists (ta_delegate t). split; [by left|done].
Qed.

#[export] Instance vault_token_laws : TokenLaws solend_program_id.
Proof.
  split.
  - exact vault_unpack_size.
  - intros bs a Ha. cbn. unfold test_token_amount. rewrite (vault_unpack_size _ _ Ha).
    cbn in Ha. unfold vault_unpack in Ha. case_match; [|done]. by injection Ha as <-.
  - intros c ix. cbn. unfold vault_token_instruction. by destruct (Z.eqb_spec (token_call_program c) test_token_id).
  - intros c ix infos seeds accs accs'. apply vault_instruction_effect.
  - intros ix infos accs accs' _ Hu
      [->|[(k & mint & own & H)|[(src & dst & n & Hn & H)|[(dst & n & Hn & H)|(src & n & Hn & H)]]]]%vault_invoke_Ok.
    + apply vaults_kept_refl.
    + by eapply init_token_keeps.
    + by eapply unsigned_transfer.
    + by eapply credit_keeps.
    + by eapply unsigned_debit.
Qed.

(** A transaction carries the signatures of users, whose keys are of the lower
    half of the key space. *)
Definition user_signed (infos : list AccountInfo) : bool :=
  forallb (λ i, negb (is_signer i) || (key i <? 2 ^ 255)) infos.

Lemma user_signed_undeclared infos :
  user_signed infos = true → Forall (undeclared solend_program_id) infos.
Proof.
  unfold user_signed. rewrite forallb_forall. intros Hu. apply Forall_forall.
  intros i Hi%list_elem_of_In%Hu Hs Hd%vault_derived. rewrite Hs in Hi. apply Z.ltb_lt in Hi. lia.
Qed.

(** ** A ledger before the program stored anything

    The accounts for the market 9, the reserve 31 and the obligation 50; the
    liquidity mint 70 and the collateral mint 71; the user's liquidity 60 and
    blank token accounts 61 to 64; the feed 72 of the oracle program 41. *)

Definition vault_account t : AccountState := mkAccountState test_token_id 2000 (vault_pack t).
Definition blank (program : Pubkey) (len : nat) : AccountState :=
  mkAccountState program 2000 (replicate len 0).
Definition blank_mint : AccountState :=
  mkAccountState test_token_id 2000 (replicate 44 0 ++ [6] ++ replicate 37 0).

Definition vault_genesis : World :=
  mkWorld
    (list_to_map
       [(9, blank solend_program_id (LEN LendingMarket));
        (31, blank solend_program_id (LEN Reserve));
        (50, blank solend_program_id (LEN Obligation));
        (test_clock_id, mkAccountState 5 1 (le_bytes 32 100 ++ le_bytes 8 1656000000));
        (60, vault_account (mkTokenAccount 70 21 5000000 None None));
        (61, blank test_token_id 165); (62, blank test_token_id 165);
        (63, blank test_token_id 165); (64, blank test_token_id 165);
        (70, blank_mint); (71, blank_mint);
        (72, mkAccountState 41 1 [1])])
    [].

Definition vault_authority : Pubkey := vault_address [le_bytes 32 9; le_bytes 1 255].
