(* ===== verification/ProcessorBase.v ===== *)
(** * Processor: shared steps of the handlers

    The helper functions of [token-lending/program/src/processor.rs]: rent and
    initialisation checks, the calls of the token program, loading an account of
    the program, deriving the market's authority, and the refresh of a reserve's
    interest that most handlers begin with. *)

From S2P Require Import Prelude Errors FixedPoint StateBase LendingMarket Reserve.
From S2P Require Import Obligation Codec Solana Oracle.

Section processor.
Context `{Sdk}.
Implicit Types (program_id : Pubkey) (clock : Clock) (info : AccountInfo).

(** ** Guards *)

Definition assert_rent_exempt (rent : Rent) (account_info : AccountInfo) : M unit :=
  n ← lamports_of account_info;
  bs ← data_of account_info;
  check (rent_is_exempt rent n (length bs)) NotRentExempt.

Definition assert_uninitialized (T : Type) `{Pack T} `{IsInitialized T}
    (account_info : AccountInfo) : M T :=
  account ← unpack_unchecked T account_info;
  check (negb (is_initialized account)) AlreadyInitialized;;
  mret account.

(** [if info.owner != program_id { return Err(InvalidAccountOwner) }] *)
Definition check_owner program_id info : M unit :=
  o ← owner_of info;
  check (o =? program_id) InvalidAccountOwner.

(** [T::unpack(&info.data.borrow())?] followed by the check of the owner *)
Definition load (T : Type) `{Pack T} `{IsInitialized T} program_id info : M T :=
  a ← unpack T info;
  check_owner program_id info;;
  mret a.

(** [if last_update.is_stale(clock.slot)? { return Err(e) }] *)
Definition check_fresh (u : LastUpdate) clock (e : LendingError) : M unit :=
  stale ← lift (LastUpdate.is_stale u (clock_slot clock));
  check (negb stale) e.

(** The market, with its owner and token program checked. *)
Definition load_market program_id (lending_market_info token_program_id : AccountInfo) :
    M LendingMarket :=
  lending_market ← load LendingMarket program_id lending_market_info;
  check (lm_token_program_id lending_market =? key token_program_id) InvalidTokenProgram;;
  mret lending_market.

(** [authority_signer_seeds] *)
Definition authority_seeds (lending_market : LendingMarket) (lending_market_info : AccountInfo) :
    Seeds :=
  [le_bytes 32 (key lending_market_info); le_bytes 1 (lm_bump_seed lending_market)].

Definition check_authority program_id (lending_market : LendingMarket)
    (lending_market_info lending_market_authority_info : AccountInfo) : M Seeds :=
  let authority_signer_seeds := authority_seeds lending_market lending_market_info in
  lending_market_authority_pubkey ←
    lift (create_program_address authority_signer_seeds program_id);
  check (lending_market_authority_pubkey =? key lending_market_authority_info)
    InvalidMarketAuthority;;
  mret authority_signer_seeds.

(** [Mint::unpack(data).map_err(...)?.decimals] *)
Definition unpack_mint info : M Z :=
  bs ← data_of info;
  lift (map_err (λ _, ProgramError_from InvalidTokenMint) (mint_decimals bs)).

(** [Account::unpack(&info.data.borrow())?.amount] *)
Definition token_balance info : M Z :=
  bs ← data_of info;
  lift (token_amount bs).

(** ** Calls of the token program *)

Definition M_map_err {A} (e : LendingError) (m : M A) : M A :=
  λ w, map_err (λ _, ProgramError_from e) (m w).

Definition invoke (ix : Instruction) (account_infos : list AccountInfo) : M unit :=
  run_cpi ix account_infos [].

Definition invoke_optionally_signed (instruction : Instruction) (account_infos : list AccountInfo)
    (authority_signer_seeds : Seeds) : M unit :=
  match authority_signer_seeds with
  | [] => invoke instruction account_infos
  | _ => run_cpi instruction account_infos [authority_signer_seeds]
  end.

Definition spl_token_init_account (account mint owner rent token_program : AccountInfo) : M unit :=
  ix ← lift (token_instruction
               (initialize_account (key token_program) (key account) (key mint) (key owner)));
  M_map_err TokenInitializeAccountFailed
    (invoke ix [account; mint; owner; rent; token_program]).

Definition spl_token_init_mint (mint rent : AccountInfo) (authority : Pubkey) (decimals : Z)
    (token_program : AccountInfo) : M unit :=
  ix ← lift (token_instruction
               (initialize_mint (key token_program) (key mint) authority None decimals));
  M_map_err TokenInitializeMintFailed (invoke ix [mint; rent; token_program]).

Definition spl_token_transfer (source destination : AccountInfo) (amount : Z)
    (authority : AccountInfo) (authority_signer_seeds : Seeds) (token_program : AccountInfo) :
    M unit :=
  ix ← lift (token_instruction
               (transfer (key token_program) (key source) (key destination) (key authority) []
                  amount));
  M_map_err TokenTransferFailed
    (invoke_optionally_signed ix [source; destination; authority; token_program]
       authority_signer_seeds).

Definition spl_token_mint_to (mint destination : AccountInfo) (amount : Z)
    (authority : AccountInfo) (authority_signer_seeds : Seeds) (token_program : AccountInfo) :
    M unit :=
  ix ← lift (token_instruction
               (mint_to (key token_program) (key mint) (key destination) (key authority) [] amount));
  M_map_err TokenMintToFailed
    (invoke_optionally_signed ix [mint; destination; authority; token_program]
       authority_signer_seeds).

Definition spl_token_burn (mint source : AccountInfo) (amount : Z)
    (authority : AccountInfo) (authority_signer_seeds : Seeds) (token_program : AccountInfo) :
    M unit :=
  ix ← lift (token_instruction
               (burn (key token_program) (key source) (key mint) (key authority) [] amount));
  M_map_err TokenBurnFailed
    (invoke_optionally_signed ix [source; mint; authority; token_program] authority_signer_seeds).

(** ** Refreshing a reserve *)

Definition _refresh_reserve_interest program_id (reserve_info : AccountInfo) clock : M unit :=
  reserve ← load Reserve program_id reserve_info;
  reserve ← lift (Reserve.accrue_interest reserve (clock_slot clock));
  pack (Reserve.update_slot reserve (clock_slot clock)) reserve_info.

Definition _refresh_reserve program_id (reserve_info pyth_price_info switchboard_feed_info :
    AccountInfo) clock : M unit :=
  reserve ← load Reserve program_id reserve_info;
  check (rl_pyth_oracle_pubkey (r_liquidity reserve) =? key pyth_price_info) InvalidAccountInput;;
  check (rl_switchboard_oracle_pubkey (r_liquidity reserve) =? key switchboard_feed_info)
    InvalidOracleConfig;;
  market_price ← get_price switchboard_feed_info pyth_price_info clock;
  pack (Reserve.with_liquidity reserve
          (ReserveLiquidity.with_market_price (r_liquidity reserve) market_price)) reserve_info;;
  _refresh_reserve_interest program_id reserve_info clock.

(** [let mut reserve = Reserve::unpack(..)?; reserve.last_update.mark_stale();
    Reserve::pack(..)?], at the end of several handlers *)
Definition mark_reserve_stale (reserve_info : AccountInfo) : M unit :=
  reserve ← unpack Reserve reserve_info;
  pack (Reserve.mark_stale reserve) reserve_info.

End processor.
