(* ===== verification/ProcessorFacts.v ===== *)
(** * Facts about the shared steps of the handlers

    What it means that an account of the program stores a record, what a
    successful [load], [pack] or cross-program invocation read and wrote, and
    the frame that an invocation of another program respects. *)

From S2P Require Import Prelude Errors FixedPoint StateBase LendingMarket Reserve.
From S2P Require Import ReserveFacts Obligation ObligationFacts Codec Solana Oracle.
From S2P Require Import ProcessorBase.

Section facts.
Context `{S : Sdk} (program_id : Pubkey) `{L : !SdkLaws program_id}.
Implicit Types (w : World) (k : Pubkey) (info : AccountInfo).

(** ** What an account holds *)

(** The account holds an initialised [T]. *)
Definition stored (T : Type) `{Pack T} `{IsInitialized T} w k (a : T) : Prop :=
  length (data (account_of w k)) = LEN T ∧
  unpack_from_slice (data (account_of w k)) = Ok a ∧ is_initialized a = true.

Definition owned w k : Prop := owner (account_of w k) = program_id.

Lemma pack_unpack_Ok T `{Pack T} `{IsInitialized T} bs (a : T) :
  pack_unpack bs = Ok a ↔
  length bs = LEN T ∧ unpack_from_slice bs = Ok a ∧ is_initialized a = true.
Proof.
  rewrite pack_unpack_eq, pack_unpack_unchecked_eq.
  destruct (decide (length bs = LEN T)); [|naive_solver].
  rewrite bind_Ok. split.
  - intros (b & Hb & Hi). destruct (is_initialized b) eqn:E; naive_solver.
  - intros (_ & Hu & Hi). exists a. by rewrite Hi.
Qed.

Lemma unpack_Ok T `{Pack T} `{IsInitialized T} info w (a : T) w' :
  unpack T info w = Ok (a, w') ↔ w' = w ∧ stored T w (key info) a.
Proof.
  unfold unpack, stored. rewrite <- pack_unpack_Ok. split.
  - intros Hu. by inv_m.
  - intros [-> Hu]. rewrite M_bind_Ok. eexists _, w. split; [done|]. by apply lift_Ok.
Qed.

(** A step that succeeded, followed by the rest of the run. *)
Lemma bind_intro {A B} (m : M A) (f : A → M B) w a w1 r :
  m w = Ok (a, w1) → f a w1 = r → (m ≫= f) w = r.
Proof. intros Hm <-. unfold mbind, M_bind. by rewrite Hm. Qed.

Lemma check_intro (c : bool) e w : c = true → check c e w = Ok (tt, w).
Proof. by intros ->. Qed.

Lemma check_owner_Ok info w u w' :
  check_owner program_id info w = Ok (u, w') ↔ w' = w ∧ owned w (key info).
Proof.
  unfold check_owner, owned. split.
  - intros Hc. inv_m. bool_to_prop. done.
  - intros [-> Ho]. destruct u. eapply bind_intro; [done|]. by apply check_intro, Z.eqb_eq.
Qed.

Lemma load_Ok T `{Pack T} `{IsInitialized T} info w (a : T) w' :
  load T program_id info w = Ok (a, w') ↔
  w' = w ∧ stored T w (key info) a ∧ owned w (key info).
Proof.
  unfold load. split.
  - intros Hl. inv_m. 
    repeat match goal with
           | H : unpack _ _ _ = Ok _ |- _ => apply unpack_Ok in H as [? ?]
           | H : check_owner _ _ _ = Ok _ |- _ => apply check_owner_Ok in H as [? ?]
           end. by subst.
  - intros (-> & Hs & Ho). eapply bind_intro; [by apply unpack_Ok|].
    eapply (bind_intro _ _ _ tt w); [|done]. by apply check_owner_Ok.
Qed.

Lemma check_fresh_Ok u clock e w x w' :
  check_fresh u clock e w = Ok (x, w') ↔
  w' = w ∧ LastUpdate.is_stale u (clock_slot clock) = Ok false.
Proof.
  unfold check_fresh. split.
  - intros Hc. inv_m. bool_to_prop. by subst.
  - intros [-> Hs]. destruct x. eapply bind_intro; [by apply lift_Ok|]. done.
Qed.

Lemma load_market_Ok info token_info w m w' :
  load_market program_id info token_info w = Ok (m, w') ↔
  w' = w ∧ stored LendingMarket w (key info) m ∧ owned w (key info) ∧
  lm_token_program_id m = key token_info.
Proof.
  unfold load_market. split.
  - intros Hl. inv_m. bool_to_prop.
    match goal with H : load _ _ _ _ = _ |- _ => apply load_Ok in H as (? & ? & ?) end. by subst.
  - intros (-> & Hs & Ho & Ht). eapply bind_intro; [by apply load_Ok|].
    eapply bind_intro; [by apply check_intro, Z.eqb_eq|]. done.
Qed.

Lemma check_authority_Ok m market_info authority_info w seeds w' :
  check_authority program_id m market_info authority_info w = Ok (seeds, w') ↔
  w' = w ∧ seeds = authority_seeds m market_info ∧
  create_program_address seeds program_id = Ok (key authority_info).
Proof.
  unfold check_authority. split.
  - intros Hc. inv_m. bool_to_prop. by subst.
  - intros (-> & -> & Hk). eapply bind_intro; [by apply lift_Ok|].
    eapply bind_intro; [by apply check_intro, Z.eqb_eq|]. done.
Qed.

Lemma next_Ok iter w a l w' : next iter w = Ok ((a, l), w') ↔ w' = w ∧ iter = a :: l.
Proof.
  unfold next. rewrite lift_Ok. destruct iter as [|b iter].
  - rewrite next_account_info_nil. naive_solver.
  - rewrite next_account_info_cons. naive_solver.
Qed.

(** An account holds at most one thing of each type, and things of different
    types have different sizes. *)
Lemma stored_inj T `{Pack T} `{IsInitialized T} w k (a b : T) :
  stored T w k a → stored T w k b → a = b.
Proof. intros (_ & H1 & _) (_ & H2 & _). congruence. Qed.

Lemma stored_data T `{Pack T} `{IsInitialized T} w w' k (a : T) :
  data (account_of w' k) = data (account_of w k) → stored T w k a → stored T w' k a.
Proof. unfold stored. by intros ->. Qed.

Lemma stored_exists T `{Pack T} `{IsInitialized T} w k (a : T) :
  (0 < LEN T)%nat → stored T w k a → ∃ acc, accounts w !! k = Some acc.
Proof.
  unfold stored, account_of. intros HL (Hl & _). destruct (accounts w !! k) as [acc|]; [by exists acc|].
  cbn in Hl. lia.
Qed.

(** ** Writing an account *)

Lemma pack_Ok T `{Pack T} (a : T) info w u w' :
  pack a info w = Ok (u, w') →
  length (data (account_of w (key info))) = LEN T ∧
  ∃ bs, pack_into_slice a (data (account_of w (key info))) = Ok bs ∧
    w' = set_account w (key info) bs.
Proof.
  unfold pack. intros Hp. inv_m.
  rewrite pack_pack_eq in *. destruct (decide _) as [Hl|]; [|done].
  split; [done|]. eauto.
Qed.

Lemma owned_set w k bs k' : owned (set_account w k bs) k' ↔ owned w k'.
Proof. unfold owned. by rewrite owner_set. Qed.

Lemma stored_set_ne T `{Pack T} `{IsInitialized T} w k bs k' (a : T) :
  k ≠ k' → stored T (set_account w k bs) k' a ↔ stored T w k' a.
Proof. intros. unfold stored. by rewrite !data_set_ne. Qed.

(** ** Cross-program invocations *)

(** The accounts of the program stay as they are; no other account turns into
    one of its initialised accounts. *)
Record cpi_frame w w' : Prop := {
  frame_owned : ∀ k a, accounts w !! k = Some a → owner a = program_id →
    ∃ a', accounts w' !! k = Some a' ∧ owner a' = program_id ∧ data a' = data a;
  frame_new : ∀ k, owned w' k →
    (owned w k ∧ data (account_of w' k) = data (account_of w k)) ∨
    Forall (eq 0) (data (account_of w' k));
  frame_bytes : (∀ k, Forall is_byte (data (account_of w k))) →
    ∀ k, Forall is_byte (data (account_of w' k));
}.

Lemma account_of_bytes w :
  (∀ k, Forall is_byte (data (account_of w k))) ↔
  map_Forall (λ _ a, Forall is_byte (data a)) (accounts w).
Proof.
  unfold account_of. split.
  - intros Hk k a E. specialize (Hk k). by rewrite E in Hk.
  - intros Hm k. destruct (accounts w !! k) eqn:E; cbn; [by eapply Hm|constructor].
Qed.

Lemma run_cpi_frame ix infos seeds w u w' :
  ix_program_id ix ≠ program_id → run_cpi ix infos seeds w = Ok (u, w') →
  cpi_frame w w' ∧ inner w' = inner w ++ [mkInvocation ix seeds].
Proof.
  intros Hid. unfold run_cpi. rewrite bind_Ok. intros (accs & Hi & [= <- <-]).
  split; [|done]. split; cbn.
  - intros k a Ha Ho.
    destruct (invoke_signed_frame _ _ _ _ _ _ _ Hi Hid Ha Ho) as (a' & ? & ? & ?).
    exists a'. split_and!; congruence.
  - unfold owned, account_of. cbn [accounts]. intros k Ho.
    destruct (accs !! k) as [a'|] eqn:E; [|right; constructor]. cbn in *.
    destruct (invoke_signed_new _ _ _ _ _ _ _ Hi Hid E Ho) as [(a & Ha & Hao)|]; [left|by right].
    destruct (invoke_signed_frame _ _ _ _ _ _ _ Hi Hid Ha Hao) as (a'' & E' & ? & ?).
    rewrite Ha. cbn. split; congruence.
  - rewrite !account_of_bytes. cbn [accounts]. by apply (invoke_signed_bytes _ _ _ _ _ Hi).
Qed.

Lemma cpi_frame_refl w : cpi_frame w w.
Proof. split; [naive_solver| |done]. intros k Ho. by left. Qed.

Lemma cpi_frame_trans w1 w2 w3 : cpi_frame w1 w2 → cpi_frame w2 w3 → cpi_frame w1 w3.
Proof.
  intros [O1 N1 B1] [O2 N2 B2]. split.
  - intros k a Ha Ho. destruct (O1 k a Ha Ho) as (a2 & Ha2 & Ho2 & E2).
    destruct (O2 k a2 Ha2 Ho2) as (a3 & ? & ? & E3). exists a3. by rewrite E3.
  - intros k Ho. destruct (N2 k Ho) as [[Ho2 E]|]; [|by right]. rewrite E.
    by destruct (N1 k Ho2) as [[? ->]|]; [left|right].
  - auto.
Qed.

Lemma cpi_frame_stored T `{Pack T} `{IsInitialized T} w w' k (a : T) :
  (0 < LEN T)%nat → cpi_frame w w' → owned w k → stored T w k a →
  owned w' k ∧ stored T w' k a.
Proof.
  intros HL [Hf _ _] Ho Hs. destruct (stored_exists T _ _ _ HL Hs) as [acc E].
  destruct (Hf k acc E) as (acc' & E' & Ho' & Hd).
  { unfold owned, account_of in Ho. by rewrite E in Ho. }
  split; [unfold owned, account_of; by rewrite E'|].
  eapply stored_data, Hs. unfold account_of. by rewrite E, E'.
Qed.

Lemma M_map_err_Ok {A} e (m : M A) w a w' : M_map_err e m w = Ok (a, w') ↔ m w = Ok (a, w').
Proof. unfold M_map_err. apply map_err_Ok. Qed.

(** A world that followed from another by one call of the token program. *)
Definition token_step (call : TokenCall) (seeds : Seeds) w w' : Prop :=
  cpi_frame w w' ∧
  ∃ ix, token_instruction call = Ok ix ∧
    inner w' = inner w ++ [mkInvocation ix (if decide (seeds = []) then [] else [seeds])].

Lemma invoke_optionally_signed_Ok ix infos seeds w u w' :
  invoke_optionally_signed ix infos seeds w = Ok (u, w') ↔
  run_cpi ix infos (if decide (seeds = []) then [] else [seeds]) w = Ok (u, w').
Proof. unfold invoke_optionally_signed, invoke. by destruct seeds. Qed.

Lemma token_cpi call ix infos seeds w u w' :
  token_instruction call = Ok ix →
  run_cpi ix infos (if decide (seeds = []) then [] else [seeds]) w = Ok (u, w') →
  token_step call seeds w w'.
Proof.
  intros Hix Hr. destruct (token_instruction_program _ _ Hix) as [_ Hne].
  destruct (run_cpi_frame _ _ _ _ _ _ Hne Hr) as [Hf Hi]. split; [done|]. by exists ix.
Qed.

Ltac solve_token :=
  intros; inv_m; match goal with H : M_map_err _ _ _ = Ok _ |- _ => apply M_map_err_Ok in H end;
  try match goal with
      | H : invoke_optionally_signed _ _ _ _ = Ok _ |- _ => apply invoke_optionally_signed_Ok in H
      end;
  eapply token_cpi; eassumption.

Lemma spl_token_transfer_Ok src dst amount auth seeds tp w u w' :
  spl_token_transfer src dst amount auth seeds tp w = Ok (u, w') →
  token_step (transfer (key tp) (key src) (key dst) (key auth) [] amount) seeds w w'.
Proof. unfold spl_token_transfer. solve_token. Qed.

Lemma spl_token_mint_to_Ok mint dst amount auth seeds tp w u w' :
  spl_token_mint_to mint dst amount auth seeds tp w = Ok (u, w') →
  token_step (mint_to (key tp) (key mint) (key dst) (key auth) [] amount) seeds w w'.
Proof. unfold spl_token_mint_to. solve_token. Qed.

Lemma spl_token_burn_Ok mint src amount auth seeds tp w u w' :
  spl_token_burn mint src amount auth seeds tp w = Ok (u, w') →
  token_step (burn (key tp) (key src) (key mint) (key auth) [] amount) seeds w w'.
Proof. unfold spl_token_burn. solve_token. Qed.

Lemma spl_token_init_account_Ok account mint owner rent tp w u w' :
  spl_token_init_account account mint owner rent tp w = Ok (u, w') →
  token_step (initialize_account (key tp) (key account) (key mint) (key owner)) [] w w'.
Proof. unfold spl_token_init_account, invoke. solve_token. Qed.

Lemma spl_token_init_mint_Ok mint rent authority decimals tp w u w' :
  spl_token_init_mint mint rent authority decimals tp w = Ok (u, w') →
  token_step (initialize_mint (key tp) (key mint) authority None decimals) [] w w'.
Proof. unfold spl_token_init_mint, invoke. solve_token. Qed.

End facts.
