(* ===== verification/ProcessorInvariant.v ===== *)
(** * The invariant of the program's accounts

    Every account of the program that holds an initialised reserve has a
    validated configuration, and every one that holds an initialised obligation
    satisfies the obligation's invariant; all account data is bytes.  [keeps]
    says that a step preserves this, with a fact about its result; the rules
    below carry it through a handler. *)

From S2P Require Import Prelude Errors FixedPoint StateBase LendingMarket Reserve.
From S2P Require Import ReserveFacts Obligation ObligationFacts Codec CodecFacts Solana Oracle.
From S2P Require Import ProcessorBase ProcessorFacts.

Create HintDb keeps.

Section invariant.
Context `{S : Sdk} (program_id : Pubkey) `{L : !SdkLaws program_id}.
Implicit Types (w : World) (k : Pubkey) (info : AccountInfo).

Record World_ok w : Prop := {
  wo_bytes : ∀ k, Forall is_byte (data (account_of w k));
  wo_config : ∀ k r, owned program_id w k → stored Reserve w k r →
    validate_reserve_config (r_config r) = Ok tt;
  wo_obligation : ∀ k o, owned program_id w k → stored Obligation w k o → Obligation_ok o;
}.

(** A reserve as a handler may assume it and must leave it. *)
Definition Reserve_valid (r : Reserve) : Prop :=
  Reserve_ok r ∧ validate_reserve_config (r_config r) = Ok tt.

Lemma stored_reserve_ok w k r : World_ok w → stored Reserve w k r → Reserve_ok r.
Proof. intros Hw (_ & Hu & _). by eapply reserve_unpack_pack, Hu; apply Hw. Qed.

Lemma stored_reserve_valid w k r :
  World_ok w → owned program_id w k → stored Reserve w k r → Reserve_valid r.
Proof. intros Hw Ho Hs. split; [by eapply stored_reserve_ok|by eapply wo_config]. Qed.

Lemma stored_market_ok w k m : World_ok w → stored LendingMarket w k m → LendingMarket_ok m.
Proof. intros Hw (_ & Hu & _). by eapply lending_market_unpack_pack, Hu; apply Hw. Qed.

(** Accounts of different types have different sizes. *)
Lemma stored_reserve_obligation w k r o : stored Reserve w k r → stored Obligation w k o → False.
Proof. intros (H1 & _) (H2 & _). rewrite H1 in H2. discriminate H2. Qed.

(** ** Writes *)

(** What a successful [pack] left in the store. *)
Lemma pack_stored T `{Pack T} `{IsInitialized T} (a : T) info w u w' :
  (∀ output bs, Forall is_byte output → pack_into_slice a output = Ok bs → packed a output bs) →
  is_initialized a = true → World_ok w → pack a info w = Ok (u, w') →
  ∃ bs, w' = set_account w (key info) bs ∧ Forall is_byte bs ∧ stored T w' (key info) a.
Proof.
  intros Hback Hi Hw Hp. apply (pack_Ok program_id) in Hp as (Hl & bs & Hp & ->).
  destruct (Hback _ _ (wo_bytes w Hw (key info)) Hp) as (Hlen & Hb & Hu).
  exists bs. split; [done|]. split; [done|]. unfold stored. rewrite data_set. by rewrite Hlen.
Qed.

Lemma set_bytes w k bs k' :
  World_ok w → Forall is_byte bs → Forall is_byte (data (account_of (set_account w k bs) k')).
Proof.
  intros Hw Hb. destruct (decide (k = k')) as [<-|]; [by rewrite data_set|].
  rewrite data_set_ne by done. apply Hw.
Qed.

Lemma World_ok_set w k bs :
  World_ok w → Forall is_byte bs →
  (∀ r, owned program_id w k → stored Reserve (set_account w k bs) k r →
     validate_reserve_config (r_config r) = Ok tt) →
  (∀ o, owned program_id w k → stored Obligation (set_account w k bs) k o → Obligation_ok o) →
  World_ok (set_account w k bs).
Proof.
  intros Hw Hb Hr Ho. split.
  - intros. by apply set_bytes.
  - intros k' r. rewrite owned_set. destruct (decide (k = k')) as [<-|]; [by apply Hr|].
    rewrite stored_set_ne by done. by apply Hw.
  - intros k' o. rewrite owned_set. destruct (decide (k = k')) as [<-|]; [by apply Ho|].
    rewrite stored_set_ne by done. by apply Hw.
Qed.

(** The packing of a value decodes to that value and to nothing else. *)
Lemma World_ok_pack_reserve r info w u w' :
  Reserve_ok r → (owned program_id w (key info) → validate_reserve_config (r_config r) = Ok tt) →
  World_ok w → pack r info w = Ok (u, w') → World_ok w'.
Proof.
  intros Hr Hv Hw Hp. apply (pack_Ok program_id) in Hp as (Hl & bs & Hp & ->).
  destruct (reserve_pack_back _ _ _ Hr (wo_bytes w Hw (key info)) Hp) as (Hlen & Hb & Hu).
  apply World_ok_set; [done..| |].
  - intros r' Ho (_ & Hu' & _). rewrite data_set, Hu in Hu'. injection Hu' as <-. by apply Hv.
  - intros o _ (Hl' & _). rewrite data_set, Hlen, Hl in Hl'. discriminate Hl'.
Qed.

Lemma World_ok_pack_obligation o info w u w' :
  Obligation_ok o → World_ok w → pack o info w = Ok (u, w') → World_ok w'.
Proof.
  intros Ho Hw Hp. apply (pack_Ok program_id) in Hp as (Hl & bs & Hp & ->).
  destruct (obligation_pack_back _ _ _ Ho (wo_bytes w Hw (key info)) Hp) as (Hlen & Hb & Hu).
  apply World_ok_set; [done..| |].
  - intros r _ (Hl' & _). rewrite data_set, Hlen, Hl in Hl'. discriminate Hl'.
  - intros o' _ (_ & Hu' & _). rewrite data_set, Hu in Hu'. by injection Hu' as <-.
Qed.

Lemma World_ok_pack_market m info w u w' :
  LendingMarket_ok m → World_ok w → pack m info w = Ok (u, w') → World_ok w'.
Proof.
  intros Hm Hw Hp. apply (pack_Ok program_id) in Hp as (Hl & bs & Hp & ->).
  destruct (market_pack_back _ _ _ Hm (wo_bytes w Hw (key info)) Hp) as (Hlen & Hb & Hu).
  apply World_ok_set; [done..| |].
  - intros r _ (Hl' & _). rewrite data_set, Hlen, Hl in Hl'. discriminate Hl'.
  - intros o _ (Hl' & _). rewrite data_set, Hlen, Hl in Hl'. discriminate Hl'.
Qed.

(** ** Cross-program invocations *)

Lemma World_ok_cpi w w' : World_ok w → cpi_frame program_id w w' → World_ok w'.
Proof.
  intros Hw [_ Hnew Hbytes]. split.
  - apply Hbytes, Hw.
  - intros k r Ho Hs. destruct (Hnew k Ho) as [[Hok Hd]|Hz].
    + eapply wo_config; [done|exact Hok|]. by eapply stored_data, Hs.
    + destruct Hs as (_ & Hu & Hi). pose proof (reserve_zeros _ _ Hz Hu). destruct (eq_true_false_abs _ Hi H).
  - intros k o Ho Hs. destruct (Hnew k Ho) as [[Hok Hd]|Hz].
    + eapply wo_obligation; [done|exact Hok|]. by eapply stored_data, Hs.
    + destruct Hs as (_ & Hu & Hi). pose proof (obligation_zeros _ _ Hz Hu). destruct (eq_true_false_abs _ Hi H).
Qed.

(** ** Rules *)

Definition keeps {A} (m : M A) (Φ : A → Prop) : Prop :=
  ∀ w a w', World_ok w → m w = Ok (a, w') → World_ok w' ∧ Φ a.

Lemma keeps_bind {A B} (m : M A) (f : A → M B) Φ Ψ :
  keeps m Φ → (∀ a, Φ a → keeps (f a) Ψ) → keeps (m ≫= f) Ψ.
Proof.
  intros Hm Hf w b w' Hw Hr. apply M_bind_Ok in Hr as (a & w1 & H1 & H2).
  destruct (Hm _ _ _ Hw H1) as [Hw1 Ha]. by apply (Hf a Ha w1).
Qed.

Lemma keeps_mono {A} (m : M A) (Φ Ψ : A → Prop) :
  keeps m Φ → (∀ a, Φ a → Ψ a) → keeps m Ψ.
Proof. intros Hm Hi w a w' Hw Hr. destruct (Hm _ _ _ Hw Hr). auto. Qed.

Lemma keeps_ret {A} (a : A) Φ : Φ a → keeps (mret a) Φ.
Proof. intros Ha w b w' Hw Hr. by apply M_ret_Ok in Hr as [-> ->]. Qed.

Lemma keeps_lift {A} (m : outcome A) : keeps (lift m) (λ a, m = Ok a).
Proof. intros w a w' Hw Hr. by apply lift_Ok in Hr as [? ->]. Qed.

Lemma keeps_check c e : keeps (check c e) (λ _, c = true).
Proof. intros w a w' Hw Hr. by apply check_Ok in Hr as [? ->]. Qed.

Lemma keeps_if {A} (b : bool) (m1 m2 : M A) Φ : keeps m1 Φ → keeps m2 Φ → keeps (if b then m1 else m2) Φ.
Proof. by destruct b. Qed.

Lemma keeps_data_of info : keeps (data_of info) (Forall is_byte).
Proof. intros w a w' Hw Hr. apply data_of_Ok in Hr as [-> ->]. split; [done|]. apply Hw. Qed.

Lemma keeps_owner_of info : keeps (owner_of info) (λ _, True).
Proof. intros w a w' Hw Hr. by apply owner_of_Ok in Hr as [-> ->]. Qed.

Lemma keeps_lamports_of info : keeps (lamports_of info) (λ _, True).
Proof. intros w a w' Hw Hr. by apply lamports_of_Ok in Hr as [-> ->]. Qed.

(** Keys are 32 bytes. *)
Definition info_ok info : Prop := is_key (key info).

Lemma keeps_next iter :
  Forall info_ok iter → keeps (next iter) (λ p, info_ok p.1 ∧ Forall info_ok p.2).
Proof.
  intros Hi w [a l] w' Hw Hr. apply (next_Ok program_id) in Hr as [-> ->].
  split; [done|]. by apply Forall_cons in Hi.
Qed.

Lemma keeps_clock_of info : keeps (clock_of info) (λ c, is_u64 (clock_slot c)).
Proof.
  unfold clock_of. eapply keeps_bind; [apply keeps_data_of|]. intros bs _.
  eapply keeps_mono; [apply keeps_lift|]. intros c Hc. exact (clock_from_account_info_u64 _ _ _ Hc).
Qed.

Lemma keeps_clock_get : keeps (lift clock_get) (λ c, is_u64 (clock_slot c)).
Proof. eapply keeps_mono; [apply keeps_lift|]. apply clock_get_u64. Qed.

Lemma keeps_rent_of info : keeps (rent_of info) (λ _, True).
Proof.
  unfold rent_of. eapply keeps_bind; [apply keeps_data_of|]. intros bs _.
  eapply keeps_mono; [apply keeps_lift|]. done.
Qed.

Lemma keeps_load_reserve info : keeps (load Reserve program_id info) Reserve_valid.
Proof.
  intros w a w' Hw Hr. apply (load_Ok program_id) in Hr as (-> & Hs & Ho).
  split; [done|]. by eapply stored_reserve_valid.
Qed.

Lemma keeps_unpack_reserve info : keeps (unpack Reserve info) Reserve_ok.
Proof.
  intros w a w' Hw Hr. apply (unpack_Ok program_id) in Hr as (-> & Hs).
  split; [done|]. by eapply stored_reserve_ok.
Qed.

Lemma keeps_load_obligation info : keeps (load Obligation program_id info) Obligation_ok.
Proof.
  intros w a w' Hw Hr. apply (load_Ok program_id) in Hr as (-> & Hs & Ho).
  split; [done|]. by eapply wo_obligation.
Qed.

Lemma keeps_load_lending_market info :
  keeps (load LendingMarket program_id info) LendingMarket_ok.
Proof.
  intros w a w' Hw Hr. apply (load_Ok program_id) in Hr as (-> & Hs & Ho).
  split; [done|]. by eapply stored_market_ok.
Qed.

Lemma keeps_load_market info token_info :
  keeps (load_market program_id info token_info) LendingMarket_ok.
Proof.
  intros w a w' Hw Hr. apply (load_market_Ok program_id) in Hr as (-> & Hs & Ho & _).
  split; [done|]. by eapply stored_market_ok.
Qed.

Lemma keeps_check_owner info : keeps (check_owner program_id info) (λ _, True).
Proof. intros w a w' Hw Hr. by apply (check_owner_Ok program_id) in Hr as (-> & Ho). Qed.

Lemma keeps_check_fresh u clock e : keeps (check_fresh u clock e) (λ _, True).
Proof. intros w a w' Hw Hr. by apply check_fresh_Ok in Hr as (-> & Ho). Qed.

Lemma keeps_check_authority m i1 i2 : keeps (check_authority program_id m i1 i2) (λ _, True).
Proof. intros w a w' Hw Hr. by apply (check_authority_Ok program_id) in Hr as (-> & Ho). Qed.

Lemma keeps_pack_reserve r info : Reserve_valid r → keeps (pack r info) (λ _, True).
Proof. intros [Hr Hv] w a w' Hw Hp. split; [|done]. by eapply World_ok_pack_reserve, Hp. Qed.

Lemma keeps_pack_obligation o info : Obligation_ok o → keeps (pack o info) (λ _, True).
Proof. intros Ho w a w' Hw Hp. split; [|done]. by eapply World_ok_pack_obligation, Hp. Qed.

Lemma keeps_pack_market m info : LendingMarket_ok m → keeps (pack m info) (λ _, True).
Proof. intros Ho w a w' Hw Hp. split; [|done]. by eapply World_ok_pack_market, Hp. Qed.

(** Unpacking without a check of the owner: the result may be packed again into
    the same account, because its configuration is the one that was there. *)
Lemma keeps_update_reserve {B C} info (f : Reserve → outcome B) (g : Reserve → B → Reserve)
    (next : M C) Φ :
  (∀ r b, Reserve_ok r → f r = Ok b → Reserve_ok (g r b) ∧ r_config (g r b) = r_config r) →
  keeps next Φ →
  keeps (r ← unpack Reserve info; b ← lift (f r); pack (g r b) info;; next) Φ.
Proof.
  intros Hg Hn w c w' Hw Hr. apply M_bind_Ok in Hr as (r & w1 & H1 & Hr).
  apply (unpack_Ok program_id) in H1 as [-> Hs].
  apply M_bind_Ok in Hr as (b & w1 & H1 & Hr). apply lift_Ok in H1 as [Hb ->].
  apply M_bind_Ok in Hr as (u & w1 & H1 & Hr).
  destruct (Hg r b) as [Hok Hc]; [by eapply stored_reserve_ok|done|].
  apply (Hn w1); [|done]. eapply World_ok_pack_reserve; [exact Hok| |done|exact H1].
  intros Ho. rewrite Hc. exact (wo_config _ Hw _ _ Ho Hs).
Qed.

Lemma keeps_mark_reserve_stale info : keeps (mark_reserve_stale info) (λ _, True).
Proof.
  intros w a w' Hw Hr. split; [|done]. apply M_bind_Ok in Hr as (r & w1 & H1 & Hr).
  apply (unpack_Ok program_id) in H1 as [-> Hs].
  pose proof (stored_reserve_ok _ _ _ Hw Hs).
  eapply World_ok_pack_reserve; [by apply reserve_mark_stale_ok| |done|exact Hr].
  intros Ho. exact (wo_config _ Hw _ _ Ho Hs).
Qed.

(** Token instructions and any other program's instructions *)
Lemma keeps_token call seeds {A} (m : M A) :
  (∀ w a w', m w = Ok (a, w') → token_step program_id call seeds w w') → keeps m (λ _, True).
Proof. intros Hm w a w' Hw Hr. apply Hm in Hr as [Hf _]. split; [|done]. by eapply World_ok_cpi. Qed.

Lemma keeps_transfer src dst n auth seeds tp :
  keeps (spl_token_transfer src dst n auth seeds tp) (λ _, True).
Proof. eapply keeps_token. intros. by eapply spl_token_transfer_Ok. Qed.

Lemma keeps_mint_to mint dst n auth seeds tp :
  keeps (spl_token_mint_to mint dst n auth seeds tp) (λ _, True).
Proof. eapply keeps_token. intros. by eapply spl_token_mint_to_Ok. Qed.

Lemma keeps_burn mint src n auth seeds tp :
  keeps (spl_token_burn mint src n auth seeds tp) (λ _, True).
Proof. eapply keeps_token. intros. by eapply spl_token_burn_Ok. Qed.

Lemma keeps_init_account a m o r tp : keeps (spl_token_init_account a m o r tp) (λ _, True).
Proof. eapply keeps_token. intros. by eapply spl_token_init_account_Ok. Qed.

Lemma keeps_init_mint m r a d tp : keeps (spl_token_init_mint m r a d tp) (λ _, True).
Proof. eapply keeps_token. intros. by eapply spl_token_init_mint_Ok. Qed.

Lemma keeps_invoke ix infos : ix_program_id ix ≠ program_id → keeps (invoke ix infos) (λ _, True).
Proof.
  intros Hne w a w' Hw Hr. split; [|done].
  destruct (run_cpi_frame program_id _ _ _ _ _ _ Hne Hr) as [Hf _]. by eapply World_ok_cpi.
Qed.

End invariant.
