(* ===== verification/TestbedFacts.v ===== *)
(** * The ledger of the testbed satisfies the invariant

    Account by account, so that the theorems about handlers apply to it. *)

From S2P Require Import Prelude Errors FixedPoint StateBase LendingMarket Reserve.
From S2P Require Import ReserveFacts Obligation ObligationFacts Codec CodecFacts Solana Oracle.
From S2P Require Import Testbed ProcessorFacts ProcessorInvariant.
#[local] Existing Instance test_sdk.

(** The invariant, for one account. *)
Record Account_ok (a : AccountState) : Prop := {
  ao_bytes : Forall is_byte (data a);
  ao_config : owner a = solend_program_id → ∀ r : Reserve,
    length (data a) = LEN Reserve → unpack_from_slice (data a) = Ok r → is_initialized r = true →
    validate_reserve_config (r_config r) = Ok tt;
  ao_obligation : owner a = solend_program_id → ∀ o : Obligation,
    length (data a) = LEN Obligation → unpack_from_slice (data a) = Ok o → is_initialized o = true →
    Obligation_ok o;
}.

Lemma World_ok_accounts w :
  map_Forall (λ _, Account_ok) (accounts w) → World_ok solend_program_id w.
Proof.
  intros Ha. assert (Hk : ∀ k, Account_ok (account_of w k)).
  { intros k. unfold account_of. destruct (accounts w !! k) as [a|] eqn:E; cbn; [by eapply Ha|].
    by split. }
  split.
  - intros k. apply Hk.
  - intros k r Ho (Hl & Hu & Hi). by eapply (ao_config _ (Hk k)).
  - intros k o Ho (Hl & Hu & Hi). by eapply (ao_obligation _ (Hk k)).
Qed.

(** An account of another program, or of a size that no data of the program has *)
Lemma other_account_ok o n bs :
  o ≠ solend_program_id → Forall is_byte bs → Account_ok (mkAccountState o n bs).
Proof. by split. Qed.

Definition packs {A} `{Pack A} (a : A) : Prop := is_Ok (pack_into_slice a (replicate (LEN A) 0)).

Lemma replicate_bytes n : Forall is_byte (replicate n 0).
Proof. apply Forall_replicate. by split. Qed.

Lemma packed_back {A} `{Pack A} (a : A) :
  (∀ output bs, Forall is_byte output → pack_into_slice a output = Ok bs → packed a output bs) →
  packs a →
  length (data (packed_account a)) = LEN A ∧ Forall is_byte (data (packed_account a)) ∧
  unpack_from_slice (data (packed_account a)) = Ok a.
Proof.
  intros Hb [bs Hp]. unfold packed_account. rewrite Hp. cbn [the_bytes data].
  destruct (Hb _ _ (replicate_bytes _) Hp) as (Hl & ? & ?). by rewrite Hl, length_replicate.
Qed.

Lemma packed_market_ok m : LendingMarket_ok m → packs m → Account_ok (packed_account m).
Proof.
  intros Hm Hp. destruct (packed_back m) as (Hl & ? & _); [intros output bs; by apply market_pack_back|done|].
  split; [done| |]; intros _ x Hx; rewrite Hl in Hx; discriminate Hx.
Qed.

Lemma packed_reserve_ok r : Reserve_valid r → packs r → Account_ok (packed_account r).
Proof.
  intros [Hr Hv] Hp.
  destruct (packed_back r) as (Hl & ? & Hu); [intros output bs; by apply reserve_pack_back|done|].
  split; [done| |]; intros _ x Hx; [|rewrite Hl in Hx; discriminate Hx].
  rewrite Hu. by intros [= <-].
Qed.

Lemma packed_obligation_ok o : Obligation_ok o → packs o → Account_ok (packed_account o).
Proof.
  intros Ho Hp.
  destruct (packed_back o) as (Hl & ? & Hu); [intros output bs; by apply obligation_pack_back|done|].
  split; [done| |]; intros _ x Hx; [rewrite Hl in Hx; discriminate Hx|].
  rewrite Hu. by intros [= <-].
Qed.

Lemma token_account_ok n : Account_ok (token_account n).
Proof. apply other_account_ok; [done|]. apply set_amount_bytes, replicate_bytes. Qed.

Lemma sample_reserve_valid : Reserve_valid sample_reserve.
Proof. split; [apply sample_reserve_ok|done]. Qed.

Lemma sample_market_ok : LendingMarket_ok sample_market.
Proof. constructor; decide_ok. Qed.

Lemma ledger_of_ok r31 r33 o :
  Reserve_valid r31 → packs r31 → Reserve_valid r33 → packs r33 → Obligation_ok o → packs o →
  World_ok solend_program_id (ledger_of r31 r33 o).
Proof.
  intros. apply World_ok_accounts. unfold ledger_of. cbn [accounts list_to_map foldr fst snd].
  repeat apply map_Forall_insert_2; try apply token_account_ok; try apply map_Forall_empty.
  - apply packed_market_ok; [apply sample_market_ok|]. by eexists.
  - by apply packed_reserve_ok.
  - apply packed_reserve_ok; [apply sample_reserve_valid|]. by eexists.
  - by apply packed_reserve_ok.
  - by apply packed_obligation_ok.
  - apply other_account_ok; [done|]. vm_compute. by repeat constructor.
Qed.

Lemma ledger_ok : World_ok solend_program_id ledger.
Proof.
  apply ledger_of_ok;
    [apply sample_reserve_valid|by eexists|apply sample_reserve_valid|by eexists
    |apply sample_obligation_ok|by eexists].
Qed.

Lemma packed_stored {A} `{Pack A} `{IsInitialized A} w k (a : A) :
  (∀ output bs, Forall is_byte output → pack_into_slice a output = Ok bs → packed a output bs) →
  packs a → is_initialized a = true → account_of w k = packed_account a → stored A w k a.
Proof.
  intros Hb Hp Hi E. destruct (packed_back a Hb Hp) as (Hl & _ & Hu).
  unfold stored. by rewrite E.
Qed.

Lemma ledger_reserve r31 r33 o :
  Reserve_valid r33 → packs r33 → is_initialized r33 = true →
  stored Reserve (ledger_of r31 r33 o) 33 r33.
Proof.
  intros [Hr _] Hp Hi. apply packed_stored; [|done..].
  intros output bs. by apply reserve_pack_back.
Qed.

Lemma ledger_obligation r31 r33 o :
  Obligation_ok o → packs o → is_initialized o = true → stored Obligation (ledger_of r31 r33 o) 50 o.
Proof.
  intros Ho Hp Hi. apply packed_stored; [|done..].
  intros output bs. by apply obligation_pack_back.
Qed.

Lemma ledger_reserve_33 : stored Reserve ledger 33 sample_reserve.
Proof. apply ledger_reserve; [apply sample_reserve_valid|by eexists|done]. Qed.

Lemma ledger_obligation_50 : stored Obligation ledger 50 sample_obligation.
Proof. apply ledger_obligation; [apply sample_obligation_ok|by eexists|done]. Qed.

(** The three reserves hold the same record. *)
Lemma ledger_sample_reserves o :
  Forall (λ k, owned solend_program_id (ledger_of sample_reserve sample_reserve o) k ∧
               stored Reserve (ledger_of sample_reserve sample_reserve o) k sample_reserve) [31; 32; 33].
Proof.
  repeat apply Forall_cons_2; try apply Forall_nil_2.
  all: split; [reflexivity|]; apply packed_stored; [|by eexists|done|done].
  all: intros output bs; apply reserve_pack_back, sample_reserve_ok.
Qed.

(** The same ledger with the obligation under water *)
Definition sick_obligation : Obligation :=
  Obligation.with_values sample_obligation (Decimal.from_u64 1000) (Decimal.from_u64 600)
    (Decimal.from_u64 500) (Decimal.from_u64 550).

Definition sick_ledger : World := ledger_of sample_reserve sample_reserve sick_obligation.

Lemma sick_obligation_ok : Obligation_ok sick_obligation.
Proof. destruct sample_obligation_ok. constructor; try done; decide_ok. Qed.

Lemma sick_ledger_ok : World_ok solend_program_id sick_ledger.
Proof.
  apply ledger_of_ok;
    [apply sample_reserve_valid|by eexists|apply sample_reserve_valid|by eexists
    |apply sick_obligation_ok|by eexists].
Qed.
