(* ===== verification/ProcessorReserve.v ===== *)
(** * Processor: markets and reserves

    The handlers of [token-lending/program/src/processor.rs] that concern a
    market or one reserve: initialisation, owner and configuration changes,
    refresh, deposit of liquidity, redemption of collateral and of fees. *)

From S2P Require Import Prelude Errors FixedPoint StateBase LendingMarket Reserve.
From S2P Require Import Obligation Codec Solana Oracle ProcessorBase.

Section processor.
Context `{Sdk}.
Implicit Types (program_id : Pubkey) (clock : Clock) (iter : list AccountInfo).

Definition process_init_lending_market program_id (owner : Pubkey) (quote_currency : Z)
    (accounts : list AccountInfo) : M unit :=
  '(lending_market_info, iter) ← next accounts;
  '(rent_info, iter) ← next iter;
  rent ← rent_of rent_info;
  '(token_program_id, iter) ← next iter;
  '(oracle_program_id, iter) ← next iter;
  '(switchboard_oracle_program_id, iter) ← next iter;
  assert_rent_exempt rent lending_market_info;;
  lending_market ← assert_uninitialized LendingMarket lending_market_info;
  check_owner program_id lending_market_info;;
  let lending_market := LendingMarket.init lending_market {|
    ilm_bump_seed := snd (find_program_address [le_bytes 32 (key lending_market_info)] program_id);
    ilm_owner := owner;
    ilm_quote_currency := quote_currency;
    ilm_token_program_id := key token_program_id;
    ilm_oracle_program_id := key oracle_program_id;
    ilm_switchboard_oracle_program_id := key switchboard_oracle_program_id;
  |} in
  pack lending_market lending_market_info.

Definition process_set_lending_market_owner program_id (new_owner : Pubkey)
    (accounts : list AccountInfo) : M unit :=
  '(lending_market_info, iter) ← next accounts;
  '(lending_market_owner_info, iter) ← next iter;
  lending_market ← load LendingMarket program_id lending_market_info;
  check (lm_owner lending_market =? key lending_market_owner_info) InvalidMarketOwner;;
  check (is_signer lending_market_owner_info) InvalidSigner;;
  pack (LendingMarket.set_owner lending_market new_owner) lending_market_info.

(** Both oracles are null: the condition of [InvalidOracleConfig]. *)
Definition null_oracles (switchboard pyth_price pyth_product : Pubkey) : bool :=
  (switchboard =? NULL_PUBKEY) && ((pyth_price =? NULL_PUBKEY) || (pyth_product =? NULL_PUBKEY)).

Definition process_init_reserve program_id (liquidity_amount : Z) (config : ReserveConfig)
    (accounts : list AccountInfo) : M unit :=
  check (negb (liquidity_amount =? 0)) InvalidAmount;;
  lift (validate_reserve_config config);;
  '(source_liquidity_info, iter) ← next accounts;
  '(destination_collateral_info, iter) ← next iter;
  '(reserve_info, iter) ← next iter;
  '(reserve_liquidity_mint_info, iter) ← next iter;
  '(reserve_liquidity_supply_info, iter) ← next iter;
  '(reserve_liquidity_fee_receiver_info, iter) ← next iter;
  '(reserve_collateral_mint_info, iter) ← next iter;
  '(reserve_collateral_supply_info, iter) ← next iter;
  '(pyth_product_info, iter) ← next iter;
  '(pyth_price_info, iter) ← next iter;
  '(switchboard_feed_info, iter) ← next iter;
  '(lending_market_info, iter) ← next iter;
  '(lending_market_authority_info, iter) ← next iter;
  '(lending_market_owner_info, iter) ← next iter;
  '(user_transfer_authority_info, iter) ← next iter;
  '(clock_info, iter) ← next iter;
  clock ← clock_of clock_info;
  '(rent_info, iter) ← next iter;
  rent ← rent_of rent_info;
  '(token_program_id, iter) ← next iter;
  assert_rent_exempt rent reserve_info;;
  reserve ← assert_uninitialized Reserve reserve_info;
  check_owner program_id reserve_info;;
  check (negb (key reserve_liquidity_supply_info =? key source_liquidity_info))
    InvalidAccountInput;;
  lending_market ← load_market program_id lending_market_info token_program_id;
  check (lm_owner lending_market =? key lending_market_owner_info) InvalidMarketOwner;;
  check (is_signer lending_market_owner_info) InvalidSigner;;
  check (negb (null_oracles (key switchboard_feed_info) (key pyth_price_info)
                 (key pyth_product_info))) InvalidOracleConfig;;
  validate_pyth_keys lending_market pyth_product_info pyth_price_info;;
  validate_switchboard_keys lending_market switchboard_feed_info;;
  market_price ← get_price switchboard_feed_info pyth_price_info clock;
  authority_signer_seeds ←
    check_authority program_id lending_market lending_market_info lending_market_authority_info;
  mint_decimals ← unpack_mint reserve_liquidity_mint_info;
  o ← owner_of reserve_liquidity_mint_info;
  check (o =? key token_program_id) InvalidTokenOwner;;
  let reserve := Reserve.init reserve {|
    ir_current_slot := clock_slot clock;
    ir_lending_market := key lending_market_info;
    ir_liquidity := ReserveLiquidity.new {|
      nrl_mint_pubkey := key reserve_liquidity_mint_info;
      nrl_mint_decimals := mint_decimals;
      nrl_supply_pubkey := key reserve_liquidity_supply_info;
      nrl_pyth_oracle_pubkey := key pyth_price_info;
      nrl_switchboard_oracle_pubkey := key switchboard_feed_info;
      nrl_market_price := market_price;
    |};
    ir_collateral := ReserveCollateral.new {|
      nrc_mint_pubkey := key reserve_collateral_mint_info;
      nrc_supply_pubkey := key reserve_collateral_supply_info;
    |};
    ir_config := config;
  |} in
  '(reserve, collateral_amount) ← lift (Reserve.deposit_liquidity reserve liquidity_amount);
  pack reserve reserve_info;;
  spl_token_init_account reserve_liquidity_supply_info reserve_liquidity_mint_info
    lending_market_authority_info rent_info token_program_id;;
  spl_token_init_account reserve_liquidity_fee_receiver_info reserve_liquidity_mint_info
    lending_market_authority_info rent_info token_program_id;;
  spl_token_init_mint reserve_collateral_mint_info rent_info (key lending_market_authority_info)
    mint_decimals token_program_id;;
  spl_token_init_account reserve_collateral_supply_info reserve_collateral_mint_info
    lending_market_authority_info rent_info token_program_id;;
  spl_token_init_account destination_collateral_info reserve_collateral_mint_info
    user_transfer_authority_info rent_info token_program_id;;
  spl_token_transfer source_liquidity_info reserve_liquidity_supply_info liquidity_amount
    user_transfer_authority_info [] token_program_id;;
  spl_token_mint_to reserve_collateral_mint_info destination_collateral_info collateral_amount
    lending_market_authority_info authority_signer_seeds token_program_id.

Definition process_refresh_reserve program_id (accounts : list AccountInfo) : M unit :=
  '(reserve_info, iter) ← next accounts;
  '(pyth_price_info, iter) ← next iter;
  '(switchboard_feed_info, iter) ← next iter;
  '(clock_info, iter) ← next iter;
  clock ← clock_of clock_info;
  _refresh_reserve program_id reserve_info pyth_price_info switchboard_feed_info clock.

Definition _deposit_reserve_liquidity program_id (liquidity_amount : Z)
    (source_liquidity_info destination_collateral_info reserve_info reserve_liquidity_supply_info
     reserve_collateral_mint_info lending_market_info lending_market_authority_info
     user_transfer_authority_info : AccountInfo) clock (token_program_id : AccountInfo) : M Z :=
  lending_market ← load_market program_id lending_market_info token_program_id;
  reserve ← load Reserve program_id reserve_info;
  check (r_lending_market reserve =? key lending_market_info) InvalidAccountInput;;
  check (rl_supply_pubkey (r_liquidity reserve) =? key reserve_liquidity_supply_info)
    InvalidAccountInput;;
  check (rc_mint_pubkey (r_collateral reserve) =? key reserve_collateral_mint_info)
    InvalidAccountInput;;
  check (negb (rl_supply_pubkey (r_liquidity reserve) =? key source_liquidity_info))
    InvalidAccountInput;;
  check (negb (rc_supply_pubkey (r_collateral reserve) =? key destination_collateral_info))
    InvalidAccountInput;;
  check_fresh (r_last_update reserve) clock ReserveStale;;
  authority_signer_seeds ←
    check_authority program_id lending_market lending_market_info lending_market_authority_info;
  total_supply ← lift (ReserveLiquidity.total_supply (r_liquidity reserve));
  sum ← lift (try_add (Decimal.from_u64 liquidity_amount) total_supply);
  new_supply ← lift (Decimal.try_floor_u64 sum);
  check (negb (deposit_limit (r_config reserve) <? new_supply)) InvalidAmount;;
  '(reserve, collateral_amount) ← lift (Reserve.deposit_liquidity reserve liquidity_amount);
  pack (Reserve.mark_stale reserve) reserve_info;;
  spl_token_transfer source_liquidity_info reserve_liquidity_supply_info liquidity_amount
    user_transfer_authority_info [] token_program_id;;
  spl_token_mint_to reserve_collateral_mint_info destination_collateral_info collateral_amount
    lending_market_authority_info authority_signer_seeds token_program_id;;
  mret collateral_amount.

Definition process_deposit_reserve_liquidity program_id (liquidity_amount : Z)
    (accounts : list AccountInfo) : M unit :=
  check (negb (liquidity_amount =? 0)) InvalidAmount;;
  '(source_liquidity_info, iter) ← next accounts;
  '(destination_collateral_info, iter) ← next iter;
  '(reserve_info, iter) ← next iter;
  '(reserve_liquidity_supply_info, iter) ← next iter;
  '(reserve_collateral_mint_info, iter) ← next iter;
  '(lending_market_info, iter) ← next iter;
  '(lending_market_authority_info, iter) ← next iter;
  '(user_transfer_authority_info, iter) ← next iter;
  '(clock_info, iter) ← next iter;
  clock ← clock_of clock_info;
  '(token_program_id, iter) ← next iter;
  _refresh_reserve_interest program_id reserve_info clock;;
  _deposit_reserve_liquidity program_id liquidity_amount source_liquidity_info
    destination_collateral_info reserve_info reserve_liquidity_supply_info
    reserve_collateral_mint_info lending_market_info lending_market_authority_info
    user_transfer_authority_info clock token_program_id;;
  mret tt.

Definition _redeem_reserve_collateral program_id (collateral_amount : Z)
    (source_collateral_info destination_liquidity_info reserve_info reserve_collateral_mint_info
     reserve_liquidity_supply_info lending_market_info lending_market_authority_info
     user_transfer_authority_info : AccountInfo) clock (token_program_id : AccountInfo) : M Z :=
  lending_market ← load_market program_id lending_market_info token_program_id;
  reserve ← load Reserve program_id reserve_info;
  check (r_lending_market reserve =? key lending_market_info) InvalidAccountInput;;
  check (rc_mint_pubkey (r_collateral reserve) =? key reserve_collateral_mint_info)
    InvalidAccountInput;;
  check (negb (rc_supply_pubkey (r_collateral reserve) =? key source_collateral_info))
    InvalidAccountInput;;
  check (rl_supply_pubkey (r_liquidity reserve) =? key reserve_liquidity_supply_info)
    InvalidAccountInput;;
  check (negb (rl_supply_pubkey (r_liquidity reserve) =? key destination_liquidity_info))
    InvalidAccountInput;;
  check_fresh (r_last_update reserve) clock ReserveStale;;
  authority_signer_seeds ←
    check_authority program_id lending_market lending_market_info lending_market_authority_info;
  '(reserve, liquidity_amount) ← lift (Reserve.redeem_collateral reserve collateral_amount);
  pack (Reserve.mark_stale reserve) reserve_info;;
  spl_token_burn reserve_collateral_mint_info source_collateral_info collateral_amount
    user_transfer_authority_info [] token_program_id;;
  spl_token_transfer reserve_liquidity_supply_info destination_liquidity_info liquidity_amount
    lending_market_authority_info authority_signer_seeds token_program_id;;
  mret liquidity_amount.

Definition process_redeem_reserve_collateral program_id (collateral_amount : Z)
    (accounts : list AccountInfo) : M unit :=
  check (negb (collateral_amount =? 0)) InvalidAmount;;
  '(source_collateral_info, iter) ← next accounts;
  '(destination_liquidity_info, iter) ← next iter;
  '(reserve_info, iter) ← next iter;
  '(reserve_collateral_mint_info, iter) ← next iter;
  '(reserve_liquidity_supply_info, iter) ← next iter;
  '(lending_market_info, iter) ← next iter;
  '(lending_market_authority_info, iter) ← next iter;
  '(user_transfer_authority_info, iter) ← next iter;
  '(clock_info, iter) ← next iter;
  clock ← clock_of clock_info;
  '(token_program_id, iter) ← next iter;
  _refresh_reserve_interest program_id reserve_info clock;;
  _redeem_reserve_collateral program_id collateral_amount source_collateral_info
    destination_liquidity_info reserve_info reserve_collateral_mint_info
    reserve_liquidity_supply_info lending_market_info lending_market_authority_info
    user_transfer_authority_info clock token_program_id;;
  mark_reserve_stale reserve_info.

(** [reserve.liquidity.pyth_oracle_pubkey = ...] and its Switchboard twin *)
Definition set_pyth_oracle (reserve : Reserve) (pyth : Pubkey) : Reserve :=
  Reserve.with_liquidity reserve
    (ReserveLiquidity.with_oracles (r_liquidity reserve) pyth
       (rl_switchboard_oracle_pubkey (r_liquidity reserve))).

Definition set_switchboard_oracle (reserve : Reserve) (switchboard : Pubkey) : Reserve :=
  Reserve.with_liquidity reserve
    (ReserveLiquidity.with_oracles (r_liquidity reserve)
       (rl_pyth_oracle_pubkey (r_liquidity reserve)) switchboard).

Definition process_update_reserve_config program_id (config : ReserveConfig)
    (accounts : list AccountInfo) : M unit :=
  lift (validate_reserve_config config);;
  '(reserve_info, iter) ← next accounts;
  '(lending_market_info, iter) ← next iter;
  '(lending_market_authority_info, iter) ← next iter;
  '(lending_market_owner_info, iter) ← next iter;
  '(pyth_product_info, iter) ← next iter;
  '(pyth_price_info, iter) ← next iter;
  '(switchboard_feed_info, iter) ← next iter;
  reserve ← load Reserve program_id reserve_info;
  check (r_lending_market reserve =? key lending_market_info) InvalidAccountInput;;
  lending_market ← load LendingMarket program_id lending_market_info;
  check (lm_owner lending_market =? key lending_market_owner_info) InvalidMarketOwner;;
  check (is_signer lending_market_owner_info) InvalidSigner;;
  check_authority program_id lending_market lending_market_info lending_market_authority_info;;
  reserve ←
    (if negb (key pyth_price_info =? rl_pyth_oracle_pubkey (r_liquidity reserve)) then
       validate_pyth_keys lending_market pyth_product_info pyth_price_info;;
       mret (set_pyth_oracle reserve (key pyth_price_info))
     else mret reserve);
  reserve ←
    (if negb (key switchboard_feed_info =? rl_switchboard_oracle_pubkey (r_liquidity reserve)) then
       validate_switchboard_keys lending_market switchboard_feed_info;;
       mret (set_switchboard_oracle reserve (key switchboard_feed_info))
     else mret reserve);
  check (negb (null_oracles (rl_switchboard_oracle_pubkey (r_liquidity reserve))
                 (key pyth_price_info) (key pyth_product_info))) InvalidOracleConfig;;
  pack (Reserve.with_config reserve config) reserve_info.

Definition process_redeem_fees program_id (accounts : list AccountInfo) : M unit :=
  '(reserve_info, iter) ← next accounts;
  '(reserve_liquidity_fee_receiver_info, iter) ← next iter;
  '(reserve_supply_liquidity_info, iter) ← next iter;
  '(lending_market_info, iter) ← next iter;
  '(lending_market_authority_info, iter) ← next iter;
  '(token_program_id, iter) ← next iter;
  clock ← lift clock_get;
  reserve ← load Reserve program_id reserve_info;
  check (fee_receiver (r_config reserve) =? key reserve_liquidity_fee_receiver_info)
    InvalidAccountInput;;
  check (rl_supply_pubkey (r_liquidity reserve) =? key reserve_supply_liquidity_info)
    InvalidAccountInput;;
  check (r_lending_market reserve =? key lending_market_info) InvalidAccountInput;;
  check_fresh (r_last_update reserve) clock ReserveStale;;
  lending_market ← load_market program_id lending_market_info token_program_id;
  authority_signer_seeds ←
    check_authority program_id lending_market lending_market_info lending_market_authority_info;
  withdraw_amount ← lift (Reserve.calculate_redeem_fees reserve);
  check (negb (withdraw_amount =? 0)) InsufficientProtocolFeesToRedeem;;
  liquidity ← lift (ReserveLiquidity.redeem_fees (r_liquidity reserve) withdraw_amount);
  pack (Reserve.mark_stale (Reserve.with_liquidity reserve liquidity)) reserve_info;;
  spl_token_transfer reserve_supply_liquidity_info reserve_liquidity_fee_receiver_info
    withdraw_amount lending_market_authority_info authority_signer_seeds token_program_id.

End processor.
