(* ===== verification/ProcessorObligation.v ===== *)
(** * Processor: obligations

    The handlers of [token-lending/program/src/processor.rs] that create an
    obligation, refresh its values, and move collateral in and out of it. *)

From S2P Require Import Prelude Errors FixedPoint StateBase LendingMarket Reserve.
From S2P Require Import Obligation Codec Solana Oracle ProcessorBase ProcessorReserve.

(** ** The global borrow cap

    It falls from 120 to 50 million between two fixed instants. *)

Definition start_timestamp : Z := 1655899200.
Definition end_timestamp : Z := 1656403200.

(** [clock.unix_timestamp as u64] wraps a negative timestamp around. *)
Definition current_timestamp (clock : Clock) : Z := unix_timestamp clock mod 2 ^ 64.

Definition global_unhealthy_borrow_value (clock : Clock) : outcome Decimal :=
  let current_timestamp_in_range :=
    Z.min (Z.max start_timestamp (current_timestamp clock)) end_timestamp in
  numerator ← ok_or_overflow (checked_sub end_timestamp current_timestamp_in_range);
  denominator ← ok_or_overflow (checked_sub end_timestamp start_timestamp);
  let start_global_unhealthy_borrow_value := Decimal.from_u64 120000000 in
  let end_global_unhealthy_borrow_value := Decimal.from_u64 50000000 in
  range ← try_sub start_global_unhealthy_borrow_value end_global_unhealthy_borrow_value;
  scaled ← try_mul range numerator;
  share ← try_div scaled denominator;
  try_add end_global_unhealthy_borrow_value share.

Definition global_allowed_borrow_value (global_unhealthy : Decimal) : outcome Decimal :=
  try_sub global_unhealthy (Decimal.from_u64 5000000).

(** ** The values of one deposit and of one borrow *)

Definition deposit_market_value (deposit_reserve : Reserve) (collateral : ObligationCollateral) :
    outcome Decimal :=
  decimals ← ok_or_overflow (checked_pow 64 10 (rl_mint_decimals (r_liquidity deposit_reserve)));
  rate ← Reserve.collateral_exchange_rate deposit_reserve;
  liquidity ← CollateralExchangeRate.decimal_collateral_to_liquidity rate
                (Decimal.from_u64 (deposited_amount collateral));
  priced ← try_mul liquidity (rl_market_price (r_liquidity deposit_reserve));
  try_div priced decimals.

Definition borrow_market_value (borrow_reserve : Reserve) (liquidity : ObligationLiquidity) :
    outcome Decimal :=
  decimals ← ok_or_overflow (checked_pow 64 10 (rl_mint_decimals (r_liquidity borrow_reserve)));
  priced ← try_mul (ol_borrowed_amount_wads liquidity) (rl_market_price (r_liquidity borrow_reserve));
  try_div priced decimals.

(** The running sums of the first loop: deposited, allowed and unhealthy value. *)
Record DepositValues : Type := mkDepositValues {
  dv_deposited : Decimal;
  dv_allowed : Decimal;
  dv_unhealthy : Decimal;
}.

Definition add_deposit_value (sums : DepositValues) (config : ReserveConfig)
    (market_value : Decimal) : outcome DepositValues :=
  let loan_to_value_rate := Rate.from_percent (loan_to_value_ratio config) in
  let liquidation_threshold_rate := Rate.from_percent (liquidation_threshold config) in
  deposited ← try_add (dv_deposited sums) market_value;
  allowed ← try_mul market_value loan_to_value_rate;
  allowed ← try_add (dv_allowed sums) allowed;
  unhealthy ← try_mul market_value liquidation_threshold_rate;
  unhealthy ← try_add (dv_unhealthy sums) unhealthy;
  mret (mkDepositValues deposited allowed unhealthy).

Section processor.
Context `{Sdk}.
Implicit Types (program_id : Pubkey) (clock : Clock) (iter : list AccountInfo).

Definition process_init_obligation program_id (accounts : list AccountInfo) : M unit :=
  '(obligation_info, iter) ← next accounts;
  '(lending_market_info, iter) ← next iter;
  '(obligation_owner_info, iter) ← next iter;
  '(clock_info, iter) ← next iter;
  clock ← clock_of clock_info;
  '(rent_info, iter) ← next iter;
  rent ← rent_of rent_info;
  '(token_program_id, iter) ← next iter;
  assert_rent_exempt rent obligation_info;;
  obligation ← assert_uninitialized Obligation obligation_info;
  check_owner program_id obligation_info;;
  lending_market ← load_market program_id lending_market_info token_program_id;
  check (is_signer obligation_owner_info) InvalidSigner;;
  let obligation := Obligation.init obligation {|
    io_current_slot := clock_slot clock;
    io_lending_market := key lending_market_info;
    io_owner := key obligation_owner_info;
    io_deposits := [];
    io_borrows := [];
  |} in
  pack obligation obligation_info.

(** The reserve of the next account, which must be the entry's own and fresh. *)
Definition next_entry_reserve program_id clock (reserve : Pubkey) iter :
    M (Reserve * list AccountInfo) :=
  '(reserve_info, iter) ← next iter;
  check_owner program_id reserve_info;;
  check (reserve =? key reserve_info) InvalidAccountInput;;
  r ← unpack Reserve reserve_info;
  check_fresh (r_last_update r) clock ReserveStale;;
  mret (r, iter).

Fixpoint refresh_deposits program_id clock (deposits : list ObligationCollateral)
    (sums : DepositValues) iter :
    M (list ObligationCollateral * DepositValues * list AccountInfo) :=
  match deposits with
  | [] => mret ([], sums, iter)
  | collateral :: deposits =>
      '(r, iter) ← next_entry_reserve program_id clock (deposit_reserve collateral) iter;
      market_value ← lift (deposit_market_value r collateral);
      let collateral := ObligationCollateral.with_market_value collateral market_value in
      sums ← lift (add_deposit_value sums (r_config r) market_value);
      '(deposits, sums, iter) ← refresh_deposits program_id clock deposits sums iter;
      mret (collateral :: deposits, sums, iter)
  end.

Fixpoint refresh_borrows program_id clock (borrows : list ObligationLiquidity)
    (borrowed_value : Decimal) iter :
    M (list ObligationLiquidity * Decimal * list AccountInfo) :=
  match borrows with
  | [] => mret ([], borrowed_value, iter)
  | liquidity :: borrows =>
      '(r, iter) ← next_entry_reserve program_id clock (borrow_reserve liquidity) iter;
      liquidity ←
        lift (ObligationLiquidity.accrue_interest liquidity
                (rl_cumulative_borrow_rate_wads (r_liquidity r)));
      market_value ← lift (borrow_market_value r liquidity);
      let liquidity := ObligationLiquidity.with_market_value liquidity market_value in
      borrowed_value ← lift (try_add borrowed_value market_value);
      '(borrows, borrowed_value, iter) ← refresh_borrows program_id clock borrows borrowed_value iter;
      mret (liquidity :: borrows, borrowed_value, iter)
  end.

Definition process_refresh_obligation program_id (accounts : list AccountInfo) : M unit :=
  '(obligation_info, iter) ← next accounts;
  '(clock_info, iter) ← next iter;
  clock ← clock_of clock_info;
  obligation ← load Obligation program_id obligation_info;
  '(deposits, sums, iter) ←
    refresh_deposits program_id clock (o_deposits obligation)
      (mkDepositValues Decimal.zero Decimal.zero Decimal.zero) iter;
  '(borrows, borrowed_value, iter) ←
    refresh_borrows program_id clock (o_borrows obligation) Decimal.zero iter;
  check (bool_decide (iter = [])) InvalidAccountInput;;
  global_unhealthy ← lift (global_unhealthy_borrow_value clock);
  global_allowed ← lift (global_allowed_borrow_value global_unhealthy);
  let obligation := Obligation.with_entries obligation deposits borrows in
  let obligation :=
    Obligation.with_values obligation (dv_deposited sums) borrowed_value
      (Decimal.min (dv_allowed sums) global_allowed)
      (Decimal.min (dv_unhealthy sums) global_unhealthy) in
  pack (Obligation.update_slot obligation (clock_slot clock)) obligation_info.

(** The obligation of a market, with the given owner's signature. *)
Definition load_owned_obligation program_id (obligation_info lending_market_info
    obligation_owner_info : AccountInfo) : M Obligation :=
  obligation ← load Obligation program_id obligation_info;
  check (o_lending_market obligation =? key lending_market_info) InvalidAccountInput;;
  check (o_owner obligation =? key obligation_owner_info) InvalidObligationOwner;;
  check (is_signer obligation_owner_info) InvalidSigner;;
  mret obligation.

Definition _deposit_obligation_collateral program_id (collateral_amount : Z)
    (source_collateral_info destination_collateral_info deposit_reserve_info obligation_info
     lending_market_info obligation_owner_info user_transfer_authority_info : AccountInfo)
    clock (token_program_id : AccountInfo) : M unit :=
  lending_market ← load_market program_id lending_market_info token_program_id;
  deposit_reserve ← load Reserve program_id deposit_reserve_info;
  check (r_lending_market deposit_reserve =? key lending_market_info) InvalidAccountInput;;
  check (negb (rc_supply_pubkey (r_collateral deposit_reserve) =? key source_collateral_info))
    InvalidAccountInput;;
  check (rc_supply_pubkey (r_collateral deposit_reserve) =? key destination_collateral_info)
    InvalidAccountInput;;
  check_fresh (r_last_update deposit_reserve) clock ReserveStale;;
  check (negb (loan_to_value_ratio (r_config deposit_reserve) =? 0)) ReserveCollateralDisabled;;
  obligation ←
    load_owned_obligation program_id obligation_info lending_market_info obligation_owner_info;
  obligation ←
    lift (Obligation.deposit_collateral obligation (key deposit_reserve_info) collateral_amount);
  pack (Obligation.mark_stale obligation) obligation_info;;
  spl_token_transfer source_collateral_info destination_collateral_info collateral_amount
    user_transfer_authority_info [] token_program_id.

Definition process_deposit_obligation_collateral program_id (collateral_amount : Z)
    (accounts : list AccountInfo) : M unit :=
  check (negb (collateral_amount =? 0)) InvalidAmount;;
  '(source_collateral_info, iter) ← next accounts;
  '(destination_collateral_info, iter) ← next iter;
  '(deposit_reserve_info, iter) ← next iter;
  '(obligation_info, iter) ← next iter;
  '(lending_market_info, iter) ← next iter;
  '(obligation_owner_info, iter) ← next iter;
  '(user_transfer_authority_info, iter) ← next iter;
  '(clock_info, iter) ← next iter;
  clock ← clock_of clock_info;
  '(token_program_id, iter) ← next iter;
  _refresh_reserve_interest program_id deposit_reserve_info clock;;
  _deposit_obligation_collateral program_id collateral_amount source_collateral_info
    destination_collateral_info deposit_reserve_info obligation_info lending_market_info
    obligation_owner_info user_transfer_authority_info clock token_program_id;;
  mark_reserve_stale deposit_reserve_info.

Definition process_deposit_reserve_liquidity_and_obligation_collateral program_id
    (liquidity_amount : Z) (accounts : list AccountInfo) : M unit :=
  check (negb (liquidity_amount =? 0)) InvalidAmount;;
  '(source_liquidity_info, iter) ← next accounts;
  '(user_collateral_info, iter) ← next iter;
  '(reserve_info, iter) ← next iter;
  '(reserve_liquidity_supply_info, iter) ← next iter;
  '(reserve_collateral_mint_info, iter) ← next iter;
  '(lending_market_info, iter) ← next iter;
  '(lending_market_authority_info, iter) ← next iter;
  '(destination_collateral_info, iter) ← next iter;
  '(obligation_info, iter) ← next iter;
  '(obligation_owner_info, iter) ← next iter;
  '(_pyth_price_info, iter) ← next iter;
  '(_switchboard_feed_info, iter) ← next iter;
  '(user_transfer_authority_info, iter) ← next iter;
  '(clock_info, iter) ← next iter;
  clock ← clock_of clock_info;
  '(token_program_id, iter) ← next iter;
  _refresh_reserve_interest program_id reserve_info clock;;
  collateral_amount ←
    _deposit_reserve_liquidity program_id liquidity_amount source_liquidity_info
      user_collateral_info reserve_info reserve_liquidity_supply_info
      reserve_collateral_mint_info lending_market_info lending_market_authority_info
      user_transfer_authority_info clock token_program_id;
  _refresh_reserve_interest program_id reserve_info clock;;
  _deposit_obligation_collateral program_id collateral_amount user_collateral_info
    destination_collateral_info reserve_info obligation_info lending_market_info
    obligation_owner_info user_transfer_authority_info clock token_program_id;;
  mark_reserve_stale reserve_info.

(** The amount that a withdrawal takes: all of the deposit at most when nothing
    is borrowed, otherwise no more value than the remaining allowance covers. *)
Definition withdraw_obligation_amount (obligation : Obligation) (withdraw_reserve : Reserve)
    (collateral : ObligationCollateral) (collateral_amount : Z) : outcome Z :=
  if decide (o_borrows obligation = []) then
    mret (if collateral_amount =? u64_MAX then deposited_amount collateral
          else Z.min (deposited_amount collateral) collateral_amount)
  else if Decimal.eqb (o_deposited_value obligation) Decimal.zero then fail ObligationDepositsZero
  else
    max_withdraw_value ←
      Obligation.max_withdraw_value obligation
        (Rate.from_percent (loan_to_value_ratio (r_config withdraw_reserve)));
    _ ← require (negb (Decimal.eqb max_withdraw_value Decimal.zero)) WithdrawTooLarge;
    withdraw_amount ←
      (if collateral_amount =? u64_MAX then
         let withdraw_value := Decimal.min max_withdraw_value (oc_market_value collateral) in
         withdraw_pct ← try_div withdraw_value (oc_market_value collateral);
         share ← try_mul withdraw_pct (deposited_amount collateral);
         amount ← Decimal.try_floor_u64 share;
         mret (Z.min amount (deposited_amount collateral))
       else
         let withdraw_amount := Z.min collateral_amount (deposited_amount collateral) in
         withdraw_pct ← try_div (Decimal.from_u64 withdraw_amount) (deposited_amount collateral);
         withdraw_value ← try_mul (oc_market_value collateral) withdraw_pct;
         _ ← require (negb (Decimal.ltb max_withdraw_value withdraw_value)) WithdrawTooLarge;
         mret withdraw_amount);
    _ ← require (negb (withdraw_amount =? 0)) WithdrawTooSmall;
    mret withdraw_amount.

Definition _withdraw_obligation_collateral program_id (collateral_amount : Z)
    (source_collateral_info destination_collateral_info withdraw_reserve_info obligation_info
     lending_market_info lending_market_authority_info obligation_owner_info : AccountInfo)
    clock (token_program_id : AccountInfo) : M Z :=
  lending_market ← load_market program_id lending_market_info token_program_id;
  withdraw_reserve ← load Reserve program_id withdraw_reserve_info;
  check (r_lending_market withdraw_reserve =? key lending_market_info) InvalidAccountInput;;
  check (rc_supply_pubkey (r_collateral withdraw_reserve) =? key source_collateral_info)
    InvalidAccountInput;;
  check (negb (rc_supply_pubkey (r_collateral withdraw_reserve) =? key destination_collateral_info))
    InvalidAccountInput;;
  check_fresh (r_last_update withdraw_reserve) clock ReserveStale;;
  obligation ←
    load_owned_obligation program_id obligation_info lending_market_info obligation_owner_info;
  check_fresh (o_last_update obligation) clock ObligationStale;;
  '(collateral, collateral_index) ←
    lift (Obligation.find_collateral_in_deposits obligation (key withdraw_reserve_info));
  check (negb (deposited_amount collateral =? 0)) ObligationCollateralEmpty;;
  authority_signer_seeds ←
    check_authority program_id lending_market lending_market_info lending_market_authority_info;
  withdraw_amount ←
    lift (withdraw_obligation_amount obligation withdraw_reserve collateral collateral_amount);
  obligation ← lift (Obligation.withdraw obligation withdraw_amount collateral_index);
  pack (Obligation.mark_stale obligation) obligation_info;;
  spl_token_transfer source_collateral_info destination_collateral_info withdraw_amount
    lending_market_authority_info authority_signer_seeds token_program_id;;
  mret withdraw_amount.

Definition process_withdraw_obligation_collateral program_id (collateral_amount : Z)
    (accounts : list AccountInfo) : M unit :=
  check (negb (collateral_amount =? 0)) InvalidAmount;;
  '(source_collateral_info, iter) ← next accounts;
  '(destination_collateral_info, iter) ← next iter;
  '(withdraw_reserve_info, iter) ← next iter;
  '(obligation_info, iter) ← next iter;
  '(lending_market_info, iter) ← next iter;
  '(lending_market_authority_info, iter) ← next iter;
  '(obligation_owner_info, iter) ← next iter;
  '(clock_info, iter) ← next iter;
  clock ← clock_of clock_info;
  '(token_program_id, iter) ← next iter;
  _withdraw_obligation_collateral program_id collateral_amount source_collateral_info
    destination_collateral_info withdraw_reserve_info obligation_info lending_market_info
    lending_market_authority_info obligation_owner_info clock token_program_id;;
  mret tt.

Definition process_withdraw_obligation_collateral_and_redeem_reserve_liquidity program_id
    (collateral_amount : Z) (accounts : list AccountInfo) : M unit :=
  '(reserve_collateral_info, iter) ← next accounts;
  '(user_collateral_info, iter) ← next iter;
  '(reserve_info, iter) ← next iter;
  '(obligation_info, iter) ← next iter;
  '(lending_market_info, iter) ← next iter;
  '(lending_market_authority_info, iter) ← next iter;
  '(user_liquidity_info, iter) ← next iter;
  '(reserve_collateral_mint_info, iter) ← next iter;
  '(reserve_liquidity_supply_info, iter) ← next iter;
  '(obligation_owner_info, iter) ← next iter;
  '(user_transfer_authority_info, iter) ← next iter;
  '(clock_info, iter) ← next iter;
  clock ← clock_of clock_info;
  '(token_program_id, iter) ← next iter;
  liquidity_amount ←
    _withdraw_obligation_collateral program_id collateral_amount reserve_collateral_info
      user_collateral_info reserve_info obligation_info lending_market_info
      lending_market_authority_info obligation_owner_info clock token_program_id;
  _redeem_reserve_collateral program_id liquidity_amount user_collateral_info user_liquidity_info
    reserve_info reserve_collateral_mint_info reserve_liquidity_supply_info lending_market_info
    lending_market_authority_info user_transfer_authority_info clock token_program_id;;
  mret tt.

End processor.
