(* ===== verification/RefreshFacts.v ===== *)
(** * Facts about the refresh of an obligation

    What the two loops of [process_refresh_obligation] compute: every entry is
    revalued from its own, fresh reserve, debts accrue the interest of their
    reserve, and the running values are the sums over the entries. *)

From S2P Require Import Prelude Errors FixedPoint StateBase LendingMarket Reserve.
From S2P Require Import ReserveFacts Obligation ObligationFacts Codec Solana Oracle.
From S2P Require Import ProcessorBase ProcessorFacts ProcessorReserve ProcessorObligation.

(** ** Sums *)

Definition sum_Z (l : list Z) : Z := foldr Z.add 0 l.

Lemma sum_Z_cons x l : sum_Z (x :: l) = x + sum_Z l.
Proof. done. Qed.

Lemma sum_Z_app l l' : sum_Z (l ++ l') = sum_Z l + sum_Z l'.
Proof. induction l as [|x l IH]; [done|]. cbn [app]. rewrite !sum_Z_cons, IH. lia. Qed.

Lemma sum_Z_mono l l' : Forall2 Z.le l l' → sum_Z l ≤ sum_Z l'.
Proof. intros Hl. induction Hl; [done|]; rewrite !sum_Z_cons; lia. Qed.

Lemma sum_Z_nonneg l : Forall (Z.le 0) l → 0 ≤ sum_Z l.
Proof. intros Hl. induction Hl; [done|]; rewrite !sum_Z_cons; lia. Qed.

(** A value times a percentage, rounded down to a wad. *)
Definition percent_of (v : Decimal) (percent : Z) : Z := dec v * (percent * PERCENT_SCALER) / WAD.

Lemma percent_of_mono v p q : 0 ≤ dec v → p ≤ q → percent_of v p ≤ percent_of v q.
Proof.
  intros Hv Hpq. unfold percent_of. apply Z.div_le_mono; [done|].
  apply Z.mul_le_mono_nonneg_l; [done|]. unfold PERCENT_SCALER. lia.
Qed.

(** ** The values of one entry *)

Lemma add_deposit_value_Ok sums config v sums' :
  add_deposit_value sums config v = Ok sums' →
  dec (dv_deposited sums') = dec (dv_deposited sums) + dec v ∧
  dec (dv_allowed sums') = dec (dv_allowed sums) + percent_of v (loan_to_value_ratio config) ∧
  dec (dv_unhealthy sums') = dec (dv_unhealthy sums) + percent_of v (liquidation_threshold config) ∧
  dec (dv_deposited sums') < 2 ^ 192 ∧ dec (dv_allowed sums') < 2 ^ 192 ∧
  dec (dv_unhealthy sums') < 2 ^ 192.
Proof.
  unfold add_deposit_value, percent_of. cbv zeta. intros Hs.
  apply bind_Ok in Hs as (d1 & [-> ?]%Decimal_add_Ok & Hs).
  apply bind_Ok in Hs as (d2 & [-> ?]%Decimal_mul_rate_Ok & Hs).
  apply bind_Ok in Hs as (d3 & [-> ?]%Decimal_add_Ok & Hs).
  apply bind_Ok in Hs as (d4 & [-> ?]%Decimal_mul_rate_Ok & Hs).
  apply bind_Ok in Hs as (d5 & [-> ?]%Decimal_add_Ok & [= <-]). cbn. done.
Qed.

Lemma deposit_market_value_ok r c v :
  Reserve_ok r → ObligationCollateral_ok c → deposit_market_value r c = Ok v → Decimal_ok v.
Proof.
  intros Hr Hc. unfold deposit_market_value. intros Hv.
  apply bind_Ok in Hv as (n & Hn & Hv). apply ok_or_overflow_Ok, checked_pow_Some in Hn as [-> _].
  apply bind_Ok in Hv as (rate & Hrate & Hv).
  apply collateral_exchange_rate_Ok in Hrate as [Hrate Hs].
  apply bind_Ok in Hv as (liq & Hl & Hv). apply bind_Ok in Hv as (p & Hp & Hv).
  unfold CollateralExchangeRate.decimal_collateral_to_liquidity in Hl.
  apply Decimal_div_rate_ok in Hl;
    [|apply from_u64_ok, Hc|rewrite Hrate; apply exchange_rate_wads_nonneg; [apply Hr|done]].
  apply Decimal_mul_ok in Hp; [|done|apply Hr].
  eapply Decimal_div_u64_ok; [exact Hp| |exact Hv]. by apply Z.pow_nonneg.
Qed.

Lemma borrow_market_value_ok r l v :
  Reserve_ok r → ObligationLiquidity_ok l → borrow_market_value r l = Ok v → Decimal_ok v.
Proof.
  intros Hr Hl. unfold borrow_market_value. intros Hv.
  apply bind_Ok in Hv as (n & Hn & Hv). apply ok_or_overflow_Ok, checked_pow_Some in Hn as [-> _].
  apply bind_Ok in Hv as (p & Hp & Hv).
  apply Decimal_mul_ok in Hp; [|apply Hl|apply Hr].
  eapply Decimal_div_u64_ok; [exact Hp| |exact Hv]. by apply Z.pow_nonneg.
Qed.

(** ** The loops *)

Section loops.
Context `{S : Sdk} (program_id : Pubkey) `{L : !SdkLaws program_id}.
Implicit Types (w : World) (clock : Clock).

(** The entry's reserve is an account of the program, refreshed in this slot. *)
Definition entry_reserve w clock (k : Pubkey) (r : Reserve) : Prop :=
  owned program_id w k ∧ stored Reserve w k r ∧
  LastUpdate.is_stale (r_last_update r) (clock_slot clock) = Ok false.

Lemma next_entry_reserve_Ok clock k iter w r iter' w' :
  next_entry_reserve program_id clock k iter w = Ok ((r, iter'), w') →
  w' = w ∧ entry_reserve w clock k r ∧ ∃ info, iter = info :: iter' ∧ key info = k.
Proof.
  unfold next_entry_reserve. intros Hr. inv_m.
  repeat match goal with
         | H : next _ _ = Ok _ |- _ => apply (next_Ok program_id) in H as [? ?]; subst
         | H : check_owner _ _ _ = Ok _ |- _ => apply (check_owner_Ok program_id) in H as [? ?]; subst
         | H : unpack _ _ _ = Ok _ |- _ => apply (unpack_Ok program_id) in H as [? ?]; subst
         | H : check_fresh _ _ _ _ = Ok _ |- _ => apply check_fresh_Ok in H as [? ?]; subst
         end.
  bool_to_prop. simplify_eq. split; [done|]. split; [done|]. eauto.
Qed.

(** How one deposit and one borrow come out of the refresh. *)
Definition deposit_refreshed w clock (c : ObligationCollateral) (r : Reserve)
    (c' : ObligationCollateral) : Prop :=
  entry_reserve w clock (deposit_reserve c) r ∧
  ∃ v, deposit_market_value r c = Ok v ∧ c' = ObligationCollateral.with_market_value c v.

Definition borrow_refreshed w clock (l : ObligationLiquidity) (r : Reserve)
    (l' : ObligationLiquidity) : Prop :=
  entry_reserve w clock (borrow_reserve l) r ∧
  ∃ l1 v, ObligationLiquidity.accrue_interest l (rl_cumulative_borrow_rate_wads (r_liquidity r))
            = Ok l1 ∧
    borrow_market_value r l1 = Ok v ∧ l' = ObligationLiquidity.with_market_value l1 v.

Lemma refresh_deposits_Ok clock ds sums iter w ds' sums' iter' w' :
  refresh_deposits program_id clock ds sums iter w = Ok ((ds', sums', iter'), w') →
  w' = w ∧ ∃ rs, Forall3 (deposit_refreshed w clock) ds rs ds' ∧
    dec (dv_deposited sums') = dec (dv_deposited sums) + sum_Z (dec ∘ oc_market_value <$> ds') ∧
    dec (dv_allowed sums') = dec (dv_allowed sums) +
      sum_Z (zip_with (λ c r, percent_of (oc_market_value c) (loan_to_value_ratio (r_config r))) ds' rs) ∧
    dec (dv_unhealthy sums') = dec (dv_unhealthy sums) +
      sum_Z (zip_with (λ c r, percent_of (oc_market_value c) (liquidation_threshold (r_config r))) ds' rs) ∧
    iter = take (length ds) iter ++ iter' ∧
    (dec (dv_deposited sums) < 2 ^ 192 → dec (dv_allowed sums) < 2 ^ 192 →
     dec (dv_unhealthy sums) < 2 ^ 192 →
     dec (dv_deposited sums') < 2 ^ 192 ∧ dec (dv_allowed sums') < 2 ^ 192 ∧
     dec (dv_unhealthy sums') < 2 ^ 192).
Proof.
  revert sums iter ds' sums' iter' w'. induction ds as [|c ds IH]; intros sums iter ds' sums' iter' w' Hr;
    cbn [refresh_deposits] in Hr.
  - apply M_ret_Ok in Hr as [[= -> -> ->] ->]. split; [done|]. exists []. cbn.
    split; [constructor|]. rewrite !Z.add_0_r. split_and!; done.
  - apply M_bind_Ok in Hr as ([r iter1] & w1 & H1 & Hr).
    apply next_entry_reserve_Ok in H1 as (-> & He & info & -> & Hk).
    apply M_bind_Ok in Hr as (v & w1 & H1 & Hr). apply lift_Ok in H1 as [Hv ->].
    apply M_bind_Ok in Hr as (sums1 & w1 & H1 & Hr). apply lift_Ok in H1 as [Hs ->].
    apply M_bind_Ok in Hr as ([[ds1 sums2] iter2] & w1 & H1 & Hr).
    apply IH in H1 as (-> & rs & Hf & Hd & Ha & Hu & Hi & Hw). apply M_ret_Ok in Hr as [[= -> -> ->] ->].
    apply add_deposit_value_Ok in Hs as (Hsd & Hsa & Hsu & ? & ? & ?).
    split; [done|]. exists (r :: rs). split; [|split_and!].
    + constructor; [|done]. split; [done|]. by exists v.
    + cbn [fmap list_fmap zip_with]; rewrite sum_Z_cons; unfold compose in *; cbn in *; lia.
    + cbn [fmap list_fmap zip_with]; rewrite sum_Z_cons; unfold compose in *; cbn in *; lia.
    + cbn [fmap list_fmap zip_with]; rewrite sum_Z_cons; unfold compose in *; cbn in *; lia.
    + cbn. by f_equal.
    + intros _ _ _. by apply Hw.
Qed.

Lemma refresh_borrows_Ok clock bs borrowed iter w bs' borrowed' iter' w' :
  refresh_borrows program_id clock bs borrowed iter w = Ok ((bs', borrowed', iter'), w') →
  w' = w ∧ ∃ rs, Forall3 (borrow_refreshed w clock) bs rs bs' ∧
    dec borrowed' = dec borrowed + sum_Z (dec ∘ ol_market_value <$> bs') ∧
    iter = take (length bs) iter ++ iter' ∧
    (dec borrowed < 2 ^ 192 → dec borrowed' < 2 ^ 192).
Proof.
  revert borrowed iter bs' borrowed' iter' w'.
  induction bs as [|l bs IH]; intros borrowed iter bs' borrowed' iter' w' Hr; cbn [refresh_borrows] in Hr.
  - apply M_ret_Ok in Hr as [[= -> -> ->] ->]. split; [done|]. exists []. cbn.
    split; [constructor|]. rewrite !Z.add_0_r. split_and!; done.
  - apply M_bind_Ok in Hr as ([r iter1] & w1 & H1 & Hr).
    apply next_entry_reserve_Ok in H1 as (-> & He & info & -> & Hk).
    apply M_bind_Ok in Hr as (l1 & w1 & H1 & Hr). apply lift_Ok in H1 as [Hl1 ->].
    apply M_bind_Ok in Hr as (v & w1 & H1 & Hr). apply lift_Ok in H1 as [Hv ->].
    apply M_bind_Ok in Hr as (b1 & w1 & H1 & Hr). apply lift_Ok in H1 as [Hb ->].
    apply Decimal_add_Ok in Hb as [-> ?].
    apply M_bind_Ok in Hr as ([[bs1 b2] iter2] & w1 & H1 & Hr).
    apply IH in H1 as (-> & rs & Hf & Hd & Hi & Hw). apply M_ret_Ok in Hr as [[= -> -> ->] ->].
    cbn [dec] in *.
    split; [done|]. exists (r :: rs). split; [|split_and!].
    + constructor; [|done]. split; [done|]. by exists l1, v.
    + cbn [fmap list_fmap zip_with]; rewrite sum_Z_cons; unfold compose in *; cbn in *; lia.
    + cbn. by f_equal.
    + intros _. by apply Hw.
Qed.

End loops.

(** ** The global cap *)

Lemma global_unhealthy_borrow_value_Ok clock v :
  global_unhealthy_borrow_value clock = Ok v →
  dec (Decimal.from_u64 50000000) ≤ dec v ≤ dec (Decimal.from_u64 120000000).
Proof.
  unfold global_unhealthy_borrow_value. cbv zeta. intros Hv.
  apply bind_Ok in Hv as (n & Hn & Hv). apply ok_or_overflow_Ok, checked_sub_Some in Hn as [-> Hle].
  apply bind_Ok in Hv as (m & Hm & Hv). apply ok_or_overflow_Ok, checked_sub_Some in Hm as [-> _].
  apply bind_Ok in Hv as (range & Hr & Hv). apply Decimal_sub_Ok in Hr as [-> _].
  apply bind_Ok in Hv as (s & Hs & Hv). apply Decimal_mul_u64_Ok in Hs as [-> _].
  apply bind_Ok in Hv as (sh & Hsh & Hv). apply Decimal_div_u64_Ok in Hsh as [-> _].
  apply Decimal_add_Ok in Hv as [-> _]. unfold start_timestamp, end_timestamp in *.
  cbn [dec Decimal.from_u64]. change Decimal.wad with WAD in *. unfold WAD in *.
  set (x := Z.min _ _) in *. change (1656403200 - 1655899200) with 504000.
  assert (0 ≤ 1656403200 - x ≤ 504000) by lia.
  match goal with |- context [?a / 504000] => pose proof (Z.div_le_upper_bound a 504000 (1000000000000000000 * 120000000 - 1000000000000000000 * 50000000) ltac:(lia) ltac:(lia));
    pose proof (Z.div_pos a 504000 ltac:(lia) ltac:(lia)) end. lia.
Qed.
