(* ===== verification/HandlerFacts.v ===== *)
(** * Inversion of a successful handler

    [inv_handler] turns the success of a handler into the facts that its steps
    established, in order: which accounts it was given, what they held, which
    guards held.  The writes of the program and the calls of the token program
    stay as relations between consecutive worlds. *)

From S2P Require Import Prelude Errors FixedPoint StateBase LendingMarket Reserve.
From S2P Require Import ReserveFacts Obligation ObligationFacts Codec CodecFacts Solana Oracle.
From S2P Require Import ProcessorBase ProcessorFacts ProcessorInvariant ProcessorReserve.
From S2P Require Import ProcessorObligation.

Section facts.
Context `{S : Sdk} (program_id : Pubkey) `{L : !SdkLaws program_id}.
Implicit Types (w : World) (k : Pubkey) (info : AccountInfo) (clock : Clock).

(** The clock that an account holds *)
Definition clock_at w info clock : Prop :=
  clock_from_account_info info (data (account_of w (key info))) = Ok clock.

Lemma clock_of_Ok info w clock w' :
  clock_of info w = Ok (clock, w') ↔ w' = w ∧ clock_at w info clock.
Proof.
  unfold clock_of, clock_at. split; [intros Hc; by inv_m|].
  intros [-> Hc]. eapply bind_intro; [done|]. by apply lift_Ok.
Qed.

Lemma clock_at_u64 w info clock : clock_at w info clock → is_u64 (clock_slot clock).
Proof. unfold clock_at. apply clock_from_account_info_u64. Qed.

Lemma rent_of_Ok info w rent w' :
  rent_of info w = Ok (rent, w') →
  w' = w ∧ rent_from_account_info info (data (account_of w (key info))) = Ok rent.
Proof. unfold rent_of. intros Hr. by inv_m. Qed.

Lemma assert_rent_exempt_Ok rent info w u w' :
  assert_rent_exempt rent info w = Ok (u, w') →
  w' = w ∧
  rent_is_exempt rent (lamports (account_of w (key info))) (length (data (account_of w (key info)))) = true.
Proof. unfold assert_rent_exempt. intros Hr. by inv_m. Qed.

Lemma assert_uninitialized_Ok T `{Pack T} `{IsInitialized T} info w (a : T) w' :
  assert_uninitialized T info w = Ok (a, w') →
  w' = w ∧ length (data (account_of w (key info))) = LEN T ∧
  unpack_from_slice (data (account_of w (key info))) = Ok a ∧ is_initialized a = false.
Proof.
  unfold assert_uninitialized, unpack_unchecked. intros Hr. inv_m. bool_to_prop.
  match goal with E : pack_unpack_unchecked _ = Ok _ |- _ => rename E into Hu end.
  rewrite pack_unpack_unchecked_eq in Hu. by destruct (decide _).
Qed.

(** A record of the program at an address *)
Definition holds (T : Type) `{Pack T} `{IsInitialized T} w k (a : T) : Prop :=
  owned program_id w k ∧ stored T w k a.

Definition fresh (u : LastUpdate) clock : Prop :=
  LastUpdate.is_stale u (clock_slot clock) = Ok false.

Lemma fresh_slot u clock : fresh u clock → slot u = clock_slot clock ∧ stale u = false.
Proof. unfold fresh. rewrite is_stale_false. naive_solver. Qed.

(** The obligation belongs to the market, and its owner has signed. *)
Lemma load_owned_obligation_Ok oi mi wi w o w' :
  load_owned_obligation program_id oi mi wi w = Ok (o, w') ↔
  w' = w ∧ holds Obligation w (key oi) o ∧ o_lending_market o = key mi ∧
  o_owner o = key wi ∧ is_signer wi = true.
Proof.
  unfold load_owned_obligation. split.
  - intros Hl. inv_m. bool_to_prop.
    match goal with H : load _ _ _ _ = _ |- _ => apply (load_Ok program_id) in H as (-> & Hs & Ho) end.
    by split_and!.
  - intros (-> & [Ho Hs] & Hm & Hw & Hsig).
    eapply bind_intro; [by apply (load_Ok program_id)|].
    eapply bind_intro; [by apply check_intro, Z.eqb_eq|].
    eapply bind_intro; [by apply check_intro, Z.eqb_eq|].
    eapply bind_intro; [by apply check_intro|done].
Qed.

(** ** Writes *)

Lemma pack_holds T `{Pack T} `{IsInitialized T} (a : T) info w u w' :
  (∀ output bs, Forall is_byte output → pack_into_slice a output = Ok bs → packed a output bs) →
  is_initialized a = true → World_ok program_id w → owned program_id w (key info) →
  pack a info w = Ok (u, w') →
  holds T w' (key info) a ∧ inner w' = inner w ∧
  ∀ k, (owned program_id w' k ↔ owned program_id w k) ∧
    (k ≠ key info → account_of w' k = account_of w k).
Proof.
  intros Hb Hi Hw Ho Hp.
  destruct (pack_stored program_id T a info w u w' Hb Hi Hw Hp) as (bs & -> & _ & Hs).
  split; [split; [by apply owned_set|done]|]. split; [done|]. intros k. split; [apply owned_set|].
  intros Hk. by apply account_of_set_ne.
Qed.

(** What a write to one account leaves of the others *)
Definition only_changes w k w' : Prop :=
  inner w' = inner w ∧
  ∀ k', (owned program_id w' k' ↔ owned program_id w k') ∧
    (k' ≠ k → account_of w' k' = account_of w k').

Lemma only_changes_holds T `{Pack T} `{IsInitialized T} w k w' k' (a : T) :
  only_changes w k w' → k' ≠ k → holds T w' k' a ↔ holds T w k' a.
Proof.
  intros [_ Hc] Hk. destruct (Hc k') as [Ho Ha]. unfold holds, stored. by rewrite Ho, Ha.
Qed.

Lemma pack_reserve_holds r info w u w' :
  Reserve_ok r → is_initialized r = true → World_ok program_id w →
  owned program_id w (key info) → pack r info w = Ok (u, w') →
  holds Reserve w' (key info) r ∧ only_changes w (key info) w'.
Proof. intros Hr. apply pack_holds. intros output bs. by apply reserve_pack_back. Qed.

Lemma pack_obligation_holds o info w u w' :
  Obligation_ok o → is_initialized o = true → World_ok program_id w →
  owned program_id w (key info) → pack o info w = Ok (u, w') →
  holds Obligation w' (key info) o ∧ only_changes w (key info) w'.
Proof. intros Ho. apply pack_holds. intros output bs. by apply obligation_pack_back. Qed.

Lemma holds_distinct w k k' r o : holds Reserve w k r → holds Obligation w k' o → k ≠ k'.
Proof. intros [_ Hr] [_ Ho] ->. by eapply (stored_reserve_obligation w k' r o). Qed.

Lemma holds_reserve_valid w k r : World_ok program_id w → holds Reserve w k r → Reserve_valid r.
Proof. intros Hw [Ho Hs]. by eapply stored_reserve_valid. Qed.

Lemma holds_obligation_ok w k o : World_ok program_id w → holds Obligation w k o → Obligation_ok o.
Proof. intros Hw [Ho Hs]. by eapply wo_obligation. Qed.

(** ** Refreshing a reserve's interest *)

(** The reserve with its interest up to the clock's slot *)
Definition accrued (r : Reserve) clock (r' : Reserve) : Prop :=
  ∃ r1, Reserve.accrue_interest r (clock_slot clock) = Ok r1 ∧
    r' = Reserve.update_slot r1 (clock_slot clock).

Lemma refresh_interest_Ok info clock w u w' :
  World_ok program_id w → is_u64 (clock_slot clock) →
  _refresh_reserve_interest program_id info clock w = Ok (u, w') →
  ∃ r r', holds Reserve w (key info) r ∧ accrued r clock r' ∧
    holds Reserve w' (key info) r' ∧ only_changes w (key info) w' ∧ World_ok program_id w'.
Proof.
  intros Hw Hc H. unfold _refresh_reserve_interest in H.
  apply M_bind_Ok in H as (r & w1 & H1 & H). apply (load_Ok program_id) in H1 as (-> & Hs & Ho).
  apply M_bind_Ok in H as (r1 & w1 & H1 & H). apply lift_Ok in H1 as [Ha ->].
  pose proof (holds_reserve_valid w _ r Hw (conj Ho Hs)) as [Hr Hv].
  destruct (accrue_interest_grows r _ r1 Hr Hc Hv Ha) as (Hr1 & E & _).
  destruct (pack_reserve_holds (Reserve.update_slot r1 (clock_slot clock)) info w u w')
    as [Hh Hch]; [by apply reserve_update_slot_ok| |done..|].
  { rewrite E. apply Hs. }
  exists r. eexists. split; [by split|]. split; [by exists r1|]. split; [exact Hh|]. split; [done|].
  eapply (World_ok_pack_reserve program_id); [|intros _|exact Hw|exact H].
  - by apply reserve_update_slot_ok.
  - by rewrite E.
Qed.

(** ** Cross-program invocations *)

Lemma frame_holds T `{Pack T} `{IsInitialized T} w w' k (a : T) :
  (0 < LEN T)%nat → cpi_frame program_id w w' → holds T w k a → holds T w' k a.
Proof. intros HL Hf [Ho Hs]. by eapply cpi_frame_stored. Qed.

Lemma frame_reserve w w' k (r : Reserve) :
  cpi_frame program_id w w' → holds Reserve w k r → holds Reserve w' k r.
Proof. apply frame_holds. vm_compute. lia. Qed.

Lemma frame_obligation w w' k (o : Obligation) :
  cpi_frame program_id w w' → holds Obligation w k o → holds Obligation w' k o.
Proof. apply frame_holds. vm_compute. lia. Qed.

End facts.

(** ** The tactic *)

Ltac inv_handler_step :=
  match goal with
  | L : SdkLaws ?pid, H : next _ _ = Ok _ |- _ => apply (next_Ok pid) in H as [? ?]
  | H : clock_of _ _ = Ok _ |- _ => apply clock_of_Ok in H as [? ?]
  | H : rent_of _ _ = Ok _ |- _ => apply rent_of_Ok in H as [? ?]
  | H : assert_rent_exempt _ _ _ = Ok _ |- _ => apply assert_rent_exempt_Ok in H as [? ?]
  | L : SdkLaws ?pid, H : assert_uninitialized ?T _ _ = Ok _ |- _ =>
      apply (assert_uninitialized_Ok pid T) in H as (? & ? & ? & ?)
  | H : load_owned_obligation ?pid _ _ _ _ = Ok _ |- _ =>
      apply (load_owned_obligation_Ok pid) in H as (? & ? & ? & ? & ?)
  | H : load ?T ?pid _ _ = Ok _ |- _ =>
      apply (load_Ok pid) in H as (? & ? & ?);
      match goal with
      | Hs : stored T ?w ?k ?a, Ho : owned pid ?w ?k |- _ =>
          pose proof (conj Ho Hs : holds pid T w k a); clear Hs Ho
      end
  | H : load_market ?pid _ _ _ = Ok _ |- _ => apply (load_market_Ok pid) in H as (? & ? & ? & ?)
  | H : check_owner ?pid _ _ = Ok _ |- _ => apply (check_owner_Ok pid) in H as [? ?]
  | H : check_fresh ?u ?clock _ _ = Ok _ |- _ =>
      apply check_fresh_Ok in H; destruct H as [? H]; change (fresh u clock) in H
  | H : check_authority ?pid _ _ _ _ = Ok _ |- _ => apply (check_authority_Ok pid) in H as (? & ? & ?)
  | _ => inv_m_step
  end.

Ltac inv_handler :=
  repeat inv_handler_step; bool_to_prop;
  repeat match goal with
         | H : bool_decide _ = true |- _ => apply bool_decide_eq_true in H
         | H : bool_decide _ = false |- _ => apply bool_decide_eq_false in H
         end.

(** Closes an existential statement that lists what [inv_handler] found. *)
Ltac solve_found :=
  repeat lazymatch goal with |- ∃ _, _ => eexists end;
  repeat lazymatch goal with |- _ ∧ _ => first [eassumption | split] end;
  try eassumption; try lazymatch goal with |- _ = _ => reflexivity end.

