(* ===== verification/SwitchboardVrf.v ===== *)
(** * Switchboard: verifiable randomness

    [switchboard-v2-0.1.10/src/vrf.rs]: the account of a verifiable random
    function, field by field, the randomness that it holds, and the request for
    new randomness that a program sends to Switchboard.  The crate is a library:
    its functions run in the programs that call it. *)

From S2P Require Import Prelude Errors Layouts StateBase Solana Switchboard ProcessorBase Testbed.

Module vrf.

(** ** The data of an account

    The structs are packed, so each is its fields one behind the other.  A [bool]
    or a [VrfStatus] is kept as the byte that stands for it. *)

(** A little-endian integer below 2^255 *)
Record Scalar : Type := mkScalar {
  sc_bytes : list Z;
}.

Definition Scalar_layout : Layout Scalar :=
  fields (raw 32) mkScalar sc_bytes.

Record FieldElementZC : Type := mkFieldElementZC {
  fz_bytes : list Z;
}.

Definition FieldElementZC_layout : Layout FieldElementZC :=
  fields (array 5 (uint 8)) mkFieldElementZC fz_bytes.

Record CompletedPointZC : Type := mkCompletedPointZC {
  cz_X : FieldElementZC;
  cz_Y : FieldElementZC;
  cz_Z : FieldElementZC;
  cz_T : FieldElementZC;
}.

Definition CompletedPointZC_layout : Layout CompletedPointZC :=
  fields
    (FieldElementZC_layout ⊗ FieldElementZC_layout ⊗ FieldElementZC_layout ⊗
     FieldElementZC_layout)
    (λ '(x0, x1, x2, x3), mkCompletedPointZC x0 x1 x2 x3)
    (λ a, (cz_X a, cz_Y a, cz_Z a, cz_T a)).

Record EdwardsPointZC : Type := mkEdwardsPointZC {
  ez_X : FieldElementZC;
  ez_Y : FieldElementZC;
  ez_Z : FieldElementZC;
  ez_T : FieldElementZC;
}.

Definition EdwardsPointZC_layout : Layout EdwardsPointZC :=
  fields
    (FieldElementZC_layout ⊗ FieldElementZC_layout ⊗ FieldElementZC_layout ⊗
     FieldElementZC_layout)
    (λ '(x0, x1, x2, x3), mkEdwardsPointZC x0 x1 x2 x3)
    (λ a, (ez_X a, ez_Y a, ez_Z a, ez_T a)).

Record ProjectivePointZC : Type := mkProjectivePointZC {
  pz_X : FieldElementZC;
  pz_Y : FieldElementZC;
  pz_Z : FieldElementZC;
}.

Definition ProjectivePointZC_layout : Layout ProjectivePointZC :=
  fields
    (FieldElementZC_layout ⊗ FieldElementZC_layout ⊗ FieldElementZC_layout)
    (λ '(x0, x1, x2), mkProjectivePointZC x0 x1 x2)
    (λ a, (pz_X a, pz_Y a, pz_Z a)).

Record EcvrfProofZC : Type := mkEcvrfProofZC {
  ep_Gamma : EdwardsPointZC;
  ep_c : Scalar;
  ep_s : Scalar;
}.

Definition EcvrfProofZC_layout : Layout EcvrfProofZC :=
  fields
    (EdwardsPointZC_layout ⊗ Scalar_layout ⊗ Scalar_layout)
    (λ '(x0, x1, x2), mkEcvrfProofZC x0 x1 x2)
    (λ a, (ep_Gamma a, ep_c a, ep_s a)).

Record EcvrfIntermediate : Type := mkEcvrfIntermediate {
  ei_r : FieldElementZC;
  ei_N_s : FieldElementZC;
  ei_D : FieldElementZC;
  ei_t13 : FieldElementZC;
  ei_t15 : FieldElementZC;
}.

Definition EcvrfIntermediate_layout : Layout EcvrfIntermediate :=
  fields
    (FieldElementZC_layout ⊗ FieldElementZC_layout ⊗ FieldElementZC_layout ⊗
     FieldElementZC_layout ⊗ FieldElementZC_layout)
    (λ '(x0, x1, x2, x3, x4), mkEcvrfIntermediate x0 x1 x2 x3 x4)
    (λ a, (ei_r a, ei_N_s a, ei_D a, ei_t13 a, ei_t15 a)).

(** The bytes of the enum, in the order of its variants *)
Inductive VrfStatus : Type :=
| StatusNone
| StatusRequesting
| StatusVerifying
| StatusVerified
| StatusCallbackSuccess
| StatusVerifyFailure.

Definition VrfStatus_of_byte (b : Z) : option VrfStatus :=
  [StatusNone; StatusRequesting; StatusVerifying; StatusVerified; StatusCallbackSuccess;
   StatusVerifyFailure] !! Z.to_nat b.

Record VrfBuilder : Type := mkVrfBuilder {
  vb_producer : Pubkey;
  vb_status : Z;
  vb_repr_proof : list Z;
  vb_proof : EcvrfProofZC;
  vb_Y_point : Pubkey;
  vb_stage : Z;
  vb_stage1_out : EcvrfIntermediate;
  vb_R_1 : EdwardsPointZC;
  vb_R_2 : EdwardsPointZC;
  vb_stage3_out : EcvrfIntermediate;
  vb_H_point : EdwardsPointZC;
  vb_s_reduced : Scalar;
  vb_Y_point_builder : list FieldElementZC;
  vb_Y_ristretto_point : EdwardsPointZC;
  vb_mul_round : Z;
  vb_hash_points_round : Z;
  vb_mul_tmp1 : CompletedPointZC;
  vb_U_point1 : EdwardsPointZC;
  vb_U_point2 : EdwardsPointZC;
  vb_V_point1 : EdwardsPointZC;
  vb_V_point2 : EdwardsPointZC;
  vb_U_point : EdwardsPointZC;
  vb_V_point : EdwardsPointZC;
  vb_u1 : FieldElementZC;
  vb_u2 : FieldElementZC;
  vb_invertee : FieldElementZC;
  vb_y : FieldElementZC;
  vb_z : FieldElementZC;
  vb_p1_bytes : list Z;
  vb_p2_bytes : list Z;
  vb_p3_bytes : list Z;
  vb_p4_bytes : list Z;
  vb_c_prime_hashbuf : list Z;
  vb_m1 : FieldElementZC;
  vb_m2 : FieldElementZC;
  vb_tx_remaining : Z;
  vb_verified : Z;
  vb_result : list Z;
}.

Definition VrfBuilder_layout : Layout VrfBuilder :=
  fields
    (uint 32 ⊗ uint 1 ⊗ raw 80 ⊗ EcvrfProofZC_layout ⊗ uint 32 ⊗ uint 4 ⊗
     EcvrfIntermediate_layout ⊗ EdwardsPointZC_layout ⊗ EdwardsPointZC_layout ⊗
     EcvrfIntermediate_layout ⊗ EdwardsPointZC_layout ⊗ Scalar_layout ⊗
     (array 3 FieldElementZC_layout) ⊗ EdwardsPointZC_layout ⊗ uint 1 ⊗ uint 1 ⊗
     CompletedPointZC_layout ⊗ EdwardsPointZC_layout ⊗ EdwardsPointZC_layout ⊗
     EdwardsPointZC_layout ⊗ EdwardsPointZC_layout ⊗ EdwardsPointZC_layout ⊗
     EdwardsPointZC_layout ⊗ FieldElementZC_layout ⊗ FieldElementZC_layout ⊗
     FieldElementZC_layout ⊗ FieldElementZC_layout ⊗ FieldElementZC_layout ⊗ raw 32 ⊗ raw 32 ⊗
     raw 32 ⊗ raw 32 ⊗ raw 16 ⊗ FieldElementZC_layout ⊗ FieldElementZC_layout ⊗ uint 4 ⊗
     uint 1 ⊗ raw 32)
    (λ '(x0, x1, x2, x3, x4, x5, x6, x7, x8, x9, x10, x11, x12, x13, x14, x15, x16, x17, x18,
       x19, x20, x21, x22, x23, x24, x25, x26, x27, x28, x29, x30, x31, x32, x33, x34, x35,
       x36, x37),
      mkVrfBuilder x0 x1 x2 x3 x4 x5 x6 x7 x8 x9 x10 x11 x12 x13 x14 x15 x16 x17 x18 x19 x20 x21 x22 x23
        x24 x25 x26 x27 x28 x29 x30 x31 x32 x33 x34 x35 x36 x37)
    (λ a, (vb_producer a, vb_status a, vb_repr_proof a, vb_proof a, vb_Y_point a, vb_stage a,
      vb_stage1_out a, vb_R_1 a, vb_R_2 a, vb_stage3_out a, vb_H_point a, vb_s_reduced a,
      vb_Y_point_builder a, vb_Y_ristretto_point a, vb_mul_round a, vb_hash_points_round a,
      vb_mul_tmp1 a, vb_U_point1 a, vb_U_point2 a, vb_V_point1 a, vb_V_point2 a, vb_U_point a,
      vb_V_point a, vb_u1 a, vb_u2 a, vb_invertee a, vb_y a, vb_z a, vb_p1_bytes a,
      vb_p2_bytes a, vb_p3_bytes a, vb_p4_bytes a, vb_c_prime_hashbuf a, vb_m1 a, vb_m2 a,
      vb_tx_remaining a, vb_verified a, vb_result a)).

Record AccountMetaZC : Type := mkAccountMetaZC {
  am_pubkey : Pubkey;
  am_is_signer : Z;
  am_is_writable : Z;
}.

Definition AccountMetaZC_layout : Layout AccountMetaZC :=
  fields
    (uint 32 ⊗ uint 1 ⊗ uint 1)
    (λ '(x0, x1, x2), mkAccountMetaZC x0 x1 x2)
    (λ a, (am_pubkey a, am_is_signer a, am_is_writable a)).

Record CallbackZC : Type := mkCallbackZC {
  cb_program_id : Pubkey;
  cb_accounts : list AccountMetaZC;
  cb_accounts_len : Z;
  cb_ix_data : list Z;
  cb_ix_data_len : Z;
}.

Definition CallbackZC_layout : Layout CallbackZC :=
  fields
    (uint 32 ⊗ (array 32 AccountMetaZC_layout) ⊗ uint 4 ⊗ raw 1024 ⊗ uint 4)
    (λ '(x0, x1, x2, x3, x4), mkCallbackZC x0 x1 x2 x3 x4)
    (λ a, (cb_program_id a, cb_accounts a, cb_accounts_len a, cb_ix_data a, cb_ix_data_len a)).

Record VrfRound : Type := mkVrfRound {
  vr_alpha : list Z;
  vr_alpha_len : Z;
  vr_request_slot : Z;
  vr_request_timestamp : Z;
  vr_result : list Z;
  vr_num_verified : Z;
  vr_ebuf : list Z;
}.

Definition VrfRound_layout : Layout VrfRound :=
  fields
    (raw 256 ⊗ uint 4 ⊗ uint 8 ⊗ sint 8 ⊗ raw 32 ⊗ uint 4 ⊗ raw 256)
    (λ '(x0, x1, x2, x3, x4, x5, x6), mkVrfRound x0 x1 x2 x3 x4 x5 x6)
    (λ a, (vr_alpha a, vr_alpha_len a, vr_request_slot a, vr_request_timestamp a, vr_result a,
      vr_num_verified a, vr_ebuf a)).

Record VrfAccountData : Type := mkVrfAccountData {
  vd_status : Z;
  vd_counter : Z;
  vd_authority : Pubkey;
  vd_oracle_queue : Pubkey;
  vd_escrow : Pubkey;
  vd_callback : CallbackZC;
  vd_batch_size : Z;
  vd_builders : list VrfBuilder;
  vd_builders_len : Z;
  vd_test_mode : Z;
  vd_current_round : VrfRound;
  vd_ebuf : list Z;
}.

Definition VrfAccountData_layout : Layout VrfAccountData :=
  fields
    (uint 1 ⊗ uint 16 ⊗ uint 32 ⊗ uint 32 ⊗ uint 32 ⊗ CallbackZC_layout ⊗ uint 4 ⊗
     (array 8 VrfBuilder_layout) ⊗ uint 4 ⊗ uint 1 ⊗ VrfRound_layout ⊗ raw 1024)
    (λ '(x0, x1, x2, x3, x4, x5, x6, x7, x8, x9, x10, x11),
      mkVrfAccountData x0 x1 x2 x3 x4 x5 x6 x7 x8 x9 x10 x11)
    (λ a, (vd_status a, vd_counter a, vd_authority a, vd_oracle_queue a, vd_escrow a, vd_callback a,
      vd_batch_size a, vd_builders a, vd_builders_len a, vd_test_mode a, vd_current_round a,
      vd_ebuf a)).

(** ** Points in and out of accounts

    The types of the curve library and their packed copies *)

Record FieldElement51 : Type := mkFieldElement51 { fe_limbs : list Z }.

Record CompletedPoint : Type := mkCompletedPoint {
  cp_X : FieldElement51;
  cp_Y : FieldElement51;
  cp_Z : FieldElement51;
  cp_T : FieldElement51;
}.

Record EdwardsPoint : Type := mkEdwardsPoint {
  ed_X : FieldElement51;
  ed_Y : FieldElement51;
  ed_Z : FieldElement51;
  ed_T : FieldElement51;
}.

Record ProjectivePoint : Type := mkProjectivePoint {
  pp_X : FieldElement51;
  pp_Y : FieldElement51;
  pp_Z : FieldElement51;
}.

Definition field_into_zc (self : FieldElement51) : FieldElementZC := mkFieldElementZC (fe_limbs self).
Definition field_from_zc (self : FieldElementZC) : FieldElement51 := mkFieldElement51 (fz_bytes self).

Definition completed_into_zc (self : CompletedPoint) : CompletedPointZC :=
  mkCompletedPointZC (field_into_zc (cp_X self)) (field_into_zc (cp_Y self))
    (field_into_zc (cp_Z self)) (field_into_zc (cp_T self)).
Definition completed_from_zc (self : CompletedPointZC) : CompletedPoint :=
  mkCompletedPoint (field_from_zc (cz_X self)) (field_from_zc (cz_Y self))
    (field_from_zc (cz_Z self)) (field_from_zc (cz_T self)).

Definition projective_into_zc (self : ProjectivePoint) : ProjectivePointZC :=
  mkProjectivePointZC (field_into_zc (pp_X self)) (field_into_zc (pp_Y self)) (field_into_zc (pp_Z self)).
Definition projective_from_zc (self : ProjectivePointZC) : ProjectivePoint :=
  mkProjectivePoint (field_from_zc (pz_X self)) (field_from_zc (pz_Y self)) (field_from_zc (pz_Z self)).

Lemma field_zc_inverse : (∀ x, field_from_zc (field_into_zc x) = x) ∧ ∀ x, field_into_zc (field_from_zc x) = x.
Proof. by split; intros []. Qed.

Lemma completed_zc_inverse :
  (∀ x, completed_from_zc (completed_into_zc x) = x) ∧ ∀ x, completed_into_zc (completed_from_zc x) = x.
Proof. by split; intros [[] [] [] []]. Qed.

Lemma projective_zc_inverse :
  (∀ x, projective_from_zc (projective_into_zc x) = x) ∧ ∀ x, projective_into_zc (projective_from_zc x) = x.
Proof. by split; intros [[] [] []]. Qed.

(** ** Layouts and casts agree *)

#[export] Instance Scalar_ok : LayoutOk Scalar_layout.
Proof. solve_fields. Qed.

#[export] Instance FieldElementZC_ok : LayoutOk FieldElementZC_layout.
Proof. solve_fields. Qed.

#[export] Instance CompletedPointZC_ok : LayoutOk CompletedPointZC_layout.
Proof. solve_fields. Qed.

#[export] Instance EdwardsPointZC_ok : LayoutOk EdwardsPointZC_layout.
Proof. solve_fields. Qed.

#[export] Instance ProjectivePointZC_ok : LayoutOk ProjectivePointZC_layout.
Proof. solve_fields. Qed.

#[export] Instance EcvrfProofZC_ok : LayoutOk EcvrfProofZC_layout.
Proof. solve_fields. Qed.

#[export] Instance EcvrfIntermediate_ok : LayoutOk EcvrfIntermediate_layout.
Proof. solve_fields. Qed.

#[export] Instance VrfBuilder_ok : LayoutOk VrfBuilder_layout.
Proof. solve_fields. Qed.

#[export] Instance AccountMetaZC_ok : LayoutOk AccountMetaZC_layout.
Proof. solve_fields. Qed.

#[export] Instance CallbackZC_ok : LayoutOk CallbackZC_layout.
Proof. solve_fields. Qed.

#[export] Instance VrfRound_ok : LayoutOk VrfRound_layout.
Proof. solve_fields. Qed.

#[export] Instance VrfAccountData_ok : LayoutOk VrfAccountData_layout.
Proof. solve_fields. Qed.

(** ** The account *)

Module VrfAccountData.

Definition VrfEmptyError : ProgramError := Custom 6005.

Definition discriminator : list Z := [101; 35; 62; 239; 103; 151; 6; 18].

(** [&data[..8]] panics on short data, [bytemuck::from_bytes] on any other size
    than the record's. *)
Definition new (data : list Z) : outcome VrfAccountData :=
  read_tagged discriminator VrfAccountData_layout AggregatorAccountData.AccountDiscriminatorMismatch data.

Definition get_current_randomness_round_id (self : VrfAccountData) : Z := vd_counter self.

Definition get_result (self : VrfAccountData) : outcome (list Z) :=
  if decide (vr_result (vd_current_round self) = replicate 32 0) then Err VrfEmptyError
  else mret (vr_result (vd_current_round self)).

End VrfAccountData.

(** ** Requesting randomness *)

Record VrfRequestRandomnessParams : Type := mkVrfRequestRandomnessParams {
  permission_bump : Z;
  state_bump : Z;
}.

(** The accounts of a request; of the two token accounts only the handle is
    used. *)
Record VrfRequestRandomness : Type := mkVrfRequestRandomness {
  rq_authority : AccountInfo;
  rq_vrf : AccountInfo;
  rq_oracle_queue : AccountInfo;
  rq_queue_authority : AccountInfo;
  rq_data_buffer : AccountInfo;
  rq_permission : AccountInfo;
  rq_escrow : AccountInfo;
  rq_payer_wallet : AccountInfo;
  rq_payer_authority : AccountInfo;
  rq_recent_blockhashes : AccountInfo;
  rq_program_state : AccountInfo;
  rq_token_program : AccountInfo;
}.

Module VrfRequestRandomness.
Section request.
Context `{Sdk}.
Implicit Types (self : VrfRequestRandomness) (program : AccountInfo).

Definition VrfCpiError : ProgramError := Custom 6006.
Definition VrfCpiSignedError : ProgramError := Custom 6007.

Definition discriminator : list Z := [230; 121; 14; 164; 28; 222; 117; 118].

Definition to_account_infos self : list AccountInfo :=
  [rq_authority self; rq_vrf self; rq_oracle_queue self; rq_queue_authority self;
   rq_data_buffer self; rq_permission self; rq_escrow self; rq_payer_wallet self;
   rq_payer_authority self; rq_recent_blockhashes self; rq_program_state self;
   rq_token_program self].

(** An account with the privileges of its handle *)
Definition meta (info : AccountInfo) : AccountMeta :=
  mkAccountMeta (key info) (is_signer info) (is_writable info).

(** The authority has to sign, whatever its handle says. *)
Definition to_account_metas self : list AccountMeta :=
  [mkAccountMeta (key (rq_authority self)) true (is_writable (rq_authority self));
   meta (rq_vrf self); meta (rq_oracle_queue self); meta (rq_queue_authority self);
   meta (rq_data_buffer self); meta (rq_permission self); meta (rq_escrow self);
   meta (rq_payer_wallet self); meta (rq_payer_authority self);
   meta (rq_recent_blockhashes self); meta (rq_program_state self);
   meta (rq_token_program self)].

(** The parameters are serialised in the order of their declaration. *)
Definition get_instruction self (program_id : Pubkey) (params : VrfRequestRandomnessParams) :
    Instruction :=
  mkInstruction program_id (to_account_metas self)
    (discriminator ++ [permission_bump params; state_bump params]).

(** [.map_err(|_| error)] *)
Definition map_err {A} (e : ProgramError) (m : M A) : M A :=
  λ w, match m w with Ok r => Ok r | Err _ => Err e | Panic => Panic end.

Definition invoke self program (state_bump permission_bump : Z) : M unit :=
  let cpi_params := mkVrfRequestRandomnessParams permission_bump state_bump in
  map_err VrfCpiError
    (ProcessorBase.invoke (get_instruction self (key program) cpi_params) (to_account_infos self)).

Definition invoke_signed self program (state_bump permission_bump : Z) (signer_seeds : list Seeds) :
    M unit :=
  let cpi_params := mkVrfRequestRandomnessParams permission_bump state_bump in
  map_err VrfCpiSignedError
    (run_cpi (get_instruction self (key program) cpi_params) (to_account_infos self) signer_seeds).

End request.
End VrfRequestRandomness.

End vrf.

Import vrf.

(** The account takes 29050 bytes behind its discriminator. *)
Lemma vrf_account_size : Z.of_nat (lay_size VrfAccountData_layout) = 29050.
Proof. vm_compute. reflexivity. Qed.

(** ** Properties *)

(** the randomness account is read as it was written.  [new] accepts exactly
    the discriminator followed by the 29050 bytes of some record, and gives that
    record, in which every field fits its width; another discriminator is
    [AccountDiscriminatorMismatch], and data that is cut short or of another size
    panics.  The result counts as empty exactly when its 32 bytes are zero. *)
Theorem vrf_account_is_read_back (data : list Z) (Hb : Forall is_byte data) :
  (∀ v, VrfAccountData.new data = Ok v ↔
        lay_valid VrfAccountData_layout v ∧
        data = VrfAccountData.discriminator ++ lay_write VrfAccountData_layout v) ∧
  (∀ v, VrfAccountData.new data = Ok v →
     Z.of_nat (length data) = 29058 ∧
     ((∃ b, b ∈ vr_result (vd_current_round v) ∧ b ≠ 0) →
        VrfAccountData.get_result v = Ok (vr_result (vd_current_round v))) ∧
     (vr_result (vd_current_round v) = replicate 32 0 →
        VrfAccountData.get_result v = Err VrfAccountData.VrfEmptyError)) ∧
  ((length data < 8)%nat → VrfAccountData.new data = Panic) ∧
  ((8 ≤ length data)%nat → take 8 data ≠ VrfAccountData.discriminator →
     VrfAccountData.new data = Err AggregatorAccountData.AccountDiscriminatorMismatch) ∧
  (take 8 data = VrfAccountData.discriminator → Z.of_nat (length data) ≠ 29058 →
     VrfAccountData.new data = Panic).
Proof.
  unfold VrfAccountData.new. set (L := VrfAccountData_layout). set (e := AggregatorAccountData.AccountDiscriminatorMismatch).
  pose proof (vrf_account_size : Z.of_nat (lay_size L) = 29050) as Hsize.
  assert (LayoutOk L) as HL by apply _. clearbody L. clearbody e.
  split_and!.
  - intros v. by apply (read_tagged_Ok VrfAccountData.discriminator L e).
  - intros v Hv. apply read_tagged_length in Hv.
    change (length VrfAccountData.discriminator) with 8%nat in Hv. split; [lia|].
    unfold VrfAccountData.get_result. split.
    + intros (b & Hin & Hb0). rewrite decide_False; [done|]. intros E. rewrite E in Hin.
      by apply elem_of_replicate in Hin as [-> _].
    + intros Hz. by rewrite decide_True.
  - apply (read_tagged_short VrfAccountData.discriminator L e).
  - apply (read_tagged_mismatch VrfAccountData.discriminator L e).
  - intros Ht Hl. apply read_tagged_size; [done|]. change (length VrfAccountData.discriminator) with 8%nat. lia.
Qed.

(** A request for randomness forwards what its caller gave it.  Both ways to
    send it run one instruction of the given program, whose accounts are the
    twelve of the request in their order, each with the privileges of its handle;
    only the first of them, the authority, has to sign whatever its handle says; the data is the discriminator with the
    bump of the permission before that of the state.  A failure is the error of
    the way that was taken. *)
Theorem vrf_request_forwards `{Sdk} (self : VrfRequestRandomness) (program : AccountInfo)
    (state permission : Z) (seeds : list Seeds) (w : World) :
  let ix := VrfRequestRandomness.get_instruction self (key program)
              (mkVrfRequestRandomnessParams permission state) in
  let infos := VrfRequestRandomness.to_account_infos self in
  (∀ u w', VrfRequestRandomness.invoke_signed self program state permission seeds w = Ok (u, w') →
     Solana.invoke_signed ix infos seeds (accounts w) = Ok (accounts w') ∧
     inner w' = inner w ++ [mkInvocation ix seeds]) ∧
  (∀ u w', VrfRequestRandomness.invoke self program state permission w = Ok (u, w') →
     Solana.invoke_signed ix infos [] (accounts w) = Ok (accounts w') ∧
     inner w' = inner w ++ [mkInvocation ix []]) ∧
  (∀ e, VrfRequestRandomness.invoke_signed self program state permission seeds w = Err e →
     e = VrfRequestRandomness.VrfCpiSignedError) ∧
  (∀ e, VrfRequestRandomness.invoke self program state permission w = Err e →
     e = VrfRequestRandomness.VrfCpiError) ∧
  ix_program_id ix = key program ∧
  ix_data ix = VrfRequestRandomness.discriminator ++ [permission; state] ∧
  length (ix_accounts ix) = length infos ∧ infos !! 0%nat = Some (rq_authority self) ∧
  ∀ i m info, ix_accounts ix !! i = Some m → infos !! i = Some info →
    m = mkAccountMeta (key info) (is_signer info || (i =? 0)%nat) (is_writable info).
Proof.
  cbv zeta. unfold VrfRequestRandomness.invoke_signed, VrfRequestRandomness.invoke, VrfRequestRandomness.map_err, ProcessorBase.invoke, run_cpi.
  split_and!; try done.
  - intros u w'. destruct (Solana.invoke_signed _ _ _ _) as [accs|e|]; intros [= _ <-]. by split.
  - intros u w'. destruct (Solana.invoke_signed _ _ _ _) as [accs|e|]; intros [= _ <-]. by split.
  - intros e. by destruct (Solana.invoke_signed _ _ _ _); intros [= <-].
  - intros e. by destruct (Solana.invoke_signed _ _ _ _); intros [= <-].
  - unfold VrfRequestRandomness.get_instruction, VrfRequestRandomness.to_account_metas, VrfRequestRandomness.to_account_infos.
    intros i m info. do 13 (destruct i as [|i]; [intros [= <-] [= <-]; cbn; by rewrite ?orb_true_r, ?orb_false_r|]). done.
Qed.

(** A record of zeros with a result: read from bytes, its status is a byte that no
    variant of the enum has. *)
Definition sample_vrf_data : list Z :=
  VrfAccountData.discriminator ++ 6 ::
  replicate (lay_size VrfAccountData_layout - 1 - (32 + 4 + 256 + 1024)) 0 ++
  replicate 32 7 ++ replicate (4 + 256 + 1024) 0.

Definition vrf_outcome (m : outcome VrfAccountData) : option (list Z * Z) :=
  match m with Ok v => Some (vr_result (vd_current_round v), vd_status v) | _ => None end.

Lemma vrf_account_is_read_back_witness :
  ∃ v, VrfAccountData.new sample_vrf_data = Ok v ∧
    VrfAccountData.get_result v = Ok (replicate 32 7) ∧ VrfStatus_of_byte (vd_status v) = None.
Proof.
  destruct (vrf_account_is_read_back sample_vrf_data) as (_ & Hr & _).
  - unfold sample_vrf_data, VrfAccountData.discriminator. apply Forall_app_2.
    { repeat (apply Forall_cons_2; [split; lia|]). apply Forall_nil_2. }
    apply Forall_cons_2; [split; lia|].
    apply Forall_app_2; [|apply Forall_app_2]; apply Forall_replicate; split; lia.
  - assert (E : vrf_outcome (VrfAccountData.new sample_vrf_data) = Some (replicate 32 7, 6))
      by (vm_compute; reflexivity).
    destruct (VrfAccountData.new sample_vrf_data) as [v|e|]; [|discriminate E..].
    exists v. split; [reflexivity|]. destruct (Hr v eq_refl) as (_ & Hok & _). injection E as E1 E2.
    rewrite E1 in Hok. rewrite E2. split; [|reflexivity].
    apply Hok. exists 7. split; [apply list_elem_of_here|discriminate].
Defined.

#[local] Existing Instance test_sdk.

(** The request of the program 1, sent for the derived address of some seeds *)
Definition sample_request : VrfRequestRandomness :=
  mkVrfRequestRandomness (mkAccountInfo 80 false false) (account 81) (account 82)
    (mkAccountInfo 83 false false) (account 84) (account 85) (account 86) (account 87) (signer 21)
    (account 88) (account 89) (account test_token_id).

Lemma vrf_request_forwards_witness :
  ∃ w', VrfRequestRandomness.invoke_signed sample_request (account 90) 254 255 [[[1; 2]]] ledger = Ok (tt, w') ∧
    inner w' = [mkInvocation
      (VrfRequestRandomness.get_instruction sample_request 90 (mkVrfRequestRandomnessParams 255 254))
      [[[1; 2]]]].
Proof.
  destruct (vrf_request_forwards sample_request (account 90) 254 255 [[[1; 2]]] ledger) as (Hs & _).
  destruct (VrfRequestRandomness.invoke_signed sample_request (account 90) 254 255 [[[1; 2]]] ledger)
    as [[[] w']|e|] eqn:E; [|vm_compute in E; discriminate E..].
  exists w'. split; [reflexivity|]. exact (proj2 (Hs tt w' eq_refl)).
Defined.
