(* ===== verification/SwitchboardBundle.v ===== *)
(** * Switchboard, version 1: bundles and randomness

    The rest of [switchboard-program-0.2.1/src/lib.rs]: an account that packs the
    results of many feeds into slots of 500 bytes, and the account of a verifiable
    random function.  The messages and their decoding are the crates
    [switchboard_protos], [switchboard_utils] and [quick_protobuf], which are
    outside the repository. *)

From S2P Require Import Prelude Errors StateBase Solana Testbed.

(** What [get_verified_randomness] reads of the message [VrfAccountData] *)
Record VrfState : Type := mkVrfState {
  vs_value : option (list Z);
  vs_min_proof_confirmations : option Z;
  vs_num_proof_confirmations : option Z;
}.

Class SwitchboardSdk : Type := {
  TYPE_BUNDLE : Z;
  TYPE_VRF : Z;
  deserialize_vrf : list Z → option VrfState;
  (* [FastRoundResultAccountData], its size and the cast of its bytes *)
  FastRoundResultAccountData : Type;
  fast_size : nat;
  fast_of_bytes : list Z → FastRoundResultAccountData;
  fast_round_open_slot : FastRoundResultAccountData → Z;
}.

(** [usize] arithmetic, which wraps in release builds *)
Definition usize (z : Z) : Z := z mod 2 ^ 64.

(** [&buf[from..to]] *)
Definition slice (buf : list Z) (from to : Z) : outcome (list Z) :=
  if (from <=? to) && (to <=? Z.of_nat (length buf)) then
    Ok (take (Z.to_nat (to - from)) (drop (Z.to_nat from) buf))
  else Panic.

(** The handle of an account whose first byte names its type *)
Definition typed_account (type : Z) (account : AccountInfo) : M AccountInfo :=
  buf ← data_of account;
  match buf with
  | tag :: _ => if tag =? type then mret account else lift (Err InvalidAccountData)
  | [] => lift (Err InvalidAccountData)
  end.

Module BundleAccount.
Section bundle.
Context `{SwitchboardSdk}.

Definition BUFFER_SIZE : Z := 500.

Definition new (account : AccountInfo) : M AccountInfo := typed_account TYPE_BUNDLE account.

Definition get_idx (self : AccountInfo) (idx : Z) : M FastRoundResultAccountData :=
  let offset := usize (1 + usize (idx * BUFFER_SIZE)) in
  let term := usize (offset + Z.of_nat fast_size) in
  buf ← data_of self;
  if Z.of_nat (length buf) <? term then lift (Err InvalidArgument)
  else
    bs ← lift (slice buf offset term);
    let res := fast_of_bytes bs in
    if fast_round_open_slot res =? 0 then lift (Err InvalidArgument) else mret res.

End bundle.
End BundleAccount.

Module VrfAccount.
Section vrf.
Context `{SwitchboardSdk}.

Definition new (account : AccountInfo) : M AccountInfo := typed_account TYPE_VRF account.

(** [&buf[1..]] panics on an empty buffer. *)
Definition get_verified_randomness (self : AccountInfo) : M (list Z) :=
  buf ← data_of self;
  match buf with
  | [] => lift Panic
  | _ :: message =>
      vrf_state ← lift (ok_or InvalidAccountData (deserialize_vrf message));
      value ← lift (ok_or InvalidAccountData (vs_value vrf_state));
      min_confirmations ← lift (ok_or InvalidAccountData (vs_min_proof_confirmations vrf_state));
      num_confirmations ← lift (ok_or InvalidAccountData (vs_num_proof_confirmations vrf_state));
      if num_confirmations <? min_confirmations then lift (Err InvalidAccountData) else mret value
  end.

End vrf.
End VrfAccount.

(** ** Entries of a bundle *)

Section entries.
Context `{SwitchboardSdk}.
Implicit Types (slots : list (list Z)).

(** The tag and the slots one after the other *)
Definition bundle_data slots : list Z := TYPE_BUNDLE :: concat slots.

Lemma concat_slot slots i s :
  Forall (λ s, length s = 500%nat) slots → slots !! i = Some s →
  take 500 (drop (500 * i) (concat slots)) = s ∧ length (concat slots) = (500 * length slots)%nat.
Proof.
  intros Hl. revert i. induction Hl as [|s0 slots H0 Hl IH]; intros i Hs; [done|].
  assert (Hlen : length (concat (s0 :: slots)) = (500 * length (s0 :: slots))%nat).
  { cbn [concat length]. rewrite length_app, H0. clear -Hl. induction Hl as [|s1 l H1 _ IHl]; [done|].
    cbn [concat length] in *. rewrite length_app, H1. lia. }
  split; [|done]. destruct i as [|i]; cbn [concat lookup list_lookup] in *.
  - injection Hs as ->. rewrite Nat.mul_0_r, drop_0. by apply take_app_length'.
  - replace (500 * S i)%nat with (500 + 500 * i)%nat by lia. rewrite <- drop_drop.
    rewrite (drop_app_length' s0 _ 500) by done. by apply IH.
Qed.

(** The bytes that [get_idx] takes *)
Lemma bundle_slice slots i s :
  Forall (λ s, length s = 500%nat) slots → (fast_size ≤ 500)%nat → slots !! i = Some s →
  slice (bundle_data slots) (1 + 500 * Z.of_nat i) (1 + 500 * Z.of_nat i + Z.of_nat fast_size) =
  Ok (take fast_size s).
Proof.
  intros Hl Hf Hs. destruct (concat_slot slots i s Hl Hs) as [E Hlen].
  apply lookup_lt_Some in Hs as Hi. unfold slice, bundle_data. cbn [length]. rewrite Hlen.
  rewrite (proj2 (Z.leb_le _ _)), (proj2 (Z.leb_le _ _)) by lia. cbn [andb]. f_equal.
  replace (Z.to_nat (1 + 500 * Z.of_nat i)) with (S (500 * i)) by lia. cbn [drop].
  replace (Z.to_nat _) with fast_size by lia. rewrite <- E at 1.
  rewrite take_take. f_equal. lia.
Qed.

Lemma usize_small z : 0 ≤ z < 2 ^ 64 → usize z = z.
Proof. apply Z.mod_small. Qed.

Lemma get_idx_offsets idx :
  0 ≤ idx → 501 + 500 * idx < 2 ^ 64 → (fast_size ≤ 500)%nat →
  usize (1 + usize (idx * BundleAccount.BUFFER_SIZE)) = 1 + 500 * idx ∧
  usize (1 + 500 * idx + Z.of_nat fast_size) = 1 + 500 * idx + Z.of_nat fast_size.
Proof.
  unfold BundleAccount.BUFFER_SIZE. intros. rewrite (usize_small (idx * 500)) by lia.
  rewrite !usize_small by lia. lia.
Qed.

End entries.

(** ** Properties *)

(** A bundle is read slot by slot.  If the data of the account is the tag and
    slots of 500 bytes, and a result fits its slot, then the account is accepted
    and [get_idx] of a slot decodes the first bytes of that slot and no others; a
    result that was never written and an index behind the last slot are
    [InvalidArgument].  Nothing panics and nothing is changed.  The index is not
    checked before it is multiplied: an index and the same plus 2^62 read the same
    slot. *)
Theorem bundle_get_idx `{SwitchboardSdk} (account : AccountInfo) (slots : list (list Z)) (w : World)
    (Hd : data (account_of w (key account)) = bundle_data slots)
    (Hl : Forall (λ s, length s = 500%nat) slots) (Hf : (0 < fast_size ≤ 500)%nat) :
  BundleAccount.new account w = Ok (account, w) ∧
  (∀ i s, slots !! i = Some s → 501 + 500 * Z.of_nat i < 2 ^ 64 →
     let r := fast_of_bytes (take fast_size s) in
     BundleAccount.get_idx account (Z.of_nat i) w =
       if fast_round_open_slot r =? 0 then Err InvalidArgument else Ok (r, w)) ∧
  (∀ idx, Z.of_nat (length slots) ≤ idx → 501 + 500 * idx < 2 ^ 64 →
     BundleAccount.get_idx account idx w = Err InvalidArgument) ∧
  (∀ idx, BundleAccount.get_idx account (idx + 2 ^ 62) w = BundleAccount.get_idx account idx w).
Proof.
  assert (Hlen : length (bundle_data slots) = (1 + 500 * length slots)%nat).
  { unfold bundle_data. cbn [length]. f_equal. clear -Hl.
    induction Hl as [|s slots H1 _ IH]; [done|]. cbn [concat length]. rewrite length_app, H1. lia. }
  split_and!.
  - unfold BundleAccount.new, typed_account, data_of. unfold mbind, M_bind. rewrite Hd. cbn.
    by rewrite Z.eqb_refl.
  - intros i s Hs Hi r. destruct (get_idx_offsets (Z.of_nat i)) as [E1 E2]; [lia..|].
    unfold BundleAccount.get_idx. rewrite E1, E2. unfold data_of, mbind, M_bind. rewrite Hd, Hlen.
    apply lookup_lt_Some in Hs as Hlt. rewrite (proj2 (Z.ltb_ge _ _)) by lia.
    unfold lift. rewrite (bundle_slice slots i s Hl (proj2 Hf) Hs). cbn. fold r. unfold r. by destruct (fast_round_open_slot _ =? 0).
  - intros idx Hi Hw. destruct (get_idx_offsets idx) as [E1 E2]; [lia..|].
    unfold BundleAccount.get_idx. rewrite E1, E2. unfold data_of, mbind, M_bind. rewrite Hd, Hlen.
    by rewrite (proj2 (Z.ltb_lt _ _)) by lia.
  - intros idx. unfold BundleAccount.get_idx, usize, BundleAccount.BUFFER_SIZE.
    replace ((idx + 2 ^ 62) * 500) with (idx * 500 + 125 * 2 ^ 64) by lia. by rewrite Z.mod_add.
Qed.

(** Randomness comes out of an account only when enough proofs confirmed it.
    For an account that [VrfAccount::new] accepts, reading the randomness does not
    panic; it succeeds exactly when the message decodes, has its three fields, and
    counts at least as many confirmations as it demands, and then gives the value
    of the message; any other account is [InvalidAccountData]. *)
Theorem vrf_randomness_is_confirmed `{SwitchboardSdk} (account : AccountInfo) (w : World)
    (Hn : is_Ok (VrfAccount.new account w)) :
  ∃ message, data (account_of w (key account)) = TYPE_VRF :: message ∧
    (∀ value w', VrfAccount.get_verified_randomness account w = Ok (value, w') ↔
       w' = w ∧ ∃ least count, least ≤ count ∧
         deserialize_vrf message = Some (mkVrfState (Some value) (Some least) (Some count))) ∧
    ((∃ value, VrfAccount.get_verified_randomness account w = Ok (value, w)) ∨
     VrfAccount.get_verified_randomness account w = Err InvalidAccountData).
Proof.
  unfold VrfAccount.new, typed_account, VrfAccount.get_verified_randomness, data_of, mbind, M_bind in *.
  destruct (data (account_of w (key account))) as [|tag message]; [by destruct Hn|].
  destruct (Z.eqb_spec tag TYPE_VRF) as [->|]; [|by destruct Hn]. exists message. split; [done|].
  unfold lift. destruct (deserialize_vrf message) as [[[value|] [least|] [count|]]|]; cbn;
    try (split; [|by right]; intros v w'; split; [done|naive_solver]).
  destruct (Z.ltb_spec count least); cbn.
  - split; [|by right]. intros v w'. split; [done|]. intros (_ & l & c & Hle & [= -> -> ->]). lia.
  - split; [|left; by exists value]. intros v w'. split.
    + intros [= <- <-]. split; [done|]. by exists least, count.
    + by intros (-> & l & c & _ & [= -> _ _]).
Qed.

(** Results of eight bytes, their slot; a message that is the value behind the two
    counts *)
#[local] Instance sample_switchboard : SwitchboardSdk := {|
  TYPE_BUNDLE := 3;
  TYPE_VRF := 4;
  deserialize_vrf := λ bs,
    match bs with
    | least :: count :: value => Some (mkVrfState (Some value) (Some least) (Some count))
    | _ => None
    end;
  FastRoundResultAccountData := Z;
  fast_size := 8;
  fast_of_bytes := of_le_bytes;
  fast_round_open_slot := id;
|}.

Definition sample_slots : list (list Z) := [le_bytes 500 77; le_bytes 500 0; le_bytes 500 78].
Definition sample_accounts : World :=
  mkWorld (list_to_map [(5, mkAccountState 1 1 (bundle_data sample_slots));
                        (6, mkAccountState 1 1 [4; 3; 3; 99])]) [].

Lemma bundle_get_idx_witness :
  BundleAccount.get_idx (account 5) 2 sample_accounts = Ok (78, sample_accounts) ∧
  BundleAccount.get_idx (account 5) 1 sample_accounts = Err InvalidArgument ∧
  BundleAccount.get_idx (account 5) 3 sample_accounts = Err InvalidArgument ∧
  BundleAccount.get_idx (account 5) (2 + 2 ^ 62) sample_accounts = Ok (78, sample_accounts).
Proof.
  destruct (bundle_get_idx (account 5) sample_slots sample_accounts) as (_ & Hs & Hb & Hw).
  - vm_compute. reflexivity.
  - repeat (apply Forall_cons_2; [vm_compute; reflexivity|]). apply Forall_nil_2.
  - cbn. lia.
  - split; [exact (Hs 2%nat _ eq_refl eq_refl)|]. split; [exact (Hs 1%nat _ eq_refl eq_refl)|].
    split; [apply Hb; [cbn|]; lia|]. rewrite Hw. exact (Hs 2%nat _ eq_refl eq_refl).
Defined.

Lemma vrf_randomness_is_confirmed_witness :
  VrfAccount.get_verified_randomness (account 6) sample_accounts = Ok ([99], sample_accounts).
Proof.
  destruct (vrf_randomness_is_confirmed (account 6) sample_accounts) as (message & Hm & Hv & _).
  - eexists. vm_compute. reflexivity.
  - apply Hv. split; [reflexivity|]. exists 3, 3. split; [lia|].
    vm_compute in Hm. injection Hm as <-. reflexivity.
Defined.
