(* ===== verification/AnchorBase.v ===== *)
(** * Anchor: errors, memory and traits

    The error codes of the framework ([anchor/lang/src/error.rs]), errors with
    their origin and the values that were compared, and what a program returns for
    them.  Names and messages are only printed and left out.

    The accounts as a program of the framework holds them: every handle of an
    account shares one [RefCell] for its data, so a borrow that is kept, as those
    of the zero-copy loaders are, makes other borrows fail.  With the writer of
    [anchor/lang/src/bpf_writer.rs], [close] of [common.rs], the traits of
    [lib.rs], and the trait instances that [#[account]] generates
    ([anchor/lang/attribute/account/src/lib.rs]). *)

From stdpp Require Import strings.
From S2P Require Import Prelude Errors Layouts StateBase Solana.

(** ** Errors *)

Inductive ErrorCode : Type :=
(* Instructions *)
| InstructionMissing
| InstructionFallbackNotFound
| InstructionDidNotDeserialize
| InstructionDidNotSerialize
(* IDL instructions *)
| IdlInstructionStub
| IdlInstructionInvalidProgram
(* Constraints *)
| ConstraintMut
| ConstraintHasOne
| ConstraintSigner
| ConstraintRaw
| ConstraintOwner
| ConstraintRentExempt
| ConstraintSeeds
| ConstraintExecutable
| ConstraintState
| ConstraintAssociated
| ConstraintAssociatedInit
| ConstraintClose
| ConstraintAddress
| ConstraintZero
| ConstraintTokenMint
| ConstraintTokenOwner
| ConstraintMintMintAuthority
| ConstraintMintFreezeAuthority
| ConstraintMintDecimals
| ConstraintSpace
(* Require *)
| RequireViolated
| RequireEqViolated
| RequireKeysEqViolated
| RequireNeqViolated
| RequireKeysNeqViolated
| RequireGtViolated
| RequireGteViolated
(* Accounts *)
| AccountDiscriminatorAlreadySet
| AccountDiscriminatorNotFound
| AccountDiscriminatorMismatch
| AccountDidNotDeserialize
| AccountDidNotSerialize
| AccountNotEnoughKeys
| AccountNotMutable
| AccountOwnedByWrongProgram
| InvalidProgramId
| InvalidProgramExecutable
| AccountNotSigner
| AccountNotSystemOwned
| AccountNotInitialized
| AccountNotProgramData
| AccountNotAssociatedTokenAccount
| AccountSysvarMismatch
(* State *)
| StateInvalidAddress
(* Miscellaneous *)
| DeclaredProgramIdMismatch
(* Deprecated *)
| Deprecated.

#[export] Instance ErrorCode_eq_dec : EqDecision ErrorCode.
Proof. solve_decision. Defined.

(** The discriminants: the groups with the number of their first variant *)
Definition ErrorCode_groups : list (Z * list ErrorCode) :=
  [(100, [InstructionMissing; InstructionFallbackNotFound; InstructionDidNotDeserialize;
          InstructionDidNotSerialize]);
   (1000, [IdlInstructionStub; IdlInstructionInvalidProgram]);
   (2000, [ConstraintMut; ConstraintHasOne; ConstraintSigner; ConstraintRaw; ConstraintOwner;
           ConstraintRentExempt; ConstraintSeeds; ConstraintExecutable; ConstraintState;
           ConstraintAssociated; ConstraintAssociatedInit; ConstraintClose; ConstraintAddress;
           ConstraintZero; ConstraintTokenMint; ConstraintTokenOwner;
           ConstraintMintMintAuthority; ConstraintMintFreezeAuthority; ConstraintMintDecimals;
           ConstraintSpace]);
   (2500, [RequireViolated; RequireEqViolated; RequireKeysEqViolated; RequireNeqViolated;
           RequireKeysNeqViolated; RequireGtViolated; RequireGteViolated]);
   (3000, [AccountDiscriminatorAlreadySet; AccountDiscriminatorNotFound;
           AccountDiscriminatorMismatch; AccountDidNotDeserialize; AccountDidNotSerialize;
           AccountNotEnoughKeys; AccountNotMutable; AccountOwnedByWrongProgram;
           InvalidProgramId; InvalidProgramExecutable; AccountNotSigner; AccountNotSystemOwned;
           AccountNotInitialized; AccountNotProgramData; AccountNotAssociatedTokenAccount;
           AccountSysvarMismatch]);
   (4000, [StateInvalidAddress]);
   (4100, [DeclaredProgramIdMismatch]);
   (5000, [Deprecated])].

Definition numbered (group : Z * list ErrorCode) : list (ErrorCode * Z) :=
  imap (λ i e, (e, group.1 + Z.of_nat i)) group.2.

Definition ErrorCode_table : list (ErrorCode * Z) := ErrorCode_groups ≫= numbered.

(** [u32::from(code)], with the offset 0 of the framework's own codes *)
Definition ErrorCode_number (e : ErrorCode) : Z :=
  from_option (λ p, snd (snd p)) 0 (list_find (λ p, fst p = e) ErrorCode_table).

(** The codes of a program's own errors start here. *)
Definition ERROR_CODE_OFFSET : Z := 6000.

Inductive ComparedValues : Type :=
| Values (left right : string)
| Pubkeys (left right : Pubkey).

Inductive ErrorOrigin : Type :=
| Source (filename : string) (line : Z)
| AccountName (account_name : string).

Record Decoration : Type := mkDecoration {
  error_origin : option ErrorOrigin;
  compared_values : option ComparedValues;
}.

Inductive Error : Type :=
| AnchorError (error_code_number : Z) (d : Decoration)
| ProgramErrorWithOrigin (program_error : ProgramError) (d : Decoration).

Definition undecorated : Decoration := mkDecoration None None.

(** [From<ErrorCode>] and [From<ProgramError>] *)
Definition Error_from_code (e : ErrorCode) : Error := AnchorError (ErrorCode_number e) undecorated.
Definition Error_from_program_error (e : ProgramError) : Error := ProgramErrorWithOrigin e undecorated.

Definition decorate (f : Decoration → Decoration) (self : Error) : Error :=
  match self with
  | AnchorError n d => AnchorError n (f d)
  | ProgramErrorWithOrigin e d => ProgramErrorWithOrigin e (f d)
  end.

Definition with_account_name (self : Error) (account_name : string) : Error :=
  decorate (λ d, mkDecoration (Some (AccountName account_name)) (compared_values d)) self.

Definition with_source (self : Error) (filename : string) (line : Z) : Error :=
  decorate (λ d, mkDecoration (Some (Source filename line)) (compared_values d)) self.

Definition with_pubkeys (self : Error) (pubkeys : Pubkey * Pubkey) : Error :=
  decorate (λ d, mkDecoration (error_origin d) (Some (Pubkeys pubkeys.1 pubkeys.2))) self.

Definition with_values (self : Error) (values : string * string) : Error :=
  decorate (λ d, mkDecoration (error_origin d) (Some (Values values.1 values.2))) self.

(** [PartialEq]: by the number or the program error alone *)
Definition Error_eqb (self other : Error) : bool :=
  match self, other with
  | AnchorError n _, AnchorError n' _ => n =? n'
  | ProgramErrorWithOrigin e _, ProgramErrorWithOrigin e' _ => bool_decide (e = e')
  | _, _ => false
  end.

(** [From<Error> for ProgramError]: what the runtime gets to see *)
Definition ProgramError_from_Error (e : Error) : ProgramError :=
  match e with
  | AnchorError n _ => Custom n
  | ProgramErrorWithOrigin e _ => e
  end.

(** *** Errors up to their decoration *)

#[export] Instance Error_equiv : Equiv Error := λ e e', Error_eqb e e' = true.

#[export] Instance Error_equivalence : Equivalence (≡@{Error}).
Proof.
  unfold equiv, Error_equiv. split.
  - intros []; cbn; [apply Z.eqb_refl|by apply bool_decide_eq_true].
  - intros [] []; cbn; try done; [by intros ->%Z.eqb_eq; apply Z.eqb_eq|].
    intros ->%bool_decide_eq_true. by apply bool_decide_eq_true.
  - intros [] [] []; cbn; try done; [by intros ->%Z.eqb_eq|by intros ->%bool_decide_eq_true].
Qed.

Lemma decorate_equiv f e : decorate f e ≡ e.
Proof. destruct e; [apply Z.eqb_refl|by apply bool_decide_eq_true]. Qed.

#[export] Instance decorate_proper f : Proper ((≡) ==> (≡@{Error})) (decorate f).
Proof. intros e e' He. by rewrite !decorate_equiv. Qed.

#[export] Instance ProgramError_from_Error_proper : Proper ((≡) ==> (=)) ProgramError_from_Error.
Proof.
  intros [] []; unfold equiv, Error_equiv; cbn; try done; [by intros ->%Z.eqb_eq|].
  by intros ->%bool_decide_eq_true.
Qed.

(** The code survives every decoration, *)
Lemma with_account_name_equiv e n : with_account_name e n ≡ e.
Proof. apply decorate_equiv. Qed.
Lemma with_source_equiv e f l : with_source e f l ≡ e.
Proof. apply decorate_equiv. Qed.
Lemma with_pubkeys_equiv e p : with_pubkeys e p ≡ e.
Proof. apply decorate_equiv. Qed.
Lemma with_values_equiv e v : with_values e v ≡ e.
Proof. apply decorate_equiv. Qed.

(** every variant has a number, no two have the same, and none is a number of the
    program's own errors. *)
Lemma ErrorCode_number_table e : (e, ErrorCode_number e) ∈ ErrorCode_table.
Proof. destruct e; vm_compute; solve_in. Qed.

#[export] Instance ErrorCode_number_inj : Inj (=) (=) ErrorCode_number.
Proof.
  intros e e' E. pose proof (ErrorCode_number_table e) as H. pose proof (ErrorCode_number_table e') as H'.
  rewrite E in H. assert (Hn : NoDup (snd <$> ErrorCode_table)) by (apply (bool_decide_unpack _); vm_compute; exact I).
  apply list_elem_of_lookup in H as [i Hi], H' as [j Hj].
  assert (i = j) as ->; [|congruence].
  eapply NoDup_lookup; [exact Hn| |]; rewrite list_lookup_fmap; [by rewrite Hi|by rewrite Hj].
Qed.

Lemma ErrorCode_number_reserved e : 100 ≤ ErrorCode_number e < ERROR_CODE_OFFSET.
Proof. destruct e; vm_compute; split; congruence. Qed.

(** ** Accounts behind cells *)

Inductive Borrow : Type :=
| Shared (readers : positive)
| Exclusive.

Record Cells : Type := mkCells {
  cells : Accounts;
  borrows : gmap Pubkey Borrow;      (* without an entry: not borrowed *)
  executable : gset Pubkey;
}.

Definition AM (A : Type) : Type := Cells → result Error (A * Cells).

#[export] Instance AM_ret : MRet AM := λ A a c, Ok (a, c).
#[export] Instance AM_bind : MBind AM := λ A B f m c,
  match m c with
  | Ok (a, c) => f a c
  | Err e => Err e
  | Panic => Panic
  end.

Definition run_result {A} (m : result Error A) : AM A := λ c, a ← m; Ok (a, c).
Definition throw {A} (e : Error) : AM A := λ _, Err e.
Definition abort {A} : AM A := λ _, Panic.
Definition err {A} (e : ErrorCode) : AM A := throw (Error_from_code e).
Definition require_that (cond : bool) (e : Error) : AM unit := if cond then mret tt else throw e.

Definition cell (c : Cells) (k : Pubkey) : AccountState := default (mkAccountState 0 0 []) (cells c !! k).

Definition set_cell (c : Cells) (k : Pubkey) (a : AccountState) : Cells :=
  mkCells (<[k := a]> (cells c)) (borrows c) (executable c).

Definition set_borrow (c : Cells) (k : Pubkey) (b : option Borrow) : Cells :=
  mkCells (cells c) (partial_alter (λ _, b) k (borrows c)) (executable c).

Definition info_owner (info : AccountInfo) : AM Pubkey := λ c, Ok (owner (cell c (key info)), c).
Definition info_lamports (info : AccountInfo) : AM Z := λ c, Ok (lamports (cell c (key info)), c).
Definition info_executable (info : AccountInfo) : AM bool :=
  λ c, Ok (bool_decide (key info ∈ executable c), c).

Definition set_lamports (info : AccountInfo) (n : Z) : AM unit := λ c,
  let a := cell c (key info) in Ok (tt, set_cell c (key info) (mkAccountState (owner a) n (data a))).

(** [info.try_borrow_data()?], [info.try_borrow_mut_data()?] *)
Definition try_borrow_data (info : AccountInfo) : AM (list Z) := λ c,
  match borrows c !! key info with
  | Some Exclusive => Err (Error_from_program_error AccountBorrowFailed)
  | _ => Ok (data (cell c (key info)), c)
  end.

Definition try_borrow_mut_data (info : AccountInfo) : AM (list Z) := λ c,
  match borrows c !! key info with
  | Some _ => Err (Error_from_program_error AccountBorrowFailed)
  | None => Ok (data (cell c (key info)), c)
  end.

Definition put_data (info : AccountInfo) (bs : list Z) : AM unit := λ c,
  let a := cell c (key info) in Ok (tt, set_cell c (key info) (mkAccountState (owner a) (lamports a) bs)).

(** A borrow that the caller keeps, and its end *)
Definition hold_shared (info : AccountInfo) : AM unit := λ c,
  match borrows c !! key info with
  | Some Exclusive => Err (Error_from_program_error AccountBorrowFailed)
  | Some (Shared n) => Ok (tt, set_borrow c (key info) (Some (Shared (Pos.succ n))))
  | None => Ok (tt, set_borrow c (key info) (Some (Shared 1)))
  end.

Definition hold_exclusive (info : AccountInfo) : AM unit := λ c,
  match borrows c !! key info with
  | Some _ => Err (Error_from_program_error AccountBorrowFailed)
  | None => Ok (tt, set_borrow c (key info) (Some Exclusive))
  end.

Definition release (info : AccountInfo) : AM unit := λ c,
  match borrows c !! key info with
  | Some (Shared n) =>
      Ok (tt, set_borrow c (key info) (if (n =? 1)%positive then None else Some (Shared (Pos.pred n))))
  | _ => Ok (tt, set_borrow c (key info) None)
  end.

(** ** [BpfWriter]: writing into the data of an account from its start *)

Record BpfWriter : Type := mkBpfWriter {
  bw_inner : list Z;
  bw_pos : nat;
}.

Module BpfWriter.

Definition new (inner : list Z) : BpfWriter := mkBpfWriter inner 0.

(** Overwrite the bytes from [pos] on. *)
Definition copy_at (inner : list Z) (pos : nat) (bs : list Z) : list Z :=
  take pos inner ++ bs ++ drop (pos + length bs) inner.

(** How many bytes were written, and the writer behind them *)
Definition write (self : BpfWriter) (buf : list Z) : nat * BpfWriter :=
  if (length (bw_inner self) <=? bw_pos self)%nat then (0%nat, self)
  else
    let amt := Nat.min (length (bw_inner self) - bw_pos self) (length buf) in
    (amt, mkBpfWriter (copy_at (bw_inner self) (bw_pos self) (take amt buf)) (bw_pos self + amt)).

(** [None] is the error [WriteZero]. *)
Definition write_all (self : BpfWriter) (buf : list Z) : option BpfWriter :=
  let '(n, self) := write self buf in
  if (n =? length buf)%nat then Some self else None.

Fixpoint write_chunks (self : BpfWriter) (bufs : list (list Z)) : option BpfWriter :=
  match bufs with
  | [] => Some self
  | buf :: bufs => self ← write_all self buf; write_chunks self bufs
  end.

(** A writer that is long enough takes everything and keeps the rest. *)
Lemma write_all_fits self buf :
  (bw_pos self + length buf ≤ length (bw_inner self))%nat →
  write_all self buf =
    Some (mkBpfWriter (copy_at (bw_inner self) (bw_pos self) buf) (bw_pos self + length buf)).
Proof.
  intros Hl. unfold write_all, write. destruct (Nat.leb_spec (length (bw_inner self)) (bw_pos self)).
  - assert (buf = []) as -> by (apply nil_length_inv; lia). cbn. unfold copy_at. cbn.
    rewrite !Nat.add_0_r, take_drop. by destruct self.
  - rewrite Nat.min_r by lia. by rewrite Nat.eqb_refl, take_ge.
Qed.

Lemma write_all_short self buf :
  (bw_pos self ≤ length (bw_inner self))%nat →
  (length (bw_inner self) < bw_pos self + length buf)%nat → write_all self buf = None.
Proof.
  intros Hp Hl. unfold write_all, write. destruct (Nat.leb_spec (length (bw_inner self)) (bw_pos self)).
  - by rewrite (proj2 (Nat.eqb_neq _ _)) by lia.
  - rewrite Nat.min_l by lia. by rewrite (proj2 (Nat.eqb_neq _ _)) by lia.
Qed.

Lemma length_copy_at inner pos bs :
  (pos + length bs ≤ length inner)%nat → length (copy_at inner pos bs) = length inner.
Proof. intros. unfold copy_at. rewrite !length_app, length_take, length_drop. lia. Qed.

Lemma copy_at_next inner pos b c :
  (pos + length b + length c ≤ length inner)%nat →
  copy_at (copy_at inner pos b) (pos + length b) c = copy_at inner pos (b ++ c).
Proof.
  intros Hl. assert (Hp : length (take pos inner) = pos) by (rewrite length_take; lia).
  unfold copy_at. rewrite length_app.
  rewrite (assoc_L (++) (take pos inner) b _), <- (assoc_L (++) b c _).
  rewrite (take_app_length' (take pos inner ++ b)) by (rewrite length_app; lia).
  rewrite <- drop_drop, (drop_app_length' (take pos inner ++ b)) by (rewrite length_app; lia).
  rewrite drop_drop, <- (assoc_L (++)). do 2 f_equal. f_equal. f_equal. lia.
Qed.

Lemma write_chunks_fits self bufs :
  (bw_pos self + length (concat bufs) ≤ length (bw_inner self))%nat →
  write_chunks self bufs =
    Some (mkBpfWriter (copy_at (bw_inner self) (bw_pos self) (concat bufs)) (bw_pos self + length (concat bufs))).
Proof.
  revert self. induction bufs as [|b bufs IH]; intros self Hl; cbn [write_chunks concat] in *.
  - unfold copy_at. cbn. rewrite !Nat.add_0_r, take_drop. by destruct self.
  - rewrite length_app in *. rewrite write_all_fits by lia. cbn [mbind option_bind].
    rewrite IH; cbn [bw_inner bw_pos]; [|rewrite length_copy_at; lia].
    by rewrite copy_at_next, (Nat.add_assoc _ (length b)) by lia.
Qed.

Lemma write_chunks_short self bufs :
  (bw_pos self ≤ length (bw_inner self))%nat →
  (length (bw_inner self) < bw_pos self + length (concat bufs))%nat → write_chunks self bufs = None.
Proof.
  revert self. induction bufs as [|b bufs IH]; intros self Hp Hl; cbn [write_chunks concat] in *; [cbn in Hl; lia|].
  rewrite length_app in Hl. destruct (decide (bw_pos self + length b ≤ length (bw_inner self))%nat).
  - rewrite write_all_fits by done. cbn [mbind option_bind]. apply IH; cbn [bw_inner bw_pos];
      rewrite length_copy_at by done; lia.
  - by rewrite write_all_short by lia.
Qed.

End BpfWriter.

(** ** Traits *)

Class AccountDeserialize (T : Type) : Type := {
  try_deserialize : list Z → result Error T;
  try_deserialize_unchecked : list Z → result Error T;
}.

Class AccountSerialize (T : Type) : Type := {
  try_serialize : T → BpfWriter → result Error BpfWriter;
}.

Class Owner (T : Type) : Type := { type_owner : Pubkey }.
Class Discriminator (T : Type) : Type := { discriminator : list Z }.
Class Id (T : Type) : Type := { type_id : Pubkey }.

(** Plain old data: the cast of [bytemuck] *)
Class ZeroCopy (T : Type) `{Discriminator T} : Type := { zc_layout : Layout T }.

(** A container of accounts, taken from the front of the list *)
Class AccountsTrait (A : Type) : Type := {
  try_accounts : Pubkey → list AccountInfo → list Z → AM (A * list AccountInfo);
}.

Class AccountsExit (A : Type) : Type := { exit : A → Pubkey → AM unit }.
Class AccountsClose (A : Type) : Type := { close : A → AccountInfo → AM unit }.
Class ToAccountMetas (A : Type) : Type := { to_account_metas : A → option bool → list AccountMeta }.
Class ToAccountInfos (A : Type) : Type := { to_account_infos : A → list AccountInfo }.

(** The provided method of [AccountsExit] *)
Definition exit_noop {A} (self : A) (program_id : Pubkey) : AM unit := mret tt.

(** ** Closing *)

Definition CLOSED_ACCOUNT_DISCRIMINATOR : list Z := replicate 8 255.

(** The lamports move first, and an account too short for the mark is an error (the
    place in the source that it records is left out). *)
Definition close_account (info sol_destination : AccountInfo) : AM unit :=
  dest_starting_lamports ← info_lamports sol_destination;
  n ← info_lamports info;
  sum ← (match checked_add 64 dest_starting_lamports n with Some sum => mret sum | None => abort end);
  _ ← set_lamports sol_destination sum;
  _ ← set_lamports info 0;
  data ← try_borrow_mut_data info;
  match BpfWriter.write_all (BpfWriter.new data) CLOSED_ACCOUNT_DISCRIMINATOR with
  | Some writer => put_data info (bw_inner writer)
  | None => err AccountDidNotSerialize
  end.
