(* ===== verification/AnchorAccounts.v ===== *)
(** * Anchor: account types

    [anchor/lang/src/accounts/], [vec.rs] and [bpf_upgradeable_state.rs]: the types
    with which a program of the framework names the accounts that it expects.  Each
    is built from a handle by its checks, and some write back what they hold when
    the instruction ends: the types that hold a deserialised value, the zero-copy loaders
    ([account_loader.rs], [loader.rs]), and the types that only check a handle
    ([program.rs], [signer.rs], [system_account.rs], [unchecked_account.rs],
    [account_info.rs], [sysvar.rs]) or wrap another type ([boxed.rs], [vec.rs],
    [state.rs], [cpi_state.rs]).  The fields of a derived [Accounts] struct are
    such types. *)

From stdpp Require Import strings.
From S2P Require Import Prelude Errors Layouts StateBase Solana AnchorBase.

(** What the source takes from the Solana crates and from bincode *)
Inductive UpgradeableLoaderState : Type :=
| Uninitialized
| Buffer (authority_address : option Pubkey)
| LoaderProgram (programdata_address : Pubkey)
| LoaderProgramData (slot : Z) (upgrade_authority_address : option Pubkey).

Class AnchorSdk : Type := {
  bpf_loader_upgradeable_id : Pubkey;
  bincode_loader_state : list Z → option UpgradeableLoaderState;
  pubkey_find_program_address : Seeds → Pubkey → Pubkey * Z;
  pubkey_create_with_seed : Pubkey → string → Pubkey → option Pubkey;
}.

(** The key of the system program: 32 zero bytes *)
Definition system_program_id : Pubkey := 0.

(** ** What the types share *)

(** The first account of the list, or [AccountNotEnoughKeys] *)
Definition take_account (accounts : list AccountInfo) : AM (AccountInfo * list AccountInfo) :=
  match accounts with
  | [] => err AccountNotEnoughKeys
  | account :: rest => mret (account, rest)
  end.

Definition info_meta (info : AccountInfo) (is_signer : option bool) : AccountMeta :=
  mkAccountMeta (key info) (default (Solana.is_signer info) is_signer) (is_writable info).

Definition wrong_owner (owner expected : Pubkey) : Error :=
  with_pubkeys (Error_from_code AccountOwnedByWrongProgram) (owner, expected).

Definition check_type_owner (info : AccountInfo) (expected : Pubkey) : AM unit :=
  owner ← info_owner info;
  require_that (owner =? expected) (wrong_owner owner expected).

(** ** The instances that [#[account]] generates *)

Section attribute.
Context {T : Type} `{Discriminator T}.

(** [borsh]: the buffers that serialisation writes one after the other, and the
    reader of a prefix *)
Context (borsh_chunks : T → list (list Z)) (borsh_parse : list Z → option T).

Definition account_try_serialize (self : T) (writer : BpfWriter) : result Error BpfWriter :=
  let failed := Error_from_code AccountDidNotSerialize in
  writer ← ok_or failed (BpfWriter.write_all writer discriminator);
  ok_or failed (BpfWriter.write_chunks writer (borsh_chunks self)).

Definition account_try_deserialize_unchecked (buf : list Z) : result Error T :=
  if (length buf <? 8)%nat then Panic
  else ok_or (Error_from_code AccountDidNotDeserialize) (borsh_parse (drop 8 buf)).

Definition check_discriminator (buf : list Z) : result Error unit :=
  if (length buf <? length discriminator)%nat then Err (Error_from_code AccountDiscriminatorNotFound)
  else if decide (take 8 buf = discriminator) then Ok tt
  else Err (Error_from_code AccountDiscriminatorMismatch).

Definition account_try_deserialize (buf : list Z) : result Error T :=
  _ ← check_discriminator buf;
  account_try_deserialize_unchecked buf.

(** [#[account(zero_copy)]] *)
Context `{!ZeroCopy T}.

Definition zero_copy_try_deserialize_unchecked (buf : list Z) : result Error T :=
  if (length buf <? 8)%nat then Panic else cast zc_layout (drop 8 buf).

Definition zero_copy_try_deserialize (buf : list Z) : result Error T :=
  _ ← check_discriminator buf;
  zero_copy_try_deserialize_unchecked buf.

End attribute.

(** ** [account.rs] *)

Record Account (T : Type) : Type := mkAccount { ac_account : T; ac_info : AccountInfo }.
Arguments mkAccount {T}.
Arguments ac_account {T}.
Arguments ac_info {T}.

(** Write a value from the start of the account's data. *)
Definition serialize_into {T} `{AccountSerialize T} (a : T) (info : AccountInfo) : AM unit :=
  data ← try_borrow_mut_data info;
  writer ← run_result (try_serialize a (BpfWriter.new data));
  put_data info (bw_inner writer).

Module Account.
Section account.
Context {T : Type} `{AccountSerialize T} `{AccountDeserialize T} `{Owner T}.
Implicit Types (self : Account T) (info : AccountInfo).

(** The checks of both constructors *)
Definition check_info info : AM unit :=
  owner ← info_owner info;
  n ← info_lamports info;
  _ ← require_that (negb ((owner =? system_program_id) && (n =? 0))) (Error_from_code AccountNotInitialized);
  check_type_owner info type_owner.

Definition try_from info : AM (Account T) :=
  _ ← check_info info;
  data ← try_borrow_data info;
  account ← run_result (try_deserialize data);
  mret (mkAccount account info).

Definition try_from_unchecked info : AM (Account T) :=
  _ ← check_info info;
  data ← try_borrow_data info;
  account ← run_result (try_deserialize_unchecked data);
  mret (mkAccount account info).

Definition reload self : AM (Account T) :=
  data ← try_borrow_data (ac_info self);
  account ← run_result (try_deserialize data);
  mret (mkAccount account (ac_info self)).

Definition into_inner self : T := ac_account self.
Definition set_inner self (inner : T) : Account T := mkAccount inner (ac_info self).

Definition try_accounts (accounts : list AccountInfo) : AM (Account T * list AccountInfo) :=
  '(account, rest) ← take_account accounts;
  a ← try_from account;
  mret (a, rest).

(** Only persist if the owner is the current program. *)
Definition exit self (program_id : Pubkey) : AM unit :=
  if type_owner =? program_id then serialize_into (ac_account self) (ac_info self) else mret tt.

Definition close self (sol_destination : AccountInfo) : AM unit :=
  close_account (ac_info self) sol_destination.

Definition to_account_metas self (is_signer : option bool) : list AccountMeta :=
  [info_meta (ac_info self) is_signer].

Definition to_account_infos self : list AccountInfo := [ac_info self].

#[export] Instance accounts : AccountsTrait (Account T) := {|
  AnchorBase.try_accounts _ accounts _ := try_accounts accounts;
|}.
#[export] Instance accounts_exit : AccountsExit (Account T) := {| AnchorBase.exit := exit |}.
#[export] Instance accounts_close : AccountsClose (Account T) := {| AnchorBase.close := close |}.
#[export] Instance to_metas : ToAccountMetas (Account T) := {|
  AnchorBase.to_account_metas := to_account_metas;
|}.
#[export] Instance to_infos : ToAccountInfos (Account T) := {|
  AnchorBase.to_account_infos := to_account_infos;
|}.

End account.
End Account.

(** ** [program_account.rs] and [cpi_account.rs], deprecated: with the owner given
    by the caller, and without a check of it *)

Module ProgramAccount.
Section account.
Context {T : Type} `{AccountSerialize T} `{AccountDeserialize T}.
Implicit Types (self : Account T) (info : AccountInfo).

Definition try_from (program_id : Pubkey) info : AM (Account T) :=
  _ ← check_type_owner info program_id;
  data ← try_borrow_data info;
  account ← run_result (try_deserialize data);
  mret (mkAccount account info).

Definition try_from_unchecked (program_id : Pubkey) info : AM (Account T) :=
  _ ← check_type_owner info program_id;
  data ← try_borrow_data info;
  account ← run_result (try_deserialize_unchecked data);
  mret (mkAccount account info).

Definition try_accounts (program_id : Pubkey) (accounts : list AccountInfo) :
    AM (Account T * list AccountInfo) :=
  '(account, rest) ← take_account accounts;
  a ← try_from program_id account;
  mret (a, rest).

Definition exit self (program_id : Pubkey) : AM unit := serialize_into (ac_account self) (ac_info self).

Definition close self (sol_destination : AccountInfo) : AM unit :=
  close_account (ac_info self) sol_destination.

End account.
End ProgramAccount.

Module CpiAccount.
Section account.
Context {T : Type} `{AccountDeserialize T}.
Implicit Types (self : Account T) (info : AccountInfo).

Definition try_from info : AM (Account T) :=
  data ← try_borrow_data info;
  account ← run_result (try_deserialize data);
  mret (mkAccount account info).

Definition try_from_unchecked info : AM (Account T) := try_from info.

Definition reload self : AM (Account T) := try_from (ac_info self).

Definition try_accounts (accounts : list AccountInfo) : AM (Account T * list AccountInfo) :=
  '(account, rest) ← take_account accounts;
  a ← try_from account;
  mret (a, rest).

(** [From<Account>], [From<CpiAccount> for ProgramAccount] *)
Definition from_account (a : Account T) : Account T := mkAccount (ac_account a) (ac_info a).

End account.
End CpiAccount.

(** ** [account_loader.rs]

    A loader is the handle alone.  A loaded reference keeps the account borrowed
    until it is released. *)

Record AccountLoader (T : Type) : Type := mkAccountLoader { acc_info : AccountInfo }.
Arguments mkAccountLoader {T}.
Arguments acc_info {T}.

(** [bytemuck::from_bytes(&data[8..size + 8])] *)
Definition cast_body {T} `{ZeroCopy T} (data : list Z) : result Error T :=
  if (length data <? lay_size zc_layout + 8)%nat then Panic
  else cast zc_layout (take (lay_size zc_layout) (drop 8 data)).

(** [bytemuck::from_bytes(&data[8..])] *)
Definition cast_rest {T} `{ZeroCopy T} (data : list Z) : result Error T :=
  if (length data <? 8)%nat then Panic else cast zc_layout (drop 8 data).

(** What both loaders do, with the cast of either *)
Section loading.
Context {T : Type} `{ZeroCopy T} (cast_data : list Z → result Error T).
Implicit Types (info : AccountInfo).

Definition check_loadable info : AM unit :=
  data ← try_borrow_data info;
  run_result (check_discriminator (T := T) data).

Definition load_shared info : AM T :=
  data ← try_borrow_data info;
  _ ← run_result (check_discriminator (T := T) data);
  a ← run_result (cast_data data);
  _ ← hold_shared info;
  mret a.

Definition load_exclusive info : AM T :=
  _ ← require_that (is_writable info) (Error_from_code AccountNotMutable);
  data ← try_borrow_mut_data info;
  _ ← run_result (check_discriminator (T := T) data);
  a ← run_result (cast_data data);
  _ ← hold_exclusive info;
  mret a.

(** The discriminator should be zero, since the account is initialised; the slice
    panics on data shorter than that. *)
Definition load_uninitialised info : AM T :=
  _ ← require_that (is_writable info) (Error_from_code AccountNotMutable);
  data ← try_borrow_mut_data info;
  if (length data <? 8)%nat then abort
  else
    _ ← require_that (of_le_bytes (take 8 data) =? 0) (Error_from_code AccountDiscriminatorAlreadySet);
    a ← run_result (cast_data data);
    _ ← hold_exclusive info;
    mret a.

(** Assign through the reference of [load_mut] or [load_init]. *)
Definition store info (a : T) : AM unit := λ c,
  put_data info (BpfWriter.copy_at (data (cell c (key info))) 8 (lay_write zc_layout a)) c.

(** The account cannot be loaded when this is called; too short data panics. *)
Definition write_discriminator info : AM unit :=
  data ← try_borrow_mut_data info;
  match BpfWriter.write_all (BpfWriter.new data) (discriminator (T := T)) with
  | Some writer => put_data info (bw_inner writer)
  | None => abort
  end.

End loading.

Module AccountLoader.
Section loader.
Context {T : Type} `{ZeroCopy T} `{Owner T}.
Implicit Types (self : AccountLoader T) (info : AccountInfo).

Definition try_from info : AM (AccountLoader T) :=
  _ ← check_type_owner info type_owner;
  _ ← check_loadable (T := T) info;
  mret (mkAccountLoader info).

Definition try_from_unchecked (program_id : Pubkey) info : AM (AccountLoader T) :=
  _ ← check_type_owner info type_owner;
  mret (mkAccountLoader info).

Definition load self : AM T := load_shared cast_body (acc_info self).
Definition load_mut self : AM T := load_exclusive cast_body (acc_info self).
Definition load_init self : AM T := load_uninitialised cast_body (acc_info self).

Definition try_accounts (accounts : list AccountInfo) : AM (AccountLoader T * list AccountInfo) :=
  '(account, rest) ← take_account accounts;
  l ← try_from account;
  mret (l, rest).

Definition exit self (_program_id : Pubkey) : AM unit := write_discriminator (T := T) (acc_info self).

Definition close self (sol_destination : AccountInfo) : AM unit :=
  close_account (acc_info self) sol_destination.

Definition to_account_metas self (is_signer : option bool) : list AccountMeta :=
  [info_meta (acc_info self) is_signer].

Definition to_account_infos self : list AccountInfo := [acc_info self].

#[export] Instance accounts : AccountsTrait (AccountLoader T) := {|
  AnchorBase.try_accounts _ accounts _ := try_accounts accounts;
|}.
#[export] Instance accounts_exit : AccountsExit (AccountLoader T) := {| AnchorBase.exit := exit |}.
#[export] Instance accounts_close : AccountsClose (AccountLoader T) := {| AnchorBase.close := close |}.
#[export] Instance to_metas : ToAccountMetas (AccountLoader T) := {|
  AnchorBase.to_account_metas := to_account_metas;
|}.
#[export] Instance to_infos : ToAccountInfos (AccountLoader T) := {|
  AnchorBase.to_account_infos := to_account_infos;
|}.

End loader.
End AccountLoader.

(** ** [loader.rs], deprecated *)

Module Loader.
Section loader.
Context {T : Type} `{ZeroCopy T}.
Implicit Types (self : AccountLoader T) (info : AccountInfo).

Definition try_from (program_id : Pubkey) info : AM (AccountLoader T) :=
  _ ← check_type_owner info program_id;
  _ ← check_loadable (T := T) info;
  mret (mkAccountLoader info).

Definition try_from_unchecked (program_id : Pubkey) info : AM (AccountLoader T) :=
  _ ← check_type_owner info program_id;
  mret (mkAccountLoader info).

Definition load self : AM T := load_shared cast_rest (acc_info self).
Definition load_mut self : AM T := load_exclusive cast_rest (acc_info self).
Definition load_init self : AM T := load_uninitialised cast_rest (acc_info self).

Definition try_accounts (program_id : Pubkey) (accounts : list AccountInfo) :
    AM (AccountLoader T * list AccountInfo) :=
  '(account, rest) ← take_account accounts;
  l ← try_from program_id account;
  mret (l, rest).

Definition exit self (program_id : Pubkey) : AM unit := write_discriminator (T := T) (acc_info self).

Definition close self (sol_destination : AccountInfo) : AM unit :=
  close_account (acc_info self) sol_destination.

End loader.
End Loader.

(** ** Handles with a check *)

Module Program.
Section program.
Context {T : Type} `{Id T} `{AnchorSdk}.

Definition try_from (info : AccountInfo) : AM AccountInfo :=
  _ ← require_that (key info =? type_id)
        (with_pubkeys (Error_from_code InvalidProgramId) (key info, type_id));
  executable ← info_executable info;
  _ ← require_that executable (Error_from_code InvalidProgramExecutable);
  mret info.

(** Other states of the loader are unreachable: an executable account is a
    program. *)
Definition programdata_address (self : AccountInfo) : AM (option Pubkey) :=
  owner ← info_owner self;
  if owner =? bpf_loader_upgradeable_id then
    data ← try_borrow_data self;
    match bincode_loader_state data with
    | None => throw (Error_from_program_error InvalidAccountData)
    | Some (LoaderProgram programdata_address) => mret (Some programdata_address)
    | Some _ => abort
    end
  else mret None.

Definition try_accounts (accounts : list AccountInfo) : AM (AccountInfo * list AccountInfo) :=
  '(account, rest) ← take_account accounts;
  a ← try_from account;
  mret (a, rest).

End program.
End Program.

Module Signer.

Definition try_from (info : AccountInfo) : AM AccountInfo :=
  _ ← require_that (is_signer info) (Error_from_code AccountNotSigner);
  mret info.

Definition try_accounts (accounts : list AccountInfo) : AM (AccountInfo * list AccountInfo) :=
  '(account, rest) ← take_account accounts;
  a ← try_from account;
  mret (a, rest).

End Signer.

Module SystemAccount.

Definition try_from (info : AccountInfo) : AM AccountInfo :=
  owner ← info_owner info;
  _ ← require_that (owner =? system_program_id) (Error_from_code AccountNotSystemOwned);
  mret info.

Definition try_accounts (accounts : list AccountInfo) : AM (AccountInfo * list AccountInfo) :=
  '(account, rest) ← take_account accounts;
  a ← try_from account;
  mret (a, rest).

End SystemAccount.

(** [AccountInfo] and [UncheckedAccount] check nothing. *)
Module UncheckedAccount.

Definition try_from (acc_info : AccountInfo) : AccountInfo := acc_info.

Definition try_accounts (accounts : list AccountInfo) : AM (AccountInfo * list AccountInfo) :=
  take_account accounts.

End UncheckedAccount.

(** [T::from_account_info] of the Solana crate: a sysvar read from an account *)
Class SysvarType (T : Type) : Type := { from_account_info : AccountInfo → list Z → option T }.

Module Sysvar.
Section sysvar.
Context {T : Type} `{SysvarType T}.

Definition of_info (info : AccountInfo) : AM (Account T) :=
  data ← try_borrow_data info;
  match from_account_info info data with
  | Some account => mret (mkAccount account info)
  | None => err AccountSysvarMismatch
  end.

Definition try_accounts (accounts : list AccountInfo) : AM (Account T * list AccountInfo) :=
  '(account, rest) ← take_account accounts;
  a ← of_info account;
  mret (a, rest).

Definition to_account_metas (self : Account T) (_is_signer : option bool) : list AccountMeta :=
  [mkAccountMeta (key (ac_info self)) false false].

End sysvar.
End Sysvar.

(** ** Types around a type *)

(** [Box<T>]: everything is done by the contents. *)
Module Boxed.
Section boxed.
Context {A : Type}.

Definition try_accounts `{AccountsTrait A} program_id accounts ix_data : AM (A * list AccountInfo) :=
  AnchorBase.try_accounts program_id accounts ix_data.
Definition exit `{AccountsExit A} (self : A) program_id : AM unit := AnchorBase.exit self program_id.
Definition close `{AccountsClose A} (self : A) sol_destination : AM unit :=
  AnchorBase.close self sol_destination.

End boxed.
End Boxed.

(** [Vec<T>]: one element is read, however many accounts there are. *)
Module Vec.
Section vec.
Context {A : Type}.

Definition try_accounts `{AccountsTrait A} program_id accounts ix_data : AM (list A * list AccountInfo) :=
  '(item, rest) ← AnchorBase.try_accounts program_id accounts ix_data;
  mret ([item], rest).

Definition to_account_metas `{ToAccountMetas A} (self : list A) (is_signer : option bool) :
    list AccountMeta :=
  self ≫= λ item, AnchorBase.to_account_metas item is_signer.

Definition to_account_infos `{ToAccountInfos A} (self : list A) : list AccountInfo :=
  self ≫= AnchorBase.to_account_infos.

#[export] Instance to_metas `{ToAccountMetas A} : ToAccountMetas (list A) := {|
  AnchorBase.to_account_metas := to_account_metas;
|}.
#[export] Instance to_infos `{ToAccountInfos A} : ToAccountInfos (list A) := {|
  AnchorBase.to_account_infos := to_account_infos;
|}.

End vec.
End Vec.

(** [ProgramState], deprecated: the account at the address that the program's id
    determines *)
Module ProgramState.
Section state.
Context {T : Type} `{AccountSerialize T} `{AccountDeserialize T} `{AnchorSdk}.

Definition PROGRAM_STATE_SEED : string := "unversioned".

(** [None] is the panic of the unwrap. *)
Definition address (program_id : Pubkey) : option Pubkey :=
  let '(base, _nonce) := pubkey_find_program_address [] program_id in
  pubkey_create_with_seed base PROGRAM_STATE_SEED program_id.

Definition try_from (program_id : Pubkey) (info : AccountInfo) : AM (Account T) :=
  _ ← check_type_owner info program_id;
  match address program_id with
  | None => abort
  | Some expected =>
      _ ← require_that (key info =? expected) (Error_from_code StateInvalidAddress);
      data ← try_borrow_data info;
      account ← run_result (try_deserialize data);
      mret (mkAccount account info)
  end.

Definition try_accounts (program_id : Pubkey) (accounts : list AccountInfo) :
    AM (Account T * list AccountInfo) :=
  '(account, rest) ← take_account accounts;
  a ← try_from program_id account;
  mret (a, rest).

Definition exit (self : Account T) (program_id : Pubkey) : AM unit :=
  serialize_into (ac_account self) (ac_info self).

End state.
End ProgramState.

(** [CpiState], deprecated: no check of owner or address *)
Module CpiState.
Section state.
Context {T : Type} `{AccountDeserialize T}.

Definition try_from (info : AccountInfo) : AM (Account T) :=
  data ← try_borrow_data info;
  account ← run_result (try_deserialize data);
  mret (mkAccount account info).

Definition try_accounts (accounts : list AccountInfo) : AM (Account T * list AccountInfo) :=
  '(account, rest) ← take_account accounts;
  a ← try_from account;
  mret (a, rest).

End state.
End CpiState.

(** ** [bpf_upgradeable_state.rs] *)

Record ProgramData : Type := mkProgramData {
  pd_slot : Z;
  pd_upgrade_authority_address : option Pubkey;
}.

Section loader_state.
Context `{AnchorSdk}.

Definition loader_state_deserialize (buf : list Z) : result Error UpgradeableLoaderState :=
  ok_or (Error_from_program_error InvalidAccountData) (bincode_loader_state buf).

#[export] Instance loader_state_account : AccountDeserialize UpgradeableLoaderState := {|
  try_deserialize := loader_state_deserialize;
  try_deserialize_unchecked := loader_state_deserialize;
|}.

Definition program_data_deserialize (buf : list Z) : result Error ProgramData :=
  program_state ← try_deserialize_unchecked buf;
  match program_state with
  | LoaderProgramData slot upgrade_authority_address => Ok (mkProgramData slot upgrade_authority_address)
  | _ => Err (Error_from_code AccountNotProgramData)
  end.

#[export] Instance program_data_account : AccountDeserialize ProgramData := {|
  try_deserialize := program_data_deserialize;
  try_deserialize_unchecked := program_data_deserialize;
|}.

(** Nothing is written back. *)
Definition write_nothing {A} (_self : A) (writer : BpfWriter) : result Error BpfWriter := Ok writer.

#[export] Instance program_data_serialize : AccountSerialize ProgramData := {| try_serialize := write_nothing |}.
#[export] Instance loader_state_serialize : AccountSerialize UpgradeableLoaderState := {|
  try_serialize := write_nothing;
|}.

#[export] Instance program_data_owner : Owner ProgramData := {| type_owner := bpf_loader_upgradeable_id |}.
#[export] Instance loader_state_owner : Owner UpgradeableLoaderState := {|
  type_owner := bpf_loader_upgradeable_id;
|}.

End loader_state.
