(* ===== verification/AnchorFacts.v ===== *)
(** * Anchor: what the account types guarantee

    The lemmas on the operations of the account types: what they do to the cells, in
    the cases that the theorems on histories of accounts need; and concrete types
    and accounts. *)

From stdpp Require Import strings.
From S2P Require Import Prelude Errors Layouts StateBase Solana AnchorBase AnchorAccounts.


(** ** Running the monad *)

Lemma AM_bind_Ok {A B} (m : AM A) (f : A → AM B) c b c' :
  (m ≫= f) c = Ok (b, c') ↔ ∃ a c1, m c = Ok (a, c1) ∧ f a c1 = Ok (b, c').
Proof. unfold mbind, AM_bind. destruct (m c) as [[a c1]|e|]; split; try naive_solver. Qed.

Lemma AM_bind_run {A B} (m : AM A) (f : A → AM B) c a c1 :
  m c = Ok (a, c1) → (m ≫= f) c = f a c1.
Proof. unfold mbind, AM_bind. by intros ->. Qed.

Lemma AM_bind_Err {A B} (m : AM A) (f : A → AM B) c e : m c = Err e → (m ≫= f) c = Err e.
Proof. unfold mbind, AM_bind. by intros ->. Qed.

Lemma run_result_Ok {A} (m : result Error A) c a c' : run_result m c = Ok (a, c') ↔ m = Ok a ∧ c' = c.
Proof. unfold run_result. rewrite bind_Ok. naive_solver. Qed.

Lemma require_that_Ok b e c u c' : require_that b e c = Ok (u, c') ↔ b = true ∧ c' = c.
Proof. unfold require_that. destruct b; split; try done; [by intros [= _ <-]|intros [_ ->]; by destruct u|naive_solver]. Qed.

Lemma try_borrow_data_Ok info c bs c' :
  try_borrow_data info c = Ok (bs, c') → bs = data (cell c (key info)) ∧ c' = c ∧ borrows c !! key info ≠ Some Exclusive.
Proof. unfold try_borrow_data. destruct (borrows c !! key info) as [[]|]; naive_solver. Qed.

Lemma try_borrow_mut_data_Ok info c bs c' :
  try_borrow_mut_data info c = Ok (bs, c') → bs = data (cell c (key info)) ∧ c' = c ∧ borrows c !! key info = None.
Proof. unfold try_borrow_mut_data. destruct (borrows c !! key info); naive_solver. Qed.

Lemma cell_set_same c k a : cell (set_cell c k a) k = a.
Proof. unfold cell, set_cell. cbn. by rewrite lookup_insert_eq. Qed.

Lemma cell_set_other c k a j : j ≠ k → cell (set_cell c k a) j = cell c j.
Proof. intros. unfold cell, set_cell. cbn. by rewrite lookup_insert_ne. Qed.

(** Only the data of one account was changed. *)
Record data_put (k : Pubkey) (bs : list Z) (c c' : Cells) : Prop := {
  dp_data : data (cell c' k) = bs;
  dp_owner : owner (cell c' k) = owner (cell c k);
  dp_lamports : lamports (cell c' k) = lamports (cell c k);
  dp_others : ∀ j, j ≠ k → cell c' j = cell c j;
  dp_borrows : borrows c' = borrows c;
}.

Lemma put_data_put info bs c u c' : put_data info bs c = Ok (u, c') → data_put (key info) bs c c'.
Proof.
  unfold put_data. intros [= <- <-]. split; try done; try (by rewrite cell_set_same).
  intros j Hj. by rewrite cell_set_other.
Qed.

(** ** Accounts that are serialised

    The data types that [#[account]] declares: a discriminator of eight bytes, an
    owner, and a [borsh] encoding whose prefix is read back, for the values that it
    represents (a vector has fewer than 2^32 elements). *)

Class AnchorData (T : Type) : Type := {
  anchor_discriminator :: Discriminator T;
  anchor_owner :: Owner T;
  borsh_chunks : T → list (list Z);
  borsh_parse : list Z → option T;
  borsh_valid : T → Prop;
}.

Class AnchorDataLaws (T : Type) `{AnchorData T} : Prop := {
  discriminator_length : length (discriminator (T := T)) = 8%nat;
  borsh_parse_chunks : ∀ (a : T) rest, borsh_valid a → borsh_parse (concat (borsh_chunks a) ++ rest) = Some a;
}.

#[export] Instance anchor_serialize `{AnchorData T} : AccountSerialize T := {|
  try_serialize := account_try_serialize borsh_chunks;
|}.

#[export] Instance anchor_deserialize `{AnchorData T} : AccountDeserialize T := {|
  try_deserialize := account_try_deserialize borsh_parse;
  try_deserialize_unchecked := account_try_deserialize_unchecked borsh_parse;
|}.

(** What [#[account(zero_copy)]] provides: the discriminator is the start of a hash,
    and neither blank nor the mark of a closed account. *)
Class ZeroCopyLaws (T : Type) `{ZeroCopy T} : Prop := {
  zc_layout_ok :: LayoutOk (zc_layout (T := T));
  zc_discriminator_length : length (discriminator (T := T)) = 8%nat;
  zc_discriminator_bytes : Forall is_byte (discriminator (T := T));
  zc_discriminator_nonzero : of_le_bytes (discriminator (T := T)) ≠ 0;
  zc_discriminator_open : discriminator (T := T) ≠ CLOSED_ACCOUNT_DISCRIMINATOR;
}.

Section anchor_data.
Context {T : Type} `{AnchorDataLaws T}.
Implicit Types (a : T) (info : AccountInfo) (c : Cells).

(** The bytes of an account: the discriminator and the encoding of the value *)
Definition encoded a : list Z := discriminator (T := T) ++ concat (borsh_chunks a).

Lemma length_encoded a : length (encoded a) = (8 + length (concat (borsh_chunks a)))%nat.
Proof. unfold encoded. by rewrite length_app, discriminator_length. Qed.

Lemma serialize_fits a bs :
  (length (encoded a) ≤ length bs)%nat →
  try_serialize a (BpfWriter.new bs) =
    Ok (mkBpfWriter (encoded a ++ drop (length (encoded a)) bs) (length (encoded a))).
Proof.
  rewrite length_encoded. intros Hl. pose proof (discriminator_length (T := T)) as Hd.
  change (try_serialize a) with (account_try_serialize borsh_chunks a). unfold account_try_serialize, BpfWriter.new.
  rewrite BpfWriter.write_all_fits by (cbn [bw_inner bw_pos]; lia).
  cbn [bw_inner bw_pos ok_or mbind result_bind].
  rewrite BpfWriter.write_chunks_fits; cbn [bw_inner bw_pos]; rewrite ?BpfWriter.length_copy_at by lia; [|lia].
  rewrite BpfWriter.copy_at_next by lia. unfold BpfWriter.copy_at, encoded, ok_or. cbn [take app].
  by rewrite length_app, Hd.
Qed.

Lemma serialize_short a bs :
  (length bs < length (encoded a))%nat →
  try_serialize a (BpfWriter.new bs) = Err (Error_from_code AccountDidNotSerialize).
Proof.
  rewrite length_encoded. intros Hl. pose proof (discriminator_length (T := T)) as Hd.
  change (try_serialize a) with (account_try_serialize borsh_chunks a). unfold account_try_serialize, BpfWriter.new.
  destruct (decide (8 ≤ length bs)%nat).
  - rewrite BpfWriter.write_all_fits by (cbn [bw_inner bw_pos]; lia).
    cbn [bw_inner bw_pos ok_or mbind result_bind].
    by rewrite BpfWriter.write_chunks_short by (cbn [bw_inner bw_pos]; rewrite ?BpfWriter.length_copy_at by lia; lia).
  - by rewrite BpfWriter.write_all_short by (cbn [bw_inner bw_pos]; lia).
Qed.

Lemma deserialize_encoded a rest : borsh_valid a → try_deserialize (encoded a ++ rest) = Ok a.
Proof.
  intros Hv. cbn. unfold account_try_deserialize, check_discriminator, account_try_deserialize_unchecked, encoded.
  pose proof discriminator_length as Hd.
  rewrite !length_app, Hd. cbn. rewrite <- !(assoc_L (++)).
  rewrite (take_app_length' _ _ 8), (drop_app_length' _ _ 8) by done.
  rewrite decide_True by done. cbn. by rewrite borsh_parse_chunks by done.
Qed.

(** Data that starts with the discriminator of one type is refused by another. *)
Lemma deserialize_other {U} `{AnchorDataLaws U} a rest :
  discriminator (T := U) ≠ discriminator (T := T) →
  try_deserialize (T := U) (encoded a ++ rest) = Err (Error_from_code AccountDiscriminatorMismatch).
Proof.
  intros Hne. cbn. unfold account_try_deserialize, check_discriminator, encoded.
  pose proof (discriminator_length (T := T)) as Hd. rewrite !length_app, Hd, (discriminator_length (T := U)). cbn.
  rewrite <- !(assoc_L (++)), (take_app_length' _ _ 8) by done. by rewrite decide_False by congruence.
Qed.

(** The account exists for the framework: not an empty account of the system. *)
Definition allocated (x : AccountState) : Prop := ¬ (owner x = system_program_id ∧ lamports x = 0).

Lemma check_info_Ok {U} `{Owner U} info c :
  allocated (cell c (key info)) → owner (cell c (key info)) = type_owner (T := U) →
  Account.check_info (T := U) info c = Ok (tt, c).
Proof.
  intros Ha Ho. unfold Account.check_info, check_type_owner, info_owner, info_lamports, mbind, AM_bind, require_that.
  destruct (Z.eqb_spec (owner (cell c (key info))) system_program_id) as [E|]; cbn;
    [destruct (Z.eqb_spec (lamports (cell c (key info))) 0) as [E'|]; cbn; [by destruct Ha|]|];
    by rewrite Ho, Z.eqb_refl.
Qed.

Lemma account_try_from_eq {U} `{AnchorData U} info c :
  allocated (cell c (key info)) → owner (cell c (key info)) = type_owner (T := U) → borrows c !! key info = None →
  Account.try_from (T := U) info c =
    match try_deserialize (T := U) (data (cell c (key info))) with
    | Ok v => Ok (mkAccount v info, c)
    | Err e => Err e
    | Panic => Panic
    end.
Proof.
  intros Ha Ho Hb. unfold Account.try_from. erewrite AM_bind_run by (by apply check_info_Ok).
  unfold try_borrow_data, mbind, AM_bind. rewrite Hb. unfold run_result. by destruct (try_deserialize _).
Qed.

(** An account of another program is refused by its owner. *)
Lemma account_try_from_foreign {U} `{AnchorData U} info c :
  allocated (cell c (key info)) → owner (cell c (key info)) ≠ type_owner (T := U) →
  Account.try_from (T := U) info c = Err (wrong_owner (owner (cell c (key info))) (type_owner (T := U))).
Proof.
  intros Ha Ho. unfold Account.try_from, Account.check_info, check_type_owner, info_owner, info_lamports.
  unfold mbind, AM_bind, require_that. apply Z.eqb_neq in Ho.
  destruct (Z.eqb_spec (owner (cell c (key info))) system_program_id) as [E|]; cbn; [|by rewrite Ho].
  destruct (Z.eqb_spec (lamports (cell c (key info))) 0) as [E'|]; cbn; [by destruct Ha|by rewrite Ho].
Qed.

Lemma wrong_owner_equiv o expected : wrong_owner o expected ≡ Error_from_code AccountOwnedByWrongProgram.
Proof. done. Qed.

Lemma exit_writes a info c :
  borrows c !! key info = None → (length (encoded a) ≤ length (data (cell c (key info))))%nat →
  ∃ c', serialize_into a info c = Ok (tt, c') ∧
    data_put (key info) (encoded a ++ drop (length (encoded a)) (data (cell c (key info)))) c c'.
Proof.
  intros Hb Hl. unfold serialize_into, try_borrow_mut_data, mbind, AM_bind. rewrite Hb.
  unfold run_result. rewrite (serialize_fits a _ Hl). cbn. eexists. split; [reflexivity|].
  by eapply (put_data_put info).
Qed.

End anchor_data.

(** ** Concrete accounts

    Two small types with the encodings that [#[account]] would give them, one
    zero-copy type, and accounts that hold them.  The witnesses run on these. *)

(** A boolean in [borsh]: one byte, 0 or 1 *)
Definition bool_bytes (b : bool) : list Z := [Z.b2z b].
Definition parse_bool (bs : list Z) : option (bool * list Z) :=
  match bs with
  | 0 :: rest => Some (false, rest)
  | 1 :: rest => Some (true, rest)
  | _ => None
  end.

Lemma parse_bool_bytes b rest : parse_bool (bool_bytes b ++ rest) = Some (b, rest).
Proof. by destruct b. Qed.

Definition testbed_owner : Pubkey := 5.

Record Flag : Type := mkFlag { up : bool }.

#[export] Instance flag_data : AnchorData Flag := {|
  anchor_discriminator := {| discriminator := replicate 8 1 |};
  anchor_owner := {| type_owner := testbed_owner |};
  borsh_chunks f := [bool_bytes (up f)];
  borsh_parse bs := '(b, _) ← parse_bool bs; Some (mkFlag b);
  borsh_valid _ := True;
|}.

#[export] Instance flag_laws : AnchorDataLaws Flag.
Proof. split; [done|]. by intros [[]] rest. Qed.

Record Vote : Type := mkVote { cast_yes : bool; counted : bool }.

#[export] Instance vote_data : AnchorData Vote := {|
  anchor_discriminator := {| discriminator := replicate 8 2 |};
  anchor_owner := {| type_owner := testbed_owner |};
  borsh_chunks v := [bool_bytes (cast_yes v); bool_bytes (counted v)];
  borsh_parse bs := '(b, bs) ← parse_bool bs; '(b', _) ← parse_bool bs; Some (mkVote b b');
  borsh_valid _ := True;
|}.

#[export] Instance vote_laws : AnchorDataLaws Vote.
Proof. split; [done|]. by intros [[] []] rest. Qed.

(** A zero-copy counter of eight bytes *)
Record Counter : Type := mkCounter { count : Z }.

Definition counter_layout : Layout Counter := fields (uint 8) mkCounter count.

#[export] Instance counter_layout_ok : LayoutOk counter_layout.
Proof. apply fields_ok; [apply _|done|by intros []]. Qed.

#[export] Instance counter_discriminator : Discriminator Counter := {| discriminator := replicate 8 3 |}.
#[export] Instance counter_owner : Owner Counter := {| type_owner := testbed_owner |}.
#[export] Instance counter_zero_copy : ZeroCopy Counter := {| zc_layout := counter_layout |}.

#[export] Instance counter_laws : ZeroCopyLaws Counter.
Proof. split; [apply _|done|apply Forall_replicate; by split|done|done]. Qed.

(** ** One account of the program and one that receives lamports *)

Definition info_of (k : Pubkey) : AccountInfo := mkAccountInfo k false true.

Definition cells_with (bytes : list Z) : Cells :=
  mkCells {[ 7 := mkAccountState testbed_owner 100 bytes; 8 := mkAccountState 0 1 [] ]} ∅ ∅.
