(* ===== verification/AnchorLife.v ===== *)
(** * Anchor: accounts across instructions

    What one instruction leaves in an account is what the next one finds: for an
    [Account], which is serialised when the instruction ends, and for a zero-copy
    account, which is changed in place.  The instructions of a program whose account is behind an [AccountLoader]: one
    initialises it, some read or update it, and one closes it.  Their effect on the
    bytes of the account is described by a machine with three states, which goes
    only forward. *)

From stdpp Require Import strings.
From S2P Require Import Prelude Errors Layouts StateBase Solana AnchorBase AnchorAccounts.
From S2P Require Import AnchorFacts.

#[local] Existing Instances Account.accounts_exit AccountLoader.accounts_exit AccountLoader.accounts_close.

(** ** Values survive between instructions *)

Section reading_back.
Context {T U : Type} `{AnchorDataLaws T} `{AnchorDataLaws U}.

(** C28: The value of an [Account] that exits is the value that the next instruction
    reads, with [try_from] or with [reload], and nothing but the bytes of its
    encoding changed.  The same account read as another type is refused, by its
    discriminator or by its owner.  An account too small for the value makes the
    exit fail, and one of another program is not written at all. *)
Theorem account_reads_back_its_value (v : T) info other_id c :
  borsh_valid v → borrows c !! key info = None → allocated (cell c (key info)) →
  owner (cell c (key info)) = type_owner (T := T) →
  discriminator (T := U) ≠ discriminator (T := T) → other_id ≠ type_owner (T := T) →
  let size := length (encoded v) in
  let bytes := data (cell c (key info)) in
  ((size ≤ length bytes)%nat →
   ∃ c', exit (mkAccount v info) (type_owner (T := T)) c = Ok (tt, c') ∧
     data_put (key info) (encoded v ++ drop size bytes) c c' ∧
     Account.try_from info c' = Ok (mkAccount v info, c') ∧
     (∀ old : T, Account.reload (mkAccount old info) c' = Ok (mkAccount v info, c')) ∧
     ∃ e, Account.try_from (T := U) info c' = Err e ∧
       e ≡ Error_from_code (if decide (type_owner (T := U) = type_owner (T := T))
                            then AccountDiscriminatorMismatch else AccountOwnedByWrongProgram)) ∧
  ((length bytes < size)%nat →
   exit (mkAccount v info) (type_owner (T := T)) c = Err (Error_from_code AccountDidNotSerialize)) ∧
  exit (mkAccount v info) other_id c = Ok (tt, c).
Proof.
  intros Hv Hb Ha Ho Hd Hid size bytes. cbn [exit Account.accounts_exit]. unfold Account.exit. cbn [ac_account ac_info]. rewrite Z.eqb_refl.
  split; [|split].
  - intros Hl. destruct (exit_writes v info c Hb Hl) as (c' & He & Hp). exists c'. split; [done|]. split; [done|].
    destruct Hp as [Hdata Hown Hlam _ Hbor].
    assert (Ha' : allocated (cell c' (key info))) by (unfold allocated; by rewrite Hown, Hlam).
    assert (Hb' : borrows c' !! key info = None) by (by rewrite Hbor).
    split; [|split].
    + rewrite account_try_from_eq by congruence. by rewrite Hdata, deserialize_encoded by done.
    + intros old. unfold Account.reload, try_borrow_data, mbind, AM_bind, run_result. cbn [ac_info].
      by rewrite Hb', Hdata, deserialize_encoded by done.
    + case_decide as HU.
      * exists (Error_from_code AccountDiscriminatorMismatch). split; [|done].
        rewrite account_try_from_eq by congruence. by rewrite Hdata, deserialize_other.
      * eexists. split; [apply account_try_from_foreign; congruence|]. apply wrong_owner_equiv.
  - intros Hl. unfold serialize_into, try_borrow_mut_data, mbind, AM_bind, run_result. rewrite Hb.
    fold bytes. by rewrite serialize_short.
  - by rewrite (proj2 (Z.eqb_neq _ _)) by congruence.
Qed.

End reading_back.

Lemma account_reads_back_its_value_witness :
  let flag := mkAccount (mkFlag true) (info_of 7) in
  (∃ c', exit flag testbed_owner (cells_with (replicate 12 0)) = Ok (tt, c') ∧
     Account.try_from (info_of 7) c' = Ok (flag, c') ∧
     Account.try_from (T := Vote) (info_of 7) c' = Err (Error_from_code AccountDiscriminatorMismatch)) ∧
  exit flag testbed_owner (cells_with (replicate 8 0)) = Err (Error_from_code AccountDidNotSerialize).
Proof.
  split.
  - destruct (account_reads_back_its_value (U := Vote) (mkFlag true) (info_of 7) 6 (cells_with (replicate 12 0)))
      as (Hfit & _ & _); [done|done|by intros [? _]|done..|].
    destruct Hfit as (c' & He & _ & Ht & _ & _); [vm_compute; lia|]. exists c'.
    split; [exact He|]. split; [exact Ht|]. vm_compute in He. injection He as <-. reflexivity.
  - destruct (account_reads_back_its_value (U := Vote) (mkFlag true) (info_of 7) 6 (cells_with (replicate 8 0)))
      as (_ & Hshort & _); [done|done|by intros [? _]|done..|]. apply Hshort. vm_compute. lia.
Defined.

(** ** Zero-copy accounts *)

(** ** The instructions, with the exit that the framework appends: [close] for an
    account that is to be closed, [exit] for any other that is mutable *)

Inductive ZcInstruction (T : Type) : Type :=
| ZcRead
| ZcUpdate (f : T → T)
| ZcInit (v : T)
| ZcClose (destination : AccountInfo).
Arguments ZcRead {T}.
Arguments ZcUpdate {T}.
Arguments ZcInit {T}.
Arguments ZcClose {T}.

(** The account as the program sees it *)
Inductive ZcState (T : Type) : Type :=
| ZcBlank
| ZcLive (v : T)
| ZcClosed.
Arguments ZcBlank {T}.
Arguments ZcLive {T}.
Arguments ZcClosed {T}.

(** The next state and what was read, or the error *)
Definition zc_spec {T} (s : ZcState T) (i : ZcInstruction T) : result Error (ZcState T * option T) :=
  match s, i with
  | ZcBlank, ZcInit v => Ok (ZcLive v, None)
  | _, ZcInit _ => Err (Error_from_code AccountDiscriminatorAlreadySet)
  | ZcLive v, ZcRead => Ok (ZcLive v, Some v)
  | ZcLive v, ZcUpdate f => Ok (ZcLive (f v), None)
  | ZcLive v, ZcClose _ => Ok (ZcClosed, None)
  | _, _ => Err (Error_from_code AccountDiscriminatorMismatch)
  end.

(** A failed instruction changes nothing. *)
Definition zc_next {T} (s : ZcState T) (i : ZcInstruction T) : ZcState T :=
  match zc_spec s i with Ok (s', _) => s' | _ => s end.

Section life.
Context {T : Type} `{ZeroCopyLaws T} `{Owner T} (info : AccountInfo) (program_id : Pubkey).
Implicit Types (c : Cells) (v : T) (i : ZcInstruction T) (s : ZcState T).

Definition zc_program i : AM (option T) :=
  match i with
  | ZcRead =>
      l ← AccountLoader.try_from info;
      v ← AccountLoader.load l;
      _ ← release info;
      mret (Some v)
  | ZcUpdate f =>
      l ← AccountLoader.try_from info;
      v ← AccountLoader.load_mut l;
      _ ← store info (f v);
      _ ← release info;
      _ ← exit l program_id;
      mret None
  | ZcInit v =>
      l ← AccountLoader.try_from_unchecked program_id info;
      _ ← AccountLoader.load_init l;
      _ ← store info v;
      _ ← release info;
      _ ← exit l program_id;
      mret None
  | ZcClose destination =>
      l ← AccountLoader.try_from info;
      _ ← close l destination;
      mret None
  end.

(** The state of the account after an instruction, which is undone if it fails *)
Definition zc_commit i c : Cells :=
  match zc_program i c with Ok (_, c') => c' | _ => c end.

Abbreviation bytes_of c := (data (cell c (key info))).
Abbreviation zc_size := (lay_size (zc_layout (T := T))).

(** ** How the bytes represent a state *)

Definition zc_bytes s (bs : list Z) : Prop :=
  match s with
  | ZcBlank => take 8 bs = replicate 8 0
  | ZcLive v => lay_valid zc_layout v ∧ ∃ rest, bs = discriminator (T := T) ++ lay_write zc_layout v ++ rest
  | ZcClosed => take 8 bs = CLOSED_ACCOUNT_DISCRIMINATOR
  end.

Record zc_represents s c : Prop := {
  zr_free : borrows c !! key info = None;
  zr_owner : owner (cell c (key info)) = type_owner (T := T);
  zr_length : (8 + zc_size ≤ length (bytes_of c))%nat;
  zr_bytes : zc_bytes s (bytes_of c);
}.

(** What the program passes is a value of the layout, and there are fewer lamports
    than a machine word holds. *)
Definition zc_ok i c : Prop :=
  match i with
  | ZcRead => True
  | ZcUpdate f => ∀ v, lay_valid zc_layout v → lay_valid zc_layout (f v)
  | ZcInit v => lay_valid zc_layout v
  | ZcClose dest => in_width 64 (lamports (cell c (key dest)) + lamports (cell c (key info)))
  end.

(** Histories: instructions on the account, and anything else that leaves its owner,
    its data and its borrows alone *)
Inductive zc_life c : list (ZcInstruction T) → Cells → Prop :=
| zc_life_start : zc_life c [] c
| zc_life_instruction ops c' i : zc_life c ops c' → zc_ok i c' → zc_life c (ops ++ [i]) (zc_commit i c')
| zc_life_other ops c' c'' :
    zc_life c ops c' → owner (cell c'' (key info)) = owner (cell c' (key info)) →
    bytes_of c'' = bytes_of c' → borrows c'' !! key info = borrows c' !! key info → zc_life c ops c''.

(** ** Steps on the cells *)

Definition with_data c (bs : list Z) : Cells :=
  set_cell c (key info) (mkAccountState (owner (cell c (key info))) (lamports (cell c (key info))) bs).

Lemma with_data_bytes c bs : bytes_of (with_data c bs) = bs.
Proof. unfold with_data. by rewrite cell_set_same. Qed.

Lemma with_data_owner c bs : owner (cell (with_data c bs) (key info)) = owner (cell c (key info)).
Proof. unfold with_data. by rewrite cell_set_same. Qed.

Lemma set_borrow_same c b : borrows (set_borrow c (key info) b) !! key info = b.
Proof. unfold set_borrow. cbn. by rewrite lookup_partial_alter_eq. Qed.

Lemma zc_bytes_tag s bs :
  zc_bytes s bs →
  take 8 bs = match s with
              | ZcBlank => replicate 8 0
              | ZcLive _ => discriminator (T := T)
              | ZcClosed => CLOSED_ACCOUNT_DISCRIMINATOR
              end.
Proof.
  destruct s as [|v|]; [done| |done]. intros (_ & rest & ->).
  by rewrite take_app_length' by (by rewrite zc_discriminator_length).
Qed.

Lemma check_discriminator_spec s bs :
  (8 ≤ length bs)%nat → zc_bytes s bs →
  check_discriminator (T := T) bs =
    match s with ZcLive _ => Ok tt | _ => Err (Error_from_code AccountDiscriminatorMismatch) end.
Proof.
  intros Hl Hs%zc_bytes_tag. unfold check_discriminator. rewrite zc_discriminator_length, Hs.
  rewrite (proj2 (Nat.ltb_ge _ _)) by done. destruct s; [|by rewrite decide_True|].
  - rewrite decide_False; [done|]. intros E. apply (zc_discriminator_nonzero (T := T)). by rewrite <- E.
  - rewrite decide_False; [done|]. intros E. by apply (zc_discriminator_open (T := T)).
Qed.

Lemma cast_body_live v rest :
  lay_valid zc_layout v → cast_body (T := T) (discriminator (T := T) ++ lay_write zc_layout v ++ rest) = Ok v.
Proof.
  intros Hv. unfold cast_body. destruct (lay_write_ok (L := zc_layout) v Hv) as [Hw _].
  rewrite !length_app, zc_discriminator_length, Hw. rewrite (proj2 (Nat.ltb_ge _ _)) by lia.
  rewrite drop_app_length' by (by rewrite zc_discriminator_length).
  rewrite take_app_length' by done. unfold cast. rewrite decide_True by done. by rewrite lay_read_write.
Qed.

Lemma cast_body_any bs : (8 + zc_size ≤ length bs)%nat → ∃ v, cast_body (T := T) bs = Ok v.
Proof.
  intros Hl. unfold cast_body. rewrite (proj2 (Nat.ltb_ge _ _)) by lia. unfold cast.
  rewrite decide_True by (rewrite length_take, length_drop; lia). by eexists.
Qed.

Lemma owner_checked c :
  owner (cell c (key info)) = type_owner (T := T) → check_type_owner info (type_owner (T := T)) c = Ok (tt, c).
Proof.
  intros Ho. unfold check_type_owner, info_owner, mbind, AM_bind, require_that. by rewrite Ho, Z.eqb_refl.
Qed.

Lemma zc_try_from s c :
  zc_represents s c →
  AccountLoader.try_from (T := T) info c =
    match s with
    | ZcLive _ => Ok (mkAccountLoader info, c)
    | _ => Err (Error_from_code AccountDiscriminatorMismatch)
    end.
Proof.
  intros [Hb Ho Hl Hs]. unfold AccountLoader.try_from. erewrite AM_bind_run by (by apply owner_checked).
  unfold check_loadable, try_borrow_data, mbind, AM_bind, run_result. rewrite Hb.
  rewrite (check_discriminator_spec s) by (done || lia). by destruct s.
Qed.

Lemma zc_load v c :
  zc_represents (ZcLive v) c →
  AccountLoader.load (T := T) (mkAccountLoader info) c = Ok (v, set_borrow c (key info) (Some (Shared 1))).
Proof.
  intros [Hb _ Hl Hs]. unfold AccountLoader.load, load_shared, try_borrow_data, mbind, AM_bind, run_result.
  cbn [acc_info]. rewrite Hb, (check_discriminator_spec (ZcLive v)) by (done || lia).
  destruct Hs as [Hv (rest & ->)]. cbn. rewrite cast_body_live by done. cbn [mbind result_bind].
  unfold hold_shared. by rewrite Hb.
Qed.

Lemma zc_load_mut v c :
  is_writable info = true → zc_represents (ZcLive v) c →
  AccountLoader.load_mut (T := T) (mkAccountLoader info) c = Ok (v, set_borrow c (key info) (Some Exclusive)).
Proof.
  intros Hw [Hb _ Hl Hs]. unfold AccountLoader.load_mut, load_exclusive, require_that. cbn [acc_info]. rewrite Hw.
  unfold try_borrow_mut_data, mbind, AM_bind, run_result, mret, AM_ret.
  rewrite Hb, (check_discriminator_spec (ZcLive v)) by (done || lia).
  destruct Hs as [Hv (rest & ->)]. cbn. rewrite cast_body_live by done. cbn [mbind result_bind].
  unfold hold_exclusive. by rewrite Hb.
Qed.

(** Only a blank account can be initialised. *)
Lemma zc_load_init s c :
  is_writable info = true → zc_represents s c →
  match s with
  | ZcBlank => ∃ v, AccountLoader.load_init (T := T) (mkAccountLoader info) c =
                    Ok (v, set_borrow c (key info) (Some Exclusive))
  | _ => AccountLoader.load_init (T := T) (mkAccountLoader info) c =
           Err (Error_from_code AccountDiscriminatorAlreadySet)
  end.
Proof.
  intros Hw [Hb _ Hl Hs]. unfold AccountLoader.load_init, load_uninitialised, require_that. cbn [acc_info]. rewrite Hw.
  unfold try_borrow_mut_data, mbind, AM_bind, run_result, mret, AM_ret.
  destruct (cast_body_any _ Hl) as [v Hv]. apply zc_bytes_tag in Hs. rewrite Hb, Hs, Hv.
  rewrite (proj2 (Nat.ltb_ge _ _)) by lia. destruct s as [|v'|]; cbn -[of_le_bytes discriminator].
  - exists v. change (of_le_bytes _ =? 0) with true. cbn. unfold hold_exclusive. by rewrite Hb.
  - by rewrite (proj2 (Z.eqb_neq _ _)) by apply zc_discriminator_nonzero.
  - done.
Qed.

Lemma store_run v c :
  store info v c = Ok (tt, with_data c (BpfWriter.copy_at (bytes_of c) 8 (lay_write zc_layout v))).
Proof. done. Qed.

Lemma release_exclusive c :
  borrows c !! key info = Some Exclusive → release info c = Ok (tt, set_borrow c (key info) None).
Proof. unfold release. by intros ->. Qed.

(** Both [exit] and [close] write eight bytes at the start. *)
Lemma mark_written c mark :
  length mark = 8%nat → (8 ≤ length (bytes_of c))%nat →
  BpfWriter.write_all (BpfWriter.new (bytes_of c)) mark = Some (mkBpfWriter (mark ++ drop 8 (bytes_of c)) 8).
Proof.
  intros Hm Hl. unfold BpfWriter.new. rewrite BpfWriter.write_all_fits by (cbn [bw_inner bw_pos]; lia).
  unfold BpfWriter.copy_at. cbn [bw_inner bw_pos take app Nat.add]. by rewrite Hm.
Qed.

Lemma exit_run c :
  borrows c !! key info = None → (8 ≤ length (bytes_of c))%nat →
  exit (mkAccountLoader (T := T) info) program_id c =
    Ok (tt, with_data c (discriminator (T := T) ++ drop 8 (bytes_of c))).
Proof.
  intros Hb Hl. cbn [exit AccountLoader.accounts_exit].
  unfold AccountLoader.exit, write_discriminator, try_borrow_mut_data, mbind, AM_bind. cbn [acc_info].
  rewrite Hb, mark_written; [done|apply zc_discriminator_length|done].
Qed.

(** The last steps of an instruction that wrote [v]: the data ends as the encoding
    of a live account. *)
Lemma zc_store_exit s v c :
  zc_represents s c → lay_valid zc_layout v →
  ∃ c', (_ ← store info v; _ ← release info; _ ← exit (mkAccountLoader (T := T) info) program_id; mret (@None T))
          (set_borrow c (key info) (Some Exclusive)) = Ok (None, c') ∧ zc_represents (ZcLive v) c'.
Proof.
  intros [Hb Ho Hl Hs] Hv. destruct (lay_write_ok (L := zc_layout) v Hv) as [Hw _].
  pose proof (zc_discriminator_length (T := T)) as Hd.
  set (bs := BpfWriter.copy_at (bytes_of c) 8 (lay_write zc_layout v)).
  assert (Hbs : length bs = length (bytes_of c)) by (apply BpfWriter.length_copy_at; lia).
  set (c1 := with_data (set_borrow c (key info) (Some Exclusive)) bs).
  set (c2 := set_borrow c1 (key info) None).
  assert (E2 : bytes_of c2 = bs) by apply with_data_bytes.
  assert (B2 : borrows c2 !! key info = None) by apply set_borrow_same.
  rewrite (AM_bind_run _ _ _ _ _ (store_run _ _)). change (bytes_of (set_borrow c _ _)) with (bytes_of c).
  fold bs. fold c1. rewrite (AM_bind_run _ _ _ tt c2) by (apply release_exclusive, set_borrow_same).
  exists (with_data c2 (discriminator (T := T) ++ drop 8 bs)). split.
  - erewrite AM_bind_run by (apply exit_run; [done|rewrite E2; lia]). by rewrite E2.
  - split.
    + done.
    + rewrite with_data_owner. etrans; [apply with_data_owner|done].
    + rewrite with_data_bytes, length_app, length_drop, Hbs, Hd. lia.
    + rewrite with_data_bytes. split; [done|]. unfold bs, BpfWriter.copy_at.
      rewrite drop_app_length' by (rewrite length_take; lia). by eexists.
Qed.

Lemma zc_close v c destination :
  zc_represents (ZcLive v) c → zc_ok (ZcClose destination) c →
  ∃ c', close (mkAccountLoader (T := T) info) destination c = Ok (tt, c') ∧ zc_represents ZcClosed c'.
Proof.
  intros [Hb Ho Hl Hs] Hok. cbn [close AccountLoader.accounts_close]. unfold AccountLoader.close, close_account. cbn [acc_info].
  set (total := lamports (cell c (key destination)) + lamports (cell c (key info))) in *.
  rewrite (AM_bind_run _ _ _ (lamports (cell c (key destination))) c) by done.
  rewrite (AM_bind_run _ _ _ (lamports (cell c (key info))) c) by done.
  rewrite (AM_bind_run _ _ _ total c)
    by (fold total; rewrite (proj2 (checked_add_Some 64 _ _ total)); [done|split; [done|by destruct Hok]]).
  set (c1 := set_cell c (key destination) (mkAccountState (owner (cell c (key destination))) total (data (cell c (key destination))))).
  rewrite (AM_bind_run _ _ _ tt c1) by done.
  set (c2 := set_cell c1 (key info) (mkAccountState (owner (cell c1 (key info))) 0 (bytes_of c1))).
  rewrite (AM_bind_run _ _ _ tt c2) by done.
  assert (E : bytes_of c2 = bytes_of c ∧ owner (cell c2 (key info)) = owner (cell c (key info))).
  { unfold c2, c1. rewrite cell_set_same. cbn [data owner].
    destruct (decide (key info = key destination)) as [->|]; [by rewrite cell_set_same|by rewrite cell_set_other]. }
  destruct E as [E Eo]. rewrite (AM_bind_run _ _ _ (bytes_of c2) c2) by (unfold try_borrow_mut_data; change (borrows c2) with (borrows c); by rewrite Hb).
  rewrite mark_written by (done || (rewrite E; lia)).
  exists (with_data c2 (CLOSED_ACCOUNT_DISCRIMINATOR ++ drop 8 (bytes_of c2))). split; [done|]. split.
  - done.
  - by rewrite with_data_owner, Eo.
  - rewrite with_data_bytes, length_app, length_drop, E. cbn [length CLOSED_ACCOUNT_DISCRIMINATOR replicate]. lia.
  - by rewrite with_data_bytes.
Qed.

(** ** Every instruction is a step of the machine *)

Lemma zc_program_refines s i c :
  is_writable info = true → zc_represents s c → zc_ok i c →
  match zc_spec s i with
  | Ok (s', out) => ∃ c', zc_program i c = Ok (out, c') ∧ zc_represents s' c'
  | Err e => zc_program i c = Err e
  | Panic => False
  end.
Proof.
  intros Hw Hr Hok. pose proof (zc_try_from s c Hr) as Ht. pose proof (zc_load_init s c Hw Hr) as Hi.
  destruct i as [|f|v|d]; cbn [zc_program].
  - destruct s as [|v|]; cbn [zc_spec]; try by apply AM_bind_Err. rewrite (AM_bind_run _ _ _ _ _ Ht).
    rewrite (AM_bind_run _ _ _ _ _ (zc_load v c Hr)). unfold release at 1, mbind, AM_bind. rewrite set_borrow_same.
    eexists. split; [reflexivity|]. destruct Hr. split; try done. apply set_borrow_same.
  - destruct s as [|v|]; cbn [zc_spec]; try by apply AM_bind_Err. rewrite (AM_bind_run _ _ _ _ _ Ht).
    rewrite (AM_bind_run _ _ _ _ _ (zc_load_mut v c Hw Hr)). eapply zc_store_exit; [done|].
    apply Hok. by destruct (zr_bytes _ _ Hr).
  - assert (Hu : AccountLoader.try_from_unchecked (T := T) program_id info c = Ok (mkAccountLoader info, c)).
    { unfold AccountLoader.try_from_unchecked. by rewrite (AM_bind_run _ _ _ _ _ (owner_checked c (zr_owner _ _ Hr))). }
    rewrite (AM_bind_run _ _ _ _ _ Hu). destruct s as [|v'|]; cbn [zc_spec]; try by apply AM_bind_Err.
    destruct Hi as [v' Hi]. rewrite (AM_bind_run _ _ _ _ _ Hi). by eapply zc_store_exit.
  - destruct s as [|v|]; cbn [zc_spec]; try by apply AM_bind_Err. rewrite (AM_bind_run _ _ _ _ _ Ht).
    destruct (zc_close v c d Hr Hok) as (c' & Hc & Hr'). exists c'. split; [|done].
    by rewrite (AM_bind_run _ _ _ _ _ Hc).
Qed.

(** C29: For a zero-copy account, any history of instructions that read, update,
    initialise and close it leaves the bytes in the state that the machine computes
    from the same instructions: a blank account takes one initialisation, the value
    that is read is the one last stored, and nothing loads or initialises a closed
    account again.  After any history every instruction returns exactly what the
    machine returns, its errors included. *)
Theorem zero_copy_life c ops c' s :
  is_writable info = true → zc_represents s c → zc_life c ops c' →
  zc_represents (foldl zc_next s ops) c' ∧
  ∀ i, zc_ok i c' → fst <$> (zc_program i c' : result Error _) = snd <$> zc_spec (foldl zc_next s ops) i.
Proof.
  intros Hw Hr Hlife. assert (Hr' : zc_represents (foldl zc_next s ops) c').
  { induction Hlife as [|ops c' i _ IH Hok|ops c' c'' _ IH Eo Ed Eb]; [done|..].
    - rewrite foldl_app. cbn [foldl]. pose proof (zc_program_refines _ i c' Hw IH Hok) as Hstep.
      unfold zc_commit, zc_next. destruct (zc_spec _ i) as [[s' out]|e|]; [|by rewrite Hstep|done].
      destruct Hstep as (c'' & -> & ?). done.
    - destruct IH. split; congruence. }
  split; [done|]. intros i Hok. pose proof (zc_program_refines _ i c' Hw Hr' Hok) as Hstep.
  destruct (zc_spec _ i) as [[s' out]|e|]; [|by rewrite Hstep|done]. by destruct Hstep as (c'' & -> & _).
Qed.

End life.

(** A counter is set to 3, raised to 4 and closed; it reads 4 before, and nothing
    after. *)
Lemma zero_copy_life_witness :
  let c := cells_with (replicate 16 0) in
  let info := info_of 7 in
  let raise n := mkCounter ((count n + 1) mod 2 ^ 64) in
  let before := zc_commit info 0 (ZcUpdate raise) (zc_commit info 0 (ZcInit (mkCounter 3)) c) in
  let after := zc_commit info 0 (ZcClose (info_of 8)) before in
  fst <$> (zc_program info 0 ZcRead before : result Error _) = Ok (Some (mkCounter 4)) ∧
  zc_represents info (T := Counter) ZcClosed after ∧
  fst <$> (zc_program info 0 (ZcInit (mkCounter 3)) after : result Error _) =
    Err (Error_from_code AccountDiscriminatorAlreadySet).
Proof.
  intros c info raise before after.
  assert (Hr : zc_represents info (T := Counter) ZcBlank c) by (split; [done|done|vm_compute; lia|done]).
  assert (Hb : zc_life info 0 c [ZcInit (mkCounter 3); ZcUpdate raise] before).
  { apply (zc_life_instruction _ _ _ [_]); [apply (zc_life_instruction _ _ _ []); [constructor|]|].
    - by cbv.
    - intros v _. apply Z.mod_pos_bound. lia. }
  assert (Ha : zc_life info 0 c [ZcInit (mkCounter 3); ZcUpdate raise; ZcClose (info_of 8)] after).
  { apply (zc_life_instruction _ _ _ [_; _]); [exact Hb|]. vm_compute. by split. }
  split; [|split].
  - rewrite (proj2 (zero_copy_life info 0 c _ before ZcBlank eq_refl Hr Hb) ZcRead I). reflexivity.
  - exact (proj1 (zero_copy_life info 0 c _ after ZcBlank eq_refl Hr Ha)).
  - rewrite (proj2 (zero_copy_life info 0 c _ after ZcBlank eq_refl Hr Ha) (ZcInit (mkCounter 3))) by (by cbv).
    reflexivity.
Defined.
