(* ===== verification/AnchorConstraints.v ===== *)
(** * Anchor: the constraints of a field

    [anchor/lang/syn/src/parser/accounts/constraints.rs] and the data of
    [anchor/lang/syn/src/lib.rs]: the keywords of [#[account(...)]] on the field of
    an [Accounts] struct are added one by one to a builder, which checks that they
    fit together and gives the group that code is generated from.  The tokens of
    the attribute and the expressions in it are parsed by the crate [syn]; spans,
    which only place an error, are left out. *)

From stdpp Require Import strings.
From S2P Require Import Prelude.

(** What the source uses of [syn]: the type of expressions, whether one is the
    access to a field, and its tokens as text *)
Class Syn : Type := {
  Expr : Type;
  Expr_eq_dec :: EqDecision Expr;
  is_field_access : Expr → bool;
  to_token_stream : Expr → string;
}.

(** [cfg!(feature = "init-if-needed")] *)
Class Features : Type := { init_if_needed_feature : bool }.

(** The message of an error of the macro *)
Definition ParseError : Type := string.

(** ** Types of fields; the type in the angle brackets is left out *)

Inductive Ty : Type :=
| TyAccountInfo
| TyUncheckedAccount
| TyProgramState
| TyCpiState
| TyProgramAccount
| TyLoader
| TyAccountLoader
| TyCpiAccount
| TySysvar
| TyAccount
| TyProgram
| TySigner
| TySystemAccount
| TyProgramData.

#[export] Instance Ty_eq_dec : EqDecision Ty.
Proof. solve_decision. Defined.

Inductive ConstraintRentExempt : Type := Enforce | Skip.

Section constraints.
Context `{Syn} `{Features}.

(** ** Constraints *)

Record ConstraintHasOne : Type := mkConstraintHasOne { join_target : Expr; has_one_error : option Expr }.
Record ConstraintRaw : Type := mkConstraintRaw { raw : Expr; raw_error : option Expr }.
Record ConstraintOwner : Type := mkConstraintOwner { owner_address : Expr; owner_error : option Expr }.
Record ConstraintAddress : Type := mkConstraintAddress { address : Expr; address_error : option Expr }.

Record ConstraintSeedsGroup : Type := mkConstraintSeedsGroup {
  is_init : bool;
  seeds : list Expr;
  bump : option Expr;          (* [None]: given without a target *)
  program_seed : option Expr;  (* [None]: the current program *)
}.

Inductive InitKind : Type :=
| InitProgram (owner : option Expr)
| InitToken (owner mint : Expr)
| InitAssociatedToken (owner mint : Expr)
| InitMint (owner : Expr) (freeze_authority : option Expr) (decimals : Expr).

Record ConstraintInitGroup : Type := mkConstraintInitGroup {
  if_needed : bool;
  init_seeds : option ConstraintSeedsGroup;
  init_payer : Expr;
  init_space : option Expr;
  kind : InitKind;
}.

Record ConstraintAssociatedToken : Type := mkConstraintAssociatedToken { at_wallet : Expr; at_mint : Expr }.

Record ConstraintTokenAccountGroup : Type := mkConstraintTokenAccountGroup {
  ta_mint : option Expr;
  ta_authority : option Expr;
}.

Record ConstraintTokenMintGroup : Type := mkConstraintTokenMintGroup {
  tm_decimals : option Expr;
  tm_mint_authority : option Expr;
  tm_freeze_authority : option Expr;
}.

(** A single keyword; [Mut] and [Signer] carry the error of the user *)
Inductive ConstraintToken : Type :=
| TokenInit (if_needed : bool)
| TokenZeroed
| TokenMut (error : option Expr)
| TokenSigner (error : option Expr)
| TokenHasOne (c : ConstraintHasOne)
| TokenLiteral (lit : string)
| TokenRaw (c : ConstraintRaw)
| TokenOwner (c : ConstraintOwner)
| TokenRentExempt (c : ConstraintRentExempt)
| TokenSeeds (seeds : list Expr)
| TokenExecutable
| TokenState (program_target : string)
| TokenClose (sol_dest : string)
| TokenPayer (target : Expr)
| TokenSpace (space : Expr)
| TokenAddress (c : ConstraintAddress)
| TokenTokenMint (mint : Expr)
| TokenTokenAuthority (auth : Expr)
| TokenAssociatedTokenMint (mint : Expr)
| TokenAssociatedTokenAuthority (auth : Expr)
| TokenMintAuthority (mint_auth : Expr)
| TokenMintFreezeAuthority (mint_freeze_auth : Expr)
| TokenMintDecimals (decimals : Expr)
| TokenBump (bump : option Expr)
| TokenProgramSeed (program_seed : Expr).

(** All constraints of one field, well formed *)
Record ConstraintGroup : Type := mkConstraintGroup {
  cg_init : option ConstraintInitGroup;
  cg_zeroed : option unit;
  cg_mutable : option (option Expr);
  cg_signer : option (option Expr);
  cg_owner : option ConstraintOwner;
  cg_rent_exempt : option ConstraintRentExempt;
  cg_seeds : option ConstraintSeedsGroup;
  cg_executable : option unit;
  cg_state : option string;
  cg_has_one : list ConstraintHasOne;
  cg_literal : list string;
  cg_raw : list ConstraintRaw;
  cg_close : option string;
  cg_address : option ConstraintAddress;
  cg_associated_token : option ConstraintAssociatedToken;
  cg_token_account : option ConstraintTokenAccountGroup;
  cg_mint : option ConstraintTokenMintGroup;
}.

Definition is_zeroed (self : ConstraintGroup) : bool := bool_decide (is_Some (cg_zeroed self)).
Definition is_mutable (self : ConstraintGroup) : bool := bool_decide (is_Some (cg_mutable self)).
Definition is_signer (self : ConstraintGroup) : bool := bool_decide (is_Some (cg_signer self)).
Definition is_close (self : ConstraintGroup) : bool := bool_decide (is_Some (cg_close self)).

(** ** The builder

    Its optional fields are named by [Slot] and kept in one function from the name
    to the value. *)

Inductive Slot : Type :=
| SInit | SZeroed | SMutable | SSigner | SOwner | SRentExempt | SSeeds | SExecutable | SState
| SPayer | SSpace | SClose | SAddress | STokenMint | STokenAuthority | SAssociatedTokenMint
| SAssociatedTokenAuthority | SMintAuthority | SMintFreezeAuthority | SMintDecimals | SBump
| SProgramSeed.

#[export] Instance Slot_eq_dec : EqDecision Slot.
Proof. solve_decision. Defined.

Definition slot_type (k : Slot) : Type :=
  match k with
  | SInit => bool
  | SZeroed | SExecutable => unit
  | SMutable | SSigner | SBump => option Expr
  | SOwner => ConstraintOwner
  | SRentExempt => ConstraintRentExempt
  | SSeeds => list Expr
  | SState | SClose => string
  | SAddress => ConstraintAddress
  | _ => Expr
  end.

Record ConstraintGroupBuilder : Type := mkConstraintGroupBuilder {
  f_ty : option Ty;
  slot : ∀ k, option (slot_type k);
  has_one : list ConstraintHasOne;
  literal : list string;
  raws : list ConstraintRaw;
}.

Implicit Types (self : ConstraintGroupBuilder).

Definition some self (k : Slot) : bool := bool_decide (is_Some (slot self k)).

(** [self.k.replace(v)] *)
Definition replace (k : Slot) (v : slot_type k) self : ConstraintGroupBuilder :=
  mkConstraintGroupBuilder (f_ty self)
    (λ j, match decide (k = j) with
          | left E => Some (eq_rect k slot_type v j E)
          | right _ => slot self j
          end)
    (has_one self) (literal self) (raws self).

(** [if cond { return Err(ParseError::new(..)) }] *)
Definition refuse_if (cond : bool) (message : ParseError) : result ParseError unit :=
  if cond then Err message else Ok tt.

Fixpoint refuse_all (checks : list (bool * ParseError)) : result ParseError unit :=
  match checks with
  | [] => Ok tt
  | (cond, message) :: checks => _ ← refuse_if cond message; refuse_all checks
  end.

End constraints.

(** ** Adding the tokens one by one *)

Module ConstraintGroupBuilder.
Section builder.
Context `{Syn} `{Features}.
Implicit Types (self : ConstraintGroupBuilder).

Definition new (f_ty : option Ty) : ConstraintGroupBuilder :=
  mkConstraintGroupBuilder f_ty (λ _, None) [] [] [].

(** Set a field, unless one of the checks refuses it. *)
Definition add_to (k : Slot) (v : slot_type k) self (checks : list (bool * ParseError)) :
    result ParseError ConstraintGroupBuilder :=
  _ ← refuse_all checks;
  Ok (replace k v self).

Definition add_init self (c : bool) : result ParseError ConstraintGroupBuilder :=
  add_to SInit c self
    [(some self SInit, "init already provided");
     (some self SZeroed, "zeroed already provided");
     (some self STokenMint, "init must be provided before token mint");
     (some self STokenAuthority, "init must be provided before token authority");
     (some self SMintAuthority, "init must be provided before mint authority");
     (some self SMintFreezeAuthority, "init must be provided before mint freeze authority");
     (some self SMintDecimals, "init must be provided before mint decimals");
     (some self SAssociatedTokenMint, "init must be provided before associated token mint");
     (some self SAssociatedTokenAuthority, "init must be provided before associated token authority")].

Definition add_zeroed self : result ParseError ConstraintGroupBuilder :=
  add_to SZeroed tt self
    [(some self SZeroed, "zeroed already provided"); (some self SInit, "init already provided")].

(** The types that can be closed *)
Definition closable (f_ty : option Ty) : bool :=
  bool_decide (f_ty ∈ [Some TyProgramAccount; Some TyAccount; Some TyLoader; Some TyAccountLoader]).

Definition add_close self (c : string) : result ParseError ConstraintGroupBuilder :=
  add_to SClose c self
    [(negb (closable (f_ty self)), "close must be on an Account, ProgramAccount, or Loader");
     (negb (some self SMutable), "mut must be provided before close");
     (some self SClose, "close already provided")].

Definition add_address self (c : ConstraintAddress) : result ParseError ConstraintGroupBuilder :=
  add_to SAddress c self [(some self SAddress, "address already provided")].

Definition add_token_mint self (c : Expr) : result ParseError ConstraintGroupBuilder :=
  add_to STokenMint c self
    [(some self STokenMint, "token mint already provided");
     (some self SAssociatedTokenMint, "associated token mint already provided")].

Definition add_associated_token_mint self (c : Expr) : result ParseError ConstraintGroupBuilder :=
  add_to SAssociatedTokenMint c self
    [(some self SAssociatedTokenMint, "associated token mint already provided");
     (some self STokenMint, "token mint already provided")].

Definition add_bump self (c : option Expr) : result ParseError ConstraintGroupBuilder :=
  add_to SBump c self
    [(some self SBump, "bump already provided");
     (negb (some self SSeeds), "seeds must be provided before bump")].

Definition add_program_seed self (c : Expr) : result ParseError ConstraintGroupBuilder :=
  add_to SProgramSeed c self
    [(some self SProgramSeed, "seeds::program already provided");
     (negb (some self SSeeds), "seeds must be provided before seeds::program");
     (bool_decide (slot self SInit = Some true), "seeds::program cannot be used with init_if_needed");
     (some self SInit, "seeds::program cannot be used with init")].

Definition add_token_authority self (c : Expr) : result ParseError ConstraintGroupBuilder :=
  add_to STokenAuthority c self [(some self STokenAuthority, "token authority already provided")].

Definition add_associated_token_authority self (c : Expr) : result ParseError ConstraintGroupBuilder :=
  add_to SAssociatedTokenAuthority c self
    [(some self SAssociatedTokenAuthority, "associated token authority already provided");
     (some self STokenAuthority, "token authority already provided")].

Definition add_mint_authority self (c : Expr) : result ParseError ConstraintGroupBuilder :=
  add_to SMintAuthority c self [(some self SMintAuthority, "mint authority already provided")].

Definition add_mint_freeze_authority self (c : Expr) : result ParseError ConstraintGroupBuilder :=
  add_to SMintFreezeAuthority c self
    [(some self SMintFreezeAuthority, "mint freeze_authority already provided")].

Definition add_mint_decimals self (c : Expr) : result ParseError ConstraintGroupBuilder :=
  add_to SMintDecimals c self [(some self SMintDecimals, "mint decimals already provided")].

Definition add_mut self (c : option Expr) : result ParseError ConstraintGroupBuilder :=
  add_to SMutable c self [(some self SMutable, "mut already provided")].

Definition add_signer self (c : option Expr) : result ParseError ConstraintGroupBuilder :=
  add_to SSigner c self [(some self SSigner, "signer already provided")].

Definition add_has_one self (c : ConstraintHasOne) : result ParseError ConstraintGroupBuilder :=
  if (0 <? length (filter (λ item, join_target item = join_target c) (has_one self)))%nat
  then Err "has_one target already provided"
  else Ok (mkConstraintGroupBuilder (f_ty self) (slot self) (has_one self ++ [c]) (literal self) (raws self)).

Definition add_literal self (c : string) : result ParseError ConstraintGroupBuilder :=
  Ok (mkConstraintGroupBuilder (f_ty self) (slot self) (has_one self) (literal self ++ [c]) (raws self)).

Definition add_raw self (c : ConstraintRaw) : result ParseError ConstraintGroupBuilder :=
  Ok (mkConstraintGroupBuilder (f_ty self) (slot self) (has_one self) (literal self) (raws self ++ [c])).

Definition add_owner self (c : ConstraintOwner) : result ParseError ConstraintGroupBuilder :=
  add_to SOwner c self [(some self SOwner, "owner already provided")].

Definition add_rent_exempt self (c : ConstraintRentExempt) : result ParseError ConstraintGroupBuilder :=
  add_to SRentExempt c self [(some self SRentExempt, "rent already provided")].

Definition add_seeds self (c : list Expr) : result ParseError ConstraintGroupBuilder :=
  add_to SSeeds c self [(some self SSeeds, "seeds already provided")].

Definition add_executable self : result ParseError ConstraintGroupBuilder :=
  add_to SExecutable tt self [(some self SExecutable, "executable already provided")].

Definition add_state self (c : string) : result ParseError ConstraintGroupBuilder :=
  add_to SState c self [(some self SState, "state already provided")].

Definition add_payer self (c : Expr) : result ParseError ConstraintGroupBuilder :=
  add_to SPayer c self
    [(negb (some self SInit), "init must be provided before payer");
     (some self SPayer, "payer already provided")].

Definition add_space self (c : Expr) : result ParseError ConstraintGroupBuilder :=
  add_to SSpace c self
    [(negb (some self SInit), "init must be provided before space");
     (some self SSpace, "space already provided")].

Definition add self (c : ConstraintToken) : result ParseError ConstraintGroupBuilder :=
  match c with
  | TokenInit c => add_init self c
  | TokenZeroed => add_zeroed self
  | TokenMut c => add_mut self c
  | TokenSigner c => add_signer self c
  | TokenHasOne c => add_has_one self c
  | TokenLiteral c => add_literal self c
  | TokenRaw c => add_raw self c
  | TokenOwner c => add_owner self c
  | TokenRentExempt c => add_rent_exempt self c
  | TokenSeeds c => add_seeds self c
  | TokenExecutable => add_executable self
  | TokenState c => add_state self c
  | TokenPayer c => add_payer self c
  | TokenSpace c => add_space self c
  | TokenClose c => add_close self c
  | TokenAddress c => add_address self c
  | TokenTokenAuthority c => add_token_authority self c
  | TokenTokenMint c => add_token_mint self c
  | TokenAssociatedTokenAuthority c => add_associated_token_authority self c
  | TokenAssociatedTokenMint c => add_associated_token_mint self c
  | TokenMintAuthority c => add_mint_authority self c
  | TokenMintFreezeAuthority c => add_mint_freeze_authority self c
  | TokenMintDecimals c => add_mint_decimals self c
  | TokenBump c => add_bump self c
  | TokenProgramSeed c => add_program_seed self c
  end.

(** ** Building the group *)

(** [None => self.mutable.replace(..)], or the error if [mut] was given *)
Definition make_mutable self (message : ParseError) : result ParseError ConstraintGroupBuilder :=
  _ ← refuse_if (some self SMutable) message;
  Ok (replace SMutable None self).

(** Rent exempt if not explicitly skipped. *)
Definition enforce_rent self : ConstraintGroupBuilder :=
  if some self SRentExempt then self else replace SRentExempt Enforce self.

Definition build_init self (init : bool) : result ParseError ConstraintGroupBuilder :=
  _ ← refuse_if (negb init_if_needed_feature && init)
        "init_if_needed requires that anchor-lang be imported with the init-if-needed cargo feature enabled. Carefully read the init_if_needed docs before using this feature to make sure you know how to protect yourself against re-initialization attacks.";
  self ← make_mutable self "mut cannot be provided with init";
  let self := enforce_rent self in
  _ ← refuse_if (negb (some self SPayer)) "payer must be provided when initializing an account";
  let self := if some self SSigner || some self SSeeds || some self SAssociatedTokenMint then self
              else replace SSigner None self in
  _ ← refuse_all
        [(bool_decide (is_Some (mjoin (slot self SBump))),
          "bump targets should not be provided with init. Please use bump without a target.");
         (some self STokenMint && negb (some self STokenAuthority),
          "when initializing, token authority must be provided if token mint is");
         (some self STokenAuthority && negb (some self STokenMint),
          "when initializing, token mint must be provided if token authority is");
         (some self SMintDecimals && negb (some self SMintAuthority),
          "when initializing, mint authority must be provided if mint decimals is");
         (some self SMintAuthority && negb (some self SMintDecimals),
          "when initializing, mint decimals must be provided if mint authority is")];
  Ok self.

Definition build_zeroed self : result ParseError ConstraintGroupBuilder :=
  self ← make_mutable self "mut cannot be provided with zeroed";
  Ok (enforce_rent self).

Definition check_seeds self : result ParseError unit :=
  if some self SSeeds then
    refuse_all
      [(some self SInit && negb (some self SPayer),
        "payer must be provided when creating a program derived address");
       (negb (some self SBump), "bump must be provided with seeds")]
  else Ok tt.

Definition check_space self : result ParseError unit :=
  if some self SInit then
    let initializing_token_program_acc :=
      some self STokenMint || some self SMintAuthority || some self STokenAuthority
        || some self SAssociatedTokenAuthority in
    match some self SSpace, initializing_token_program_acc with
    | true, true => Err "space is not required for initializing an spl account"
    | false, false => Err "space must be provided with init"
    | _, _ => Ok tt
    end
  else Ok tt.

Definition seeds_group self : result ParseError (option ConstraintSeedsGroup) :=
  match slot self SSeeds with
  | None => Ok None
  | Some seeds =>
      match slot self SBump with
      | None => Panic
      | Some bump => Ok (Some (mkConstraintSeedsGroup (some self SInit) seeds bump (slot self SProgramSeed)))
      end
  end.

Definition associated_token_group self : result ParseError (option ConstraintAssociatedToken) :=
  match slot self SAssociatedTokenMint, slot self SAssociatedTokenAuthority with
  | Some mint, Some auth => Ok (Some (mkConstraintAssociatedToken auth mint))
  | Some _, None => Err "authority must be provided to specify an associated token program derived address"
  | None, Some _ => Err "mint must be provided to specify an associated token program derived address"
  | None, None => Ok None
  end.

Definition token_account_group self : option ConstraintTokenAccountGroup :=
  match slot self STokenMint, slot self STokenAuthority with
  | None, None => None
  | mint, authority => Some (mkConstraintTokenAccountGroup mint authority)
  end.

Definition mint_group self : option ConstraintTokenMintGroup :=
  match slot self SMintDecimals, slot self SMintAuthority, slot self SMintFreezeAuthority with
  | None, None, None => None
  | decimals, mint_authority, freeze_authority =>
      Some (mkConstraintTokenMintGroup decimals mint_authority freeze_authority)
  end.

Definition init_kind self (associated_token : option ConstraintAssociatedToken) : result ParseError InitKind :=
  match slot self STokenMint with
  | Some mint =>
      match slot self STokenAuthority with
      | Some a => Ok (InitToken a mint)
      | None => Err "authority must be provided to initialize a token program derived address"
      end
  | None =>
      match associated_token with
      | Some at_ => Ok (InitAssociatedToken (at_wallet at_) (at_mint at_))
      | None =>
          match slot self SMintDecimals with
          | Some decimals =>
              match slot self SMintAuthority with
              | Some a => Ok (InitMint a (slot self SMintFreezeAuthority) decimals)
              | None => Err "authority must be provided to initialize a mint program derived address"
              end
          | None => Ok (InitProgram (owner_address <$> slot self SOwner))
          end
      end
  end.

Definition init_group self (seeds : option ConstraintSeedsGroup)
    (associated_token : option ConstraintAssociatedToken) : result ParseError (option ConstraintInitGroup) :=
  match slot self SInit with
  | None => Ok None
  | Some if_needed =>
      match slot self SPayer with
      | None => Panic
      | Some payer =>
          kind ← init_kind self associated_token;
          Ok (Some (mkConstraintInitGroup if_needed seeds payer (slot self SSpace) kind))
      end
  end.

Definition group self : result ParseError ConstraintGroup :=
  let is_init := some self SInit in
  seeds ← seeds_group self;
  associated_token ← associated_token_group self;
  _ ← refuse_if (bool_decide (is_Some associated_token) && bool_decide (is_Some seeds))
        "'associated_token' constraints cannot be used with the 'seeds' constraint";
  init ← init_group self seeds associated_token;
  Ok {|
    cg_init := init;
    cg_zeroed := slot self SZeroed;
    cg_mutable := slot self SMutable;
    cg_signer := slot self SSigner;
    cg_owner := slot self SOwner;
    cg_rent_exempt := slot self SRentExempt;
    cg_seeds := seeds;
    cg_executable := slot self SExecutable;
    cg_state := slot self SState;
    cg_has_one := has_one self;
    cg_literal := literal self;
    cg_raw := raws self;
    cg_close := slot self SClose;
    cg_address := slot self SAddress;
    cg_associated_token := if is_init then None else associated_token;
    cg_token_account := if is_init then None else token_account_group self;
    cg_mint := if is_init then None else mint_group self;
  |}.

(** What [init] and [zero] imply *)
Definition complete self : result ParseError ConstraintGroupBuilder :=
  self ← (match slot self SInit with Some init => build_init self init | None => Ok self end);
  if some self SZeroed then build_zeroed self else Ok self.

Definition build self : result ParseError ConstraintGroup :=
  self ← complete self;
  _ ← check_seeds self;
  _ ← check_space self;
  group self.

Fixpoint add_all self (tokens : list ConstraintToken) : result ParseError ConstraintGroupBuilder :=
  match tokens with
  | [] => Ok self
  | c :: tokens => self ← add self c; add_all self tokens
  end.

End builder.
End ConstraintGroupBuilder.

Section parse.
Context `{Syn} `{Features}.

(** [parse]: all tokens of the attributes of the field *)
Definition parse_constraints (f_ty : option Ty) (tokens : list ConstraintToken) : result ParseError ConstraintGroup :=
  builder ← ConstraintGroupBuilder.add_all (ConstraintGroupBuilder.new f_ty) tokens;
  ConstraintGroupBuilder.build builder.

End parse.
