(* ===== verification/AnchorConstraintFacts.v ===== *)
(** * Anchor: what an accepted group of constraints guarantees

    The rules that the builder checks, partly when a keyword is added and partly
    when the group is built, together: no group that is accepted breaks one, and
    the builder never reaches its own panics.  Two sets of keywords show where the
    rules depend on the order or are not complete. *)

From stdpp Require Import strings.
From S2P Require Import Prelude AnchorConstraints.

Section facts.
Context `{Syn} `{Features}.
Implicit Types (b : ConstraintGroupBuilder) (g : ConstraintGroup).

(** ** Fields of the builder *)

Lemma slot_replace_eq k v b : slot (replace k v b) k = Some v.
Proof.
  cbn. destruct (decide (k = k)) as [E|]; [|done]. f_equal.
  rewrite (proof_irrel E eq_refl). done.
Qed.

Lemma slot_replace_ne k v b j : k ≠ j → slot (replace k v b) j = slot b j.
Proof. intros. cbn. by destruct (decide (k = j)). Qed.

Lemma some_replace k v b j : some (replace k v b) j = bool_decide (k = j) || some b j.
Proof.
  unfold some. destruct (decide (k = j)) as [<-|Hne].
  - by rewrite slot_replace_eq, (bool_decide_true (k = k)), bool_decide_true by done.
  - by rewrite slot_replace_ne, (bool_decide_false (k = j)) by done.
Qed.

Lemma some_slot b k : some b k = true ↔ is_Some (slot b k).
Proof. unfold some. by rewrite bool_decide_eq_true. Qed.

Lemma not_some_slot b k : some b k = false ↔ slot b k = None.
Proof. unfold some. by rewrite bool_decide_eq_false, eq_None_not_Some. Qed.

Lemma refuse_all_Ok checks u : refuse_all checks = Ok u ↔ Forall (λ p, p.1 = false) checks.
Proof.
  destruct u. induction checks as [|[[] m] checks IH]; cbn; [by split|..].
  - split; [done|]. by intros [? _]%Forall_cons.
  - rewrite IH, Forall_cons. naive_solver.
Qed.

Lemma refuse_all_cases checks :
  refuse_all checks = Ok tt ∨ ∃ m, refuse_all checks = Err m ∧ m ∈ checks.*2.
Proof.
  induction checks as [|[[] m] checks IH]; cbn; [by left|..].
  - right. exists m. split; [done|]. by left.
  - destruct IH as [->|(m' & -> & ?)]; [by left|]. right. exists m'. split; [done|]. by right.
Qed.

(** ** What holds while keywords are added *)

Record builder_ok b : Prop := {
  bo_zeroed : some b SInit = true → some b SZeroed = false;
  bo_close : some b SClose = true → some b SMutable = true ∧ ConstraintGroupBuilder.closable (f_ty b) = true;
  bo_bump : some b SBump = true → some b SSeeds = true;
  bo_program_seed : some b SProgramSeed = true → some b SSeeds = true;
  bo_payer : some b SPayer = true → some b SInit = true;
  bo_space : some b SSpace = true → some b SInit = true;
  bo_mints : some b STokenMint = true → some b SAssociatedTokenMint = false;
  bo_has_one : NoDup (join_target <$> has_one b);
}.

Lemma new_ok f_ty : builder_ok (ConstraintGroupBuilder.new f_ty).
Proof. split; try done. constructor. Qed.

(** Setting a field keeps the rules if its checks passed. *)
Lemma add_to_Ok k v b checks b' :
  ConstraintGroupBuilder.add_to k v b checks = Ok b' ↔ Forall (λ p, p.1 = false) checks ∧ b' = replace k v b.
Proof.
  unfold ConstraintGroupBuilder.add_to. rewrite bind_Ok. setoid_rewrite refuse_all_Ok.
  split; [intros (? & ? & [= <-]); done|intros [? ->]; by exists tt].
Qed.

Lemma has_one_new b c :
  (0 <? length (filter (λ item, join_target item = join_target c) (has_one b)))%nat = false →
  join_target c ∉ join_target <$> has_one b.
Proof.
  intros Hc%Nat.ltb_ge (item & Hj & Hi)%list_elem_of_fmap.
  assert (Hf : item ∈ filter (λ item, join_target item = join_target c) (has_one b))
    by (by apply list_elem_of_filter).
  assert (filter (λ item, join_target item = join_target c) (has_one b) = []) as E
    by (apply nil_length_inv; lia).
  rewrite E in Hf. by apply not_elem_of_nil in Hf.
Qed.

Ltac unfold_add :=
  unfold ConstraintGroupBuilder.add_init, ConstraintGroupBuilder.add_zeroed, ConstraintGroupBuilder.add_mut,
    ConstraintGroupBuilder.add_signer, ConstraintGroupBuilder.add_owner, ConstraintGroupBuilder.add_rent_exempt,
    ConstraintGroupBuilder.add_seeds, ConstraintGroupBuilder.add_executable, ConstraintGroupBuilder.add_state,
    ConstraintGroupBuilder.add_payer, ConstraintGroupBuilder.add_space, ConstraintGroupBuilder.add_close,
    ConstraintGroupBuilder.add_address, ConstraintGroupBuilder.add_token_authority,
    ConstraintGroupBuilder.add_token_mint, ConstraintGroupBuilder.add_associated_token_authority,
    ConstraintGroupBuilder.add_associated_token_mint, ConstraintGroupBuilder.add_mint_authority,
    ConstraintGroupBuilder.add_mint_freeze_authority, ConstraintGroupBuilder.add_mint_decimals,
    ConstraintGroupBuilder.add_bump, ConstraintGroupBuilder.add_program_seed in *.

(** The rules on the fields, as one proposition on booleans *)
Ltac by_cases_on_fields :=
  repeat match goal with
  | H : builder_ok _ |- _ => destruct H
  | H : Forall _ (_ :: _) |- _ => apply Forall_cons in H as [? H]
  end; cbn [fst] in *;
  split; rewrite ?some_replace; cbn [f_ty has_one replace]; try done;
  repeat match goal with |- context [bool_decide (?k = ?j)] =>
    first [rewrite (bool_decide_true (k = j)) by done | rewrite (bool_decide_false (k = j)) by done] end;
  cbn [orb]; rewrite ?negb_false_iff in *; intuition congruence.

Lemma add_ok b c b' : builder_ok b → ConstraintGroupBuilder.add b c = Ok b' → builder_ok b'.
Proof.
  intros Hb. destruct c; cbn [ConstraintGroupBuilder.add]; unfold_add;
    try (intros [Hc ->]%add_to_Ok; by_cases_on_fields).
  - unfold ConstraintGroupBuilder.add_has_one. destruct (_ <? _)%nat eqn:E; [done|].
    intros [= <-]. destruct Hb. split; try done. cbn. rewrite fmap_app. apply NoDup_app. split; [done|].
    split; [|apply NoDup_singleton]. intros x Hx ->%list_elem_of_singleton. by eapply has_one_new.
  - intros [= <-]. by destruct Hb.
  - intros [= <-]. by destruct Hb.
Qed.

Lemma add_all_ok b tokens b' :
  builder_ok b → ConstraintGroupBuilder.add_all b tokens = Ok b' → builder_ok b' ∧ f_ty b' = f_ty b.
Proof.
  revert b. induction tokens as [|c tokens IH]; intros b Hb; cbn; [by intros [= <-]|].
  intros (b1 & Hadd & Hall)%bind_Ok. destruct (IH b1) as [? E]; [by eapply add_ok|done|].
  split; [done|]. rewrite E. clear - Hadd. destruct c; cbn [ConstraintGroupBuilder.add] in Hadd; unfold_add;
    try (apply add_to_Ok in Hadd as [_ ->]; done); try (by injection Hadd as <-).
  unfold ConstraintGroupBuilder.add_has_one in Hadd. case_match; [done|]. by injection Hadd as <-.
Qed.

(** ** Building *)

(** The builder after the steps that complete it *)
Definition mutable_and_rent b : ConstraintGroupBuilder :=
  ConstraintGroupBuilder.enforce_rent (replace SMutable None b).

Definition with_signer b : ConstraintGroupBuilder :=
  if some b SSigner || some b SSeeds || some b SAssociatedTokenMint then b else replace SSigner None b.

(** Those steps set nothing else. *)
Definition same_but_completed b b1 : Prop :=
  f_ty b1 = f_ty b ∧ has_one b1 = has_one b ∧
  ∀ k, k ∉ [SMutable; SRentExempt; SSigner] → slot b1 k = slot b k.

Lemma mutable_and_rent_same b : same_but_completed b (mutable_and_rent b).
Proof.
  unfold mutable_and_rent, ConstraintGroupBuilder.enforce_rent. case_match; (split; [done|split; [done|]]);
    intros k Hk; rewrite ?slot_replace_ne; try done; set_solver.
Qed.

Lemma with_signer_same b : same_but_completed b (with_signer b).
Proof.
  unfold with_signer. case_match; (split; [done|split; [done|]]); intros k Hk; rewrite ?slot_replace_ne; try done.
  set_solver.
Qed.

Lemma same_trans b b1 b2 : same_but_completed b b1 → same_but_completed b1 b2 → same_but_completed b b2.
Proof.
  intros (F1 & O1 & S1) (F2 & O2 & S2). split; [congruence|]. split; [congruence|].
  intros k Hk. by rewrite S2, S1.
Qed.

Lemma same_some b b1 k :
  same_but_completed b b1 → k ∉ [SMutable; SRentExempt; SSigner] → some b1 k = some b k.
Proof. intros (_ & _ & S) Hk. unfold some. by rewrite S. Qed.

Lemma mutable_and_rent_set b :
  slot (mutable_and_rent b) SMutable = Some None ∧ some (mutable_and_rent b) SRentExempt = true.
Proof.
  unfold mutable_and_rent, ConstraintGroupBuilder.enforce_rent. destruct (some (replace SMutable None b) SRentExempt) eqn:E.
  - by rewrite slot_replace_eq, E.
  - rewrite slot_replace_ne, slot_replace_eq by done. split; [done|].
    rewrite some_replace, bool_decide_true by done. done.
Qed.

(** What is refused besides the rules while adding *)
Record init_checked (init : bool) b : Prop := {
  ic_feature : init = true → init_if_needed_feature = true;
  ic_mutable : some b SMutable = false;
  ic_payer : some b SPayer = true;
  ic_bump : mjoin (slot b SBump) = None;
  ic_token : some b STokenMint = some b STokenAuthority;
  ic_mint : some b SMintDecimals = some b SMintAuthority;
}.

Lemma build_init_Ok init b b1 :
  ConstraintGroupBuilder.build_init b init = Ok b1 →
  init_checked init b ∧ b1 = with_signer (mutable_and_rent b).
Proof.
  unfold ConstraintGroupBuilder.build_init, ConstraintGroupBuilder.make_mutable.
  intros ([] & Hf & (b2 & (u & Hm & [= <-])%bind_Ok & (v & Hp & (w & Hc & [= <-])%bind_Ok)%bind_Ok)%bind_Ok)%bind_Ok.
  fold (mutable_and_rent b) in *. fold (with_signer (mutable_and_rent b)) in *. split; [|done].
  pose proof (same_trans _ _ _ (mutable_and_rent_same b) (with_signer_same (mutable_and_rent b))) as Hs.
  pose proof (mutable_and_rent_same b) as Hs1.
  apply refuse_all_Ok in Hc. rewrite !(same_some _ _ _ Hs) in Hc by set_solver.
  rewrite (proj2 (proj2 Hs) SBump) in Hc by set_solver. rewrite (same_some _ _ _ Hs1) in Hp by set_solver.
  repeat (apply Forall_cons in Hc as [? Hc]). cbn [fst] in *.
  unfold refuse_if in *. repeat case_match; try done. split.
  - intros ->. by destruct init_if_needed_feature.
  - done.
  - by destruct (some b SPayer).
  - by rewrite bool_decide_eq_false, <- eq_None_not_Some in H1.
  - by destruct (some b STokenMint), (some b STokenAuthority).
  - by destruct (some b SMintDecimals), (some b SMintAuthority).
Qed.

(** The builder when the group is taken from it *)
Definition completed b b1 : Prop :=
  match slot b SInit with
  | Some init => init_checked init b ∧ b1 = with_signer (mutable_and_rent b)
  | None => if some b SZeroed then some b SMutable = false ∧ b1 = mutable_and_rent b else b1 = b
  end.

Lemma completed_same b b1 : completed b b1 → same_but_completed b b1.
Proof.
  unfold completed. destruct (slot b SInit).
  - intros [_ ->]. eapply same_trans; [apply mutable_and_rent_same|apply with_signer_same].
  - case_match; [intros [_ ->]; apply mutable_and_rent_same|intros ->; by split_and!].
Qed.

Record buildable b1 : Prop := {
  bb_bump : some b1 SSeeds = true → some b1 SBump = true;
  bb_payer : some b1 SInit = true → some b1 SPayer = true;
  bb_space : some b1 SInit = true →
    some b1 SSpace = negb (some b1 STokenMint || some b1 SMintAuthority || some b1 STokenAuthority
                             || some b1 SAssociatedTokenAuthority);
}.

Lemma check_seeds_Ok b1 u : ConstraintGroupBuilder.check_seeds b1 = Ok u → some b1 SSeeds = true → some b1 SBump = true.
Proof.
  unfold ConstraintGroupBuilder.check_seeds. intros Hc Hs. rewrite Hs in Hc. apply refuse_all_Ok in Hc.
  repeat (apply Forall_cons in Hc as [? Hc]). cbn [fst] in *. by apply negb_false_iff.
Qed.

Lemma check_space_Ok b1 u :
  ConstraintGroupBuilder.check_space b1 = Ok u → some b1 SInit = true →
  some b1 SSpace = negb (some b1 STokenMint || some b1 SMintAuthority || some b1 STokenAuthority
                           || some b1 SAssociatedTokenAuthority).
Proof.
  unfold ConstraintGroupBuilder.check_space. intros Hc Hi. rewrite Hi in Hc.
  by destruct (some b1 SSpace), (some b1 STokenMint || _ || _ || _).
Qed.

Lemma refuse_if_never cond m : refuse_if cond m ≠ Panic.
Proof. by destruct cond. Qed.

Lemma refuse_all_never checks : refuse_all checks ≠ Panic.
Proof. by destruct (refuse_all_cases checks) as [->|(? & -> & _)]. Qed.

(** A step that cannot panic, before what remains *)
Lemma bind_not_panic {A B} (m : result ParseError A) (f : A → result ParseError B) :
  m ≠ Panic → (∀ a, m = Ok a → f a ≠ Panic) → (m ≫= f) ≠ Panic.
Proof. destruct m; cbn; naive_solver. Qed.

Ltac never_panics :=
  repeat first [done | apply refuse_if_never | apply refuse_all_never | apply bind_not_panic; [|intros ? _]].

Lemma build_init_never init b : ConstraintGroupBuilder.build_init b init ≠ Panic.
Proof. unfold ConstraintGroupBuilder.build_init, ConstraintGroupBuilder.make_mutable. never_panics. Qed.

Lemma build_zeroed_never b : ConstraintGroupBuilder.build_zeroed b ≠ Panic.
Proof. unfold ConstraintGroupBuilder.build_zeroed, ConstraintGroupBuilder.make_mutable. never_panics. Qed.

Lemma check_seeds_never b : ConstraintGroupBuilder.check_seeds b ≠ Panic.
Proof. unfold ConstraintGroupBuilder.check_seeds. case_match; never_panics. Qed.

Lemma check_space_never b : ConstraintGroupBuilder.check_space b ≠ Panic.
Proof. unfold ConstraintGroupBuilder.check_space. by repeat case_match. Qed.

Lemma complete_never b : ConstraintGroupBuilder.complete b ≠ Panic.
Proof.
  unfold ConstraintGroupBuilder.complete. apply bind_not_panic; [case_match; [apply build_init_never|done]|].
  intros b1 _. case_match; [apply build_zeroed_never|done].
Qed.

Lemma complete_Ok b b1 : builder_ok b → ConstraintGroupBuilder.complete b = Ok b1 → completed b b1.
Proof.
  unfold ConstraintGroupBuilder.complete, completed. intros Hb (b2 & H1 & H2)%bind_Ok.
  destruct (slot b SInit) as [init|] eqn:E.
  - apply build_init_Ok in H1 as [Hc ->]. split; [done|].
    assert (some b SZeroed = false) as Hz by (apply (bo_zeroed b Hb), some_slot; by rewrite E).
    rewrite <- (same_some b (with_signer (mutable_and_rent b))) in Hz; [by rewrite Hz in H2; injection H2|..].
    + eapply same_trans; [apply mutable_and_rent_same|apply with_signer_same].
    + set_solver.
  - injection H1 as <-. destruct (some b SZeroed); [|by injection H2].
    unfold ConstraintGroupBuilder.build_zeroed, ConstraintGroupBuilder.make_mutable in H2.
    apply bind_Ok in H2 as (b2 & (u & Hm & [= <-])%bind_Ok & [= <-]). split; [|done].
    by destruct (some b SMutable).
Qed.

(** After the checks, everything that is unwrapped is there. *)
Lemma complete_buildable b b1 u v :
  builder_ok b → completed b b1 → ConstraintGroupBuilder.check_seeds b1 = Ok u →
  ConstraintGroupBuilder.check_space b1 = Ok v → buildable b1.
Proof.
  intros Hb Hc Hs Hp. split; [by eapply check_seeds_Ok| |by eapply check_space_Ok].
  pose proof (completed_same _ _ Hc) as Hsame. rewrite !(same_some _ _ _ Hsame) by set_solver.
  intros [init Hi]%some_slot. unfold completed in Hc. rewrite Hi in Hc. apply (ic_payer _ _ (proj1 Hc)).
Qed.

Lemma build_Ok b g :
  builder_ok b → ConstraintGroupBuilder.build b = Ok g →
  ∃ b1, completed b b1 ∧ buildable b1 ∧ ConstraintGroupBuilder.group b1 = Ok g.
Proof.
  intros Hb (b1 & Hc%complete_Ok & (u & Hs & (v & Hp & Hg)%bind_Ok)%bind_Ok)%bind_Ok; [|done].
  exists b1. split; [done|]. split; [|done]. by eapply complete_buildable.
Qed.

Lemma group_never b1 : buildable b1 → ConstraintGroupBuilder.group b1 ≠ Panic.
Proof.
  intros [Hbump Hpayer _]. unfold ConstraintGroupBuilder.group. apply bind_not_panic; [|intros seeds _;
    apply bind_not_panic; [|intros at_ _; apply bind_not_panic; [apply refuse_if_never|intros _ _;
    apply bind_not_panic; [|done]]]].
  - unfold ConstraintGroupBuilder.seeds_group. rewrite !some_slot in Hbump. repeat case_match; try done.
    by destruct Hbump.
  - unfold ConstraintGroupBuilder.associated_token_group. by repeat case_match.
  - unfold ConstraintGroupBuilder.init_group. rewrite !some_slot in Hpayer. repeat case_match; try done; [|by destruct Hpayer].
    apply bind_not_panic; [|done]. unfold ConstraintGroupBuilder.init_kind. by repeat case_match.
Qed.

Lemma build_never b : builder_ok b → ConstraintGroupBuilder.build b ≠ Panic.
Proof.
  intros Hb. unfold ConstraintGroupBuilder.build. apply bind_not_panic; [apply complete_never|intros b1 Hc].
  apply bind_not_panic; [apply check_seeds_never|intros u Hs].
  apply bind_not_panic; [apply check_space_never|intros v Hp].
  apply group_never. by eapply complete_buildable; [|apply complete_Ok|..].
Qed.

(** ** The group *)

Lemma group_Ok b1 g :
  ConstraintGroupBuilder.group b1 = Ok g →
  ∃ at_, ConstraintGroupBuilder.seeds_group b1 = Ok (cg_seeds g) ∧
    ConstraintGroupBuilder.associated_token_group b1 = Ok at_ ∧
    (is_Some at_ → cg_seeds g = None) ∧
    ConstraintGroupBuilder.init_group b1 (cg_seeds g) at_ = Ok (cg_init g) ∧
    cg_zeroed g = slot b1 SZeroed ∧ cg_mutable g = slot b1 SMutable ∧ cg_signer g = slot b1 SSigner ∧
    cg_rent_exempt g = slot b1 SRentExempt ∧ cg_close g = slot b1 SClose ∧ cg_has_one g = has_one b1 ∧
    cg_owner g = slot b1 SOwner ∧ cg_address g = slot b1 SAddress ∧ cg_state g = slot b1 SState ∧
    cg_executable g = slot b1 SExecutable ∧ cg_literal g = literal b1 ∧ cg_raw g = raws b1 ∧
    cg_associated_token g = (if some b1 SInit then None else at_) ∧
    (some b1 SInit = true → cg_token_account g = None ∧ cg_mint g = None).
Proof.
  unfold ConstraintGroupBuilder.group. intros (seeds & Hs & (at_ & Ha & (u & Hr & (init & Hi & [= <-])%bind_Ok)%bind_Ok)%bind_Ok)%bind_Ok.
  exists at_. cbn. split_and!; try done.
  - intros [x ->]. destruct seeds; [|done]. done.
  - by intros ->.
Qed.

(** ** No keyword is lost *)

(** The field of the builder that a keyword sets *)
Definition token_slot (c : ConstraintToken) : option (sigT slot_type) :=
  match c with
  | TokenInit c => Some (existT SInit c)
  | TokenZeroed => Some (existT SZeroed tt)
  | TokenMut c => Some (existT SMutable c)
  | TokenSigner c => Some (existT SSigner c)
  | TokenOwner c => Some (existT SOwner c)
  | TokenRentExempt c => Some (existT SRentExempt c)
  | TokenSeeds c => Some (existT SSeeds c)
  | TokenExecutable => Some (existT SExecutable tt)
  | TokenState c => Some (existT SState c)
  | TokenPayer c => Some (existT SPayer c)
  | TokenSpace c => Some (existT SSpace c)
  | TokenClose c => Some (existT SClose c)
  | TokenAddress c => Some (existT SAddress c)
  | TokenTokenAuthority c => Some (existT STokenAuthority c)
  | TokenTokenMint c => Some (existT STokenMint c)
  | TokenAssociatedTokenAuthority c => Some (existT SAssociatedTokenAuthority c)
  | TokenAssociatedTokenMint c => Some (existT SAssociatedTokenMint c)
  | TokenMintAuthority c => Some (existT SMintAuthority c)
  | TokenMintFreezeAuthority c => Some (existT SMintFreezeAuthority c)
  | TokenMintDecimals c => Some (existT SMintDecimals c)
  | TokenBump c => Some (existT SBump c)
  | TokenProgramSeed c => Some (existT SProgramSeed c)
  | TokenHasOne _ | TokenLiteral _ | TokenRaw _ => None
  end.

(** What a keyword leaves in the builder *)
Definition held b (c : ConstraintToken) : Prop :=
  match c with
  | TokenHasOne c => c ∈ has_one b
  | TokenLiteral c => c ∈ literal b
  | TokenRaw c => c ∈ raws b
  | c => match token_slot c with Some (existT k v) => slot b k = Some v | None => True end
  end.

(** Every field is set at most once. *)
Lemma add_spec b c b' :
  ConstraintGroupBuilder.add b c = Ok b' →
  match token_slot c with
  | Some (existT k v) => slot b k = None ∧ b' = replace k v b
  | None => slot b' = slot b
  end ∧ has_one b ⊆ has_one b' ∧ literal b ⊆ literal b' ∧ raws b ⊆ raws b' ∧ held b' c.
Proof.
  destruct c; cbn [ConstraintGroupBuilder.add token_slot]; unfold_add;
    try (intros [Hc ->]%add_to_Ok; split_and!; try done; try apply slot_replace_eq;
         repeat (apply Forall_cons in Hc as [? Hc]); cbn [fst] in *; by apply not_some_slot).
  - unfold ConstraintGroupBuilder.add_has_one. destruct (_ <? _)%nat; [done|]. intros [= <-]. cbn. set_solver.
  - intros [= <-]. cbn. set_solver.
  - intros [= <-]. cbn. set_solver.
Qed.

Lemma add_keeps b c b' d : ConstraintGroupBuilder.add b c = Ok b' → held b d → held b' d.
Proof.
  intros (Hs & Hh & Hl & Hr & _)%add_spec. unfold held.
  assert (Hk : ∀ k v, slot b k = Some v → slot b' k = Some v).
  { intros k v Hv. destruct (token_slot c) as [[j w]|]; [|by rewrite Hs]. destruct Hs as [Hn ->].
    destruct (decide (j = k)) as [<-|]; [congruence|by rewrite slot_replace_ne]. }
  destruct d; cbn [token_slot]; try apply Hk; [apply Hh|apply Hl|apply Hr].
Qed.

Lemma add_all_holds b tokens b' c :
  ConstraintGroupBuilder.add_all b tokens = Ok b' → c ∈ tokens ∨ held b c → held b' c.
Proof.
  revert b. induction tokens as [|d tokens IH]; intros b; cbn [ConstraintGroupBuilder.add_all].
  - intros [= <-] [[]%not_elem_of_nil|?]; done.
  - intros (b1 & Hadd & Hall)%bind_Ok [[->|Hc]%elem_of_cons|Hh]; apply (IH b1 Hall).
    + right. by apply add_spec in Hadd as (_ & _ & _ & _ & ?).
    + by left.
    + right. by eapply add_keeps.
Qed.

(** A mint is in the builder only if its keyword was given. *)
Lemma add_mints b c b' :
  ConstraintGroupBuilder.add b c = Ok b' →
  (∀ m, slot b' STokenMint = Some m → slot b STokenMint = Some m ∨ c = TokenTokenMint m) ∧
  (∀ m, slot b' SAssociatedTokenMint = Some m →
     slot b SAssociatedTokenMint = Some m ∨ c = TokenAssociatedTokenMint m).
Proof.
  intros [Hs _]%add_spec.
  destruct c; cbn [token_slot] in Hs; try (rewrite Hs; by auto); destruct Hs as [_ ->];
    (split; intros m Hm; first [rewrite slot_replace_ne in Hm by done; by left
                               |rewrite slot_replace_eq in Hm; injection Hm as ->; by right]).
Qed.

Lemma add_all_mints b tokens b' :
  ConstraintGroupBuilder.add_all b tokens = Ok b' →
  (∀ m, slot b' STokenMint = Some m → slot b STokenMint = Some m ∨ TokenTokenMint m ∈ tokens) ∧
  (∀ m, slot b' SAssociatedTokenMint = Some m →
     slot b SAssociatedTokenMint = Some m ∨ TokenAssociatedTokenMint m ∈ tokens).
Proof.
  revert b. induction tokens as [|d tokens IH]; intros b; cbn [ConstraintGroupBuilder.add_all].
  - intros [= <-]. auto.
  - intros (b1 & [H1 H2]%add_mints & [I1 I2]%IH)%bind_Ok. split; intros m Hm.
    + destruct (I1 m Hm) as [[?|<-]%H1|?]; [by left|right; by left|right; by right].
    + destruct (I2 m Hm) as [[?|<-]%H2|?]; [by left|right; by left|right; by right].
Qed.

(** The kind of token account that the keywords ask for *)
Definition asks_for_token (tokens : list ConstraintToken) : Prop :=
  ∃ mint, TokenTokenMint mint ∈ tokens ∨ TokenAssociatedTokenMint mint ∈ tokens.

(** What the kind of an account to be initialised keeps of a keyword: a mint's
    keywords give way to those of a token account, and its freeze authority is not
    looked at without its decimals. *)
Definition kept_by_kind (tokens : list ConstraintToken) (k : InitKind) (c : ConstraintToken) : Prop :=
  match c with
  | TokenTokenMint mint => ∃ auth, k = InitToken auth mint
  | TokenTokenAuthority auth => ∃ mint, k = InitToken auth mint
  | TokenAssociatedTokenMint mint => ∃ auth, k = InitAssociatedToken auth mint
  | TokenAssociatedTokenAuthority auth => ∃ mint, k = InitAssociatedToken auth mint
  | TokenMintDecimals decimals => (∃ auth freeze, k = InitMint auth freeze decimals) ∨ asks_for_token tokens
  | TokenMintAuthority auth => (∃ freeze decimals, k = InitMint auth freeze decimals) ∨ asks_for_token tokens
  | TokenMintFreezeAuthority freeze =>
      (∃ auth decimals, k = InitMint auth (Some freeze) decimals) ∨ asks_for_token tokens ∨
      ∀ decimals, TokenMintDecimals decimals ∉ tokens
  | _ => True
  end.

(** What the group keeps of such a keyword where nothing is initialised *)
Definition kept_by_group g (c : ConstraintToken) : Prop :=
  match c with
  | TokenTokenMint mint => (cg_token_account g ≫= ta_mint) = Some mint
  | TokenTokenAuthority auth => (cg_token_account g ≫= ta_authority) = Some auth
  | TokenAssociatedTokenMint mint => at_mint <$> cg_associated_token g = Some mint
  | TokenAssociatedTokenAuthority auth => at_wallet <$> cg_associated_token g = Some auth
  | TokenMintDecimals decimals => (cg_mint g ≫= tm_decimals) = Some decimals
  | TokenMintAuthority auth => (cg_mint g ≫= tm_mint_authority) = Some auth
  | TokenMintFreezeAuthority freeze => (cg_mint g ≫= tm_freeze_authority) = Some freeze
  | _ => True
  end.

(** What the group keeps of a keyword among [tokens] *)
Definition kept (tokens : list ConstraintToken) g (c : ConstraintToken) : Prop :=
  match c with
  | TokenMut error => cg_mutable g = Some error
  | TokenSigner error => cg_signer g = Some error
  | TokenHasOne c => c ∈ cg_has_one g
  | TokenLiteral lit => lit ∈ cg_literal g
  | TokenRaw c => c ∈ cg_raw g
  | TokenOwner c => cg_owner g = Some c
  | TokenRentExempt c => cg_rent_exempt g = Some c
  | TokenSeeds c => seeds <$> cg_seeds g = Some c
  | TokenBump c => bump <$> cg_seeds g = Some c
  | TokenProgramSeed c => (cg_seeds g ≫= program_seed) = Some c
  | TokenExecutable => cg_executable g = Some tt
  | TokenState target => cg_state g = Some target
  | TokenClose dest => cg_close g = Some dest
  | TokenAddress c => cg_address g = Some c
  | TokenInit needed => if_needed <$> cg_init g = Some needed
  | TokenPayer payer => init_payer <$> cg_init g = Some payer
  | TokenSpace space => (cg_init g ≫= init_space) = Some space
  | TokenZeroed => cg_zeroed g = Some tt
  | c => match cg_init g with Some i => kept_by_kind tokens (kind i) c | None => kept_by_group g c end
  end.

(** The steps that complete the builder only add what was not given. *)
Lemma completed_holds b b1 c : completed b b1 → held b c → held b1 c.
Proof.
  intros Hc. pose proof (completed_same _ _ Hc) as (_ & Ho & Hs).
  assert (Hl : literal b1 = literal b ∧ raws b1 = raws b).
  { unfold completed, with_signer, mutable_and_rent, ConstraintGroupBuilder.enforce_rent in Hc.
    repeat case_match; destruct_and?; by subst. }
  assert (Hk : ∀ k v, slot b k = Some v → slot b1 k = Some v).
  { intros k v Hv. destruct (decide (k ∈ [SMutable; SRentExempt; SSigner])) as [Hin|]; [|by rewrite Hs].
    assert (Hset : ∀ j w b2, slot b2 j = None → slot b2 k = Some v → slot (replace j w b2) k = Some v).
    { intros j w b2 Hn Hj. destruct (decide (j = k)) as [<-|]; [congruence|by rewrite slot_replace_ne]. }
    assert (Hrent : ∀ b2, slot b2 SMutable = None → slot b2 k = Some v → slot (mutable_and_rent b2) k = Some v).
    { intros b2 Hn Hj. unfold mutable_and_rent, ConstraintGroupBuilder.enforce_rent.
      destruct (some _ SRentExempt) eqn:E; [by apply Hset|]. apply not_some_slot in E. apply Hset; [done|by apply Hset]. }
    unfold completed in Hc. destruct (slot b SInit); [destruct Hc as [Hic ->]|].
    - pose proof (proj1 (not_some_slot _ _) (ic_mutable _ _ Hic)). unfold with_signer.
      case_match eqn:E; [by apply Hrent|]. apply Hset; [|by apply Hrent]. apply not_some_slot.
      by apply orb_false_iff in E as [[? _]%orb_false_iff _].
    - case_match; [|by subst]. destruct Hc as [Hm%not_some_slot ->]. by apply Hrent. }
  destruct Hl as [El Er]. destruct c; cbn [held token_slot]; try apply Hk; congruence.
Qed.

Lemma add_never b c : ConstraintGroupBuilder.add b c ≠ Panic.
Proof.
  destruct c; cbn [ConstraintGroupBuilder.add]; unfold_add; try (unfold ConstraintGroupBuilder.add_to; never_panics).
  unfold ConstraintGroupBuilder.add_has_one. by destruct (_ <? _)%nat.
Qed.

Lemma add_all_never b tokens : ConstraintGroupBuilder.add_all b tokens ≠ Panic.
Proof.
  revert b. induction tokens as [|c tokens IH]; intros b; cbn [ConstraintGroupBuilder.add_all]; [done|].
  apply bind_not_panic; [apply add_never|]. intros b1 _. apply IH.
Qed.

(** ** The rules *)

Record well_formed (f_ty : option Ty) g : Prop := {
  (* a new account can be created and is checked as such, its space given exactly
     if it is not an account of the token program *)
  wf_init i : cg_init g = Some i →
    (if_needed i = true → init_if_needed_feature = true) ∧
    cg_zeroed g = None ∧ cg_mutable g = Some None ∧ is_Some (cg_rent_exempt g) ∧
    cg_associated_token g = None ∧ cg_token_account g = None ∧ cg_mint g = None ∧
    init_seeds i = cg_seeds g ∧ (∀ s, cg_seeds g = Some s → bump s = None) ∧
    (is_signer g = true ∨ is_Some (cg_seeds g) ∨ ∃ owner mint, kind i = InitAssociatedToken owner mint) ∧
    (is_Some (init_space i) ↔ ∃ owner, kind i = InitProgram owner);
  wf_zeroed : is_zeroed g = true → cg_mutable g = Some None ∧ is_Some (cg_rent_exempt g);
  wf_close : is_close g = true → is_mutable g = true ∧ ConstraintGroupBuilder.closable f_ty = true;
  wf_seeds s : cg_seeds g = Some s →
    is_init s = bool_decide (is_Some (cg_init g)) ∧ cg_associated_token g = None;
  wf_has_one : NoDup (join_target <$> cg_has_one g);
}.

Lemma init_group_cases b1 seeds at_ i :
  ConstraintGroupBuilder.init_group b1 seeds at_ = Ok i →
  match slot b1 SInit with
  | None => i = None
  | Some needed => ∃ payer k, slot b1 SPayer = Some payer ∧ ConstraintGroupBuilder.init_kind b1 at_ = Ok k ∧
      i = Some (mkConstraintInitGroup needed seeds payer (slot b1 SSpace) k)
  end.
Proof.
  unfold ConstraintGroupBuilder.init_group. destruct (slot b1 SInit); [|by intros [= <-]].
  destruct (slot b1 SPayer); [|done]. intros (k & Hk & [= <-])%bind_Ok. by eauto 6.
Qed.

(** The space is given exactly for an account of a program of the user. *)
Lemma init_kind_space b1 at_ k :
  buildable b1 → some b1 SInit = true → some b1 STokenMint = some b1 STokenAuthority →
  some b1 SMintDecimals = some b1 SMintAuthority →
  ConstraintGroupBuilder.associated_token_group b1 = Ok at_ →
  ConstraintGroupBuilder.init_kind b1 at_ = Ok k →
  (is_Some (slot b1 SSpace) ↔ ∃ owner, k = InitProgram owner) ∧
  (some b1 STokenMint = false → is_Some at_ → ∃ owner mint, k = InitAssociatedToken owner mint).
Proof.
  intros Hb Hi Ht Hm. rewrite <- some_slot, (bb_space _ Hb Hi), <- Hm, <- Ht. clear Ht Hm Hb Hi.
  unfold ConstraintGroupBuilder.associated_token_group, ConstraintGroupBuilder.init_kind, some.
  destruct (slot b1 STokenMint), (slot b1 SMintDecimals), (slot b1 SAssociatedTokenMint),
    (slot b1 SAssociatedTokenAuthority), (slot b1 STokenAuthority), (slot b1 SMintAuthority); cbn;
    intros [= <-] [= <-]; cbn; repeat split; try done; try naive_solver; intros _ []; done.
Qed.

Lemma with_signer_other b k : k ≠ SSigner → slot (with_signer b) k = slot b k.
Proof. intros. unfold with_signer. case_match; [done|by rewrite slot_replace_ne]. Qed.

Lemma with_signer_signs b :
  some (with_signer b) SSigner || some (with_signer b) SSeeds || some (with_signer b) SAssociatedTokenMint = true.
Proof. unfold with_signer. case_match eqn:E; [done|]. by rewrite some_replace, bool_decide_true. Qed.

Lemma seeds_group_cases b1 seeds :
  ConstraintGroupBuilder.seeds_group b1 = Ok seeds →
  match slot b1 SSeeds with
  | None => seeds = None
  | Some s => ∃ bump, slot b1 SBump = Some bump ∧
      seeds = Some (mkConstraintSeedsGroup (some b1 SInit) s bump (slot b1 SProgramSeed))
  end.
Proof.
  unfold ConstraintGroupBuilder.seeds_group. destruct (slot b1 SSeeds); [|by intros [= <-]].
  destruct (slot b1 SBump); [|done]. intros [= <-]. by eauto.
Qed.

(** The rules on an account that is initialised *)
Lemma built_init b b1 g i :
  builder_ok b → completed b b1 → buildable b1 → ConstraintGroupBuilder.group b1 = Ok g → cg_init g = Some i →
  (if_needed i = true → init_if_needed_feature = true) ∧
  cg_zeroed g = None ∧ cg_mutable g = Some None ∧ is_Some (cg_rent_exempt g) ∧
  cg_associated_token g = None ∧ cg_token_account g = None ∧ cg_mint g = None ∧
  init_seeds i = cg_seeds g ∧ (∀ s, cg_seeds g = Some s → bump s = None) ∧
  (is_signer g = true ∨ is_Some (cg_seeds g) ∨ ∃ owner mint, kind i = InitAssociatedToken owner mint) ∧
  (is_Some (init_space i) ↔ ∃ owner, kind i = InitProgram owner).
Proof.
  intros Hb Hc Hbb Hg Hi. pose proof (completed_same _ _ Hc) as Hsame.
  apply group_Ok in Hg as (at_ & Hs & Ha & Hboth & Hinit & Ez & Em & Esg & Er & _ & _ & _ & _ & _ & _ & _ & _ & Eat & Enone).
  rewrite Hi in Hinit. apply init_group_cases in Hinit. destruct (slot b1 SInit) as [needed|] eqn:Ei; [|done].
  destruct Hinit as (payer & k & _ & Hk & [= ->]). cbn [if_needed init_seeds init_space kind].
  assert (Hsi : some b1 SInit = true) by (apply some_slot; by rewrite Ei). rewrite Hsi in Eat.
  destruct Hsame as (_ & _ & Hslot). rewrite (Hslot SInit) in Ei by set_solver.
  unfold completed in Hc. rewrite Ei in Hc. destruct Hc as [Hic Hb1].
  destruct (mutable_and_rent_set b) as [Hm Hr]. apply seeds_group_cases in Hs.
  assert (Hbs : slot b1 SBump = slot b SBump) by (apply Hslot; set_solver).
  assert (Ht : some b1 STokenMint = some b1 STokenAuthority ∧ some b1 SMintDecimals = some b1 SMintAuthority).
  { unfold some. rewrite !Hslot by set_solver. apply (conj (ic_token _ _ Hic) (ic_mint _ _ Hic)). }
  destruct (init_kind_space b1 at_ k Hbb Hsi (proj1 Ht) (proj2 Ht) Ha Hk) as [Hspace Hassoc].
  assert (Hz : slot b1 SZeroed = None).
  { rewrite Hslot by set_solver. apply not_some_slot, (bo_zeroed b Hb), some_slot. by rewrite Ei. }
  split_and!; try (by apply Enone); try done; [apply (ic_feature _ _ Hic)|by rewrite Ez|..].
  - rewrite Em, Hb1. by rewrite with_signer_other.
  - rewrite Er, Hb1, with_signer_other by done. exact (proj1 (some_slot _ _) Hr).
  - intros s Hsd. rewrite Hsd in Hs. destruct (slot b1 SSeeds); [|done]. destruct Hs as (bmp & Hbmp & [= ->]).
    cbn. pose proof (ic_bump _ _ Hic) as Hn. by rewrite <- Hbs, Hbmp in Hn.
  - pose proof (with_signer_signs (mutable_and_rent b)) as Hsign. rewrite <- Hb1 in Hsign.
    unfold is_signer. rewrite Esg. change (bool_decide (is_Some (slot b1 SSigner))) with (some b1 SSigner).
    destruct (some b1 SSigner); [by left|]. right. destruct (some b1 SSeeds) eqn:Esd.
    + left. apply some_slot in Esd as [sd Esd]. rewrite Esd in Hs. destruct Hs as (? & _ & ->). done.
    + right. cbn in Hsign. apply some_slot in Hsign as [m Hsm]. apply Hassoc.
      * destruct (some b1 STokenMint) eqn:Etm; [|done]. unfold some in Etm. rewrite Hslot in Etm by set_solver.
        apply (bo_mints b Hb) in Etm. apply not_some_slot in Etm. rewrite Hslot in Hsm by set_solver. congruence.
      * unfold ConstraintGroupBuilder.associated_token_group in Ha. rewrite Hsm in Ha.
        destruct (slot b1 SAssociatedTokenAuthority); [|done]. by injection Ha as <-.
Qed.

Lemma built_well_formed b g :
  builder_ok b → ConstraintGroupBuilder.build b = Ok g → well_formed (f_ty b) g.
Proof.
  intros Hb (b1 & Hc & Hbb & Hg)%build_Ok; [|done].
  pose proof (completed_same _ _ Hc) as (_ & Ho & Hslot). pose proof Hg as Hg'.
  apply group_Ok in Hg as (at_ & Hs & Ha & Hboth & Hinit & Ez & Em & _ & Er & Ecl & Eho & _ & _ & _ & _ & _ & _ & Eat & _).
  split.
  - intros i Hi. by eapply built_init.
  - unfold is_zeroed. rewrite Ez, Hslot by set_solver. change (some b SZeroed = true → cg_mutable g = Some None ∧ is_Some (cg_rent_exempt g)).
    intros Hz. rewrite Em, Er.
    destruct (mutable_and_rent_set b) as [Hm Hr%some_slot]. unfold completed in Hc.
    destruct (slot b SInit) eqn:Ei; [|rewrite Hz in Hc; by destruct Hc as [_ ->]].
    assert (some b SZeroed = false) by (apply (bo_zeroed b Hb), some_slot; by rewrite Ei). congruence.
  - unfold is_close, is_mutable. rewrite Ecl, Hslot, Em by set_solver.
    change (some b SClose = true → some b1 SMutable = true ∧ ConstraintGroupBuilder.closable (f_ty b) = true).
    intros [Hmut Hcl]%(bo_close b Hb). split; [|done]. apply some_slot in Hmut as [e He].
    pose proof (completed_holds _ _ (TokenMut e) Hc He) as Hk. apply some_slot. by exists e.
  - intros s Hsd. rewrite Hsd in *. apply seeds_group_cases in Hs. destruct (slot b1 SSeeds); [|done].
    destruct Hs as (bmp & _ & [= ->]). cbn [is_init]. split.
    + apply init_group_cases in Hinit. unfold some. destruct (slot b1 SInit); [|by rewrite Hinit].
      destruct Hinit as (? & ? & _ & _ & ->). done.
    + rewrite Eat. destruct at_ as [x|]; [|by destruct (some b1 SInit)]. by discriminate (Hboth (ltac:(by eexists))).
  - rewrite Eho, Ho. apply (bo_has_one b Hb).
Qed.

(** Without [init], the group takes over what was given for token accounts and mints. *)
Lemma group_merged b1 g c :
  ConstraintGroupBuilder.group b1 = Ok g → some b1 SInit = false → held b1 c → kept_by_group g c.
Proof.
  unfold ConstraintGroupBuilder.group. intros (seeds & _ & (at_ & Ha & (u & _ & (init & _ & [= <-])%bind_Ok)%bind_Ok)%bind_Ok)%bind_Ok Hi.
  unfold kept_by_group. cbn [cg_token_account cg_associated_token cg_mint]. rewrite Hi.
  unfold ConstraintGroupBuilder.associated_token_group in Ha.
  unfold ConstraintGroupBuilder.token_account_group, ConstraintGroupBuilder.mint_group.
  destruct c; cbn [held token_slot]; try done; intros Hh; rewrite Hh in *;
    repeat case_match; by simplify_eq/=.
Qed.

(** With [init], the kind does, up to the two exceptions. *)
Lemma kind_keeps tokens b1 at_ k c :
  some b1 STokenMint = some b1 STokenAuthority → some b1 SMintDecimals = some b1 SMintAuthority →
  (some b1 STokenMint = true → some b1 SAssociatedTokenMint = false) →
  (some b1 STokenMint || some b1 SAssociatedTokenMint = true → asks_for_token tokens) →
  (some b1 SMintDecimals = false → ∀ d, TokenMintDecimals d ∉ tokens) →
  ConstraintGroupBuilder.associated_token_group b1 = Ok at_ →
  ConstraintGroupBuilder.init_kind b1 at_ = Ok k → held b1 c → kept_by_kind tokens k c.
Proof.
  unfold ConstraintGroupBuilder.associated_token_group, ConstraintGroupBuilder.init_kind, some.
  intros Ht Hm Hx Hask Hdec Ha Hk.
  destruct c; cbn [held token_slot kept_by_kind]; try done; intros Hh; rewrite Hh in *; revert Ht Hm Hx Hask Hdec Ha Hk;
    destruct (slot b1 STokenMint), (slot b1 SMintDecimals), (slot b1 SAssociatedTokenMint),
      (slot b1 SAssociatedTokenAuthority), (slot b1 STokenAuthority), (slot b1 SMintAuthority); cbn; try done;
    intros Ht Hm Hx Hask Hdec [= <-] [= <-]; naive_solver.
Qed.

(** A payer and a space come with [init], a bump and a program with seeds. *)
Lemma init_keeps b b1 seeds at_ init :
  builder_ok b → same_but_completed b b1 → ConstraintGroupBuilder.init_group b1 seeds at_ = Ok init →
  (∀ payer, slot b1 SPayer = Some payer → init_payer <$> init = Some payer) ∧
  (∀ space, slot b1 SSpace = Some space → (init ≫= init_space) = Some space).
Proof.
  intros Hb Hsame Hi%init_group_cases.
  assert (Hin : some b1 SPayer || some b1 SSpace = true → is_Some (slot b1 SInit)).
  { rewrite <- some_slot, !(same_some _ _ _ Hsame) by set_solver.
    intros [?%(bo_payer b Hb)|?%(bo_space b Hb)]%orb_true_iff; done. }
  split; intros x Hx; destruct Hin as [needed Hn];
    try (unfold some; by rewrite Hx, ?orb_true_r); rewrite Hn in Hi; destruct Hi as (payer & k & Hp & _ & ->);
    [rewrite Hx in Hp; by injection Hp as ->|exact Hx].
Qed.

Lemma seeds_keep b b1 seeds :
  builder_ok b → same_but_completed b b1 → ConstraintGroupBuilder.seeds_group b1 = Ok seeds →
  (∀ c, slot b1 SBump = Some c → bump <$> seeds = Some c) ∧
  (∀ c, slot b1 SProgramSeed = Some c → (seeds ≫= program_seed) = Some c).
Proof.
  intros Hb Hsame Hs%seeds_group_cases.
  assert (Hin : some b1 SBump || some b1 SProgramSeed = true → is_Some (slot b1 SSeeds)).
  { rewrite <- some_slot, !(same_some _ _ _ Hsame) by set_solver.
    intros [?%(bo_bump b Hb)|?%(bo_program_seed b Hb)]%orb_true_iff; done. }
  split; intros x Hx; destruct Hin as [sd Hn];
    try (unfold some; by rewrite Hx, ?orb_true_r); rewrite Hn in Hs; destruct Hs as (bmp & Hb' & ->);
    [rewrite Hx in Hb'; by injection Hb' as ->|exact Hx].
Qed.

Lemma built_keeps tokens b b1 g c :
  builder_ok b → completed b b1 → ConstraintGroupBuilder.group b1 = Ok g →
  (∀ m, slot b STokenMint = Some m → TokenTokenMint m ∈ tokens) →
  (∀ m, slot b SAssociatedTokenMint = Some m → TokenAssociatedTokenMint m ∈ tokens) →
  (∀ c, c ∈ tokens → held b c) → c ∈ tokens → kept tokens g c.
Proof.
  intros Hb Hc Hg Hmint Hassoc Hheld Hin. pose proof (completed_same _ _ Hc) as Hsame.
  pose proof (completed_holds _ _ _ Hc (Hheld _ Hin)) as Hh. pose proof Hg as Hg'.
  apply group_Ok in Hg as (at_ & Hs & Ha & _ & Hinit & Ez & Em & Esg & Er & Ecl & Eho & Eow & Ead & Est & Eex & El & Eraw & _ & _).
  destruct (init_keeps _ _ _ _ _ Hb Hsame Hinit) as [Hpayer Hspace].
  destruct (seeds_keep _ _ _ Hb Hsame Hs) as [Hbump Hprogram].
  apply init_group_cases in Hinit. apply seeds_group_cases in Hs.
  assert (Hmerged : (∀ i, cg_init g = Some i → kept_by_kind tokens (kind i) c) ∧
    (cg_init g = None → kept_by_group g c)).
  { split.
    - intros i Hi. destruct (slot b1 SInit) as [needed|] eqn:Ei; [|congruence].
      destruct Hinit as (payer & k & _ & Hk & Eg). rewrite Hi in Eg. injection Eg as ->. cbn [kind].
      unfold completed in Hc. rewrite (proj2 (proj2 Hsame) SInit) in Ei by set_solver. rewrite Ei in Hc.
      destruct Hc as [Hic _].
      eapply kind_keeps; [..|exact Ha|exact Hk|exact Hh]; rewrite !(same_some _ _ _ Hsame) by set_solver.
      + apply (ic_token _ _ Hic).
      + apply (ic_mint _ _ Hic).
      + apply (bo_mints b Hb).
      + intros [[m Hm]%some_slot|[m Hm]%some_slot]%orb_true_iff; exists m; auto.
      + intros Hn d Hd%Hheld. cbn in Hd. apply not_some_slot in Hn. congruence.
    - intros Hi. eapply group_merged; [exact Hg'| |exact Hh]. apply not_some_slot.
      destruct (slot b1 SInit); [|done]. destruct Hinit as (? & ? & _ & _ & ?). congruence. }
  destruct Hmerged as [Hkind Hgroup].
  destruct c; cbn [held token_slot] in Hh; cbn [kept];
    try (etrans; eassumption); try (by rewrite ?Eho, ?El, ?Eraw);
    try (by destruct (cg_init g); [apply Hkind|apply Hgroup]).
  - rewrite Hh in Hinit. by destruct Hinit as (? & ? & _ & _ & ->).
  - rewrite Hh in Hs. by destruct Hs as (? & _ & ->).
  - by apply Hpayer.
  - by apply Hspace.
  - by apply Hbump.
  - by apply Hprogram.
Qed.

Lemma parsed_well_formed f_ty tokens g :
  parse_constraints f_ty tokens = Ok g → well_formed f_ty g ∧ ∀ c, c ∈ tokens → kept tokens g c.
Proof.
  intros (b & Hadd & Hbuild)%bind_Ok. destruct (add_all_ok _ _ _ (new_ok f_ty) Hadd) as [Hb Ht]. cbn in Ht.
  split; [rewrite <- Ht; by apply built_well_formed|]. intros c Hc.
  apply build_Ok in Hbuild as (b1 & Hcomp & _ & Hg); [|done].
  destruct (add_all_mints _ _ _ Hadd) as [H1 H2]. eapply built_keeps; [exact Hb|exact Hcomp|exact Hg|..|exact Hc].
  - intros m [?|?]%H1; done.
  - intros m [?|?]%H2; done.
  - intros d Hd. eapply add_all_holds; [exact Hadd|by left].
Qed.

(** C30: Whatever keywords the attributes of a field hold, in whatever order, the
    macro does not panic on them; and if it accepts them, the group of constraints
    follows the rules.  An account to be initialised is also mutable, is checked
    to be rent exempt, is not one with zeroed data, has a key that signs or that is
    derived, and a space exactly if it is not one of the token program; one that is
    closed is mutable and of a type that can be closed; seeds exclude an
    associated token.  And the group keeps what every keyword gave, each in its
    place, but for two cases where the account is initialised: the keywords of a
    mint are dropped where a token account is asked for as well, and a freeze
    authority is dropped where no decimals are given. *)
Theorem accepted_constraints_are_well_formed f_ty tokens :
  parse_constraints f_ty tokens ≠ Panic ∧
  ∀ g, parse_constraints f_ty tokens = Ok g → well_formed f_ty g ∧ ∀ c, c ∈ tokens → kept tokens g c.
Proof.
  split; [|intros g; apply parsed_well_formed]. unfold parse_constraints.
  apply bind_not_panic; [apply add_all_never|]. intros b Hadd. apply build_never.
  eapply add_all_ok; [apply new_ok|done].
Qed.

End facts.

(** ** Concrete keywords: expressions are their text *)

#[local] Instance text : Syn := {|
  Expr := string;
  is_field_access _ := false;
  to_token_stream e := e;
|}.
#[local] Instance all_features : Features := {| init_if_needed_feature := true |}.

(** [init, payer = user, space = 16, seeds = [user], bump, has_one = user] *)
Lemma accepted_constraints_are_well_formed_witness :
  let tokens := [TokenInit false; TokenPayer "user"; TokenSpace "16"; TokenSeeds ["user"]; TokenBump None;
                 TokenHasOne (mkConstraintHasOne "user" None)] in
  ∃ g, parse_constraints (Some TyAccount) tokens = Ok g ∧ well_formed (Some TyAccount) g ∧
       mkConstraintHasOne "user" None ∈ cg_has_one g ∧ cg_mutable g = Some None.
Proof.
  intros tokens. destruct (accepted_constraints_are_well_formed (Some TyAccount) tokens) as [_ Hok].
  eexists. split; [vm_compute; reflexivity|].
  destruct (Hok _ ltac:(vm_compute; reflexivity)) as [Hwf Hkept].
  split; [exact Hwf|]. split; [|reflexivity].
  apply (Hkept (TokenHasOne _)). unfold tokens. do 5 right. left.
Defined.

(** A program for the seeds is refused after [init], but not before it: then it is
    accepted, although the account is created at an address of the own program. *)
Example program_seed_depends_on_the_order :
  let rest := [TokenPayer "user"; TokenSpace "16"] in
  let program := [TokenSeeds ["user"]; TokenBump None; TokenProgramSeed "other"] in
  parse_constraints (Some TyAccount) (TokenInit false :: program ++ rest) =
    Err "seeds::program cannot be used with init" ∧
  (cg_seeds <$> parse_constraints (Some TyAccount) (program ++ TokenInit false :: rest) : result ParseError _) =
    Ok (Some (mkConstraintSeedsGroup true ["user"] None (Some "other"))).
Proof. by vm_compute. Qed.

(** The keywords of a mint disappear next to those of a token account. *)
Example mint_keywords_are_dropped :
  (λ g, (kind <$> cg_init g, cg_mint g)) <$>
    parse_constraints (Some TyAccount)
      [TokenInit false; TokenPayer "user"; TokenTokenMint "mint"; TokenTokenAuthority "user";
       TokenMintDecimals "9"; TokenMintAuthority "other"] =
    Ok (Some (InitToken "user" "mint"), None).
Proof. by vm_compute. Qed.

(** A freeze authority without the other keywords of a mint disappears: the account
    becomes one of the program itself. *)
Example freeze_authority_is_dropped :
  (λ g, (kind <$> cg_init g, cg_mint g)) <$>
    parse_constraints (Some TyAccount)
      [TokenInit false; TokenPayer "user"; TokenSpace "82"; TokenMintFreezeAuthority "user"] =
    Ok (Some (InitProgram None), None).
Proof. by vm_compute. Qed.

(** An associated token excludes an authority only if that comes first. *)
Example token_authority_depends_on_the_order :
  let associated := [TokenAssociatedTokenMint "mint"; TokenAssociatedTokenAuthority "user"] in
  parse_constraints (Some TyAccount) (TokenTokenAuthority "other" :: associated) =
    Err "token authority already provided" ∧
  (cg_token_account <$> parse_constraints (Some TyAccount) (associated ++ [TokenTokenAuthority "other"]) : result ParseError _) =
    Ok (Some (mkConstraintTokenAccountGroup None (Some "other"))).
Proof. by vm_compute. Qed.
