(* ===== verification/AnchorChecks.v ===== *)
(** * Anchor: the code generated for a field

    [anchor/lang/syn/src/codegen/accounts/constraints.rs] and [exit.rs]: from the
    group of constraints of a field the derived code checks the account before the
    instruction runs, one constraint after the other, and closes it or writes it
    back when the instruction ends.  The code that creates an account for [init]
    is an argument, as are the values of the expressions in the attribute and the
    rent of the cluster.

    Then what the checks give: they hold in the accounts that the instruction sees,
    and with them closing an account moves its lamports without losing any. *)

From stdpp Require Import strings.
From S2P Require Import Prelude Errors Layouts StateBase Solana AnchorBase AnchorAccounts.
From S2P Require Import AnchorFacts AnchorConstraints AnchorConstraintFacts.

(** ** The constraints in order *)

Section linearize.
Context `{Syn}.

Inductive Constraint : Type :=
| InitC (c : ConstraintInitGroup)
| ZeroedC
| MutC (error : option Expr)
| SignerC (error : option Expr)
| HasOneC (c : ConstraintHasOne)
| LiteralC (lit : string)
| RawC (c : ConstraintRaw)
| OwnerC (c : ConstraintOwner)
| RentExemptC (c : ConstraintRentExempt)
| SeedsC (c : ConstraintSeedsGroup)
| AssociatedTokenC (c : ConstraintAssociatedToken)
| ExecutableC
| StateC (program_target : string)
| CloseC (sol_dest : string)
| AddressC (c : ConstraintAddress)
| TokenAccountC (c : ConstraintTokenAccountGroup)
| MintC (c : ConstraintTokenMintGroup).

(** Constraints with dependencies come after those without. *)
Definition linearize (g : ConstraintGroup) : list Constraint :=
  option_list ((λ _, ZeroedC) <$> cg_zeroed g) ++
  option_list (InitC <$> cg_init g) ++
  option_list (SeedsC <$> cg_seeds g) ++
  option_list (AssociatedTokenC <$> cg_associated_token g) ++
  option_list (MutC <$> cg_mutable g) ++
  option_list (SignerC <$> cg_signer g) ++
  (HasOneC <$> cg_has_one g) ++
  (LiteralC <$> cg_literal g) ++
  (RawC <$> cg_raw g) ++
  option_list (OwnerC <$> cg_owner g) ++
  option_list (RentExemptC <$> cg_rent_exempt g) ++
  option_list ((λ _, ExecutableC) <$> cg_executable g) ++
  option_list (StateC <$> cg_state g) ++
  option_list (CloseC <$> cg_close g) ++
  option_list (AddressC <$> cg_address g) ++
  option_list (TokenAccountC <$> cg_token_account g) ++
  option_list (MintC <$> cg_mint g).

(** ** Fields of an [Accounts] struct *)

Record Field : Type := mkField { ident : string; constraints : ConstraintGroup; ty : Ty }.

Inductive AccountField : Type :=
| FieldOf (f : Field)
| CompositeField (name : string).

Definition field_ident (f : AccountField) : string :=
  match f with FieldOf f => ident f | CompositeField name => name end.

(** [parser/accounts/mod.rs]: what an account to be initialised needs of the other
    fields.  The kind of account is that of the first such field. *)
Definition missing (name : string) (fields : list AccountField) : bool :=
  forallb (λ f, negb (String.eqb (field_ident f) name)) fields.

Definition find_field (name : string) (fields : list AccountField) : option Field :=
  head (omap (λ f, match f with
                   | FieldOf f => if String.eqb (ident f) name then Some f else None
                   | CompositeField _ => None
                   end) fields).

Definition check_mint (kind : InitKind) (fields : list AccountField) : result ParseError unit :=
  match kind with
  | InitToken _ mint | InitAssociatedToken _ mint =>
      refuse_if (negb (existsb (λ f, String.prefix (to_token_stream mint) (field_ident f)) fields))
        "the mint constraint has to be an account field for token initializations (not a public key)"
  | _ => Ok tt
  end.

Fixpoint check_init_fields (kind : InitKind) (fields : list AccountField) (init_payers : list Expr) :
    result ParseError unit :=
  match init_payers with
  | [] => Ok tt
  | payer :: rest =>
      if is_field_access payer then check_init_fields kind fields rest
      else
        match find_field (to_token_stream payer) fields with
        | None => Err "the payer specified does not exist."
        | Some associated_payer_field =>
            _ ← refuse_if (negb (is_mutable (constraints associated_payer_field)))
                  "the payer specified for an init constraint must be mutable.";
            _ ← check_mint kind fields;
            check_init_fields kind fields rest
        end
  end.

Definition init_groups (fields : list AccountField) : list ConstraintInitGroup :=
  omap (λ f, match f with FieldOf f => cg_init (constraints f) | CompositeField _ => None end) fields.

Definition of_token_program (kind : InitKind) : bool := match kind with InitProgram _ => false | _ => true end.

Definition constraints_cross_checks (fields : list AccountField) : result ParseError unit :=
  match init_groups fields with
  | [] => Ok tt
  | (first :: _) as groups =>
      _ ← refuse_all
            [(missing "system_program" fields,
              "the init constraint requires the system_program field to exist in the account validation struct. Use the program type to add the system_program field to your validation struct.");
             (of_token_program (kind first) && missing "token_program" fields,
              "the init constraint requires the token_program field to exist in the account validation struct. Use the program type to add the token_program field to your validation struct.");
             (match kind first with InitAssociatedToken _ _ => missing "associated_token_program" fields | _ => false end,
              "the init constraint requires the associated_token_program field to exist in the account validation struct. Use the program type to add the associated_token_program field to your validation struct.")];
      check_init_fields (kind first) fields (init_payer <$> groups)
  end.

End linearize.

(** ** What the generated code refers to

    The values of expressions where the checks run, the parsed account of a field
    of the token program, and the functions of the Solana crates that it calls. *)

Record TokenFields : Type := mkTokenFields {
  tf_owner : Pubkey;
  tf_mint : Pubkey;
  tf_decimals : Z;
  tf_mint_authority : option Pubkey;
  tf_freeze_authority : option Pubkey;
}.

Class Scope `{Syn} : Type := {
  sc_info : string → AccountInfo;        (* a field of the struct *)
  sc_key : Expr → Pubkey;                (* a key, or [e.key()] *)
  sc_bool : Expr → bool;
  sc_literal : string → bool;
  sc_error : Expr → Error;
  sc_seeds : list Expr → Seeds;
  sc_bump : Expr → Z;
  sc_decimals : Expr → Z;
  sc_member : string → Expr → AM Pubkey; (* [field.target], through [load] for a loader *)
  sc_token : string → TokenFields;
  rent_is_exempt : Z → nat → bool;
  create_program_address : Seeds → Pubkey → option Pubkey;
  get_associated_token_address : Pubkey → Pubkey → Pubkey;
}.

Section checks.
Context `{Scope} `{AnchorSdk} (program_id : Pubkey).

(** The code for [init], if there is any, and the constructor of the type of a field
    that does not check the data *)
Context (run_init : Field → ConstraintInitGroup → option (AM unit)) (from_account_info_unchecked : string → AM unit).

Implicit Types (f : Field).

Definition field_info f : AccountInfo := sc_info (ident f).

(** ** Errors *)

Definition named f (e : Error) : Error := with_account_name e (ident f).

(** The error of the user, or that of the constraint *)
Definition generate_custom_error f (custom_error : option Expr) (error : ErrorCode)
    (compared_values : option (Pubkey * Pubkey)) : Error :=
  let e := named f (match custom_error with Some e => sc_error e | None => Error_from_code error end) in
  match compared_values with Some keys => with_pubkeys e keys | None => e end.

Definition fail_if (cond : bool) (e : Error) : AM unit := if cond then throw e else mret tt.

(** ** One function per constraint *)

Definition generate_constraint_address f (c : ConstraintAddress) : AM unit :=
  let actual := key (field_info f) in
  let expected := sc_key (address c) in
  fail_if (negb (actual =? expected))
    (generate_custom_error f (address_error c) AnchorBase.ConstraintAddress (Some (actual, expected))).

Definition map_err {A} (g : Error → Error) (m : AM A) : AM A := λ c,
  match m c with Err e => Err (g e) | r => r end.

(** The account gets the type of its field without its discriminator being checked. *)
Definition generate_constraint_zeroed f : AM unit :=
  data ← try_borrow_data (field_info f);
  if (length data <? 8)%nat then abort
  else
    _ ← fail_if (negb (of_le_bytes (take 8 data) =? 0)) (named f (Error_from_code ConstraintZero));
    map_err (named f) (from_account_info_unchecked (ident f)).

Definition generate_constraint_close f (sol_dest : string) : AM unit :=
  fail_if (key (field_info f) =? key (sc_info sol_dest)) (named f (Error_from_code AnchorBase.ConstraintClose)).

Definition generate_constraint_mut f (error : option Expr) : AM unit :=
  fail_if (negb (is_writable (field_info f))) (generate_custom_error f error ConstraintMut None).

Definition generate_constraint_has_one f (c : ConstraintHasOne) : AM unit :=
  my_key ← sc_member (ident f) (join_target c);
  let target_key := sc_key (join_target c) in
  fail_if (negb (my_key =? target_key))
    (generate_custom_error f (has_one_error c) AnchorBase.ConstraintHasOne (Some (my_key, target_key))).

(** The macro panics on the other types. *)
Definition can_sign (ty : Ty) : bool :=
  bool_decide (ty ∈ [TyAccountInfo; TyProgramAccount; TyAccount; TyLoader; TyAccountLoader; TyCpiAccount]).

Definition generate_constraint_signer f (error : option Expr) : AM unit :=
  fail_if (negb (Solana.is_signer (field_info f))) (generate_custom_error f error ConstraintSigner None).

Definition generate_constraint_literal f (lit : string) : AM unit :=
  fail_if (negb (sc_literal lit)) (named f (Error_from_code Deprecated)).

Definition generate_constraint_raw f (c : ConstraintRaw) : AM unit :=
  fail_if (negb (sc_bool (raw c))) (generate_custom_error f (raw_error c) AnchorBase.ConstraintRaw None).

Definition generate_constraint_owner f (c : ConstraintOwner) : AM unit :=
  my_owner ← info_owner (field_info f);
  let owner_address := sc_key (owner_address c) in
  fail_if (negb (my_owner =? owner_address))
    (generate_custom_error f (owner_error c) AnchorBase.ConstraintOwner (Some (my_owner, owner_address))).

Definition generate_constraint_rent_exempt f (c : ConstraintRentExempt) : AM unit :=
  match c with
  | Skip => mret tt
  | Enforce =>
      n ← info_lamports (field_info f);
      data ← try_borrow_data (field_info f);
      fail_if (negb (rent_is_exempt n (length data))) (named f (Error_from_code AnchorBase.ConstraintRentExempt))
  end.

(** With [init] the address was derived there; otherwise it is derived here, with the
    bump that was given or with the canonical one. *)
Definition generate_constraint_seeds f (pda_address : Pubkey) (c : ConstraintSeedsGroup) : AM unit :=
  let mismatch expected := with_pubkeys (named f (Error_from_code ConstraintSeeds)) (key (field_info f), expected) in
  let check expected := fail_if (negb (key (field_info f) =? expected)) (mismatch expected) in
  let deriving_program_id := from_option sc_key program_id (program_seed c) in
  if is_init c then check pda_address
  else
    match bump c with
    | None => check (fst (pubkey_find_program_address (sc_seeds (seeds c)) deriving_program_id))
    | Some b =>
        match create_program_address (sc_seeds (seeds c) ++ [[sc_bump b]]) deriving_program_id with
        | None => throw (named f (Error_from_code ConstraintSeeds))
        | Some expected => check expected
        end
    end.

Definition generate_constraint_associated_token f (c : ConstraintAssociatedToken) : AM unit :=
  let my_owner := tf_owner (sc_token (ident f)) in
  let wallet_address := sc_key (at_wallet c) in
  _ ← fail_if (negb (my_owner =? wallet_address))
        (with_pubkeys (named f (Error_from_code ConstraintTokenOwner)) (my_owner, wallet_address));
  let my_key := key (field_info f) in
  let expected := get_associated_token_address wallet_address (sc_key (at_mint c)) in
  fail_if (negb (my_key =? expected))
    (with_pubkeys (named f (Error_from_code ConstraintAssociated)) (my_key, expected)).

(** A check that is generated only if there is an expression *)
Definition if_given (e : option Expr) (differs : Expr → bool) (error : ErrorCode) : AM unit :=
  match e with
  | Some e => fail_if (differs e) (Error_from_code error)
  | None => mret tt
  end.

Definition generate_constraint_token_account f (c : ConstraintTokenAccountGroup) : AM unit :=
  let token := sc_token (ident f) in
  _ ← if_given (ta_authority c) (λ e, negb (tf_owner token =? sc_key e)) ConstraintTokenOwner;
  if_given (ta_mint c) (λ e, negb (tf_mint token =? sc_key e)) ConstraintTokenMint.

Definition generate_constraint_mint f (c : ConstraintTokenMintGroup) : AM unit :=
  let token := sc_token (ident f) in
  _ ← if_given (tm_decimals c) (λ e, negb (tf_decimals token =? sc_decimals e)) ConstraintMintDecimals;
  _ ← if_given (tm_mint_authority c) (λ e, negb (bool_decide (tf_mint_authority token = Some (sc_key e))))
        ConstraintMintMintAuthority;
  if_given (tm_freeze_authority c) (λ e, negb (bool_decide (tf_freeze_authority token = Some (sc_key e))))
    ConstraintMintFreezeAuthority.

Definition generate_constraint_executable f : AM unit :=
  executable ← info_executable (field_info f);
  fail_if (negb executable) (named f (Error_from_code ConstraintExecutable)).

(** [address] is that of [CpiState], and a panic if it has none. *)
Definition generate_constraint_state f (program_target : string) : AM unit :=
  let target := key (sc_info program_target) in
  match ProgramState.address target with
  | None => abort
  | Some expected =>
      _ ← fail_if (negb (key (field_info f) =? expected)) (named f (Error_from_code ConstraintState));
      owner ← info_owner (field_info f);
      fail_if (negb (owner =? target)) (named f (Error_from_code ConstraintState))
  end.

(** [None]: the macro panics instead of generating code. *)
Definition generate_constraint f (pda_address : Pubkey) (c : Constraint) : option (AM unit) :=
  match c with
  | InitC c => run_init f c
  | ZeroedC => Some (generate_constraint_zeroed f)
  | MutC error => Some (generate_constraint_mut f error)
  | HasOneC c => Some (generate_constraint_has_one f c)
  | SignerC error => if can_sign (ty f) then Some (generate_constraint_signer f error) else None
  | LiteralC lit => Some (generate_constraint_literal f lit)
  | RawC c => Some (generate_constraint_raw f c)
  | OwnerC c => Some (generate_constraint_owner f c)
  | RentExemptC c => Some (generate_constraint_rent_exempt f c)
  | SeedsC c => Some (generate_constraint_seeds f pda_address c)
  | ExecutableC => Some (generate_constraint_executable f)
  | StateC target => if decide (ty f = TyCpiState) then Some (generate_constraint_state f target) else None
  | CloseC sol_dest => Some (generate_constraint_close f sol_dest)
  | AddressC c => Some (generate_constraint_address f c)
  | AssociatedTokenC c => Some (generate_constraint_associated_token f c)
  | TokenAccountC c => Some (generate_constraint_token_account f c)
  | MintC c => Some (generate_constraint_mint f c)
  end.

Fixpoint run_checks (checks : list (AM unit)) : AM unit :=
  match checks with
  | [] => mret tt
  | check :: checks => _ ← check; run_checks checks
  end.

(** All checks of a field *)
Definition generate f (pda_address : Pubkey) : option (AM unit) :=
  run_checks <$> mapM (generate_constraint f pda_address) (linearize (constraints f)).

(** ** What happens to the field when the instruction ends *)

Definition exit_field {A} `{AccountsExit A} `{AccountsClose A} f (self : A) : AM unit :=
  match cg_close (constraints f) with
  | Some close_target => map_err (named f) (close self (sc_info close_target))
  | None => if is_mutable (constraints f) then map_err (named f) (exit self program_id) else mret tt
  end.

(** The signer flag that a client's account metas get for the field *)
Definition meta_is_signer f : option bool := if is_signer (constraints f) then Some true else None.

End checks.

(** ** [close] *)

(** The cells of two accounts, and all others unchanged *)
Record closed_into (info destination : AccountInfo) (c c' : Cells) : Prop := {
  ci_lamports : lamports (cell c' (key info)) = 0;
  ci_receiver : lamports (cell c' (key destination)) =
    lamports (cell c (key destination)) + lamports (cell c (key info));
  ci_mark : data (cell c' (key info)) = CLOSED_ACCOUNT_DISCRIMINATOR ++ drop 8 (data (cell c (key info)));
  ci_receiver_data : data (cell c' (key destination)) = data (cell c (key destination));
  ci_owners : ∀ j, owner (cell c' j) = owner (cell c j);
  ci_others : ∀ j, j ≠ key info → j ≠ key destination → cell c' j = cell c j;
}.

Lemma mark_written_Ok bs mark writer :
  length mark = 8%nat → BpfWriter.write_all (BpfWriter.new bs) mark = Some writer →
  bw_inner writer = mark ++ drop 8 bs.
Proof.
  intros Hm. unfold BpfWriter.new. destruct (decide (8 ≤ length bs)%nat).
  - rewrite BpfWriter.write_all_fits by (cbn [bw_inner bw_pos]; lia). intros [= <-].
    unfold BpfWriter.copy_at. cbn [bw_inner bw_pos take app Nat.add]. by rewrite Hm.
  - rewrite BpfWriter.write_all_short by (cbn [bw_inner bw_pos]; lia). done.
Qed.

Lemma close_account_Ok info destination c u c' :
  close_account info destination c = Ok (u, c') → key info ≠ key destination → closed_into info destination c c'.
Proof.
  intros Hc Hne. unfold close_account in Hc.
  apply AM_bind_Ok in Hc as (n1 & c1 & [= <- <-] & Hc). apply AM_bind_Ok in Hc as (n2 & c1 & [= <- <-] & Hc).
  apply AM_bind_Ok in Hc as (sum & c2 & Hs & Hc). destruct (checked_add 64 _ _) as [sum'|] eqn:Ea; [|done].
  injection Hs as <- <-. apply checked_add_Some in Ea as [-> _].
  apply AM_bind_Ok in Hc as ([] & c2 & [= <-] & Hc). apply AM_bind_Ok in Hc as ([] & c3 & [= <-] & Hc).
  apply AM_bind_Ok in Hc as (bs & c4 & (-> & -> & _)%try_borrow_mut_data_Ok & Hc).
  rewrite cell_set_same in Hc. cbn [data] in Hc. rewrite (cell_set_other _ _ _ (key info)) in Hc by done.
  destruct (BpfWriter.write_all _ _) as [writer|] eqn:Ew; [|done]. apply mark_written_Ok in Ew; [|done].
  unfold put_data in Hc. injection Hc as _ <-.
  split.
  - by rewrite !cell_set_same.
  - rewrite !(cell_set_other _ (key info)) by done. by rewrite cell_set_same.
  - by rewrite cell_set_same, Ew.
  - rewrite !(cell_set_other _ (key info)) by done. by rewrite cell_set_same.
  - intros j. destruct (decide (j = key info)) as [->|].
    + rewrite !cell_set_same. cbn [owner]. rewrite ?cell_set_other by done. done.
    + rewrite !(cell_set_other _ (key info)) by done. destruct (decide (j = key destination)) as [->|].
      * by rewrite cell_set_same.
      * by rewrite cell_set_other.
  - intros j H1 H2. by rewrite !cell_set_other.
Qed.

(** ** The generated checks *)

Section checked.
Context `{Scope} `{Features} `{AnchorSdk} (program_id : Pubkey).
Context (run_init : Field → ConstraintInitGroup → option (AM unit)) (from_account_info_unchecked : string → AM unit).
Implicit Types (f : Field).

Lemma fail_if_Ok b e c u c' : fail_if b e c = Ok (u, c') → b = false ∧ c' = c.
Proof. unfold fail_if. destruct b; [done|]. by intros [= _ <-]. Qed.

Lemma run_checks_Ok checks c u c' check :
  run_checks checks c = Ok (u, c') → check ∈ checks → ∃ c1 c2, check c1 = Ok (tt, c2).
Proof.
  revert c. induction checks as [|m checks IH]; intros c Hr Hin; [by apply not_elem_of_nil in Hin|].
  apply AM_bind_Ok in Hr as ([] & c1 & Hm & Hr). apply elem_of_cons in Hin as [->|Hin]; [by eauto|by eapply IH].
Qed.

(** Each constraint of the group was checked. *)
Lemma generated_check f pda checks c u c' con :
  generate program_id run_init from_account_info_unchecked f pda = Some checks → checks c = Ok (u, c') →
  con ∈ linearize (constraints f) →
  ∃ check c1 c2, generate_constraint program_id run_init from_account_info_unchecked f pda con = Some check ∧
    check c1 = Ok (tt, c2).
Proof.
  unfold generate. intros (l & Hl & ->)%fmap_Some Hr Hin. apply list_elem_of_lookup in Hin as [i Hi].
  apply mapM_Some in Hl. destruct (Forall2_lookup_l _ _ _ _ _ Hl Hi) as (check & Hc & Hg).
  destruct (run_checks_Ok _ _ _ _ check Hr) as (c1 & c2 & ?); [by apply list_elem_of_lookup; eauto|].
  by exists check, c1, c2.
Qed.

Lemma close_linearized g dest : cg_close g = Some dest → CloseC dest ∈ linearize g.
Proof. intros E. unfold linearize. rewrite E. set_solver. Qed.

Lemma mut_linearized g e : cg_mutable g = Some e → MutC e ∈ linearize g.
Proof. intros E. unfold linearize. rewrite E. set_solver. Qed.

(** C31: If a field is declared with [close = dest], the macro accepts it, and the
    checks that it generates pass, then the account is writable and is not [dest]
    itself; so when the instruction ends, whatever it did in between, exactly the
    lamports of the account go to [dest], none are lost, the account is marked as
    closed, and no other account changes. *)
Theorem closing_keeps_lamports {A} `{AccountsExit A} `{AccountsClose A} f pda tokens dest checks (self : A) c c1 c2 c3 :
  parse_constraints (Some (ty f)) tokens = Ok (constraints f) → TokenClose dest ∈ tokens →
  generate program_id run_init from_account_info_unchecked f pda = Some checks → checks c = Ok (tt, c1) →
  (∀ destination, close self destination = close_account (field_info f) destination) →
  exit_field program_id f self c2 = Ok (tt, c3) →
  is_writable (field_info f) = true ∧ key (field_info f) ≠ key (sc_info dest) ∧
  closed_into (field_info f) (sc_info dest) c2 c3 ∧
  lamports (cell c3 (key (field_info f))) + lamports (cell c3 (key (sc_info dest))) =
    lamports (cell c2 (key (field_info f))) + lamports (cell c2 (key (sc_info dest))).
Proof.
  intros Hp Hin Hg Hc Hself He. destruct (parsed_well_formed _ _ _ Hp) as [Hwf Hkept].
  pose proof (Hkept _ Hin) as Hcl. cbn in Hcl.
  assert (Hmut : is_mutable (constraints f) = true) by (apply (wf_close _ _ Hwf); unfold is_close; by rewrite Hcl).
  unfold is_mutable in Hmut. apply bool_decide_eq_true in Hmut as [e Hmut].
  destruct (generated_check _ _ _ _ _ _ _ Hg Hc (close_linearized _ _ Hcl)) as (m & d1 & d2 & [= <-] & Hm).
  apply fail_if_Ok in Hm as [Hne%Z.eqb_neq _].
  destruct (generated_check _ _ _ _ _ _ _ Hg Hc (mut_linearized _ _ Hmut)) as (m & d3 & d4 & [= <-] & Hm).
  apply fail_if_Ok in Hm as [Hw%negb_false_iff _].
  unfold exit_field, map_err in He. rewrite Hcl, Hself in He.
  destruct (close_account _ _ c2) as [[[] c3']| |] eqn:Ec; [|done..]. injection He as ->.
  pose proof (close_account_Ok _ _ _ _ _ Ec Hne) as Hci. split_and!; try done.
  rewrite (ci_lamports _ _ _ _ Hci), (ci_receiver _ _ _ _ Hci). lia.
Qed.

End checked.

(** ** Payers *)

Lemma checked_payer `{Syn} k fields payers payer :
  check_init_fields k fields payers = Ok tt → payer ∈ payers → is_field_access payer = false →
  ∃ f, find_field (to_token_stream payer) fields = Some f ∧ is_mutable (constraints f) = true.
Proof.
  intros Hc Hi Ha. induction payers as [|p payers IH]; [by apply not_elem_of_nil in Hi|].
  cbn [check_init_fields] in Hc. apply elem_of_cons in Hi as [<-|Hi].
  - rewrite Ha in Hc. destruct (find_field _ _) as [f|]; [|done].
    apply bind_Ok in Hc as (v & Hm & _). exists f. split; [done|]. by destruct (is_mutable (constraints f)).
  - destruct (is_field_access p); [by apply IH|]. destruct (find_field _ _); [|done].
    apply bind_Ok in Hc as (v & _ & (w & _ & Hc)%bind_Ok). by apply IH.
Qed.

(** In a struct that is accepted every payer is a mutable field, unless it is an
    access to a field of something else. *)
Lemma payers_are_mutable `{Syn} fields i :
  constraints_cross_checks fields = Ok tt → i ∈ init_groups fields → is_field_access (init_payer i) = false →
  ∃ f, find_field (to_token_stream (init_payer i)) fields = Some f ∧ is_mutable (constraints f) = true.
Proof.
  unfold constraints_cross_checks. destruct (init_groups fields) as [|first groups]; [by intros _ ?%not_elem_of_nil|].
  intros (u & _ & Hc)%bind_Ok Hi. eapply checked_payer; [exact Hc|]. by apply list_elem_of_fmap_2.
Qed.

(** ** A vault that is closed into the account of a user *)

#[local] Existing Instances text all_features.
#[local] Existing Instances Account.accounts_exit Account.accounts_close.

#[local] Instance vault_scope : Scope := {|
  sc_info name := if decide (name = "vault") then info_of 7 else info_of 8;
  sc_key _ := 8;
  sc_bool _ := true;
  sc_literal _ := true;
  sc_error _ := Error_from_code Deprecated;
  sc_seeds _ := [];
  sc_bump _ := 0;
  sc_decimals _ := 0;
  sc_member _ _ := mret 8;
  sc_token _ := mkTokenFields 0 0 0 None None;
  rent_is_exempt _ _ := true;
  create_program_address _ _ := None;
  get_associated_token_address _ _ := 0;
|}.

#[local] Instance vault_sdk : AnchorSdk := {|
  bpf_loader_upgradeable_id := 2;
  bincode_loader_state _ := None;
  pubkey_find_program_address _ _ := (0, 255);
  pubkey_create_with_seed _ _ _ := None;
|}.

(** [mut, has_one = user, close = user] *)
Definition vault_tokens : list ConstraintToken :=
  [TokenMut None; TokenHasOne (mkConstraintHasOne "user" None); TokenClose "user"].

Definition vault_group : ConstraintGroup := {|
  cg_init := None; cg_zeroed := None; cg_mutable := Some None; cg_signer := None; cg_owner := None;
  cg_rent_exempt := None; cg_seeds := None; cg_executable := None; cg_state := None;
  cg_has_one := [mkConstraintHasOne "user" None]; cg_literal := []; cg_raw := []; cg_close := Some "user";
  cg_address := None; cg_associated_token := None; cg_token_account := None; cg_mint := None;
|}.

Lemma closing_keeps_lamports_witness :
  let f := mkField "vault" vault_group TyAccount in
  let c := cells_with (replicate 16 1) in
  ∃ c', exit_field testbed_owner f (mkAccount (mkFlag true) (info_of 7)) c = Ok (tt, c') ∧
    closed_into (info_of 7) (info_of 8) c c' ∧ lamports (cell c' 8) = 101.
Proof.
  intros f c. eexists. split; [reflexivity|].
  edestruct (closing_keeps_lamports (A := Account Flag) testbed_owner (λ _ _, None) (λ _, mret tt) f 0 vault_tokens "user")
    with (c := c) (c1 := c) (c2 := c) (self := mkAccount (mkFlag true) (info_of 7)) as (_ & _ & Hc & _).
  - reflexivity.
  - do 2 right. left.
  - reflexivity.
  - reflexivity.
  - reflexivity.
  - reflexivity.
  - split; [exact Hc|reflexivity].
Defined.

(** Only the kind of the first account to be initialised is looked at: the token
    program is missed or not, depending on the order of the fields. *)
Definition field_with_init (name : string) (k : InitKind) : AccountField :=
  FieldOf (mkField name {|
    cg_init := Some (mkConstraintInitGroup false None "user" None k);
    cg_zeroed := None; cg_mutable := Some None; cg_signer := Some None; cg_owner := None;
    cg_rent_exempt := Some Enforce; cg_seeds := None; cg_executable := None; cg_state := None;
    cg_has_one := []; cg_literal := []; cg_raw := []; cg_close := None;
    cg_address := None; cg_associated_token := None; cg_token_account := None; cg_mint := None;
  |} TyAccount).

Example token_program_missed_by_order :
  let others := [FieldOf (mkField "user" vault_group TySigner); CompositeField "system_program"] in
  let data := field_with_init "data" (InitProgram None) in
  let mint := field_with_init "mint" (InitMint "user" None "6") in
  constraints_cross_checks (data :: mint :: others) = Ok tt ∧
  constraints_cross_checks (mint :: data :: others) ≠ Ok tt.
Proof. by vm_compute. Qed.
