(* ===== verification/AnchorInit.v ===== *)
(** * Anchor: accounts that are created

    The wrappers with which a program calls the system program
    ([anchor/lang/src/system_program.rs]) and the token program
    ([anchor/spl/src/token.rs], [associated_token.rs]), the contexts of such calls
    ([context.rs]), and the code that the constraint [init] generates
    ([syn/src/codegen/accounts/constraints.rs]).  The other programs are outside the
    repository: an invocation of them is a parameter, and what the system program
    promises is the class [SystemLaws].

    An account that is initialised is new, has the size and the owner that were asked
    for, and was paid for by the payer; one that exists is never overwritten. *)

From stdpp Require Import strings pretty.
From S2P Require Import Prelude Errors Layouts StateBase Solana AnchorBase AnchorAccounts.
From S2P Require Import AnchorFacts AnchorConstraints AnchorConstraintFacts AnchorChecks.

(** ** Invocations of other programs

    One constructor per instruction that the wrappers build, with what the builders
    of the crates take. *)

Inductive Invocation : Type :=
(* solana_program::system_instruction *)
| SysCreateAccount (from to : Pubkey) (lamports space : Z) (owner : Pubkey)
| SysCreateAccountWithSeed (from to base : Pubkey) (seed : string) (lamports space : Z) (owner : Pubkey)
| SysAssign (account owner : Pubkey)
| SysAssignWithSeed (account base : Pubkey) (seed : string) (owner : Pubkey)
| SysTransfer (from to : Pubkey) (lamports : Z)
| SysTransferWithSeed (from base : Pubkey) (from_seed : string) (from_owner to : Pubkey) (lamports : Z)
| SysAllocate (account : Pubkey) (space : Z)
| SysAllocateWithSeed (account base : Pubkey) (seed : string) (space : Z) (owner : Pubkey)
| SysAdvanceNonceAccount (nonce authorized : Pubkey)
| SysAuthorizeNonceAccount (nonce authorized new_authority : Pubkey)
| SysWithdrawNonceAccount (nonce authorized to : Pubkey) (lamports : Z)
| SysInitializeNonceAccount (nonce authority : Pubkey)
(* spl_token::instruction, spl_associated_token_account *)
| TokInitializeAccount (account mint authority : Pubkey)
| TokInitializeMint (mint mint_authority : Pubkey) (freeze_authority : option Pubkey) (decimals : Z)
| AtaCreate (payer wallet mint : Pubkey).

Class Cpi : Type := {
  cpi_invoke_signed : Invocation → list AccountInfo → list Seeds → Cells → result ProgramError Cells;
  (* create_nonce_account and its variant with a seed build several instructions *)
  create_nonce_instructions : Pubkey → Pubkey → Pubkey → Z → list Invocation;
  create_nonce_instructions_with_seed : Pubkey → Pubkey → Pubkey → string → Pubkey → Z → list Invocation;
  minimum_balance : nat → Z;                       (* of the rent of the cluster *)
  token_account_len : nat;
  token_mint_len : nat;
  token_program_id : Pubkey;
}.

(** [invoke_signed(..).map_err(Into::into)] *)
Definition invoke `{Cpi} (ix : Invocation) (infos : list AccountInfo) (signer_seeds : list Seeds) : AM unit :=
  λ c, match cpi_invoke_signed ix infos signer_seeds c with
       | Ok c' => Ok (tt, c')
       | Err e => Err (Error_from_program_error e)
       | Panic => Panic
       end.

(** [ixs[i]] *)
Definition invoke_nth `{Cpi} (ixs : list Invocation) (i : nat) infos signer_seeds : AM unit :=
  match ixs !! i with
  | Some ix => invoke ix infos signer_seeds
  | None => abort
  end.

(** *** [context.rs] *)

Record CpiContext (A : Type) : Type := mkCpiContext {
  ctx_accounts : A;
  ctx_remaining_accounts : list AccountInfo;
  ctx_program : AccountInfo;
  ctx_signer_seeds : list Seeds;
}.
Arguments mkCpiContext {A}.
Arguments ctx_accounts {A}.
Arguments ctx_remaining_accounts {A}.
Arguments ctx_program {A}.
Arguments ctx_signer_seeds {A}.

Module CpiContext.
Section context.
Context {A : Type}.
Implicit Types (self : CpiContext A).

Definition new (program : AccountInfo) (accounts : A) : CpiContext A := mkCpiContext accounts [] program [].

Definition new_with_signer (program : AccountInfo) (accounts : A) (signer_seeds : list Seeds) : CpiContext A :=
  mkCpiContext accounts [] program signer_seeds.

Definition with_signer self (signer_seeds : list Seeds) : CpiContext A :=
  mkCpiContext (ctx_accounts self) (ctx_remaining_accounts self) (ctx_program self) signer_seeds.

Definition with_remaining_accounts self (ra : list AccountInfo) : CpiContext A :=
  mkCpiContext (ctx_accounts self) ra (ctx_program self) (ctx_signer_seeds self).

Definition to_account_infos `{ToAccountInfos A} self : list AccountInfo :=
  AnchorBase.to_account_infos (ctx_accounts self) ++ ctx_remaining_accounts self ++ [ctx_program self].

Definition to_account_metas `{ToAccountMetas A} self (is_signer : option bool) : list AccountMeta :=
  AnchorBase.to_account_metas (ctx_accounts self) is_signer ++
  ((λ acc, mkAccountMeta (key acc) (Solana.is_signer acc) (is_writable acc)) <$> ctx_remaining_accounts self).

End context.
End CpiContext.

(** *** [system_program.rs]: a record of accounts and a function per instruction *)

Module system_program.

Record AdvanceNonceAccount := mkAdvanceNonceAccount { an_nonce : AccountInfo; an_authorized : AccountInfo; an_recent_blockhashes : AccountInfo }.
Record Allocate := mkAllocate { account_to_allocate : AccountInfo }.
Record AllocateWithSeed := mkAllocateWithSeed { as_account_to_allocate : AccountInfo; as_base : AccountInfo }.
Record Assign := mkAssign { account_to_assign : AccountInfo }.
Record AssignWithSeed := mkAssignWithSeed { ws_account_to_assign : AccountInfo; ws_base : AccountInfo }.
Record AuthorizeNonceAccount := mkAuthorizeNonceAccount { au_nonce : AccountInfo; au_authorized : AccountInfo }.
Record CreateAccount := mkCreateAccount { ca_from : AccountInfo; ca_to : AccountInfo }.
Record CreateAccountWithSeed := mkCreateAccountWithSeed { cs_from : AccountInfo; cs_to : AccountInfo; cs_base : AccountInfo }.
Record CreateNonceAccount := mkCreateNonceAccount {
  cn_from : AccountInfo; cn_nonce : AccountInfo; cn_recent_blockhashes : AccountInfo; cn_rent : AccountInfo }.
Record CreateNonceAccountWithSeed := mkCreateNonceAccountWithSeed {
  cw_from : AccountInfo; cw_nonce : AccountInfo; cw_base : AccountInfo; cw_recent_blockhashes : AccountInfo; cw_rent : AccountInfo }.
Record Transfer := mkTransfer { t_from : AccountInfo; t_to : AccountInfo }.
Record TransferWithSeed := mkTransferWithSeed { tw_from : AccountInfo; tw_base : AccountInfo; tw_to : AccountInfo }.
Record WithdrawNonceAccount := mkWithdrawNonceAccount {
  wn_nonce : AccountInfo; wn_to : AccountInfo; wn_recent_blockhashes : AccountInfo; wn_rent : AccountInfo; wn_authorized : AccountInfo }.

Section wrappers.
Context `{Cpi}.

Definition advance_nonce_account (ctx : CpiContext AdvanceNonceAccount) : AM unit :=
  let a := ctx_accounts ctx in
  invoke (SysAdvanceNonceAccount (key (an_nonce a)) (key (an_authorized a)))
    [an_nonce a; an_recent_blockhashes a; an_authorized a] (ctx_signer_seeds ctx).

Definition allocate (ctx : CpiContext Allocate) (space : Z) : AM unit :=
  let a := ctx_accounts ctx in
  invoke (SysAllocate (key (account_to_allocate a)) space) [account_to_allocate a] (ctx_signer_seeds ctx).

Definition allocate_with_seed (ctx : CpiContext AllocateWithSeed) (seed : string) (space : Z) (owner : Pubkey) : AM unit :=
  let a := ctx_accounts ctx in
  invoke (SysAllocateWithSeed (key (as_account_to_allocate a)) (key (as_base a)) seed space owner)
    [as_account_to_allocate a; as_base a] (ctx_signer_seeds ctx).

Definition assign (ctx : CpiContext Assign) (owner : Pubkey) : AM unit :=
  let a := ctx_accounts ctx in
  invoke (SysAssign (key (account_to_assign a)) owner) [account_to_assign a] (ctx_signer_seeds ctx).

Definition assign_with_seed (ctx : CpiContext AssignWithSeed) (seed : string) (owner : Pubkey) : AM unit :=
  let a := ctx_accounts ctx in
  invoke (SysAssignWithSeed (key (ws_account_to_assign a)) (key (ws_base a)) seed owner)
    [ws_account_to_assign a; ws_base a] (ctx_signer_seeds ctx).

Definition authorize_nonce_account (ctx : CpiContext AuthorizeNonceAccount) (new_authority : Pubkey) : AM unit :=
  let a := ctx_accounts ctx in
  invoke (SysAuthorizeNonceAccount (key (au_nonce a)) (key (au_authorized a)) new_authority)
    [au_nonce a; au_authorized a] (ctx_signer_seeds ctx).

Definition create_account (ctx : CpiContext CreateAccount) (lamports space : Z) (owner : Pubkey) : AM unit :=
  let a := ctx_accounts ctx in
  invoke (SysCreateAccount (key (ca_from a)) (key (ca_to a)) lamports space owner)
    [ca_from a; ca_to a] (ctx_signer_seeds ctx).

Definition create_account_with_seed (ctx : CpiContext CreateAccountWithSeed) (seed : string)
    (lamports space : Z) (owner : Pubkey) : AM unit :=
  let a := ctx_accounts ctx in
  invoke (SysCreateAccountWithSeed (key (cs_from a)) (key (cs_to a)) (key (cs_base a)) seed lamports space owner)
    [cs_from a; cs_to a; cs_base a] (ctx_signer_seeds ctx).

Definition create_nonce_account (ctx : CpiContext CreateNonceAccount) (lamports : Z) (authority : Pubkey) : AM unit :=
  let a := ctx_accounts ctx in
  let ixs := create_nonce_instructions (key (cn_from a)) (key (cn_nonce a)) authority lamports in
  _ ← invoke_nth ixs 0 [cn_from a; cn_nonce a] (ctx_signer_seeds ctx);
  invoke_nth ixs 1 [cn_nonce a; cn_recent_blockhashes a; cn_rent a] (ctx_signer_seeds ctx).

Definition create_nonce_account_with_seed (ctx : CpiContext CreateNonceAccountWithSeed) (lamports : Z)
    (seed : string) (authority : Pubkey) : AM unit :=
  let a := ctx_accounts ctx in
  let ixs := create_nonce_instructions_with_seed (key (cw_from a)) (key (cw_nonce a)) (key (cw_base a)) seed authority lamports in
  _ ← invoke_nth ixs 0 [cw_from a; cw_nonce a; cw_base a] (ctx_signer_seeds ctx);
  invoke_nth ixs 1 [cw_nonce a; cw_recent_blockhashes a; cw_rent a] (ctx_signer_seeds ctx).

Definition transfer (ctx : CpiContext Transfer) (lamports : Z) : AM unit :=
  let a := ctx_accounts ctx in
  invoke (SysTransfer (key (t_from a)) (key (t_to a)) lamports) [t_from a; t_to a] (ctx_signer_seeds ctx).

Definition transfer_with_seed (ctx : CpiContext TransferWithSeed) (from_seed : string) (from_owner : Pubkey)
    (lamports : Z) : AM unit :=
  let a := ctx_accounts ctx in
  invoke (SysTransferWithSeed (key (tw_from a)) (key (tw_base a)) from_seed from_owner (key (tw_to a)) lamports)
    [tw_from a; tw_base a; tw_to a] (ctx_signer_seeds ctx).

Definition withdraw_nonce_account (ctx : CpiContext WithdrawNonceAccount) (lamports : Z) : AM unit :=
  let a := ctx_accounts ctx in
  invoke (SysWithdrawNonceAccount (key (wn_nonce a)) (key (wn_authorized a)) (key (wn_to a)) lamports)
    [wn_nonce a; wn_to a; wn_recent_blockhashes a; wn_rent a; wn_authorized a] (ctx_signer_seeds ctx).

End wrappers.
End system_program.

(** *** [anchor/spl/src/]: the calls that [init] makes *)

Module anchor_spl.

Record InitializeAccount := mkInitializeAccount {
  ia_account : AccountInfo; ia_mint : AccountInfo; ia_authority : AccountInfo; ia_rent : AccountInfo }.
Record InitializeMint := mkInitializeMint { im_mint : AccountInfo; im_rent : AccountInfo }.
Record Create := mkCreate {
  cr_payer : AccountInfo; cr_associated_token : AccountInfo; cr_authority : AccountInfo; cr_mint : AccountInfo;
  cr_system_program : AccountInfo; cr_token_program : AccountInfo; cr_rent : AccountInfo }.

Section wrappers.
Context `{Cpi}.

Definition initialize_account (ctx : CpiContext InitializeAccount) : AM unit :=
  let a := ctx_accounts ctx in
  invoke (TokInitializeAccount (key (ia_account a)) (key (ia_mint a)) (key (ia_authority a)))
    [ia_account a; ia_mint a; ia_authority a; ia_rent a] (ctx_signer_seeds ctx).

Definition initialize_mint (ctx : CpiContext InitializeMint) (decimals : Z) (authority : Pubkey)
    (freeze_authority : option Pubkey) : AM unit :=
  let a := ctx_accounts ctx in
  invoke (TokInitializeMint (key (im_mint a)) authority freeze_authority decimals)
    [im_mint a; im_rent a] (ctx_signer_seeds ctx).

Definition create (ctx : CpiContext Create) : AM unit :=
  let a := ctx_accounts ctx in
  invoke (AtaCreate (key (cr_payer a)) (key (cr_authority a)) (key (cr_mint a)))
    [cr_payer a; cr_associated_token a; cr_authority a; cr_mint a; cr_system_program a; cr_token_program a; cr_rent a]
    (ctx_signer_seeds ctx).

End wrappers.
End anchor_spl.

(** ** The code for [init] *)

Section init.
Context `{Scope} `{AnchorSdk} `{Cpi} (program_id : Pubkey).

(** The value of the expression for the space, the type of the field with its two
    constructors, and the token account or mint that a value of it holds *)
Context (sc_space : Expr → nat) {V : Type}.
Context (from_account_info from_account_info_unchecked : Field → AM V) (token_fields : V → TokenFields).
Implicit Types (f : Field).

(** The account gets the lamports that make it rent exempt; lamports that it has
    already count. *)
Definition generate_create_account (field payer : AccountInfo) (space : nat) (owner : Pubkey)
    (seeds_with_nonce : list Seeds) : AM unit :=
  let system := sc_info "system_program" in
  current_lamports ← info_lamports field;
  if current_lamports =? 0 then
    let cpi_context := CpiContext.new system (system_program.mkCreateAccount payer field) in
    system_program.create_account (CpiContext.with_signer cpi_context seeds_with_nonce)
      (minimum_balance space) (Z.of_nat space) owner
  else
    let required_lamports := Z.max 0 (Z.max (minimum_balance space) 1 - current_lamports) in
    _ ← (if 0 <? required_lamports then
           system_program.transfer (CpiContext.new system (system_program.mkTransfer payer field)) required_lamports
         else mret tt);
    let cpi_context := CpiContext.new system (system_program.mkAllocate field) in
    _ ← system_program.allocate (CpiContext.with_signer cpi_context seeds_with_nonce) (Z.of_nat space);
    let cpi_context := CpiContext.new system (system_program.mkAssign field) in
    system_program.assign (CpiContext.with_signer cpi_context seeds_with_nonce) owner.

(** The seeds with the canonical bump, if there are any *)
Definition seeds_with_bump (c : ConstraintInitGroup) : list Seeds :=
  match init_seeds c with
  | None => []
  | Some s =>
      let '(_pda_address, bump) := pubkey_find_program_address (sc_seeds (seeds s)) program_id in
      [sc_seeds (seeds s) ++ [[bump]]]
  end.

Definition expr_info (e : Expr) : AccountInfo := sc_info (to_token_stream e).
Definition payer_info (c : ConstraintInitGroup) : AccountInfo := expr_info (init_payer c).

(** [actual_field.data_len()], which borrows the data *)
Definition data_len (info : AccountInfo) : AM nat := λ c,
  match borrows c !! key info with
  | Some Exclusive => Panic
  | _ => Ok (length (data (cell c (key info))), c)
  end.

(** Is the account created by this instruction? *)
Definition to_create f (c : ConstraintInitGroup) : AM bool :=
  actual_owner ← info_owner (field_info f);
  mret (negb (if_needed c) || (actual_owner =? system_program_id)).

Definition shown (n : nat) : string := pretty (Z.of_nat n).

(** An account of a program of the user.  The owner is read through a reference, which
    shows the new owner after the account was created. *)
Definition init_program f (c : ConstraintInitGroup) (owner : option Expr) (space : nat) : AM V :=
  let owner := from_option sc_key program_id owner in
  create ← to_create f c;
  pa ← (if (create : bool) then
          _ ← generate_create_account (field_info f) (payer_info c) space owner (seeds_with_bump c);
          from_account_info_unchecked f
        else from_account_info f);
  _ ← (if if_needed c then
         len ← data_len (field_info f);
         _ ← fail_if (negb (space =? len)%nat)
               (with_values (named f (Error_from_code ConstraintSpace)) (shown space, shown len));
         actual_owner ← info_owner (field_info f);
         _ ← fail_if (negb (actual_owner =? owner))
               (with_pubkeys (named f (Error_from_code AnchorBase.ConstraintOwner)) (actual_owner, owner));
         n ← info_lamports (field_info f);
         fail_if (n <? minimum_balance space) (named f (Error_from_code AnchorBase.ConstraintRentExempt))
       else mret tt);
  mret pa.

(** A token account.  Here, and below, the account that is found already there is only
    compared with what was asked for. *)
Definition init_token f (c : ConstraintInitGroup) (owner mint : Expr) : AM V :=
  create ← to_create f c;
  _ ← (if (create : bool) then
         _ ← generate_create_account (field_info f) (payer_info c) token_account_len
               (key (sc_info "token_program")) (seeds_with_bump c);
         anchor_spl.initialize_account (CpiContext.new (sc_info "token_program")
           (anchor_spl.mkInitializeAccount (field_info f) (expr_info mint) (expr_info owner) (sc_info "rent")))
       else mret tt);
  pa ← from_account_info_unchecked f;
  let token := token_fields pa in
  _ ← fail_if (if_needed c && negb (tf_mint token =? sc_key mint))
        (with_pubkeys (named f (Error_from_code ConstraintTokenMint)) (tf_mint token, sc_key mint));
  _ ← fail_if (if_needed c && negb (tf_owner token =? sc_key owner))
        (with_pubkeys (named f (Error_from_code ConstraintTokenOwner)) (tf_owner token, sc_key owner));
  mret pa.

Definition init_associated_token f (c : ConstraintInitGroup) (owner mint : Expr) : AM V :=
  create ← to_create f c;
  _ ← (if (create : bool) then
         anchor_spl.create (CpiContext.new (sc_info "associated_token_program")
           (anchor_spl.mkCreate (payer_info c) (field_info f) (expr_info owner) (expr_info mint)
              (sc_info "system_program") (sc_info "token_program") (sc_info "rent")))
       else mret tt);
  pa ← from_account_info_unchecked f;
  let token := token_fields pa in
  _ ← fail_if (if_needed c && negb (tf_mint token =? sc_key mint))
        (with_pubkeys (named f (Error_from_code ConstraintTokenMint)) (tf_mint token, sc_key mint));
  _ ← fail_if (if_needed c && negb (tf_owner token =? sc_key owner))
        (with_pubkeys (named f (Error_from_code ConstraintTokenOwner)) (tf_owner token, sc_key owner));
  _ ← fail_if (if_needed c && negb (key (field_info f) =? get_associated_token_address (sc_key owner) (sc_key mint)))
        (named f (Error_from_code AccountNotAssociatedTokenAccount));
  mret pa.

Definition init_mint f (c : ConstraintInitGroup) (owner : Expr) (freeze_authority : option Expr) (decimals : Expr) : AM V :=
  let freeze_authority := sc_key <$> freeze_authority in
  create ← to_create f c;
  _ ← (if (create : bool) then
         _ ← generate_create_account (field_info f) (payer_info c) token_mint_len
               (key (sc_info "token_program")) (seeds_with_bump c);
         anchor_spl.initialize_mint (CpiContext.new (sc_info "token_program")
           (anchor_spl.mkInitializeMint (field_info f) (sc_info "rent")))
           (sc_decimals decimals) (sc_key owner) freeze_authority
       else mret tt);
  pa ← from_account_info_unchecked f;
  let token := token_fields pa in
  _ ← fail_if (if_needed c && negb (bool_decide (tf_mint_authority token = Some (sc_key owner))))
        (named f (Error_from_code ConstraintMintMintAuthority));
  _ ← fail_if (if_needed c && negb (bool_decide (tf_freeze_authority token = freeze_authority)))
        (named f (Error_from_code ConstraintMintFreezeAuthority));
  _ ← fail_if (if_needed c && negb (tf_decimals token =? sc_decimals decimals))
        (with_values (named f (Error_from_code ConstraintMintDecimals))
           (pretty (tf_decimals token), pretty (sc_decimals decimals)));
  mret pa.

(** The rent that the code names is defined only if it is to be enforced, by this field
    or by one before it in the struct ([earlier]). *)
Context (earlier : bool).

Definition anchor_rent f : bool :=
  earlier || match cg_rent_exempt (constraints f) with Some Enforce => true | _ => false end.

(** [None]: there is no code that compiles. *)
Definition generate_constraint_init_group f (c : ConstraintInitGroup) : option (AM V) :=
  match kind c with
  | InitProgram owner =>
      e ← init_space c;
      if anchor_rent f then Some (init_program f c owner (sc_space e)) else None
  | InitToken owner mint => if anchor_rent f then Some (init_token f c owner mint) else None
  | InitAssociatedToken owner mint => Some (init_associated_token f c owner mint)
  | InitMint owner freeze_authority decimals =>
      if anchor_rent f then Some (init_mint f c owner freeze_authority decimals) else None
  end.

(** What [generate] takes for the constraint *)
Definition run_init f (c : ConstraintInitGroup) : option (AM unit) :=
  (λ m, _ ← m; mret tt) <$> generate_constraint_init_group f c.

End init.

(** ** What the system program does

    Cells are compared by what they hold, and effects are functions on them. *)

#[export] Instance Cells_equiv : Equiv Cells := λ c d, (∀ j, cell c j = cell d j) ∧ borrows c = borrows d.

#[export] Instance Cells_equivalence : Equivalence (≡@{Cells}).
Proof.
  split.
  - by intros c.
  - intros c d [H1 H2]. by split.
  - intros c d e [H1 H2] [H3 H4]. split; [intros j; by rewrite H1, H3|by rewrite H2].
Qed.

#[export] Instance cell_proper : Proper ((≡) ==> (=) ==> (=)) cell.
Proof. intros c d [Hcd _] j _ <-. apply Hcd. Qed.

Lemma cell_set c k a j : cell (set_cell c k a) j = if decide (j = k) then a else cell c j.
Proof. case_decide as E; [by rewrite E, cell_set_same|by apply cell_set_other]. Qed.

#[export] Instance set_cell_proper : Proper ((≡) ==> (=) ==> (=) ==> (≡)) set_cell.
Proof. intros c d [Hc Hb] k _ <- a _ <-. split; [|done]. intros j. rewrite !cell_set. by case_decide. Qed.

Definition update_cell (k : Pubkey) (g : AccountState → AccountState) (c : Cells) : Cells := set_cell c k (g (cell c k)).

#[export] Instance update_cell_proper k g : Proper ((≡) ==> (≡)) (update_cell k g).
Proof. intros c d Hcd. unfold update_cell. by rewrite Hcd. Qed.

Lemma cell_update k g c j : cell (update_cell k g c) j = if decide (j = k) then g (cell c j) else cell c j.
Proof. unfold update_cell. rewrite cell_set. by case_decide; subst. Qed.

Definition add_lamports (n : Z) (a : AccountState) : AccountState := mkAccountState (owner a) (lamports a + n) (data a).
Definition allocated_with (space : Z) (a : AccountState) : AccountState :=
  mkAccountState (owner a) (lamports a) (replicate (Z.to_nat space) 0).
Definition assigned_to (o : Pubkey) (a : AccountState) : AccountState := mkAccountState o (lamports a) (data a).

Definition after_transfer (from to : Pubkey) (n : Z) (c : Cells) : Cells :=
  update_cell to (add_lamports n) (update_cell from (add_lamports (- n)) c).

Definition after_create (from to : Pubkey) (n space : Z) (o : Pubkey) (c : Cells) : Cells :=
  update_cell to (assigned_to o) (update_cell to (allocated_with space) (after_transfer from to n c)).

(** An account that nobody uses *)
Definition unused (a : AccountState) : Prop := owner a = system_program_id ∧ data a = [].

(** Its key signed: the transaction, or the program for an address that it derives *)
Class SystemProgram `{Cpi} : Type := { derived_keys : list Seeds → list Pubkey }.

Definition signed `{SystemProgram} (infos : list AccountInfo) (signer_seeds : list Seeds) (k : Pubkey) : Prop :=
  ∃ i, i ∈ infos ∧ key i = k ∧ (Solana.is_signer i = true ∨ k ∈ derived_keys signer_seeds).

Definition usable (infos : list AccountInfo) (c : Cells) : Prop :=
  ∀ i, i ∈ infos → is_writable i = true ∧ borrows c !! key i = None.

(** How much an instruction may enlarge the data of an account *)
Definition MAX_PERMITTED_DATA_INCREASE : Z := 10240.

(** The documented behaviour: when an instruction succeeds and what it does, and that
    it succeeds for accounts that are there for it *)
Class SystemLaws `{SystemProgram} : Prop := {
  create_law from to n space o infos seeds c c' :
    cpi_invoke_signed (SysCreateAccount from to n space o) infos seeds c = Ok c' →
    unused (cell c to) ∧ lamports (cell c to) = 0 ∧ unused (cell c from) ∧ n ≤ lamports (cell c from) ∧
    c' ≡ after_create from to n space o c;
  create_with_seed_law from to base seed n space o infos seeds c c' :
    cpi_invoke_signed (SysCreateAccountWithSeed from to base seed n space o) infos seeds c = Ok c' →
    unused (cell c to) ∧ lamports (cell c to) = 0 ∧ unused (cell c from) ∧ n ≤ lamports (cell c from) ∧
    c' ≡ after_create from to n space o c;
  transfer_law from to n infos seeds c c' :
    cpi_invoke_signed (SysTransfer from to n) infos seeds c = Ok c' →
    unused (cell c from) ∧ n ≤ lamports (cell c from) ∧ c' ≡ after_transfer from to n c;
  allocate_law k space infos seeds c c' :
    cpi_invoke_signed (SysAllocate k space) infos seeds c = Ok c' →
    unused (cell c k) ∧ c' ≡ update_cell k (allocated_with space) c;
  assign_law k o infos seeds c c' :
    cpi_invoke_signed (SysAssign k o) infos seeds c = Ok c' →
    (owner (cell c k) = system_program_id ∨ owner (cell c k) = o) ∧ c' ≡ update_cell k (assigned_to o) c;
  create_runs from to n space o infos seeds c :
    usable infos c → signed infos [] from → signed infos seeds to → 0 ≤ space ≤ MAX_PERMITTED_DATA_INCREASE →
    unused (cell c to) → lamports (cell c to) = 0 → unused (cell c from) → 0 ≤ n ≤ lamports (cell c from) →
    ∃ c', cpi_invoke_signed (SysCreateAccount from to n space o) infos seeds c = Ok c';
  transfer_runs from to n infos seeds c :
    usable infos c → signed infos [] from → to ∈ key <$> infos → unused (cell c from) →
    0 ≤ n ≤ lamports (cell c from) →
    ∃ c', cpi_invoke_signed (SysTransfer from to n) infos seeds c = Ok c';
  allocate_runs k space infos seeds c :
    usable infos c → signed infos seeds k → 0 ≤ space ≤ MAX_PERMITTED_DATA_INCREASE → unused (cell c k) →
    ∃ c', cpi_invoke_signed (SysAllocate k space) infos seeds c = Ok c';
  assign_runs k o infos seeds c :
    usable infos c → signed infos seeds k → owner (cell c k) = system_program_id →
    ∃ c', cpi_invoke_signed (SysAssign k o) infos seeds c = Ok c';
  minimum_balance_pos space : 0 < minimum_balance space;
}.

Lemma invoke_Ok `{Cpi} ix infos seeds c u c' :
  invoke ix infos seeds c = Ok (u, c') ↔ cpi_invoke_signed ix infos seeds c = Ok c'.
Proof. unfold invoke. destruct (cpi_invoke_signed _ _ _ _); destruct u; naive_solver. Qed.

(** ** New accounts *)

(** What an account lacks to be rent exempt *)
Definition shortfall `{Cpi} (space : nat) (a : AccountState) : Z := Z.max 0 (minimum_balance space - lamports a).

(** The account [k] is new, rent exempt and blank, and [payer] paid what it lacked. *)
Record created `{Cpi} (payer k : Pubkey) (space : nat) (o : Pubkey) (c c' : Cells) : Prop := {
  cr_unused : unused (cell c k);
  cr_account :
    cell c' k = mkAccountState o (lamports (cell c k) + shortfall space (cell c k)) (replicate space 0);
  cr_payer : cell c' payer = add_lamports (- shortfall space (cell c k)) (cell c payer);
  cr_paid : shortfall space (cell c k) = 0 ∨ shortfall space (cell c k) ≤ lamports (cell c payer);
  cr_others : ∀ j, j ≠ payer → j ≠ k → cell c' j = cell c j;
  cr_borrows : borrows c' = borrows c;
}.

Section created.
Context `{Scope} `{AnchorSdk} `{SystemLaws} (program_id : Pubkey).
Implicit Types (c : Cells).

(** Three updates of the account after a transfer to it *)
Lemma created_intro payer k space o c c' :
  payer ≠ k → unused (cell c k) → shortfall space (cell c k) = 0 ∨ shortfall space (cell c k) ≤ lamports (cell c payer) →
  c' ≡ after_create payer k (shortfall space (cell c k)) (Z.of_nat space) o c → created payer k space o c c'.
Proof.
  intros Hne Hu Hp [Hc Hb]. assert (Hk : ∀ j, cell c' j = _) by exact Hc. unfold after_create, after_transfer in Hk.
  split; try done.
  - rewrite Hk, !cell_update, !decide_True, decide_False by done. unfold assigned_to, allocated_with, add_lamports.
    cbn [owner lamports data]. by rewrite Nat2Z.id.
  - rewrite Hk, !cell_update, !(decide_False (P := payer = k)), decide_True by done. done.
  - intros j Hj1 Hj2. rewrite Hk, !cell_update, !decide_False by done. done.
Qed.

Lemma add_lamports_0 a : add_lamports 0 a = a.
Proof. destruct a. unfold add_lamports. cbn. by rewrite Z.add_0_r. Qed.

Lemma update_cell_id k g c : g (cell c k) = cell c k → update_cell k g c ≡ c.
Proof. intros E. split; [|done]. intros j. rewrite cell_update. case_decide; by subst. Qed.

Lemma after_transfer_0 from to c : after_transfer from to 0 c ≡ c.
Proof. unfold after_transfer. by rewrite !update_cell_id by apply add_lamports_0. Qed.

Lemma generate_create_account_Ok field payer space o seeds c u c' :
  generate_create_account field payer space o seeds c = Ok (u, c') → key payer ≠ key field → 0 ≤ lamports (cell c (key field)) →
  created (key payer) (key field) space o c c'.
Proof.
  unfold generate_create_account, info_lamports. intros (n & c0 & [= <- <-] & Hg)%AM_bind_Ok Hne Hpos.
  pose proof (minimum_balance_pos space) as Hmin. set (have := lamports (cell c (key field))) in *.
  assert (Hs : shortfall space (cell c (key field)) = Z.max 0 (minimum_balance space - have)) by done.
  destruct (Z.eqb_spec have 0) as [E|E].
  - apply invoke_Ok, create_law in Hg as (Hu & _ & _ & Hle & Hc). apply created_intro; try done.
    + right. cbn in Hle |- *. lia.
    + rewrite Hs. replace (Z.max 0 _) with (minimum_balance space) by lia. exact Hc.
  - replace (Z.max 0 (Z.max (minimum_balance space) 1 - have)) with (shortfall space (cell c (key field))) in Hg by lia.
    apply AM_bind_Ok in Hg as ([] & c1 & Ht & Hg).
    assert (Hc1 : c1 ≡ after_transfer (key payer) (key field) (shortfall space (cell c (key field))) c ∧
      (shortfall space (cell c (key field)) = 0 ∨ shortfall space (cell c (key field)) ≤ lamports (cell c (key payer)))).
    { destruct (Z.ltb_spec 0 (shortfall space (cell c (key field)))).
      - apply invoke_Ok, transfer_law in Ht as (_ & Hle & Hc). cbn in Hle. by split; [|right].
      - injection Ht as <-. assert (shortfall space (cell c (key field)) = 0) as -> by lia. split; [|by left].
        by rewrite after_transfer_0. }
    destruct Hc1 as [Hc1 Hp]. apply AM_bind_Ok in Hg as ([] & c2 & Ha & Hg).
    apply invoke_Ok, allocate_law in Ha as (Hu & Hc2). cbn in Hu, Hc2.
    apply invoke_Ok, assign_law in Hg as (_ & Hc3). cbn in Hc3. apply created_intro; try done.
    + unfold unused in *. rewrite Hc1 in Hu. unfold after_transfer in Hu. rewrite !cell_update, decide_True, decide_False in Hu by done.
      exact Hu.
    + unfold after_create. by rewrite Hc3, Hc2, Hc1.
Qed.

(** Who takes part is in order: both accounts can be written, the payer signed, and the
    new account signed or is at an address of the program. *)
Record may_create (field payer : AccountInfo) (seeds : list Seeds) c : Prop := {
  mc_differ : key payer ≠ key field;
  mc_usable : usable [payer; field] c;
  mc_payer : Solana.is_signer payer = true;
  mc_field : Solana.is_signer field = true ∨ key field ∈ derived_keys seeds;
  mc_payer_unused : unused (cell c (key payer));
}.

Lemma signed_field field payer seeds c infos :
  may_create field payer seeds c → field ∈ infos → signed infos seeds (key field).
Proof. intros Hm Hi. exists field. split_and!; [done..|apply Hm]. Qed.

Lemma usable_field field payer seeds c c1 :
  may_create field payer seeds c → borrows c1 = borrows c → usable [field] c1.
Proof. intros Hm Hb i ->%list_elem_of_singleton. rewrite Hb. apply (mc_usable _ _ _ _ Hm). set_solver. Qed.

(** The transfer, if anything is missing *)
Lemma funding_runs field payer n seeds c :
  may_create field payer seeds c → n ≤ 0 ∨ n ≤ lamports (cell c (key payer)) →
  ∃ c1, (if 0 <? n then
           system_program.transfer (CpiContext.new (sc_info "system_program") (system_program.mkTransfer payer field)) n
         else mret tt) c = Ok (tt, c1) ∧
    cell c1 (key field) = add_lamports (Z.max 0 n) (cell c (key field)) ∧ borrows c1 = borrows c.
Proof.
  intros Hm Hn. destruct (Z.ltb_spec 0 n).
  - edestruct (transfer_runs (key payer) (key field) n [payer; field] [] c) as [c1 Hc]; try lia.
    + apply Hm.
    + exists payer. repeat split; [set_solver|left; apply Hm].
    + cbn. set_solver.
    + by apply Hm.
    + exists c1. split; [by apply invoke_Ok|]. apply transfer_law in Hc as (_ & _ & Hc). split; [|by destruct Hc].
      rewrite Hc, Z.max_r by lia. unfold after_transfer.
      by rewrite !cell_update, decide_True, decide_False by (done || apply not_eq_sym, Hm).
  - exists c. split; [done|]. rewrite Z.max_l by lia. by rewrite add_lamports_0.
Qed.

Lemma generate_create_account_runs field payer space o seeds c :
  may_create field payer seeds c → unused (cell c (key field)) → 0 ≤ lamports (cell c (key field)) →
  Z.of_nat space ≤ MAX_PERMITTED_DATA_INCREASE → minimum_balance space ≤ lamports (cell c (key payer)) →
  ∃ c', generate_create_account field payer space o seeds c = Ok (tt, c').
Proof.
  intros Hm Hu Hpos Hsp Hpay. pose proof (minimum_balance_pos space) as Hmin.
  unfold generate_create_account. rewrite (AM_bind_run _ _ _ (lamports (cell c (key field))) c) by done.
  destruct (Z.eqb_spec (lamports (cell c (key field))) 0) as [E|E].
  - edestruct (create_runs (key payer) (key field) (minimum_balance space) (Z.of_nat space) o [payer; field] seeds c)
      as [c' Hc]; try done; try lia.
    + apply Hm.
    + exists payer. repeat split; [set_solver|left; apply Hm].
    + eapply signed_field; [done|set_solver].
    + by apply Hm.
    + exists c'. by apply invoke_Ok.
  - set (n := Z.max 0 _).
    destruct (funding_runs field payer n seeds c) as (c1 & Ht & Hf & Hb1); [done|lia|].
    rewrite (AM_bind_run _ _ _ _ _ Ht).
    destruct (allocate_runs (key field) (Z.of_nat space) [field] seeds c1) as [c2 Hc2].
    { by eapply usable_field. } { eapply signed_field; [done|set_solver]. } { lia. } { unfold unused. by rewrite Hf. }
    rewrite (AM_bind_run _ _ _ tt c2) by (by apply invoke_Ok). apply allocate_law in Hc2 as (_ & Hc2 & Hb2).
    destruct (assign_runs (key field) o [field] seeds c2) as [c3 Hc3].
    { eapply usable_field; [done|]. by rewrite Hb2. } { eapply signed_field; [done|set_solver]. }
    { rewrite Hc2, cell_update, decide_True, Hf by done. apply Hu. }
    exists c3. by apply invoke_Ok.
Qed.

(** ** Initialising a field *)

Section init_facts.
Context (sc_space : Expr → nat) {V : Type}.
Context (from_account_info from_account_info_unchecked : Field → AM V).
Implicit Types (f : Field).

Lemma init_program_Ok f i o space c pa c' :
  (∀ c pa c', from_account_info_unchecked f c = Ok (pa, c') → c' = c) →
  (∀ c pa c', from_account_info f c = Ok (pa, c') → c' = c) →
  key (payer_info i) ≠ key (field_info f) → 0 ≤ lamports (cell c (key (field_info f))) →
  init_program program_id from_account_info from_account_info_unchecked f i o space c = Ok (pa, c') →
  let wanted := from_option sc_key program_id o in
  let k := key (field_info f) in
  (created (key (payer_info i)) k space wanted c c' ∧ from_account_info_unchecked f c' = Ok (pa, c')) ∨
  (if_needed i = true ∧ c' = c ∧ from_account_info f c = Ok (pa, c) ∧ owner (cell c k) ≠ system_program_id ∧
   owner (cell c k) = wanted ∧ length (data (cell c k)) = space ∧ minimum_balance space ≤ lamports (cell c k)).
Proof.
  intros Hun Hch Hne Hpos Hi wanted k. unfold init_program in Hi. fold wanted in Hi.
  apply AM_bind_Ok in Hi as (create & c0 & Hcr & Hi). unfold to_create, info_owner in Hcr.
  apply AM_bind_Ok in Hcr as (ow & c1 & [= <- <-] & [= <- <-]).
  apply AM_bind_Ok in Hi as (pa' & c1 & Hget & (u & c2 & Hif & [= <- <-])%AM_bind_Ok).
  assert (Hc2 : c2 = c1 ∧ (if_needed i = true → length (data (cell c1 k)) = space ∧ owner (cell c1 k) = wanted ∧
    minimum_balance space ≤ lamports (cell c1 k))).
  { destruct (if_needed i); [|by injection Hif].
    apply AM_bind_Ok in Hif as (len & d1 & Hlen & Hif). unfold data_len in Hlen.
    assert (len = length (data (cell c1 k)) ∧ d1 = c1) as [-> ->] by (fold k in Hlen; destruct (borrows c1 !! k) as [[]|]; naive_solver).
    apply AM_bind_Ok in Hif as ([] & d1 & [Hsp%negb_false_iff%Nat.eqb_eq ->]%fail_if_Ok & Hif).
    apply AM_bind_Ok in Hif as (ow & d1 & [= <- <-] & Hif).
    apply AM_bind_Ok in Hif as ([] & d1 & [How%negb_false_iff%Z.eqb_eq ->]%fail_if_Ok & Hif).
    apply AM_bind_Ok in Hif as (n & d1 & [= <- <-] & [Hn%Z.ltb_ge ->]%fail_if_Ok). by fold k in How, Hn. }
  destruct Hc2 as [-> Hif']. fold k in Hget.
  destruct (negb (if_needed i) || (owner (cell c k) =? system_program_id)) eqn:Eb.
  - left. apply AM_bind_Ok in Hget as ([] & c2 & Hg & Hget). pose proof (Hun _ _ _ Hget) as ->. split; [|done].
    eapply generate_create_account_Ok; [exact Hg|done..].
  - right. apply orb_false_iff in Eb as [En%negb_false_iff Eo%Z.eqb_neq]. pose proof (Hch _ _ _ Hget) as ->.
    by destruct (Hif' En) as (? & ? & ?).
Qed.

End init_facts.
End created.

(** *** Fields of type [Account] *)

Section account_field.
Context `{Scope} `{AnchorSdk} `{SystemLaws} (program_id : Pubkey).
Context {T : Type} `{AnchorDataLaws T}.
Implicit Types (f : Field) (i : ConstraintInitGroup) (v : T).

(** [Field::from_account_info] for [Ty::Account] *)
Definition account_from f : AM (Account T) := map_err (named f) (Account.try_from (field_info f)).
Definition account_from_unchecked f : AM (Account T) := map_err (named f) (Account.try_from_unchecked (field_info f)).

Definition init_account f i o space : AM (Account T) :=
  init_program program_id account_from account_from_unchecked f i o space.

Lemma AM_map_err_Ok {A} g (m : AM A) c a c' : map_err g m c = Ok (a, c') ↔ m c = Ok (a, c').
Proof. unfold map_err. destruct (m c) as [[]| |]; naive_solver. Qed.

Lemma check_info_inv {U} `{Owner U} info c u c' :
  Account.check_info (T := U) info c = Ok (u, c') → c' = c ∧ owner (cell c (key info)) = type_owner (T := U).
Proof.
  unfold Account.check_info, check_type_owner, info_owner, info_lamports.
  intros (o & c1 & [= <- <-] & Hc)%AM_bind_Ok. apply AM_bind_Ok in Hc as (n & c1 & [= <- <-] & Hc).
  apply AM_bind_Ok in Hc as ([] & c1 & [_ ->]%require_that_Ok & Hc).
  apply AM_bind_Ok in Hc as (o & c1 & [= <- <-] & [->%Z.eqb_eq ->]%require_that_Ok). done.
Qed.

Lemma account_from_Ok f c pa c' :
  account_from f c = Ok (pa, c') → c' = c ∧ owner (cell c (key (field_info f))) = type_owner (T := T).
Proof.
  intros (u & c1 & [-> Ho]%check_info_inv & Hc)%AM_map_err_Ok%AM_bind_Ok.
  apply AM_bind_Ok in Hc as (bs & c2 & (_ & -> & _)%try_borrow_data_Ok & Hc).
  by apply AM_bind_Ok in Hc as (a & c2 & [_ ->]%run_result_Ok & [= _ <-]).
Qed.

Lemma account_from_unchecked_Ok f c pa c' :
  account_from_unchecked f c = Ok (pa, c') → c' = c ∧ owner (cell c (key (field_info f))) = type_owner (T := T).
Proof.
  intros (u & c1 & [-> Ho]%check_info_inv & Hc)%AM_map_err_Ok%AM_bind_Ok.
  apply AM_bind_Ok in Hc as (bs & c2 & (_ & -> & _)%try_borrow_data_Ok & Hc).
  by apply AM_bind_Ok in Hc as (a & c2 & [_ ->]%run_result_Ok & [= _ <-]).
Qed.

(** An account that is ready for its value *)
Record ready (k : Pubkey) (space : nat) (o : Pubkey) (c : Cells) : Prop := {
  rd_owner : owner (cell c k) = o;
  rd_space : length (data (cell c k)) = space;
  rd_rent : minimum_balance space ≤ lamports (cell c k);
}.

Lemma created_ready payer k space o c c' : created payer k space o c c' → ready k space o c'.
Proof.
  intros [_ Ha _ _ _ _]. split; rewrite Ha; cbn; [done|by rewrite length_replicate|unfold shortfall; lia].
Qed.

Lemma init_account_Ok f i o space c pa c' :
  key (payer_info i) ≠ key (field_info f) → 0 ≤ lamports (cell c (key (field_info f))) →
  init_account f i o space c = Ok (pa, c') →
  let wanted := from_option sc_key program_id o in
  let k := key (field_info f) in
  (created (key (payer_info i)) k space wanted c c' ∨
   if_needed i = true ∧ c' = c ∧ account_from f c = Ok (pa, c) ∧ owner (cell c k) ≠ system_program_id) ∧
  ready k space wanted c'.
Proof.
  intros Hne Hpos Hi wanted k. eapply init_program_Ok in Hi; [|by intros ??? [? _]%account_from_unchecked_Ok|
    by intros ??? [? _]%account_from_Ok|done..].
  destruct Hi as [[Hc _]|(Hn & -> & Hf & Hs & Ho & Hl & Hr)].
  - split; [by left|by eapply created_ready].
  - split; [by right|by split].
Qed.

(** Nothing is created over an account of a program. *)
Lemma create_refuses field payer space o seeds c :
  owner (cell c (key field)) ≠ system_program_id → 0 < lamports (cell c (key field)) →
  ¬ is_Ok (generate_create_account field payer space o seeds c).
Proof.
  intros Ho Hl [[u c'] Hg]. unfold generate_create_account, info_lamports in Hg.
  apply AM_bind_Ok in Hg as (n & c0 & [= <- <-] & Hg). rewrite (proj2 (Z.eqb_neq _ _)) in Hg by lia.
  apply AM_bind_Ok in Hg as ([] & c1 & Ht & ([] & c2 & Ha & _)%AM_bind_Ok).
  apply invoke_Ok, allocate_law in Ha as ([Hs _] & _). cbn in Hs. apply Ho. rewrite <- Hs.
  destruct (0 <? _); [|by injection Ht as <-].
  apply invoke_Ok, transfer_law in Ht as (_ & _ & Hc). rewrite Hc. unfold after_transfer.
  rewrite !cell_update. by repeat case_decide.
Qed.

Lemma init_again f i o space c v :
  let k := key (field_info f) in
  program_id ≠ system_program_id → type_owner (T := T) = program_id → from_option sc_key program_id o = program_id →
  borsh_valid v → ready k space program_id c → borrows c !! k = None → (∃ rest, data (cell c k) = encoded v ++ rest) →
  if if_needed i then init_account f i o space c = Ok (mkAccount v (field_info f), c)
  else ¬ is_Ok (init_account f i o space c).
Proof.
  intros k Hp Ht Hw Hv [Ho Hl Hr] Hb [rest Hd]. pose proof (minimum_balance_pos space) as Hmin.
  unfold init_account, init_program. rewrite Hw.
  assert (E : to_create f i c = Ok (negb (if_needed i), c)).
  { unfold to_create, info_owner, mbind, AM_bind. fold k. rewrite Ho, (proj2 (Z.eqb_neq _ _)) by done. by rewrite orb_false_r. }
  destruct (if_needed i); cbn [negb] in E.
  - rewrite (AM_bind_run _ _ _ _ _ E).
    assert (Hf : account_from f c = Ok (mkAccount v (field_info f), c)).
    { apply AM_map_err_Ok. rewrite account_try_from_eq; [|intros [E0 _]; apply Hp; by rewrite <- Ho|by rewrite Ht|done].
      fold k. by rewrite Hd, deserialize_encoded by done. }
    rewrite (AM_bind_run _ _ _ _ _ Hf).
    erewrite AM_bind_run; [reflexivity|]. unfold data_len, info_owner, info_lamports, mbind, AM_bind, fail_if.
    fold k. rewrite Hb, Hl, Nat.eqb_refl. cbn. fold k. rewrite Ho, Z.eqb_refl. cbn. fold k.
    by rewrite (proj2 (Z.ltb_ge _ _)) by done.
  - intros [[pa c'] Hi]. apply AM_bind_Ok in Hi as (b & c0 & Hb0 & Hi). rewrite E in Hb0. injection Hb0 as <- <-.
    apply AM_bind_Ok in Hi as (pa' & c1 & ([] & c2 & Hg & _)%AM_bind_Ok & _).
    eapply create_refuses; [| |by eexists]; fold k; [congruence|lia].
Qed.

(** C32: A field [init] (or [init_if_needed]) of type [Account] that the checks accept
    is either a new account of the program, blank, rent exempt, of exactly the size
    that was asked for, and paid for by the payer, no other account having changed; or,
    only with [init_if_needed], it is an account of that size that was there before,
    unchanged and with the right discriminator.  Once an instruction has stored a value
    in it, [init_if_needed] finds that value, and [init] fails. *)
Theorem init_creates_or_keeps f i o space c pa c' :
  let k := key (field_info f) in
  program_id ≠ system_program_id → type_owner (T := T) = program_id → from_option sc_key program_id o = program_id →
  key (payer_info i) ≠ k → 0 ≤ lamports (cell c k) →
  init_account f i o space c = Ok (pa, c') →
  (created (key (payer_info i)) k space program_id c c' ∨
   if_needed i = true ∧ c' = c ∧ account_from f c = Ok (pa, c) ∧ owner (cell c k) ≠ system_program_id) ∧
  ready k space program_id c' ∧
  ∀ v c2 again, borsh_valid v → Account.exit (mkAccount v (field_info f)) program_id c' = Ok (tt, c2) →
    if if_needed again then init_account f again o space c2 = Ok (mkAccount v (field_info f), c2)
    else ¬ is_Ok (init_account f again o space c2).
Proof.
  intros k Hp Ht Hw Hne Hpos Hi. apply init_account_Ok in Hi as [Hcase Hready]; [|done..]. fold k in Hcase, Hready.
  rewrite Hw in Hcase, Hready. split; [done|]. split; [done|]. intros v c2 again Hv He.
  unfold Account.exit in He. rewrite Ht, Z.eqb_refl in He. cbn [ac_account ac_info] in He.
  assert (Hb : borrows c' !! k = None).
  { apply AM_bind_Ok in He as (bs & c3 & (_ & _ & Hb)%try_borrow_mut_data_Ok & _). done. }
  destruct (decide (length (encoded v) ≤ length (data (cell c' k)))%nat) as [Hl|Hl].
  - destruct (exit_writes v (field_info f) c' Hb Hl) as (c3 & He' & [Hd Ho Hlam _ Hbor]). rewrite He in He'. injection He' as <-.
    destruct Hready as [R1 R2 R3]. fold k in Hd, Ho, Hlam, Hbor. eapply init_again; try done; fold k.
    + split; [by rewrite Ho|rewrite Hd, length_app, length_drop; lia|by rewrite Hlam].
    + by rewrite Hbor.
    + by eexists.
  - unfold serialize_into, try_borrow_mut_data, mbind, AM_bind in He. fold k in He. rewrite Hb in He.
    unfold run_result in He. rewrite serialize_short in He by lia. done.
Qed.

End account_field.

(** ** A system program

    It does what [SystemLaws] says, for instructions whose accounts were passed and
    signed. *)

Definition passed (infos : list AccountInfo) (ks : list Pubkey) : bool :=
  forallb (λ k, existsb (λ i, key i =? k) infos) ks.

Definition has_signed (infos : list AccountInfo) (derived : list Pubkey) (ks : list Pubkey) : bool :=
  forallb (λ k, existsb (λ i, (key i =? k) && (Solana.is_signer i || bool_decide (k ∈ derived))) infos) ks.

#[export] Instance unused_dec a : Decision (unused a).
Proof. unfold unused. apply _. Defined.

(** The program derives one address from any seeds. *)
Definition test_derived : Pubkey := 900.
Definition test_derived_keys (seeds : list Seeds) : list Pubkey := (λ _, test_derived) <$> seeds.

Definition run_if (cond : bool) (c : Cells) : result ProgramError Cells := if cond then Ok c else Err InvalidArgument.

Definition test_invoke (ix : Invocation) (infos : list AccountInfo) (seeds : list Seeds) (c : Cells) :
    result ProgramError Cells :=
  let by_keys signers ks := passed infos ks && has_signed infos (test_derived_keys seeds) signers in
  let can_pay from n := bool_decide (unused (cell c from) ∧ n ≤ lamports (cell c from)) in
  let is_free to := bool_decide (unused (cell c to) ∧ lamports (cell c to) = 0) in
  match ix with
  | SysCreateAccount from to n space o =>
      run_if (by_keys [from; to] [] && can_pay from n && is_free to) (after_create from to n space o c)
  | SysCreateAccountWithSeed from to base _ n space o =>
      run_if (by_keys [from; base] [to] && can_pay from n && is_free to) (after_create from to n space o c)
  | SysTransfer from to n => run_if (by_keys [from] [to] && can_pay from n) (after_transfer from to n c)
  | SysAllocate k space => run_if (by_keys [k] [] && bool_decide (unused (cell c k))) (update_cell k (allocated_with space) c)
  | SysAssign k o =>
      run_if (by_keys [k] [] && (owner (cell c k) =? system_program_id)) (update_cell k (assigned_to o) c)
  | _ => Err InvalidArgument
  end.

#[export] Instance test_cpi : Cpi := {|
  cpi_invoke_signed := test_invoke;
  create_nonce_instructions _ _ _ _ := [];
  create_nonce_instructions_with_seed _ _ _ _ _ _ := [];
  minimum_balance n := Z.of_nat n + 128;
  token_account_len := 165;
  token_mint_len := 82;
  token_program_id := 6;
|}.

#[export] Instance test_system : SystemProgram := {| derived_keys := test_derived_keys |}.

Lemma has_signed_intro infos seeds k :
  signed infos seeds k → existsb (λ i, (key i =? k) && (Solana.is_signer i || bool_decide (k ∈ test_derived_keys seeds))) infos = true.
Proof.
  intros (i & Hi & Hk & Hs). apply existsb_exists. exists i. split; [by apply list_elem_of_In|].
  apply andb_true_iff. split; [by apply Z.eqb_eq|]. apply orb_true_iff. destruct Hs; [by left|right].
  by apply bool_decide_eq_true.
Qed.

Lemma signed_more infos seeds k : signed infos [] k → signed infos seeds k.
Proof. intros (i & ? & ? & [?|?%not_elem_of_nil]); [|done]. exists i. auto. Qed.

Lemma signed_passed infos seeds k : signed infos seeds k → existsb (λ i, key i =? k) infos = true.
Proof. intros (i & Hi & Hk & _). apply existsb_exists. exists i. split; [by apply list_elem_of_In|by apply Z.eqb_eq]. Qed.

Lemma run_if_Ok b c c' : run_if b c = Ok c' → b = true ∧ c' = c.
Proof. unfold run_if. destruct b; [by intros [= <-]|done]. Qed.

Ltac test_law :=
  intros; match goal with H : _ = Ok _ |- _ =>
    cbn in H; apply run_if_Ok in H as [?H ->]; repeat (apply andb_true_iff in H as [?H ?H]);
    rewrite ?bool_decide_eq_true, ?Z.eqb_eq in *; naive_solver
  end.

Lemma has_signed_Forall infos seeds ks :
  Forall (signed infos seeds) ks → has_signed infos (test_derived_keys seeds) ks = true.
Proof. induction 1 as [|k ks Hk _ IH]; cbn; [done|]. by rewrite has_signed_intro. Qed.

Lemma run_if_true b c : b = true → ∃ c', run_if b c = Ok c'.
Proof. intros ->. by eexists. Qed.

#[export] Instance test_laws : SystemLaws.
Proof.
  split; [test_law..| | | | |].
  - intros from to n space o infos seeds c _ Hf Ht _ Hu Hl Hp Hn. cbn [cpi_invoke_signed test_cpi test_invoke].
    apply run_if_true. rewrite has_signed_Forall by (repeat constructor; [by apply signed_more|done]).
    by rewrite !bool_decide_eq_true_2 by (split; lia || done).
  - intros from to n infos seeds c _ Hf Ht Hp Hn. cbn [cpi_invoke_signed test_cpi test_invoke].
    apply run_if_true. rewrite has_signed_Forall by (repeat constructor; by apply signed_more).
    rewrite bool_decide_eq_true_2 by (split; lia || done). cbn.
    apply list_elem_of_fmap in Ht as (i & -> & Hi). apply andb_true_iff. split; [|done]. rewrite andb_true_r, andb_true_r.
    apply existsb_exists. exists i. split; [by apply list_elem_of_In|apply Z.eqb_refl].
  - intros k space infos seeds c _ Hk _ Hu. cbn [cpi_invoke_signed test_cpi test_invoke]. apply run_if_true.
    rewrite has_signed_Forall by (by repeat constructor). by rewrite bool_decide_eq_true_2.
  - intros k o infos seeds c _ Hk Ho. cbn [cpi_invoke_signed test_cpi test_invoke]. apply run_if_true.
    rewrite has_signed_Forall by (by repeat constructor). by rewrite Ho.
  - intros space. cbn. lia.
Qed.

(** ** A flag that is created by its first instruction *)

#[local] Existing Instances text all_features AnchorChecks.vault_sdk.

#[local] Instance flag_scope : Scope := {|
  sc_info name := if decide (name = "flag") then mkAccountInfo 7 true true
                  else if decide (name = "user") then mkAccountInfo 8 true true else mkAccountInfo 0 false false;
  sc_key _ := 8;
  sc_bool _ := true;
  sc_literal _ := true;
  sc_error _ := Error_from_code Deprecated;
  sc_seeds _ := [];
  sc_bump _ := 0;
  sc_decimals _ := 0;
  sc_member _ _ := mret 8;
  sc_token _ := mkTokenFields 0 0 0 None None;
  rent_is_exempt n len := minimum_balance len <=? n;
  create_program_address _ _ := None;
  get_associated_token_address _ _ := 0;
|}.

Definition flag_init (needed : bool) : ConstraintInitGroup :=
  mkConstraintInitGroup needed None "user" (Some "9") (InitProgram None).

Definition flag_field (g : ConstraintGroup) : Field := mkField "flag" g TyAccount.

Lemma init_creates_or_keeps_witness :
  let c := mkCells {[ 7 := mkAccountState 0 100 []; 8 := mkAccountState 0 1000 [] ]} ∅ ∅ in
  let f := flag_field vault_group in
  ∃ c', init_account testbed_owner (T := Flag) f (flag_init true) None 9 c = Ok (mkAccount (mkFlag false) (field_info f), c') ∧
    cell c' 7 = mkAccountState testbed_owner 137 (replicate 9 0) ∧ lamports (cell c' 8) = 963 ∧
    ∃ c2, Account.exit (mkAccount (mkFlag true) (field_info f)) testbed_owner c' = Ok (tt, c2) ∧
      init_account testbed_owner f (flag_init true) None 9 c2 = Ok (mkAccount (mkFlag true) (field_info f), c2) ∧
      ¬ is_Ok (init_account testbed_owner (T := Flag) f (flag_init false) None 9 c2).
Proof.
  intros c f. eexists. split; [reflexivity|]. split; [reflexivity|]. split; [reflexivity|].
  eexists. split; [reflexivity|].
  edestruct (init_creates_or_keeps testbed_owner (T := Flag) f (flag_init true) None 9 c) as (_ & _ & Hagain).
  - done.
  - done.
  - done.
  - done.
  - by vm_compute.
  - reflexivity.
  - split.
    + exact (Hagain (mkFlag true) _ (flag_init true) I eq_refl).
    + exact (Hagain (mkFlag true) _ (flag_init false) I eq_refl).
Defined.

(** ** Which groups have code *)

(** An accepted field with [init] has code if the rent is enforced, as it is unless
    the keyword [rent_exempt = skip] is given. *)
Lemma accepted_init_has_code `{Cpi} {V} (sc_space : string → nat) (from unchecked : Field → AM V) token earlier f i tokens :
  parse_constraints (Some (ty f)) tokens = Ok (constraints f) → cg_init (constraints f) = Some i →
  cg_rent_exempt (constraints f) = Some Enforce →
  is_Some (generate_constraint_init_group testbed_owner sc_space from unchecked token earlier f i).
Proof.
  intros [Hwf _]%parsed_well_formed Hi Hr.
  destruct (wf_init _ _ Hwf i Hi) as (_ & _ & _ & _ & _ & _ & _ & _ & _ & _ & Hs).
  unfold generate_constraint_init_group, anchor_rent. rewrite Hr, orb_true_r. destruct (kind i) eqn:Ek; try by eexists.
  destruct (proj2 Hs) as [e ->]; [by eexists|]. by eexists.
Qed.

(** With that keyword the macro accepts the field, and the code that it generates names
    a rent that is not defined, unless a field before it defined it. *)
Example init_without_rent_has_no_code :
  let tokens := [TokenInit false; TokenSigner None; TokenPayer "user"; TokenSpace "9"; TokenRentExempt Skip] in
  ∃ g i, parse_constraints (Some TyAccount) tokens = Ok g ∧ cg_init g = Some i ∧
    generate_constraint_init_group (V := unit) testbed_owner (λ _, 9%nat) (λ _, mret tt) (λ _, mret tt)
      (λ _, mkTokenFields 0 0 0 None None) false (flag_field g) i = None.
Proof. intros tokens. eexists _, _. split; [vm_compute; reflexivity|]. split; reflexivity. Qed.
