(* ===== verification/AnchorIdl.v ===== *)
(** * Anchor: the instructions for the interface description

    [anchor/lang/src/idl.rs] and the module [__idl] that
    [syn/src/codegen/program/handlers.rs] puts into every program: an account of the
    program holds its interface description (IDL), and the owner of a key, its
    authority, can append to it, replace it by a buffer, and hand it over.  The
    [Accounts] structs are written here as the derived code expands; that the checks
    are those that the macro generates for the keywords in the source is proved.

    Bump seeds, which only a struct with derived addresses collects, are left out.
    Encodings of borsh are a parameter. *)

From stdpp Require Import strings.
From S2P Require Import Prelude Errors Layouts StateBase Solana AnchorBase AnchorAccounts.
From S2P Require Import AnchorFacts AnchorConstraints AnchorConstraintFacts AnchorChecks AnchorInit.

(** ** [idl.rs] *)

Definition IDL_IX_TAG : Z := 0x0a69e9a778bcf440.

Definition ERASED_AUTHORITY : Pubkey := 0.

Inductive IdlInstruction : Type :=
| IdlCreate (data_len : Z)
| IdlCreateBuffer
| IdlWrite (data : list Z)
| IdlSetBuffer
| IdlSetAuthority (new_authority : Pubkey).

Record IdlAccount : Type := mkIdlAccount { idl_authority : Pubkey; idl_data : list Z }.

(** The encodings that are derived.  ([#[account("internal")]] provides no owner, and
    none is used.) *)
Class IdlSdk : Type := {
  idl_account_data :: AnchorData IdlAccount;
  idl_instruction_deserialize : list Z → option IdlInstruction;
}.

Definition idl_seed : string := "anchor:idl".

(** [IdlAccount::address]; [None] is the panic of [expect]. *)
Definition idl_address `{AnchorSdk} (program_id : Pubkey) : option Pubkey :=
  let '(program_signer, _) := pubkey_find_program_address [] program_id in
  pubkey_create_with_seed program_signer idl_seed program_id.

(** ** The structs of accounts *)

(** The error of a check on a field *)
Definition field_error (name : string) (code : ErrorCode) : Error := with_account_name (Error_from_code code) name.

Definition in_field {A} (name : string) (m : AM A) : AM A := map_err (λ e, with_account_name e name) m.

Definition check_field (cond : bool) (name : string) (code : ErrorCode) : AM unit :=
  require_that cond (field_error name code).

Record Ctor : Type := mkCtor {
  ct_from : AccountInfo;
  ct_to : AccountInfo;
  ct_base : AccountInfo;
  ct_system_program : AccountInfo;
  ct_program : AccountInfo;
}.

Module Ctor.

(** [#[account(signer)] from], [#[account(mut)] to] *)
Definition try_accounts (accounts : list AccountInfo) : AM (Ctor * list AccountInfo) :=
  '(from, accounts) ← in_field "from" (take_account accounts);
  '(to, accounts) ← in_field "to" (take_account accounts);
  '(base, accounts) ← in_field "base" (take_account accounts);
  '(system_program, accounts) ← in_field "system_program" (take_account accounts);
  '(program, accounts) ← in_field "program" (take_account accounts);
  _ ← check_field (Solana.is_signer from) "from" ConstraintSigner;
  _ ← check_field (is_writable to) "to" ConstraintMut;
  mret (mkCtor from to base system_program program, accounts).

(** The account that is mutable is a handle, which writes nothing. *)
Definition exit (self : Ctor) (program_id : Pubkey) : AM unit := in_field "to" (exit_noop (ct_to self) program_id).

End Ctor.

Section idl.
Context `{IdlSdk} `{AnchorSdk} `{Cpi} (program_id : Pubkey).

Record IdlAccounts : Type := mkIdlAccounts { ia_idl : Account IdlAccount; ia_authority : AccountInfo }.

(** [my_key != target_key] *)
Definition check_has_one (name : string) (my_key target_key : Pubkey) : AM unit :=
  require_that (my_key =? target_key)
    (with_pubkeys (field_error name AnchorBase.ConstraintHasOne) (my_key, target_key)).

Definition authority_kept (authority : AccountInfo) : bool := negb (key authority =? ERASED_AUTHORITY).

(** [#[account(mut, has_one = authority)] idl],
    [#[account(constraint = authority.key != &ERASED_AUTHORITY)] authority] *)
Definition idl_accounts_try_accounts (accounts : list AccountInfo) : AM (IdlAccounts * list AccountInfo) :=
  '(idl, accounts) ← in_field "idl" (ProgramAccount.try_accounts program_id accounts);
  '(authority, accounts) ← in_field "authority" (Signer.try_accounts accounts);
  _ ← check_field (is_writable (ac_info idl)) "idl" ConstraintMut;
  _ ← check_has_one "idl" (idl_authority (ac_account idl)) (key authority);
  _ ← check_field (authority_kept authority) "authority" AnchorBase.ConstraintRaw;
  mret (mkIdlAccounts idl authority, accounts).

Definition idl_accounts_exit (self : IdlAccounts) : AM unit :=
  in_field "idl" (ProgramAccount.exit (ia_idl self) program_id).

Record IdlCreateBufferAccounts : Type := mkIdlCreateBufferAccounts {
  cb_buffer : Account IdlAccount;
  cb_authority : AccountInfo;
}.

(** [#[account(zero)] buffer]: the handle is taken first, and the checks make it an
    account, which has to be mutable and rent exempt. *)
Definition create_buffer_try_accounts (accounts : list AccountInfo) : AM (IdlCreateBufferAccounts * list AccountInfo) :=
  '(info, accounts) ← take_account accounts;
  '(authority, accounts) ← in_field "authority" (Signer.try_accounts accounts);
  bs ← try_borrow_data info;
  if (length bs <? 8)%nat then abort
  else
    _ ← check_field (of_le_bytes (take 8 bs) =? 0) "buffer" ConstraintZero;
    buffer ← in_field "buffer" (ProgramAccount.try_from_unchecked program_id info);
    _ ← check_field (is_writable info) "buffer" ConstraintMut;
    n ← info_lamports info;
    bs ← try_borrow_data info;
    _ ← check_field (minimum_balance (length bs) <=? n) "buffer" AnchorBase.ConstraintRentExempt;
    _ ← check_field (authority_kept authority) "authority" AnchorBase.ConstraintRaw;
    mret (mkIdlCreateBufferAccounts buffer authority, accounts).

Definition create_buffer_exit (self : IdlCreateBufferAccounts) : AM unit :=
  in_field "buffer" (ProgramAccount.exit (cb_buffer self) program_id).

Record IdlSetBufferAccounts : Type := mkIdlSetBufferAccounts {
  sb_buffer : Account IdlAccount;
  sb_idl : Account IdlAccount;
  sb_authority : AccountInfo;
}.

(** [#[account(mut, constraint = buffer.authority == idl.authority)] buffer],
    [#[account(mut, has_one = authority)] idl] *)
Definition set_buffer_try_accounts (accounts : list AccountInfo) : AM (IdlSetBufferAccounts * list AccountInfo) :=
  '(buffer, accounts) ← in_field "buffer" (ProgramAccount.try_accounts program_id accounts);
  '(idl, accounts) ← in_field "idl" (ProgramAccount.try_accounts program_id accounts);
  '(authority, accounts) ← in_field "authority" (Signer.try_accounts accounts);
  _ ← check_field (is_writable (ac_info buffer)) "buffer" ConstraintMut;
  _ ← check_field (idl_authority (ac_account buffer) =? idl_authority (ac_account idl)) "buffer" AnchorBase.ConstraintRaw;
  _ ← check_field (is_writable (ac_info idl)) "idl" ConstraintMut;
  _ ← check_has_one "idl" (idl_authority (ac_account idl)) (key authority);
  _ ← check_field (authority_kept authority) "authority" AnchorBase.ConstraintRaw;
  mret (mkIdlSetBufferAccounts buffer idl authority, accounts).

Definition set_buffer_exit (self : IdlSetBufferAccounts) : AM unit :=
  _ ← in_field "buffer" (ProgramAccount.exit (sb_buffer self) program_id);
  in_field "idl" (ProgramAccount.exit (sb_idl self) program_id).

(** ** The handlers: functions on the accounts, which [exit] then writes *)

Definition set_account (self : Account IdlAccount) (a : IdlAccount) : Account IdlAccount := mkAccount a (ac_info self).

Definition __idl_create_buffer (accounts : IdlCreateBufferAccounts) : IdlCreateBufferAccounts :=
  let buffer := cb_buffer accounts in
  mkIdlCreateBufferAccounts
    (set_account buffer (mkIdlAccount (key (cb_authority accounts)) (idl_data (ac_account buffer))))
    (cb_authority accounts).

Definition __idl_write (accounts : IdlAccounts) (idl_bytes : list Z) : IdlAccounts :=
  let idl := ia_idl accounts in
  mkIdlAccounts
    (set_account idl (mkIdlAccount (idl_authority (ac_account idl)) (idl_data (ac_account idl) ++ idl_bytes)))
    (ia_authority accounts).

Definition __idl_set_authority (accounts : IdlAccounts) (new_authority : Pubkey) : IdlAccounts :=
  let idl := ia_idl accounts in
  mkIdlAccounts (set_account idl (mkIdlAccount new_authority (idl_data (ac_account idl)))) (ia_authority accounts).

Definition __idl_set_buffer (accounts : IdlSetBufferAccounts) : IdlSetBufferAccounts :=
  let idl := sb_idl accounts in
  mkIdlSetBufferAccounts (sb_buffer accounts)
    (set_account idl (mkIdlAccount (idl_authority (ac_account idl)) (idl_data (ac_account (sb_buffer accounts)))))
    (sb_authority accounts).

(** The account is created at the address of the IDL, and the handle [to] is written. *)
Definition __idl_create_account (accounts : Ctor) (data_len : Z) : AM unit :=
  if negb (program_id =? key (ct_program accounts)) then err IdlInstructionInvalidProgram
  else
    let from := key (ct_from accounts) in
    let '(base, nonce) := pubkey_find_program_address [] program_id in
    let owner := key (ct_program accounts) in
    match pubkey_create_with_seed base idl_seed owner with
    | None => abort
    | Some to =>
        let space := (8 + 32 + 4 + data_len) mod 2 ^ 64 in
        let lamports := minimum_balance (Z.to_nat space) in
        _ ← invoke (SysCreateAccountWithSeed from to base idl_seed lamports space owner)
              [ct_from accounts; ct_to accounts; ct_base accounts; ct_system_program accounts] [[[nonce]]];
        account_data ← try_borrow_data (ct_to accounts);
        idl_account ← run_result (try_deserialize_unchecked account_data);
        let idl_account := mkIdlAccount from (idl_data idl_account) in
        serialize_into idl_account (ct_to accounts)
    end.

Definition __idl_dispatch (no_idl : bool) (accounts : list AccountInfo) (idl_ix_data : list Z) : AM unit :=
  if no_idl then err IdlInstructionStub
  else
    ix ← run_result (ok_or (Error_from_code InstructionDidNotDeserialize) (idl_instruction_deserialize idl_ix_data));
    match ix with
    | IdlCreate data_len =>
        '(a, _) ← Ctor.try_accounts accounts;
        _ ← __idl_create_account a data_len;
        Ctor.exit a program_id
    | IdlCreateBuffer =>
        '(a, _) ← create_buffer_try_accounts accounts;
        create_buffer_exit (__idl_create_buffer a)
    | IdlWrite data =>
        '(a, _) ← idl_accounts_try_accounts accounts;
        idl_accounts_exit (__idl_write a data)
    | IdlSetAuthority new_authority =>
        '(a, _) ← idl_accounts_try_accounts accounts;
        idl_accounts_exit (__idl_set_authority a new_authority)
    | IdlSetBuffer =>
        '(a, _) ← set_buffer_try_accounts accounts;
        set_buffer_exit (__idl_set_buffer a)
    end.

End idl.

(** ** The expansions are what the macro generates *)

Section expansion.
Context `{IdlSdk} `{AnchorSdk} `{Cpi} (program_id : Pubkey).

#[local] Existing Instances text all_features.

(** The values that the code for a field refers to: the handles, the authorities of
    the accounts that were read, and the conditions *)
Definition struct_scope (info : string → AccountInfo) (authority_of : string → Pubkey) (holds : string → bool) : Scope := {|
  sc_info := info;
  sc_key name := key (info name);
  sc_bool := holds;
  sc_literal := holds;
  sc_error _ := Error_from_code Deprecated;
  sc_seeds _ := [];
  sc_bump _ := 0;
  sc_decimals _ := 0;
  sc_member name _ := mret (authority_of name);
  sc_token _ := mkTokenFields 0 0 0 None None;
  rent_is_exempt n len := minimum_balance len <=? n;
  create_program_address _ _ := None;
  get_associated_token_address _ _ := 0;
|}.

(** The checks of a field declared with some keywords *)
Definition field_checks (sc : Scope) (unchecked : string → AM unit) (name : string) (t : Ty)
    (tokens : list ConstraintToken) : option (AM unit) :=
  match parse_constraints (Some t) tokens with
  | Ok g => generate program_id (λ _ _, None) unchecked (mkField name g t) 0
  | _ => None
  end.

Lemma fail_if_negb b e : fail_if (negb b) e = require_that b e.
Proof. by destruct b. Qed.

Ltac expand := unfold check_field, check_has_one; rewrite <- ?fail_if_negb; reflexivity.

Lemma ctor_expansion info a h u :
  let sc := struct_scope info a h in
  field_checks sc u "from" TyAccountInfo [TokenSigner None] =
    Some (_ ← check_field (Solana.is_signer (info "from")) "from" ConstraintSigner; mret tt) ∧
  field_checks sc u "to" TyAccountInfo [TokenMut None] =
    Some (_ ← check_field (is_writable (info "to")) "to" ConstraintMut; mret tt).
Proof. split; expand. Qed.

Lemma idl_field_expansion info a h u :
  field_checks (struct_scope info a h) u "idl" TyProgramAccount
    [TokenMut None; TokenHasOne (mkConstraintHasOne "authority" None)] =
  Some (_ ← check_field (is_writable (info "idl")) "idl" ConstraintMut;
        _ ← check_has_one "idl" (a "idl") (key (info "authority")); mret tt).
Proof. expand. Qed.

Lemma authority_field_expansion info a (h : string → bool) u :
  h "authority.key != &ERASED_AUTHORITY" = authority_kept (info "authority") →
  field_checks (struct_scope info a h) u "authority" TySigner [TokenRaw (mkConstraintRaw "authority.key != &ERASED_AUTHORITY" None)] =
  Some (_ ← check_field (authority_kept (info "authority")) "authority" AnchorBase.ConstraintRaw; mret tt).
Proof. intros <-. expand. Qed.

Lemma set_buffer_field_expansion info a (h : string → bool) u :
  h "buffer.authority == idl.authority" = (a "buffer" =? a "idl") →
  field_checks (struct_scope info a h) u "buffer" TyProgramAccount
    [TokenMut None; TokenRaw (mkConstraintRaw "buffer.authority == idl.authority" None)] =
  Some (_ ← check_field (is_writable (info "buffer")) "buffer" ConstraintMut;
        _ ← check_field (a "buffer" =? a "idl") "buffer" AnchorBase.ConstraintRaw; mret tt).
Proof. intros <-. expand. Qed.


Lemma create_buffer_field_expansion info a h (unchecked : string → AM unit) :
  field_checks (struct_scope info a h) unchecked "buffer" TyProgramAccount [TokenZeroed] =
  Some (_ ← (bs ← try_borrow_data (info "buffer");
             if (length bs <? 8)%nat then abort
             else _ ← fail_if (negb (of_le_bytes (take 8 bs) =? 0)) (field_error "buffer" ConstraintZero);
                  in_field "buffer" (unchecked "buffer"));
        _ ← check_field (is_writable (info "buffer")) "buffer" ConstraintMut;
        _ ← (n ← info_lamports (info "buffer");
             bs ← try_borrow_data (info "buffer");
             fail_if (negb (minimum_balance (length bs) <=? n)) (field_error "buffer" AnchorBase.ConstraintRentExempt));
        mret tt).
Proof. expand. Qed.

End expansion.

(** ** What an account of the interface description goes through *)

(** A key has 32 bytes, and a vector of bytes fewer than 2^32 elements. *)
Definition key_range (k : Pubkey) : Prop := 0 ≤ k < 2 ^ 256.

Class IdlLaws `{IdlSdk} : Prop := {
  idl_account_laws :: AnchorDataLaws IdlAccount;
  (* the start of a hash *)
  idl_not_blank : of_le_bytes (discriminator (T := IdlAccount)) ≠ 0;
  idl_valid a : borsh_valid a ↔
    key_range (idl_authority a) ∧ Forall is_byte (idl_data a) ∧ Z.of_nat (length (idl_data a)) < 2 ^ 32;
  idl_parse_valid bs (a : IdlAccount) : borsh_parse bs = Some a → borsh_valid a;
  idl_encoded_length (a : IdlAccount) : (length (idl_data a) ≤ length (encoded a))%nat;
  idl_write_bytes bs d : idl_instruction_deserialize bs = Some (IdlWrite d) → Forall is_byte d;
  idl_set_authority_key bs k : idl_instruction_deserialize bs = Some (IdlSetAuthority k) → key_range k;
}.

Section history.
Context `{IdlLaws} `{AnchorSdk} `{SystemLaws} (program_id : Pubkey).
Context (not_system : program_id ≠ system_program_id).
Implicit Types (a : IdlAccount) (c : Cells) (info : AccountInfo).

(** The account [k] of the program holds [a]. *)
Record holds_idl (k : Pubkey) a c : Prop := {
  hi_owner : owner (cell c k) = program_id;
  hi_data : ∃ rest, data (cell c k) = encoded a ++ rest;
  hi_valid : borsh_valid a;
  hi_size : Z.of_nat (length (data (cell c k))) < 2 ^ 32;
}.

(** What an instruction of the authority makes of an account *)
Inductive idl_change a : IdlInstruction → IdlAccount → Prop :=
| idl_written bs : idl_change a (IdlWrite bs) (mkIdlAccount (idl_authority a) (idl_data a ++ bs))
| idl_handed_over new : idl_change a (IdlSetAuthority new) (mkIdlAccount new (idl_data a))
| idl_replaced b : idl_authority b = idl_authority a →
    idl_change a IdlSetBuffer (mkIdlAccount (idl_authority a) (idl_data b)).

(** The authority is among the accounts, and signed, and is not the erased one. *)
Definition authorised (accounts : list AccountInfo) a : Prop :=
  ∃ info, info ∈ accounts ∧ key info = idl_authority a ∧ Solana.is_signer info = true ∧
    idl_authority a ≠ ERASED_AUTHORITY.

(** An initial creation that is given the account [k] for the new one *)
Definition creates_over (k : Pubkey) (accounts : list AccountInfo) (bs : list Z) : Prop :=
  ∃ n to, idl_instruction_deserialize bs = Some (IdlCreate n) ∧ accounts !! 1%nat = Some to ∧ key to = k.

(** What an instruction that is executed makes of the account [k]: a change that the
    authority signed, or the new authority of a creation that is given the account,
    which is the first account and signed. *)
Inductive idl_effect (k : Pubkey) accounts bs a : IdlAccount → Prop :=
| effect_authorised ix a' :
    authorised accounts a → idl_instruction_deserialize bs = Some ix → idl_change a ix a' →
    idl_effect k accounts bs a a'
| effect_created_over from :
    creates_over k accounts bs → accounts !! 0%nat = Some from → Solana.is_signer from = true →
    idl_effect k accounts bs a (mkIdlAccount (key from) (idl_data a)).

(** Public keys are 32 bytes. *)
Definition key_info (i : AccountInfo) : Prop := key_range (key i).

Lemma in_field_Ok {A} name (m : AM A) c x c' : in_field name m c = Ok (x, c') → m c = Ok (x, c').
Proof. apply AM_map_err_Ok. Qed.

Lemma check_field_Ok b name code c u c' : check_field b name code c = Ok (u, c') → b = true ∧ c' = c.
Proof. intros Hc. by apply require_that_Ok in Hc. Qed.

Lemma check_has_one_Ok name k k' c u c' : check_has_one name k k' c = Ok (u, c') → k = k' ∧ c' = c.
Proof. by intros [->%Z.eqb_eq ->]%require_that_Ok. Qed.

Lemma take_account_Ok accounts c info rest c' :
  take_account accounts c = Ok ((info, rest), c') → accounts = info :: rest ∧ c' = c.
Proof. destruct accounts; [done|]. by intros [= <- <- <-]. Qed.

Lemma program_account_Ok accounts c pa rest c' :
  ProgramAccount.try_accounts (T := IdlAccount) program_id accounts c = Ok ((pa, rest), c') →
  accounts = ac_info pa :: rest ∧ c' = c ∧ owner (cell c (key (ac_info pa))) = program_id ∧
  try_deserialize (data (cell c (key (ac_info pa)))) = Ok (ac_account pa).
Proof.
  intros ((info & r) & c1 & [-> ->]%take_account_Ok & Hc)%AM_bind_Ok.
  apply AM_bind_Ok in Hc as (b & c2 & Ht & [= <- <- <-]).
  apply AM_bind_Ok in Ht as (u & c3 & Ho & Ht). unfold check_type_owner, info_owner in Ho.
  apply AM_bind_Ok in Ho as (o & c4 & [= <- <-] & [Ho%Z.eqb_eq ->]%require_that_Ok).
  apply AM_bind_Ok in Ht as (bs & c4 & (-> & -> & _)%try_borrow_data_Ok & Ht).
  by apply AM_bind_Ok in Ht as (v & c4 & [Hv ->]%run_result_Ok & [= <- <-]).
Qed.

Lemma signer_Ok accounts c info rest c' :
  Signer.try_accounts accounts c = Ok ((info, rest), c') →
  accounts = info :: rest ∧ c' = c ∧ Solana.is_signer info = true.
Proof.
  intros ((i & r) & c1 & [-> ->]%take_account_Ok & Hc)%AM_bind_Ok.
  apply AM_bind_Ok in Hc as (j & c2 & (u & c3 & [Hs ->]%require_that_Ok & [= <- <-])%AM_bind_Ok & [= <- <- <-]). done.
Qed.

(** What is read from an account that holds a description *)
Lemma holds_read k a c (pa : Account IdlAccount) :
  holds_idl k a c → key (ac_info pa) = k → try_deserialize (data (cell c (key (ac_info pa)))) = Ok (ac_account pa) →
  ac_account pa = a.
Proof. intros [_ [rest Hd] Hv _] -> Ht. rewrite Hd, deserialize_encoded in Ht by done. congruence. Qed.

Lemma idl_read_unchecked a rest a' :
  borsh_valid a → try_deserialize_unchecked (encoded a ++ rest) = Ok a' → a' = a.
Proof.
  intros Hv Hr. pose proof (deserialize_encoded a rest Hv) as Ht. cbn in Ht, Hr. unfold account_try_deserialize in Ht.
  apply bind_Ok in Ht as (u & _ & Ht). congruence.
Qed.

(** What is read is bytes. *)
Lemma read_bytes bs a : try_deserialize bs = Ok a → Forall is_byte (idl_data a).
Proof.
  cbn. unfold account_try_deserialize, account_try_deserialize_unchecked. intros (u & _ & Ht)%bind_Ok.
  destruct (_ <? 8)%nat; [done|]. destruct (borsh_parse _) as [b|] eqn:E; [|done]. injection Ht as <-.
  by apply idl_parse_valid, idl_valid in E as (_ & ? & _).
Qed.

(** Writing an account: that one holds the value, and others are as they were. *)
Lemma serialize_into_Ok a info c u c' :
  serialize_into a info c = Ok (u, c') →
  data_put (key info) (encoded a ++ drop (length (encoded a)) (data (cell c (key info)))) c c' ∧
  (length (encoded a) ≤ length (data (cell c (key info))))%nat.
Proof.
  intros Hs. assert (Hb : borrows c !! key info = None).
  { by apply AM_bind_Ok in Hs as (bs & c3 & (_ & _ & Hb)%try_borrow_mut_data_Ok & _). }
  destruct (decide (length (encoded a) ≤ length (data (cell c (key info))))%nat) as [Hl|Hl].
  - destruct (exit_writes a info c Hb Hl) as (c3 & He & Hp). rewrite He in Hs. by injection Hs as _ <-.
  - unfold serialize_into, try_borrow_mut_data, mbind, AM_bind in Hs. rewrite Hb in Hs.
    unfold run_result in Hs. by rewrite serialize_short in Hs by lia.
Qed.

(** The range of the fields alone: what is written fits into the account. *)
Definition in_range a : Prop := key_range (idl_authority a) ∧ Forall is_byte (idl_data a).

Lemma valid_in_range a : borsh_valid a → in_range a.
Proof. by intros (? & ? & _)%idl_valid. Qed.

Lemma written_holds a info c u c' :
  serialize_into a info c = Ok (u, c') → owner (cell c (key info)) = program_id → in_range a →
  Z.of_nat (length (data (cell c (key info)))) < 2 ^ 32 → holds_idl (key info) a c'.
Proof.
  intros [[Hd Ho _ _ _] Hl]%serialize_into_Ok Hp [Hk Hb] Hsz. pose proof (idl_encoded_length a).
  split; [by rewrite Ho|by eexists|apply idl_valid; split_and!; [done..|lia]|].
  rewrite Hd, length_app, length_drop. lia.
Qed.

(** Writing back what was there changes nothing. *)
Lemma rewritten_same k a info c u c' :
  holds_idl k a c → key info = k → serialize_into a info c = Ok (u, c') → cell c' k = cell c k.
Proof.
  intros [_ [rest Hr] _ _] <- [[Hd Ho Hl _ _] _]%serialize_into_Ok.
  rewrite Hr, drop_app_length in Hd. destruct (cell c' (key info)), (cell c (key info)); cbn in *. congruence.
Qed.

(** *** The structs: what their checks established *)

Lemma idl_accounts_Ok accounts c x rest c' :
  idl_accounts_try_accounts program_id accounts c = Ok ((x, rest), c') →
  let idl := ia_idl x in
  c' = c ∧ accounts = ac_info idl :: ia_authority x :: rest ∧ Solana.is_signer (ia_authority x) = true ∧
  owner (cell c (key (ac_info idl))) = program_id ∧
  try_deserialize (data (cell c (key (ac_info idl)))) = Ok (ac_account idl) ∧
  idl_authority (ac_account idl) = key (ia_authority x) ∧ key (ia_authority x) ≠ ERASED_AUTHORITY.
Proof.
  intros ((idl & r1) & c1 & (-> & -> & Ho & Hd)%in_field_Ok%program_account_Ok & Hc)%AM_bind_Ok.
  apply AM_bind_Ok in Hc as ((authority & r2) & c1 & (-> & -> & Hs)%in_field_Ok%signer_Ok & Hc).
  apply AM_bind_Ok in Hc as (u1 & c1 & [_ ->]%check_field_Ok & Hc).
  apply AM_bind_Ok in Hc as (u2 & c1 & [Ha ->]%check_has_one_Ok & Hc).
  apply AM_bind_Ok in Hc as (u3 & c1 & [Hk%negb_true_iff%Z.eqb_neq ->]%check_field_Ok & [= <- <- <-]). done.
Qed.

Lemma set_buffer_Ok accounts c x rest c' :
  set_buffer_try_accounts program_id accounts c = Ok ((x, rest), c') →
  let idl := sb_idl x in
  let buffer := sb_buffer x in
  c' = c ∧ accounts = ac_info buffer :: ac_info idl :: sb_authority x :: rest ∧
  Solana.is_signer (sb_authority x) = true ∧
  owner (cell c (key (ac_info idl))) = program_id ∧ owner (cell c (key (ac_info buffer))) = program_id ∧
  try_deserialize (data (cell c (key (ac_info idl)))) = Ok (ac_account idl) ∧
  try_deserialize (data (cell c (key (ac_info buffer)))) = Ok (ac_account buffer) ∧
  idl_authority (ac_account buffer) = idl_authority (ac_account idl) ∧
  idl_authority (ac_account idl) = key (sb_authority x) ∧ key (sb_authority x) ≠ ERASED_AUTHORITY.
Proof.
  intros ((buffer & r0) & c1 & (-> & -> & Hob & Hdb)%in_field_Ok%program_account_Ok & Hc)%AM_bind_Ok.
  apply AM_bind_Ok in Hc as ((idl & r1) & c1 & (-> & -> & Ho & Hd)%in_field_Ok%program_account_Ok & Hc).
  apply AM_bind_Ok in Hc as ((authority & r2) & c1 & (-> & -> & Hs)%in_field_Ok%signer_Ok & Hc).
  apply AM_bind_Ok in Hc as (u0 & c1 & [_ ->]%check_field_Ok & Hc).
  apply AM_bind_Ok in Hc as (u1 & c1 & [Hab%Z.eqb_eq ->]%check_field_Ok & Hc).
  apply AM_bind_Ok in Hc as (u2 & c1 & [_ ->]%check_field_Ok & Hc).
  apply AM_bind_Ok in Hc as (u3 & c1 & [Ha ->]%check_has_one_Ok & Hc).
  apply AM_bind_Ok in Hc as (u4 & c1 & [Hk%negb_true_iff%Z.eqb_neq ->]%check_field_Ok & [= <- <- <-]). done.
Qed.

(** A buffer that is set up is blank before. *)
Lemma create_buffer_Ok accounts c x rest c' :
  create_buffer_try_accounts program_id accounts c = Ok ((x, rest), c') →
  c' = c ∧ of_le_bytes (take 8 (data (cell c (key (ac_info (cb_buffer x)))))) = 0.
Proof.
  intros ((info & r0) & c1 & [-> ->]%take_account_Ok & Hc)%AM_bind_Ok.
  apply AM_bind_Ok in Hc as ((authority & r2) & c1 & (-> & -> & Hs)%in_field_Ok%signer_Ok & Hc).
  apply AM_bind_Ok in Hc as (bs & c1 & (-> & -> & _)%try_borrow_data_Ok & Hc).
  destruct (_ <? 8)%nat; [done|]. apply AM_bind_Ok in Hc as (u0 & c1 & [Hz%Z.eqb_eq ->]%check_field_Ok & Hc).
  apply AM_bind_Ok in Hc as (buffer & c1 & Ht%in_field_Ok & Hc).
  assert (c1 = c ∧ ac_info buffer = info) as [-> Hi].
  { apply AM_bind_Ok in Ht as (u & c3 & Ho & Ht). unfold check_type_owner, info_owner in Ho.
    apply AM_bind_Ok in Ho as (o & c4 & [= <- <-] & [_ ->]%require_that_Ok).
    apply AM_bind_Ok in Ht as (bs & c4 & (-> & -> & _)%try_borrow_data_Ok & Ht).
    by apply AM_bind_Ok in Ht as (v & c4 & [Hv ->]%run_result_Ok & [= <- <-]). }
  apply AM_bind_Ok in Hc as (u1 & c1 & [_ ->]%check_field_Ok & Hc).
  apply AM_bind_Ok in Hc as (n & c1 & [= <- <-] & Hc).
  apply AM_bind_Ok in Hc as (bs & c1 & (-> & -> & _)%try_borrow_data_Ok & Hc).
  apply AM_bind_Ok in Hc as (u2 & c1 & [_ ->]%check_field_Ok & Hc).
  apply AM_bind_Ok in Hc as (u3 & c1 & [_ ->]%check_field_Ok & [= <- <- <-]).
  cbn [cb_buffer]. by rewrite Hi.
Qed.

(** *** One instruction *)

Lemma ctor_Ok accounts c x rest c' :
  Ctor.try_accounts accounts c = Ok ((x, rest), c') →
  c' = c ∧ accounts !! 0%nat = Some (ct_from x) ∧ accounts !! 1%nat = Some (ct_to x) ∧
  Solana.is_signer (ct_from x) = true.
Proof.
  intros ((from & r1) & c1 & [-> ->]%in_field_Ok%take_account_Ok & Hc)%AM_bind_Ok.
  apply AM_bind_Ok in Hc as ((to & r2) & c1 & [-> ->]%in_field_Ok%take_account_Ok & Hc).
  apply AM_bind_Ok in Hc as ((base & r3) & c1 & [-> ->]%in_field_Ok%take_account_Ok & Hc).
  apply AM_bind_Ok in Hc as ((sys & r4) & c1 & [-> ->]%in_field_Ok%take_account_Ok & Hc).
  apply AM_bind_Ok in Hc as ((program & r5) & c1 & [-> ->]%in_field_Ok%take_account_Ok & Hc).
  apply AM_bind_Ok in Hc as (u1 & c1 & [Hs ->]%check_field_Ok & Hc).
  by apply AM_bind_Ok in Hc as (u2 & c1 & [_ ->]%check_field_Ok & [= <- <- <-]).
Qed.

(** The new account is nobody's, so [k] is as it was when the authority is written into
    [to]: nothing compares [to] with the address of the new account. *)
Lemma idl_create_step k a x n c u c' :
  holds_idl k a c → key_range (key (ct_from x)) → __idl_create_account program_id x n c = Ok (u, c') →
  cell c' k = cell c k ∨
  key (ct_to x) = k ∧ holds_idl k (mkIdlAccount (key (ct_from x)) (idl_data a)) c'.
Proof.
  intros [Ho [rest Hd] Hv Hsz] Hr. unfold __idl_create_account. destruct (negb _); [done|].
  destruct (pubkey_find_program_address [] program_id) as [base nonce]. destruct (pubkey_create_with_seed _ _ _) as [to|]; [|done].
  intros ([] & c1 & Hi%invoke_Ok & Hc)%AM_bind_Ok.
  apply create_with_seed_law in Hi as ([Ht _] & _ & [Hf _] & _ & Hc1).
  assert (Hk : cell c1 k = cell c k).
  { rewrite Hc1. unfold after_create, after_transfer. by rewrite !cell_update, !decide_False by (intros ->; congruence). }
  apply AM_bind_Ok in Hc as (bs & c2 & (-> & -> & _)%try_borrow_data_Ok & Hc).
  apply AM_bind_Ok in Hc as (v & c2 & [Hread ->]%run_result_Ok & Hc).
  destruct (decide (key (ct_to x) = k)) as [E|E].
  - right. split; [done|]. rewrite E, Hk, Hd in Hread.
    assert (v = a) as -> by (eapply idl_read_unchecked; [exact Hv|exact Hread]).
    rewrite <- E. eapply written_holds; [exact Hc|by rewrite E, Hk| |by rewrite E, Hk].
    split; [exact Hr|]. by destruct (valid_in_range a Hv).
  - left. apply serialize_into_Ok in Hc as [[_ _ _ Hothers _] _]. by rewrite Hothers.
Qed.

(** Writing the account of a struct: it is [k], or [k] is as it was. *)
Lemma written_or_same k a' info c u c' :
  owner (cell c (key info)) = program_id → (key info = k → in_range a') →
  Z.of_nat (length (data (cell c k))) < 2 ^ 32 → serialize_into a' info c = Ok (u, c') →
  (key info = k ∧ holds_idl k a' c') ∨ (key info ≠ k ∧ cell c' k = cell c k).
Proof.
  intros Ho Hr Hsz Hs. destruct (decide (key info = k)) as [<-|Hk].
  - left. split; [done|]. eapply written_holds; [done..|by apply Hr|done].
  - right. split; [done|]. apply serialize_into_Ok in Hs as [[_ _ _ Hothers _] _]. apply Hothers. congruence.
Qed.

Lemma idl_accounts_step k a accounts ix (g : Account IdlAccount → IdlAccount) (handler : IdlAccounts → IdlAccounts) c x rest c1 c' :
  holds_idl k a c → idl_accounts_try_accounts program_id accounts c = Ok ((x, rest), c1) →
  (∀ x, ia_idl (handler x) = mkAccount (g (ia_idl x)) (ac_info (ia_idl x))) →
  (∀ pa, ac_account pa = a → idl_change a ix (g pa) ∧ in_range (g pa)) →
  idl_accounts_exit program_id (handler x) c1 = Ok (tt, c') →
  cell c' k = cell c k ∨ authorised accounts a ∧ ∃ a', idl_change a ix a' ∧ holds_idl k a' c'.
Proof.
  intros Hh (-> & -> & Hs & Ho & Hd & Ha & Hk)%idl_accounts_Ok Hhand Hg He%in_field_Ok.
  rewrite Hhand in He. eapply (written_or_same k) in He as [[E Hw]|[_ E]]; [|by left|done| |by destruct Hh].
  2:{ cbn. intros E. apply Hg. by eapply holds_read. }
  right. assert (Hr : ac_account (ia_idl x) = a) by (by eapply holds_read). rewrite Hr in Ha.
  split; [|eexists; split; [by apply Hg|exact Hw]]. exists (ia_authority x). split_and!; [set_solver|done..|by rewrite Ha].
Qed.

Lemma set_buffer_step k a accounts c x rest c1 c' :
  holds_idl k a c → set_buffer_try_accounts program_id accounts c = Ok ((x, rest), c1) →
  set_buffer_exit program_id (__idl_set_buffer x) c1 = Ok (tt, c') →
  cell c' k = cell c k ∨ authorised accounts a ∧ ∃ a', idl_change a IdlSetBuffer a' ∧ holds_idl k a' c'.
Proof.
  intros Hh (-> & -> & Hs & Ho & Hob & Hd & Hdb & Hab & Ha & Hk)%set_buffer_Ok He.
  apply AM_bind_Ok in He as ([] & c2 & Hb%in_field_Ok & He%in_field_Ok). cbn in Hb, He.
  (* the buffer is written as it was *)
  assert (Hsame : cell c2 k = cell c k).
  { destruct (decide (key (ac_info (sb_buffer x)) = k)) as [E|E].
    - eapply (rewritten_same k a); [done|exact E|]. assert (ac_account (sb_buffer x) = a) as <- by (by eapply holds_read). exact Hb.
    - apply serialize_into_Ok in Hb as [[_ _ _ Hothers _] _]. apply Hothers. congruence. }
  assert (Ho2 : owner (cell c2 (key (ac_info (sb_idl x)))) = program_id).
  { destruct (decide (key (ac_info (sb_idl x)) = key (ac_info (sb_buffer x)))) as [E|E];
      apply serialize_into_Ok in Hb as [[_ Hown _ Hothers _] _]; [by rewrite E, Hown|by rewrite Hothers]. }
  assert (Hread : key (ac_info (sb_idl x)) = k → ac_account (sb_idl x) = a) by (intros E; by eapply holds_read).
  eapply (written_or_same k) in He as [[E Hw]|[_ E]]; [|left; by rewrite E|done| |rewrite Hsame; by destruct Hh].
  2:{ cbn. intros E. rewrite (Hread E). split; [by destruct (valid_in_range a (hi_valid _ _ _ Hh))|].
      exact (read_bytes _ _ Hdb). }
  right. cbn in E. rewrite (Hread E) in *.
  split; [exists (sb_authority x); split_and!; [set_solver|done..|by rewrite Ha]|].
  eexists. split; [by apply idl_replaced|exact Hw].
Qed.

Lemma idl_step k a no_idl accounts bs c c' :
  holds_idl k a c → Forall key_info accounts → __idl_dispatch program_id no_idl accounts bs c = Ok (tt, c') →
  cell c' k = cell c k ∨ ∃ a', idl_effect k accounts bs a a' ∧ holds_idl k a' c'.
Proof.
  intros Hh Hkeys Hd. unfold __idl_dispatch in Hd. destruct no_idl; [done|].
  apply AM_bind_Ok in Hd as (ix & c0 & [Hix ->]%run_result_Ok & Hd).
  destruct (idl_instruction_deserialize bs) as [ix'|] eqn:Eix; [|done]. injection Hix as ->.
  assert (Hsigned : cell c' k = cell c k ∨ authorised accounts a ∧ (∃ a', idl_change a ix a' ∧ holds_idl k a' c') →
    cell c' k = cell c k ∨ ∃ a', idl_effect k accounts bs a a' ∧ holds_idl k a' c').
  { intros [?|[? (a' & ? & ?)]]; [by left|right]. exists a'. split; [by eapply effect_authorised|done]. }
  destruct ix as [n| |d| |new]; apply AM_bind_Ok in Hd as ((x & rest) & c1 & Ht & Hd).
  - apply ctor_Ok in Ht as (-> & Hf & Hx & Hs). apply AM_bind_Ok in Hd as ([] & c2 & Hc & [= <-]%in_field_Ok).
    apply (idl_create_step k a) in Hc as [E|[E Hc]]; [by left|right|done|].
    + eexists. split; [|exact Hc]. apply effect_created_over; [by exists n, (ct_to x)|done..].
    + by eapply Forall_lookup_1 in Hkeys; [|exact Hf].
  - left. apply create_buffer_Ok in Ht as [-> Hz]. apply in_field_Ok in Hd. cbn in Hd.
    destruct (decide (key (ac_info (cb_buffer x)) = k)) as [E|E].
    + destruct Hh as [_ [rest' Hh] _ _]. rewrite E, Hh in Hz. unfold encoded in Hz. rewrite <- (assoc_L (++)) in Hz.
      rewrite take_app_length' in Hz by (by rewrite discriminator_length). by destruct idl_not_blank.
    + apply serialize_into_Ok in Hd as [[_ _ _ Hothers _] _]. apply Hothers. by intros ->.
  - apply Hsigned. eapply (idl_accounts_step k a accounts (IdlWrite d)
      (λ pa, mkIdlAccount (idl_authority (ac_account pa)) (idl_data (ac_account pa) ++ d))
      (λ x, __idl_write x d)); [done|exact Ht|done| |exact Hd].
    intros pa <-. split; [apply idl_written|]. destruct (valid_in_range _ (hi_valid _ _ _ Hh)).
    split; [done|]. apply Forall_app. split; [done|by eapply idl_write_bytes].
  - apply Hsigned. by eapply set_buffer_step.
  - apply Hsigned. eapply (idl_accounts_step k a accounts (IdlSetAuthority new)
      (λ pa, mkIdlAccount new (idl_data (ac_account pa)))
      (λ x, __idl_set_authority x new)); [done|exact Ht|done| |exact Hd].
    intros pa <-. split; [apply idl_handed_over|].
    split; [by eapply idl_set_authority_key|by destruct (valid_in_range _ (hi_valid _ _ _ Hh))].
Qed.

(** *** Any history of such instructions, between others that leave the account alone *)

Inductive idl_life k c : list (list AccountInfo * list Z) → Cells → Prop :=
| idl_life_start : idl_life k c [] c
| idl_life_instruction h no_idl accounts bs c1 c2 :
    idl_life k c h c1 → Forall key_info accounts →
    __idl_dispatch program_id no_idl accounts bs c1 = Ok (tt, c2) → idl_life k c (h ++ [(accounts, bs)]) c2
| idl_life_other h c1 c2 : idl_life k c h c1 → cell c2 k = cell c1 k → idl_life k c h c2.

Lemma holds_same k a c c' : cell c' k = cell c k → holds_idl k a c → holds_idl k a c'.
Proof. intros E []. split; by rewrite ?E. Qed.

Lemma idl_effect_cause k accounts bs a a' :
  idl_effect k accounts bs a a' → authorised accounts a ∨ creates_over k accounts bs.
Proof. intros []; auto. Qed.

(** C34: An account that holds an interface description of the program keeps holding
    one, whatever instructions for descriptions are executed.  Each of them leaves the
    account as it is; or writes, replaces or hands it over exactly as its arguments say,
    and then the authority of that moment, which is not the erased one, was passed and
    had signed; or is an initial creation that was given this account for the new one,
    and then the data stays and the authority becomes the first account, which signed.
    So unless such a creation names it, an account changes only with a signature of its
    authority, and never again once the authority is erased. *)
Theorem idl_needs_its_authority k a c h c' :
  holds_idl k a c → idl_life k c h c' →
  (cell c' k = cell c k ∨
   ∃ accounts bs, (accounts, bs) ∈ h ∧ (authorised accounts a ∨ creates_over k accounts bs)) ∧
  ∃ a', holds_idl k a' c' ∧
  ∀ no_idl accounts bs c2,
    Forall key_info accounts → __idl_dispatch program_id no_idl accounts bs c' = Ok (tt, c2) →
    cell c2 k = cell c' k ∨ ∃ a'', idl_effect k accounts bs a' a'' ∧ holds_idl k a'' c2.
Proof.
  intros Hh Hlife.
  assert ((cell c' k = cell c k ∨ ∃ accounts bs, (accounts, bs) ∈ h ∧ (authorised accounts a ∨ creates_over k accounts bs)) ∧
    ∃ a', holds_idl k a' c') as [Hsame [a' Ha]].
  { induction Hlife as [|h no_idl accounts bs c1 c2 _ [IH [a1 Ha1]] Hkeys Hd|h c1 c2 _ [IH [a1 Ha1]] E].
    - split; [by left|by exists a].
    - destruct IH as [E|(acc & bs' & Hin & Hau)].
      + apply (holds_same _ _ _ _ E) in Hh as Hh1.
        destruct (idl_step _ _ _ _ _ _ _ Hh1 Hkeys Hd) as [E2|(a2 & He & Ha2)].
        * split; [left; by rewrite E2|]. exists a. by eapply holds_same.
        * split; [right; exists accounts, bs; split; [set_solver|by eapply idl_effect_cause]|by exists a2].
      + split; [right; exists acc, bs'; split; [set_solver|done]|].
        destruct (idl_step _ _ _ _ _ _ _ Ha1 Hkeys Hd) as [E2|(a2 & _ & Ha2)]; [|by exists a2].
        exists a1. by eapply holds_same.
    - split; [by rewrite E|]. exists a1. by eapply holds_same. }
  split; [done|]. exists a'. split; [done|]. intros no_idl accounts bs c2. by apply idl_step.
Qed.

End history.

(** ** A concrete encoding, and a description that is written and then frozen *)

Definition idl_chunks (a : IdlAccount) : list (list Z) :=
  [le_bytes 32 (idl_authority a); le_bytes 4 (Z.of_nat (length (idl_data a))); idl_data a].

Definition idl_in_format (a : IdlAccount) : Prop :=
  key_range (idl_authority a) ∧ Forall is_byte (idl_data a) ∧ Z.of_nat (length (idl_data a)) < 2 ^ 32.

#[local] Instance key_range_dec k : Decision (key_range k).
Proof. unfold key_range. apply _. Defined.

#[local] Instance is_byte_dec z : Decision (is_byte z).
Proof. unfold is_byte. apply _. Defined.

#[local] Instance idl_in_format_dec a : Decision (idl_in_format a).
Proof. unfold idl_in_format. apply _. Defined.

Definition idl_parse (bs : list Z) : option IdlAccount :=
  let n := Z.to_nat (of_le_bytes (take 4 (drop 32 bs))) in
  let a := mkIdlAccount (of_le_bytes (take 32 bs)) (take n (drop 36 bs)) in
  if decide (idl_in_format a ∧ length (idl_data a) = n) then Some a else None.

Lemma idl_parse_chunks a rest : idl_in_format a → idl_parse (concat (idl_chunks a) ++ rest) = Some a.
Proof.
  intros (Hk & Hb & Hl). unfold idl_chunks. cbn [concat]. rewrite app_nil_r, <- !(assoc_L (++)).
  set (key := le_bytes 32 (idl_authority a)). set (len := le_bytes 4 (Z.of_nat (length (idl_data a)))).
  assert (Hkey : length key = 32%nat) by apply length_le_bytes. assert (Hlen : length len = 4%nat) by apply length_le_bytes.
  unfold idl_parse. rewrite (take_app_length' key) by done. rewrite (drop_app_length' key) by done.
  rewrite (take_app_length' len) by done. rewrite (assoc_L (++) key len), (drop_app_length' (key ++ len))
    by (rewrite length_app; lia).
  unfold key, len. rewrite !of_le_bytes_le_bytes by (unfold in_width, key_range in *; lia). rewrite Nat2Z.id, take_app_length.
  cbn [idl_data]. rewrite decide_True; by destruct a.
Qed.

Lemma idl_parse_format bs a : idl_parse bs = Some a → idl_in_format a.
Proof. unfold idl_parse. case_decide as Hd; [|done]. intros [= <-]. apply Hd. Qed.

(** One byte for the instruction, and its argument *)
Definition idl_instruction_parse (bs : list Z) : option IdlInstruction :=
  match bs with
  | 0 :: rest => Some (IdlCreate (of_le_bytes rest))
  | 1 :: _ => Some IdlCreateBuffer
  | 2 :: rest => if decide (Forall is_byte rest) then Some (IdlWrite rest) else None
  | 3 :: _ => Some IdlSetBuffer
  | 4 :: rest => if decide (key_range (of_le_bytes rest)) then Some (IdlSetAuthority (of_le_bytes rest)) else None
  | _ => None
  end.

#[local] Instance idl_test_data : AnchorData IdlAccount := {|
  anchor_discriminator := {| discriminator := replicate 8 9 |};
  anchor_owner := {| type_owner := testbed_owner |};
  borsh_chunks := idl_chunks;
  borsh_parse := idl_parse;
  borsh_valid := idl_in_format;
|}.

#[local] Instance idl_test_sdk : IdlSdk := {|
  idl_account_data := idl_test_data;
  idl_instruction_deserialize := idl_instruction_parse;
|}.

Lemma idl_instruction_cases bs ix :
  idl_instruction_parse bs = Some ix →
  match ix with IdlWrite d => Forall is_byte d | IdlSetAuthority k => key_range k | _ => True end.
Proof.
  unfold idl_instruction_parse. intros E.
  repeat (case_match; try done); simplify_eq; done.
Qed.

#[local] Instance idl_test_data_laws : AnchorDataLaws IdlAccount.
Proof. split; [done|]. intros a rest. apply idl_parse_chunks. Qed.

#[local] Instance idl_test_laws : IdlLaws.
Proof.
  split.
  - apply _.
  - done.
  - done.
  - intros bs a. apply idl_parse_format.
  - intros a. rewrite length_encoded. cbn. rewrite !length_app. lia.
  - intros bs d. apply idl_instruction_cases.
  - intros bs k. apply idl_instruction_cases.
Qed.

#[local] Existing Instances AnchorChecks.vault_sdk.

(** The account 7 holds a description whose authority is the key 8. *)
Definition idl_test_cells (a : IdlAccount) : Cells :=
  mkCells {[ 7 := mkAccountState testbed_owner 1000 (encoded a ++ replicate 16 0); 8 := mkAccountState 0 1 [] ]} ∅ ∅.

Definition idl_test_accounts : list AccountInfo := [mkAccountInfo 7 false true; mkAccountInfo 8 true false].

Definition idl_after (bs : list Z) (c : Cells) : Cells :=
  match __idl_dispatch testbed_owner false idl_test_accounts bs c with Ok (_, c') => c' | _ => c end.

Lemma idl_needs_its_authority_witness :
  let a := mkIdlAccount 8 [1; 2] in
  let c := idl_test_cells a in
  let c1 := idl_after [2; 3] c in
  let c2 := idl_after [4] c1 in
  holds_idl testbed_owner 7 (mkIdlAccount 0 [1; 2; 3]) c2 ∧
  (∃ accounts, authorised accounts a) ∧
  (∀ bs c3, (∀ n, idl_instruction_parse bs ≠ Some (IdlCreate n)) →
     __idl_dispatch testbed_owner false idl_test_accounts bs c2 = Ok (tt, c3) → cell c3 7 = cell c2 7).
Proof.
  intros a c c1 c2.
  assert (Hh : holds_idl testbed_owner 7 a c) by (split; [done|by exists (replicate 16 0)|vm_compute; repeat constructor; congruence|done]).
  assert (Hkeys : Forall key_info idl_test_accounts) by (repeat apply Forall_cons_2; [..|by apply Forall_nil_2]; by split).
  assert (Hlife : idl_life testbed_owner 7 c [(idl_test_accounts, [2; 3]); (idl_test_accounts, [4])] c2).
  { apply (idl_life_instruction _ _ _ [_] false _ [4] c1); [|exact Hkeys|reflexivity].
    apply (idl_life_instruction _ _ _ [] false _ [2; 3] c); [constructor|exact Hkeys|reflexivity]. }
  assert (Hh2 : holds_idl testbed_owner 7 (mkIdlAccount 0 [1; 2; 3]) c2).
  { split; [done|by exists (replicate 15 0)|vm_compute; repeat constructor; congruence|done]. }
  split; [exact Hh2|]. split.
  - destruct (idl_needs_its_authority testbed_owner ltac:(done) 7 a c _ c2 Hh Hlife)
      as [[Hs|(accounts & bs & Hin & [Hs|(n & to & E & _)])] _]; [exfalso; by vm_compute in Hs|by exists accounts|].
    exfalso. set_unfold. by destruct Hin as [[= -> ->]|[[= -> ->]|[]]].
  - intros bs c3 Hn Hd. assert (Hnext : idl_life testbed_owner 7 c2 [(idl_test_accounts, bs)] c3).
    { apply (idl_life_instruction _ _ _ [] false _ bs c2); [constructor|exact Hkeys|exact Hd]. }
    destruct (idl_needs_its_authority testbed_owner ltac:(done) 7 _ c2 _ c3 Hh2 Hnext)
      as [[Hs|(accounts & bs' & Hin & [(info & _ & _ & _ & He)|(n & to & E & _)])] _]; [exact Hs|by destruct He|].
    apply list_elem_of_singleton in Hin as [= -> ->]. by destruct (Hn n).
Defined.

(** ** The creation does not look at the account that it writes

    The account is created at the derived address, and the authority is then written
    into [to], which nothing compares with that address.  If the new account is passed
    at another place, [to] can be an account of the program that exists: here the buffer
    7, whose authority 3 does not sign, gets the authority 8. *)

Definition derived_sdk : AnchorSdk := {|
  bpf_loader_upgradeable_id := 2;
  bincode_loader_state _ := None;
  pubkey_find_program_address _ _ := (test_derived, 255);
  pubkey_create_with_seed _ _ _ := Some 901;
|}.

Example idl_create_takes_over_an_account :
  let c := mkCells {[ 7 := mkAccountState testbed_owner 1000 (encoded (mkIdlAccount 3 [1; 2]));
                      8 := mkAccountState 0 1000 [] ]} ∅ ∅ in
  let accounts := [mkAccountInfo 8 true true; mkAccountInfo 7 false true; mkAccountInfo 901 false true;
                   mkAccountInfo test_derived false false; mkAccountInfo testbed_owner false false] in
  ∃ c', __idl_dispatch (H0 := derived_sdk) testbed_owner false accounts [0] c = Ok (tt, c') ∧
    data (cell c' 7) = encoded (mkIdlAccount 8 [1; 2]) ∧
    cell c' 901 = mkAccountState testbed_owner 172 (replicate 44 0).
Proof. intros c accounts. eexists. split; [reflexivity|]. by split. Qed.
