(* ===== verification/AnchorProgram.v ===== *)
(** * Anchor: the entry of a program and its handlers

    What [#[program]] generates ([syn/src/codegen/program/]): the entrypoint and the
    dispatch on the first eight bytes of the data ([entry.rs], [dispatch.rs],
    [common.rs]), and around every method of the user a handler that decodes its
    arguments, builds its accounts, calls it and writes the accounts back
    ([handlers.rs]).  A handler returns what it sets as return data.  The hash
    behind the identifiers of methods is a parameter.

    The instructions of a program over one account then refine the functions that the
    user wrote. *)

From Stdlib Require Import Ascii.
From stdpp Require Import strings.
From S2P Require Import Prelude Errors Layouts StateBase Solana AnchorBase AnchorAccounts.
From S2P Require Import AnchorFacts AnchorConstraints AnchorConstraintFacts AnchorChecks AnchorInit AnchorIdl.

Definition Handler : Type := Pubkey → list AccountInfo → list Z → AM (option (list Z)).

(** ** [context.rs] *)

Record Context (A : Type) : Type := mkContext {
  cx_program_id : Pubkey;
  cx_accounts : A;
  cx_remaining_accounts : list AccountInfo;
}.
Arguments mkContext {A}.
Arguments cx_program_id {A}.
Arguments cx_accounts {A}.
Arguments cx_remaining_accounts {A}.

(** ** Handlers *)

Section handlers.
Context {A Args : Type} `{AccountsTrait A} `{AccountsExit A}.

(** The decoder that is derived for the arguments *)
Context (deserialize : list Z → option Args).

Definition deserialize_args (ix_data : list Z) : AM Args :=
  run_result (ok_or (Error_from_code InstructionDidNotDeserialize) (deserialize ix_data)).

(** A method of the module.  The user's function may change the accounts of its context
    and those behind the handles; [return_data] is [None] for the type [()]. *)
Definition global_handler {R} (method : Context A → Args → AM (A * R)) (return_data : R → option (list Z)) : Handler :=
  λ program_id accounts ix_data,
    ix ← deserialize_args ix_data;
    '(accounts, remaining_accounts) ← try_accounts program_id accounts ix_data;
    '(accounts, result) ← method (mkContext program_id accounts remaining_accounts) ix;
    _ ← exit accounts program_id;
    mret (return_data result).

(** A method of a trait without a receiver returns nothing. *)
Definition interface_handler (method : Context A → Args → AM A) : Handler :=
  global_handler (λ ctx ix, accounts ← method ctx ix; mret (accounts, tt)) (λ _, None).

(** The account behind the program's state, for methods with a receiver *)
Section state.
Context {S : Type} `{AccountSerialize S} `{AccountDeserialize S} `{AnchorSdk}.

Definition state_handler (method : S → Context A → Args → AM (S * A)) : Handler :=
  λ program_id accounts ix_data,
    ix ← deserialize_args ix_data;
    if bool_decide (accounts = []) then err AccountNotEnoughKeys
    else
      '(state, remaining_accounts) ← ProgramState.try_accounts (T := S) program_id accounts;
      '(accounts, remaining_accounts) ← try_accounts program_id remaining_accounts ix_data;
      '(s, accounts) ← method (ac_account state) (mkContext program_id accounts remaining_accounts) ix;
      _ ← exit accounts program_id;
      _ ← serialize_into s (ac_info state);
      mret None.

(** [AccountSize], by default the length of the encoding *)
Class AccountSize : Type := { account_size : S → result Error Z }.

Context `{AccountSize} `{Cpi}.

(** The account for the state: at an address that the program derives, owned by it *)
Definition create_state_account (ctor_accounts : Ctor) (space : Z) : AM unit :=
  let from := key (ct_from ctor_accounts) in
  let '(base, nonce) := pubkey_find_program_address [] (key (ct_program ctor_accounts)) in
  let owner := key (ct_program ctor_accounts) in
  match pubkey_create_with_seed base ProgramState.PROGRAM_STATE_SEED owner with
  | None => abort
  | Some to =>
      let lamports := minimum_balance (Z.to_nat space) in
      invoke (SysCreateAccountWithSeed from to base ProgramState.PROGRAM_STATE_SEED lamports space owner)
        [ct_from ctor_accounts; ct_to ctor_accounts; ct_base ctor_accounts; ct_system_program ctor_accounts] [[[nonce]]]
  end.

Definition ctor_handler (new : Context A → Args → AM (S * A)) : Handler :=
  λ program_id accounts ix_data,
    ix ← deserialize_args ix_data;
    '(ctor_accounts, remaining_accounts) ← Ctor.try_accounts accounts;
    '(accounts, remaining_accounts) ← try_accounts program_id remaining_accounts ix_data;
    '(instance, accounts) ← new (mkContext program_id accounts remaining_accounts) ix;
    space ← run_result (account_size instance);
    _ ← create_state_account ctor_accounts space;
    _ ← exit accounts program_id;
    _ ← serialize_into instance (ct_to ctor_accounts);
    mret None.

End state.

(** A zero-copy state: the method works on the bytes of the account, which are borrowed
    while it runs. *)
Section zero_copy.
Context {S : Type} `{ZeroCopy S} `{AnchorSdk} `{Cpi}.

(** The lexical scope around the user's function *)
Definition with_loaded (load : AM S) (loader : AccountLoader S) (method : S → AM (S * A)) : AM A :=
  s ← load;
  '(s, accounts) ← method s;
  _ ← store (acc_info loader) s;
  _ ← release (acc_info loader);
  mret accounts.

Definition state_handler_zero_copy (method : S → Context A → Args → AM (S * A)) : Handler :=
  λ program_id accounts ix_data,
    ix ← deserialize_args ix_data;
    if bool_decide (accounts = []) then err AccountNotEnoughKeys
    else
      '(loader, remaining_accounts) ← Loader.try_accounts (T := S) program_id accounts;
      '(accounts, remaining_accounts) ← try_accounts program_id remaining_accounts ix_data;
      accounts ← with_loaded (Loader.load_mut loader) loader
                   (λ s, method s (mkContext program_id accounts remaining_accounts) ix);
      _ ← exit accounts program_id;
      _ ← Loader.exit loader program_id;
      mret None.

Definition ctor_handler_zero_copy (new : S → Context A → Args → AM (S * A)) : Handler :=
  λ program_id accounts ix_data,
    ix ← deserialize_args ix_data;
    '(ctor_accounts, remaining_accounts) ← Ctor.try_accounts accounts;
    '(accounts, remaining_accounts) ← try_accounts program_id remaining_accounts ix_data;
    _ ← create_state_account ctor_accounts (8 + Z.of_nat (lay_size (zc_layout (T := S))));
    loader ← Loader.try_from_unchecked (T := S) program_id (ct_to ctor_accounts);
    accounts ← with_loaded (Loader.load_init loader) loader
                 (λ s, new s (mkContext program_id accounts remaining_accounts) ix);
    _ ← exit accounts program_id;
    _ ← Loader.exit loader program_id;
    mret None.

End zero_copy.
End handlers.

(** ** Identifiers of methods *)

Class Hasher : Type := { hash : list Z → list Z }.

Definition SIGHASH_STATE_NAMESPACE : string := "state".
Definition SIGHASH_GLOBAL_NAMESPACE : string := "global".

Definition as_bytes (s : string) : list Z := (λ c, Z.of_nat (nat_of_ascii c)) <$> String.list_ascii_of_string s.

Definition sighash `{Hasher} (namespace name : string) : list Z :=
  take 8 (hash (as_bytes (namespace +:+ ":" +:+ name))).

Definition sighash_ctor `{Hasher} : list Z := sighash SIGHASH_STATE_NAMESPACE "new".

(** ** Programs *)

(** The methods with their handlers, in the order of the source *)
Record State : Type := mkState {
  ps_ctor : option Handler;
  ps_methods : list (string * Handler);
  ps_interfaces : list (string * list (string * Handler));
}.

Record Program : Type := mkProgram {
  pg_id : Pubkey;                      (* of [declare_id!] *)
  pg_no_idl : bool;                    (* the feature [no-idl] *)
  pg_fallback : option Handler;
  pg_state : option State;
  pg_ixs : list (string * Handler);
}.

Section dispatch.
Context `{Hasher} `{IdlSdk} `{AnchorSdk} `{Cpi}.
Implicit Types (program : Program).

Definition ctor_state_dispatch_arm program : list (list Z * Handler) :=
  match pg_state program with
  | None => []
  | Some state => option_list ((λ h, (sighash_ctor, h)) <$> ps_ctor state)
  end.

Definition state_dispatch_arms program : list (list Z * Handler) :=
  match pg_state program with
  | None => []
  | Some state => (λ '(name, h), (sighash SIGHASH_STATE_NAMESPACE name, h)) <$> ps_methods state
  end.

Definition trait_dispatch_arms program : list (list Z * Handler) :=
  match pg_state program with
  | None => []
  | Some state => ps_interfaces state ≫= λ '(trait_name, methods),
      (λ '(name, h), (sighash trait_name name, h)) <$> methods
  end.

Definition global_dispatch_arms program : list (list Z * Handler) :=
  (λ '(name, h), (sighash SIGHASH_GLOBAL_NAMESPACE name, h)) <$> pg_ixs program.

Definition dispatch_arms program : list (list Z * Handler) :=
  ctor_state_dispatch_arm program ++ state_dispatch_arms program ++
  trait_dispatch_arms program ++ global_dispatch_arms program.

(** The first arm of the match that fits *)
Definition find_arm (tag : list Z) (arms : list (list Z * Handler)) : option Handler :=
  (λ p, snd (snd p)) <$> list_find (λ arm, fst arm = tag) arms.

(** The user's function, which gets all the data, or an error *)
Definition gen_fallback program (otherwise : ErrorCode) : Handler := λ program_id accounts data,
  match pg_fallback program with
  | Some fallback_fn => fallback_fn program_id accounts data
  | None => err otherwise
  end.

Definition dispatch program : Handler := λ program_id accounts data,
  if (length data <? 8)%nat then abort
  else
    let tag := take 8 data in
    let ix_data := drop 8 data in
    if negb (pg_no_idl program) && bool_decide (tag = le_bytes 8 IDL_IX_TAG) then
      _ ← __idl_dispatch program_id (pg_no_idl program) accounts ix_data;
      mret None
    else
      match find_arm tag (dispatch_arms program) with
      | Some handler => handler program_id accounts ix_data
      | None => gen_fallback program InstructionFallbackNotFound program_id accounts data
      end.

Definition try_entry program : Handler := λ program_id accounts data,
  if negb (program_id =? pg_id program) then err DeclaredProgramIdMismatch
  else if (length data <? 8)%nat then gen_fallback program InstructionMissing program_id accounts data
  else dispatch program program_id accounts data.

(** The error is logged and goes to the runtime as its code. *)
Definition entry program (program_id : Pubkey) (accounts : list AccountInfo) (data : list Z) (c : Cells) :
    result ProgramError (option (list Z) * Cells) :=
  match try_entry program program_id accounts data c with
  | Ok r => Ok r
  | Err e => Err (ProgramError_from_Error e)
  | Panic => Panic
  end.

End dispatch.

(** ** Dispatch *)

Section dispatch_facts.
Context `{Hasher} `{IdlSdk} `{AnchorSdk} `{Cpi}.
Implicit Types (program : Program).

Lemma find_arm_unique tag h arms : NoDup (fst <$> arms) → (tag, h) ∈ arms → find_arm tag arms = Some h.
Proof.
  intros Hnd [i Hi]%list_elem_of_lookup. unfold find_arm. rewrite (proj2 (list_find_Some _ _ i (tag, h))); [done|].
  split_and!; [done|done|]. intros j [tag' h'] Hj Hlt E. cbn in E. subst tag'.
  assert (i = j); [|lia]. eapply (NoDup_lookup _ i j tag Hnd); rewrite list_lookup_fmap; [by rewrite Hi|by rewrite Hj].
Qed.

(** The identifiers being distinct, an instruction runs the handler of its method on
    the data behind the identifier; *)
Lemma method_is_dispatched program tag h accounts args c :
  NoDup (fst <$> dispatch_arms program) → (tag, h) ∈ dispatch_arms program → length tag = 8%nat →
  pg_no_idl program = true ∨ tag ≠ le_bytes 8 IDL_IX_TAG →
  try_entry program (pg_id program) accounts (tag ++ args) c = h (pg_id program) accounts args c.
Proof.
  intros Hnd Hin Hl Hidl. unfold try_entry, dispatch. rewrite Z.eqb_refl, length_app, Hl. cbn [negb].
  rewrite (proj2 (Nat.ltb_ge _ _)) by lia. rewrite take_app_length', drop_app_length' by done.
  replace (negb (pg_no_idl program) && _) with false.
  - by rewrite (find_arm_unique tag h).
  - destruct Hidl as [-> | Ht]; [done|]. by rewrite bool_decide_eq_false_2, andb_false_r.
Qed.

(** an identifier that no method has runs none of them; *)
Lemma unknown_method program accounts data c :
  (8 ≤ length data)%nat → take 8 data ∉ fst <$> dispatch_arms program →
  pg_no_idl program = true ∨ take 8 data ≠ le_bytes 8 IDL_IX_TAG →
  try_entry program (pg_id program) accounts data c =
    gen_fallback program InstructionFallbackNotFound (pg_id program) accounts data c.
Proof.
  intros Hl Hin Hidl. unfold try_entry, dispatch. rewrite Z.eqb_refl. cbn [negb].
  rewrite (proj2 (Nat.ltb_ge _ _)) by lia. replace (negb (pg_no_idl program) && _) with false.
  - unfold find_arm. rewrite (proj2 (list_find_None _ _)); [done|]. apply Forall_forall. intros [tag h] Ha E.
    apply Hin. cbn in E. rewrite <- E. by apply (list_elem_of_fmap_2 fst _ (tag, h)).
  - destruct Hidl as [-> | Ht]; [done|]. by rewrite bool_decide_eq_false_2, andb_false_r.
Qed.

(** and no handler runs under another program id. *)
Lemma other_program_id program program_id accounts data c :
  program_id ≠ pg_id program →
  entry program program_id accounts data c = Err (Custom (ErrorCode_number DeclaredProgramIdMismatch)).
Proof. intros Hne. unfold entry, try_entry. by rewrite (proj2 (Z.eqb_neq _ _)). Qed.

End dispatch_facts.

(** ** Programs over one account *)

(** The struct [{ #[account(mut)] data: Account<T> }] *)
Record OneAccount (T : Type) : Type := mkOneAccount { oa_data : Account T }.
Arguments mkOneAccount {T}.
Arguments oa_data {T}.

(** A method of the user that only computes: from its arguments, a function on the
    value of the account *)
Record PureMethod (T : Type) : Type := mkPureMethod {
  pm_name : string;
  pm_apply : list Z → option (T → result Error T);
}.
Arguments mkPureMethod {T}.
Arguments pm_name {T}.
Arguments pm_apply {T}.

Section one_account.
Context {T : Type} `{AnchorDataLaws T} `{Hasher} `{IdlSdk} `{AnchorSdk} `{Cpi}.
Implicit Types (v : T) (c : Cells).

#[local] Instance one_try_accounts : AccountsTrait (OneAccount T) := {|
  try_accounts program_id accounts ix_data :=
    '(a, rest) ← in_field "data" (Account.try_accounts accounts);
    _ ← check_field (is_writable (ac_info a)) "data" ConstraintMut;
    mret (mkOneAccount a, rest);
|}.

#[local] Instance one_exit : AccountsExit (OneAccount T) := {|
  exit self program_id := in_field "data" (Account.exit (oa_data self) program_id);
|}.

Definition run_method (ctx : Context (OneAccount T)) (f : T → result Error T) : AM (OneAccount T * unit) :=
  let a := oa_data (cx_accounts ctx) in
  v ← run_result (f (ac_account a));
  mret (mkOneAccount (Account.set_inner a v), tt).

Definition pure_handler (m : PureMethod T) : Handler := global_handler (pm_apply m) run_method (λ _, None).

(** Built with the feature [no-idl] or, by default, without it *)
Definition pure_program (no_idl : bool) (id : Pubkey) (methods : list (PureMethod T)) : Program :=
  mkProgram id no_idl None None ((λ m, (pm_name m, pure_handler m)) <$> methods).

(** The instruction is not one of those for the IDL that a default build adds. *)
Definition not_idl (no_idl : bool) (data : list Z) : Prop :=
  no_idl = true ∨ take 8 data ≠ le_bytes 8 IDL_IX_TAG.

(** What the program promises: the method that the data names, applied to the value,
    unless the result does not fit into the account *)
Definition method_of (methods : list (PureMethod T)) (data : list Z) : option (PureMethod T) :=
  (λ p, snd p) <$> list_find (λ m, sighash SIGHASH_GLOBAL_NAMESPACE (pm_name m) = take 8 data) methods.

Definition pure_spec (methods : list (PureMethod T)) (size : nat) (data : list Z) v : result Error T :=
  if (length data <? 8)%nat then Err (Error_from_code InstructionMissing)
  else
    m ← ok_or (Error_from_code InstructionFallbackNotFound) (method_of methods data);
    f ← ok_or (Error_from_code InstructionDidNotDeserialize) (pm_apply m (drop 8 data));
    v' ← f v;
    if (length (encoded v') <=? size)%nat then Ok v' else Err (field_error "data" AccountDidNotSerialize).

Definition pure_next methods size v (data : list Z) : T :=
  match pure_spec methods size data v with Ok v' => v' | _ => v end.

Context (no_idl : bool) (id : Pubkey) (info : AccountInfo) (methods : list (PureMethod T)).
Local Abbreviation program := (pure_program no_idl id methods).

Definition pure_commit (data : list Z) (rest : list AccountInfo) c : Cells :=
  match entry program id (info :: rest) data c with Ok (_, c') => c' | _ => c end.

(** The account holds the value. *)
Record holds_value (size : nat) v c : Prop := {
  hv_valid : borsh_valid v;
  hv_owner : owner (cell c (key info)) = id;
  hv_lamports : 0 < lamports (cell c (key info));
  hv_size : length (data (cell c (key info))) = size;
  hv_bytes : ∃ rest, data (cell c (key info)) = encoded v ++ rest;
  hv_borrows : borrows c !! key info = None;
}.

(** A history of instructions of the program on the account, between others that leave
    it alone; the instructions for the IDL count among those *)
Inductive pure_life c : list (list Z) → Cells → Prop :=
| pure_life_start : pure_life c [] c
| pure_life_instruction h c1 data rest :
    pure_life c h c1 → not_idl no_idl data → pure_life c (h ++ [data]) (pure_commit data rest c1)
| pure_life_other h c1 c2 :
    pure_life c h c1 → cell c2 (key info) = cell c1 (key info) →
    borrows c2 !! key info = borrows c1 !! key info → pure_life c h c2.

Context (type_is_own : type_owner (T := T) = id) (writable : is_writable info = true).
Context (methods_valid : ∀ m args f v v', m ∈ methods → pm_apply m args = Some f → borsh_valid v → f v = Ok v' → borsh_valid v').

Lemma pure_arm data :
  find_arm (take 8 data) (dispatch_arms program) = pure_handler <$> method_of methods data.
Proof.
  unfold find_arm, method_of, dispatch_arms, ctor_state_dispatch_arm, state_dispatch_arms, trait_dispatch_arms, global_dispatch_arms.
  cbn [pg_state pg_ixs pure_program app]. rewrite !list_find_fmap, <- !option_fmap_compose.
  unfold compose. cbn. by destruct (list_find _ _) as [[]|].
Qed.

(** What the accounts of the instruction are *)
Lemma one_account_read size v rest ix_data c :
  holds_value size v c →
  try_accounts id (info :: rest) ix_data c = Ok ((mkOneAccount (mkAccount v info), rest), c).
Proof.
  intros [Hv Ho Hl Hsz [tail Hd] Hb]. cbn [try_accounts one_try_accounts]. unfold Account.try_accounts, take_account.
  assert (Ht : Account.try_from (T := T) info c = Ok (mkAccount v info, c)).
  { rewrite account_try_from_eq; [by rewrite Hd, deserialize_encoded|intros [_ E]; lia|congruence|done]. }
  unfold in_field, map_err, mbind, AM_bind, mret, AM_ret. rewrite Ht. cbn [ac_info]. unfold check_field, require_that.
  by rewrite writable.
Qed.

(** and how it ends: the new value is written if it fits. *)
Lemma one_account_exit size v v' c :
  holds_value size v c → borsh_valid v' →
  if (length (encoded v') <=? size)%nat
  then ∃ c', exit (mkOneAccount (mkAccount v' info)) id c = Ok (tt, c') ∧ holds_value size v' c'
  else exit (mkOneAccount (mkAccount v' info)) id c = Err (field_error "data" AccountDidNotSerialize).
Proof.
  intros [Hv Ho Hl Hsz [tail Hd] Hb] Hv'. cbn [exit one_exit oa_data]. unfold Account.exit. rewrite type_is_own, Z.eqb_refl.
  cbn [ac_account ac_info]. destruct (Nat.leb_spec (length (encoded v')) size) as [Hle|Hgt].
  - destruct (exit_writes v' info c Hb) as (c' & He & [Hd' Ho' Hl' _ Hb']); [lia|]. exists c'.
    split; [unfold in_field, map_err; by rewrite He|]. split.
    + done.
    + by rewrite Ho'.
    + by rewrite Hl'.
    + rewrite Hd', length_app, length_drop. lia.
    + by eexists.
    + by rewrite Hb'.
  - unfold in_field, map_err, serialize_into, try_borrow_mut_data, mbind, AM_bind. rewrite Hb.
    unfold run_result. by rewrite serialize_short by lia.
Qed.

Lemma run_method_eq v rest f c :
  run_method (mkContext id (mkOneAccount (mkAccount v info)) rest) f c =
    match f v with
    | Ok v' => Ok ((mkOneAccount (mkAccount v' info), tt), c)
    | Err e => Err e
    | Panic => Panic
    end.
Proof. unfold run_method, mbind, AM_bind, run_result. cbn. by destruct (f v). Qed.

Lemma pure_step size v data rest c :
  holds_value size v c → not_idl no_idl data →
  match pure_spec methods size data v with
  | Ok v' => ∃ c', try_entry program id (info :: rest) data c = Ok (None, c') ∧ holds_value size v' c'
  | Err e => try_entry program id (info :: rest) data c = Err e
  | Panic => try_entry program id (info :: rest) data c = Panic
  end.
Proof.
  intros Hh Hidl. unfold try_entry, dispatch, pure_spec. cbn [pg_id pg_no_idl pure_program]. rewrite Z.eqb_refl. cbn [negb].
  destruct (length data <? 8)%nat; [done|].
  replace (negb no_idl && bool_decide (take 8 data = le_bytes 8 IDL_IX_TAG)) with false
    by (destruct Hidl as [-> | Ht]; [done|]; by rewrite bool_decide_eq_false_2, andb_false_r).
  rewrite pure_arm. destruct (method_of methods data) as [m|] eqn:Em; [|done].
  assert (Hm : m ∈ methods).
  { unfold method_of in Em. destruct (list_find _ _) as [[i m']|] eqn:Ef; [|done]. injection Em as <-.
    apply list_find_Some in Ef as [Hi _]. by apply list_elem_of_lookup; eauto. }
  cbn [fmap option_fmap option_map ok_or mbind result_bind]. unfold pure_handler, global_handler, deserialize_args.
  destruct (pm_apply m (drop 8 data)) as [f|] eqn:Ef; [|done]. cbn [ok_or mbind result_bind].
  rewrite (AM_bind_run _ _ c f c) by done. rewrite (AM_bind_run _ _ c _ c (one_account_read size v rest _ c Hh)).
  pose proof (run_method_eq v rest f c) as Hr. destruct (f v) as [v'|e|] eqn:Efv; [|by unfold mbind, AM_bind; rewrite Hr..].
  rewrite (AM_bind_run _ _ _ _ _ Hr). cbn [mbind result_bind].
  pose proof (one_account_exit size v v' c Hh (methods_valid _ _ _ _ _ Hm Ef (hv_valid _ _ _ Hh) Efv)) as He.
  destruct (_ <=? size)%nat.
  - destruct He as (c' & He & Hh'). exists c'. split; [|done]. by rewrite (AM_bind_run _ _ _ _ _ He).
  - by rewrite (AM_bind_Err _ _ _ _ He).
Qed.

(** C33: A program whose methods compute on the value of one [Account] refines these
    methods, whether it is built with the feature [no-idl] or not: after any history of
    instructions for its methods, interleaved with others that leave the account alone,
    the account holds the value that the methods compute from the same data.  The
    instructions that a default build adds for the IDL, under a tag of their own, run no
    method and are among those others; only under [no-idl] does their tag count as an
    identifier.  Every other instruction ends exactly as the method that its identifier
    names: it succeeds with the method, or fails with the code of the method's error, of an
    argument that does not decode, of an identifier that no method has or that is
    missing, or of a value that does not fit into the account; a failed one changes
    nothing. *)
Theorem program_refines_its_methods size v c h c' :
  holds_value size v c → pure_life c h c' →
  let now := foldl (pure_next methods size) v h in
  holds_value size now c' ∧
  ∀ data rest, not_idl no_idl data →
    match pure_spec methods size data now with
    | Ok v' => ∃ c2, entry program id (info :: rest) data c' = Ok (None, c2) ∧ holds_value size v' c2
    | Err e => entry program id (info :: rest) data c' = Err (ProgramError_from_Error e)
    | Panic => entry program id (info :: rest) data c' = Panic
    end.
Proof.
  intros Hh Hlife now.
  assert (Hstep : ∀ v c data rest, holds_value size v c → not_idl no_idl data →
    match pure_spec methods size data v with
    | Ok v' => ∃ c2, entry program id (info :: rest) data c = Ok (None, c2) ∧ holds_value size v' c2
    | Err e => entry program id (info :: rest) data c = Err (ProgramError_from_Error e)
    | Panic => entry program id (info :: rest) data c = Panic
    end).
  { intros v0 c0 data rest Hh0 Hidl. pose proof (pure_step size v0 data rest c0 Hh0 Hidl) as Hs. unfold entry.
    destruct (pure_spec _ _ _ _); [|by rewrite Hs..]. destruct Hs as (c2 & -> & ?). eauto. }
  assert (Hnow : holds_value size now c'); [|split; [done|intros; by apply Hstep]].
  subst now. induction Hlife as [|h c1 data rest _ IH Hidl|h c1 c2 _ IH E Eb]; [done| |].
  - rewrite foldl_app. cbn [foldl]. unfold pure_next at 1, pure_commit. specialize (Hstep _ _ data rest IH Hidl).
    destruct (pure_spec _ _ _ _); [|by rewrite Hstep..]. by destruct Hstep as (c2 & -> & ?).
  - destruct IH. split; rewrite ?E, ?Eb; done.
Qed.

End one_account.

(** ** A program over a flag *)

#[local] Instance test_hasher : Hasher := {| hash := reverse |}.
#[local] Existing Instances AnchorIdl.idl_test_sdk AnchorChecks.vault_sdk AnchorInit.test_cpi.

(** [set(to)], and [refuse()], which fails with an error of the user *)
Definition flag_methods : list (PureMethod Flag) :=
  [mkPureMethod "set" (λ args, '(b, _) ← parse_bool args; Some (λ _, Ok (mkFlag b)));
   mkPureMethod "refuse" (λ _, Some (λ _, Err (AnchorError (ERROR_CODE_OFFSET + 1) undecorated)))].

Definition call (name : string) (args : list Z) : list Z := sighash SIGHASH_GLOBAL_NAMESPACE name ++ args.

Lemma program_refines_its_methods_witness :
  let c := cells_with (replicate 8 1 ++ [0; 0]) in
  let info := info_of 7 in
  let c1 := pure_commit false testbed_owner info flag_methods (call "set" [1]) [] c in
  let c2 := pure_commit false testbed_owner info flag_methods (call "refuse" []) [] c1 in
  let run data := entry (pure_program false testbed_owner flag_methods) testbed_owner [info] data c2 in
  holds_value testbed_owner info 10 (mkFlag true) c2 ∧
  run (call "set" [7]) = Err (Custom (ErrorCode_number InstructionDidNotDeserialize)) ∧
  run (call "forget" []) = Err (Custom (ErrorCode_number InstructionFallbackNotFound)) ∧
  run [1; 2] = Err (Custom (ErrorCode_number InstructionMissing)) ∧
  (∃ c3, run (call "set" [0]) = Ok (None, c3) ∧ holds_value testbed_owner info 10 (mkFlag false) c3).
Proof.
  intros c info c1 c2 run.
  assert (Hh : holds_value testbed_owner info 10 (mkFlag false) c) by (split; try done; by exists [0]).
  assert (Hlife : pure_life false testbed_owner info flag_methods c [call "set" [1]; call "refuse" []] c2).
  { apply (pure_life_instruction _ _ _ _ _ [_]); [apply (pure_life_instruction _ _ _ _ _ []); [constructor|]|];
      right; by vm_compute. }
  destruct (program_refines_its_methods (H := flag_data) false testbed_owner info flag_methods ltac:(reflexivity) ltac:(reflexivity)
              ltac:(by intros) 10 (mkFlag false) c _ c2 Hh Hlife) as [Hnow Hrun].
  split; [exact Hnow|].
  assert (N1 : not_idl false (call "set" [7])) by (right; by vm_compute).
  assert (N2 : not_idl false (call "forget" [])) by (right; by vm_compute).
  assert (N3 : not_idl false [1; 2]) by (right; by vm_compute).
  assert (N4 : not_idl false (call "set" [0])) by (right; by vm_compute).
  split; [exact (Hrun (call "set" [7]) [] N1)|].
  split; [exact (Hrun (call "forget" []) [] N2)|].
  split; [exact (Hrun [1; 2] [] N3)|].
  exact (Hrun (call "set" [0]) [] N4).
Defined.
