(* ===== verification/AnchorEvents.v ===== *)
(** * Anchor: events and the clients that listen to them

    A program emits an event as a line of its log ([anchor/lang/attribute/event/src/lib.rs]),
    and a client picks the events out of the logs of transactions
    ([anchor/client/src/lib.rs], [Program::on]): it follows with a stack which program is
    running, and decodes the lines that its own program logged.  The regular
    expressions and the base 64 encoding come from other crates and are parameters.

    The client hears exactly the events of its program, in order, as long as nobody
    logs text that looks like the runtime's; the examples at the end show what happens
    otherwise. *)

From Stdlib Require Import Ascii.
From stdpp Require Import strings.
From S2P Require Import Prelude Errors Layouts StateBase Solana AnchorBase AnchorAccounts.
From S2P Require Import AnchorProgram.

(** ** Strings *)

(** [str::contains], for a text that is not empty *)
Fixpoint contains (needle s : string) : bool :=
  String.prefix needle s || match s with EmptyString => false | String _ s => contains needle s end.

(** [str::strip_prefix] *)
Definition strip_prefix (prefix s : string) : option string :=
  if String.prefix prefix s
  then Some (String.substring (String.length prefix) (String.length s - String.length prefix) s)
  else None.

Fixpoint has_char (a : ascii) (s : string) : bool :=
  match s with EmptyString => false | String b s => Ascii.eqb a b || has_char a s end.

Lemma string_app_cons a s t : String a s +:+ t = String a (s +:+ t).
Proof. reflexivity. Qed.
Lemma string_app_empty t : EmptyString +:+ t = t.
Proof. reflexivity. Qed.

Lemma prefix_app p s : String.prefix p (p +:+ s) = true.
Proof.
  induction p as [|a p IH]; [by destruct s|]. rewrite string_app_cons. cbn.
  destruct (ascii_dec a a); [exact IH|congruence].
Qed.

Lemma substring_all s : String.substring 0 (String.length s) s = s.
Proof. induction s as [|a s IH]; cbn; [done|by rewrite IH]. Qed.

Lemma strip_prefix_app p s : strip_prefix p (p +:+ s) = Some s.
Proof.
  unfold strip_prefix. rewrite prefix_app. f_equal. induction p as [|a p IH].
  - rewrite string_app_empty. cbn [String.length]. rewrite Nat.sub_0_r. apply substring_all.
  - rewrite string_app_cons. exact IH.
Qed.

Lemma string_app_assoc (a b c : string) : (a +:+ b) +:+ c = a +:+ (b +:+ c).
Proof. induction a as [|x a IH]; [done|by rewrite !string_app_cons, IH]. Qed.

Lemma has_char_app a s t : has_char a (s +:+ t) = has_char a s || has_char a t.
Proof. induction s as [|b s IH]; [done|]. rewrite string_app_cons. cbn. by rewrite IH, orb_assoc. Qed.

(** A text without the character [a] lies on one side of it. *)
Lemma prefix_before a n s t : has_char a n = false → String.prefix n (s +:+ String a t) = String.prefix n s.
Proof.
  revert s. induction n as [|b n IH]; intros s Hn; [by destruct s|]. cbn in Hn. apply orb_false_iff in Hn as [Hb Hn].
  destruct s as [|c s]; [rewrite string_app_empty|rewrite string_app_cons]; cbn;
    (destruct (ascii_dec b _) as [<-|Hne]; [|done]).
  - by rewrite Ascii.eqb_refl in Hb.
  - by apply IH.
Qed.

Lemma contains_app a n s t :
  n ≠ EmptyString → has_char a n = false → contains n (s +:+ String a t) = contains n s || contains n t.
Proof.
  intros Hne Hn. induction s as [|c s IH].
  - pose proof (prefix_before a n EmptyString t Hn) as E. rewrite string_app_empty in *. cbn [contains].
    rewrite E. by destruct n.
  - pose proof (prefix_before a n (String c s) t Hn) as E. rewrite string_app_cons in *. cbn [contains].
    rewrite E, IH. apply orb_assoc.
Qed.

(** ** [#[event]] and [emit!] *)

Section event.
Context `{Hasher}.

(** The discriminator of an event is the identifier of a method in a namespace of its own. *)
Definition event_discriminator (event_name : string) : list Z := take 8 (hash (as_bytes ("event:" +:+ event_name))).

(** [Event::data]; the encoder is derived, and a failure is a panic. *)
Definition event_data `{Discriminator T} (try_to_vec : T → option (list Z)) (event : T) : result Error (list Z) :=
  bytes ← unwrap (try_to_vec event);
  mret (discriminator (T := T) ++ bytes).

End event.

(** ** Errors of the client *)

Inductive ClientError : Type :=
| AccountNotFound
| CE_AnchorError (e : Error)
| CE_ProgramError (e : ProgramError)
| CE_SolanaClientError (e : string)
| CE_SolanaClientPubsubError (e : string)
| LogParseError (e : string).

(** ** Reading the log *)

(** What the client calls in the crates [regex] and [base64]: what stands between
    "Program " and " invoke" in a line of that form, whether a line is "Program ", any text
    and " succes" with any further letters s, and decoding. *)
Class LogSdk : Type := {
  invoke_captures : string → option string;
  success_is_match : string → bool;
  base64_decode : string → option (list Z);
}.

Definition PROGRAM_LOG : string := "Program log: ".
Definition PROGRAM_DATA : string := "Program data: ".

(** The stack of running programs; the last one runs. *)
Module Execution.
Section execution.
Context `{LogSdk}.
Implicit Types (self : list string).

(** From the first line, and the lines behind it *)
Definition new (logs : list string) : result ClientError (list string * list string) :=
  match logs with
  | [] => Panic
  | l :: logs =>
      program ← ok_or (LogParseError l) (invoke_captures l);
      mret ([program], logs)
  end.

Definition program self : result ClientError string := unwrap (last self).

Definition push self (new_program : string) : list string := self ++ [new_program].

Definition pop self : result ClientError (list string) :=
  if bool_decide (self = []) then Panic else mret (removelast self).

End execution.
End Execution.

Section listener.
Context `{LogSdk}.

(** The program that starts, and whether one returned.  Any name will do for the start
    of another program. *)
Definition handle_system_log (this_program log : string) : option string * bool :=
  if String.prefix ("Program " +:+ this_program +:+ " log:") log then (Some this_program, false)
  else if contains "invoke" log then (Some "cpi", false)
  else if success_is_match log then (None, true)
  else (None, false).

(** The event to listen to, with its derived decoder *)
Context {T : Type} `{Discriminator T} (deserialize : list Z → result string T).

Definition handle_program_log (self_program l : string) : result ClientError (option T * option string * bool) :=
  let text := match strip_prefix PROGRAM_LOG l with Some log => Some log | None => strip_prefix PROGRAM_DATA l end in
  match text with
  | Some log =>
      match base64_decode log with
      | None => mret (None, None, false)
      | Some borsh_bytes =>
          if (length borsh_bytes <? 8)%nat then Panic
          else if bool_decide (take 8 borsh_bytes = discriminator (T := T)) then
            e ← map_err LogParseError (deserialize (drop 8 borsh_bytes));
            mret (Some e, None, false)
          else mret (None, None, false)
      end
  | None =>
      let '(program, did_pop) := handle_system_log self_program l in
      mret (None, program, did_pop)
  end.

(** One line: the event goes to the callback before the stack changes. *)
Definition handle_log (self_program l : string) (execution : list string) :
    result ClientError (option T * option string * bool) :=
  program ← Execution.program execution;
  if String.eqb self_program program then handle_program_log self_program l
  else
    let '(program, did_pop) := handle_system_log self_program l in
    mret (None, program, did_pop).

Definition switch (new_program : option string) (did_pop : bool) (execution : list string) :
    result ClientError (list string) :=
  let execution := match new_program with Some p => Execution.push execution p | None => execution end in
  if did_pop then Execution.pop execution else mret execution.

(** The lines of a transaction: what the callback got, and how it ended.  An error ends
    the process with exit code 1, a panic the thread that listens. *)
Fixpoint handle_logs (self_program : string) (logs : list string) (execution : list string) :
    list T * result ClientError (list string) :=
  match logs with
  | [] => ([], mret execution)
  | l :: logs =>
      match handle_log self_program l execution with
      | Ok (event, new_program, did_pop) =>
          match switch new_program did_pop execution with
          | Ok execution =>
              let '(events, r) := handle_logs self_program logs execution in
              (option_list event ++ events, r)
          | Err e => (option_list event, Err e)
          | Panic => (option_list event, Panic)
          end
      | Err e => ([], Err e)
      | Panic => ([], Panic)
      end
  end.

(** A transaction whose first line cannot be parsed is passed over. *)
Definition handle_message (self_program : string) (logs : list string) : list T * result ClientError unit :=
  match logs with
  | [] => ([], mret tt)
  | _ =>
      match Execution.new logs with
      | Ok (execution, logs) =>
          let '(events, r) := handle_logs self_program logs execution in
          (events, _ ← r; mret tt)
      | Err _ => ([], mret tt)
      | Panic => ([], Panic)
      end
  end.

(** [Program::on]: the thread receives the logs of one transaction after the other. *)
Fixpoint on (self_program : string) (messages : list (list string)) : list T * result ClientError unit :=
  match messages with
  | [] => ([], mret tt)
  | logs :: messages =>
      match handle_message self_program logs with
      | (events, Ok _) =>
          let '(events', r) := on self_program messages in
          (events ++ events', r)
      | stopped => stopped
      end
  end.

End listener.

(** ** Logs as the runtime writes them *)

Definition invoke_line (p depth : string) : string := "Program " +:+ p +:+ " invoke [" +:+ depth +:+ "]".
Definition success_line (p : string) : string := "Program " +:+ p +:+ " success".

Class Base64 : Type := { base64_encode : list Z → string }.

(** What the documentation of the two crates says *)
Class LogLaws `{LogSdk} `{Base64} : Prop := {
  captures_law p d :
    has_char " " p = false → has_char " " d = false → invoke_captures (invoke_line p d) = Some p;
  success_law p : success_is_match (success_line p) = true;
  base64_law bytes : Forall is_byte bytes → base64_decode (base64_encode bytes) = Some bytes;
}.

(** An address of a program: its base 58 encoding has neither spaces nor colons, and
    none is known to spell the word that the client looks for. *)
Record program_name (p : string) : Prop := {
  pn_space : has_char " " p = false;
  pn_colon : has_char ":" p = false;
  pn_invoke : contains "invoke" p = false;
}.

Record depth_text (d : string) : Prop := {
  dt_space : has_char " " d = false;
  dt_colon : has_char ":" d = false;
}.

Lemma prefix_has_char a n s : has_char a n = true → has_char a s = false → String.prefix n s = false.
Proof.
  revert s. induction n as [|b n IH]; intros s Hn Hs; [done|]. destruct s as [|c s]; [done|]. cbn in *.
  apply orb_false_iff in Hs as [Hc Hs]. destruct (ascii_dec b c) as [->|]; [|done].
  apply IH; [|done]. by rewrite Hc in Hn.
Qed.

Lemma contains_inside n s t : contains n (s +:+ (n +:+ t)) = true.
Proof.
  induction s as [|c s IH].
  - rewrite string_app_empty. destruct (n +:+ t) eqn:E; cbn [contains]; rewrite <- E, prefix_app; done.
  - rewrite string_app_cons. cbn [contains]. by rewrite IH, orb_true_r.
Qed.

Section lines.
Context `{LogLaws}.

Lemma invoke_line_colon p d : program_name p → depth_text d → has_char ":" (invoke_line p d) = false.
Proof.
  intros Hp Hd. unfold invoke_line. rewrite !has_char_app, (pn_colon p Hp), (dt_colon d Hd). reflexivity.
Qed.

Lemma success_line_colon p : program_name p → has_char ":" (success_line p) = false.
Proof. intros Hp. unfold success_line. rewrite !has_char_app, (pn_colon p Hp). reflexivity. Qed.

Lemma no_log_prefix self l : has_char ":" l = false → String.prefix ("Program " +:+ self +:+ " log:") l = false.
Proof. apply prefix_has_char. rewrite !has_char_app. cbn. by rewrite orb_true_r. Qed.

Lemma no_program_log l : has_char ":" l = false → strip_prefix PROGRAM_LOG l = None ∧ strip_prefix PROGRAM_DATA l = None.
Proof. intros Hl. unfold strip_prefix. by rewrite !(prefix_has_char ":" _ l) by done. Qed.

(** The start of a program and its end, as the client understands them *)
Lemma system_invoke self p d :
  program_name p → depth_text d → handle_system_log self (invoke_line p d) = (Some "cpi", false).
Proof.
  intros Hp Hd. unfold handle_system_log. rewrite no_log_prefix by by apply invoke_line_colon.
  unfold invoke_line. rewrite <- (string_app_assoc "Program ").
  change (" invoke [" +:+ d +:+ "]") with (" " +:+ ("invoke" +:+ (" [" +:+ d +:+ "]"))).
  rewrite <- string_app_assoc. by rewrite contains_inside.
Qed.

Lemma system_success self p : program_name p → handle_system_log self (success_line p) = (None, true).
Proof.
  intros Hp. unfold handle_system_log. rewrite no_log_prefix by by apply success_line_colon.
  replace (contains "invoke" (success_line p)) with false; [by rewrite success_law|].
  change (success_line p) with ("Program" +:+ String " " (p +:+ String " " "success")).
  by rewrite !contains_app, (pn_invoke p Hp).
Qed.

End lines.

(** ** What the client hears *)

Section hearing.
Context `{LogLaws} {T : Type} `{Discriminator T}.
Context (try_to_vec : T → option (list Z)) (deserialize : list Z → result string T).
Context (discriminator_bytes : length (discriminator (T := T)) = 8%nat ∧ Forall is_byte (discriminator (T := T))).
Context (codec : ∀ e bytes, try_to_vec e = Some bytes → Forall is_byte bytes ∧ deserialize bytes = Ok e).
Context (self : string) (self_name : program_name self) (self_cpi : self ≠ "cpi").

(** A line that the client does not mistake for one of the runtime's *)
Definition unremarkable (l : string) : bool :=
  negb (String.prefix ("Program " +:+ self +:+ " log:") l) && negb (contains "invoke" l) && negb (success_is_match l).

(** Lines while another program runs *)
Inductive foreign : list string → Prop :=
| foreign_nil : foreign []
| foreign_line l ls : unremarkable l = true → foreign ls → foreign (l :: ls)
| foreign_call p d ls ls' :
    program_name p → depth_text d → foreign ls → foreign ls' →
    foreign (invoke_line p d :: ls ++ success_line p :: ls').

(** A logged text that is no event of the type, and long enough to be looked at *)
Definition not_the_event (s : string) : Prop :=
  match base64_decode s with
  | None => True
  | Some bytes => (8 ≤ length bytes)%nat ∧ take 8 bytes ≠ discriminator (T := T)
  end.

(** Lines while the program itself runs, with the events that it emits *)
Inductive own : list string → list T → Prop :=
| own_nil : own [] []
| own_event e data ls es :
    event_data try_to_vec e = Ok data → own ls es → own ((PROGRAM_DATA +:+ base64_encode data) :: ls) (e :: es)
| own_text prefix s ls es :
    prefix = PROGRAM_LOG ∨ prefix = PROGRAM_DATA → not_the_event s → own ls es → own ((prefix +:+ s) :: ls) es
| own_line l ls es :
    strip_prefix PROGRAM_LOG l = None → strip_prefix PROGRAM_DATA l = None → unremarkable l = true →
    own ls es → own (l :: ls) es
| own_call p d ls ls' es :
    program_name p → depth_text d → foreign ls → own ls' es →
    own (invoke_line p d :: ls ++ success_line p :: ls') es.

(** A transaction with one instruction, of the program or of another one *)
Inductive transaction : list string → list T → Prop :=
| transaction_own d ls es :
    depth_text d → own ls es → transaction (invoke_line self d :: ls ++ [success_line self]) es
| transaction_foreign p d ls :
    program_name p → p ≠ self → depth_text d → foreign ls →
    transaction (invoke_line p d :: ls ++ [success_line p]) [].

Lemma unremarkable_system l : unremarkable l = true → handle_system_log self l = (None, false).
Proof.
  unfold unremarkable, handle_system_log. destruct (String.prefix _ l), (contains "invoke" l), (success_is_match l); done.
Qed.

Lemma program_top stack p : Execution.program (stack ++ [p]) = Ok p.
Proof. unfold Execution.program. by rewrite last_snoc. Qed.

Lemma pop_top stack p : Execution.pop (stack ++ [p]) = Ok stack.
Proof.
  unfold Execution.pop. rewrite bool_decide_eq_false_2 by (by destruct stack).
  by rewrite removelast_last.
Qed.

Notation handle := (handle_logs deserialize self).

(** One line, by what it does to the stack *)
Lemma handle_step l ls stack event new_program did_pop stack' :
  handle_log deserialize self l stack = Ok (event, new_program, did_pop) → switch new_program did_pop stack = Ok stack' →
  handle (l :: ls) stack = let '(es, r) := handle ls stack' in (option_list event ++ es, r).
Proof. intros Hl Hs. cbn [handle_logs]. by rewrite Hl, Hs. Qed.

Lemma foreign_step l stack p :
  p ≠ self →
  handle_log deserialize self l (stack ++ [p]) = Ok (None, fst (handle_system_log self l), snd (handle_system_log self l)).
Proof.
  intros Hp. unfold handle_log. rewrite program_top. cbn [mbind result_bind].
  rewrite (proj2 (String.eqb_neq _ _)) by done. by destruct (handle_system_log self l).
Qed.

Lemma own_step l :
  handle_log deserialize self l [self] = handle_program_log deserialize self l.
Proof. unfold handle_log. cbn [Execution.program last unwrap mbind result_bind]. by rewrite String.eqb_refl. Qed.

Lemma own_system_step l :
  strip_prefix PROGRAM_LOG l = None → strip_prefix PROGRAM_DATA l = None →
  handle_log deserialize self l [self] = Ok (None, fst (handle_system_log self l), snd (handle_system_log self l)).
Proof.
  intros E1 E2. rewrite own_step. unfold handle_program_log. rewrite E1, E2. by destruct (handle_system_log self l).
Qed.

(** Another program is passed over, and leaves the stack as it was. *)
Lemma foreign_silent ls stack p rest :
  foreign ls → p ≠ self → handle (ls ++ rest) (stack ++ [p]) = handle rest (stack ++ [p]).
Proof.
  intros Hf. revert stack p rest. induction Hf as [|l ls Hl _ IH|q d ls ls' Hq Hd _ IH _ IH']; intros stack p rest Hp; [done| |].
  - cbn [app]. rewrite (handle_step l _ _ None None false (stack ++ [p])).
    + rewrite IH by done. by destruct (handle rest _).
    + rewrite foreign_step by done. by rewrite unremarkable_system.
    + done.
  - cbn [app]. rewrite <- (assoc_L (++)). cbn [app].
    rewrite (handle_step (invoke_line q d) _ _ None (Some "cpi") false ((stack ++ [p]) ++ ["cpi"])).
    + rewrite IH by done. rewrite (handle_step (success_line q) _ _ None None true (stack ++ [p])).
      * rewrite IH' by done. by destruct (handle rest _).
      * rewrite foreign_step by done. by rewrite system_success.
      * apply pop_top.
    + rewrite foreign_step by done. by rewrite system_invoke.
    + done.
Qed.

Lemma event_heard e data : event_data try_to_vec e = Ok data →
  handle_program_log deserialize self (PROGRAM_DATA +:+ base64_encode data) = Ok (Some e, None, false).
Proof.
  unfold event_data. destruct (try_to_vec e) as [bytes|] eqn:Ee; [|done]. intros [= <-].
  destruct (codec e bytes Ee) as [Hb Hd]. destruct discriminator_bytes as [Hl Hdisc].
  unfold handle_program_log. rewrite strip_prefix_app.
  replace (strip_prefix PROGRAM_LOG _) with (@None string) by reflexivity.
  rewrite base64_law by (by apply Forall_app_2). rewrite length_app, Hl. cbn [Nat.ltb Nat.leb Nat.add].
  rewrite take_app_length', drop_app_length' by done. by rewrite bool_decide_eq_true_2, Hd.
Qed.

Lemma text_passed prefix s : prefix = PROGRAM_LOG ∨ prefix = PROGRAM_DATA → not_the_event s →
  handle_program_log deserialize self (prefix +:+ s) = Ok (None, None, false).
Proof.
  intros Hp Hs. unfold handle_program_log.
  replace (match strip_prefix PROGRAM_LOG _ with Some log => Some log | None => _ end) with (Some s)
    by (destruct Hp as [-> | ->]; rewrite !strip_prefix_app; reflexivity).
  unfold not_the_event in Hs. destruct (base64_decode s) as [bytes|]; [|done]. destruct Hs as [Hl Hne].
  by rewrite (proj2 (Nat.ltb_ge _ _)), bool_decide_eq_false_2 by done.
Qed.

(** While the program runs its events are heard in order. *)
Lemma own_heard ls es rest :
  own ls es → handle (ls ++ rest) [self] = let '(es', r) := handle rest [self] in (es ++ es', r).
Proof.
  intros Ho. induction Ho as [|e data ls es He _ IH|prefix s ls es Hp Hs _ IH|l ls es E1 E2 Hl _ IH|p d ls ls' es Hp Hd Hf _ IH];
    cbn [app]; [by destruct (handle rest _)| | | |].
  - rewrite (handle_step _ _ _ (Some e) None false [self]), IH; [by destruct (handle rest _)|by rewrite own_step, event_heard with (e := e)|done].
  - rewrite (handle_step _ _ _ None None false [self]), IH; [by destruct (handle rest _)|by rewrite own_step, text_passed|done].
  - rewrite (handle_step _ _ _ None None false [self]), IH; [by destruct (handle rest _)| |done].
    by rewrite own_system_step, unremarkable_system.
  - rewrite <- (assoc_L (++)). cbn [app].
    rewrite (handle_step (invoke_line p d) _ _ None (Some "cpi") false ([self] ++ ["cpi"])); [| |done].
    + rewrite foreign_silent by done. rewrite (handle_step (success_line p) _ _ None None true [self]).
      * rewrite IH. by destruct (handle rest _).
      * rewrite foreign_step by done. by rewrite system_success.
      * apply pop_top.
    + destruct (no_program_log (invoke_line p d)); [by apply invoke_line_colon|].
      by rewrite own_system_step, system_invoke.
Qed.

Lemma transaction_heard logs es : transaction logs es → handle_message deserialize self logs = (es, Ok tt).
Proof.
  intros Ht. unfold handle_message, Execution.new.
  assert (Hd : ∀ p d, program_name p → depth_text d → invoke_captures (invoke_line p d) = Some p)
    by (intros p d [] []; by apply captures_law).
  assert (Hn : ∀ p, program_name p → strip_prefix PROGRAM_LOG (success_line p) = None ∧ strip_prefix PROGRAM_DATA (success_line p) = None)
    by (intros p Hp; by apply no_program_log, success_line_colon).
  destruct Ht as [d ls es Hd' Ho|p d ls Hp Hne Hd' Hf]; rewrite Hd by done; cbn [ok_or mbind result_bind mret result_ret].
  - rewrite (own_heard ls es _ Ho). rewrite (handle_step _ [] [self] None None true []).
    + cbn. by rewrite app_nil_r.
    + destruct (Hn self self_name). by rewrite own_system_step, system_success.
    + apply (pop_top []).
  - rewrite (foreign_silent ls [] p _ Hf Hne). rewrite (handle_step _ [] ([] ++ [p]) None None true []); [done| |apply pop_top].
    rewrite foreign_step by done. by rewrite system_success.
Qed.

(** C36: A client that listens to a program hears, over any sequence of transactions of
    one instruction each, exactly the events that the program emits while it runs as the
    instruction of its transaction, each once and in order, and is still listening
    afterwards; calls of other programs in between, nested to any depth, are passed over.
    The conditions: every instruction succeeds; no line that a program logs reads like a
    line of the runtime (contains "invoke", say, or ends like a success); no other text
    that the program itself logs is the base 64 of an event of this type or of fewer than
    eight bytes, which ends the listener ([short_log_ends_the_listener]).  What the program
    emits when another one calls it is not heard ([called_program_is_not_heard]), and is
    not counted among its events here. *)
Theorem events_are_heard messages :
  Forall (λ '(logs, es), transaction logs es) messages →
  on deserialize self (fst <$> messages) = (concat (snd <$> messages), Ok tt).
Proof.
  induction 1 as [|[logs es] messages Ht _ IH]; [done|]. rewrite !fmap_cons. cbn [on concat fst snd].
  rewrite (transaction_heard logs es Ht), IH. done.
Qed.

End hearing.

(** ** An executable instance *)

Module Base64Text.

Definition alphabet : string := "ABCDEFGHIJKLMNOPQRSTUVWXYZabcdefghijklmnopqrstuvwxyz0123456789+/".

Definition digit (n : Z) : ascii := default "="%char (String.get (Z.to_nat n) alphabet).

Fixpoint position (a : ascii) (s : string) : option Z :=
  match s with
  | EmptyString => None
  | String b s => if Ascii.eqb a b then Some 0 else n ← position a s; Some (n + 1)
  end.

Definition undigit (a : ascii) : option Z := position a alphabet.

Fixpoint encode (bytes : list Z) : string :=
  match bytes with
  | [] => ""
  | [a] => String (digit (a / 4)) (String (digit (a mod 4 * 16)) "==")
  | [a; b] => String (digit (a / 4)) (String (digit (a mod 4 * 16 + b / 16)) (String (digit (b mod 16 * 4)) "="))
  | a :: b :: c :: bytes =>
      String (digit (a / 4)) (String (digit (a mod 4 * 16 + b / 16))
        (String (digit (b mod 16 * 4 + c / 64)) (String (digit (c mod 64)) (encode bytes))))
  end.

Definition is_pad (a : ascii) : bool := Ascii.eqb a "=".

Fixpoint decode (s : string) : option (list Z) :=
  match s with
  | EmptyString => Some []
  | String w (String x (String y (String z rest))) =>
      n1 ← undigit w; n2 ← undigit x;
      let a := n1 * 4 + n2 / 16 in
      if is_pad y then if is_pad z && String.eqb rest "" && (n2 mod 16 =? 0) then Some [a] else None
      else
        n3 ← undigit y;
        let b := n2 mod 16 * 16 + n3 / 4 in
        if is_pad z then if String.eqb rest "" && (n3 mod 4 =? 0) then Some [a; b] else None
        else n4 ← undigit z; bytes ← decode rest; Some (a :: b :: (n3 mod 4 * 64 + n4) :: bytes)
  | _ => None
  end.

#[local] Ltac divides := Z.to_euclidean_division_equations; lia.

Lemma digit_ok n : 0 ≤ n < 64 → undigit (digit n) = Some n ∧ is_pad (digit n) = false.
Proof.
  intros Hn. assert (Hall : Forall (λ i, undigit (digit (Z.of_nat i)) = Some (Z.of_nat i) ∧ is_pad (digit (Z.of_nat i)) = false) (seq 0 64))
    by (apply (bool_decide_unpack _); vm_compute; exact I).
  rewrite Forall_forall in Hall. specialize (Hall (Z.to_nat n)). rewrite Z2Nat.id in Hall by lia.
  apply Hall, elem_of_seq. lia.
Qed.

Lemma decode_encode bytes : Forall is_byte bytes → decode (encode bytes) = Some bytes.
Proof.
  induction bytes as [bytes IH] using (induction_ltof1 _ length). unfold ltof in IH. intros Hb.
  assert (Hu : ∀ n, 0 ≤ n < 64 → undigit (digit n) = Some n) by (intros; by apply digit_ok).
  assert (Hpad : ∀ n, 0 ≤ n < 64 → is_pad (digit n) = false) by (intros; by apply digit_ok).
  destruct bytes as [|a [|b [|c bytes]]]; [done|..]; unfold is_byte in *; inversion_clear Hb as [|?? Ha Hb'];
    try (inversion_clear Hb' as [|?? Hbb Hb]); try (inversion_clear Hb as [|?? Hc Hbs]); cbn [encode decode].
  - rewrite !Hu by divides. cbn [mbind option_bind is_pad].
    replace (_ mod 16 =? 0) with true by (symmetry; apply Z.eqb_eq; divides).
    cbn. repeat f_equal. divides.
  - rewrite !Hu by divides.
    rewrite Hpad by divides. cbn [mbind option_bind].
    replace (_ mod 4 =? 0) with true by (symmetry; apply Z.eqb_eq; divides).
    cbn. repeat f_equal; divides.
  - rewrite !Hu by divides.
    rewrite !Hpad by divides. cbn [mbind option_bind].
    rewrite IH by (done || cbn; lia). cbn. repeat f_equal; divides.
Qed.

End Base64Text.

Module LogText.

(** What stands before the last occurrence of the text *)
Fixpoint before_last (needle s : string) : option string :=
  match s with
  | EmptyString => None
  | String a s' =>
      match before_last needle s' with
      | Some t => Some (String a t)
      | None => if String.prefix needle s then Some EmptyString else None
      end
  end.

Fixpoint ends_with (suffix s : string) : bool :=
  String.eqb suffix s || match s with EmptyString => false | String _ s => ends_with suffix s end.

(** Without the letters [a] at its end *)
Fixpoint trim_end (a : ascii) (s : string) : string :=
  match s with
  | EmptyString => EmptyString
  | String b s =>
      match trim_end a s with
      | EmptyString => if Ascii.eqb a b then EmptyString else String b EmptyString
      | t => String b t
      end
  end.

Definition captures (l : string) : option string := rest ← strip_prefix "Program " l; before_last " invoke" rest.

Definition success (l : string) : bool :=
  match strip_prefix "Program " l with
  | Some rest => negb (String.eqb (trim_end "s" rest) rest) && ends_with " succe" (trim_end "s" rest)
  | None => false
  end.

Lemma before_last_none s : has_char " " s = false → before_last " invoke" s = None.
Proof.
  induction s as [|a s IH]; [done|]. intros Hs. pose proof Hs as [_ Hs']%orb_false_iff. cbn [before_last].
  rewrite IH by done. by rewrite (prefix_has_char " ") by done.
Qed.

Lemma before_last_here p d :
  has_char " " d = false → before_last " invoke" (p +:+ " invoke [" +:+ d +:+ "]") = Some p.
Proof.
  intros Hd. assert (Hdb : before_last " invoke" (d +:+ "]") = None)
    by (apply before_last_none; by rewrite has_char_app, Hd).
  induction p as [|a p IH].
  - rewrite string_app_empty. rewrite !string_app_cons, string_app_empty. cbn [before_last]. by rewrite Hdb.
  - rewrite string_app_cons. cbn [before_last]. by rewrite IH.
Qed.

Lemma trim_end_app a s t : trim_end a t ≠ EmptyString → trim_end a (s +:+ t) = s +:+ trim_end a t.
Proof.
  intros Ht. induction s as [|b s IH]; [done|]. rewrite !string_app_cons. cbn [trim_end]. rewrite IH.
  destruct (s +:+ trim_end a t) eqn:E; [|done]. destruct s; [|done]. by rewrite string_app_empty in E.
Qed.

Lemma ends_with_app s t : ends_with t (s +:+ t) = true.
Proof.
  induction s as [|b s IH].
  - rewrite string_app_empty. destruct t; cbn [ends_with]; by rewrite String.eqb_refl.
  - rewrite string_app_cons. cbn [ends_with]. by rewrite IH, orb_true_r.
Qed.

Lemma success_here p : success (success_line p) = true.
Proof.
  unfold success, success_line. rewrite strip_prefix_app, trim_end_app by done.
  change (trim_end "s" " success") with " succe". rewrite ends_with_app, andb_true_r. apply negb_true_iff.
  induction p as [|a p IH]; [done|]. rewrite !string_app_cons. cbn [String.eqb]. by rewrite Ascii.eqb_refl.
Qed.

End LogText.

#[local] Instance log_text_sdk : LogSdk :=
  {| invoke_captures := LogText.captures; success_is_match := LogText.success; base64_decode := Base64Text.decode |}.
#[local] Instance base64_text : Base64 := {| base64_encode := Base64Text.encode |}.

#[local] Instance log_text_laws : LogLaws.
Proof.
  split; cbn.
  - intros p d Hp Hd. unfold LogText.captures, invoke_line. rewrite strip_prefix_app. cbn [mbind option_bind].
    by apply LogText.before_last_here.
  - apply LogText.success_here.
  - apply Base64Text.decode_encode.
Qed.

(** ** A program that logs whether a flag was set *)

#[local] Existing Instance AnchorProgram.test_hasher.
#[local] Instance flag_event : Discriminator bool := {| discriminator := event_discriminator "FlagSet" |}.

Definition flag_to_vec (b : bool) : option (list Z) := Some [Z.b2z b].
Definition flag_of_slice (bs : list Z) : result string bool :=
  match bs with
  | 0 :: _ => Ok false
  | 1 :: _ => Ok true
  | _ => Err "Invalid bool representation"%string
  end.

Definition flag_line (b : bool) : string :=
  PROGRAM_DATA +:+ base64_encode (discriminator (T := bool) ++ [Z.b2z b]).

Definition heard (logs : list string) : list bool * result ClientError unit := on flag_of_slice "flag" [logs].

Lemma events_are_heard_witness :
  let set_twice :=
    ["Program flag invoke [1]"; "Program log: Instruction: Set"; flag_line true;
     "Program token invoke [2]"; "Program log: Instruction: Transfer"; flag_line true;
     "Program clock invoke [3]"; "Program clock success"; "Program token success";
     flag_line false; "Program flag consumed 4000 of 200000 compute units"; "Program flag success"] in
  let transfer := ["Program token invoke [1]"; flag_line true; "Program token success"] in
  on flag_of_slice "flag" [set_twice; transfer; set_twice] = ([true; false; true; false], Ok tt).
Proof.
  intros set_twice transfer.
  assert (Hname : ∀ p, p ∈ ["flag"; "token"; "clock"] → program_name p) by (intros p Hp; split; set_unfold; naive_solver).
  assert (Hdepth : ∀ d, d ∈ ["1"; "2"; "3"] → depth_text d) by (intros d Hd; split; set_unfold; naive_solver).
  assert (Ht : transaction flag_to_vec "flag" set_twice [true; false]).
  { apply (transaction_own flag_to_vec "flag" "1" (take 10 (drop 1 set_twice))); [apply Hdepth; set_solver|].
    apply (own_text _ _ PROGRAM_LOG "Instruction: Set"); [by left|done|].
    apply (own_event _ _ true (discriminator (T := bool) ++ [1])); [done|].
    apply (own_call _ _ "token" "2" [_; _; _; _]); [apply Hname; set_solver|apply Hdepth; set_solver| |].
    - do 2 (apply foreign_line; [done|]). apply (foreign_call _ "clock" "3" []); [apply Hname; set_solver|apply Hdepth; set_solver|constructor|constructor].
    - apply (own_event _ _ false (discriminator (T := bool) ++ [0])); [done|]. apply own_line; [done..|constructor]. }
  assert (Ho : transaction flag_to_vec "flag" transfer []).
  { apply (transaction_foreign flag_to_vec "flag" "token" "1" [_]); [apply Hname; set_solver|done|apply Hdepth; set_solver|].
    apply foreign_line; [done|constructor]. }
  assert (Hdisc : length (discriminator (T := bool)) = 8%nat ∧ Forall is_byte (discriminator (T := bool)))
    by (split; [done|vm_compute; repeat (apply Forall_cons_2; [done|]); by apply Forall_nil_2]).
  assert (Hcodec : ∀ e bytes, flag_to_vec e = Some bytes → Forall is_byte bytes ∧ flag_of_slice bytes = Ok e)
    by (intros [] bytes [= <-]; (split; [apply Forall_cons_2; [done|by apply Forall_nil_2]|done])).
  apply (events_are_heard flag_to_vec flag_of_slice Hdisc Hcodec "flag" ltac:(apply Hname; set_solver) ltac:(done)
           [(set_twice, [true; false]); (transfer, []); (set_twice, [true; false])]).
  do 3 (apply Forall_cons_2; [done|]). by apply Forall_nil_2.
Defined.

(** *** What ends the listener or misleads it *)

(** A second instruction of the transaction: the stack is empty when it starts. *)
Example second_instruction_ends_the_listener :
  heard ["Program flag invoke [1]"; flag_line true; "Program flag success";
         "Program flag invoke [1]"; flag_line false; "Program flag success"] = ([true], Panic).
Proof. vm_compute. reflexivity. Qed.

(** A text of the program that decodes to less than a discriminator *)
Example short_log_ends_the_listener :
  heard ["Program flag invoke [1]"; "Program log: done"; flag_line true; "Program flag success"] = ([], Panic).
Proof. vm_compute. reflexivity. Qed.

(** An event of the program where another one calls it *)
Example called_program_is_not_heard :
  heard ["Program router invoke [1]"; "Program flag invoke [2]"; flag_line true; "Program flag success";
         "Program router success"] = ([], Ok tt).
Proof. vm_compute. reflexivity. Qed.

(** A program that is called logs the end of itself and then an event of its caller; a
    program that it calls in turn evens out the stack. *)
Example forged_event_is_heard :
  heard ["Program flag invoke [1]"; "Program token invoke [2]"; "Program log: transfer success"; flag_line true;
         "Program sub invoke [3]"; "Program log: invoke"; "Program sub success";
         "Program token success"; "Program flag success"] = ([true], Ok tt).
Proof. vm_compute. reflexivity. Qed.
