(* ===== verification/AnchorClient.v ===== *)
(** * Anchor: callers of a program

    What the framework generates for those who call a program: the data of its
    instructions ([syn/src/codegen/program/instruction.rs]), the functions for calls from
    other programs ([cpi.rs], and those of an interface in
    [lang/attribute/interface/src/lib.rs]) with their contexts ([context.rs]), and the
    structs that list the accounts of an instruction
    ([syn/src/codegen/accounts/__client_accounts.rs], [__cpi_client_accounts.rs],
    [to_account_metas.rs], [to_account_infos.rs]).  With the client that sends requests
    ([anchor/client/src/lib.rs], [cluster.rs]); the node and the signing of transactions
    are parameters.

    A request for a method reaches the handler of this method with its arguments, and
    brings the accounts that the handler takes before those of the user. *)

From Stdlib Require Import Ascii.
From stdpp Require Import strings.
From S2P Require Import Prelude Errors Layouts StateBase Solana Builders AnchorBase AnchorAccounts.
From S2P Require Import AnchorFacts AnchorConstraints AnchorConstraintFacts AnchorChecks AnchorInit AnchorIdl AnchorProgram.
From S2P Require Import AnchorEvents.

(** ** Instructions *)

Section data.
Context `{Hasher} {Args : Type}.

(** The encoder that is derived for the arguments.  It writes to memory. *)
Context (try_to_vec : Args → option (list Z)).

(** [InstructionData::data], with [expect("Should always serialize")] *)
Definition instruction_data {E} (sighash : list Z) (ix : Args) : result E (list Z) :=
  ix_data ← unwrap (try_to_vec ix);
  mret (sighash ++ ix_data).

Definition global_data {E} (name : string) : Args → result E (list Z) :=
  instruction_data (sighash SIGHASH_GLOBAL_NAMESPACE name).
Definition state_data {E} (name : string) : Args → result E (list Z) :=
  instruction_data (sighash SIGHASH_STATE_NAMESPACE name).
Definition ctor_data {E} : Args → result E (list Z) := instruction_data sighash_ctor.

End data.

(** ** Calls from other programs *)

Class CallSdk : Type := {
  invoke_program_signed : Instruction → list AccountInfo → list Seeds → Cells → result ProgramError Cells;
}.

Definition invoke_program `{CallSdk} (ix : Instruction) (infos : list AccountInfo) (signer_seeds : list Seeds) : AM unit :=
  λ c, match invoke_program_signed ix infos signer_seeds c with
       | Ok c' => Ok (tt, c')
       | Err e => Err (Error_from_program_error e)
       | Panic => Panic
       end.

(** *** [CpiStateContext] *)

Record CpiStateContext (A : Type) : Type := mkCpiStateContext {
  csc_state : AccountInfo;
  csc_cpi_ctx : CpiContext A;
}.
Arguments mkCpiStateContext {A}.
Arguments csc_state {A}.
Arguments csc_cpi_ctx {A}.

Module CpiStateContext.
Section context.
Context {A : Type}.
Implicit Types (self : CpiStateContext A).

Definition new (program state : AccountInfo) (accounts : A) : CpiStateContext A :=
  mkCpiStateContext state (mkCpiContext accounts [] program []).

Definition new_with_signer (program state : AccountInfo) (accounts : A) (signer_seeds : list Seeds) : CpiStateContext A :=
  mkCpiStateContext state (mkCpiContext accounts [] program signer_seeds).

Definition with_signer self (signer_seeds : list Seeds) : CpiStateContext A :=
  mkCpiStateContext (csc_state self) (CpiContext.with_signer (csc_cpi_ctx self) signer_seeds).

Definition program self : AccountInfo := ctx_program (csc_cpi_ctx self).
Definition signer_seeds self : list Seeds := ctx_signer_seeds (csc_cpi_ctx self).

(** The state comes first. *)
Definition to_account_metas `{ToAccountMetas A} self (is_signer : option bool) : list AccountMeta :=
  mkAccountMeta (key (csc_state self)) false (is_writable (csc_state self)) ::
  AnchorBase.to_account_metas (ctx_accounts (csc_cpi_ctx self)) is_signer.

Definition to_account_infos `{ToAccountInfos A} self : list AccountInfo :=
  AnchorBase.to_account_infos (ctx_accounts (csc_cpi_ctx self)) ++ [csc_state self; program self].

End context.
End CpiStateContext.

(** *** The modules [cpi] and [cpi::state], and that of an interface *)

Section cpi.
Context `{Hasher} `{CallSdk} {A Args : Type} `{ToAccountMetas A} `{ToAccountInfos A}.
Context (try_to_vec : Args → option (list Z)).

(** What a call returns is read later, out of the return data of the last call. *)
Definition cpi_method (program_id : Pubkey) (name : string) (ctx : CpiContext A) (ix : Args) : AM unit :=
  ix_data ← run_result (ok_or (Error_from_code InstructionDidNotSerialize) (try_to_vec ix));
  let data := sighash SIGHASH_GLOBAL_NAMESPACE name ++ ix_data in
  let accounts := CpiContext.to_account_metas ctx None in
  let acc_infos := CpiContext.to_account_infos ctx in
  invoke_program (mkInstruction program_id accounts data) acc_infos (ctx_signer_seeds ctx).

Definition cpi_state_method (program_id : Pubkey) (name : string) (ctx : CpiStateContext A) (ix : Args) : AM unit :=
  data ← run_result (state_data try_to_vec name ix);
  let accounts := CpiStateContext.to_account_metas ctx None in
  let acc_infos := CpiStateContext.to_account_infos ctx in
  invoke_program (mkInstruction program_id accounts data) acc_infos (CpiStateContext.signer_seeds ctx).

(** Any program that implements the interface.  Its account is passed twice. *)
Definition interface_method (trait_name name : string) (ctx : CpiContext A) (ix : Args) : AM unit :=
  ix_data ← run_result (ok_or (Error_from_code InstructionDidNotSerialize) (try_to_vec ix));
  let data := sighash trait_name name ++ ix_data in
  let accounts := CpiContext.to_account_metas ctx None in
  let acc_infos := CpiContext.to_account_infos ctx ++ [ctx_program ctx] in
  invoke_program (mkInstruction (key (ctx_program ctx)) accounts data) acc_infos (ctx_signer_seeds ctx).

End cpi.

(** ** Lists of accounts *)

Section metas.
Context `{Syn}.

(** A field of the generated structs: the account, or a struct with a list of its own *)
Inductive ClientField (A : Type) : Type :=
| ClientAccount (f : Field) (account : A)
| ClientComposite (name : string) (metas : list AccountMeta) (infos : list AccountInfo).
Arguments ClientAccount {A}.
Arguments ClientComposite {A}.

Definition client_is_signer (f : Field) : bool :=
  if decide (ty f = TySigner) then true else AnchorConstraints.is_signer (constraints f).

Definition client_meta (f : Field) (pubkey : Pubkey) : AccountMeta :=
  (if is_mutable (constraints f) then meta_new else meta_new_readonly) pubkey (client_is_signer f).

(** For clients the accounts are keys, for other programs they are handles. *)
Definition client_to_account_metas {A} (account_key : A → Pubkey) (fields : list (ClientField A)) : list AccountMeta :=
  fields ≫= λ field,
    match field with
    | ClientComposite _ metas _ => metas
    | ClientAccount f account => [client_meta f (account_key account)]
    end.

Definition client_to_account_infos (fields : list (ClientField AccountInfo)) : list AccountInfo :=
  fields ≫= λ field,
    match field with
    | ClientComposite _ _ infos => infos
    | ClientAccount _ account => [account]
    end.

(** The struct itself: a field lists its own accounts, and signs if the constraint says
    so. *)
Record AccountsField : Type := mkAccountsField {
  af_field : AccountField;
  af_metas : option bool → list AccountMeta;
  af_infos : list AccountInfo;
}.

Definition accounts_to_account_metas (fields : list AccountsField) : list AccountMeta :=
  fields ≫= λ field,
    af_metas field
      match af_field field with
      | CompositeField _ => None
      | FieldOf f => meta_is_signer f
      end.

Definition accounts_to_account_infos (fields : list AccountsField) : list AccountInfo := fields ≫= af_infos.

End metas.
Arguments ClientAccount {_ _}.
Arguments ClientComposite {_ _}.

(** ** [cluster.rs] *)

Inductive Cluster : Type :=
| Testnet
| Mainnet
| Devnet
| Localnet
| Debug
| CustomCluster (url ws_url : string).

(** The crate [url], with addresses as it holds them *)
Class UrlSdk : Type := {
  Url : Type;
  url_parse : string → option Url;
  url_port : Url → option Z;
  url_set_port : Url → Z → option Url;
  url_scheme : Url → string;
  url_set_scheme : Url → string → option Url;
  url_to_string : Url → string;
}.

Definition to_lower (a : ascii) : ascii :=
  let n := nat_of_ascii a in if (65 <=? n)%nat && (n <=? 90)%nat then ascii_of_nat (n + 32) else a.

Fixpoint to_lowercase (s : string) : string :=
  match s with EmptyString => EmptyString | String a s => String (to_lower a) (to_lowercase s) end.

Module Cluster.

Definition default : Cluster := Localnet.

(** [None] of the crate stands for an error, whose text is left out; the sum is a
    [u16]. *)
Definition next_port `{UrlSdk} (ws_url : Url) : result unit Url :=
  match url_port ws_url with
  | Some port =>
      next ← (match checked_add 16 port 1 with Some next => mret next | None => Panic end);
      ok_or tt (url_set_port ws_url next)
  | None => mret ws_url
  end.

(** The address for subscriptions has the next port. *)
Definition custom `{UrlSdk} (http_url : string) : result unit Cluster :=
  ws_url ← ok_or tt (url_parse http_url);
  ws_url ← next_port ws_url;
  ws_url ← ok_or tt (url_set_scheme ws_url (if String.eqb (url_scheme ws_url) "https" then "wss" else "ws"));
  mret (CustomCluster http_url (url_to_string ws_url)).

Definition from_str `{UrlSdk} (s : string) : result unit Cluster :=
  let lower := to_lowercase s in
  let one_of (names : list string) := existsb (String.eqb lower) names in
  if one_of ["t"; "testnet"] then mret Testnet
  else if one_of ["m"; "mainnet"] then mret Mainnet
  else if one_of ["d"; "devnet"] then mret Devnet
  else if one_of ["l"; "localnet"] then mret Localnet
  else if one_of ["g"; "debug"] then mret Debug
  else if String.prefix "http" s then custom s
  else Err tt.

Definition to_string (self : Cluster) : string :=
  match self with
  | Testnet => "testnet"
  | Mainnet => "mainnet"
  | Devnet => "devnet"
  | Localnet => "localnet"
  | Debug => "debug"
  | CustomCluster url _ => url
  end.

Definition url (self : Cluster) : string :=
  match self with
  | Devnet => "https://api.devnet.solana.com"
  | Testnet => "https://api.testnet.solana.com"
  | Mainnet => "https://api.mainnet-beta.solana.com"
  | Localnet => "http://127.0.0.1:8899"
  | Debug => "http://34.90.18.145:8899"
  | CustomCluster url _ => url
  end.

Definition ws_url (self : Cluster) : string :=
  match self with
  | Devnet => "wss://api.devnet.solana.com"
  | Testnet => "wss://api.testnet.solana.com"
  | Mainnet => "wss://api.mainnet-beta.solana.com"
  | Localnet => "ws://127.0.0.1:9000"
  | Debug => "ws://34.90.18.145:9000"
  | CustomCluster _ ws_url => ws_url
  end.

(** What is printed is read again; a custom cluster whose address is parsed keeps it. *)
Lemma from_str_to_string `{UrlSdk} self :
  match self with CustomCluster _ _ => True | _ => from_str (to_string self) = Ok self end.
Proof. by destruct self. Qed.

End Cluster.

(** ** The client *)

Inductive RpcFilter : Type :=
| DataSize (n : Z)
| Memcmp (offset : Z) (bytes : list Z).

(** The node, and what the client uses of [solana_sdk].  A list of transactions is not
    needed: a request sends one. *)
Class ClientRpc : Type := {
  Commitment : Type;
  commitment_default : Commitment;
  commitment_processed : Commitment;
  Transaction : Type;
  Signature : Type;
  SendConfig : Type;
  get_account_with_commitment : string → Commitment → Pubkey → Commitment → result ClientError (option (list Z));
  get_program_accounts : string → Commitment → Pubkey → list RpcFilter → result ClientError (list (Pubkey * list Z));
  get_latest_blockhash : string → Commitment → result ClientError Z;
  new_signed_with_payer : list Instruction → Pubkey → list Pubkey → Z → option Transaction;
  send_and_confirm_transaction : string → Commitment → Transaction → result ClientError Signature;
  send_with_spinner : string → Commitment → Transaction → SendConfig → result ClientError Signature;
}.

Inductive RequestNamespace : Type :=
| Global
| StateNamespace (new : bool)
| Interface.

#[export] Instance RequestNamespace_eq_dec : EqDecision RequestNamespace.
Proof. solve_decision. Defined.

Section client.
Context `{Hasher} `{AnchorSdk} `{ClientRpc}.

(** Signers are named by their keys. *)
Record Config : Type := mkConfig {
  cfg_cluster : Cluster;
  cfg_payer : Pubkey;
  cfg_options : option Commitment;
}.

Record ClientProgram : Type := mkClientProgram {
  cp_program_id : Pubkey;
  cp_cfg : Config;
}.

Record RequestBuilder : Type := mkRequestBuilder {
  rb_cluster : string;
  rb_program_id : Pubkey;
  rb_accounts : list AccountMeta;
  rb_options : Commitment;
  rb_instructions : list Instruction;
  rb_payer : Pubkey;
  rb_instruction_data : option (list Z);
  rb_signers : list Pubkey;
  rb_namespace : RequestNamespace;
}.

End client.

Module AnchorClient.
Section client.
Context `{ClientRpc}.

Definition new (cluster : Cluster) (payer : Pubkey) : Config := mkConfig cluster payer None.

Definition new_with_options (cluster : Cluster) (payer : Pubkey) (options : Commitment) : Config :=
  mkConfig cluster payer (Some options).

Definition program (self : Config) (program_id : Pubkey) : ClientProgram := mkClientProgram program_id self.

End client.
End AnchorClient.

Module RequestBuilder.
Section builder.
Context `{AnchorSdk} `{ClientRpc}.
Implicit Types (self : RequestBuilder).

Definition from (program_id : Pubkey) (cluster : string) (payer : Pubkey) (options : option Commitment)
    (namespace : RequestNamespace) : RequestBuilder :=
  mkRequestBuilder cluster program_id [] (default commitment_default options) [] payer None [] namespace.

Definition payer self (payer : Pubkey) : RequestBuilder :=
  mkRequestBuilder (rb_cluster self) (rb_program_id self) (rb_accounts self) (rb_options self)
    (rb_instructions self) payer (rb_instruction_data self) (rb_signers self) (rb_namespace self).

Definition cluster self (url : string) : RequestBuilder :=
  mkRequestBuilder url (rb_program_id self) (rb_accounts self) (rb_options self)
    (rb_instructions self) (rb_payer self) (rb_instruction_data self) (rb_signers self) (rb_namespace self).

Definition instruction self (ix : Instruction) : RequestBuilder :=
  mkRequestBuilder (rb_cluster self) (rb_program_id self) (rb_accounts self) (rb_options self)
    (rb_instructions self ++ [ix]) (rb_payer self) (rb_instruction_data self) (rb_signers self) (rb_namespace self).

Definition program self (program_id : Pubkey) : RequestBuilder :=
  mkRequestBuilder (rb_cluster self) program_id (rb_accounts self) (rb_options self)
    (rb_instructions self) (rb_payer self) (rb_instruction_data self) (rb_signers self) (rb_namespace self).

(** The argument is the list that the struct of accounts gives. *)
Definition accounts self (metas : list AccountMeta) : RequestBuilder :=
  mkRequestBuilder (rb_cluster self) (rb_program_id self) (rb_accounts self ++ metas) (rb_options self)
    (rb_instructions self) (rb_payer self) (rb_instruction_data self) (rb_signers self) (rb_namespace self).

Definition options self (options : Commitment) : RequestBuilder :=
  mkRequestBuilder (rb_cluster self) (rb_program_id self) (rb_accounts self) options
    (rb_instructions self) (rb_payer self) (rb_instruction_data self) (rb_signers self) (rb_namespace self).

Definition args self (data : list Z) : RequestBuilder :=
  mkRequestBuilder (rb_cluster self) (rb_program_id self) (rb_accounts self) (rb_options self)
    (rb_instructions self) (rb_payer self) (Some data) (rb_signers self) (rb_namespace self).

(** Of the constructor of the state; the namespace is asserted. *)
Definition new self (data : list Z) : result ClientError RequestBuilder :=
  if decide (rb_namespace self = StateNamespace false) then
    mret (mkRequestBuilder (rb_cluster self) (rb_program_id self) (rb_accounts self) (rb_options self)
            (rb_instructions self) (rb_payer self) (Some data) (rb_signers self) (StateNamespace true))
  else Panic.

Definition signer self (signer : Pubkey) : RequestBuilder :=
  mkRequestBuilder (rb_cluster self) (rb_program_id self) (rb_accounts self) (rb_options self)
    (rb_instructions self) (rb_payer self) (rb_instruction_data self) (rb_signers self ++ [signer]) (rb_namespace self).

(** The accounts that a method of the state, or its constructor, takes before those of
    the user.  The address of the state is unwrapped. *)
Definition namespace_accounts self : result ClientError (list AccountMeta) :=
  match rb_namespace self with
  | StateNamespace new =>
      state ← unwrap (ProgramState.address (rb_program_id self));
      if (new : bool) then
        mret [meta_new_readonly (rb_payer self) true;
              meta_new state false;
              meta_new_readonly (fst (pubkey_find_program_address [] (rb_program_id self))) false;
              meta_new_readonly system_program_id false;
              meta_new_readonly (rb_program_id self) false]
      else mret [meta_new state false]
  | _ => mret []
  end.

Definition instructions self : result ClientError (list Instruction) :=
  implicit ← namespace_accounts self;
  let accounts := implicit ++ rb_accounts self in
  match rb_instruction_data self with
  | Some ix_data => mret (rb_instructions self ++ [mkInstruction (rb_program_id self) accounts ix_data])
  | None => mret (rb_instructions self)
  end.

(** The transaction, signed by the payer last; a signature that is missing is a panic. *)
Definition signed_transaction self : result ClientError Transaction :=
  instructions ← instructions self;
  let signers := rb_signers self ++ [rb_payer self] in
  latest_hash ← get_latest_blockhash (rb_cluster self) (rb_options self);
  unwrap (new_signed_with_payer instructions (rb_payer self) signers latest_hash).

Definition send self : result ClientError Signature :=
  tx ← signed_transaction self;
  send_and_confirm_transaction (rb_cluster self) (rb_options self) tx.

Definition send_with_spinner_and_config self (config : SendConfig) : result ClientError Signature :=
  tx ← signed_transaction self;
  send_with_spinner (rb_cluster self) (rb_options self) tx config.

End builder.
End RequestBuilder.

Module ClientProgram.
Section program.
Context `{AnchorSdk} `{ClientRpc}.
Implicit Types (self : ClientProgram).

Definition payer self : Pubkey := cfg_payer (cp_cfg self).
Definition id self : Pubkey := cp_program_id self.

Definition request self : RequestBuilder :=
  RequestBuilder.from (cp_program_id self) (Cluster.url (cfg_cluster (cp_cfg self))) (cfg_payer (cp_cfg self))
    (cfg_options (cp_cfg self)) Global.

Definition state_request self : RequestBuilder :=
  RequestBuilder.from (cp_program_id self) (Cluster.url (cfg_cluster (cp_cfg self))) (cfg_payer (cp_cfg self))
    (cfg_options (cp_cfg self)) (StateNamespace false).

(** The connection: the address and the level of confirmation *)
Definition rpc self : string * Commitment :=
  (Cluster.url (cfg_cluster (cp_cfg self)), default commitment_default (cfg_options (cp_cfg self))).

Definition anchor_error {A} (m : result Error A) : result ClientError A := Prelude.map_err CE_AnchorError m.

Definition account {T} `{AccountDeserialize T} self (address : Pubkey) : result ClientError T :=
  answer ← get_account_with_commitment (fst (rpc self)) (snd (rpc self)) address commitment_processed;
  data ← ok_or AccountNotFound answer;
  anchor_error (try_deserialize data).

Definition decode_account {T} `{AccountDeserialize T} (item : Pubkey * list Z) : result ClientError (Pubkey * T) :=
  value ← anchor_error (try_deserialize (snd item));
  mret (fst item, value).

(** The accounts of the type, by its discriminator, that match the filters, still to be
    decoded *)
Definition accounts_lazy {T} `{Discriminator T} `{AccountDeserialize T} self (filters : list RpcFilter) :
    result ClientError (list (result ClientError (Pubkey * T))) :=
  fmap (M := result ClientError) (λ found, decode_account <$> found)
    (get_program_accounts (fst (rpc self)) (snd (rpc self)) (id self) (Memcmp 0 (discriminator (T := T)) :: filters)).

(** [collect]: up to the first error *)
Fixpoint collect {A} (items : list (result ClientError A)) : result ClientError (list A) :=
  match items with
  | [] => mret []
  | item :: items => a ← item; rest ← collect items; mret (a :: rest)
  end.

Definition accounts {T} `{Discriminator T} `{AccountDeserialize T} self (filters : list RpcFilter) :
    result ClientError (list (Pubkey * T)) :=
  items ← accounts_lazy self filters;
  collect items.

Definition state {T} `{AccountDeserialize T} self : result ClientError T :=
  address ← unwrap (ProgramState.address (cp_program_id self));
  account self address.

(** Either every account that the node lists is decoded, in its order, or there is an
    error. *)
Lemma collect_Ok {A} (items : list (result ClientError A)) l : collect items = Ok l ↔ items = Ok <$> l.
Proof.
  revert l. induction items as [|item items IH]; intros l; cbn [collect].
  - destruct l; [done|]. split; [intros [=]|done].
  - rewrite bind_Ok. split.
    + intros (a & -> & (rest & E & [= <-])%bind_Ok). by apply IH in E as ->.
    + destruct l as [|a l]; [done|]. rewrite fmap_cons. intros [= -> E]. exists a. split; [done|].
      apply bind_Ok. exists l. by rewrite IH.
Qed.

Lemma accounts_Ok {T} `{Discriminator T} `{AccountDeserialize T} self filters l :
  accounts self filters = Ok l ↔
  ∃ found, get_program_accounts (fst (rpc self)) (snd (rpc self)) (id self) (Memcmp 0 (discriminator (T := T)) :: filters) = Ok found ∧
    (@decode_account T _ <$> found) = Ok <$> l.
Proof.
  unfold accounts, accounts_lazy. rewrite bind_Ok. setoid_rewrite collect_Ok. split.
  - intros (items & E & ->). apply fmap_Ok in E as (found & E & Ef). eauto.
  - intros (found & E & Ef). exists (Ok <$> l). split; [|done]. apply fmap_Ok. eauto.
Qed.

End program.
End ClientProgram.

(** ** What a request brings *)

(** A method of a program, and what a client does to call it *)
Inductive Callable : Type :=
| GlobalMethod (name : string)
| StateMethod (name : string)
| Constructor.

(** The handles that the runtime makes of the list of an instruction; more privileges
    may come from other instructions of the transaction. *)
Definition passed (metas : list AccountMeta) (infos : list AccountInfo) : Prop :=
  Forall2 (λ m i, key i = pubkey m ∧ (Solana.meta_is_signer m = true → Solana.is_signer i = true) ∧
                  (meta_is_writable m = true → is_writable i = true)) metas infos.

Section callers.
Context `{Hasher} `{IdlSdk} `{AnchorSdk} `{Cpi} `{ClientRpc} {Args : Type} (try_to_vec : Args → option (list Z)).
Implicit Types (program : Program) (m : Callable).

Definition send_request (self : ClientProgram) m (metas : list AccountMeta) (ix : Args) : result ClientError (list Instruction) :=
  match m with
  | GlobalMethod name =>
      data ← global_data try_to_vec name ix;
      RequestBuilder.instructions (RequestBuilder.args (RequestBuilder.accounts (ClientProgram.request self) metas) data)
  | StateMethod name =>
      data ← state_data try_to_vec name ix;
      RequestBuilder.instructions (RequestBuilder.args (RequestBuilder.accounts (ClientProgram.state_request self) metas) data)
  | Constructor =>
      data ← ctor_data try_to_vec ix;
      request ← RequestBuilder.new (RequestBuilder.accounts (ClientProgram.state_request self) metas) data;
      RequestBuilder.instructions request
  end.

Definition callable_tag m : list Z :=
  match m with
  | GlobalMethod name => sighash SIGHASH_GLOBAL_NAMESPACE name
  | StateMethod name => sighash SIGHASH_STATE_NAMESPACE name
  | Constructor => sighash_ctor
  end.

(** The program has the method, with its handler. *)
Definition declares program m (h : Handler) : Prop :=
  match m with
  | GlobalMethod name => (name, h) ∈ pg_ixs program
  | StateMethod name => ∃ st, pg_state program = Some st ∧ (name, h) ∈ ps_methods st
  | Constructor => ∃ st, pg_state program = Some st ∧ ps_ctor st = Some h
  end.

Lemma declared_arm program m h : declares program m h → (callable_tag m, h) ∈ dispatch_arms program.
Proof.
  unfold dispatch_arms. destruct m as [name|name|]; cbn [declares callable_tag].
  - intros Hin. unfold global_dispatch_arms. rewrite !elem_of_app. do 3 right.
    apply list_elem_of_fmap. by exists (name, h).
  - intros (st & Est & Hin). unfold state_dispatch_arms. rewrite !elem_of_app, Est. right. left.
    apply list_elem_of_fmap. by exists (name, h).
  - intros (st & Est & Eh). unfold ctor_state_dispatch_arm. rewrite !elem_of_app, Est, Eh. left. cbn. set_solver.
Qed.

(** The accounts of the user are behind those that the handler takes first: the state at
    its address, writable; or those of its creation, paid for by the payer, who signed. *)
Definition brings (program_id payer : Pubkey) m (infos rest : list AccountInfo) : Prop :=
  match m with
  | GlobalMethod _ => infos = rest
  | StateMethod _ =>
      ∃ state, infos = state :: rest ∧ ProgramState.address program_id = Some (key state) ∧ is_writable state = true
  | Constructor =>
      ∃ ctor, (∀ c, Ctor.try_accounts infos c = Ok ((ctor, rest), c)) ∧ key (ct_from ctor) = payer ∧
        ProgramState.address program_id = Some (key (ct_to ctor)) ∧
        key (ct_base ctor) = fst (pubkey_find_program_address [] program_id) ∧
        key (ct_system_program ctor) = system_program_id ∧ key (ct_program ctor) = program_id
  end.

(** The list before that of the user *)
Definition implicit_metas (program_id payer : Pubkey) m : result ClientError (list AccountMeta) :=
  match m with
  | GlobalMethod _ => mret []
  | StateMethod _ => state ← unwrap (ProgramState.address program_id); mret [meta_new state false]
  | Constructor =>
      state ← unwrap (ProgramState.address program_id);
      mret [meta_new_readonly payer true; meta_new state false;
            meta_new_readonly (fst (pubkey_find_program_address [] program_id)) false;
            meta_new_readonly system_program_id false; meta_new_readonly program_id false]
  end.

Lemma send_request_eq self m metas ix bytes :
  try_to_vec ix = Some bytes →
  send_request self m metas ix =
    implicit ← implicit_metas (cp_program_id self) (ClientProgram.payer self) m;
    mret [mkInstruction (cp_program_id self) (implicit ++ metas) (callable_tag m ++ bytes)].
Proof.
  intros E. destruct m; cbn; unfold global_data, state_data, ctor_data, instruction_data; rewrite E; cbn; [done|..];
    unfold RequestBuilder.new; try (rewrite decide_True by done); unfold RequestBuilder.instructions, RequestBuilder.namespace_accounts;
    cbn; by destruct (ProgramState.address _).
Qed.

Lemma implicit_brings program_id payer m implicit metas infos :
  implicit_metas program_id payer m = Ok implicit → passed (implicit ++ metas) infos →
  ∃ rest, passed metas rest ∧ brings program_id payer m infos rest.
Proof.
  intros Hi (taken & rest & Ht & Hr & ->)%Forall2_app_inv_l. exists rest. split; [done|]. revert Hi Ht.
  destruct m; cbn [implicit_metas brings]; [by intros [= <-] ->%Forall2_nil_inv_l|..];
    (destruct (ProgramState.address program_id) as [state|]; [|done]); intros [= <-] Ht; decompose_Forall_hyps.
  - match goal with |- ∃ s, ?i :: _ = s :: _ ∧ _ => exists i end. naive_solver.
  - match goal with
    | |- ∃ ctor, (∀ c, Ctor.try_accounts (?from :: ?to :: ?base :: ?system :: ?prog :: _) c = _) ∧ _ =>
        exists (mkCtor from to base system prog)
    end.
    cbn in *. destruct_and?. split_and!; [|congruence..]. intros c.
    unfold Ctor.try_accounts, in_field, check_field, require_that, take_account.
    unfold AnchorChecks.map_err, mbind, AM_bind, mret, AM_ret. cbn.
    repeat match goal with H : true = true → _ |- _ => rewrite (H eq_refl) end. done.
Qed.

(** C35: A request that a client builds for a method, a method of the state or the
    constructor of the state is one instruction, for the program, with the accounts that the
    user gave.  Whatever handles the runtime passes for it, the program runs exactly the
    handler of this method, on the encoded arguments; and the handles begin with what the
    handler takes before the accounts of the user: the writable state at its address, or the
    accounts of its creation, with the payer as a signer, for which the generated checks
    succeed. *)
Theorem requests_reach_their_methods program (self : ClientProgram) m h metas ix bytes implicit :
  cp_program_id self = pg_id program → NoDup (fst <$> dispatch_arms program) → declares program m h →
  length (callable_tag m) = 8%nat → pg_no_idl program = true ∨ callable_tag m ≠ le_bytes 8 IDL_IX_TAG →
  try_to_vec ix = Some bytes → implicit_metas (pg_id program) (ClientProgram.payer self) m = Ok implicit →
  ∃ instruction, send_request self m metas ix = Ok [instruction] ∧ ix_program_id instruction = pg_id program ∧
    ∀ infos, passed (ix_accounts instruction) infos →
      (∃ rest, passed metas rest ∧ brings (pg_id program) (ClientProgram.payer self) m infos rest) ∧
      ∀ c, try_entry program (ix_program_id instruction) infos (ix_data instruction) c = h (pg_id program) infos bytes c.
Proof.
  intros Hid Hnd Hm Hl Hidl Hv Hi. rewrite (send_request_eq self m metas ix bytes Hv), Hid, Hi.
  eexists. split; [done|]. split; [done|]. intros infos Hp. split; [by eapply implicit_brings|].
  intros c. apply method_is_dispatched; try done. by apply declared_arm.
Qed.

End callers.

(** *** Calls from other programs *)

Section cpi_facts.
Context `{Hasher} `{CallSdk} {A Args : Type} `{ToAccountMetas A} `{ToAccountInfos A}.
Context (try_to_vec : Args → option (list Z)).

(** They carry the same data as a request for the method. *)
Lemma cpi_method_eq program_id name (ctx : CpiContext A) ix bytes :
  try_to_vec ix = Some bytes →
  cpi_method try_to_vec program_id name ctx ix =
    invoke_program (mkInstruction program_id (CpiContext.to_account_metas ctx None) (callable_tag (GlobalMethod name) ++ bytes))
      (CpiContext.to_account_infos ctx) (ctx_signer_seeds ctx).
Proof. intros E. unfold cpi_method. by rewrite E. Qed.

Lemma cpi_state_method_eq program_id name (ctx : CpiStateContext A) ix bytes :
  try_to_vec ix = Some bytes →
  cpi_state_method try_to_vec program_id name ctx ix =
    invoke_program (mkInstruction program_id (CpiStateContext.to_account_metas ctx None) (callable_tag (StateMethod name) ++ bytes))
      (CpiStateContext.to_account_infos ctx) (CpiStateContext.signer_seeds ctx).
Proof. intros E. unfold cpi_state_method, state_data, instruction_data. by rewrite E. Qed.

End cpi_facts.

(** *** The lists of accounts ask for what the checks demand. *)

Section metas_facts.
Context `{Scope}.

Lemma client_meta_passes f info c :
  passed [client_meta f (key info)] [info] → field_info f = info →
  (∀ e, cg_mutable (constraints f) = Some e → generate_constraint_mut f e c = Ok (tt, c)) ∧
  (∀ e, cg_signer (constraints f) = Some e → generate_constraint_signer f e c = Ok (tt, c)) ∧
  (ty f = TySigner → Signer.try_from info c = Ok (info, c)).
Proof.
  intros Hp Hf. apply Forall2_cons_1 in Hp as [(_ & Hs & Hw) _]. unfold client_meta, client_is_signer in *.
  split_and!.
  - intros e E. unfold is_mutable in Hw. rewrite E in Hw. unfold generate_constraint_mut. by rewrite Hf, Hw.
  - intros e E. unfold generate_constraint_signer. rewrite Hf, Hs; [done|].
    unfold AnchorConstraints.is_signer. rewrite E. by destruct (is_mutable _), (decide _).
  - intros E. rewrite decide_True in Hs by done. unfold Signer.try_from. rewrite Hs; [done|]. by destruct (is_mutable _).
Qed.

End metas_facts.

(** ** A program with a state *)

#[local] Existing Instances AnchorProgram.test_hasher AnchorIdl.idl_test_sdk AnchorInit.test_cpi.

#[local] Instance client_test_sdk : AnchorSdk := {|
  bpf_loader_upgradeable_id := 2;
  bincode_loader_state _ := None;
  pubkey_find_program_address _ program_id := (program_id + 100, 255);
  pubkey_create_with_seed base _ _ := Some (base + 1000);
|}.

(** A node that does not answer *)
#[local] Instance no_node : ClientRpc := {|
  Commitment := unit;
  commitment_default := tt;
  commitment_processed := tt;
  Transaction := list Instruction;
  Signature := unit;
  SendConfig := unit;
  get_account_with_commitment _ _ _ _ := Err AccountNotFound;
  get_program_accounts _ _ _ _ := Ok [];
  get_latest_blockhash _ _ := Err (CE_SolanaClientError "unreachable");
  new_signed_with_payer instructions _ _ _ := Some instructions;
  send_and_confirm_transaction _ _ _ := Ok tt;
  send_with_spinner _ _ _ _ := Ok tt;
|}.

(** A handler that returns its arguments *)
Definition echo (tag : Z) : Handler := λ _ _ args, mret (Some (tag :: args)).

Definition counter_program : Program := {|
  pg_id := 7;
  pg_no_idl := true;
  pg_fallback := None;
  pg_state := Some (mkState (Some (echo 0)) [("bump", echo 1)] []);
  pg_ixs := [("show", echo 2)];
|}.

Definition counter_client : ClientProgram := AnchorClient.program (AnchorClient.new Localnet 50) 7.

Lemma requests_reach_their_methods_witness :
  let to_vec (n : Z) := Some [n] in
  let user := mkAccountInfo 60 false true in
  let infos := [mkAccountInfo 50 true true; mkAccountInfo 1107 false true; mkAccountInfo 107 false false;
                mkAccountInfo 0 false false; mkAccountInfo 7 false false; user] in
  ∃ instruction, send_request to_vec counter_client Constructor [meta_new 60 false] 5 = Ok [instruction] ∧
    (∃ rest, passed [meta_new 60 false] rest ∧ brings 7 50 Constructor infos rest) ∧
    ∀ c, try_entry counter_program 7 infos (ix_data instruction) c = Ok (Some [0; 5], c).
Proof.
  intros to_vec user infos.
  destruct (requests_reach_their_methods to_vec counter_program counter_client Constructor (echo 0) [meta_new 60 false] 5 [5] _
              ltac:(reflexivity) ltac:(apply (bool_decide_unpack _); by vm_compute) ltac:(eexists; split; reflexivity)
              ltac:(reflexivity) ltac:(by left) ltac:(reflexivity) ltac:(reflexivity)) as (i & Hi & Hid & Hrun).
  exists i. split; [exact Hi|]. vm_compute in Hi. injection Hi as <-.
  apply Hrun. vm_compute. repeat (apply Forall2_cons_2; [done|]). by apply Forall2_nil_2.
Defined.
