(* ===== verification/Pledges.v ===== *)
(** * What obligations have pledged

    The collateral tokens of a reserve that all obligations together have on
    deposit: a sum over every account of the store.  Writing one account changes
    it by what that account's obligation gained, and nothing that leaves the
    program's records alone changes it. *)

From S2P Require Import Prelude Errors FixedPoint StateBase LendingMarket Reserve.
From S2P Require Import ReserveFacts Obligation ObligationFacts Codec CodecFacts Solana Oracle.
From S2P Require Import ProcessorBase ProcessorFacts ProcessorInvariant ProcessorReserve.
From S2P Require Import RefreshFacts HandlerFacts.

(** ** Sums over sets *)

Definition sum_over (f : Pubkey → Z) (X : gset Pubkey) : Z := sum_Z (f <$> elements X).

#[export] Instance sum_Z_Permutation : Proper (Permutation ==> eq) sum_Z.
Proof. intros l l' Hl. induction Hl; rewrite ?sum_Z_cons; lia. Qed.

Lemma sum_over_ext f g X : (∀ k, f k = g k) → sum_over f X = sum_over g X.
Proof. intros H. unfold sum_over. f_equal. by apply list_fmap_ext. Qed.

Lemma sum_over_union f X Y : X ## Y → sum_over f (X ∪ Y) = sum_over f X + sum_over f Y.
Proof.
  intros H. unfold sum_over. by rewrite (elements_disj_union X Y H), fmap_app, sum_Z_app.
Qed.

Lemma sum_over_singleton f k : sum_over f {[k]} = f k.
Proof. unfold sum_over. rewrite elements_singleton. cbn. lia. Qed.

Lemma sum_over_zero f X : (∀ k, k ∈ X → f k = 0) → sum_over f X = 0.
Proof.
  intros H. unfold sum_over. assert (Hl : Forall (λ k, f k = 0) (elements X)).
  { apply Forall_forall. intros k Hk. apply H. by apply elem_of_elements. }
  induction Hl as [|k l E _ IH]; [done|]. cbn [fmap list_fmap]. rewrite sum_Z_cons. lia.
Qed.

(** Keys that contribute nothing may be added. *)
Lemma sum_over_subseteq f X Y :
  X ⊆ Y → (∀ k, k ∈ Y → k ∉ X → f k = 0) → sum_over f Y = sum_over f X.
Proof.
  intros Hs Hz. rewrite (union_difference_L X Y Hs), sum_over_union by set_solver.
  rewrite (sum_over_zero f (Y ∖ X)); [lia|]. set_solver.
Qed.

(** A change at one key *)
Lemma sum_over_change f g X k :
  k ∈ X → (∀ k', k' ≠ k → g k' = f k') → sum_over g X = sum_over f X + (g k - f k).
Proof.
  intros Hk He. assert (E : X = {[k]} ∪ X ∖ {[k]}) by (apply union_difference_singleton_L, Hk).
  rewrite E, !sum_over_union, !sum_over_singleton by set_solver.
  enough (sum_over g (X ∖ {[k]}) = sum_over f (X ∖ {[k]})) by lia.
  unfold sum_over. f_equal. apply list_fmap_ext. intros i x Hx%list_elem_of_lookup_2.
  apply He. apply elem_of_elements in Hx. set_solver.
Qed.

Lemma sum_over_nonneg f X : (∀ k, 0 ≤ f k) → 0 ≤ sum_over f X.
Proof. intros H. apply sum_Z_nonneg, Forall_fmap, Forall_true. intros k. apply H. Qed.

Lemma sum_over_elem f X k : (∀ k', 0 ≤ f k') → k ∈ X → f k ≤ sum_over f X.
Proof.
  intros Hf Hk. rewrite (union_difference_singleton_L k X Hk), sum_over_union, sum_over_singleton by set_solver.
  pose proof (sum_over_nonneg f (X ∖ {[k]}) Hf). lia.
Qed.

Section pledges.
Context `{S : Sdk} (program_id : Pubkey) `{L : !SdkLaws program_id}.
Implicit Types (w : World) (k rk : Pubkey) (info : AccountInfo).

(** ** The record at an address *)

Definition record_at (T : Type) `{Pack T} `{IsInitialized T} w k : option T :=
  let a := account_of w k in
  if decide (owner a = program_id) then
    if decide (length (data a) = LEN T) then
      match unpack_from_slice (data a) with
      | Ok r => if is_initialized r then Some r else None
      | _ => None
      end
    else None
  else None.

Lemma record_at_Some T `{Pack T} `{IsInitialized T} w k (a : T) :
  record_at T w k = Some a ↔ holds program_id T w k a.
Proof.
  unfold record_at, holds, owned, stored. cbv zeta. split.
  - repeat case_decide; try done. destruct (unpack_from_slice _) as [r| |]; try done.
    destruct (is_initialized r) eqn:E; [|done]. by intros [= ->].
  - intros (Ho & Hl & Hu & Hi). by rewrite (decide_True _ _ Ho), (decide_True _ _ Hl), Hu, Hi.
Qed.

Lemma record_at_iff T `{Pack T} `{IsInitialized T} w w' k :
  (∀ a : T, holds program_id T w' k a ↔ holds program_id T w k a) →
  record_at T w' k = record_at T w k.
Proof.
  intros Hh. apply option_eq. intros a. by rewrite !record_at_Some.
Qed.

(** ** Pledges *)

Definition pledge (o : Obligation) rk : Z := default 0 (deposits_map o !! rk).

Definition pledge_at w rk k : Z :=
  match record_at Obligation w k with Some o => pledge o rk | None => 0 end.

(** The collateral tokens of reserve [rk] on deposit with all obligations *)
Definition pledged w rk : Z := sum_over (pledge_at w rk) (dom (accounts w)).

Lemma pledge_nonneg o rk : Obligation_ok o → 0 ≤ pledge o rk.
Proof.
  intros Ho. unfold pledge, deposits_map, keyed_map. destruct (_ !! rk) as [n|] eqn:E; [|done]. cbn.
  apply elem_of_list_to_map_2, list_elem_of_fmap in E as (c & [= -> ->] & Hc).
  pose proof (proj1 (Forall_forall _ _) (ok_o_deposits o Ho) c Hc) as Hok.
  destruct (ok_deposited_amount c Hok). lia.
Qed.

Lemma pledge_at_absent w rk k : k ∉ dom (accounts w) → pledge_at w rk k = 0.
Proof.
  intros Hk. unfold pledge_at. destruct (record_at Obligation w k) as [o|] eqn:E; [|done].
  apply record_at_Some in E as [_ (Hl & _)]. unfold account_of in Hl.
  rewrite (proj1 (not_elem_of_dom _ _) Hk) in Hl. discriminate Hl.
Qed.

(** Summing over more keys makes no difference. *)
Lemma pledged_over w rk X : dom (accounts w) ⊆ X → pledged w rk = sum_over (pledge_at w rk) X.
Proof.
  intros Hs. unfold pledged. symmetry. apply sum_over_subseteq; [done|].
  intros k _ Hk. by apply pledge_at_absent.
Qed.

Lemma pledged_change w w' rk k :
  (∀ k', k' ≠ k → pledge_at w' rk k' = pledge_at w rk k') →
  pledged w' rk = pledged w rk + (pledge_at w' rk k - pledge_at w rk k).
Proof.
  intros He. set (X := {[k]} ∪ dom (accounts w) ∪ dom (accounts w')).
  rewrite (pledged_over w rk X), (pledged_over w' rk X) by (unfold X; set_solver).
  apply sum_over_change; [unfold X; set_solver|done].
Qed.

Lemma pledged_same w w' rk :
  (∀ k, pledge_at w' rk k = pledge_at w rk k) → pledged w' rk = pledged w rk.
Proof.
  intros He. rewrite (pledged_change w w' rk 0) by done. rewrite He. lia.
Qed.

Lemma pledge_at_nonneg w rk k : World_ok program_id w → 0 ≤ pledge_at w rk k.
Proof.
  intros Hw. unfold pledge_at. destruct (record_at Obligation w k) as [o|] eqn:E; [|done].
  apply record_at_Some in E. apply pledge_nonneg. by eapply holds_obligation_ok.
Qed.

Lemma pledged_nonneg w rk : World_ok program_id w → 0 ≤ pledged w rk.
Proof. intros Hw. apply sum_over_nonneg. intros k. by apply pledge_at_nonneg. Qed.

(** Each obligation's deposit is part of the sum. *)
Lemma pledge_le_pledged w rk k o :
  World_ok program_id w → holds program_id Obligation w k o → pledge o rk ≤ pledged w rk.
Proof.
  intros Hw Ho. assert (E : pledge_at w rk k = pledge o rk).
  { unfold pledge_at. by rewrite (proj2 (record_at_Some Obligation w k o) Ho). }
  rewrite <- E. destruct (decide (k ∈ dom (accounts w))) as [Hk|Hk].
  - apply (sum_over_elem (pledge_at w rk)); [|done]. intros. by apply pledge_at_nonneg.
  - rewrite pledge_at_absent by done. by apply pledged_nonneg.
Qed.

(** ** Pledges and the operations of an obligation *)

Lemma pledge_map_add o o' k n rk :
  deposits_map o' = map_add k n (deposits_map o) →
  pledge o' rk = pledge o rk + if decide (rk = k) then n else 0.
Proof.
  unfold pledge, map_add. intros ->. case_decide as E; [subst; by rewrite lookup_insert_eq|].
  rewrite lookup_insert_ne by done. lia.
Qed.

Lemma pledge_map_take o o' k n rk :
  deposits_map o' = map_take k n (deposits_map o) →
  pledge o' rk = pledge o rk - if decide (rk = k) then n else 0.
Proof.
  unfold pledge, map_take. intros ->. destruct (Z.eqb_spec n (default 0 (deposits_map o !! k))) as [E|E];
    case_decide as Ek; subst.
  - rewrite lookup_delete_eq. cbn. lia.
  - rewrite lookup_delete_ne by done. lia.
  - by rewrite lookup_insert_eq.
  - rewrite lookup_insert_ne by done. lia.
Qed.

(** The reserves that an obligation has deposits of *)
Lemma deposits_dom o k : k ∈ dom (deposits_map o) ↔ ∃ c, c ∈ o_deposits o ∧ deposit_reserve c = k.
Proof.
  unfold deposits_map, keyed_map. rewrite dom_list_to_map_L, elem_of_list_to_set, <- list_fmap_compose.
  rewrite list_elem_of_fmap. unfold compose. cbn. naive_solver.
Qed.

End pledges.
