(* ===== verification/ProcessorLoan.v ===== *)
(** * Processor: loans

    The handlers of [token-lending/program/src/processor.rs] that lend and
    collect: borrow, repay, liquidation with and without redemption, and flash
    loans. *)

From S2P Require Import Prelude Errors FixedPoint StateBase LendingMarket Reserve.
From S2P Require Import Obligation Liquidation Codec Solana Oracle ProcessorBase.
From S2P Require Import ProcessorReserve ProcessorObligation.

(** [Decimal::from(borrow_limit).try_sub(borrowed).unwrap_or_else(zero)] *)
Definition remaining_reserve_capacity (reserve : Reserve) : outcome Decimal :=
  unwrap_or Decimal.zero
    (try_sub (Decimal.from_u64 (borrow_limit (r_config reserve)))
       (rl_borrowed_amount_wads (r_liquidity reserve))).

(** The borrow limit is not checked for a borrow of [u64::MAX]. *)
Definition check_borrow_limit (reserve : Reserve) (liquidity_amount : Z) : outcome unit :=
  if liquidity_amount =? u64_MAX then mret tt
  else
    sum ← try_add (Decimal.from_u64 liquidity_amount) (rl_borrowed_amount_wads (r_liquidity reserve));
    floor ← Decimal.try_floor_u64 sum;
    require (negb (borrow_limit (r_config reserve) <? floor)) InvalidAmount.

Section processor.
Context `{Sdk}.
Implicit Types (program_id : Pubkey) (clock : Clock) (iter : list AccountInfo).

(** The transfers that end a borrow or a flash loan: the host's part of the fee
    if there is a host, the rest to the fee receiver. *)
Definition pay_owner_fee (owner_fee : Z)
    (source_liquidity_info fee_receiver_info lending_market_authority_info : AccountInfo)
    (authority_signer_seeds : Seeds) (token_program_id : AccountInfo) : M unit :=
  if owner_fee >? 0 then
    spl_token_transfer source_liquidity_info fee_receiver_info owner_fee
      lending_market_authority_info authority_signer_seeds token_program_id
  else mret tt.

Definition pay_host_fee (fee host_fee : Z)
    (source_liquidity_info host_fee_receiver_info lending_market_authority_info : AccountInfo)
    (authority_signer_seeds : Seeds) (token_program_id : AccountInfo) : M Z :=
  if host_fee >? 0 then
    owner_fee ← lift (ok_or_overflow (checked_sub fee host_fee));
    spl_token_transfer source_liquidity_info host_fee_receiver_info host_fee
      lending_market_authority_info authority_signer_seeds token_program_id;;
    mret owner_fee
  else mret fee.

Definition process_borrow_obligation_liquidity program_id (liquidity_amount : Z)
    (accounts : list AccountInfo) : M unit :=
  check (negb (liquidity_amount =? 0)) InvalidAmount;;
  '(source_liquidity_info, iter) ← next accounts;
  '(destination_liquidity_info, iter) ← next iter;
  '(borrow_reserve_info, iter) ← next iter;
  '(borrow_reserve_liquidity_fee_receiver_info, iter) ← next iter;
  '(obligation_info, iter) ← next iter;
  '(lending_market_info, iter) ← next iter;
  '(lending_market_authority_info, iter) ← next iter;
  '(obligation_owner_info, iter) ← next iter;
  '(clock_info, iter) ← next iter;
  clock ← clock_of clock_info;
  '(token_program_id, iter) ← next iter;
  lending_market ← load_market program_id lending_market_info token_program_id;
  borrow_reserve ← load Reserve program_id borrow_reserve_info;
  check (r_lending_market borrow_reserve =? key lending_market_info) InvalidAccountInput;;
  check (rl_supply_pubkey (r_liquidity borrow_reserve) =? key source_liquidity_info)
    InvalidAccountInput;;
  check (negb (rl_supply_pubkey (r_liquidity borrow_reserve) =? key destination_liquidity_info))
    InvalidAccountInput;;
  check (fee_receiver (r_config borrow_reserve) =? key borrow_reserve_liquidity_fee_receiver_info)
    InvalidAccountInput;;
  check_fresh (r_last_update borrow_reserve) clock ReserveStale;;
  lift (check_borrow_limit borrow_reserve liquidity_amount);;
  obligation ←
    load_owned_obligation program_id obligation_info lending_market_info obligation_owner_info;
  check_fresh (o_last_update obligation) clock ObligationStale;;
  check (negb (bool_decide (o_deposits obligation = []))) ObligationDepositsEmpty;;
  check (negb (Decimal.eqb (o_deposited_value obligation) Decimal.zero)) ObligationDepositsZero;;
  authority_signer_seeds ←
    check_authority program_id lending_market lending_market_info lending_market_authority_info;
  remaining_borrow_value ← lift (Obligation.remaining_borrow_value obligation);
  check (negb (Decimal.eqb remaining_borrow_value Decimal.zero)) BorrowTooLarge;;
  remaining ← lift (remaining_reserve_capacity borrow_reserve);
  result ←
    lift (Reserve.calculate_borrow borrow_reserve liquidity_amount remaining_borrow_value remaining);
  check (negb (cb_receive_amount result =? 0)) BorrowTooSmall;;
  let cumulative_borrow_rate_wads := rl_cumulative_borrow_rate_wads (r_liquidity borrow_reserve) in
  liquidity ←
    lift (ReserveLiquidity.borrow (r_liquidity borrow_reserve) (cb_borrow_amount result));
  pack (Reserve.mark_stale (Reserve.with_liquidity borrow_reserve liquidity)) borrow_reserve_info;;
  obligation ←
    lift (Obligation.borrow_liquidity obligation (key borrow_reserve_info)
            cumulative_borrow_rate_wads (cb_borrow_amount result));
  pack (Obligation.mark_stale obligation) obligation_info;;
  owner_fee ←
    match next_account_info iter with
    | Ok (host_fee_receiver_info, _) =>
        pay_host_fee (cb_borrow_fee result) (cb_host_fee result) source_liquidity_info
          host_fee_receiver_info lending_market_authority_info authority_signer_seeds
          token_program_id
    | Err _ => mret (cb_borrow_fee result)
    | Panic => lift Panic
    end;
  pay_owner_fee owner_fee source_liquidity_info borrow_reserve_liquidity_fee_receiver_info
    lending_market_authority_info authority_signer_seeds token_program_id;;
  spl_token_transfer source_liquidity_info destination_liquidity_info (cb_receive_amount result)
    lending_market_authority_info authority_signer_seeds token_program_id.

Definition process_repay_obligation_liquidity program_id (liquidity_amount : Z)
    (accounts : list AccountInfo) : M unit :=
  check (negb (liquidity_amount =? 0)) InvalidAmount;;
  '(source_liquidity_info, iter) ← next accounts;
  '(destination_liquidity_info, iter) ← next iter;
  '(repay_reserve_info, iter) ← next iter;
  '(obligation_info, iter) ← next iter;
  '(lending_market_info, iter) ← next iter;
  '(user_transfer_authority_info, iter) ← next iter;
  '(clock_info, iter) ← next iter;
  clock ← clock_of clock_info;
  '(token_program_id, iter) ← next iter;
  load_market program_id lending_market_info token_program_id;;
  _refresh_reserve_interest program_id repay_reserve_info clock;;
  repay_reserve ← load Reserve program_id repay_reserve_info;
  check (r_lending_market repay_reserve =? key lending_market_info) InvalidAccountInput;;
  check (negb (rl_supply_pubkey (r_liquidity repay_reserve) =? key source_liquidity_info))
    InvalidAccountInput;;
  check (rl_supply_pubkey (r_liquidity repay_reserve) =? key destination_liquidity_info)
    InvalidAccountInput;;
  check_fresh (r_last_update repay_reserve) clock ReserveStale;;
  obligation ← load Obligation program_id obligation_info;
  check (o_lending_market obligation =? key lending_market_info) InvalidAccountInput;;
  '(liquidity, liquidity_index) ←
    lift (Obligation.find_liquidity_in_borrows obligation (key repay_reserve_info));
  check (negb (Decimal.eqb (ol_borrowed_amount_wads liquidity) Decimal.zero))
    ObligationLiquidityEmpty;;
  liquidity ←
    lift (ObligationLiquidity.accrue_interest liquidity
            (rl_cumulative_borrow_rate_wads (r_liquidity repay_reserve)));
  let obligation :=
    Obligation.with_borrows obligation (<[liquidity_index := liquidity]> (o_borrows obligation)) in
  result ←
    lift (Reserve.calculate_repay repay_reserve liquidity_amount (ol_borrowed_amount_wads liquidity));
  check (negb (cr_repay_amount result =? 0)) RepayTooSmall;;
  reserve_liquidity ←
    lift (ReserveLiquidity.repay (r_liquidity repay_reserve) (cr_repay_amount result)
            (cr_settle_amount result));
  pack (Reserve.mark_stale (Reserve.with_liquidity repay_reserve reserve_liquidity))
    repay_reserve_info;;
  obligation ← lift (Obligation.repay obligation (cr_settle_amount result) liquidity_index);
  pack (Obligation.mark_stale obligation) obligation_info;;
  spl_token_transfer source_liquidity_info destination_liquidity_info (cr_repay_amount result)
    user_transfer_authority_info [] token_program_id.

Definition _liquidate_obligation program_id (liquidity_amount : Z)
    (source_liquidity_info destination_collateral_info repay_reserve_info
     repay_reserve_liquidity_supply_info withdraw_reserve_info
     withdraw_reserve_collateral_supply_info obligation_info lending_market_info
     lending_market_authority_info user_transfer_authority_info : AccountInfo)
    clock (token_program_id : AccountInfo) : M Z :=
  lending_market ← load_market program_id lending_market_info token_program_id;
  repay_reserve ← load Reserve program_id repay_reserve_info;
  check (r_lending_market repay_reserve =? key lending_market_info) InvalidAccountInput;;
  check (rl_supply_pubkey (r_liquidity repay_reserve) =? key repay_reserve_liquidity_supply_info)
    InvalidAccountInput;;
  check (negb (rl_supply_pubkey (r_liquidity repay_reserve) =? key source_liquidity_info))
    InvalidAccountInput;;
  check (negb (rc_supply_pubkey (r_collateral repay_reserve) =? key destination_collateral_info))
    InvalidAccountInput;;
  check_fresh (r_last_update repay_reserve) clock ReserveStale;;
  withdraw_reserve ← load Reserve program_id withdraw_reserve_info;
  check (r_lending_market withdraw_reserve =? key lending_market_info) InvalidAccountInput;;
  check (rc_supply_pubkey (r_collateral withdraw_reserve)
           =? key withdraw_reserve_collateral_supply_info) InvalidAccountInput;;
  check (negb (rl_supply_pubkey (r_liquidity withdraw_reserve) =? key source_liquidity_info))
    InvalidAccountInput;;
  check (negb (rc_supply_pubkey (r_collateral withdraw_reserve) =? key destination_collateral_info))
    InvalidAccountInput;;
  check_fresh (r_last_update withdraw_reserve) clock ReserveStale;;
  obligation ← load Obligation program_id obligation_info;
  check (o_lending_market obligation =? key lending_market_info) InvalidAccountInput;;
  check_fresh (o_last_update obligation) clock ObligationStale;;
  check (negb (Decimal.eqb (o_deposited_value obligation) Decimal.zero)) ObligationDepositsZero;;
  check (negb (Decimal.eqb (o_borrowed_value obligation) Decimal.zero)) ObligationBorrowsZero;;
  check (negb (Decimal.ltb (o_borrowed_value obligation) (o_unhealthy_borrow_value obligation)))
    ObligationHealthy;;
  '(liquidity, liquidity_index) ←
    lift (Obligation.find_liquidity_in_borrows obligation (key repay_reserve_info));
  check (negb (Decimal.eqb (ol_market_value liquidity) Decimal.zero)) ObligationLiquidityEmpty;;
  '(collateral, collateral_index) ←
    lift (Obligation.find_collateral_in_deposits obligation (key withdraw_reserve_info));
  check (negb (Decimal.eqb (oc_market_value collateral) Decimal.zero)) ObligationCollateralEmpty;;
  authority_signer_seeds ←
    check_authority program_id lending_market lending_market_info lending_market_authority_info;
  result ←
    lift (Liquidation.calculate_liquidation withdraw_reserve liquidity_amount obligation liquidity
            collateral);
  check (negb (cl_repay_amount result =? 0)) LiquidationTooSmall;;
  check (negb (cl_withdraw_amount result =? 0)) LiquidationTooSmall;;
  reserve_liquidity ←
    lift (ReserveLiquidity.repay (r_liquidity repay_reserve) (cl_repay_amount result)
            (cl_settle_amount result));
  pack (Reserve.mark_stale (Reserve.with_liquidity repay_reserve reserve_liquidity))
    repay_reserve_info;;
  obligation ← lift (Obligation.repay obligation (cl_settle_amount result) liquidity_index);
  obligation ← lift (Obligation.withdraw obligation (cl_withdraw_amount result) collateral_index);
  pack (Obligation.mark_stale obligation) obligation_info;;
  spl_token_transfer source_liquidity_info repay_reserve_liquidity_supply_info
    (cl_repay_amount result) user_transfer_authority_info [] token_program_id;;
  spl_token_transfer withdraw_reserve_collateral_supply_info destination_collateral_info
    (cl_withdraw_amount result) lending_market_authority_info authority_signer_seeds
    token_program_id;;
  mret (cl_withdraw_amount result).

Definition process_liquidate_obligation program_id (liquidity_amount : Z)
    (accounts : list AccountInfo) : M unit :=
  check (negb (liquidity_amount =? 0)) InvalidAmount;;
  '(source_liquidity_info, iter) ← next accounts;
  '(destination_collateral_info, iter) ← next iter;
  '(repay_reserve_info, iter) ← next iter;
  '(repay_reserve_liquidity_supply_info, iter) ← next iter;
  '(withdraw_reserve_info, iter) ← next iter;
  '(withdraw_reserve_collateral_supply_info, iter) ← next iter;
  '(obligation_info, iter) ← next iter;
  '(lending_market_info, iter) ← next iter;
  '(lending_market_authority_info, iter) ← next iter;
  '(user_transfer_authority_info, iter) ← next iter;
  '(clock_info, iter) ← next iter;
  clock ← clock_of clock_info;
  '(token_program_id, iter) ← next iter;
  _liquidate_obligation program_id liquidity_amount source_liquidity_info
    destination_collateral_info repay_reserve_info repay_reserve_liquidity_supply_info
    withdraw_reserve_info withdraw_reserve_collateral_supply_info obligation_info
    lending_market_info lending_market_authority_info user_transfer_authority_info clock
    token_program_id;;
  mret tt.

Definition process_liquidate_obligation_and_redeem_reserve_collateral program_id
    (liquidity_amount : Z) (accounts : list AccountInfo) : M unit :=
  check (negb (liquidity_amount =? 0)) InvalidAmount;;
  '(source_liquidity_info, iter) ← next accounts;
  '(destination_collateral_info, iter) ← next iter;
  '(destination_liquidity_info, iter) ← next iter;
  '(repay_reserve_info, iter) ← next iter;
  '(repay_reserve_liquidity_supply_info, iter) ← next iter;
  '(withdraw_reserve_info, iter) ← next iter;
  '(withdraw_reserve_collateral_mint_info, iter) ← next iter;
  '(withdraw_reserve_collateral_supply_info, iter) ← next iter;
  '(withdraw_reserve_liquidity_supply_info, iter) ← next iter;
  '(withdraw_reserve_liquidity_fee_receiver_info, iter) ← next iter;
  '(obligation_info, iter) ← next iter;
  '(lending_market_info, iter) ← next iter;
  '(lending_market_authority_info, iter) ← next iter;
  '(user_transfer_authority_info, iter) ← next iter;
  '(token_program_id, iter) ← next iter;
  clock ← lift clock_get;
  withdraw_collateral_amount ←
    _liquidate_obligation program_id liquidity_amount source_liquidity_info
      destination_collateral_info repay_reserve_info repay_reserve_liquidity_supply_info
      withdraw_reserve_info withdraw_reserve_collateral_supply_info obligation_info
      lending_market_info lending_market_authority_info user_transfer_authority_info clock
      token_program_id;
  _refresh_reserve_interest program_id withdraw_reserve_info clock;;
  withdraw_liquidity_amount ←
    _redeem_reserve_collateral program_id withdraw_collateral_amount destination_collateral_info
      destination_liquidity_info withdraw_reserve_info withdraw_reserve_collateral_mint_info
      withdraw_reserve_liquidity_supply_info lending_market_info lending_market_authority_info
      user_transfer_authority_info clock token_program_id;
  withdraw_reserve ← unpack Reserve withdraw_reserve_info;
  check (fee_receiver (r_config withdraw_reserve)
           =? key withdraw_reserve_liquidity_fee_receiver_info) InvalidAccountInput;;
  protocol_fee ←
    lift (Reserve.calculate_protocol_liquidation_fee withdraw_reserve withdraw_liquidity_amount);
  spl_token_transfer destination_liquidity_info withdraw_reserve_liquidity_fee_receiver_info
    protocol_fee user_transfer_authority_info [] token_program_id.

(** [process_generic_flash_loan], which no instruction reaches *)
Definition process_generic_flash_loan program_id (liquidity_amount : Z)
    (accounts : list AccountInfo) : M unit :=
  mret tt.

(** The instruction sent to the flash loan's receiver: tag 0 and the amount to
    return, with the remaining accounts passed through. *)
Definition flash_loan_instruction (receiver destination source token_program : Pubkey)
    (returned_amount_required : Z) (rest : list AccountInfo) : Instruction := {|
  ix_program_id := receiver;
  ix_accounts :=
    [mkAccountMeta destination false true;
     mkAccountMeta source false true;
     mkAccountMeta token_program false false]
    ++ ((λ info, mkAccountMeta (key info) (is_signer info) (is_writable info)) <$> rest);
  ix_data := 0 :: le_bytes 8 returned_amount_required;
|}.

Definition process_flash_loan program_id (liquidity_amount : Z)
    (accounts : list AccountInfo) : M unit :=
  check (negb (liquidity_amount =? 0)) InvalidAmount;;
  '(source_liquidity_info, iter) ← next accounts;
  '(destination_liquidity_info, iter) ← next iter;
  '(reserve_info, iter) ← next iter;
  '(reserve_liquidity_fee_receiver_info, iter) ← next iter;
  '(host_fee_receiver_info, iter) ← next iter;
  '(lending_market_info, iter) ← next iter;
  '(lending_market_authority_info, iter) ← next iter;
  '(token_program_id, iter) ← next iter;
  '(flash_loan_receiver_program_id, iter) ← next iter;
  check (negb (program_id =? key flash_loan_receiver_program_id)) InvalidFlashLoanReceiverProgram;;
  lending_market ← load_market program_id lending_market_info token_program_id;
  authority_signer_seeds ←
    check_authority program_id lending_market lending_market_info lending_market_authority_info;
  reserve ← load Reserve program_id reserve_info;
  check (r_lending_market reserve =? key lending_market_info) InvalidAccountInput;;
  check (rl_supply_pubkey (r_liquidity reserve) =? key source_liquidity_info) InvalidAccountInput;;
  check (fee_receiver (r_config reserve) =? key reserve_liquidity_fee_receiver_info)
    InvalidAccountInput;;
  let flash_loan_amount :=
    if liquidity_amount =? u64_MAX then rl_available_amount (r_liquidity reserve)
    else liquidity_amount in
  let flash_loan_amount_decimal := Decimal.from_u64 flash_loan_amount in
  '(origination_fee, host_fee) ←
    lift (ReserveFees.calculate_flash_loan_fees (fees (r_config reserve))
            flash_loan_amount_decimal);
  balance_before_flash_loan ← token_balance source_liquidity_info;
  expected_balance_after_flash_loan ←
    lift (ok_or_overflow (checked_add 64 balance_before_flash_loan origination_fee));
  returned_amount_required ←
    lift (ok_or_overflow (checked_add 64 flash_loan_amount origination_fee));
  liquidity ←
    lift (ReserveLiquidity.borrow (r_liquidity reserve) flash_loan_amount_decimal);
  pack (Reserve.with_liquidity reserve liquidity) reserve_info;;
  spl_token_transfer source_liquidity_info destination_liquidity_info flash_loan_amount
    lending_market_authority_info authority_signer_seeds token_program_id;;
  invoke
    (flash_loan_instruction (key flash_loan_receiver_program_id) (key destination_liquidity_info)
       (key source_liquidity_info) (key token_program_id) returned_amount_required iter)
    ([destination_liquidity_info; flash_loan_receiver_program_id; source_liquidity_info;
      token_program_id] ++ iter);;
  reserve ← unpack Reserve reserve_info;
  liquidity ←
    lift (ReserveLiquidity.repay (r_liquidity reserve) flash_loan_amount
            flash_loan_amount_decimal);
  pack (Reserve.with_liquidity reserve liquidity) reserve_info;;
  actual_balance_after_flash_loan ← token_balance source_liquidity_info;
  check (negb (actual_balance_after_flash_loan <? expected_balance_after_flash_loan))
    NotEnoughLiquidityAfterFlashLoan;;
  owner_fee ←
    pay_host_fee origination_fee host_fee source_liquidity_info host_fee_receiver_info
      lending_market_authority_info authority_signer_seeds token_program_id;
  pay_owner_fee owner_fee source_liquidity_info reserve_liquidity_fee_receiver_info
    lending_market_authority_info authority_signer_seeds token_program_id.

End processor.
