(* ===== verification/Processor.v ===== *)
(** * Processor: dispatch

    [process_instruction] of [token-lending/program/src/processor.rs]: decode
    the instruction and run its handler. *)

From S2P Require Import Prelude Errors FixedPoint StateBase LendingMarket Reserve.
From S2P Require Import Obligation Codec Instruction Solana Oracle ProcessorBase.
From S2P Require Import ProcessorReserve ProcessorObligation ProcessorLoan.

Section processor.
Context `{Sdk}.

(** The [match] of [process_instruction]. *)
Definition run_instruction (program_id : Pubkey) (instruction : LendingInstruction)
    (accounts : list AccountInfo) : M unit :=
  match instruction with
  | InitLendingMarket owner quote_currency =>
      process_init_lending_market program_id owner quote_currency accounts
  | SetLendingMarketOwner new_owner =>
      process_set_lending_market_owner program_id new_owner accounts
  | InitReserve liquidity_amount config =>
      process_init_reserve program_id liquidity_amount config accounts
  | RefreshReserve => process_refresh_reserve program_id accounts
  | DepositReserveLiquidity liquidity_amount =>
      process_deposit_reserve_liquidity program_id liquidity_amount accounts
  | RedeemReserveCollateral collateral_amount =>
      process_redeem_reserve_collateral program_id collateral_amount accounts
  | InitObligation => process_init_obligation program_id accounts
  | RefreshObligation => process_refresh_obligation program_id accounts
  | DepositObligationCollateral collateral_amount =>
      process_deposit_obligation_collateral program_id collateral_amount accounts
  | WithdrawObligationCollateral collateral_amount =>
      process_withdraw_obligation_collateral program_id collateral_amount accounts
  | BorrowObligationLiquidity liquidity_amount =>
      process_borrow_obligation_liquidity program_id liquidity_amount accounts
  | RepayObligationLiquidity liquidity_amount =>
      process_repay_obligation_liquidity program_id liquidity_amount accounts
  | LiquidateObligation liquidity_amount =>
      process_liquidate_obligation program_id liquidity_amount accounts
  | FlashLoan amount => process_flash_loan program_id amount accounts
  | DepositReserveLiquidityAndObligationCollateral liquidity_amount =>
      process_deposit_reserve_liquidity_and_obligation_collateral program_id liquidity_amount
        accounts
  | WithdrawObligationCollateralAndRedeemReserveCollateral collateral_amount =>
      process_withdraw_obligation_collateral_and_redeem_reserve_liquidity program_id
        collateral_amount accounts
  | UpdateReserveConfig config => process_update_reserve_config program_id config accounts
  | LiquidateObligationAndRedeemReserveCollateral liquidity_amount =>
      process_liquidate_obligation_and_redeem_reserve_collateral program_id liquidity_amount
        accounts
  | RedeemFees => process_redeem_fees program_id accounts
  end.

Definition process_instruction (program_id : Pubkey) (accounts : list AccountInfo)
    (input : list Z) : M unit :=
  instruction ← lift (LendingInstruction.unpack input);
  run_instruction program_id instruction accounts.

(** The function behind the runtime's entrypoint ([entrypoint.rs]): an error is
    logged and returned. *)
Definition entrypoint (program_id : Pubkey) (accounts : list AccountInfo)
    (instruction_data : list Z) : M unit := λ w,
  match process_instruction program_id accounts instruction_data w with
  | Err error => Err error
  | Ok (_, w) => Ok (tt, w)
  | Panic => Panic
  end.

(** So it runs exactly the instruction. *)
Lemma entrypoint_runs program_id accounts instruction_data w :
  entrypoint program_id accounts instruction_data w = process_instruction program_id accounts instruction_data w.
Proof. unfold entrypoint. by destruct (process_instruction _ _ _ _) as [[[] ?]| |]. Qed.

End processor.
