(* ===== verification/ProcessorSafety.v ===== *)
(** * Every instruction keeps the invariant

    The rules of ProcessorInvariant applied to each handler, and to
    [process_instruction]. *)

From S2P Require Import Prelude Errors FixedPoint StateBase LendingMarket Reserve.
From S2P Require Import ReserveFacts LoanFacts Obligation ObligationFacts Liquidation Codec.
From S2P Require Import CodecFacts Instruction Solana Oracle OracleFacts ProcessorBase.
From S2P Require Import ProcessorFacts ProcessorInvariant ProcessorReserve ProcessorObligation.
From S2P Require Import RefreshFacts ProcessorLoan Processor.

(** One step of a handler: the rule for its head. *)
Ltac keeps_by lem := eapply lem; try exact _.

Ltac keeps_head :=
  lazymatch goal with
  | |- keeps _ (next _) _ => keeps_by keeps_next; assumption
  | |- keeps _ (check _ _) _ => keeps_by keeps_check
  | |- keeps _ (clock_of _) _ => keeps_by keeps_clock_of
  | |- keeps _ (lift clock_get) _ => keeps_by keeps_clock_get
  | |- keeps _ (lift _) _ => keeps_by keeps_lift
  | |- keeps _ (rent_of _) _ => keeps_by keeps_rent_of
  | |- keeps _ (data_of _) _ => keeps_by keeps_data_of
  | |- keeps _ (owner_of _) _ => keeps_by keeps_owner_of
  | |- keeps _ (lamports_of _) _ => keeps_by keeps_lamports_of
  | |- keeps _ (load Reserve _ _) _ => keeps_by keeps_load_reserve
  | |- keeps _ (load Obligation _ _) _ => keeps_by keeps_load_obligation
  | |- keeps _ (load LendingMarket _ _) _ => keeps_by keeps_load_lending_market
  | |- keeps _ (unpack Reserve _) _ => keeps_by keeps_unpack_reserve
  | |- keeps _ (load_market _ _ _) _ => keeps_by keeps_load_market
  | |- keeps _ (check_owner _ _) _ => keeps_by keeps_check_owner
  | |- keeps _ (check_fresh _ _ _) _ => keeps_by keeps_check_fresh
  | |- keeps _ (check_authority _ _ _ _) _ => keeps_by keeps_check_authority
  | |- keeps _ (mark_reserve_stale _) _ => keeps_by keeps_mark_reserve_stale
  | |- keeps _ (spl_token_transfer _ _ _ _ _ _) _ => keeps_by keeps_transfer
  | |- keeps _ (spl_token_mint_to _ _ _ _ _ _) _ => keeps_by keeps_mint_to
  | |- keeps _ (spl_token_burn _ _ _ _ _ _) _ => keeps_by keeps_burn
  | |- keeps _ (spl_token_init_account _ _ _ _ _) _ => keeps_by keeps_init_account
  | |- keeps _ (spl_token_init_mint _ _ _ _ _) _ => keeps_by keeps_init_mint
  | |- keeps _ (mret _) _ => keeps_by keeps_ret
  end.

Ltac keeps_intro :=
  let x := fresh "x" in let Hx := fresh "Hx" in
  intros x Hx; cbv beta in Hx;
  repeat match type of x with
         | (_ * _)%type => let y := fresh "x" in destruct x as [x y]
         end;
  cbn [fst snd] in Hx; cbv beta iota;
  repeat match type of Hx with
         | _ ∧ _ => let H' := fresh "Hx" in destruct Hx as [Hx H']
         | True => clear Hx
         end.

Ltac keeps_step :=
  cbv zeta;
  lazymatch goal with
  | |- keeps _ (mbind _ _) _ => eapply keeps_bind; [first [keeps_head | solve [eauto with keeps]] | keeps_intro]
  | |- keeps _ _ (λ _, True) =>
      first [keeps_head | solve [eauto with keeps] | eapply keeps_mono; [keeps_head|done]]; try exact I
  end.

(** ** Amounts *)

(** A withdrawal takes at most the deposit. *)
Lemma withdraw_amount_u64 o r c n a :
  Obligation_ok o → Reserve_ok r → is_u64 n → ObligationCollateral_ok c → withdraw_obligation_amount o r c n = Ok a → is_u64 a.
Proof.
  intros Ho Hr [Hn0 Hn1] Hc Hw. destruct (ok_deposited_amount c Hc) as [Hd0 Hd1].
  unfold withdraw_obligation_amount in Hw. case_decide.
  { injection Hw as <-. destruct (n =? u64_MAX); split; lia. }
  case_match; [done|].
  apply bind_Ok in Hw as (mw & Hmw & Hw). apply require_bind_Ok in Hw as [Hz Hw].
  apply bind_Ok in Hw as (a' & Ha' & Hw). apply require_bind_Ok in Hw as [_ [= <-]].
  destruct (n =? u64_MAX).
  - apply bind_Ok in Ha' as (p & Hp & Ha'). apply bind_Ok in Ha' as (s & Hs & Ha').
    apply bind_Ok in Ha' as (m & Hm & [= <-]).
    apply Decimal_floor_Ok in Hm as [-> _]. apply Decimal_mul_u64_Ok in Hs as [-> _].
    apply Decimal_div_Ok in Hp as (-> & Hne & _). cbn [dec].
    destruct (ok_oc_market_value c Hc) as [Hv _].
    split; [|lia]. apply Z.min_glb; [|done].
    apply Z.div_pos; [|done]. apply Z.mul_nonneg_nonneg; [|done].
    apply max_withdraw_value_nonneg in Hmw; [|done|].
    + apply Z.div_pos; [|lia]. apply Z.mul_nonneg_nonneg; [|done]. rewrite Decimal_min_dec. lia.
    + destruct (ok_loan_to_value_ratio _ (ok_r_config r Hr)). cbn. unfold PERCENT_SCALER. lia.
  - apply bind_Ok in Ha' as (p & _ & Ha'). apply bind_Ok in Ha' as (v & _ & Ha').
    apply require_bind_Ok in Ha' as [_ [= <-]]. split; lia.
Qed.

Lemma borrow_amount_nonneg r o n rem cap res :
  Reserve_valid r → Obligation_ok o → is_u64 n → Obligation.remaining_borrow_value o = Ok rem →
  remaining_reserve_capacity r = Ok cap → Reserve.calculate_borrow r n rem cap = Ok res →
  0 ≤ dec (cb_borrow_amount res).
Proof.
  intros [Hr _] Ho Hn Hrem Hcap Hc.
  eapply calculate_borrow_nonneg; [exact Hr|exact Hn| | |exact Hc].
  - apply Decimal_sub_Ok in Hrem as [-> ?]. cbn. lia.
  - unfold remaining_reserve_capacity in Hcap.
    destruct (try_sub _ _) as [d| |] eqn:E; cbn in Hcap; try done; injection Hcap as <-; [|done].
    apply Decimal_sub_Ok in E as [-> ?]. cbn [dec]. lia.
Qed.

Lemma accrued_debt_nonneg l rate l' :
  ObligationLiquidity_ok l → Decimal_ok rate → ObligationLiquidity.accrue_interest l rate = Ok l' →
  0 ≤ dec (ol_borrowed_amount_wads l').
Proof. intros Hl Hr Hi. apply liquidity_accrue_Ok in Hi as (_ & _ & [? _] & _); done. Qed.

Lemma repay_amounts_nonneg r n debt res :
  0 ≤ n → 0 ≤ dec debt → Reserve.calculate_repay r n debt = Ok res →
  0 ≤ dec (cr_settle_amount res) ∧ 0 ≤ cr_repay_amount res.
Proof.
  intros Hn Hd Hc. apply calculate_repay_Ok in Hc as [Hs ->].
  assert (0 ≤ dec (cr_settle_amount res)).
  { rewrite Hs. destruct (n =? u64_MAX); [done|]. unfold WAD. lia. }
  split; [done|]. by apply ceil_wad_nonneg.
Qed.

Lemma liquidation_amounts_nonneg r n o kb kc l c i j res :
  Reserve_ok r → is_u64 n → Obligation_ok o →
  Obligation.find_liquidity_in_borrows o kb = Ok (l, i) →
  Obligation.find_collateral_in_deposits o kc = Ok (c, j) →
  Liquidation.calculate_liquidation r n o l c = Ok res →
  0 ≤ dec (cl_settle_amount res) ∧ 0 ≤ cl_repay_amount res ∧ is_u64 (cl_withdraw_amount res).
Proof.
  intros Hr Hn Ho Hl Hc H. apply find_liquidity_Ok in Hl as [Hl _]. apply find_collateral_Ok in Hc as [Hc _].
  pose proof (Forall_lookup_1 _ _ _ _ (ok_o_borrows o Ho) Hl) as Hlok.
  pose proof (Forall_lookup_1 _ _ _ _ (ok_o_deposits o Ho) Hc) as Hcok.
  destruct (calculate_liquidation_Ok r n o l c res Hr Hn (proj1 (ok_o_borrowed_value o Ho)) Hlok Hcok H)
    as (Hs & (x & v & _ & _ & (Hp & Hw & _) & _) & _ & _).
  destruct (ok_deposited_amount c Hcok). split_and!; [lia|lia|split; lia].
Qed.

Section safety.
Context `{S : Sdk} (program_id : Pubkey) `{L : !SdkLaws program_id}.
Implicit Types (w : World) (k : Pubkey) (info : AccountInfo).
Local Abbreviation keeps := (keeps program_id).
Local Abbreviation World_ok := (World_ok program_id).

(** Dropping the fact about the result *)
Lemma keeps_True {A} (m : M A) Φ : keeps m Φ → keeps m (λ _, True).
Proof. intros Hm. by eapply keeps_mono. Qed.

(** ** Prices *)

Lemma keeps_reads {A} (m : M A) Φ : reads m (λ _, Φ) → keeps m Φ.
Proof. intros Hm w a w' Hw Hr. by apply Hm in Hr as [-> ?]. Qed.

Lemma keeps_get_price i1 i2 clock : keeps (get_price i1 i2 clock) Decimal_ok.
Proof.
  intros w d w' Hw Hr. apply get_price_reads in Hr as [-> ?]; [done|]. apply Hw.
Qed.

Lemma keeps_validate_pyth_keys m i1 i2 : keeps (validate_pyth_keys m i1 i2) (λ _, True).
Proof. apply keeps_reads, validate_pyth_keys_reads. Qed.

Lemma keeps_validate_switchboard_keys m i : keeps (validate_switchboard_keys m i) (λ _, True).
Proof. apply keeps_reads, validate_switchboard_keys_reads. Qed.
#[local] Hint Resolve keeps_get_price keeps_validate_pyth_keys keeps_validate_switchboard_keys : keeps.

(** ** Refreshing a reserve *)

Lemma reserve_valid_refreshed r slot r' :
  Reserve_valid r → is_u64 slot → Reserve.accrue_interest r slot = Ok r' →
  Reserve_valid (Reserve.update_slot r' slot).
Proof.
  intros [Hr Hv] Hs Ha. destruct (accrue_interest_grows r slot r' Hr Hs Hv Ha) as (Hr' & E & _).
  split; [by apply reserve_update_slot_ok|]. by rewrite E.
Qed.

Lemma keeps_refresh_reserve_interest info clock :
  is_u64 (clock_slot clock) → keeps (_refresh_reserve_interest program_id info clock) (λ _, True).
Proof.
  intros Hc. unfold _refresh_reserve_interest. repeat keeps_step.
  keeps_by keeps_pack_reserve. by eapply reserve_valid_refreshed.
Qed.
#[local] Hint Resolve keeps_refresh_reserve_interest : keeps.

Lemma with_market_price_ok l p :
  ReserveLiquidity_ok l → Decimal_ok p → ReserveLiquidity_ok (ReserveLiquidity.with_market_price l p).
Proof. intros Hl Hp. by apply with_amounts_ok; try apply Hl. Qed.

Lemma keeps_refresh_reserve i1 i2 i3 clock :
  is_u64 (clock_slot clock) → keeps (_refresh_reserve program_id i1 i2 i3 clock) (λ _, True).
Proof.
  intros Hc. unfold _refresh_reserve. repeat keeps_step.
  eapply keeps_bind; [|intros; by apply keeps_refresh_reserve_interest].
  match goal with H : Reserve_valid _ |- _ => destruct H as [Hr Hv] end.
  keeps_by keeps_pack_reserve. split; [|done].
  apply with_liquidity_ok; [done|]. apply with_market_price_ok; [apply Hr|done].
Qed.
#[local] Hint Resolve keeps_refresh_reserve : keeps.

(** ** Initialisation *)

Lemma keeps_assert_rent_exempt rent info : keeps (assert_rent_exempt rent info) (λ _, True).
Proof. unfold assert_rent_exempt. repeat keeps_step. Qed.

(** Any bytes may stand in an uninitialised account. *)
Lemma keeps_assert_uninitialized T `{Pack T} `{IsInitialized T} info :
  keeps (assert_uninitialized T info)
    (λ a, ∃ bs, Forall is_byte bs ∧ unpack_from_slice bs = Ok a).
Proof.
  intros w a w' Hw Hr. unfold assert_uninitialized, unpack_unchecked in Hr. inv_m.
  split; [done|].
  match goal with E : pack_unpack_unchecked _ = Ok _ |- _ => rename E into Hu end.
  rewrite pack_unpack_unchecked_eq in Hu. destruct (decide _); [|done].
  eexists. split; [apply (wo_bytes _ _ Hw)|exact Hu].
Qed.
#[local] Hint Resolve keeps_assert_rent_exempt keeps_assert_uninitialized : keeps.

Lemma keeps_init_lending_market owner quote accounts :
  is_key owner → is_key quote → Forall info_ok accounts →
  keeps (process_init_lending_market program_id owner quote accounts) (λ _, True).
Proof.
  intros Ho Hq Ha. unfold process_init_lending_market. repeat keeps_step.
  keeps_by keeps_pack_market. constructor; cbn; try done.
  apply find_program_address_u8.
Qed.

Lemma keeps_set_lending_market_owner owner accounts :
  is_key owner → Forall info_ok accounts →
  keeps (process_set_lending_market_owner program_id owner accounts) (λ _, True).
Proof.
  intros Ho Ha. unfold process_set_lending_market_owner. repeat keeps_step.
  keeps_by keeps_pack_market.
  match goal with H : LendingMarket_ok _ |- _ => by destruct H end.
Qed.

Lemma obligation_init_ok o params :
  Decimal_ok (o_deposited_value o) → Decimal_ok (o_borrowed_value o) →
  Decimal_ok (o_allowed_borrow_value o) → Decimal_ok (o_unhealthy_borrow_value o) →
  is_u64 (io_current_slot params) → is_key (io_lending_market params) → is_key (io_owner params) →
  io_deposits params = [] → io_borrows params = [] →
  Obligation_ok (Obligation.init o params).
Proof.
  intros ? ? ? ? ? ? ? Hd Hb. constructor; cbn; try done; rewrite ?Hd, ?Hb; try constructor; try done.
  cbn. lia.
Qed.

Lemma keeps_init_obligation accounts :
  Forall info_ok accounts → keeps (process_init_obligation program_id accounts) (λ _, True).
Proof.
  intros Ha. unfold process_init_obligation. repeat keeps_step.
  keeps_by keeps_pack_obligation.
  match goal with H : ∃ bs, _ |- _ => destruct H as (bs & Hb & Hu) end.
  destruct (obligation_unpack_values _ _ Hb Hu) as (? & ? & ? & ?).
  by apply obligation_init_ok.
Qed.

(** ** Reserves *)

Lemma reserve_init_valid self slot market mint decimals supply pyth switchboard price cmint csupply config :
  is_u64 slot → is_key market → is_key mint → is_u8 decimals → is_key supply → is_key pyth →
  is_key switchboard → Decimal_ok price → is_key cmint → is_key csupply → ReserveConfig_ok config →
  Reserve_ok (Reserve.init self
    (mkInitReserveParams slot market
       (ReserveLiquidity.new (mkNewReserveLiquidityParams mint decimals supply pyth switchboard price))
       (ReserveCollateral.new (mkNewReserveCollateralParams cmint csupply)) config)).
Proof. intros. repeat (constructor; try done). Qed.

Lemma keeps_unpack_mint info : keeps (unpack_mint info) (λ n, is_u8 n).
Proof.
  unfold unpack_mint. repeat keeps_step. eapply keeps_mono; [keeps_by keeps_lift|].
  intros n Hn. cbv beta in Hn. apply map_err_Ok in Hn. exact (mint_decimals_u8 _ _ Hn).
Qed.
#[local] Hint Resolve keeps_unpack_mint : keeps.

Lemma keeps_init_reserve n config accounts :
  is_u64 n → ReserveConfig_ok config → Forall info_ok accounts →
  keeps (process_init_reserve program_id n config accounts) (λ _, True).
Proof.
  intros Hn Hc Ha. unfold process_init_reserve. repeat keeps_step.
  eapply keeps_bind; [|intros _ _; repeat keeps_step].
  keeps_by keeps_pack_reserve.
  match goal with H : Reserve.deposit_liquidity _ _ = Ok _ |- _ =>
    apply deposit_liquidity_ok in H as (Hr & _ & Hconf); [|by apply reserve_init_valid|done] end.
  split; [done|]. rewrite Hconf. match goal with H : validate_reserve_config _ = Ok ?u |- _ => by destruct u end.
Qed.

Lemma keeps_refresh_reserve_handler accounts :
  Forall info_ok accounts → keeps (process_refresh_reserve program_id accounts) (λ _, True).
Proof. intros Ha. unfold process_refresh_reserve. repeat keeps_step. Qed.

Lemma reserve_valid_eq r r' :
  Reserve_valid r → Reserve_ok r' → r_config r' = r_config r → Reserve_valid r'.
Proof. intros [? ?] ? E. split; [done|]. by rewrite E. Qed.

Lemma reserve_valid_stale r : Reserve_valid r → Reserve_valid (Reserve.mark_stale r).
Proof. intros Hr. eapply reserve_valid_eq; [done|by apply reserve_mark_stale_ok, Hr|done]. Qed.

Lemma reserve_valid_liquidity r l :
  Reserve_valid r → ReserveLiquidity_ok l → Reserve_valid (Reserve.with_liquidity r l).
Proof. intros Hr Hl. eapply reserve_valid_eq; [done|by apply with_liquidity_ok; [apply Hr|]|done]. Qed.

Lemma keeps_deposit_reserve_liquidity_inner n i1 i2 i3 i4 i5 i6 i7 i8 clock i9 :
  is_u64 n →
  keeps (_deposit_reserve_liquidity program_id n i1 i2 i3 i4 i5 i6 i7 i8 clock i9) (λ c, is_u64 c).
Proof.
  intros Hn. unfold _deposit_reserve_liquidity. repeat keeps_step.
  match goal with H : Reserve.deposit_liquidity _ _ = Ok _, Hr : Reserve_valid _ |- _ =>
    apply deposit_liquidity_ok in H as (Hr' & Hc & Hconf); [|apply Hr|done];
    pose proof (reserve_valid_eq _ _ Hr Hr' Hconf) as Hv end.
  eapply keeps_bind; [keeps_by keeps_pack_reserve; by apply reserve_valid_stale|intros _ _].
  repeat keeps_step. by keeps_by keeps_ret.
Qed.

Lemma keeps_redeem_reserve_collateral_inner n i1 i2 i3 i4 i5 i6 i7 i8 clock i9 :
  is_u64 n →
  keeps (_redeem_reserve_collateral program_id n i1 i2 i3 i4 i5 i6 i7 i8 clock i9) (λ c, is_u64 c).
Proof.
  intros Hn. unfold _redeem_reserve_collateral. repeat keeps_step.
  match goal with H : Reserve.redeem_collateral _ _ = Ok _, Hr : Reserve_valid _ |- _ =>
    apply redeem_collateral_ok in H as (Hr' & Hc & Hconf); [|apply Hr|done];
    pose proof (reserve_valid_eq _ _ Hr Hr' Hconf) as Hv end.
  eapply keeps_bind; [keeps_by keeps_pack_reserve; by apply reserve_valid_stale|intros _ _].
  repeat keeps_step. by keeps_by keeps_ret.
Qed.
#[local] Hint Resolve keeps_deposit_reserve_liquidity_inner keeps_redeem_reserve_collateral_inner : keeps.

Lemma keeps_deposit_reserve_liquidity n accounts :
  is_u64 n → Forall info_ok accounts →
  keeps (process_deposit_reserve_liquidity program_id n accounts) (λ _, True).
Proof. intros Hn Ha. unfold process_deposit_reserve_liquidity. repeat keeps_step. Qed.

Lemma keeps_redeem_reserve_collateral n accounts :
  is_u64 n → Forall info_ok accounts →
  keeps (process_redeem_reserve_collateral program_id n accounts) (λ _, True).
Proof. intros Hn Ha. unfold process_redeem_reserve_collateral. repeat keeps_step. Qed.

Lemma with_oracles_ok l p s :
  ReserveLiquidity_ok l → is_key p → is_key s → ReserveLiquidity_ok (ReserveLiquidity.with_oracles l p s).
Proof. intros [] ? ?. by constructor. Qed.

Lemma keeps_update_reserve_config config accounts :
  ReserveConfig_ok config → Forall info_ok accounts →
  keeps (process_update_reserve_config program_id config accounts) (λ _, True).
Proof.
  intros Hc Ha. unfold process_update_reserve_config. repeat keeps_step.
  match goal with Hr : Reserve_valid _ |- _ => rename Hr into Hr0 end.
  eapply keeps_bind with (Φ := Reserve_ok); [|intros r1 Hr1].
  { apply keeps_if; [|by keeps_by keeps_ret; apply Hr0].
    eapply keeps_bind; [by eauto with keeps|intros _ _]. keeps_by keeps_ret.
    apply with_liquidity_ok; [apply Hr0|]. apply with_oracles_ok; [apply Hr0|done|apply Hr0]. }
  eapply keeps_bind with (Φ := Reserve_ok); [|intros r2 Hr2].
  { apply keeps_if; [|by keeps_by keeps_ret].
    eapply keeps_bind; [by eauto with keeps|intros _ _]. keeps_by keeps_ret.
    apply with_liquidity_ok; [done|]. apply with_oracles_ok; [apply Hr1|apply Hr1|done]. }
  repeat keeps_step. keeps_by keeps_pack_reserve. split; [by apply with_config_ok|].
  match goal with H : validate_reserve_config _ = Ok ?u |- _ => by destruct u end.
Qed.

Lemma calculate_redeem_fees_u64 r n :
  Reserve_ok r → Reserve.calculate_redeem_fees r = Ok n → 0 ≤ n.
Proof.
  intros Hr (z & Hz & [= <-])%bind_Ok. apply Decimal_floor_Ok in Hz as [-> _].
  destruct (ok_rl_accumulated _ (ok_r_liquidity r Hr)). destruct (ok_rl_available _ (ok_r_liquidity r Hr)).
  apply Z.min_glb; [done|]. by apply Z.div_pos.
Qed.

Lemma keeps_redeem_fees accounts :
  Forall info_ok accounts → keeps (process_redeem_fees program_id accounts) (λ _, True).
Proof.
  intros Ha. unfold process_redeem_fees. repeat keeps_step.
  match goal with H : ReserveLiquidity.redeem_fees _ _ = Ok _, Hn : Reserve.calculate_redeem_fees _ = Ok _,
      Hr : Reserve_valid _ |- _ =>
    apply calculate_redeem_fees_u64 in Hn; [|apply Hr];
    apply liquidity_redeem_fees_ok in H; [|apply Hr|done];
    pose proof (reserve_valid_stale _ (reserve_valid_liquidity _ _ Hr H)) end.
  eapply keeps_bind; [by keeps_by keeps_pack_reserve|intros _ _]. repeat keeps_step.
Qed.

(** ** Refreshing an obligation *)

Lemma deposit_refreshed_ok w clock c r c' :
  World_ok w → deposit_refreshed program_id w clock c r c' → ObligationCollateral_ok c →
  ObligationCollateral_ok c' ∧ deposit_reserve c' = deposit_reserve c ∧ Reserve_valid r.
Proof.
  intros Hw ((Ho & Hs & _) & v & Hv & ->) Hc.
  pose proof (stored_reserve_valid _ _ _ _ Hw Ho Hs) as Hr.
  pose proof (deposit_market_value_ok _ _ _ (proj1 Hr) Hc Hv). destruct Hc. by split_and!.
Qed.

Lemma borrow_refreshed_ok w clock l r l' :
  World_ok w → borrow_refreshed program_id w clock l r l' → ObligationLiquidity_ok l →
  ObligationLiquidity_ok l' ∧ borrow_reserve l' = borrow_reserve l ∧ Reserve_valid r.
Proof.
  intros Hw ((Ho & Hs & _) & l1 & v & Hl1 & Hv & ->) Hl.
  pose proof (stored_reserve_valid _ _ _ _ Hw Ho Hs) as Hr.
  assert (Hl1ok : ObligationLiquidity_ok l1 ∧ borrow_reserve l1 = borrow_reserve l).
  { pose proof (ok_rl_cumulative _ (ok_r_liquidity _ (proj1 Hr))) as Hrate.
    apply liquidity_accrue_Ok in Hl1 as (_ & -> & Hb & _); [|done..]. destruct Hl. by split. }
  destruct Hl1ok as [Hl1ok E]. pose proof (borrow_market_value_ok _ _ _ (proj1 Hr) Hl1ok Hv).
  destruct Hl1ok. by split_and!.
Qed.

Lemma Forall3_keeps {A B} (R : A → B → A → Prop) (P : A → Prop) (key : A → Z) l rs l' :
  (∀ a b a', R a b a' → P a → P a' ∧ key a' = key a) →
  Forall3 R l rs l' → Forall P l → Forall P l' ∧ key <$> l' = key <$> l.
Proof.
  intros Hstep Hr. induction Hr as [|a b a' l rs l' Ha Hr IH]; intros Hl; [done|].
  apply Forall_cons in Hl as [H1 H2]. destruct (Hstep _ _ _ Ha H1) as [? E].
  destruct (IH H2) as [? E']. split; [by constructor|]. cbn. by rewrite E, E'.
Qed.

Lemma sum_values_nonneg {A} (f : A → Decimal) (P : A → Prop) l :
  (∀ a, P a → Decimal_ok (f a)) → Forall P l → 0 ≤ sum_Z (dec ∘ f <$> l).
Proof. intros Hf Hl. apply sum_Z_nonneg, Forall_fmap. eapply Forall_impl; [done|]. intros a Ha. by apply Hf. Qed.

Lemma sum_percent_nonneg (pct : Reserve → Z) cs rs :
  Forall2 (λ c r, ObligationCollateral_ok c ∧ 0 ≤ pct r) cs rs →
  0 ≤ sum_Z (zip_with (λ c r, percent_of (oc_market_value c) (pct r)) cs rs).
Proof.
  intros Hl. induction Hl as [|c r cs rs [Hc Hp] _ IH]; [done|]. cbn [zip_with].
  rewrite sum_Z_cons. enough (0 ≤ percent_of (oc_market_value c) (pct r)) by lia.
  apply Z.div_pos; [|done]. destruct (ok_oc_market_value c Hc) as [? _]. unfold PERCENT_SCALER. lia.
Qed.

(** The loops of the refresh keep the keys and the invariant of the entries. *)
Lemma keeps_refresh_deposits clock ds iter :
  Forall ObligationCollateral_ok ds →
  keeps (refresh_deposits program_id clock ds (mkDepositValues Decimal.zero Decimal.zero Decimal.zero) iter)
    (λ p, let '(ds', sums, _) := p in
       Forall ObligationCollateral_ok ds' ∧ deposit_reserve <$> ds' = deposit_reserve <$> ds ∧
       Decimal_ok (dv_deposited sums) ∧ Decimal_ok (dv_allowed sums) ∧ Decimal_ok (dv_unhealthy sums)).
Proof.
  intros Hds w [[ds' sums] iter'] w' Hw Hr.
  apply refresh_deposits_Ok in Hr as (-> & rs & Hf & Hd & Ha & Hu & _ & Hlt); [|exact _].
  split; [done|].
  destruct (Forall3_keeps _ ObligationCollateral_ok deposit_reserve _ _ _
    (λ a b a' H Ha, let '(conj h1 (conj h2 _)) := deposit_refreshed_ok _ _ _ _ _ Hw H Ha in conj h1 h2)
    Hf Hds) as [Hds' Hk].
  assert (Hrs : Forall2 (λ c r, ObligationCollateral_ok c ∧ Reserve_valid r) ds' rs).
  { clear -Hf Hds Hw L. induction Hf as [|c r c' ds rs ds' Hc Hf IH]; [constructor|].
    apply Forall_cons in Hds as [H1 H2]. destruct (deposit_refreshed_ok _ _ _ _ _ Hw Hc H1) as (? & _ & ?).
    constructor; [done|]. by apply IH. }
  cbn [dec Decimal.zero dv_deposited dv_allowed dv_unhealthy] in *.
  destruct Hlt as (? & ? & ?); [done..|].
  pose proof (sum_values_nonneg oc_market_value _ ds' ok_oc_market_value Hds').
  assert (0 ≤ sum_Z (zip_with (λ c r, percent_of (oc_market_value c) (loan_to_value_ratio (r_config r))) ds' rs)).
  { apply (sum_percent_nonneg (λ r, loan_to_value_ratio (r_config r))).
    eapply Forall2_impl; [done|]. intros c r [? [Hr _]]. split; [done|]. apply Hr. }
  assert (0 ≤ sum_Z (zip_with (λ c r, percent_of (oc_market_value c) (liquidation_threshold (r_config r))) ds' rs)).
  { apply (sum_percent_nonneg (λ r, liquidation_threshold (r_config r))).
    eapply Forall2_impl; [done|]. intros c r [? [Hr _]]. split; [done|]. apply Hr. }
  split_and!; try done; (split; [lia|done]).
Qed.

Lemma keeps_refresh_borrows clock bs iter :
  Forall ObligationLiquidity_ok bs →
  keeps (refresh_borrows program_id clock bs Decimal.zero iter)
    (λ p, let '(bs', v, _) := p in
       Forall ObligationLiquidity_ok bs' ∧ borrow_reserve <$> bs' = borrow_reserve <$> bs ∧ Decimal_ok v).
Proof.
  intros Hbs w [[bs' v] iter'] w' Hw Hr.
  apply refresh_borrows_Ok in Hr as (-> & rs & Hf & Hd & _ & Hlt); [|exact _].
  split; [done|].
  destruct (Forall3_keeps _ ObligationLiquidity_ok borrow_reserve _ _ _
    (λ a b a' H Ha, let '(conj h1 (conj h2 _)) := borrow_refreshed_ok _ _ _ _ _ Hw H Ha in conj h1 h2)
    Hf Hbs) as [Hbs' Hk].
  pose proof (sum_values_nonneg ol_market_value _ bs' ok_ol_market_value Hbs').
  cbn [dec Decimal.zero] in *. specialize (Hlt eq_refl). split_and!; try done. split; lia.
Qed.

Lemma obligation_refreshed_ok o ds bs d b a u slot :
  Obligation_ok o → Forall ObligationCollateral_ok ds → Forall ObligationLiquidity_ok bs →
  deposit_reserve <$> ds = deposit_reserve <$> o_deposits o →
  borrow_reserve <$> bs = borrow_reserve <$> o_borrows o →
  Decimal_ok d → Decimal_ok b → Decimal_ok a → Decimal_ok u → is_u64 slot →
  Obligation_ok (Obligation.update_slot (Obligation.with_values (Obligation.with_entries o ds bs) d b a u) slot).
Proof.
  intros [] Hds Hbs Ed Eb ? ? ? ? ?. constructor; cbn; try done; [by rewrite Ed|by rewrite Eb|].
  pose proof (f_equal length Ed) as E1. pose proof (f_equal length Eb) as E2.
  rewrite !length_fmap in E1. rewrite !length_fmap in E2. lia.
Qed.

Lemma keeps_refresh_obligation accounts :
  Forall info_ok accounts → keeps (process_refresh_obligation program_id accounts) (λ _, True).
Proof.
  intros Ha. unfold process_refresh_obligation. repeat keeps_step.
  match goal with H : Obligation_ok _ |- _ => rename H into Ho end.
  eapply keeps_bind; [by apply keeps_refresh_deposits, Ho|]. intros [[ds sums] iter] (Hds & Ed & ? & ? & ?).
  eapply keeps_bind; [by apply keeps_refresh_borrows, Ho|]. intros [[bs borrowed] iter'] (Hbs & Eb & ?).
  repeat keeps_step. keeps_by keeps_pack_obligation.
  match goal with H : global_unhealthy_borrow_value _ = Ok _ |- _ =>
    apply global_unhealthy_borrow_value_Ok in H as [? ?] end.
  match goal with H : global_allowed_borrow_value _ = Ok _ |- _ =>
    apply Decimal_sub_Ok in H as [-> ?] end.
  unfold Decimal.from_u64 in *. cbn [dec] in *. change Decimal.wad with WAD in *. unfold WAD in *.
  apply obligation_refreshed_ok; try done; apply Decimal_min_ok; try done; split; cbn [dec]; lia.
Qed.

(** ** Collateral of an obligation *)

Lemma keeps_load_owned_obligation i1 i2 i3 :
  keeps (load_owned_obligation program_id i1 i2 i3) Obligation_ok.
Proof. unfold load_owned_obligation. repeat keeps_step. by keeps_by keeps_ret. Qed.
#[local] Hint Resolve keeps_load_owned_obligation : keeps.

Lemma keeps_deposit_obligation_collateral_inner n i1 i2 i3 i4 i5 i6 i7 clock i8 :
  is_u64 n → info_ok i3 →
  keeps (_deposit_obligation_collateral program_id n i1 i2 i3 i4 i5 i6 i7 clock i8) (λ _, True).
Proof.
  intros Hn Hk. unfold _deposit_obligation_collateral. repeat keeps_step.
  eapply keeps_bind; [|intros _ _; repeat keeps_step].
  keeps_by keeps_pack_obligation. apply obligation_mark_stale_ok.
  by eapply deposit_collateral_ok; [|exact Hk|exact Hn|eassumption].
Qed.
#[local] Hint Resolve keeps_deposit_obligation_collateral_inner : keeps.

Lemma keeps_deposit_obligation_collateral n accounts :
  is_u64 n → Forall info_ok accounts →
  keeps (process_deposit_obligation_collateral program_id n accounts) (λ _, True).
Proof. intros Hn Ha. unfold process_deposit_obligation_collateral. repeat keeps_step. Qed.

Lemma keeps_deposit_reserve_and_obligation n accounts :
  is_u64 n → Forall info_ok accounts →
  keeps (process_deposit_reserve_liquidity_and_obligation_collateral program_id n accounts) (λ _, True).
Proof.
  intros Hn Ha. unfold process_deposit_reserve_liquidity_and_obligation_collateral. repeat keeps_step.
Qed.

Lemma keeps_withdraw_obligation_collateral_inner n i1 i2 i3 i4 i5 i6 i7 clock i8 :
  is_u64 n →
  keeps (_withdraw_obligation_collateral program_id n i1 i2 i3 i4 i5 i6 i7 clock i8) (λ a, is_u64 a).
Proof.
  intros Hn. unfold _withdraw_obligation_collateral. repeat keeps_step.
  match goal with
  | Hr : Reserve_valid _, Ho : Obligation_ok ?o,
    Hf : Obligation.find_collateral_in_deposits ?o _ = Ok _, Hw : withdraw_obligation_amount ?o _ _ _ = Ok ?a |- _ =>
      assert (Ha : is_u64 a) by
        (apply find_collateral_Ok in Hf as [Hf _];
         eapply withdraw_amount_u64; [exact Ho| |exact Hn| |exact Hw]; [apply Hr|];
         exact (Forall_lookup_1 _ _ _ _ (ok_o_deposits _ Ho) Hf))
  end.
  eapply keeps_bind; [keeps_by keeps_pack_obligation; apply obligation_mark_stale_ok;
    by eapply obligation_withdraw_ok; [|apply Ha|eassumption]|intros _ _].
  repeat keeps_step. by keeps_by keeps_ret.
Qed.
#[local] Hint Resolve keeps_withdraw_obligation_collateral_inner : keeps.

Lemma keeps_withdraw_obligation_collateral n accounts :
  is_u64 n → Forall info_ok accounts →
  keeps (process_withdraw_obligation_collateral program_id n accounts) (λ _, True).
Proof. intros Hn Ha. unfold process_withdraw_obligation_collateral. repeat keeps_step. Qed.

Lemma keeps_withdraw_and_redeem n accounts :
  is_u64 n → Forall info_ok accounts →
  keeps (process_withdraw_obligation_collateral_and_redeem_reserve_liquidity program_id n accounts)
    (λ _, True).
Proof.
  intros Hn Ha. unfold process_withdraw_obligation_collateral_and_redeem_reserve_liquidity.
  repeat keeps_step.
Qed.

(** ** Loans *)

Lemma keeps_pay_owner_fee n i1 i2 i3 seeds tp : keeps (pay_owner_fee n i1 i2 i3 seeds tp) (λ _, True).
Proof. unfold pay_owner_fee. apply keeps_if; repeat keeps_step. Qed.

Lemma keeps_pay_host_fee n h i1 i2 i3 seeds tp : keeps (pay_host_fee n h i1 i2 i3 seeds tp) (λ _, True).
Proof. unfold pay_host_fee. apply keeps_if; repeat keeps_step. Qed.
#[local] Hint Resolve keeps_pay_owner_fee keeps_pay_host_fee : keeps.

Lemma keeps_borrow_obligation_liquidity n accounts :
  is_u64 n → Forall info_ok accounts →
  keeps (process_borrow_obligation_liquidity program_id n accounts) (λ _, True).
Proof.
  intros Hn Ha. unfold process_borrow_obligation_liquidity. repeat keeps_step.
  match goal with
  | Hr : Reserve_valid ?r, Ho : Obligation_ok ?o, Hrem : Obligation.remaining_borrow_value ?o = Ok _,
    Hcap : remaining_reserve_capacity ?r = Ok _, Hc : Reserve.calculate_borrow ?r _ _ _ = Ok ?res,
    Hl : ReserveLiquidity.borrow _ _ = Ok _ |- _ =>
      assert (Hb : 0 ≤ dec (cb_borrow_amount res)) by (exact (borrow_amount_nonneg r o n _ _ res Hr Ho Hn Hrem Hcap Hc));
      apply liquidity_borrow_ok in Hl; [|apply Hr|done];
      pose proof (reserve_valid_stale _ (reserve_valid_liquidity _ _ Hr Hl))
  end.
  eapply keeps_bind; [by keeps_by keeps_pack_reserve|intros _ _]. repeat keeps_step.
  eapply keeps_bind; [keeps_by keeps_pack_obligation; apply obligation_mark_stale_ok|intros _ _].
  { match goal with Hr : Reserve_valid _, Ho : Obligation_ok _ |- _ =>
      eapply borrow_liquidity_ok; [exact Ho| | |exact Hb|eassumption]; [done|apply Hr] end. }
  eapply keeps_bind with (Φ := λ _, True); [|intros; repeat keeps_step].
  destruct (next_account_info _) as [[? ?]| |]; repeat keeps_step.
Qed.

Lemma keeps_repay_obligation_liquidity n accounts :
  is_u64 n → Forall info_ok accounts →
  keeps (process_repay_obligation_liquidity program_id n accounts) (λ _, True).
Proof.
  intros Hn Ha. unfold process_repay_obligation_liquidity. repeat keeps_step.
  match goal with
  | Hr : Reserve_valid ?r, Ho : Obligation_ok ?o,
    Hf : Obligation.find_liquidity_in_borrows ?o _ = Ok (?l, ?i),
    Hi : ObligationLiquidity.accrue_interest ?l _ = Ok ?l', Hc : Reserve.calculate_repay ?r _ _ = Ok ?res,
    Hl : ReserveLiquidity.repay _ _ _ = Ok _ |- _ =>
      pose proof Hr as [Hrok _]; apply find_liquidity_Ok in Hf as [Hf _];
      pose proof (accrue_entry_ok o i l _ l' Ho (ok_rl_cumulative _ (ok_r_liquidity r Hrok)) Hf Hi) as Ho';
      assert (Hl'ok : 0 ≤ dec (ol_borrowed_amount_wads l'))
        by (eapply accrued_debt_nonneg, Hi; [exact (Forall_lookup_1 _ _ _ _ (ok_o_borrows o Ho) Hf)
             |apply Hrok]);
      destruct (repay_amounts_nonneg r n _ res (proj1 Hn) Hl'ok Hc) as [Hs Hp];
      apply liquidity_repay_ok in Hl; [|apply Hrok|done|done];
      pose proof (reserve_valid_stale _ (reserve_valid_liquidity _ _ Hr Hl))
  end.
  eapply keeps_bind; [by keeps_by keeps_pack_reserve|intros _ _]. repeat keeps_step.
  eapply keeps_bind; [keeps_by keeps_pack_obligation; apply obligation_mark_stale_ok|intros _ _];
    [|repeat keeps_step].
  by eapply obligation_repay_ok; [exact Ho'|exact Hs|eassumption].
Qed.

Lemma keeps_liquidate_obligation_inner n i1 i2 i3 i4 i5 i6 i7 i8 i9 i10 clock i11 :
  is_u64 n →
  keeps (_liquidate_obligation program_id n i1 i2 i3 i4 i5 i6 i7 i8 i9 i10 clock i11) (λ a, is_u64 a).
Proof.
  intros Hn. unfold _liquidate_obligation. repeat keeps_step.
  match goal with
  | Hr : Reserve_valid ?r, Hr' : Reserve_valid ?r', Ho : Obligation_ok ?o,
    Hf : Obligation.find_liquidity_in_borrows ?o _ = Ok _,
    Hg : Obligation.find_collateral_in_deposits ?o _ = Ok _,
    Hc : Liquidation.calculate_liquidation ?r' _ _ _ _ = Ok ?res,
    Hl : ReserveLiquidity.repay (r_liquidity ?r) _ _ = Ok _ |- _ =>
      destruct (liquidation_amounts_nonneg r' n o _ _ _ _ _ _ res (proj1 Hr') Hn Ho Hf Hg Hc)
        as (Hs & Hp & Hw);
      apply liquidity_repay_ok in Hl; [|apply Hr|done|done];
      pose proof (reserve_valid_stale _ (reserve_valid_liquidity _ _ Hr Hl))
  end.
  eapply keeps_bind; [by keeps_by keeps_pack_reserve|intros _ _]. repeat keeps_step.
  eapply keeps_bind; [keeps_by keeps_pack_obligation; apply obligation_mark_stale_ok|intros _ _].
  { eapply obligation_withdraw_ok; [|apply Hw|eassumption].
    by eapply obligation_repay_ok; [|exact Hs|eassumption]. }
  repeat keeps_step. by keeps_by keeps_ret.
Qed.
#[local] Hint Resolve keeps_liquidate_obligation_inner : keeps.

Lemma keeps_liquidate_obligation n accounts :
  is_u64 n → Forall info_ok accounts →
  keeps (process_liquidate_obligation program_id n accounts) (λ _, True).
Proof. intros Hn Ha. unfold process_liquidate_obligation. repeat keeps_step. Qed.

Lemma keeps_liquidate_and_redeem n accounts :
  is_u64 n → Forall info_ok accounts →
  keeps (process_liquidate_obligation_and_redeem_reserve_collateral program_id n accounts) (λ _, True).
Proof.
  intros Hn Ha. unfold process_liquidate_obligation_and_redeem_reserve_collateral. repeat keeps_step.
Qed.

Lemma keeps_token_balance info : keeps (token_balance info) (λ _, True).
Proof. unfold token_balance. repeat keeps_step. Qed.
#[local] Hint Resolve keeps_token_balance : keeps.

Lemma keeps_flash_loan n accounts :
  is_u64 n → Forall info_ok accounts →
  keeps (process_flash_loan program_id n accounts) (λ _, True).
Proof.
  intros Hn Ha. unfold process_flash_loan. repeat keeps_step.
  match goal with
  | Hr : Reserve_valid ?r, Hl : ReserveLiquidity.borrow _ (Decimal.from_u64 ?a) = Ok _ |- _ =>
      assert (Hamt : 0 ≤ a) by
        (destruct (n =? u64_MAX); [apply (ok_rl_available _ (ok_r_liquidity r (proj1 Hr)))|apply Hn]);
      assert (Hd : 0 ≤ dec (Decimal.from_u64 a))
        by (cbn [dec Decimal.from_u64]; change Decimal.wad with WAD; unfold WAD; lia);
      apply liquidity_borrow_ok in Hl; [|apply Hr|done];
      pose proof (reserve_valid_liquidity _ _ Hr Hl)
  end.
  eapply keeps_bind; [by keeps_by keeps_pack_reserve|intros _ _]. keeps_step.
  eapply keeps_bind; [keeps_by keeps_invoke|intros _ _].
  { cbn [flash_loan_instruction ix_program_id]. bool_to_prop. by apply not_eq_sym. }
  eapply (keeps_update_reserve program_id _ (λ r, ReserveLiquidity.repay (r_liquidity r) _ _)
            Reserve.with_liquidity); [|repeat keeps_step].
  intros r l Hr Hl. split; [|done]. apply with_liquidity_ok; [done|].
  by eapply liquidity_repay_ok; [apply Hr|exact Hamt|exact Hd|exact Hl].
Qed.

(** ** Dispatch *)

Lemma keeps_run_instruction i accounts :
  LendingInstruction_ok i → Forall info_ok accounts →
  keeps (run_instruction program_id i accounts) (λ _, True).
Proof.
  intros Hi Ha. destruct i; cbn [run_instruction LendingInstruction_ok] in *;
    repeat match goal with H : _ ∧ _ |- _ => destruct H end.
  - by apply keeps_init_lending_market.
  - by apply keeps_set_lending_market_owner.
  - by apply keeps_init_reserve.
  - by apply keeps_refresh_reserve_handler.
  - by apply keeps_deposit_reserve_liquidity.
  - by apply keeps_redeem_reserve_collateral.
  - by apply keeps_init_obligation.
  - by apply keeps_refresh_obligation.
  - by apply keeps_deposit_obligation_collateral.
  - by apply keeps_withdraw_obligation_collateral.
  - by apply keeps_borrow_obligation_liquidity.
  - by apply keeps_repay_obligation_liquidity.
  - by apply keeps_liquidate_obligation.
  - by apply keeps_flash_loan.
  - by apply keeps_deposit_reserve_and_obligation.
  - by apply keeps_withdraw_and_redeem.
  - by apply keeps_update_reserve_config.
  - by apply keeps_liquidate_and_redeem.
  - by apply keeps_redeem_fees.
Qed.

End safety.
