(* ===== verification/RefreshSafety.v ===== *)
(** * Refreshing an obligation

    What [process_refresh_obligation] establishes: the entries, the values and
    the caps that the borrowing, withdrawal and liquidation handlers rely on. *)

From S2P Require Import Prelude Errors FixedPoint StateBase LendingMarket Reserve.
From S2P Require Import ReserveFacts LoanFacts Obligation ObligationFacts Codec CodecFacts Solana Oracle.
From S2P Require Import ProcessorBase ProcessorFacts ProcessorInvariant ProcessorReserve.
From S2P Require Import ProcessorObligation RefreshFacts HandlerFacts ProcessorSafety Testbed TestbedFacts.

Section refresh.
Context `{S : Sdk} (program_id : Pubkey) `{L : !SdkLaws program_id}.
Implicit Types (w : World) (clock : Clock).

(** The value of the deposits under one of the two percentages. *)
Definition weighted (pct : ReserveConfig → Z) (ds : list ObligationCollateral) (rs : list Reserve) : Z :=
  sum_Z (zip_with (λ c r, percent_of (oc_market_value c) (pct (r_config r))) ds rs).

(** The borrows allowed by the deposits stay below the liquidation threshold,
    because every validated configuration lends less than it liquidates at. *)
Lemma weighted_le clock w ds rs ds' :
  World_ok program_id w → Forall ObligationCollateral_ok ds →
  Forall3 (deposit_refreshed program_id w clock) ds rs ds' →
  weighted loan_to_value_ratio ds' rs ≤ weighted liquidation_threshold ds' rs.
Proof.
  intros Hw Hds Hf. unfold weighted. induction Hf as [|c r c' ds rs ds' Hc Hf IH]; [done|].
  apply Forall_cons in Hds as [H1 H2].
  destruct (deposit_refreshed_ok program_id _ _ _ _ _ Hw Hc H1) as (Hc' & _ & [_ Hv]).
  cbn [zip_with]. rewrite !sum_Z_cons. apply Z.add_le_mono; [|by apply IH].
  apply percent_of_mono; [apply (ok_oc_market_value c' Hc')|].
  apply validate_reserve_config_Ok in Hv. lia.
Qed.

(** The entries and values of a refreshed obligation *)
Record refreshed w clock (o o' : Obligation) : Prop := {
  rf_owner : o_owner o' = o_owner o;
  rf_market : o_lending_market o' = o_lending_market o;
  rf_fresh : fresh (o_last_update o') clock;
  rf_values : ∃ rs qs cap,
    Forall3 (deposit_refreshed program_id w clock) (o_deposits o) rs (o_deposits o') ∧
    Forall3 (borrow_refreshed program_id w clock) (o_borrows o) qs (o_borrows o') ∧
    global_unhealthy_borrow_value clock = Ok cap ∧
    dec (o_deposited_value o') = sum_Z (dec ∘ oc_market_value <$> o_deposits o') ∧
    dec (o_borrowed_value o') = sum_Z (dec ∘ ol_market_value <$> o_borrows o') ∧
    dec (o_allowed_borrow_value o')
      = Z.min (weighted loan_to_value_ratio (o_deposits o') rs) (dec cap - WAD * 5000000) ∧
    dec (o_unhealthy_borrow_value o')
      = Z.min (weighted liquidation_threshold (o_deposits o') rs) (dec cap);
}.

(** The capped values are decimals. *)
Lemma capped_ok clock cap allowed v u :
  global_unhealthy_borrow_value clock = Ok cap → global_allowed_borrow_value cap = Ok allowed →
  Decimal_ok v → Decimal_ok u →
  allowed = mkDecimal (dec cap - WAD * 5000000) ∧
  Decimal_ok (Decimal.min v allowed) ∧ Decimal_ok (Decimal.min u cap).
Proof.
  intros [Hc1 Hc2]%global_unhealthy_borrow_value_Ok [-> ?]%Decimal_sub_Ok Hv Hu.
  unfold Decimal.from_u64 in *. cbn [dec] in *. change Decimal.wad with WAD in *. unfold WAD in *.
  split; [done|].
  split; apply Decimal_min_ok; try done; split; cbn [dec]; lia.
Qed.

(** The record that a refresh packs *)
Definition refreshed_record clock (o : Obligation) (ds : list ObligationCollateral)
    (sums : DepositValues) (bs : list ObligationLiquidity) (borrowed allowed cap : Decimal) :
    Obligation :=
  Obligation.update_slot
    (Obligation.with_values (Obligation.with_entries o ds bs) (dv_deposited sums) borrowed
       (Decimal.min (dv_allowed sums) allowed) (Decimal.min (dv_unhealthy sums) cap))
    (clock_slot clock).

(** The runs of the two loops in a successful refresh *)
Lemma refresh_obligation_run accounts w u w' :
  process_refresh_obligation program_id accounts w = Ok (u, w') →
  ∃ info clock_info rest clock o ds sums rest1 bs borrowed rest2 cap allowed,
    accounts = info :: clock_info :: rest ∧ clock_at w clock_info clock ∧
    holds program_id Obligation w (key info) o ∧
    refresh_deposits program_id clock (o_deposits o)
      (mkDepositValues Decimal.zero Decimal.zero Decimal.zero) rest w = Ok ((ds, sums, rest1), w) ∧
    refresh_borrows program_id clock (o_borrows o) Decimal.zero rest1 w
      = Ok ((bs, borrowed, rest2), w) ∧
    global_unhealthy_borrow_value clock = Ok cap ∧ global_allowed_borrow_value cap = Ok allowed ∧
    pack (refreshed_record clock o ds sums bs borrowed allowed cap) info w = Ok (u, w').
Proof.
  intros H. unfold process_refresh_obligation in H. inv_handler.
  match goal with
  | H1 : refresh_deposits _ _ _ _ _ _ = Ok _, H2 : refresh_borrows _ _ _ _ _ _ = Ok _ |- _ =>
      pose proof (proj1 (refresh_deposits_Ok program_id _ _ _ _ _ _ _ _ _ H1));
      pose proof (proj1 (refresh_borrows_Ok program_id _ _ _ _ _ _ _ _ _ H2)); subst
  end.
  do 13 eexists. split_and!; try reflexivity; eassumption.
Qed.

Lemma refreshed_record_ok w clock o ds sums rest rest1 bs borrowed rest2 cap allowed :
  World_ok program_id w → is_u64 (clock_slot clock) → Obligation_ok o →
  refresh_deposits program_id clock (o_deposits o)
    (mkDepositValues Decimal.zero Decimal.zero Decimal.zero) rest w = Ok ((ds, sums, rest1), w) →
  refresh_borrows program_id clock (o_borrows o) Decimal.zero rest1 w = Ok ((bs, borrowed, rest2), w) →
  global_unhealthy_borrow_value clock = Ok cap → global_allowed_borrow_value cap = Ok allowed →
  allowed = mkDecimal (dec cap - WAD * 5000000) ∧
  Obligation_ok (refreshed_record clock o ds sums bs borrowed allowed cap).
Proof.
  intros Hw Hslot Hok H1 H2 Hcap Hall.
  destruct (keeps_refresh_deposits program_id clock _ _ (ok_o_deposits o Hok) _ _ _ Hw H1)
    as [_ (? & ? & ? & ? & ?)].
  destruct (keeps_refresh_borrows program_id clock _ _ (ok_o_borrows o Hok) _ _ _ Hw H2)
    as [_ (? & ? & ?)].
  destruct (capped_ok clock cap allowed (dv_allowed sums) (dv_unhealthy sums)) as (Eall & ? & ?); [done..|].
  split; [done|]. by apply obligation_refreshed_ok.
Qed.

Lemma refresh_obligation_Ok accounts w u w' :
  World_ok program_id w → process_refresh_obligation program_id accounts w = Ok (u, w') →
  ∃ info clock_info rest clock o o',
    accounts = info :: clock_info :: rest ∧ clock_at w clock_info clock ∧
    holds program_id Obligation w (key info) o ∧ refreshed w clock o o' ∧
    Obligation_ok o' ∧ is_initialized o' = true ∧ pack o' info w = Ok (u, w').
Proof.
  intros Hw (info & ci & rest & clock & o & ds & sums & rest1 & bs & borrowed & rest2 & cap & allowed & -> &
    Hclock & Ho & H1 & H2 & Hcap & Hall & H)%refresh_obligation_run.
  destruct (refreshed_record_ok w clock o ds sums rest rest1 bs borrowed rest2 cap allowed) as [Eall Hok'];
    [done|by eapply clock_at_u64|by eapply holds_obligation_ok|done..|].
  apply (refresh_deposits_Ok program_id) in H1 as (_ & rs & Hds & Hd & Ha & Hu & _).
  apply (refresh_borrows_Ok program_id) in H2 as (_ & qs & Hbs & Hb & _).
  eexists info, ci, rest, clock, o, _. split; [done|]. split; [done|]. split; [done|].
  split; [|split; [exact Hok'|split; [apply Ho|exact H]]].
  split; [done|done|apply update_slot_fresh|]. exists rs, qs, cap. cbn in *.
  rewrite !Decimal_min_dec, Eall, Hd, Ha, Hu, Hb. by split_and!.
Qed.

(** Allowed at most unhealthy, and both within their caps *)
Lemma refreshed_caps w clock o o' :
  World_ok program_id w → Obligation_ok o → refreshed w clock o o' →
  dec (o_allowed_borrow_value o') ≤ dec (o_unhealthy_borrow_value o') ∧
  dec (o_allowed_borrow_value o') ≤ WAD * 115000000 ∧
  dec (o_unhealthy_borrow_value o') ≤ WAD * 120000000.
Proof.
  intros Hw Ho [_ _ _ (rs & qs & cap & Hds & _ & Hcap & _ & _ & Ha & Hu)].
  pose proof (weighted_le clock w _ _ _ Hw (ok_o_deposits o Ho) Hds).
  apply global_unhealthy_borrow_value_Ok in Hcap. cbn [dec Decimal.from_u64] in Hcap.
  change Decimal.wad with WAD in Hcap. unfold WAD in *. lia.
Qed.

End refresh.

(** ** Properties *)

(** C6: a successful refresh of an obligation rewrites that one account and
    nothing else.  Each deposit is valued from its own reserve, an account of the
    program refreshed in this very slot, and each borrow first accrues that
    reserve's interest; deposited and borrowed value are the sums of the entries;
    the allowed and the unhealthy borrow value are the sums weighted by each
    reserve's loan-to-value ratio and liquidation threshold, capped by the
    global limit; and what may be borrowed never exceeds the value at which the
    obligation becomes liquidatable. *)
Theorem refresh_obligation_values `{S : Sdk} (program_id : Pubkey) `{L : !SdkLaws program_id}
    (accounts : list AccountInfo) (w w' : World) (u : unit) (Hw : World_ok program_id w)
    (H : process_refresh_obligation program_id accounts w = Ok (u, w')) :
  ∃ info clock_info rest clock o o',
    accounts = info :: clock_info :: rest ∧ clock_at w clock_info clock ∧
    holds program_id Obligation w (key info) o ∧ holds program_id Obligation w' (key info) o' ∧
    only_changes program_id w (key info) w' ∧ refreshed program_id w clock o o' ∧
    dec (o_allowed_borrow_value o') ≤ dec (o_unhealthy_borrow_value o') ∧
    dec (o_allowed_borrow_value o') ≤ WAD * 115000000 ∧
    dec (o_unhealthy_borrow_value o') ≤ WAD * 120000000.
Proof.
  apply (refresh_obligation_Ok program_id) in H
    as (info & ci & rest & clock & o & o' & -> & Hc & Ho & Hr & Hok' & Hi & Hp); [|done].
  pose proof (holds_obligation_ok program_id _ _ _ Hw Ho) as Hok.
  destruct (pack_obligation_holds program_id o' info w u w' Hok' Hi Hw (proj1 Ho) Hp) as [Hh Hc'].
  exists info, ci, rest, clock, o, o'. split_and!; try done;
    by apply (refreshed_caps program_id w clock o o').
Qed.

#[local] Existing Instance test_sdk.

Definition refresh_accounts : list AccountInfo :=
  [account 50; account test_clock_id; account 31; account 32; account 33].

Lemma refresh_obligation_values_witness :
  ∃ o', holds solend_program_id Obligation
          (world_after (process_refresh_obligation solend_program_id refresh_accounts ledger)) 50 o' ∧
    dec (o_allowed_borrow_value o') ≤ dec (o_unhealthy_borrow_value o').
Proof.
  destruct (refresh_obligation_values solend_program_id refresh_accounts ledger
              (world_after (process_refresh_obligation solend_program_id refresh_accounts ledger)) tt)
    as (info & ci & rest & clock & o & o' & Ea & _ & _ & Ho' & _ & _ & Hle & _).
  - apply ledger_ok.
  - vm_compute. reflexivity.
  - exists o'. injection Ea as <- _ _. split; [exact Ho'|exact Hle].
Defined.
