(* ===== verification/LoanSafety.v ===== *)
(** * Borrowing

    What a successful borrow established before it paid, what it booked on the
    reserve and on the obligation, and which tokens it moved; and the relations
    between worlds ([moved], [paid], [booked]) that the other loan handlers
    share. *)

From S2P Require Import Prelude Errors FixedPoint StateBase LendingMarket Reserve.
From S2P Require Import ReserveFacts LoanFacts Obligation ObligationFacts Codec CodecFacts Solana Oracle.
From S2P Require Import ProcessorBase ProcessorFacts ProcessorInvariant ProcessorReserve.
From S2P Require Import ProcessorObligation RefreshFacts HandlerFacts ProcessorLoan ProcessorSafety.
From S2P Require Import Testbed TestbedFacts.

Section loans.
Context `{S : Sdk} (program_id : Pubkey) `{L : !SdkLaws program_id}.
Implicit Types (w : World) (k : Pubkey) (info : AccountInfo) (clock : Clock).

(** ** Token movements *)

(** The calls of the token program between two worlds, in order, each with the
    seeds that signed it *)
Definition paid w w' (cs : list (TokenCall * Seeds)) : Prop :=
  ∃ invs, inner w' = inner w ++ invs ∧
    Forall2 (λ c inv, token_instruction c.1 = Ok (inv_instruction inv) ∧
                      inv_seeds inv = if decide (c.2 = []) then [] else [c.2]) cs invs.

(** Nothing else happened. *)
Definition moved w w' (cs : list (TokenCall * Seeds)) : Prop :=
  cpi_frame program_id w w' ∧ paid w w' cs.

Lemma paid_nil w w' : inner w' = inner w → paid w w' [].
Proof. intros E. exists []. by rewrite E, app_nil_r. Qed.

Lemma paid_app w1 w2 w3 cs ds : paid w1 w2 cs → paid w2 w3 ds → paid w1 w3 (cs ++ ds).
Proof.
  intros (i1 & E1 & H1) (i2 & E2 & H2). exists (i1 ++ i2).
  rewrite E2, E1, (assoc_L (++)). split; [done|]. by apply Forall2_app.
Qed.

Lemma moved_nil w : moved w w [].
Proof. split; [apply (cpi_frame_refl program_id)|by apply paid_nil]. Qed.

Lemma moved_app w1 w2 w3 cs ds : moved w1 w2 cs → moved w2 w3 ds → moved w1 w3 (cs ++ ds).
Proof. intros [F1 P1] [F2 P2]. split; [by eapply (cpi_frame_trans program_id)|by eapply paid_app]. Qed.

Lemma token_step_moved call seeds w w' : token_step program_id call seeds w w' → moved w w' [(call, seeds)].
Proof. intros [Hf (ix & Hix & E)]. split; [done|]. eexists. split; [done|]. by repeat constructor. Qed.

Lemma moved_reserve w w' cs k (r : Reserve) :
  moved w w' cs → holds program_id Reserve w k r → holds program_id Reserve w' k r.
Proof. intros [Hf _]. by apply frame_reserve. Qed.

Lemma moved_obligation w w' cs k (o : Obligation) :
  moved w w' cs → holds program_id Obligation w k o → holds program_id Obligation w' k o.
Proof. intros [Hf _]. by apply frame_obligation. Qed.

(** Payments out of one account, under one authority *)
Definition payments (tp src auth : AccountInfo) (seeds : Seeds) (ps : list (Pubkey * Z)) :
    list (TokenCall * Seeds) :=
  (λ p, (transfer (key tp) (key src) p.1 (key auth) [] p.2, seeds)) <$> ps.

Lemma transfer_moved src dst n auth seeds tp w u w' :
  spl_token_transfer src dst n auth seeds tp w = Ok (u, w') →
  moved w w' (payments tp src auth seeds [(key dst, n)]).
Proof. intros Ht. by eapply token_step_moved, (spl_token_transfer_Ok program_id). Qed.

Lemma pay_owner_fee_Ok fee src dst auth seeds tp w u w' :
  0 ≤ fee → pay_owner_fee fee src dst auth seeds tp w = Ok (u, w') →
  ∃ ps, moved w w' (payments tp src auth seeds ps) ∧ sum_Z (snd <$> ps) = fee ∧
    Forall (λ p, p.1 = key dst) ps.
Proof.
  intros Hf. unfold pay_owner_fee. destruct (fee >? 0) eqn:E.
  - intros Ht%transfer_moved. eexists. split; [exact Ht|]. split; [cbn; lia|by repeat constructor].
  - intros [-> ->]%M_ret_Ok. exists []. split; [apply moved_nil|]. split; [cbn; lia|constructor].
Qed.

Lemma pay_host_fee_Ok fee host src dst auth seeds tp w owner_fee w' :
  0 ≤ host → pay_host_fee fee host src dst auth seeds tp w = Ok (owner_fee, w') →
  ∃ ps, moved w w' (payments tp src auth seeds ps) ∧ sum_Z (snd <$> ps) = host ∧
    owner_fee = fee - host ∧ (host ≤ fee ∨ host = 0) ∧ Forall (λ p, p.1 = key dst) ps.
Proof.
  intros Hh. unfold pay_host_fee. destruct (host >? 0) eqn:E.
  - intros H. apply M_bind_Ok in H as (n & w1 & H1 & H). apply lift_Ok in H1 as [H1 ->].
    apply ok_or_overflow_Ok, checked_sub_Some in H1 as [-> ?].
    apply M_bind_Ok in H as (u & w1 & Ht%transfer_moved & H). apply M_ret_Ok in H as [-> ->].
    eexists. split; [exact Ht|]. split; [cbn; lia|]. split; [done|]. split; [by left|by repeat constructor].
  - intros [-> ->]%M_ret_Ok. exists []. split; [apply moved_nil|].
    split; [cbn; lia|]. split; [lia|]. split; [right; lia|constructor].
Qed.

(** The payments that end a borrow: the fee, split among host and receiver, then
    the loan. *)
Lemma borrow_payout_Ok iter fee host receive src fr dst auth seeds tp w w1 w2 w' owner_fee u1 u :
  0 ≤ host ≤ fee →
  (match next_account_info iter with
   | Ok (host_info, _) => pay_host_fee fee host src host_info auth seeds tp
   | Err _ => mret fee
   | Panic => lift Panic
   end) w = Ok (owner_fee, w1) →
  pay_owner_fee owner_fee src fr auth seeds tp w1 = Ok (u1, w2) →
  spl_token_transfer src dst receive auth seeds tp w2 = Ok (u, w') →
  ∃ ps, moved w w' (payments tp src auth seeds (ps ++ [(key dst, receive)])) ∧
    sum_Z (snd <$> ps) = fee.
Proof.
  intros Hh H1 H2 H3%transfer_moved.
  assert (Hhost : ∃ ps, moved w w1 (payments tp src auth seeds ps) ∧
            sum_Z (snd <$> ps) = fee - owner_fee ∧ 0 ≤ owner_fee).
  { destruct (next_account_info iter) as [[hi rest]| |]; [| |done].
    - apply pay_host_fee_Ok in H1 as (ps & ? & ? & -> & ? & _); [|lia]. exists ps. split_and!; [done|lia|lia].
    - apply M_ret_Ok in H1 as [-> ->]. exists []. split_and!; [apply moved_nil|cbn; lia|lia]. }
  destruct Hhost as (ps & Hps & Hsum & Ho). apply pay_owner_fee_Ok in H2 as (qs & Hqs & Hsum' & _); [|done].
  exists (ps ++ qs). split.
  - unfold payments in *. rewrite !fmap_app.
    eapply moved_app; [by eapply moved_app|exact H3].
  - rewrite fmap_app, sum_Z_app. lia.
Qed.

(** ** Booking

    A reserve and an obligation are written, then tokens move: both records are
    there at the end. *)
Lemma booked r r1 ri o o1 oi w w1 w2 w' cs :
  World_ok program_id w → holds program_id Reserve w (key ri) r →
  holds program_id Obligation w (key oi) o →
  Reserve_valid r1 → is_initialized r1 = is_initialized r → Obligation_ok o1 →
  is_initialized o1 = is_initialized o →
  pack r1 ri w = Ok (tt, w1) → pack o1 oi w1 = Ok (tt, w2) → moved w2 w' cs →
  holds program_id Reserve w' (key ri) r1 ∧ holds program_id Obligation w' (key oi) o1 ∧
  paid w w' cs.
Proof.
  intros Hw Hr Ho Hrv Hri Hov Hoi Hp1 Hp2 Hm.
  pose proof (holds_distinct program_id _ _ _ _ _ Hr Ho) as Hne.
  destruct (pack_reserve_holds program_id r1 ri w tt w1 (proj1 Hrv)) as [Hr1 Hc1];
    [rewrite Hri; apply Hr|done|apply Hr|done|].
  destruct (keeps_pack_reserve program_id _ ri Hrv w tt w1 Hw Hp1) as [Hw1 _].
  assert (Ho' : holds program_id Obligation w1 (key oi) o).
  { by apply (only_changes_holds program_id Obligation w (key ri) w1 (key oi) o Hc1 (not_eq_sym Hne)). }
  destruct (pack_obligation_holds program_id o1 oi w1 tt w2 Hov) as [Ho2 Hc2];
    [rewrite Hoi; apply Ho|done|apply Ho'|done|].
  assert (Hr2 : holds program_id Reserve w2 (key ri) r1).
  { by apply (only_changes_holds program_id Reserve w1 (key oi) w2 (key ri) _ Hc2 Hne). }
  split; [by eapply moved_reserve|]. split; [by eapply moved_obligation|].
  destruct Hm as [_ (invs & E & HF)]. exists invs. split; [|done].
  by rewrite E, (proj1 Hc2), (proj1 Hc1).
Qed.

(** ** Borrowing *)

(** The guards and the computations of a borrow that succeeded *)
Lemma borrow_handler_Ok n accounts w u w' :
  process_borrow_obligation_liquidity program_id n accounts w = Ok (u, w') →
  ∃ src dst ri fi oi mi ai wi ci tp rest clock m r o rem cap res l o1 w1 w2 w3 w4 owner_fee u1,
    accounts = src :: dst :: ri :: fi :: oi :: mi :: ai :: wi :: ci :: tp :: rest ∧
    clock_at w ci clock ∧ stored LendingMarket w (key mi) m ∧
    holds program_id Reserve w (key ri) r ∧ fresh (r_last_update r) clock ∧
    r_lending_market r = key mi ∧ rl_supply_pubkey (r_liquidity r) = key src ∧
    check_borrow_limit r n = Ok tt ∧
    holds program_id Obligation w (key oi) o ∧ fresh (o_last_update o) clock ∧
    o_lending_market o = key mi ∧ o_owner o = key wi ∧ is_signer wi = true ∧
    o_deposits o ≠ [] ∧
    Obligation.remaining_borrow_value o = Ok rem ∧ remaining_reserve_capacity r = Ok cap ∧
    Reserve.calculate_borrow r n rem cap = Ok res ∧
    ReserveLiquidity.borrow (r_liquidity r) (cb_borrow_amount res) = Ok l ∧
    pack (Reserve.mark_stale (Reserve.with_liquidity r l)) ri w = Ok (tt, w1) ∧
    Obligation.borrow_liquidity o (key ri) (rl_cumulative_borrow_rate_wads (r_liquidity r))
      (cb_borrow_amount res) = Ok o1 ∧
    pack (Obligation.mark_stale o1) oi w1 = Ok (tt, w2) ∧
    (match next_account_info rest with
     | Ok (hi, _) => pay_host_fee (cb_borrow_fee res) (cb_host_fee res) src hi ai (authority_seeds m mi) tp
     | Err _ => mret (cb_borrow_fee res)
     | Panic => lift Panic
     end) w2 = Ok (owner_fee, w3) ∧
    pay_owner_fee owner_fee src fi ai (authority_seeds m mi) tp w3 = Ok (u1, w4) ∧
    spl_token_transfer src dst (cb_receive_amount res) ai (authority_seeds m mi) tp w4 = Ok (u, w').
Proof.
  unfold process_borrow_obligation_liquidity. intros H. inv_handler. solve_found.
Qed.

Lemma borrow_liquidity_fields o k rate d o' :
  Obligation.borrow_liquidity o k rate d = Ok o' →
  o_owner o' = o_owner o ∧ is_initialized o' = is_initialized o.
Proof. by intros [(?&?&?&?&?&->)|(?&?&?&->)]%borrow_liquidity_Ok. Qed.

(** What a borrow of [b] wads changed: the debt on the reserve and on the
    obligation, and the reserve's available tokens; both need a refresh. *)
Record borrow_booked w' (ri oi : Pubkey) (r : Reserve) (o : Obligation) (b : Z) : Prop := {
  bb_reserve : ∃ r', holds program_id Reserve w' ri r' ∧ stale (r_last_update r') = true ∧
    dec (rl_borrowed_amount_wads (r_liquidity r')) = dec (rl_borrowed_amount_wads (r_liquidity r)) + b ∧
    rl_available_amount (r_liquidity r') = rl_available_amount (r_liquidity r) - b / WAD ∧
    r_config r' = r_config r;
  bb_obligation : ∃ o', holds program_id Obligation w' oi o' ∧ stale (o_last_update o') = true ∧
    o_owner o' = o_owner o ∧
    borrows_map o' = map_add ri b (borrows_map o) ∧ deposits_map o' = deposits_map o;
}.

Lemma borrow_packs_Ok r l ri o o1 oi rate d w w1 w2 w' cs :
  World_ok program_id w → holds program_id Reserve w (key ri) r →
  holds program_id Obligation w (key oi) o → 0 ≤ dec d → is_key (key ri) → Decimal_ok rate →
  ReserveLiquidity.borrow (r_liquidity r) d = Ok l →
  pack (Reserve.mark_stale (Reserve.with_liquidity r l)) ri w = Ok (tt, w1) →
  Obligation.borrow_liquidity o (key ri) rate d = Ok o1 →
  pack (Obligation.mark_stale o1) oi w1 = Ok (tt, w2) →
  moved w2 w' cs → borrow_booked w' (key ri) (key oi) r o (dec d) ∧ paid w w' cs.
Proof.
  intros Hw Hr Ho Hd Hk Hrate Hl Hp1 Ho1 Hp2 Hm.
  pose proof (holds_reserve_valid program_id _ _ _ Hw Hr) as Hrv.
  pose proof (holds_obligation_ok program_id _ _ _ Hw Ho) as Hov.
  pose proof (liquidity_borrow_ok _ _ _ (ok_r_liquidity r (proj1 Hrv)) Hd Hl) as Hlok.
  pose proof (borrow_liquidity_ok _ _ _ _ _ Hov Hk Hrate Hd Ho1) as Hov1.
  destruct (borrow_liquidity_fields _ _ _ _ _ Ho1) as [Eown Einit].
  destruct (borrow_liquidity_map _ _ _ _ _ Hov Ho1) as [Ebm Edm].
  destruct (booked r _ ri o _ oi w w1 w2 w' cs Hw Hr Ho
    (reserve_valid_stale _ (reserve_valid_liquidity _ _ Hrv Hlok)) eq_refl
    (obligation_mark_stale_ok _ Hov1) Einit Hp1 Hp2 Hm) as (Hr' & Ho' & Hpaid).
  apply borrow_Ok in Hl as (_ & _ & _ & ->). split; [|done].
  split; [by exists (Reserve.mark_stale (Reserve.with_liquidity r
    (ReserveLiquidity.with_available_borrowed (r_liquidity r)
       (rl_available_amount (r_liquidity r) - dec d / WAD)
       (mkDecimal (dec (rl_borrowed_amount_wads (r_liquidity r)) + dec d)))))|].
  by exists (Obligation.mark_stale o1).
Qed.

End loans.

(** ** Properties *)

(** The value of [wads] of a reserve's liquidity, rounded as the program does *)
Definition value_of (r : Reserve) (wads : Z) : Z :=
  wads * dec (rl_market_price (r_liquidity r)) / WAD / 10 ^ rl_mint_decimals (r_liquidity r).

(** C3: a successful borrow is safe.  The obligation and the reserve belong to
    the market, both were refreshed in this slot, the obligation has collateral
    and its owner signed; the value of the new debt fits in what the obligation
    may still borrow and the tokens in what the reserve has.  The same amount is
    added to the debt of the reserve and to that of the obligation, both then
    need a refresh, and the tokens that leave the reserve, the fee and the loan,
    are exactly that amount's whole part. *)
Theorem borrow_within_allowance `{S : Sdk} (program_id : Pubkey) `{L : !SdkLaws program_id}
    (n : Z) (accounts : list AccountInfo) (w w' : World) (u : unit)
    (Hw : World_ok program_id w) (Hn : is_u64 n) (Ha : Forall info_ok accounts)
    (H : process_borrow_obligation_liquidity program_id n accounts w = Ok (u, w')) :
  ∃ src dst ri fi oi mi ai wi ci tp rest clock m r o b receive fee_parts,
    accounts = src :: dst :: ri :: fi :: oi :: mi :: ai :: wi :: ci :: tp :: rest ∧
    clock_at w ci clock ∧ holds program_id Reserve w (key ri) r ∧
    holds program_id Obligation w (key oi) o ∧ r_lending_market r = key mi ∧
    o_lending_market o = key mi ∧ fresh (r_last_update r) clock ∧ fresh (o_last_update o) clock ∧
    o_deposits o ≠ [] ∧ o_owner o = key wi ∧ is_signer wi = true ∧
    dec (o_borrowed_value o) + value_of r b ≤ dec (o_allowed_borrow_value o) ∧
    b / WAD ≤ rl_available_amount (r_liquidity r) ∧
    borrow_booked program_id w' (key ri) (key oi) r o b ∧
    paid w w' (payments tp src ai (authority_seeds m mi) (fee_parts ++ [(key dst, receive)])) ∧
    sum_Z (snd <$> fee_parts) + receive = b / WAD ∧
    (n ≠ u64_MAX → receive = n).
Proof.
  apply borrow_handler_Ok in H as (src & dst & ri & fi & oi & mi & ai & wi & ci & tp & rest & clock & m
    & r & o & rem & cap & res & l & o1 & w1 & w2 & w3 & w4 & owner_fee & u1 & -> & Hclock & Hm & Hr & Hfr
    & Hrm & _ & _ & Ho & Hfo & Hom & How & Hsig & Hdep & Hrem & Hcap & Hres & Hl & Hp1 & Ho1 & Hp2 & Hpay1 & Hpay2 & Hpay3);
    [|done].
  pose proof (holds_reserve_valid program_id _ _ _ Hw Hr) as [Hrok Hrv].
  pose proof (holds_obligation_ok program_id _ _ _ Hw Ho) as Hov.
  pose proof (borrow_amount_nonneg r o n _ _ res (conj Hrok Hrv) Hov Hn Hrem Hcap Hres) as Hb.
  apply Decimal_sub_Ok in Hrem as [-> Hroom].
  assert (Hhost : 0 ≤ cb_host_fee res ≤ cb_borrow_fee res).
  { eapply calculate_borrow_split, Hres; [done|done|cbn; lia|]. apply validate_reserve_config_Ok in Hrv. lia. }
  destruct (borrow_payout_Ok program_id rest _ _ _ _ _ _ _ _ _ _ _ _ _ _ _ _ Hhost Hpay1 Hpay2 Hpay3)
    as (ps & Hmoved & Hsum).
  assert (Hk : is_key (key ri)).
  { rewrite Forall_forall in Ha. apply Ha. do 2 right. left. }
  destruct (borrow_packs_Ok program_id r l ri o o1 oi _ _ w w1 w2 w' _ Hw Hr Ho Hb Hk
    (ok_rl_cumulative _ (ok_r_liquidity r Hrok)) Hl Hp1 Ho1 Hp2 Hmoved) as [Hbook Hpaid].
  eassert (Hspec := λ H1 H2 H3, calculate_borrow_Ok r n _ _ res (proj1 Hn) H1 H2 H3 Hres).
  destruct Hspec as (Hval & Hsplit & _ & Hnmax); [apply Hrok|cbn; lia|apply Hrok|].
  apply borrow_Ok in Hl as (Havail & _). cbn [dec] in Hval.
  exists src, dst, ri, fi, oi, mi, ai, wi, ci, tp, rest, clock, m, r, o, (dec (cb_borrow_amount res)),
    (cb_receive_amount res), ps.
  split_and!; try done; [unfold value_of; lia|lia|]. intros E. by apply Hnmax.
Qed.

#[local] Existing Instance test_sdk.

Definition borrow_accounts : list AccountInfo :=
  [account 12; account 60; account 33; account 77; account 50; account 9; account test_authority;
   signer 21; account test_clock_id; account test_token_id; account 62].

Lemma borrow_within_allowance_witness :
  ∃ b, borrow_booked solend_program_id
         (world_after (process_borrow_obligation_liquidity solend_program_id 100 borrow_accounts ledger))
         33 50 sample_reserve sample_obligation b.
Proof.
  destruct (borrow_within_allowance solend_program_id 100 borrow_accounts ledger
              (world_after (process_borrow_obligation_liquidity solend_program_id 100 borrow_accounts ledger)) tt)
    as (src & dst & ri & fi & oi & mi & ai & wi & ci & tp & rest & clock & m & r & o & b & receive & ps & Ea
        & _ & Hr & Ho & _ & _ & _ & _ & _ & _ & _ & _ & _ & Hb & _).
  - apply ledger_ok.
  - decide_ok.
  - by repeat constructor.
  - vm_compute. reflexivity.
  - exists b. injection Ea as <- <- <- <- <- <- <- <- <- <- <-. cbn [key account] in *.
    destruct Hr as [_ Hr], Ho as [_ Ho].
    rewrite <- (stored_inj Reserve ledger 33 r sample_reserve Hr ledger_reserve_33).
    rewrite <- (stored_inj Obligation ledger 50 o sample_obligation Ho ledger_obligation_50).
    exact Hb.
Defined.
