(* ===== verification/Solvency.v ===== *)
(** * The reserves are covered

    The invariant that ties the program's books to the tokens it holds: every
    reserve's liquidity account holds at least the liquidity that the reserve
    calls available, its collateral account at least what all obligations have
    on deposit, and no two reserves share an account.  In the middle of an
    instruction an account may be short: [Solvent δ] says that the account [s]
    is covered up to [δ s].  Writing a record raises what an account must cover,
    a token movement what it holds. *)

From S2P Require Import Prelude Errors FixedPoint StateBase LendingMarket Reserve.
From S2P Require Import ReserveFacts Obligation ObligationFacts Codec CodecFacts Solana Oracle Tokens.
From S2P Require Import ProcessorBase ProcessorFacts ProcessorInvariant ProcessorReserve.
From S2P Require Import RefreshFacts HandlerFacts Pledges LoanSafety.

(** ** What an account may be short of *)

Abbreviation Slack := (Pubkey → Z).

Definition no_slack : Slack := λ _, 0.

Definition bump (s : Pubkey) (n : Z) (δ : Slack) : Slack :=
  λ k, δ k + if decide (k = s) then n else 0.

Lemma bump_back s n δ k : bump s (- n) (bump s n δ) k = δ k.
Proof. unfold bump. case_decide; lia. Qed.

Lemma bump_nonneg_le s n δ k : 0 ≤ n → δ k ≤ bump s n δ k.
Proof. unfold bump. case_decide; lia. Qed.

(** Closes comparisons of slacks. *)
Ltac slack := intros; unfold bump; repeat case_decide; subst; try done; lia.

(** The token accounts of a reserve *)
Definition vaults_of (r : Reserve) : list Pubkey :=
  [rl_supply_pubkey (r_liquidity r); rc_supply_pubkey (r_collateral r)].

Section solvency.
Context `{S : Sdk} `{TS : TokenSdk} (program_id : Pubkey) `{L : !SdkLaws program_id}.
Context `{TL : !TokenLaws program_id}.
Implicit Types (w : World) (k rk : Pubkey) (info : AccountInfo) (δ : Slack).
Local Abbreviation holds := (holds program_id).
Local Abbreviation vault := (vault program_id).

Record Solvent δ w : Prop := {
  sv_supply : ∀ k r, holds Reserve w k r →
    ∃ n, vault (accounts w) (rl_supply_pubkey (r_liquidity r)) n ∧
      rl_available_amount (r_liquidity r) ≤ n + δ (rl_supply_pubkey (r_liquidity r));
  sv_collateral : ∀ k r, holds Reserve w k r →
    ∃ n, vault (accounts w) (rc_supply_pubkey (r_collateral r)) n ∧
      pledged program_id w k ≤ n + δ (rc_supply_pubkey (r_collateral r));
  sv_apart : ∀ k r, holds Reserve w k r →
    rl_supply_pubkey (r_liquidity r) ≠ rc_supply_pubkey (r_collateral r);
  sv_distinct : ∀ k1 r1 k2 r2 s, holds Reserve w k1 r1 → holds Reserve w k2 r2 →
    s ∈ vaults_of r1 → s ∈ vaults_of r2 → k1 = k2;
  sv_known : ∀ k o c, holds Obligation w k o → c ∈ o_deposits o →
    ∃ r, holds Reserve w (deposit_reserve c) r;
}.

Lemma solvent_mono δ δ' w : (∀ k, δ k ≤ δ' k) → Solvent δ w → Solvent δ' w.
Proof.
  intros Hle [Hs Hc Ha Hd Hk]. split; try done.
  - intros k r Hr. destruct (Hs k r Hr) as (n & Hv & ?). exists n. split; [done|].
    specialize (Hle (rl_supply_pubkey (r_liquidity r))). lia.
  - intros k r Hr. destruct (Hc k r Hr) as (n & Hv & ?). exists n. split; [done|].
    specialize (Hle (rc_supply_pubkey (r_collateral r))). lia.
Qed.

(** ** Steps that leave the records alone *)

Definition same_records w w' : Prop :=
  ∀ k, (∀ r : Reserve, holds Reserve w' k r ↔ holds Reserve w k r) ∧
       (∀ o : Obligation, holds Obligation w' k o ↔ holds Obligation w k o).

Lemma same_records_pledged w w' rk : same_records w w' → pledged program_id w' rk = pledged program_id w rk.
Proof.
  intros Hs. apply (pledged_same program_id). intros k. unfold pledge_at.
  by rewrite (record_at_iff program_id Obligation w w' k (proj2 (Hs k))).
Qed.

(** A record cannot come out of the zeros of a new account. *)
Lemma cpi_same_records w w' : cpi_frame program_id w w' → same_records w w'.
Proof.
  intros Hf k. pose proof Hf as [_ Hn _]. split; intros a; split.
  - intros [Ho Hs]. destruct (Hn k Ho) as [[Ho' E]|Hz]; [split; [done|by eapply stored_data]|].
    destruct Hs as (_ & Hu & Hi). destruct (eq_true_false_abs _ Hi (reserve_zeros _ _ Hz Hu)).
  - by apply frame_reserve.
  - intros [Ho Hs]. destruct (Hn k Ho) as [[Ho' E]|Hz]; [split; [done|by eapply stored_data]|].
    destruct Hs as (_ & Hu & Hi). destruct (eq_true_false_abs _ Hi (obligation_zeros _ _ Hz Hu)).
  - by apply frame_obligation.
Qed.

Lemma solvent_same_records δ δ' w w' :
  same_records w w' →
  (∀ k n, vault (accounts w) k n → ∃ n', n + δ k ≤ n' + δ' k ∧ vault (accounts w') k n') →
  Solvent δ w → Solvent δ' w'.
Proof.
  intros Hsame Hv [Hs Hc Ha Hd Hk]. split.
  - intros k r Hr%Hsame. destruct (Hs k r Hr) as (n & Hn & ?). destruct (Hv _ _ Hn) as (n' & ? & Hn').
    exists n'. split; [done|lia].
  - intros k r Hr%Hsame. rewrite (same_records_pledged w w' k Hsame).
    destruct (Hc k r Hr) as (n & Hn & ?). destruct (Hv _ _ Hn) as (n' & ? & Hn').
    exists n'. split; [done|lia].
  - intros k r Hr%Hsame. by apply (Ha k).
  - intros k1 r1 k2 r2 s H1%Hsame H2%Hsame. by apply (Hd k1 r1 k2 r2).
  - intros k o c Ho%Hsame Hin. destruct (Hk k o c Ho Hin) as [r Hr]. exists r. by apply Hsame.
Qed.

(** ** Writing a record leaves the token accounts alone *)

Lemma pack_tokens T `{Pack T} (a : T) info w u w' :
  (∀ output bs, Forall is_byte output → pack_into_slice a output = Ok bs → packed a output bs) →
  LEN T ≠ 165%nat → World_ok program_id w → pack a info w = Ok (u, w') →
  ∀ k, token_at (accounts w') k = token_at (accounts w) k.
Proof.
  intros Hb Hlen Hw Hp k. apply (pack_Ok program_id) in Hp as (Hl & bs & Hp & ->).
  destruct (Hb _ _ (wo_bytes _ _ Hw (key info)) Hp) as (Hl' & _).
  assert (Hno : ∀ bs : list Z, length bs = LEN T → token_account_unpack bs = None).
  { intros b Hlb. destruct (token_account_unpack b) as [a'|] eqn:E; [|done].
    apply (token_account_size program_id) in E. congruence. }
  unfold token_at. destruct (decide (key info = k)) as [<-|Hne].
  - cbn [accounts set_account]. rewrite lookup_insert_eq. cbn [owner data].
    rewrite (Hno bs) by congruence. unfold account_of in *.
    destruct (accounts w !! key info) as [acc|]; cbn in *; [|by case_match].
    rewrite (Hno (data acc)) by done. by case_match.
  - cbn [accounts set_account]. by rewrite lookup_insert_ne.
Qed.

Lemma pack_reserve_tokens r info w u w' :
  Reserve_ok r → World_ok program_id w → pack r info w = Ok (u, w') →
  ∀ k, token_at (accounts w') k = token_at (accounts w) k.
Proof. intros Hr. apply pack_tokens; [intros output bs; by apply reserve_pack_back|done]. Qed.

Lemma pack_obligation_tokens o info w u w' :
  Obligation_ok o → World_ok program_id w → pack o info w = Ok (u, w') →
  ∀ k, token_at (accounts w') k = token_at (accounts w) k.
Proof. intros Ho. apply pack_tokens; [intros output bs; by apply obligation_pack_back|done]. Qed.

Lemma pack_market_tokens m info w u w' :
  LendingMarket_ok m → World_ok program_id w → pack m info w = Ok (u, w') →
  ∀ k, token_at (accounts w') k = token_at (accounts w) k.
Proof. intros Hm. apply pack_tokens; [intros output bs; by apply market_pack_back|done]. Qed.

(** ** Writing a reserve *)

Lemma write_reserve_pledged w w' k r r' rk :
  only_changes program_id w k w' → holds Reserve w k r → holds Reserve w' k r' →
  pledged program_id w' rk = pledged program_id w rk.
Proof.
  intros Hch Hr Hr'. apply (pledged_same program_id). intros k'. unfold pledge_at.
  rewrite (record_at_iff program_id Obligation w w' k'); [done|]. intros o.
  destruct (decide (k' = k)) as [->|Hne]; [|by apply (only_changes_holds program_id Obligation w k)].
  split; intros Ho; exfalso.
  - by destruct (holds_distinct program_id _ _ _ _ _ Hr' Ho).
  - by destruct (holds_distinct program_id _ _ _ _ _ Hr Ho).
Qed.

(** A reserve written over itself keeps its accounts; what its liquidity account
    must cover changes by the change of the available amount. *)
Lemma solvent_write_reserve δ w w' k r r' :
  only_changes program_id w k w' → (∀ k', token_at (accounts w') k' = token_at (accounts w) k') →
  holds Reserve w k r → holds Reserve w' k r' → vaults_of r' = vaults_of r →
  Solvent δ w →
  Solvent (bump (rl_supply_pubkey (r_liquidity r))
             (rl_available_amount (r_liquidity r') - rl_available_amount (r_liquidity r)) δ) w'.
Proof.
  intros Hch Ht Hr Hr' [= El Ec] [Hs Hc Ha Hd Hk].
  assert (Hback : ∀ k' r1, holds Reserve w' k' r1 →
    (k' = k ∧ r1 = r') ∨ (k' ≠ k ∧ holds Reserve w k' r1)).
  { intros k' r1 H1. destruct (decide (k' = k)) as [->|Hne]; [left|right].
    - split; [done|]. by eapply stored_inj; [apply H1|apply Hr'].
    - split; [done|]. by apply (only_changes_holds program_id Reserve w k w'). }
  assert (Hvs : ∀ k' n, vault (accounts w) k' n → vault (accounts w') k' n).
  { intros k' n. by apply vault_eq. }
  assert (Hvk : ∀ k' r1, holds Reserve w' k' r1 → ∃ r2, holds Reserve w k' r2 ∧ vaults_of r1 = vaults_of r2).
  { intros k' r1 [[-> ->]|[_ H1]]%Hback; [exists r|by exists r1].
    split; [done|]. unfold vaults_of. congruence. }
  split.
  - intros k' r1 [[-> ->]|[Hne H1]]%Hback.
    + destruct (Hs k r Hr) as (n & Hn & ?). exists n. rewrite El. split; [by apply Hvs|].
      unfold bump. rewrite decide_True by done. lia.
    + destruct (Hs k' r1 H1) as (n & Hn & ?). exists n. split; [by apply Hvs|].
      unfold bump. rewrite decide_False; [lia|]. intros E. apply Hne.
      apply (Hd k' r1 k r (rl_supply_pubkey (r_liquidity r))); [done..| |solve_in].
      rewrite <- E. solve_in.
  - intros k' r1 H1. rewrite (write_reserve_pledged w w' k r r' k' Hch Hr Hr').
    destruct (Hvk k' r1 H1) as (r2 & H2 & [= _ E2]). rewrite E2.
    destruct (Hc k' r2 H2) as (n & Hn & ?). exists n. split; [by apply Hvs|].
    unfold bump. rewrite decide_False; [lia|]. intros E.
    assert (k' = k) as ->.
    { apply (Hd k' r2 k r (rl_supply_pubkey (r_liquidity r))); [done..| |solve_in]. rewrite <- E. solve_in. }
    assert (r2 = r) as -> by (eapply stored_inj; [apply H2|apply Hr]).
    by apply (Ha k r Hr).
  - intros k' r1 (r2 & H2 & [= -> ->])%Hvk. by apply (Ha k').
  - intros k1 r1 k2 r2 s (r1' & H1 & ->)%Hvk (r2' & H2 & ->)%Hvk. by apply (Hd k1 r1' k2 r2').
  - intros k' o c Ho Hin. assert (Ho' : holds Obligation w k' o).
    { pose proof (holds_distinct program_id _ _ _ _ _ Hr' Ho) as Hne.
      by apply (only_changes_holds program_id Obligation w k w' k' o Hch (not_eq_sym Hne)). }
    destruct (Hk k' o c Ho' Hin) as [r1 H1]. destruct (decide (deposit_reserve c = k)) as [E|Hne].
    + exists r'. by rewrite E.
    + exists r1. by apply (only_changes_holds program_id Reserve w k w').
Qed.

(** ** Writing an obligation *)

Lemma write_obligation_pledged w w' k o rk :
  only_changes program_id w k w' → holds Obligation w' k o →
  pledged program_id w' rk = pledged program_id w rk + (pledge o rk - pledge_at program_id w rk k).
Proof.
  intros Hch Ho. rewrite (pledged_change program_id w w' rk k).
  - unfold pledge_at at 1. by rewrite (proj2 (record_at_Some program_id Obligation w' k o) Ho).
  - intros k' Hne. unfold pledge_at. rewrite (record_at_iff program_id Obligation w w' k'); [done|].
    intros o1. by apply (only_changes_holds program_id Obligation w k).
Qed.

(** What an obligation pledges more, its reserves' collateral accounts must cover. *)
Lemma solvent_write_obligation δ δ' w w' k o :
  only_changes program_id w k w' → (∀ k', token_at (accounts w') k' = token_at (accounts w) k') →
  (∀ r, ¬ holds Reserve w k r) → holds Obligation w' k o →
  (∀ c, c ∈ o_deposits o → ∃ r, holds Reserve w (deposit_reserve c) r) →
  (∀ rk r, holds Reserve w rk r →
     δ (rl_supply_pubkey (r_liquidity r)) ≤ δ' (rl_supply_pubkey (r_liquidity r)) ∧
     δ (rc_supply_pubkey (r_collateral r)) + (pledge o rk - pledge_at program_id w rk k)
       ≤ δ' (rc_supply_pubkey (r_collateral r))) →
  Solvent δ w → Solvent δ' w'.
Proof.
  intros Hch Ht Hnr Ho Hkn Hδ [Hs Hc Ha Hd Hk].
  assert (Hback : ∀ k' r1, holds Reserve w' k' r1 → holds Reserve w k' r1).
  { intros k' r1 H1. pose proof (holds_distinct program_id _ _ _ _ _ H1 Ho) as Hne.
    by apply (only_changes_holds program_id Reserve w k w' k' r1 Hch). }
  assert (Hvs : ∀ k' n, vault (accounts w) k' n → vault (accounts w') k' n).
  { intros k' n. by apply vault_eq. }
  split.
  - intros k' r1 H1%Hback. destruct (Hs k' r1 H1) as (n & Hn & ?). exists n. split; [by apply Hvs|].
    destruct (Hδ k' r1 H1). lia.
  - intros k' r1 H1%Hback. destruct (Hc k' r1 H1) as (n & Hn & ?). exists n. split; [by apply Hvs|].
    destruct (Hδ k' r1 H1). rewrite (write_obligation_pledged w w' k o k' Hch Ho). lia.
  - intros k' r1 H1%Hback. by apply (Ha k').
  - intros k1 r1 k2 r2 s H1%Hback H2%Hback. by apply (Hd k1 r1 k2 r2).
  - intros k' o1 c H1 Hin. enough (∃ r, holds Reserve w (deposit_reserve c) r) as [r Hr].
    { exists r. apply (only_changes_holds program_id Reserve w k w'); [done| |done].
      intros E. rewrite E in Hr. by apply (Hnr r). }
    destruct (decide (k' = k)) as [->|Hne].
    + assert (o1 = o) as -> by (eapply stored_inj; [apply H1|apply Ho]). by apply Hkn.
    + apply (Hk k' o1 c); [|done]. by apply (only_changes_holds program_id Obligation w k w').
Qed.

(** ** Learning a balance

    A balance that was read replaces what is known of a reserve's account. *)
Lemma solvent_known_balance δ w k r n x :
  holds Reserve w k r → vault (accounts w) (rl_supply_pubkey (r_liquidity r)) n →
  rl_available_amount (r_liquidity r) ≤ n + x → Solvent δ w →
  Solvent (λ s, if decide (s = rl_supply_pubkey (r_liquidity r)) then x else δ s) w.
Proof.
  intros Hr Hv Hx [Hs Hc Ha Hd Hk]. split; try done.
  - intros k' r' Hr'. case_decide as E; [|by apply (Hs k')].
    assert (k' = k) as -> by (apply (Hd k' r' k r (rl_supply_pubkey (r_liquidity r'))); [done..|solve_in|
      rewrite E; solve_in]).
    assert (r' = r) as -> by (eapply stored_inj; [apply Hr'|apply Hr]). by exists n.
  - intros k' r' Hr'. case_decide as E; [exfalso|by apply (Hc k')].
    assert (k' = k) as ->.
    { apply (Hd k' r' k r (rc_supply_pubkey (r_collateral r'))); [done..|solve_in|]. rewrite E. solve_in. }
    assert (r' = r) as -> by (eapply stored_inj; [apply Hr'|apply Hr]). by apply (Ha k r Hr).
Qed.

(** What the program reads of a vault is its balance. *)
Lemma vault_balance w k n m :
  vault (accounts w) k n → token_amount (data (account_of w k)) = Ok m → m = n.
Proof.
  intros (a & Ht & _ & _ & _ & <-) Hm. unfold token_at in Ht. unfold account_of in Hm.
  destruct (accounts w !! k) as [acc|]; [|done]. cbn in Hm. case_match; [|done].
  rewrite (token_account_amount program_id _ _ Ht) in Hm. by injection Hm.
Qed.

End solvency.
