(* ===== verification/SolvencySteps.v ===== *)
(** * The steps of a handler and the cover of the reserves

    [Books δ w]: the invariant of the records together with [Solvent δ].  One
    rule per step: writing a reserve or an obligation, and each call of the token
    program or of another one. *)

From S2P Require Import Prelude Errors FixedPoint StateBase LendingMarket Reserve.
From S2P Require Import ReserveFacts Obligation ObligationFacts Codec CodecFacts Solana Oracle Tokens.
From S2P Require Import ProcessorBase ProcessorFacts ProcessorInvariant ProcessorReserve.
From S2P Require Import RefreshFacts HandlerFacts Pledges ProcessorLoan LoanSafety Solvency.

Section steps.
Context `{S : Sdk} `{TS : TokenSdk} (program_id : Pubkey) `{L : !SdkLaws program_id}.
Context `{TL : !TokenLaws program_id}.
Implicit Types (w : World) (k rk : Pubkey) (info : AccountInfo) (δ : Slack).
Local Abbreviation holds := (holds program_id).
Local Abbreviation vault := (vault program_id).
Local Abbreviation undeclared := (undeclared program_id).

Record Books δ w : Prop := {
  bk_world : World_ok program_id w;
  bk_solvent : Solvent program_id δ w;
}.

Lemma books_mono δ δ' w : (∀ k, δ k ≤ δ' k) → Books δ w → Books δ' w.
Proof. intros Hle [Hw Hs]. split; [done|]. by eapply solvent_mono. Qed.

(** ** Records *)

Lemma books_reserve δ w r r' info u w' :
  Books δ w → holds Reserve w (key info) r → Reserve_valid r' →
  is_initialized r' = is_initialized r → vaults_of r' = vaults_of r →
  pack r' info w = Ok (u, w') →
  Books (bump (rl_supply_pubkey (r_liquidity r))
           (rl_available_amount (r_liquidity r') - rl_available_amount (r_liquidity r)) δ) w' ∧
  holds Reserve w' (key info) r' ∧ only_changes program_id w (key info) w'.
Proof.
  intros [Hw Hs] Hr Hv Hi Evs Hp.
  destruct (pack_reserve_holds program_id r' info w u w' (proj1 Hv)) as [Hr' Hch];
    [rewrite Hi; apply Hr|done|apply Hr|done|].
  split; [|done]. split.
  - by apply (keeps_pack_reserve program_id r' info Hv w u w').
  - eapply (solvent_write_reserve program_id); [exact Hch| |done..].
    eapply (pack_reserve_tokens program_id r' info); [apply Hv|done|exact Hp].
Qed.

(** A reserve whose available amount stays *)
Lemma books_reserve_same δ w r r' info u w' :
  Books δ w → holds Reserve w (key info) r → Reserve_valid r' →
  is_initialized r' = is_initialized r → vaults_of r' = vaults_of r →
  rl_available_amount (r_liquidity r') = rl_available_amount (r_liquidity r) →
  pack r' info w = Ok (u, w') →
  Books δ w' ∧ holds Reserve w' (key info) r' ∧ only_changes program_id w (key info) w'.
Proof.
  intros Hb Hr Hv Hi Evs Ea Hp.
  destruct (books_reserve δ w r r' info u w' Hb Hr Hv Hi Evs Hp) as (Hb' & ? & ?).
  split; [|done]. eapply books_mono, Hb'. rewrite Ea. slack.
Qed.

(** The deposits of an obligation are of known reserves, but for [rk]. *)
Lemma known_deposits δ w k o o' rk r :
  Solvent program_id δ w → holds Obligation w k o → holds Reserve w rk r →
  dom (deposits_map o') ⊆ {[rk]} ∪ dom (deposits_map o) →
  ∀ c, c ∈ o_deposits o' → ∃ r, holds Reserve w (deposit_reserve c) r.
Proof.
  intros Hs Ho Hr Hdom c Hc.
  assert (Hin : deposit_reserve c ∈ dom (deposits_map o')) by (apply deposits_dom; by exists c).
  apply Hdom, elem_of_union in Hin as [->%elem_of_singleton|Hin]; [by exists r|].
  apply deposits_dom in Hin as (c0 & Hc0 & <-). by eapply (sv_known program_id).
Qed.

Lemma books_obligation δ w o o' info rk r n u w' :
  Books δ w → holds Obligation w (key info) o → Obligation_ok o' →
  is_initialized o' = is_initialized o → holds Reserve w rk r →
  (∀ k, pledge o' k = pledge o k + if decide (k = rk) then n else 0) →
  dom (deposits_map o') ⊆ {[rk]} ∪ dom (deposits_map o) →
  pack o' info w = Ok (u, w') →
  Books (bump (rc_supply_pubkey (r_collateral r)) n δ) w' ∧
  holds Obligation w' (key info) o' ∧ only_changes program_id w (key info) w'.
Proof.
  intros [Hw Hs] Ho Hv Hi Hr Hpl Hdom Hp.
  destruct (pack_obligation_holds program_id o' info w u w' Hv) as [Ho' Hch];
    [rewrite Hi; apply Ho|done|apply Ho|done|].
  split; [|done]. split.
  - by apply (keeps_pack_obligation program_id o' info Hv w u w').
  - apply (solvent_write_obligation program_id δ _ w w' (key info) o' Hch); [| |done| | |done].
    + by eapply (pack_obligation_tokens program_id o' info).
    + intros r0 Hr0. by destruct (holds_distinct program_id _ _ _ _ _ Hr0 Ho).
    + by eapply known_deposits.
    + intros k1 r1 Hr1. unfold pledge_at.
      rewrite (proj2 (record_at_Some program_id Obligation w (key info) o) Ho), Hpl.
      assert (Hown : ∀ s, s ∈ vaults_of r1 → s = rc_supply_pubkey (r_collateral r) → k1 = rk).
      { intros s Hs1 ->. apply (sv_distinct program_id δ w Hs k1 r1 rk r _ Hr1 Hr Hs1). solve_in. }
      unfold bump. split.
      * rewrite decide_False; [lia|]. intros E.
        assert (k1 = rk) as -> by (eapply Hown; [|exact E]; solve_in).
        assert (r1 = r) as -> by (eapply stored_inj; [apply Hr1|apply Hr]).
        by apply (sv_apart program_id δ w Hs rk r Hr).
      * destruct (decide (k1 = rk)) as [->|Hne].
        -- assert (r1 = r) as -> by (eapply stored_inj; [apply Hr1|apply Hr]).
           rewrite decide_True by done. lia.
        -- rewrite decide_False; [lia|]. intros E. apply Hne. eapply Hown; [|exact E]. solve_in.
Qed.

Lemma map_add_dom k n (m : gmap Z Z) : dom (map_add k n m) ⊆ {[k]} ∪ dom m.
Proof. unfold map_add. set_solver. Qed.

Lemma map_take_dom k n (m : gmap Z Z) : dom (map_take k n m) ⊆ {[k]} ∪ dom m.
Proof. unfold map_take. cbv zeta. case_match; set_solver. Qed.

Lemma books_pledge δ w o o' info rk r n u w' :
  Books δ w → holds Obligation w (key info) o → Obligation_ok o' →
  is_initialized o' = is_initialized o → holds Reserve w rk r →
  deposits_map o' = map_add rk n (deposits_map o) → pack o' info w = Ok (u, w') →
  Books (bump (rc_supply_pubkey (r_collateral r)) n δ) w' ∧
  holds Obligation w' (key info) o' ∧ only_changes program_id w (key info) w'.
Proof.
  intros Hb Ho Hv Hi Hr E Hp. eapply books_obligation; try done.
  - intros k. by apply pledge_map_add.
  - rewrite E. apply map_add_dom.
Qed.

Lemma books_unpledge δ w o o' info rk r n u w' :
  Books δ w → holds Obligation w (key info) o → Obligation_ok o' →
  is_initialized o' = is_initialized o → holds Reserve w rk r →
  deposits_map o' = map_take rk n (deposits_map o) → pack o' info w = Ok (u, w') →
  Books (bump (rc_supply_pubkey (r_collateral r)) (- n) δ) w' ∧
  holds Obligation w' (key info) o' ∧ only_changes program_id w (key info) w'.
Proof.
  intros Hb Ho Hv Hi Hr E Hp. eapply books_obligation; try done.
  - intros k. rewrite (pledge_map_take o o' rk n k E). case_decide; lia.
  - rewrite E. apply map_take_dom.
Qed.

(** An obligation whose deposits stay *)
Lemma books_obligation_same δ w o o' info u w' :
  Books δ w → holds Obligation w (key info) o → Obligation_ok o' →
  is_initialized o' = is_initialized o → deposits_map o' = deposits_map o →
  pack o' info w = Ok (u, w') →
  Books δ w' ∧ holds Obligation w' (key info) o' ∧ only_changes program_id w (key info) w'.
Proof.
  intros [Hw Hs] Ho Hv Hi E Hp.
  destruct (pack_obligation_holds program_id o' info w u w' Hv) as [Ho' Hch];
    [rewrite Hi; apply Ho|done|apply Ho|done|].
  split; [|done]. split.
  - by apply (keeps_pack_obligation program_id o' info Hv w u w').
  - apply (solvent_write_obligation program_id δ _ w w' (key info) o' Hch); [| |done| | |done].
    + by eapply (pack_obligation_tokens program_id o' info).
    + intros r0 Hr0. by destruct (holds_distinct program_id _ _ _ _ _ Hr0 Ho).
    + intros c Hc. assert (Hin : deposit_reserve c ∈ dom (deposits_map o)).
      { rewrite <- E. apply deposits_dom. by exists c. }
      apply deposits_dom in Hin as (c0 & Hc0 & <-). by eapply (sv_known program_id).
    + intros k1 r1 _. unfold pledge_at.
      rewrite (proj2 (record_at_Some program_id Obligation w (key info) o) Ho).
      unfold pledge. rewrite E. lia.
Qed.

(** ** Calls of other programs *)

(** The token program executed [c] on the accounts [infos], signed with [seeds]. *)
Definition token_ran (c : TokenCall) (infos : list AccountInfo) (seeds : Seeds) w w' : Prop :=
  cpi_frame program_id w w' ∧
  ∃ ix, token_instruction c = Ok ix ∧
    invoke_signed ix infos (if decide (seeds = []) then [] else [seeds]) (accounts w) = Ok (accounts w').

Lemma run_cpi_accounts ix infos seeds w u w' :
  run_cpi ix infos seeds w = Ok (u, w') → invoke_signed ix infos seeds (accounts w) = Ok (accounts w').
Proof. unfold run_cpi. intros (accs & Hi & [= <- <-])%bind_Ok. exact Hi. Qed.

Lemma token_cpi_ran c ix infos seeds w u w' :
  token_instruction c = Ok ix →
  run_cpi ix infos (if decide (seeds = []) then [] else [seeds]) w = Ok (u, w') →
  token_ran c infos seeds w w'.
Proof.
  intros Hix Hr. destruct (token_instruction_program _ _ Hix) as [_ Hne].
  split; [by apply (run_cpi_frame program_id _ _ _ _ _ _ Hne Hr)|].
  exists ix. split; [done|]. by eapply run_cpi_accounts.
Qed.

Ltac solve_ran :=
  intros; inv_m; match goal with H : M_map_err _ _ _ = Ok _ |- _ => apply M_map_err_Ok in H end;
  try match goal with
      | H : invoke_optionally_signed _ _ _ _ = Ok _ |- _ => apply invoke_optionally_signed_Ok in H
      end;
  eapply token_cpi_ran; eassumption.

Lemma transfer_ran src dst n auth seeds tp w u w' :
  spl_token_transfer src dst n auth seeds tp w = Ok (u, w') →
  token_ran (transfer (key tp) (key src) (key dst) (key auth) [] n) [src; dst; auth; tp] seeds w w'.
Proof. unfold spl_token_transfer. solve_ran. Qed.

Lemma mint_to_ran mint dst n auth seeds tp w u w' :
  spl_token_mint_to mint dst n auth seeds tp w = Ok (u, w') →
  token_ran (mint_to (key tp) (key mint) (key dst) (key auth) [] n) [mint; dst; auth; tp] seeds w w'.
Proof. unfold spl_token_mint_to. solve_ran. Qed.

Lemma burn_ran mint src n auth seeds tp w u w' :
  spl_token_burn mint src n auth seeds tp w = Ok (u, w') →
  token_ran (burn (key tp) (key src) (key mint) (key auth) [] n) [src; mint; auth; tp] seeds w w'.
Proof. unfold spl_token_burn. solve_ran. Qed.

Lemma init_account_ran a mint own rent tp w u w' :
  spl_token_init_account a mint own rent tp w = Ok (u, w') →
  token_ran (initialize_account (key tp) (key a) (key mint) (key own)) [a; mint; own; rent; tp] [] w w'.
Proof. unfold spl_token_init_account, invoke. solve_ran. Qed.

Lemma init_mint_ran mint rent authority decimals tp w u w' :
  spl_token_init_mint mint rent authority decimals tp w = Ok (u, w') →
  token_ran (initialize_mint (key tp) (key mint) authority None decimals) [mint; rent; tp] [] w w'.
Proof. unfold spl_token_init_mint, invoke. solve_ran. Qed.

Lemma ran_effect c infos seeds w w' :
  token_ran c infos seeds w w' → token_effect c (token_at (accounts w)) (token_at (accounts w')).
Proof. intros [_ (ix & Hix & Hi)]. by eapply (token_instruction_effect program_id). Qed.

Lemma ran_vault c infos seeds w w' k n :
  token_ran c infos seeds w w' → vault (accounts w) k n → vault (accounts w') k (n + gain c k).
Proof. intros Hr. by apply token_effect_vault, (ran_effect _ infos seeds). Qed.

(** Without the program's signature no vault loses anything. *)
Lemma ran_unsigned c infos w w' :
  token_ran c infos [] w w' → Forall undeclared infos →
  vaults_kept program_id (accounts w) (accounts w').
Proof.
  intros [_ (ix & Hix & Hi)] Ha. destruct (token_instruction_program _ _ Hix) as [_ Hne].
  by eapply (unsigned_keeps_vaults program_id).
Qed.

Lemma books_frame δ δ' w w' :
  Books δ w → cpi_frame program_id w w' →
  (∀ k n, vault (accounts w) k n → ∃ n', n + δ k ≤ n' + δ' k ∧ vault (accounts w') k n') →
  Books δ' w'.
Proof.
  intros [Hw Hs] Hf Hv. split; [by eapply World_ok_cpi|].
  eapply (solvent_same_records program_id); [by apply cpi_same_records|exact Hv|exact Hs].
Qed.

Lemma books_vaults_kept δ w w' :
  Books δ w → cpi_frame program_id w w' → vaults_kept program_id (accounts w) (accounts w') →
  Books δ w'.
Proof.
  intros Hb Hf Hv. eapply books_frame; [exact Hb|exact Hf|].
  intros k n (n' & Hle & Hn')%Hv. exists n'. split; [lia|done].
Qed.

Lemma books_unsigned δ c infos w w' :
  Books δ w → token_ran c infos [] w w' → Forall undeclared infos → Books δ w'.
Proof. intros Hb Hr Ha. eapply books_vaults_kept; [exact Hb|apply Hr|by eapply ran_unsigned]. Qed.

(** A payment into a vault by someone else *)
Lemma books_transfer_in δ src dst n auth tp w u w' :
  Books δ w → spl_token_transfer src dst n auth [] tp w = Ok (u, w') →
  Forall undeclared [src; dst; auth; tp] → key dst ≠ key src → Books (bump (key dst) (- n) δ) w'.
Proof.
  intros Hb Hr%transfer_ran Ha Hne. eapply books_frame; [exact Hb|apply Hr|]. intros k m Hv.
  unfold bump. destruct (decide (k = key dst)) as [->|Hk].
  - eexists. split; [|eapply ran_vault; [exact Hr|exact Hv]]. cbn [gain].
    rewrite (decide_False (P := key src = key dst)) by congruence.
    rewrite decide_True, (decide_False (P := key dst = key src)) by done. lia.
  - destruct (ran_unsigned _ _ _ _ Hr Ha k m Hv) as (n' & ? & ?). exists n'. split; [lia|done].
Qed.

(** A payment out of an account *)
Lemma books_transfer_out δ src dst n auth seeds tp w u w' :
  Books δ w → spl_token_transfer src dst n auth seeds tp w = Ok (u, w') → 0 ≤ n →
  Books (bump (key src) n δ) w'.
Proof.
  intros Hb Hr%transfer_ran Hn. eapply books_frame; [exact Hb|apply Hr|]. intros k m Hv.
  eexists. split; [|eapply ran_vault; [exact Hr|exact Hv]]. cbn [gain].
  unfold bump. repeat case_decide; lia.
Qed.

Lemma books_mint δ mint dst n auth seeds tp w u w' :
  Books δ w → spl_token_mint_to mint dst n auth seeds tp w = Ok (u, w') → 0 ≤ n → Books δ w'.
Proof.
  intros Hb Hr%mint_to_ran Hn. eapply books_frame; [exact Hb|apply Hr|]. intros k m Hv.
  eexists. split; [|eapply ran_vault; [exact Hr|exact Hv]]. cbn [gain]. case_decide; lia.
Qed.

Lemma books_burn δ mint src n auth tp w u w' :
  Books δ w → spl_token_burn mint src n auth [] tp w = Ok (u, w') →
  Forall undeclared [src; mint; auth; tp] → Books δ w'.
Proof. intros Hb Hr%burn_ran Ha. by eapply books_unsigned. Qed.

Lemma books_transfer_user δ src dst n auth tp w u w' :
  Books δ w → spl_token_transfer src dst n auth [] tp w = Ok (u, w') →
  Forall undeclared [src; dst; auth; tp] → Books δ w'.
Proof. intros Hb Hr%transfer_ran Ha. by eapply books_unsigned. Qed.

Lemma books_invoke δ ix infos w u w' :
  Books δ w → invoke ix infos w = Ok (u, w') → ix_program_id ix ≠ program_id →
  Forall undeclared infos → Books δ w'.
Proof.
  unfold invoke. intros Hb Hr Hne Ha. destruct (run_cpi_frame program_id _ _ _ _ _ _ Hne Hr) as [Hf _].
  eapply books_vaults_kept; [exact Hb|exact Hf|].
  eapply (unsigned_keeps_vaults program_id); [exact Hne|exact Ha|by eapply run_cpi_accounts].
Qed.

(** Several payments out of the same account *)
Lemma books_pay_owner_fee δ fee src dst auth seeds tp w u w' :
  Books δ w → 0 ≤ fee → pay_owner_fee fee src dst auth seeds tp w = Ok (u, w') →
  Books (bump (key src) fee δ) w'.
Proof.
  intros Hb Hf. unfold pay_owner_fee. destruct (fee >? 0) eqn:E.
  - intros Ht. by eapply books_transfer_out.
  - intros [-> ->]%M_ret_Ok. eapply books_mono, Hb. slack.
Qed.

Lemma books_pay_host_fee δ fee host src dst auth seeds tp w owner_fee w' :
  Books δ w → 0 ≤ host → pay_host_fee fee host src dst auth seeds tp w = Ok (owner_fee, w') →
  Books (bump (key src) (fee - owner_fee) δ) w' ∧ (0 ≤ fee → 0 ≤ owner_fee).
Proof.
  intros Hb Hh. unfold pay_host_fee. destruct (host >? 0) eqn:E; intros H.
  - apply M_bind_Ok in H as (n & w1 & H1 & H). apply lift_Ok in H1 as [H1 ->].
    apply ok_or_overflow_Ok, checked_sub_Some in H1 as [-> ?].
    apply M_bind_Ok in H as (u & w1 & Ht & [-> ->]%M_ret_Ok). split; [|lia].
    eapply books_mono; [|by eapply books_transfer_out]. slack.
  - apply M_ret_Ok in H as [-> ->]. split; [|done]. eapply books_mono, Hb. slack.
Qed.

End steps.
