(* ===== verification/RepaySafety.v ===== *)
(** * Repaying and liquidating

    What a successful repayment or liquidation booked on the reserve and on the
    obligation, and which tokens it moved. *)

From S2P Require Import Prelude Errors FixedPoint StateBase LendingMarket Reserve.
From S2P Require Import ReserveFacts LoanFacts Obligation ObligationFacts Liquidation Codec CodecFacts.
From S2P Require Import Solana Oracle ProcessorBase ProcessorFacts ProcessorInvariant ProcessorReserve.
From S2P Require Import ProcessorObligation RefreshFacts HandlerFacts ProcessorLoan ProcessorSafety.
From S2P Require Import LoanSafety Testbed TestbedFacts.

Section repay.
Context `{S : Sdk} (program_id : Pubkey) `{L : !SdkLaws program_id}.
Implicit Types (w : World) (k : Pubkey) (info : AccountInfo) (clock : Clock).

(** The guards and the computations of a repayment that succeeded *)
Lemma repay_handler_Ok n accounts w u w' :
  process_repay_obligation_liquidity program_id n accounts w = Ok (u, w') →
  ∃ src dst ri oi mi ai ci tp rest clock w1 r o l i l' res rl o1 w2 w3,
    accounts = src :: dst :: ri :: oi :: mi :: ai :: ci :: tp :: rest ∧
    clock_at w ci clock ∧
    _refresh_reserve_interest program_id ri clock w = Ok (tt, w1) ∧
    holds program_id Reserve w1 (key ri) r ∧ r_lending_market r = key mi ∧
    rl_supply_pubkey (r_liquidity r) = key dst ∧ rl_supply_pubkey (r_liquidity r) ≠ key src ∧
    holds program_id Obligation w1 (key oi) o ∧ o_lending_market o = key mi ∧
    Obligation.find_liquidity_in_borrows o (key ri) = Ok (l, i) ∧
    ObligationLiquidity.accrue_interest l (rl_cumulative_borrow_rate_wads (r_liquidity r)) = Ok l' ∧
    Reserve.calculate_repay r n (ol_borrowed_amount_wads l') = Ok res ∧
    ReserveLiquidity.repay (r_liquidity r) (cr_repay_amount res) (cr_settle_amount res) = Ok rl ∧
    pack (Reserve.mark_stale (Reserve.with_liquidity r rl)) ri w1 = Ok (tt, w2) ∧
    Obligation.repay (Obligation.with_borrows o (<[i := l']> (o_borrows o))) (cr_settle_amount res) i = Ok o1 ∧
    pack (Obligation.mark_stale o1) oi w2 = Ok (tt, w3) ∧
    spl_token_transfer src dst (cr_repay_amount res) ai [] tp w3 = Ok (u, w').
Proof. unfold process_repay_obligation_liquidity. intros H. inv_handler. solve_found. Qed.

Lemma obligation_repay_fields o d i o' :
  Obligation.repay o d i = Ok o' →
  o_owner o' = o_owner o ∧ is_initialized o' = is_initialized o.
Proof. by intros (l & _ & _ & ->)%obligation_repay_Ok. Qed.

Lemma obligation_withdraw_fields o n i o' :
  Obligation.withdraw o n i = Ok o' →
  o_owner o' = o_owner o ∧ is_initialized o' = is_initialized o.
Proof. by intros (l & _ & _ & ->)%obligation_withdraw_Ok. Qed.

(** What a repayment that settles [settle] wads with [repaid] tokens changed *)
Record repay_booked w' (ri : Pubkey) (r : Reserve) (repaid settle : Z) : Prop := {
  rb_reserve : ∃ r', holds program_id Reserve w' ri r' ∧ stale (r_last_update r') = true ∧
    rl_available_amount (r_liquidity r') = rl_available_amount (r_liquidity r) + repaid ∧
    dec (rl_borrowed_amount_wads (r_liquidity r'))
      = Z.max 0 (dec (rl_borrowed_amount_wads (r_liquidity r)) - settle) ∧
    r_config r' = r_config r ∧ slot (r_last_update r') = slot (r_last_update r);
}.

Lemma repay_reserve_booked w' ri r n d rl :
  Reserve_ok r → ReserveLiquidity.repay (r_liquidity r) n d = Ok rl →
  holds program_id Reserve w' ri (Reserve.mark_stale (Reserve.with_liquidity r rl)) →
  repay_booked w' ri r n (dec d).
Proof.
  intros Hr Hrl Hh. apply repay_Ok in Hrl as (_ & ->). split.
  eexists. split; [exact Hh|]. split; [done|]. split; [done|]. split; [|done].
  cbn. lia.
Qed.

(** ** Liquidation *)

(** The guards and the computations of a liquidation that succeeded *)
Lemma liquidate_inner_Ok n src dst ri rsi wri wsi oi mi ai ui clock tp w a w' :
  _liquidate_obligation program_id n src dst ri rsi wri wsi oi mi ai ui clock tp w = Ok (a, w') →
  ∃ m r wr o l i c j res rl o1 o2 w1 w2 w3 u1 u2,
    holds program_id Reserve w (key ri) r ∧ r_lending_market r = key mi ∧
    rl_supply_pubkey (r_liquidity r) = key rsi ∧ rl_supply_pubkey (r_liquidity r) ≠ key src ∧
    fresh (r_last_update r) clock ∧ holds program_id Reserve w (key wri) wr ∧ r_lending_market wr = key mi ∧
    rc_supply_pubkey (r_collateral wr) = key wsi ∧ fresh (r_last_update wr) clock ∧
    holds program_id Obligation w (key oi) o ∧ o_lending_market o = key mi ∧
    fresh (o_last_update o) clock ∧
    Decimal.ltb (o_borrowed_value o) (o_unhealthy_borrow_value o) = false ∧
    Obligation.find_liquidity_in_borrows o (key ri) = Ok (l, i) ∧
    Obligation.find_collateral_in_deposits o (key wri) = Ok (c, j) ∧
    Liquidation.calculate_liquidation wr n o l c = Ok res ∧
    cl_repay_amount res ≠ 0 ∧ cl_withdraw_amount res ≠ 0 ∧ a = cl_withdraw_amount res ∧
    ReserveLiquidity.repay (r_liquidity r) (cl_repay_amount res) (cl_settle_amount res) = Ok rl ∧
    pack (Reserve.mark_stale (Reserve.with_liquidity r rl)) ri w = Ok (tt, w1) ∧
    Obligation.repay o (cl_settle_amount res) i = Ok o1 ∧
    Obligation.withdraw o1 (cl_withdraw_amount res) j = Ok o2 ∧
    pack (Obligation.mark_stale o2) oi w1 = Ok (tt, w2) ∧
    spl_token_transfer src rsi (cl_repay_amount res) ui [] tp w2 = Ok (u1, w3) ∧
    spl_token_transfer wsi dst (cl_withdraw_amount res) ai (authority_seeds m mi) tp w3 = Ok (u2, w').
Proof. unfold _liquidate_obligation. intros H. inv_handler. solve_found. Qed.

(** What the accounts of a liquidation show: the obligation is liquidatable now,
    and the terms are within bounds. *)
Record liquidatable w clock (ri wri oi : Pubkey) (r wr : Reserve) (o : Obligation)
    (l : ObligationLiquidity) (c : ObligationCollateral) : Prop := {
  lq_repay_reserve : holds program_id Reserve w ri r;
  lq_withdraw_reserve : holds program_id Reserve w wri wr;
  lq_obligation : holds program_id Obligation w oi o;
  lq_market : r_lending_market r = o_lending_market o ∧ r_lending_market wr = o_lending_market o;
  lq_fresh : fresh (r_last_update r) clock ∧ fresh (r_last_update wr) clock ∧
             fresh (o_last_update o) clock;
  lq_unhealthy : dec (o_unhealthy_borrow_value o) ≤ dec (o_borrowed_value o);
  lq_borrow : l ∈ o_borrows o ∧ borrow_reserve l = ri;
  lq_deposit : c ∈ o_deposits o ∧ deposit_reserve c = wri;
}.

(** The terms: what is settled, paid and seized *)
Record terms_ok (n : Z) (wr : Reserve) (l : ObligationLiquidity) (c : ObligationCollateral)
    (settle repaid seized : Z) : Prop := {
  tm_settle : 0 ≤ settle ≤ dec (ol_borrowed_amount_wads l);
  tm_repaid : 0 < repaid ∧ (n ≠ u64_MAX → repaid ≤ n);
  tm_seized : 0 < seized ≤ deposited_amount c;
  tm_bonus : WAD * (seized * dec (oc_market_value c))
    ≤ deposited_amount c * (dec (ol_market_value l) * bonus_wads wr);
}.

Lemma liquidation_terms r n o l c res :
  Reserve_ok r → is_u64 n → Obligation_ok o → l ∈ o_borrows o → c ∈ o_deposits o →
  Liquidation.calculate_liquidation r n o l c = Ok res →
  cl_repay_amount res ≠ 0 → cl_withdraw_amount res ≠ 0 →
  terms_ok n r l c (dec (cl_settle_amount res)) (cl_repay_amount res) (cl_withdraw_amount res).
Proof.
  intros Hr Hn Ho Hl Hc H Hp Hw.
  pose proof (proj1 (Forall_forall _ _) (ok_o_borrows o Ho) l Hl) as Hlok.
  pose proof (proj1 (Forall_forall _ _) (ok_o_deposits o Ho) c Hc) as Hcok.
  destruct (calculate_liquidation_Ok r n o l c res Hr Hn (proj1 (ok_o_borrowed_value o Ho)) Hlok Hcok H)
    as (Hs & (x & v & Hx & Hxn & (Hrep & Hwd & Hwv) & Hv) & _). cbv zeta in *.
  split; [done| |lia|].
  - split; [lia|]. intros Hne. pose proof (ceil_wad_le x n (Hxn Hne)). lia.
  - destruct (ok_deposited_amount c Hcok). unfold WAD in *. nia.
Qed.

(** What a liquidation changed *)
Record liquidation_booked w' (ri wri oi : Pubkey) (r : Reserve) (o : Obligation)
    (settle repaid seized : Z) : Prop := {
  lb_reserve : repay_booked w' ri r repaid settle;
  lb_obligation : ∃ o', holds program_id Obligation w' oi o' ∧ stale (o_last_update o') = true ∧
    borrows_map o' = map_take ri settle (borrows_map o) ∧
    deposits_map o' = map_take wri seized (deposits_map o);
}.

Lemma liquidate_inner_spec n src dst ri rsi wri wsi oi mi ai ui clock tp w a w' :
  World_ok program_id w → is_u64 n →
  _liquidate_obligation program_id n src dst ri rsi wri wsi oi mi ai ui clock tp w = Ok (a, w') →
  ∃ m r wr o l c settle repaid,
    liquidatable w clock (key ri) (key wri) (key oi) r wr o l c ∧
    terms_ok n wr l c settle repaid a ∧
    liquidation_booked w' (key ri) (key wri) (key oi) r o settle repaid a ∧
    paid w w' (payments tp src ui [] [(key rsi, repaid)] ++
               payments tp wsi ai (authority_seeds m mi) [(key dst, a)]).
Proof.
  intros Hw Hn H.
  apply liquidate_inner_Ok in H as (m & r & wr & o & l & i & c & j & res & rl & o1 & o2 & w1 & w2 & w3 & u1 & u2
    & Hr & Hrm & _ & _ & Hrf & Hwr & Hwm & _ & Hwf & Ho & Hom & Hof & Hun & Hl & Hc & Hres & Hp0 & Hw0 & -> & Hrl
    & Hp1 & Ho1 & Ho2 & Hp2 & Ht1 & Ht2).
  pose proof (holds_reserve_valid program_id _ _ _ Hw Hr) as Hrv.
  pose proof (holds_reserve_valid program_id _ _ _ Hw Hwr) as [Hwok _].
  pose proof (holds_obligation_ok program_id _ _ _ Hw Ho) as Hov.
  destruct (liquidation_amounts_nonneg wr n o _ _ _ _ _ _ res Hwok Hn Hov Hl Hc Hres) as (Hs & Hp & Hwd).
  apply find_liquidity_Ok in Hl as [Hl Hlk]. apply find_collateral_Ok in Hc as [Hc Hck].
  pose proof (list_elem_of_lookup_2 _ _ _ Hl) as Hlin. pose proof (list_elem_of_lookup_2 _ _ _ Hc) as Hcin.
  pose proof (liquidity_repay_ok _ _ _ _ (ok_r_liquidity r (proj1 Hrv)) Hp Hs Hrl) as Hrlok.
  pose proof (obligation_repay_ok _ _ _ _ Hov Hs Ho1) as Hov1.
  pose proof (obligation_withdraw_ok _ _ _ _ Hov1 (proj1 Hwd) Ho2) as Hov2.
  destruct (obligation_repay_fields _ _ _ _ Ho1) as [_ E1].
  destruct (obligation_withdraw_fields _ _ _ _ Ho2) as [_ E2].
  destruct (obligation_repay_map _ _ _ _ _ Hov Hl Ho1) as (_ & _ & Eb1 & Ed1).
  assert (Hc1 : o_deposits o1 !! j = Some c).
  { apply obligation_repay_Ok in Ho1 as (? & _ & _ & ->). exact Hc. }
  destruct (obligation_withdraw_map _ _ _ _ _ Hov1 Hc1 Ho2) as (_ & _ & Ed2 & Eb2).
  destruct (booked program_id r _ ri o _ oi w w1 w2 w' _ Hw Hr Ho
    (reserve_valid_stale _ (reserve_valid_liquidity _ _ Hrv Hrlok)) eq_refl
    (obligation_mark_stale_ok _ Hov2) (eq_trans E2 E1) Hp1 Hp2
    (moved_app program_id _ _ _ _ _ (transfer_moved program_id _ _ _ _ _ _ _ _ _ Ht1)
       (transfer_moved program_id _ _ _ _ _ _ _ _ _ Ht2))) as (Hr' & Ho' & Hpaid).
  exists m, r, wr, o, l, c, (dec (cl_settle_amount res)), (cl_repay_amount res). split_and!.
  - split; try done; [by split; congruence|]. unfold Decimal.ltb in Hun. by apply Z.ltb_ge.
  - by apply (liquidation_terms wr n o l c res).
  - split; [by eapply repay_reserve_booked; [apply Hrv|..]|].
    exists (Obligation.mark_stale o2). split; [done|]. split; [done|]. rewrite <- Hlk, <- Hck.
    split; [rewrite <- Eb1; exact Eb2|rewrite <- Ed1; exact Ed2].
  - done.
Qed.

End repay.

(** ** Properties *)


#[local] Existing Instance test_sdk.

Definition repay_accounts : list AccountInfo :=
  [account 60; account 12; account 33; account 50; account 9; signer 70; account test_clock_id;
   account test_token_id].


(** C4: only an unhealthy obligation is liquidated, and only within bounds.  The
    obligation and both reserves belong to one market and were refreshed in this
    slot; its debt is worth at least its unhealthy value; at most the debt is
    settled, at most the offer is paid, at most the deposit is seized, worth at
    most the debt plus the bonus; exactly these amounts are booked on the repaid
    reserve and on the obligation, and moved: the payment by the liquidator's
    own authority, the collateral by the market's. *)
Theorem liquidation_only_unhealthy `{S : Sdk} (program_id : Pubkey) `{L : !SdkLaws program_id}
    (n : Z) (accounts : list AccountInfo) (w w' : World) (u : unit)
    (Hw : World_ok program_id w) (Hn : is_u64 n)
    (H : process_liquidate_obligation program_id n accounts w = Ok (u, w')) :
  ∃ src dst ri rsi wri wsi oi mi ai ui ci tp rest clock m r wr o l c settle repaid seized,
    accounts = src :: dst :: ri :: rsi :: wri :: wsi :: oi :: mi :: ai :: ui :: ci :: tp :: rest ∧
    clock_at w ci clock ∧
    liquidatable program_id w clock (key ri) (key wri) (key oi) r wr o l c ∧
    terms_ok n wr l c settle repaid seized ∧
    liquidation_booked program_id w' (key ri) (key wri) (key oi) r o settle repaid seized ∧
    paid w w' (payments tp src ui [] [(key rsi, repaid)] ++
               payments tp wsi ai (authority_seeds m mi) [(key dst, seized)]).
Proof.
  unfold process_liquidate_obligation in H. inv_handler.
  match goal with H : _liquidate_obligation _ _ _ _ _ _ _ _ _ _ _ _ _ _ _ = Ok _ |- _ =>
    apply (liquidate_inner_spec program_id) in H as (m & r & wr & o & l & c & settle & repaid & ? & ? & ? & ?);
      [|done..] end.
  solve_found.
Qed.

Definition liquidate_accounts : list AccountInfo :=
  [account 60; account 61; account 33; account 12; account 31; account 16; account 50; account 9;
   account test_authority; signer 70; account test_clock_id; account test_token_id].

Lemma liquidation_only_unhealthy_witness :
  ∃ r o settle repaid seized,
    liquidation_booked solend_program_id
      (world_after (process_liquidate_obligation solend_program_id 20 liquidate_accounts sick_ledger))
      33 31 50 r o settle repaid seized ∧ 0 < repaid.
Proof.
  destruct (liquidation_only_unhealthy solend_program_id 20 liquidate_accounts sick_ledger
    (world_after (process_liquidate_obligation solend_program_id 20 liquidate_accounts sick_ledger)) tt)
    as (src & dst & ri & rsi & wri & wsi & oi & mi & ai & ui & ci & tp & rest & clock & m & r & wr & o & l & c
        & settle & repaid & seized & Ea & _ & _ & Ht & Hb & _).
  - apply sick_ledger_ok.
  - decide_ok.
  - vm_compute. reflexivity.
  - exists r, o, settle, repaid, seized. injection Ea as <- <- <- <- <- <- <- <- <- <- <- <- <-.
    split; [exact Hb|]. apply (tm_repaid _ _ _ _ _ _ _ Ht).
Defined.
