(* ===== verification/SupplySafety.v ===== *)
(** * Depositing and redeeming liquidity

    What a successful deposit into a reserve, or redemption out of it,
    guarantees. *)

From S2P Require Import Prelude Errors FixedPoint StateBase LendingMarket Reserve.
From S2P Require Import ReserveFacts LoanFacts Obligation ObligationFacts Codec CodecFacts.
From S2P Require Import Solana Oracle ProcessorBase ProcessorFacts ProcessorInvariant ProcessorReserve.
From S2P Require Import RefreshFacts HandlerFacts ProcessorSafety LoanSafety RepaySafety.
From S2P Require Import Testbed TestbedFacts.

Section supply.
Context `{S : Sdk} (program_id : Pubkey) `{L : !SdkLaws program_id}.
Implicit Types (w : World) (k : Pubkey) (info : AccountInfo) (clock : Clock).

(** A reserve is written, then tokens move. *)
Lemma reserve_booked r r1 ri w w1 w' cs :
  World_ok program_id w → holds program_id Reserve w (key ri) r → Reserve_valid r1 →
  is_initialized r1 = is_initialized r → pack r1 ri w = Ok (tt, w1) → moved program_id w1 w' cs →
  holds program_id Reserve w' (key ri) r1 ∧ paid w w' cs ∧ World_ok program_id w'.
Proof.
  intros Hw Hr Hv Hi Hp Hm.
  destruct (pack_reserve_holds program_id r1 ri w tt w1 (proj1 Hv)) as [Hr1 Hc];
    [rewrite Hi; apply Hr|done|apply Hr|done|].
  destruct (keeps_pack_reserve program_id _ ri Hv w tt w1 Hw Hp) as [Hw1 _].
  split; [by eapply moved_reserve|]. split; [|by destruct Hm; eapply World_ok_cpi].
  destruct Hm as [_ (invs & E & HF)]. exists invs. split; [|done]. by rewrite E, (proj1 Hc).
Qed.

Lemma mint_moved mint dst n auth seeds tp w u w' :
  spl_token_mint_to mint dst n auth seeds tp w = Ok (u, w') →
  moved program_id w w' [(mint_to (key tp) (key mint) (key dst) (key auth) [] n, seeds)].
Proof. intros Ht. by eapply token_step_moved, (spl_token_mint_to_Ok program_id). Qed.

Lemma burn_moved mint src n auth seeds tp w u w' :
  spl_token_burn mint src n auth seeds tp w = Ok (u, w') →
  moved program_id w w' [(burn (key tp) (key src) (key mint) (key auth) [] n, seeds)].
Proof. intros Ht. by eapply token_step_moved, (spl_token_burn_Ok program_id). Qed.

Lemma mark_reserve_stale_Ok r info w u w' :
  World_ok program_id w → holds program_id Reserve w (key info) r →
  mark_reserve_stale info w = Ok (u, w') →
  holds program_id Reserve w' (key info) (Reserve.mark_stale r) ∧ inner w' = inner w.
Proof.
  intros Hw Hr H. unfold mark_reserve_stale in H.
  apply M_bind_Ok in H as (r' & w1 & H1 & H). apply (unpack_Ok program_id) in H1 as [-> Hs].
  assert (r' = r) as -> by (eapply stored_inj; [exact Hs|apply Hr]).
  pose proof (holds_reserve_valid program_id _ _ _ Hw Hr) as [Hok _].
  destruct (pack_reserve_holds program_id (Reserve.mark_stale r) info w u w') as [Hh Hc];
    [by apply reserve_mark_stale_ok|apply Hr|done|apply Hr|done|].
  split; [done|apply Hc].
Qed.

(** ** Depositing *)

Lemma deposit_liquidity_inner_Ok n src dst ri rsi cmi mi ai ui clock tp w c w' :
  _deposit_reserve_liquidity program_id n src dst ri rsi cmi mi ai ui clock tp w = Ok (c, w') →
  ∃ m r total sum new_supply r1 w1 w2 u1 u2,
    holds program_id Reserve w (key ri) r ∧ r_lending_market r = key mi ∧
    rl_supply_pubkey (r_liquidity r) = key rsi ∧ rl_supply_pubkey (r_liquidity r) ≠ key src ∧
    rc_mint_pubkey (r_collateral r) = key cmi ∧ fresh (r_last_update r) clock ∧
    ReserveLiquidity.total_supply (r_liquidity r) = Ok total ∧
    try_add (Decimal.from_u64 n) total = Ok sum ∧ Decimal.try_floor_u64 sum = Ok new_supply ∧
    new_supply ≤ deposit_limit (r_config r) ∧
    Reserve.deposit_liquidity r n = Ok (r1, c) ∧
    pack (Reserve.mark_stale r1) ri w = Ok (tt, w1) ∧
    spl_token_transfer src rsi n ui [] tp w1 = Ok (u1, w2) ∧
    spl_token_mint_to cmi dst c ai (authority_seeds m mi) tp w2 = Ok (u2, w').
Proof.
  unfold _deposit_reserve_liquidity. intros H. inv_handler. solve_found.
Qed.

(** What a deposit of [n] that minted [c] changed *)
Record deposit_booked w' (ri : Pubkey) (r : Reserve) (n c : Z) : Prop := {
  db_reserve : ∃ r', holds program_id Reserve w' ri r' ∧ stale (r_last_update r') = true ∧
    supply_wads (r_liquidity r') = supply_wads (r_liquidity r) + WAD * n ∧
    rl_available_amount (r_liquidity r') = rl_available_amount (r_liquidity r) + n ∧
    rc_mint_total_supply (r_collateral r') = rc_mint_total_supply (r_collateral r) + c ∧
    r_config r' = r_config r ∧ slot (r_last_update r') = slot (r_last_update r);
}.

Lemma deposit_inner_spec n src dst ri rsi cmi mi ai ui clock tp w c w' :
  World_ok program_id w → is_u64 n →
  _deposit_reserve_liquidity program_id n src dst ri rsi cmi mi ai ui clock tp w = Ok (c, w') →
  ∃ m r,
    holds program_id Reserve w (key ri) r ∧ r_lending_market r = key mi ∧
    rl_supply_pubkey (r_liquidity r) = key rsi ∧ rc_mint_pubkey (r_collateral r) = key cmi ∧
    (supply_wads (r_liquidity r) + WAD * n) / WAD ≤ deposit_limit (r_config r) ∧
    c = n * exchange_rate_wads r / WAD ∧
    deposit_booked w' (key ri) r n c ∧
    paid w w' (payments tp src ui [] [(key rsi, n)] ++
               [(mint_to (key tp) (key cmi) (key dst) (key ai) [] c, authority_seeds m mi)]).
Proof.
  intros Hw Hn H.
  apply deposit_liquidity_inner_Ok in H as (m & r & total & sum & ns & r1 & w1 & w2 & u1 & u2 & Hr & Hm & Hsup
    & _ & Hmint & _ & Htot & Hsum & Hfl & Hlim & Hd & Hp & Ht1 & Ht2).
  pose proof (holds_reserve_valid program_id _ _ _ Hw Hr) as Hrv.
  apply total_supply_Ok in Htot as (-> & _ & _). apply Decimal_add_Ok in Hsum as [-> _].
  apply Decimal_floor_Ok in Hfl as [-> _]. cbn [dec Decimal.from_u64] in Hlim.
  change Decimal.wad with WAD in Hlim.
  destruct (deposit_liquidity_ok r n r1 c (proj1 Hrv) Hn Hd) as (Hr1 & _ & Hconf).
  destruct (deposit_liquidity_Ok r n r1 c Hd) as (Hc & _ & _ & _ & El & Ec & Er).
  destruct (reserve_booked r _ ri w w1 w' _ Hw Hr (reserve_valid_stale _ (reserve_valid_eq _ _ Hrv Hr1 Hconf))
    ltac:(by rewrite Er) Hp
    (moved_app program_id _ _ _ _ _ (transfer_moved program_id _ _ _ _ _ _ _ _ _ Ht1)
       (mint_moved _ _ _ _ _ _ _ _ _ Ht2))) as (Hh & Hpaid & _).
  exists m, r. split_and!; try done; [by rewrite Z.add_comm|].
  split. exists (Reserve.mark_stale r1). split; [done|]. split; [done|].
  change (r_liquidity (Reserve.mark_stale r1)) with (r_liquidity r1).
  change (r_collateral (Reserve.mark_stale r1)) with (r_collateral r1).
  rewrite El, Ec. split; [unfold supply_wads; cbn; lia|]. rewrite Er. done.
Qed.

(** ** Redeeming *)

Lemma redeem_inner_Ok c src dst ri cmi rsi mi ai ui clock tp w n w' :
  _redeem_reserve_collateral program_id c src dst ri cmi rsi mi ai ui clock tp w = Ok (n, w') →
  ∃ m r r1 w1 w2 u1 u2,
    holds program_id Reserve w (key ri) r ∧ r_lending_market r = key mi ∧
    rl_supply_pubkey (r_liquidity r) = key rsi ∧ rc_mint_pubkey (r_collateral r) = key cmi ∧
    fresh (r_last_update r) clock ∧
    Reserve.redeem_collateral r c = Ok (r1, n) ∧
    pack (Reserve.mark_stale r1) ri w = Ok (tt, w1) ∧
    spl_token_burn cmi src c ui [] tp w1 = Ok (u1, w2) ∧
    spl_token_transfer rsi dst n ai (authority_seeds m mi) tp w2 = Ok (u2, w').
Proof. unfold _redeem_reserve_collateral. intros H. inv_handler. solve_found. Qed.

(** What a redemption of [c] that paid [n] changed *)
Record redemption_booked w' (ri : Pubkey) (r : Reserve) (c n : Z) : Prop := {
  rd_reserve : ∃ r', holds program_id Reserve w' ri r' ∧ stale (r_last_update r') = true ∧
    supply_wads (r_liquidity r') = supply_wads (r_liquidity r) - WAD * n ∧
    rl_available_amount (r_liquidity r') = rl_available_amount (r_liquidity r) - n ∧
    rc_mint_total_supply (r_collateral r') = rc_mint_total_supply (r_collateral r) - c ∧
    r_config r' = r_config r;
}.

Lemma redemption_booked_intro w' ri r c r1 n u :
  Reserve_ok r → Reserve.redeem_collateral r c = Ok (r1, n) →
  holds program_id Reserve w' ri (Reserve.with_last_update r1 u) → stale u = true →
  n = c * WAD / exchange_rate_wads r ∧ n ≤ rl_available_amount (r_liquidity r) ∧
  redemption_booked w' ri r c n.
Proof.
  intros Hr Hd Hh Hu.
  destruct (redeem_collateral_Ok r c r1 n (proj1 (ok_rc_mint_total_supply _ (ok_r_collateral r Hr))) Hd)
    as (Hn & _ & _ & _ & Hav & El & Ec & Er).
  split; [done|]. split; [done|]. split. eexists. split; [exact Hh|]. split; [done|].
  unfold Reserve.with_last_update. cbn.
  rewrite El, Ec. split; [unfold supply_wads; cbn; lia|]. split_and!; try done. by rewrite Er.
Qed.

Lemma redeem_inner_spec c src dst ri cmi rsi mi ai ui clock tp w n w' :
  World_ok program_id w → is_u64 c →
  _redeem_reserve_collateral program_id c src dst ri cmi rsi mi ai ui clock tp w = Ok (n, w') →
  ∃ m r r1,
    holds program_id Reserve w (key ri) r ∧ r_lending_market r = key mi ∧
    rl_supply_pubkey (r_liquidity r) = key rsi ∧ rc_mint_pubkey (r_collateral r) = key cmi ∧
    Reserve.redeem_collateral r c = Ok (r1, n) ∧
    holds program_id Reserve w' (key ri) (Reserve.mark_stale r1) ∧ World_ok program_id w' ∧
    paid w w' ([(burn (key tp) (key src) (key cmi) (key ui) [] c, [])] ++
               payments tp rsi ai (authority_seeds m mi) [(key dst, n)]).
Proof.
  intros Hw Hc H.
  apply redeem_inner_Ok in H as (m & r & r1 & w1 & w2 & u1 & u2 & Hr & Hm & Hsup & Hmint & _ & Hd & Hp & Ht1 & Ht2).
  pose proof (holds_reserve_valid program_id _ _ _ Hw Hr) as Hrv.
  destruct (redeem_collateral_ok r c r1 n (proj1 Hrv) Hc Hd) as (Hr1 & _ & Hconf).
  destruct (redeem_collateral_Ok r c r1 n (proj1 (ok_rc_mint_total_supply _ (ok_r_collateral r (proj1 Hrv)))) Hd)
    as (_ & _ & _ & _ & _ & _ & _ & Er).
  destruct (reserve_booked r _ ri w w1 w' _ Hw Hr (reserve_valid_stale _ (reserve_valid_eq _ _ Hrv Hr1 Hconf))
    ltac:(by rewrite Er) Hp
    (moved_app program_id _ _ _ _ _ (burn_moved _ _ _ _ _ _ _ _ _ Ht1)
       (transfer_moved program_id _ _ _ _ _ _ _ _ _ Ht2))) as (Hh & Hpaid & Hw').
  exists m, r, r1. by split_and!.
Qed.

End supply.

(** ** Properties *)

(** C10: a deposit into a reserve respects its limit and mints a fair share.  The
    reserve's interest is brought up to date first; after the deposit the whole
    supply stays within the configured limit; what is minted is the deposit at
    the exchange rate, rounded down; the supply, the available liquidity and the
    collateral's supply grow by exactly the deposit and the minted amount, and
    the tokens are those of the reserve's own accounts. *)
Theorem deposit_respects_limit `{S : Sdk} (program_id : Pubkey) `{L : !SdkLaws program_id}
    (n : Z) (accounts : list AccountInfo) (w w' : World) (u : unit)
    (Hw : World_ok program_id w) (Hn : is_u64 n)
    (H : process_deposit_reserve_liquidity program_id n accounts w = Ok (u, w')) :
  ∃ src dst ri rsi cmi mi ai ui ci tp rest clock m r0 r c,
    accounts = src :: dst :: ri :: rsi :: cmi :: mi :: ai :: ui :: ci :: tp :: rest ∧
    clock_at w ci clock ∧ holds program_id Reserve w (key ri) r0 ∧ accrued r0 clock r ∧
    r_lending_market r = key mi ∧ rl_supply_pubkey (r_liquidity r) = key rsi ∧
    rc_mint_pubkey (r_collateral r) = key cmi ∧
    (supply_wads (r_liquidity r) + WAD * n) / WAD ≤ deposit_limit (r_config r) ∧
    c = n * exchange_rate_wads r / WAD ∧ deposit_booked program_id w' (key ri) r n c ∧
    paid w w' (payments tp src ui [] [(key rsi, n)] ++
               [(mint_to (key tp) (key cmi) (key dst) (key ai) [] c, authority_seeds m mi)]).
Proof.
  unfold process_deposit_reserve_liquidity in H. inv_handler.
  match goal with
  | Hc : clock_at w _ _, H1 : _refresh_reserve_interest _ _ _ _ = Ok _,
    H2 : _deposit_reserve_liquidity _ _ _ _ _ _ _ _ _ _ _ _ _ = Ok _ |- _ =>
      pose proof (clock_at_u64 program_id _ _ _ Hc) as Hslot;
      destruct (refresh_interest_Ok program_id _ _ _ _ _ Hw Hslot H1) as (r0 & r & Hr0 & Hacc & Hr & Hch & Hw1);
      destruct (deposit_inner_spec program_id _ _ _ _ _ _ _ _ _ _ _ _ _ _ Hw1 Hn H2)
        as (m & r' & Hr' & Hm & Hsup & Hmint & Hlim & Hc' & Hb & invs & E & HF)
  end.
  assert (r' = r) as -> by (eapply stored_inj; [apply Hr'|apply Hr]).
  rewrite (proj1 Hch) in E.
  match type of Hb with deposit_booked _ _ _ _ _ ?c =>
    do 12 eexists; exists m, r0, r, c end.
  split_and!; try reflexivity; try eassumption. by exists invs.
Qed.

(** C11: a redemption pays out what the burnt collateral is worth and leaves the
    reserve stale.  The reserve's interest is brought up to date first; the
    payment is the burnt amount at the exchange rate, rounded down, and never
    more than what is available; supply, available liquidity and the
    collateral's supply fall by exactly the two amounts. *)
Theorem redemption_pays_rate `{S : Sdk} (program_id : Pubkey) `{L : !SdkLaws program_id}
    (c : Z) (accounts : list AccountInfo) (w w' : World) (u : unit)
    (Hw : World_ok program_id w) (Hc : is_u64 c)
    (H : process_redeem_reserve_collateral program_id c accounts w = Ok (u, w')) :
  ∃ src dst ri cmi rsi mi ai ui ci tp rest clock m r0 r n,
    accounts = src :: dst :: ri :: cmi :: rsi :: mi :: ai :: ui :: ci :: tp :: rest ∧
    clock_at w ci clock ∧ holds program_id Reserve w (key ri) r0 ∧ accrued r0 clock r ∧
    r_lending_market r = key mi ∧ rl_supply_pubkey (r_liquidity r) = key rsi ∧
    rc_mint_pubkey (r_collateral r) = key cmi ∧
    n = c * WAD / exchange_rate_wads r ∧ n ≤ rl_available_amount (r_liquidity r) ∧
    redemption_booked program_id w' (key ri) r c n ∧
    paid w w' ([(burn (key tp) (key src) (key cmi) (key ui) [] c, [])] ++
               payments tp rsi ai (authority_seeds m mi) [(key dst, n)]).
Proof.
  unfold process_redeem_reserve_collateral in H. inv_handler.
  match goal with
  | Hck : clock_at w _ _, H1 : _refresh_reserve_interest _ _ _ _ = Ok _,
    H2 : _redeem_reserve_collateral _ _ _ _ _ _ _ _ _ _ _ _ _ = Ok _,
    H3 : mark_reserve_stale _ _ = Ok _ |- _ =>
      pose proof (clock_at_u64 program_id _ _ _ Hck) as Hslot;
      destruct (refresh_interest_Ok program_id _ _ _ _ _ Hw Hslot H1) as (r0 & r & Hr0 & Hacc & Hr & Hch & Hw1);
      destruct (redeem_inner_spec program_id _ _ _ _ _ _ _ _ _ _ _ _ _ _ Hw1 Hc H2)
        as (m & r' & r1 & Hr' & Hm & Hsup & Hmint & Hd & Hh & Hw2 & invs & E & HF);
      destruct (mark_reserve_stale_Ok program_id _ _ _ _ _ Hw2 Hh H3) as [Hh' Ei]
  end.
  assert (r' = r) as -> by (eapply stored_inj; [apply Hr'|apply Hr]).
  pose proof (holds_reserve_valid program_id _ _ _ Hw1 Hr) as [Hrok _].
  destruct (redemption_booked_intro program_id _ _ _ _ _ _ (LastUpdate.mark_stale (r_last_update r1)) Hrok Hd Hh' eq_refl) as (Hn & Hav & Hb).
  rewrite (proj1 Hch) in E.
  match type of Hn with ?n = _ => do 12 eexists; exists m, r0, r, n end.
  split_and!; try reflexivity; try eassumption. exists invs. by rewrite Ei, E.
Qed.

#[local] Existing Instance test_sdk.

Definition deposit_accounts : list AccountInfo :=
  [account 60; account 61; account 33; account 12; account 15; account 9; account test_authority;
   signer 70; account test_clock_id; account test_token_id].

Lemma deposit_respects_limit_witness :
  ∃ r c, deposit_booked solend_program_id
    (world_after (process_deposit_reserve_liquidity solend_program_id 280 deposit_accounts ledger))
    33 r 280 c.
Proof.
  destruct (deposit_respects_limit solend_program_id 280 deposit_accounts ledger
    (world_after (process_deposit_reserve_liquidity solend_program_id 280 deposit_accounts ledger)) tt)
    as (src & dst & ri & rsi & cmi & mi & ai & ui & ci & tp & rest & clock & m & r0 & r & c & Ea & _ & _ & _ & _ & _
        & _ & _ & _ & Hb & _).
  - apply ledger_ok.
  - decide_ok.
  - vm_compute. reflexivity.
  - exists r, c. injection Ea as <- <- <- <- <- <- <- <- <- <- <-. exact Hb.
Defined.

Definition redeem_accounts : list AccountInfo :=
  [account 61; account 60; account 33; account 15; account 12; account 9; account test_authority;
   signer 70; account test_clock_id; account test_token_id].

Lemma redemption_pays_rate_witness :
  ∃ r n, redemption_booked solend_program_id
    (world_after (process_redeem_reserve_collateral solend_program_id 280 redeem_accounts ledger))
    33 r 280 n.
Proof.
  destruct (redemption_pays_rate solend_program_id 280 redeem_accounts ledger
    (world_after (process_redeem_reserve_collateral solend_program_id 280 redeem_accounts ledger)) tt)
    as (src & dst & ri & cmi & rsi & mi & ai & ui & ci & tp & rest & clock & m & r0 & r & n & Ea & _ & _ & _ & _ & _
        & _ & _ & _ & Hb & _).
  - apply ledger_ok.
  - decide_ok.
  - vm_compute. reflexivity.
  - exists r, n. injection Ea as <- <- <- <- <- <- <- <- <- <- <-. exact Hb.
Defined.

(** ** Collecting the protocol's fees

    What a successful [process_redeem_fees] took, and from whom. *)

Section fees.
Context `{S : Sdk} (program_id : Pubkey) `{L : !SdkLaws program_id}.
Implicit Types (w : World) (k : Pubkey) (info : AccountInfo) (clock : Clock).

Lemma redeem_fees_handler_Ok accounts w u w' :
  process_redeem_fees program_id accounts w = Ok (u, w') →
  ∃ ri fi rsi mi ai tp rest clock m r n l w1,
    accounts = ri :: fi :: rsi :: mi :: ai :: tp :: rest ∧ clock_get = Ok clock ∧
    holds program_id Reserve w (key ri) r ∧ fee_receiver (r_config r) = key fi ∧
    rl_supply_pubkey (r_liquidity r) = key rsi ∧ r_lending_market r = key mi ∧
    fresh (r_last_update r) clock ∧
    Reserve.calculate_redeem_fees r = Ok n ∧ n ≠ 0 ∧
    ReserveLiquidity.redeem_fees (r_liquidity r) n = Ok l ∧
    pack (Reserve.mark_stale (Reserve.with_liquidity r l)) ri w = Ok (tt, w1) ∧
    spl_token_transfer rsi fi n ai (authority_seeds m mi) tp w1 = Ok (u, w').
Proof. unfold process_redeem_fees. intros H. inv_handler. solve_found. Qed.

Lemma calculate_redeem_fees_Ok r n :
  Reserve.calculate_redeem_fees r = Ok n →
  n = Z.min (rl_available_amount (r_liquidity r))
        (dec (rl_accumulated_protocol_fees_wads (r_liquidity r)) / WAD).
Proof.
  unfold Reserve.calculate_redeem_fees. intros (z & [-> _]%Decimal_floor_Ok & [= <-])%bind_Ok. done.
Qed.

(** The rate depends on both supplies only. *)
Lemma exchange_rate_wads_eq r r' :
  r_collateral r' = r_collateral r → supply_wads (r_liquidity r') = supply_wads (r_liquidity r) →
  exchange_rate_wads r' = exchange_rate_wads r.
Proof. unfold exchange_rate_wads. by intros -> ->. Qed.

Lemma redeem_fees_supply l n l' :
  ReserveLiquidity.redeem_fees l n = Ok l' → supply_wads l' = supply_wads l.
Proof. intros (_ & _ & ->)%redeem_fees_Ok. unfold supply_wads. cbn. lia. Qed.

(** What collecting [n] tokens of fees changed *)
Record fees_booked w' (ri : Pubkey) (r : Reserve) (n : Z) : Prop := {
  fb_reserve : ∃ r', holds program_id Reserve w' ri r' ∧ stale (r_last_update r') = true ∧
    rl_available_amount (r_liquidity r') = rl_available_amount (r_liquidity r) - n ∧
    dec (rl_accumulated_protocol_fees_wads (r_liquidity r'))
      = dec (rl_accumulated_protocol_fees_wads (r_liquidity r)) - WAD * n ∧
    rl_borrowed_amount_wads (r_liquidity r') = rl_borrowed_amount_wads (r_liquidity r) ∧
    supply_wads (r_liquidity r') = supply_wads (r_liquidity r) ∧
    r_collateral r' = r_collateral r ∧ r_config r' = r_config r;
}.

End fees.

(** ** Properties *)

(** C12: collecting the protocol's fees pays the configured receiver and nobody
    else, and costs the depositors nothing.  The reserve was refreshed in this
    slot; what is taken is the whole part of the accrued fees, or what is
    available when that is less, and never zero; the accrued fees and the
    available amount fall by exactly that, so that the depositors' supply, the
    collateral's supply and with them the exchange rate stay; one transfer leaves
    the reserve's own account.  Anyone may ask for it. *)
Theorem fees_go_to_the_receiver `{S : Sdk} (program_id : Pubkey) `{L : !SdkLaws program_id}
    (accounts : list AccountInfo) (w w' : World) (u : unit)
    (Hw : World_ok program_id w)
    (H : process_redeem_fees program_id accounts w = Ok (u, w')) :
  ∃ ri fi rsi mi ai tp rest clock m r n,
    accounts = ri :: fi :: rsi :: mi :: ai :: tp :: rest ∧ clock_get = Ok clock ∧
    holds program_id Reserve w (key ri) r ∧ fresh (r_last_update r) clock ∧
    r_lending_market r = key mi ∧ fee_receiver (r_config r) = key fi ∧
    rl_supply_pubkey (r_liquidity r) = key rsi ∧
    0 < n ∧ n = Z.min (rl_available_amount (r_liquidity r))
                  (dec (rl_accumulated_protocol_fees_wads (r_liquidity r)) / WAD) ∧
    fees_booked program_id w' (key ri) r n ∧
    (∀ r', holds program_id Reserve w' (key ri) r' → exchange_rate_wads r' = exchange_rate_wads r) ∧
    paid w w' (payments tp rsi ai (authority_seeds m mi) [(key fi, n)]).
Proof.
  apply (redeem_fees_handler_Ok program_id) in H as (ri & fi & rsi & mi & ai & tp & rest & clock & m & r & n & l & w1
    & -> & Hc & Hr & Hfi & Hsup & Hm & Hf & Hn & Hn0 & Hl & Hp & Ht).
  pose proof (holds_reserve_valid program_id _ _ _ Hw Hr) as Hrv.
  pose proof (calculate_redeem_fees_u64 r n (proj1 Hrv) Hn) as Hpos.
  pose proof (liquidity_redeem_fees_ok _ _ _ (ok_r_liquidity r (proj1 Hrv)) Hpos Hl) as Hlok.
  destruct (reserve_booked program_id r _ ri w w1 w' _ Hw Hr
    (reserve_valid_stale _ (reserve_valid_liquidity _ _ Hrv Hlok)) eq_refl Hp
    (transfer_moved program_id _ _ _ _ _ _ _ _ _ Ht)) as (Hh & Hpaid & _).
  pose proof (redeem_fees_supply _ _ _ Hl) as Hsupply. apply redeem_fees_Ok in Hl as (_ & _ & ->).
  exists ri, fi, rsi, mi, ai, tp, rest, clock, m, r, n.
  do 7 (split; [done|]). split; [lia|]. split; [by apply calculate_redeem_fees_Ok|].
  split; [|split; [|done]].
  - split. eexists. split; [exact Hh|]. by split_and!.
  - intros r' Hr'. rewrite (stored_inj _ _ _ _ _ (proj2 Hr') (proj2 Hh)). by apply exchange_rate_wads_eq.
Qed.

#[local] Existing Instance test_sdk.

Definition redeem_fees_accounts : list AccountInfo :=
  [account 33; account 77; account 12; account 9; account test_authority; account test_token_id].

Lemma fees_go_to_the_receiver_witness :
  ∃ n, 0 < n ∧ fees_booked solend_program_id
    (world_after (process_redeem_fees solend_program_id redeem_fees_accounts ledger)) 33 sample_reserve n.
Proof.
  destruct (fees_go_to_the_receiver solend_program_id redeem_fees_accounts ledger
    (world_after (process_redeem_fees solend_program_id redeem_fees_accounts ledger)) tt)
    as (ri & fi & rsi & mi & ai & tp & rest & clock & m & r & n & Ea & _ & Hr & _ & _ & _ & _ & Hn & _ & Hb & _).
  - apply ledger_ok.
  - vm_compute. reflexivity.
  - injection Ea as <- <- <- <- <- <- <-. exists n. split; [exact Hn|].
    rewrite <- (stored_inj Reserve ledger 33 r sample_reserve (proj2 Hr) ledger_reserve_33). exact Hb.
Defined.
