(* ===== verification/SolvencyReserve.v ===== *)
(** * Cover and the handlers of markets and reserves

    Each of them keeps every reserve covered: what a deposit books arrives, what
    a redemption or the protocol's fee takes was booked out before, and a new
    reserve opens accounts that nobody had. *)

From S2P Require Import Prelude Errors FixedPoint StateBase LendingMarket Reserve.
From S2P Require Import ReserveFacts LoanFacts Obligation ObligationFacts Codec CodecFacts Solana Oracle.
From S2P Require Import OracleFacts Tokens ProcessorBase ProcessorFacts ProcessorInvariant ProcessorReserve.
From S2P Require Import RefreshFacts HandlerFacts Pledges ProcessorLoan ProcessorSafety LoanSafety.
From S2P Require Import Solvency SolvencySteps RepaySafety SupplySafety.

Section reserves.
Context `{S : Sdk} `{TS : TokenSdk} (program_id : Pubkey) `{L : !SdkLaws program_id}.
Context `{TL : !TokenLaws program_id}.
Implicit Types (w : World) (k rk : Pubkey) (info : AccountInfo) (δ : Slack) (clock : Clock).
Local Abbreviation holds := (holds program_id).
Local Abbreviation Books := (Books program_id).
Local Abbreviation undeclared := (undeclared program_id).

Lemma books_holds_reserve δ w k r : Books δ w → holds Reserve w k r → Reserve_valid r.
Proof. intros [Hw _]. by apply holds_reserve_valid. Qed.

(** ** Refresh *)

Lemma books_refresh_interest δ info clock w u w' :
  Books δ w → is_u64 (clock_slot clock) →
  _refresh_reserve_interest program_id info clock w = Ok (u, w') → Books δ w'.
Proof.
  intros Hb Hc H. unfold _refresh_reserve_interest in H.
  apply M_bind_Ok in H as (r & w1 & H1 & H). apply (load_Ok program_id) in H1 as (-> & Hs & Ho).
  apply M_bind_Ok in H as (r1 & w1 & H1 & H). apply lift_Ok in H1 as [Ha ->].
  pose proof (books_holds_reserve δ w _ r Hb (conj Ho Hs)) as [Hr Hv].
  destruct (accrue_interest_grows r _ r1 Hr Hc Hv Ha) as (_ & E & Hsame & _).
  assert (Hvs : vaults_of r1 = vaults_of r ∧
    rl_available_amount (r_liquidity r1) = rl_available_amount (r_liquidity r)).
  { rewrite E. unfold vaults_of. cbn [r_liquidity r_collateral Reserve.with_liquidity]. by rewrite Hsame. }
  destruct Hvs as [Hvs Hav].
  eapply (books_reserve_same program_id); [exact Hb|by split|by eapply reserve_valid_refreshed| |done|done|exact H].
  by rewrite E.
Qed.

(** The account is unpacked without a check of its owner. *)
Lemma books_mark_stale δ info w u w' :
  Books δ w → mark_reserve_stale info w = Ok (u, w') → Books δ w'.
Proof.
  intros Hb H. pose proof (keeps_mark_reserve_stale program_id info w u w' (bk_world _ _ _ Hb) H) as [Hw' _].
  unfold mark_reserve_stale in H. apply M_bind_Ok in H as (r & w1 & H1 & H). apply (unpack_Ok program_id) in H1 as [-> Hs].
  pose proof (reserve_mark_stale_ok _ (stored_reserve_ok program_id _ _ _ (bk_world _ _ _ Hb) Hs)) as Hok.
  destruct (Z.eq_dec (owner (account_of w (key info))) program_id) as [Ho|Ho].
  - pose proof (books_holds_reserve _ _ _ _ Hb (conj Ho Hs)) as Hv.
    by apply (books_reserve_same program_id δ w r (Reserve.mark_stale r) info u w' Hb (conj Ho Hs)
      (reserve_valid_stale _ Hv) eq_refl eq_refl eq_refl).
  - split; [done|].
    pose proof (pack_reserve_tokens program_id _ info w u w' Hok (bk_world _ _ _ Hb) H) as Ht.
    apply (pack_Ok program_id) in H as (_ & bs & _ & ->).
    apply (solvent_same_records program_id δ δ w); [| |apply Hb].
    + intros k. split; intros x; unfold HandlerFacts.holds, stored; rewrite (owned_set program_id);
        (destruct (decide (key info = k)) as [<-|Hne]; [by split; intros [? _]|by rewrite data_set_ne]).
    + intros k n Hv. exists n. split; [lia|]. eapply vault_eq, Hv. apply Ht.
Qed.

Lemma books_refresh_reserve δ info pyth feed clock w u w' :
  Books δ w → is_u64 (clock_slot clock) →
  _refresh_reserve program_id info pyth feed clock w = Ok (u, w') → Books δ w'.
Proof.
  intros Hb Hc H. unfold _refresh_reserve in H. repeat inv_handler_step.
  match goal with Hg : get_price _ _ _ w = Ok (_, _) |- _ =>
    apply get_price_reads in Hg as [-> Hp]; [|apply Hb] end.
  match goal with Hr : HandlerFacts.holds _ Reserve w _ ?r, Hk : pack _ _ w = Ok _ |- _ =>
    pose proof (books_holds_reserve _ _ _ _ Hb Hr) as [Hrok Hrv];
    eapply (books_reserve_same program_id) in Hk as (Hb1 & _ & _); [|exact Hb|exact Hr| |done..] end.
  - by eapply books_refresh_interest.
  - split; [|done]. apply with_liquidity_ok; [done|]. apply with_market_price_ok; [apply Hrok|done].
Qed.

(** ** Deposits *)

Lemma books_deposit_inner δ n src dst ri rsi cmi mi ai ui clock tp w c w' :
  Books δ w → is_u64 n → Forall undeclared [src; rsi; ui; tp] →
  _deposit_reserve_liquidity program_id n src dst ri rsi cmi mi ai ui clock tp w = Ok (c, w') →
  Books δ w'.
Proof.
  intros Hb Hn Ha H.
  apply (deposit_liquidity_inner_Ok program_id) in H as (m & r & total & sum & ns & r1 & w1 & w2 & u1 & u2 & Hr
    & _ & Hsup & Hne & _ & _ & _ & _ & _ & _ & Hd & Hp & Ht1 & Ht2).
  pose proof (books_holds_reserve _ _ _ _ Hb Hr) as Hrv.
  destruct (deposit_liquidity_ok r n r1 c (proj1 Hrv) Hn Hd) as (Hr1 & Hc & Hconf).
  destruct (deposit_liquidity_Ok r n r1 c Hd) as (_ & _ & _ & _ & El & Ec & Er).
  destruct (books_reserve program_id δ w r (Reserve.mark_stale r1) ri tt w1 Hb Hr) as (Hb1 & _ & _);
    [by apply reserve_valid_stale; eapply reserve_valid_eq|by rewrite Er| |done|].
  { unfold vaults_of. change (r_liquidity (Reserve.mark_stale r1)) with (r_liquidity r1).
    change (r_collateral (Reserve.mark_stale r1)) with (r_collateral r1). by rewrite El, Ec. }
  change (r_liquidity (Reserve.mark_stale r1)) with (r_liquidity r1) in Hb1. rewrite El in Hb1.
  eapply (books_transfer_in program_id) in Hb1; [|exact Ht1|exact Ha|by rewrite <- Hsup].
  eapply (books_mint program_id) in Hb1; [|exact Ht2|apply Hc].
  eapply books_mono, Hb1. rewrite Hsup. cbn. slack.
Qed.

(** ** Redemptions *)

Lemma books_redeem_inner δ c src dst ri cmi rsi mi ai ui clock tp w n w' :
  Books δ w → is_u64 c → Forall undeclared [src; cmi; ui; tp] →
  _redeem_reserve_collateral program_id c src dst ri cmi rsi mi ai ui clock tp w = Ok (n, w') →
  Books δ w'.
Proof.
  intros Hb Hc Ha H.
  apply (redeem_inner_Ok program_id) in H as (m & r & r1 & w1 & w2 & u1 & u2 & Hr & _ & Hsup & _ & _ & Hd & Hp
    & Ht1 & Ht2).
  pose proof (books_holds_reserve _ _ _ _ Hb Hr) as Hrv.
  destruct (redeem_collateral_ok r c r1 n (proj1 Hrv) Hc Hd) as (Hr1 & Hn & Hconf).
  destruct (redeem_collateral_Ok r c r1 n (proj1 (ok_rc_mint_total_supply _ (ok_r_collateral r (proj1 Hrv)))) Hd)
    as (_ & _ & _ & _ & _ & El & Ec & Er).
  destruct (books_reserve program_id δ w r (Reserve.mark_stale r1) ri tt w1 Hb Hr) as (Hb1 & _ & _);
    [by apply reserve_valid_stale; eapply reserve_valid_eq|by rewrite Er| |done|].
  { unfold vaults_of. change (r_liquidity (Reserve.mark_stale r1)) with (r_liquidity r1).
    change (r_collateral (Reserve.mark_stale r1)) with (r_collateral r1). by rewrite El, Ec. }
  change (r_liquidity (Reserve.mark_stale r1)) with (r_liquidity r1) in Hb1. rewrite El in Hb1.
  eapply (books_burn program_id) in Hb1; [|exact Ht1|exact Ha].
  eapply (books_transfer_out program_id) in Hb1; [|exact Ht2|apply Hn].
  eapply books_mono, Hb1. rewrite Hsup. cbn. slack.
Qed.

(** ** The protocol's fees *)

Lemma books_redeem_fees δ accounts w u w' :
  Books δ w → process_redeem_fees program_id accounts w = Ok (u, w') → Books δ w'.
Proof.
  intros Hb H.
  apply (redeem_fees_handler_Ok program_id) in H as (ri & fi & rsi & mi & ai & tp & rest & clock & m & r & n & l & w1
    & _ & _ & Hr & _ & Hsup & _ & _ & Hn & _ & Hl & Hp & Ht).
  pose proof (books_holds_reserve _ _ _ _ Hb Hr) as Hrv.
  pose proof (calculate_redeem_fees_u64 r n (proj1 Hrv) Hn) as Hpos.
  pose proof (liquidity_redeem_fees_ok _ _ _ (ok_r_liquidity r (proj1 Hrv)) Hpos Hl) as Hlok.
  apply redeem_fees_Ok in Hl as (_ & _ & ->).
  destruct (books_reserve program_id δ w r _ ri tt w1 Hb Hr
    (reserve_valid_stale _ (reserve_valid_liquidity _ _ Hrv Hlok)) eq_refl eq_refl Hp) as (Hb1 & _ & _).
  eapply (books_transfer_out program_id) in Hb1; [|exact Ht|exact Hpos].
  eapply books_mono, Hb1. rewrite Hsup. cbn. slack.
Qed.

End reserves.
