(* ===== verification/CollateralSafety.v ===== *)
(** * Collateral

    What a successful deposit or withdrawal of an obligation's collateral
    guarantees. *)

From S2P Require Import Prelude Errors FixedPoint StateBase LendingMarket Reserve.
From S2P Require Import ReserveFacts LoanFacts Obligation ObligationFacts Liquidation Codec CodecFacts.
From S2P Require Import Solana Oracle ProcessorBase ProcessorFacts ProcessorInvariant ProcessorReserve.
From S2P Require Import ProcessorObligation RefreshFacts HandlerFacts ProcessorSafety LoanSafety.
From S2P Require Import RepaySafety Testbed TestbedFacts.

(** The value of [a] of a deposit's tokens, rounded as the program does *)
Definition withdrawal_value (c : ObligationCollateral) (a : Z) : Z :=
  dec (oc_market_value c) * (WAD * a / deposited_amount c) / WAD.

(** A share computed from a value is worth at most that value. *)
Lemma share_value_le mv cmv dep :
  0 ≤ mv → 0 < cmv → 0 < dep →
  let pct := Z.min mv cmv * WAD / cmv in
  cmv * (WAD * (pct * dep / WAD) / dep) / WAD ≤ mv.
Proof.
  intros Hm Hc Hd pct. pose proof (mul_div_le (Z.min mv cmv) WAD cmv Hc) as Hp. fold pct in Hp.
  assert (0 ≤ pct) by (apply Z.div_pos; unfold WAD; lia).
  assert (WAD * (pct * dep / WAD) / dep ≤ pct).
  { apply div_le_upper; [done|]. pose proof (floor_wad (pct * dep)). lia. }
  apply div_le_upper; [done|]. nia.
Qed.

(** What a withdrawal's amount satisfies. *)
Lemma withdraw_amount_Ok o r c n a :
  Obligation_ok o → Reserve_ok r → is_u64 n → c ∈ o_deposits o → deposited_amount c ≠ 0 →
  withdraw_obligation_amount o r c n = Ok a →
  0 ≤ a ≤ deposited_amount c ∧ (a = 0 → n = 0 ∧ o_borrows o = []) ∧ (n ≠ u64_MAX → a ≤ n) ∧
  (o_borrows o = [] ∨
   dec (o_borrowed_value o) < dec (o_allowed_borrow_value o) ∧
   withdrawal_value c a * (loan_to_value_ratio (r_config r) * PERCENT_SCALER)
     ≤ (dec (o_allowed_borrow_value o) - dec (o_borrowed_value o)) * WAD).
Proof.
  intros Ho Hr Hn Hin Hd0 H.
  pose proof (proj1 (Forall_forall _ _) (ok_o_deposits o Ho) c Hin) as Hc.
  pose proof (withdraw_amount_u64 o r c n a Ho Hr Hn Hc H) as [Ha0 _].
  destruct (ok_deposited_amount c Hc) as [Hdn _]. destruct (ok_oc_market_value c Hc) as [Hcmv _].
  destruct (ok_loan_to_value_ratio _ (ok_r_config r Hr)) as [Hltv _]. destruct Hn as [Hnn _].
  unfold withdraw_obligation_amount in H. case_decide as Hb.
  { injection H as <-. destruct (Z.eqb_spec n u64_MAX); split_and!; try (intros; lia); try (by left);
      intros; split; [lia|done]. }
  case_match; [done|]. apply bind_Ok in H as (mv & Hmv & H). apply require_bind_Ok in H as [Hz H].
  apply bind_Ok in H as (a' & Ha' & H). apply require_bind_Ok in H as [Hne [= ->]].
  unfold Decimal.eqb in Hz. bool_to_prop. cbn [dec Decimal.zero] in Hz.
  assert (Hpos : 0 ≤ rat (Rate.from_percent (loan_to_value_ratio (r_config r)))).
  { cbn. unfold PERCENT_SCALER. lia. }
  pose proof (max_withdraw_value_nonneg o _ mv Ho Hpos Hmv) as Hmv0.
  apply max_withdraw_value_Ok in Hmv as (Hz1 & Hz2 & Hz3); [|done].
  assert (Hroom : dec (o_borrowed_value o) < dec (o_allowed_borrow_value o)).
  { destruct (Z.lt_ge_cases (dec (o_borrowed_value o)) (dec (o_allowed_borrow_value o))) as [|Hle]; [done|].
    rewrite (Hz1 Hle) in Hz. done. }
  assert (Hterm : withdrawal_value c a ≤ dec mv ∧ a ≤ deposited_amount c ∧ (n ≠ u64_MAX → a ≤ n)).
  { unfold withdrawal_value. destruct (Z.eqb_spec n u64_MAX) as [E|E].
    - apply bind_Ok in Ha' as (p & Hp & Ha'). apply bind_Ok in Ha' as (s & Hs & Ha').
      apply bind_Ok in Ha' as (f & Hf & [= <-]). apply Decimal_floor_Ok in Hf as [-> _].
      apply Decimal_mul_u64_Ok in Hs as [-> _]. apply Decimal_div_Ok in Hp as (-> & Hcne & _).
      cbn [dec] in *. rewrite Decimal_min_dec. split; [|split; [lia|done]].
      pose proof (share_value_le (dec mv) (dec (oc_market_value c)) (deposited_amount c) Hmv0 ltac:(lia) ltac:(lia)) as Hsv.
      cbv zeta in Hsv. etransitivity; [|exact Hsv]. apply Z.div_le_mono; [done|].
      apply Z.mul_le_mono_nonneg_l; [done|]. apply Z.div_le_mono; [lia|]. unfold WAD. lia.
    - apply bind_Ok in Ha' as (p & Hp & Ha'). apply bind_Ok in Ha' as (v & Hv & Ha').
      apply require_bind_Ok in Ha' as [Hle [= <-]].
      apply Decimal_div_u64_Ok in Hp as [-> _]. apply Decimal_mul_Ok in Hv as [-> _].
      unfold Decimal.ltb in Hle. bool_to_prop. cbn [dec Decimal.from_u64] in Hle.
      change Decimal.wad with WAD in Hle. split; [exact Hle|]. lia. }
  destruct Hterm as (Hv & Had & Han). split; [lia|]. split; [done|]. split; [done|]. right. split; [done|].
  cbn [rat Rate.from_percent] in *.
  destruct (Z.eq_dec (loan_to_value_ratio (r_config r) * PERCENT_SCALER) 0) as [E|E].
  - rewrite E. unfold WAD. nia.
  - etransitivity; [|apply Hz3; lia]. apply Z.mul_le_mono_nonneg_r; [lia|done].
Qed.

Section collateral.
Context `{S : Sdk} (program_id : Pubkey) `{L : !SdkLaws program_id}.
Implicit Types (w : World) (k : Pubkey) (info : AccountInfo) (clock : Clock).

(** An obligation is written, then tokens move. *)
Lemma obligation_booked o o1 oi w w1 w' cs :
  World_ok program_id w → holds program_id Obligation w (key oi) o → Obligation_ok o1 →
  is_initialized o1 = is_initialized o → pack o1 oi w = Ok (tt, w1) → moved program_id w1 w' cs →
  holds program_id Obligation w' (key oi) o1 ∧ paid w w' cs ∧
  ∀ k (r : Reserve), holds program_id Reserve w k r → holds program_id Reserve w' k r.
Proof.
  intros Hw Ho Hov Hi Hp Hm.
  destruct (pack_obligation_holds program_id o1 oi w tt w1 Hov) as [Ho1 Hc];
    [rewrite Hi; apply Ho|done|apply Ho|done|].
  split; [by eapply moved_obligation|]. split.
  - destruct Hm as [_ (invs & E & HF)]. exists invs. split; [|done]. by rewrite E, (proj1 Hc).
  - intros k r Hr. eapply moved_reserve; [done|].
    pose proof (holds_distinct program_id _ _ _ _ _ Hr Ho) as Hne.
    by apply (only_changes_holds program_id Reserve w (key oi) w1 k r Hc Hne).
Qed.

(** Who may touch the collateral: the obligation and the reserve belong to the
    market, and the obligation's owner signed. *)
Record owner_access w clock (ri oi mi : Pubkey) (wi : AccountInfo) (r : Reserve) (o : Obligation) : Prop := {
  oa_reserve : holds program_id Reserve w ri r;
  oa_obligation : holds program_id Obligation w oi o;
  oa_market : r_lending_market r = mi ∧ o_lending_market o = mi;
  oa_owner : o_owner o = key wi ∧ is_signer wi = true;
  oa_fresh : fresh (r_last_update r) clock;
}.

(** ** Withdrawing *)

Lemma withdraw_inner_Ok n src dst wri oi mi ai wi clock tp w a w' :
  _withdraw_obligation_collateral program_id n src dst wri oi mi ai wi clock tp w = Ok (a, w') →
  ∃ m r o c i o1 w1 u1,
    owner_access w clock (key wri) (key oi) (key mi) wi r o ∧
    rc_supply_pubkey (r_collateral r) = key src ∧
    fresh (o_last_update o) clock ∧
    Obligation.find_collateral_in_deposits o (key wri) = Ok (c, i) ∧ deposited_amount c ≠ 0 ∧
    withdraw_obligation_amount o r c n = Ok a ∧
    Obligation.withdraw o a i = Ok o1 ∧
    pack (Obligation.mark_stale o1) oi w = Ok (tt, w1) ∧
    spl_token_transfer src dst a ai (authority_seeds m mi) tp w1 = Ok (u1, w').
Proof.
  unfold _withdraw_obligation_collateral. intros H. inv_handler.
  repeat lazymatch goal with |- ∃ _, _ => eexists end.
  split; [by split|]. split_and!; eassumption.
Qed.

(** What a withdrawal of [a] collateral tokens changed *)
Record withdrawal_booked w' (wri oi : Pubkey) (o : Obligation) (a : Z) : Prop := {
  wb_obligation : ∃ o', holds program_id Obligation w' oi o' ∧ stale (o_last_update o') = true ∧
    deposits_map o' = map_take wri a (deposits_map o) ∧ borrows_map o' = borrows_map o;
}.

(** The remaining collateral still carries the debt. *)
Definition still_allowed (o : Obligation) (r : Reserve) (c : ObligationCollateral) (a : Z) : Prop :=
  o_borrows o = [] ∨
  dec (o_borrowed_value o) < dec (o_allowed_borrow_value o) ∧
  withdrawal_value c a * (loan_to_value_ratio (r_config r) * PERCENT_SCALER)
    ≤ (dec (o_allowed_borrow_value o) - dec (o_borrowed_value o)) * WAD.

Lemma withdraw_inner_spec n src dst wri oi mi ai wi clock tp w a w' :
  World_ok program_id w → is_u64 n →
  _withdraw_obligation_collateral program_id n src dst wri oi mi ai wi clock tp w = Ok (a, w') →
  ∃ m r o c,
    owner_access w clock (key wri) (key oi) (key mi) wi r o ∧ fresh (o_last_update o) clock ∧
    c ∈ o_deposits o ∧ deposit_reserve c = key wri ∧
    0 ≤ a ≤ deposited_amount c ∧ (a = 0 → n = 0 ∧ o_borrows o = []) ∧
    (n ≠ u64_MAX → a ≤ n) ∧ still_allowed o r c a ∧
    withdrawal_booked w' (key wri) (key oi) o a ∧
    paid w w' (payments tp src ai (authority_seeds m mi) [(key dst, a)]).
Proof.
  intros Hw Hn H.
  apply withdraw_inner_Ok in H as (m & r & o & c & i & o1 & w1 & u1 & Hacc & _ & Hfo & Hc & Hd0 & Ha & Ho1 & Hp & Ht).
  pose proof (oa_reserve _ _ _ _ _ _ _ _ Hacc) as Hr. pose proof (oa_obligation _ _ _ _ _ _ _ _ Hacc) as Ho.
  pose proof (holds_reserve_valid program_id _ _ _ Hw Hr) as [Hrok _].
  pose proof (holds_obligation_ok program_id _ _ _ Hw Ho) as Hov.
  apply find_collateral_Ok in Hc as [Hc Hck]. pose proof (list_elem_of_lookup_2 _ _ _ Hc) as Hcin.
  destruct (withdraw_amount_Ok o r c n a Hov Hrok Hn Hcin Hd0 Ha) as (Hapos & Hzero & Han & Hst).
  pose proof (obligation_withdraw_ok _ _ _ _ Hov (proj1 Hapos) Ho1) as Hov1.
  destruct (obligation_withdraw_fields _ _ _ _ Ho1) as [_ Ei].
  destruct (obligation_withdraw_map _ _ _ _ _ Hov Hc Ho1) as (_ & _ & Ed & Eb).
  destruct (obligation_booked o _ oi w w1 w' _ Hw Ho (obligation_mark_stale_ok _ Hov1) Ei Hp
    (transfer_moved program_id _ _ _ _ _ _ _ _ _ Ht)) as (Ho' & Hpaid & _).
  exists m, r, o, c. split_and!; try done; try lia.
  split. exists (Obligation.mark_stale o1). rewrite <- Hck. by split_and!.
Qed.

(** ** Depositing *)

Lemma deposit_inner_Ok n src dst ri oi mi wi ui clock tp w u w' :
  _deposit_obligation_collateral program_id n src dst ri oi mi wi ui clock tp w = Ok (u, w') →
  ∃ r o o1 w1,
    owner_access w clock (key ri) (key oi) (key mi) wi r o ∧
    rc_supply_pubkey (r_collateral r) = key dst ∧ rc_supply_pubkey (r_collateral r) ≠ key src ∧
    loan_to_value_ratio (r_config r) ≠ 0 ∧
    Obligation.deposit_collateral o (key ri) n = Ok o1 ∧
    pack (Obligation.mark_stale o1) oi w = Ok (tt, w1) ∧
    spl_token_transfer src dst n ui [] tp w1 = Ok (u, w').
Proof.
  unfold _deposit_obligation_collateral. intros H. inv_handler.
  repeat lazymatch goal with |- ∃ _, _ => eexists end.
  split; [by split|]. split_and!; eassumption.
Qed.

End collateral.

(** ** Properties *)

(** C5: a withdrawal of collateral leaves the debt covered.  The obligation's
    owner signed, the obligation and the reserve were refreshed in this slot; at
    most the deposit and at most the request is taken; unless nothing is
    borrowed, the debt was below the allowance and the loan-to-value share of
    the withdrawn value fits between the two; exactly this amount leaves the
    obligation's entry, which disappears when it is used up, and the reserve's
    collateral account, and the obligation needs a refresh. *)
Theorem withdrawal_keeps_debt_covered `{S : Sdk} (program_id : Pubkey) `{L : !SdkLaws program_id}
    (n : Z) (accounts : list AccountInfo) (w w' : World) (u : unit)
    (Hw : World_ok program_id w) (Hn : is_u64 n)
    (H : process_withdraw_obligation_collateral program_id n accounts w = Ok (u, w')) :
  ∃ src dst wri oi mi ai wi ci tp rest clock m r o c a,
    accounts = src :: dst :: wri :: oi :: mi :: ai :: wi :: ci :: tp :: rest ∧
    clock_at w ci clock ∧
    owner_access program_id w clock (key wri) (key oi) (key mi) wi r o ∧
    fresh (o_last_update o) clock ∧ c ∈ o_deposits o ∧ deposit_reserve c = key wri ∧
    0 < a ≤ deposited_amount c ∧ (n ≠ u64_MAX → a ≤ n) ∧ still_allowed o r c a ∧
    withdrawal_booked program_id w' (key wri) (key oi) o a ∧
    paid w w' (payments tp src ai (authority_seeds m mi) [(key dst, a)]).
Proof.
  unfold process_withdraw_obligation_collateral in H. inv_handler.
  match goal with H : _withdraw_obligation_collateral _ _ _ _ _ _ _ _ _ _ _ _ = Ok _ |- _ =>
    apply (withdraw_inner_spec program_id) in H as (m & r & o & c & ? & ? & ? & ? & Ha & Hzero & ? & ? & ? & ?);
      [|done..] end.
  match type of Ha with 0 ≤ ?a ≤ ?d =>
    assert (0 < a ≤ d) by (destruct (Z.eq_dec a 0) as [E|]; [by destruct (Hzero E)|lia]) end.
  solve_found.
Qed.

#[local] Existing Instance test_sdk.

Definition withdraw_accounts : list AccountInfo :=
  [account 16; account 61; account 31; account 50; account 9; account test_authority; signer 21;
   account test_clock_id; account test_token_id].

Lemma withdrawal_keeps_debt_covered_witness :
  ∃ o a, withdrawal_booked solend_program_id
    (world_after (process_withdraw_obligation_collateral solend_program_id 20 withdraw_accounts ledger))
    31 50 o a ∧ 0 < a ∧ a ≤ 20.
Proof.
  destruct (withdrawal_keeps_debt_covered solend_program_id 20 withdraw_accounts ledger
    (world_after (process_withdraw_obligation_collateral solend_program_id 20 withdraw_accounts ledger)) tt)
    as (src & dst & wri & oi & mi & ai & wi & ci & tp & rest & clock & m & r & o & c & a & Ea & _ & _ & _ & _ & _
        & Hpos & Hle & _ & Hb & _).
  - apply ledger_ok.
  - decide_ok.
  - vm_compute. reflexivity.
  - exists o, a. injection Ea as <- <- <- <- <- <- <- <- <- <-.
    split; [exact Hb|]. split; [apply Hpos|by apply Hle].
Defined.
