(* ===== verification/FlashSafety.v ===== *)
(** * Flash loans

    A flash loan that succeeds was paid back with its fee and left the reserve's
    record as it was. *)

From S2P Require Import Prelude Errors FixedPoint StateBase LendingMarket Reserve.
From S2P Require Import ReserveFacts LoanFacts Obligation ObligationFacts Codec CodecFacts.
From S2P Require Import Solana Oracle ProcessorBase ProcessorFacts ProcessorInvariant ProcessorReserve.
From S2P Require Import RefreshFacts HandlerFacts ProcessorLoan ProcessorSafety LoanSafety SupplySafety.
From S2P Require Import Testbed TestbedFacts.

Section flash.
Context `{S : Sdk} (program_id : Pubkey) `{L : !SdkLaws program_id}.
Implicit Types (w : World) (k : Pubkey) (info : AccountInfo) (clock : Clock).

(** The balance of a token account *)
Definition balance_at w k (n : Z) : Prop := token_amount (data (account_of w k)) = Ok n.

Lemma token_balance_Ok info w n w' :
  token_balance info w = Ok (n, w') → w' = w ∧ balance_at w (key info) n.
Proof. unfold token_balance. intros Hb. by inv_m. Qed.

Definition loan_amount (r : Reserve) (n : Z) : Z :=
  if n =? u64_MAX then rl_available_amount (r_liquidity r) else n.

(** The guards and the steps of a flash loan that succeeded *)
Lemma flash_handler_Ok n accounts w u w' :
  process_flash_loan program_id n accounts w = Ok (u, w') →
  ∃ src dst ri fi hi mi ai tp rp rest m r fee host before expected required l1 r2 l2 after owner_fee
    w1 w2 w3 w4 w5 u1 u2,
    accounts = src :: dst :: ri :: fi :: hi :: mi :: ai :: tp :: rp :: rest ∧
    program_id ≠ key rp ∧
    holds program_id Reserve w (key ri) r ∧ r_lending_market r = key mi ∧
    rl_supply_pubkey (r_liquidity r) = key src ∧
    ReserveFees.calculate_flash_loan_fees (fees (r_config r)) (Decimal.from_u64 (loan_amount r n))
      = Ok (fee, host) ∧
    balance_at w (key src) before ∧ expected = before + fee ∧ required = loan_amount r n + fee ∧
    ReserveLiquidity.borrow (r_liquidity r) (Decimal.from_u64 (loan_amount r n)) = Ok l1 ∧
    pack (Reserve.with_liquidity r l1) ri w = Ok (tt, w1) ∧
    spl_token_transfer src dst (loan_amount r n) ai (authority_seeds m mi) tp w1 = Ok (u1, w2) ∧
    invoke (flash_loan_instruction (key rp) (key dst) (key src) (key tp) required rest)
      ([dst; rp; src; tp] ++ rest) w2 = Ok (u2, w3) ∧
    stored Reserve w3 (key ri) r2 ∧
    ReserveLiquidity.repay (r_liquidity r2) (loan_amount r n) (Decimal.from_u64 (loan_amount r n)) = Ok l2 ∧
    pack (Reserve.with_liquidity r2 l2) ri w3 = Ok (tt, w4) ∧
    balance_at w4 (key src) after ∧ expected ≤ after ∧
    pay_host_fee fee host src hi ai (authority_seeds m mi) tp w4 = Ok (owner_fee, w5) ∧
    pay_owner_fee owner_fee src fi ai (authority_seeds m mi) tp w5 = Ok (u, w').
Proof.
  unfold process_flash_loan. intros H. inv_handler.
  repeat match goal with
         | H : token_balance _ _ = Ok _ |- _ => apply token_balance_Ok in H as [-> ?]
         | H : unpack Reserve _ _ = Ok _ |- _ => apply (unpack_Ok program_id) in H as [-> ?]
         | H : ok_or_overflow (checked_add _ _ _) = Ok _ |- _ =>
             apply ok_or_overflow_Ok, checked_add_Some in H as [-> _]
         end.
  solve_found.
Qed.

(** Lending and taking back leaves the liquidity as it was. *)
Lemma borrow_repay_id l n l1 l2 :
  0 ≤ n → 0 ≤ dec (rl_borrowed_amount_wads l) →
  ReserveLiquidity.borrow l (Decimal.from_u64 n) = Ok l1 →
  ReserveLiquidity.repay l1 n (Decimal.from_u64 n) = Ok l2 → l2 = l.
Proof.
  intros Hn Hb (_ & _ & _ & ->)%borrow_Ok (_ & ->)%repay_Ok.
  cbn [dec Decimal.from_u64]. change Decimal.wad with WAD.
  rewrite (Z.mul_comm WAD n), Z.div_mul by done. destruct l as [? ? ? ? ? ? [b] ? ? ?].
  unfold ReserveLiquidity.with_available_borrowed. cbn in *.
  f_equal; [lia|]. f_equal. unfold WAD in *. lia.
Qed.

End flash.

(** ** Properties *)


#[local] Existing Instance test_sdk.

Definition flash_accounts : list AccountInfo :=
  [account 12; account 60; account 33; account 77; account 62; account 9; account test_authority;
   account test_token_id; account test_receiver_id].

