(* ===== verification/SolvencyLoan.v ===== *)
(** * Cover and the handlers of obligations and loans

    Each of them keeps every reserve covered: a pledge arrives at the reserve's
    collateral account, what a withdrawal or a liquidation takes was booked out
    before, a loan leaves with exactly what was booked, and a flash loan is back
    before its fee goes. *)

From S2P Require Import Prelude Errors FixedPoint StateBase LendingMarket Reserve.
From S2P Require Import ReserveFacts LoanFacts Obligation ObligationFacts Liquidation Codec CodecFacts.
From S2P Require Import Solana Oracle Tokens ProcessorBase ProcessorFacts ProcessorInvariant ProcessorReserve.
From S2P Require Import ProcessorObligation RefreshFacts HandlerFacts Pledges ProcessorLoan ProcessorSafety.
From S2P Require Import RefreshSafety LoanSafety Solvency SolvencySteps RepaySafety SolvencyReserve.
From S2P Require Import CollateralSafety FlashSafety.

(** The deposits map depends on the reserve and the amount of each entry. *)
Lemma deposits_map_eq o o' :
  (λ c, (deposit_reserve c, deposited_amount c)) <$> o_deposits o'
    = (λ c, (deposit_reserve c, deposited_amount c)) <$> o_deposits o →
  deposits_map o' = deposits_map o.
Proof. unfold deposits_map, keyed_map. by intros ->. Qed.

Section loans.
Context `{S : Sdk} `{TS : TokenSdk} (program_id : Pubkey) `{L : !SdkLaws program_id}.
Context `{TL : !TokenLaws program_id}.
Implicit Types (w : World) (k rk : Pubkey) (info : AccountInfo) (δ : Slack) (clock : Clock).
Local Abbreviation holds := (holds program_id).
Local Abbreviation Books := (Books program_id).
Local Abbreviation undeclared := (undeclared program_id).

Lemma books_holds_obligation δ w k o : Books δ w → holds Obligation w k o → Obligation_ok o.
Proof. intros [Hw _]. by apply holds_obligation_ok. Qed.

(** ** Collateral *)

Lemma books_pledge_inner δ n src dst ri oi mi wi ui clock tp w u w' :
  Books δ w → is_u64 n → is_key (key ri) → Forall undeclared [src; dst; ui; tp] →
  _deposit_obligation_collateral program_id n src dst ri oi mi wi ui clock tp w = Ok (u, w') →
  Books δ w'.
Proof.
  intros Hb Hn Hk Ha H.
  apply (deposit_inner_Ok program_id) in H as (r & o & o1 & w1 & [Hr Ho _ _ _] & Hsup & Hne & _ & Ho1 & Hp & Ht).
  pose proof (books_holds_obligation _ _ _ _ Hb Ho) as Hov.
  destruct (deposit_collateral_map o o1 _ _ Hov Ho1) as [Ed _].
  assert (Hi : is_initialized (Obligation.mark_stale o1) = is_initialized o).
  { by apply deposit_collateral_Ok in Ho1 as [(j & c & _ & _ & _ & ->)|(_ & _ & _ & ->)]. }
  destruct (books_pledge program_id δ w o (Obligation.mark_stale o1) oi (key ri) r n tt w1 Hb Ho)
    as (Hb1 & _ & _); [|exact Hi|exact Hr|exact Ed|exact Hp|].
  { apply obligation_mark_stale_ok. by eapply deposit_collateral_ok, Ho1. }
  eapply (books_transfer_in program_id) in Hb1; [|exact Ht|exact Ha|by rewrite <- Hsup].
  eapply books_mono, Hb1. rewrite Hsup. slack.
Qed.

Lemma books_withdraw_inner δ n src dst wri oi mi ai wi clock tp w a w' :
  Books δ w → is_u64 n →
  _withdraw_obligation_collateral program_id n src dst wri oi mi ai wi clock tp w = Ok (a, w') →
  Books δ w'.
Proof.
  intros Hb Hn H.
  apply (withdraw_inner_Ok program_id) in H as (m & r & o & c & i & o1 & w1 & u1 & [Hr Ho _ _ _] & Hsup & _ & Hc
    & Hd0 & Ha & Ho1 & Hp & Ht).
  pose proof (books_holds_reserve program_id _ _ _ _ Hb Hr) as [Hrok _].
  pose proof (books_holds_obligation _ _ _ _ Hb Ho) as Hov.
  apply find_collateral_Ok in Hc as [Hc Hck]. pose proof (list_elem_of_lookup_2 _ _ _ Hc) as Hcin.
  destruct (withdraw_amount_Ok o r c n a Hov Hrok Hn Hcin Hd0 Ha) as ([Hapos _] & _).
  pose proof (obligation_withdraw_ok _ _ _ _ Hov Hapos Ho1) as Hov1.
  destruct (obligation_withdraw_fields _ _ _ _ Ho1) as [_ Ei].
  destruct (obligation_withdraw_map _ _ _ _ _ Hov Hc Ho1) as (_ & _ & Ed & _). rewrite Hck in Ed.
  destruct (books_unpledge program_id δ w o (Obligation.mark_stale o1) oi (key wri) r a tt w1 Hb Ho)
    as (Hb1 & _ & _); [by apply obligation_mark_stale_ok|exact Ei|exact Hr|exact Ed|exact Hp|].
  eapply (books_transfer_out program_id) in Hb1; [|exact Ht|exact Hapos].
  eapply books_mono, Hb1. rewrite Hsup. slack.
Qed.

(** ** Borrowing and repaying *)

(** The payments that end a borrow, the fee's parts and the loan *)
Lemma books_borrow_payout δ iter fee host receive src fr dst auth seeds tp w w1 w2 w' owner_fee u1 u :
  Books δ w → 0 ≤ host → 0 ≤ fee → 0 ≤ receive →
  (match next_account_info iter with
   | Ok (host_info, _) => pay_host_fee fee host src host_info auth seeds tp
   | Err _ => mret fee
   | Panic => lift Panic
   end) w = Ok (owner_fee, w1) →
  pay_owner_fee owner_fee src fr auth seeds tp w1 = Ok (u1, w2) →
  spl_token_transfer src dst receive auth seeds tp w2 = Ok (u, w') →
  Books (bump (key src) (fee + receive) δ) w'.
Proof.
  intros Hb Hh Hf Hr H1 H2 H3.
  assert (Hb1 : Books (bump (key src) (fee - owner_fee) δ) w1 ∧ 0 ≤ owner_fee).
  { destruct (next_account_info iter) as [[hi rest]| |]; [| |done].
    - destruct (books_pay_host_fee program_id δ _ _ _ _ _ _ _ _ _ _ Hb Hh H1) as [? Hpos]. split; [done|by apply Hpos].
    - apply M_ret_Ok in H1 as [-> ->]. split; [|done]. eapply books_mono, Hb. slack. }
  destruct Hb1 as [Hb1 Ho].
  eapply (books_pay_owner_fee program_id) in Hb1; [|exact Ho|exact H2].
  eapply (books_transfer_out program_id) in Hb1; [|exact H3|exact Hr].
  eapply books_mono, Hb1. slack.
Qed.

(** The parts of a computed borrow *)
Lemma borrow_parts r o n rem cap res :
  Reserve_valid r → Obligation_ok o → is_u64 n → Obligation.remaining_borrow_value o = Ok rem →
  remaining_reserve_capacity r = Ok cap → Reserve.calculate_borrow r n rem cap = Ok res →
  0 ≤ dec (cb_borrow_amount res) ∧ 0 ≤ cb_host_fee res ≤ cb_borrow_fee res ∧
  0 ≤ cb_receive_amount res ∧
  dec (cb_borrow_amount res) / WAD = cb_receive_amount res + cb_borrow_fee res.
Proof.
  intros [Hr Hv] Ho Hn Hrem Hcap Hres.
  pose proof (borrow_amount_nonneg r o n _ _ res (conj Hr Hv) Ho Hn Hrem Hcap Hres) as Hb.
  apply Decimal_sub_Ok in Hrem as [-> Hroom].
  assert (Hhost : 0 ≤ cb_host_fee res ≤ cb_borrow_fee res).
  { eapply calculate_borrow_split, Hres; [done|done|cbn; lia|]. apply validate_reserve_config_Ok in Hv. lia. }
  eassert (Hspec := λ H1 H2 H3, calculate_borrow_Ok r n _ _ res (proj1 Hn) H1 H2 H3 Hres).
  destruct Hspec as (_ & Hsplit & Hmax & Hother); [apply Hr|cbn; lia|apply Hr|].
  split; [done|]. split; [done|]. split; [|done].
  destruct (decide (n = u64_MAX)) as [E|E]; [by apply Hmax|].
  destruct (Hother E) as [-> _]. apply Hn.
Qed.

Lemma books_borrow δ n accounts w u w' :
  Books δ w → is_u64 n → Forall info_ok accounts →
  process_borrow_obligation_liquidity program_id n accounts w = Ok (u, w') → Books δ w'.
Proof.
  intros Hb Hn Ha H.
  apply (borrow_handler_Ok program_id) in H as (src & dst & ri & fi & oi & mi & ai & wi & ci & tp & rest & clock & m
    & r & o & rem & cap & res & l & o1 & w1 & w2 & w3 & w4 & owner_fee & u1 & -> & _ & _ & Hr & _
    & _ & Hsup & _ & Ho & _ & _ & _ & _ & _ & Hrem & Hcap & Hres & Hl & Hp1 & Ho1 & Hp2 & Hpay1 & Hpay2 & Hpay3).
  pose proof (books_holds_reserve program_id _ _ _ _ Hb Hr) as Hrv.
  pose proof (books_holds_obligation _ _ _ _ Hb Ho) as Hov.
  destruct (borrow_parts r o n rem cap res Hrv Hov Hn Hrem Hcap Hres) as (Hbor & Hhost & Hrec & Hsplit).
  pose proof (liquidity_borrow_ok _ _ _ (ok_r_liquidity r (proj1 Hrv)) Hbor Hl) as Hlok.
  apply borrow_Ok in Hl as (_ & _ & _ & ->).
  destruct (books_reserve program_id δ w r _ ri tt w1 Hb Hr
    (reserve_valid_stale _ (reserve_valid_liquidity _ _ Hrv Hlok)) eq_refl eq_refl Hp1) as (Hb1 & _ & Hch).
  pose proof (holds_distinct program_id _ _ _ _ _ Hr Ho) as Hne.
  pose proof (proj2 (only_changes_holds program_id Obligation w (key ri) w1 (key oi) o Hch (not_eq_sym Hne)) Ho) as Ho'.
  assert (Hk : is_key (key ri)). { rewrite Forall_forall in Ha. apply Ha. solve_in. }
  pose proof (borrow_liquidity_ok _ _ _ _ _ Hov Hk (ok_rl_cumulative _ (ok_r_liquidity r (proj1 Hrv))) Hbor Ho1) as Hov1.
  destruct (borrow_liquidity_fields _ _ _ _ _ Ho1) as [_ Einit].
  destruct (borrow_liquidity_map _ _ _ _ _ Hov Ho1) as [_ Edm].
  destruct (books_obligation_same program_id _ w1 o (Obligation.mark_stale o1) oi tt w2 Hb1 Ho'
    (obligation_mark_stale_ok _ Hov1) Einit Edm Hp2) as (Hb2 & _ & _).
  eapply books_borrow_payout in Hb2; [|exact (proj1 Hhost)| |exact Hrec|exact Hpay1|exact Hpay2|exact Hpay3]; [|lia].
  eapply books_mono, Hb2. rewrite Hsup. cbn. slack.
Qed.

Lemma books_repay δ n accounts w u w' :
  Books δ w → is_u64 n → Forall undeclared accounts →
  process_repay_obligation_liquidity program_id n accounts w = Ok (u, w') → Books δ w'.
Proof.
  intros Hb0 Hn Ha H.
  apply (repay_handler_Ok program_id) in H as (src & dst & ri & oi & mi & ai & ci & tp & rest & clock & w1
    & r & o & l & i & l' & res & rl & o1 & w2 & w3 & -> & Hclock & Hrf & Hr & _ & Hsup & Hsrc & Ho & _ & Hfind
    & Hacc & Hres & Hrl & Hp1 & Ho1 & Hp2 & Ht).
  pose proof (books_refresh_interest program_id _ _ _ _ _ _ Hb0 (clock_at_u64 program_id _ _ _ Hclock) Hrf) as Hb.
  pose proof (books_holds_reserve program_id _ _ _ _ Hb Hr) as Hrv.
  pose proof (books_holds_obligation _ _ _ _ Hb Ho) as Hov.
  apply find_liquidity_Ok in Hfind as [Hl Hk].
  pose proof (ok_rl_cumulative _ (ok_r_liquidity r (proj1 Hrv))) as Hrate.
  pose proof (Forall_lookup_1 _ _ _ _ (ok_o_borrows o Hov) Hl) as Hlok.
  pose proof (accrue_entry_ok o i l _ l' Hov Hrate Hl Hacc) as Hov'.
  apply liquidity_accrue_Ok in Hacc as (_ & _ & [Hd0 _] & _ & _); [|done..].
  destruct (repay_amounts_nonneg r n _ res (proj1 Hn) Hd0 Hres) as [Hs0 Hp0].
  pose proof (liquidity_repay_ok _ _ _ _ (ok_r_liquidity r (proj1 Hrv)) Hp0 Hs0 Hrl) as Hrlok.
  apply repay_Ok in Hrl as (_ & ->).
  destruct (books_reserve program_id δ w1 r _ ri tt w2 Hb Hr
    (reserve_valid_stale _ (reserve_valid_liquidity _ _ Hrv Hrlok)) eq_refl eq_refl Hp1) as (Hb1 & _ & Hch).
  pose proof (holds_distinct program_id _ _ _ _ _ Hr Ho) as Hne.
  pose proof (proj2 (only_changes_holds program_id Obligation w1 (key ri) w2 (key oi) o Hch (not_eq_sym Hne)) Ho) as Ho'.
  pose proof (obligation_repay_ok _ _ _ _ Hov' Hs0 Ho1) as Hov1.
  apply obligation_repay_Ok in Ho1 as (l1 & _ & _ & ->).
  destruct (books_obligation_same program_id _ w2 o _ oi tt w3 Hb1 Ho'
    (obligation_mark_stale_ok _ Hov1) eq_refl eq_refl Hp2) as (Hb2 & _ & _).
  eapply (books_transfer_in program_id) in Hb2; [|exact Ht| |by rewrite <- Hsup].
  - eapply books_mono, Hb2. rewrite Hsup. cbn. slack.
  - rewrite !Forall_cons in Ha. rewrite !Forall_cons. naive_solver.
Qed.

(** ** Liquidation *)

Lemma books_liquidate_inner δ n src dst ri rsi wri wsi oi mi ai ui clock tp w a w' :
  Books δ w → is_u64 n → Forall undeclared [src; rsi; ui; tp] →
  _liquidate_obligation program_id n src dst ri rsi wri wsi oi mi ai ui clock tp w = Ok (a, w') →
  Books δ w'.
Proof.
  intros Hb Hn Ha H.
  apply (liquidate_inner_Ok program_id) in H as (m & r & wr & o & l & i & c & j & res & rl & o1 & o2 & w1 & w2 & w3
    & u1 & u2 & Hr & _ & Hsup & Hsrc & _ & Hwr & _ & Hwsup & _ & Ho & _ & _ & _ & Hl & Hc & Hres & _ & _ & -> & Hrl
    & Hp1 & Ho1 & Ho2 & Hp2 & Ht1 & Ht2).
  pose proof (books_holds_reserve program_id _ _ _ _ Hb Hr) as Hrv.
  pose proof (books_holds_reserve program_id _ _ _ _ Hb Hwr) as [Hwok _].
  pose proof (books_holds_obligation _ _ _ _ Hb Ho) as Hov.
  destruct (liquidation_amounts_nonneg wr n o _ _ _ _ _ _ res Hwok Hn Hov Hl Hc Hres) as (Hs & Hp & Hwd).
  apply find_collateral_Ok in Hc as [Hc Hck].
  pose proof (liquidity_repay_ok _ _ _ _ (ok_r_liquidity r (proj1 Hrv)) Hp Hs Hrl) as Hrlok.
  pose proof (obligation_repay_ok _ _ _ _ Hov Hs Ho1) as Hov1.
  pose proof (obligation_withdraw_ok _ _ _ _ Hov1 (proj1 Hwd) Ho2) as Hov2.
  destruct (obligation_withdraw_fields _ _ _ _ Ho2) as [_ E2].
  apply repay_Ok in Hrl as (_ & ->).
  destruct (books_reserve program_id δ w r _ ri tt w1 Hb Hr
    (reserve_valid_stale _ (reserve_valid_liquidity _ _ Hrv Hrlok)) eq_refl eq_refl Hp1) as (Hb1 & Hr1 & Hch).
  pose proof (holds_distinct program_id _ _ _ _ _ Hr Ho) as Hne.
  pose proof (proj2 (only_changes_holds program_id Obligation w (key ri) w1 (key oi) o Hch (not_eq_sym Hne)) Ho) as Ho'.
  assert (Hwr1 : ∃ wr1, holds Reserve w1 (key wri) wr1 ∧
    rc_supply_pubkey (r_collateral wr1) = rc_supply_pubkey (r_collateral wr)).
  { destruct (decide (key wri = key ri)) as [E|E].
    - rewrite E in Hwr. assert (wr = r) as -> by (eapply stored_inj; [apply Hwr|apply Hr]).
      rewrite E. eexists. split; [exact Hr1|done].
    - exists wr. split; [|done]. by apply (only_changes_holds program_id Reserve w (key ri) w1). }
  destruct Hwr1 as (wr1 & Hwr1 & Ewr).
  apply obligation_repay_Ok in Ho1 as (l1 & _ & _ & ->).
  destruct (obligation_withdraw_map _ _ _ _ _ Hov1 Hc Ho2) as (_ & _ & Ed & _). rewrite Hck in Ed.
  destruct (books_unpledge program_id _ w1 o (Obligation.mark_stale o2) oi (key wri) wr1 (cl_withdraw_amount res)
    tt w2 Hb1 Ho' (obligation_mark_stale_ok _ Hov2) E2 Hwr1 Ed Hp2) as (Hb2 & _ & _).
  eapply (books_transfer_in program_id) in Hb2; [|exact Ht1|exact Ha|by rewrite <- Hsup].
  eapply (books_transfer_out program_id) in Hb2; [|exact Ht2|apply Hwd].
  eapply books_mono, Hb2. rewrite Ewr, Hsup, Hwsup. cbn. slack.
Qed.

(** ** Refreshing an obligation *)

Lemma refreshed_deposits w clock ds rs ds' :
  Forall3 (deposit_refreshed program_id w clock) ds rs ds' →
  (λ c, (deposit_reserve c, deposited_amount c)) <$> ds'
    = (λ c, (deposit_reserve c, deposited_amount c)) <$> ds.
Proof.
  intros Hf. induction Hf as [|c r c' ds rs ds' (_ & v & _ & ->) _ IH]; [done|]. cbn. by rewrite IH.
Qed.

Lemma books_refresh_obligation δ accounts w u w' :
  Books δ w → process_refresh_obligation program_id accounts w = Ok (u, w') → Books δ w'.
Proof.
  intros Hb H.
  apply (refresh_obligation_Ok program_id) in H as (info & ci & rest & clock & o & o' & -> & _ & Ho & Hrf & Hok & Hi
    & Hp); [|apply Hb].
  destruct (rf_values _ _ _ _ _ Hrf) as (rs & qs & cap & Hds & _).
  apply (books_obligation_same program_id δ w o o' info u w' Hb Ho Hok); [|by eapply deposits_map_eq, refreshed_deposits|done].
  rewrite Hi. symmetry. apply Ho.
Qed.

(** ** Flash loans *)

(** The receiver has returned and the reserve's record is what it was: the check
    of the balance restores the cover, and leaves the fee to be paid. *)
Lemma books_flash_returned δ δ' w w4 k r before after fee :
  Books δ w → holds Reserve w k r → balance_at w (rl_supply_pubkey (r_liquidity r)) before →
  Books δ' w4 → holds Reserve w4 k r → balance_at w4 (rl_supply_pubkey (r_liquidity r)) after →
  before + fee ≤ after → (∀ s, s ≠ rl_supply_pubkey (r_liquidity r) → δ' s ≤ δ s) →
  Books (bump (rl_supply_pubkey (r_liquidity r)) (- fee) δ) w4.
Proof.
  intros [_ Hs] Hr Hbal [Hw4 Hs4] Hr4 Hbal4 Hle Hδ. split; [done|].
  destruct (sv_supply _ _ _ Hs k r Hr) as (n & Hv & Hn).
  destruct (sv_supply _ _ _ Hs4 k r Hr4) as (n4 & Hv4 & _).
  pose proof (vault_balance program_id _ _ _ _ Hv Hbal). pose proof (vault_balance program_id _ _ _ _ Hv4 Hbal4). subst.
  eapply solvent_mono, (solvent_known_balance program_id δ' w4 k r n4
    (δ (rl_supply_pubkey (r_liquidity r)) - fee)); [|done|done|lia|done].
  intros s. cbv beta. unfold bump. case_decide as E; [subst; lia|]. specialize (Hδ s E). lia.
Qed.

(** The loan, the receiver's run and the record written back: the reserve is as it
    was, and only its own account may be short. *)
Lemma books_flash_round δ w r src dst ri mi ai tp rp rest m n required l1 r2 l2 u1 u2 w1 w2 w3 w4 :
  Books δ w → holds Reserve w (key ri) r → rl_supply_pubkey (r_liquidity r) = key src → 0 ≤ n →
  program_id ≠ key rp → Forall undeclared ([dst; rp; src; tp] ++ rest) →
  ReserveLiquidity.borrow (r_liquidity r) (Decimal.from_u64 n) = Ok l1 →
  pack (Reserve.with_liquidity r l1) ri w = Ok (tt, w1) →
  spl_token_transfer src dst n ai (authority_seeds m mi) tp w1 = Ok (u1, w2) →
  invoke (flash_loan_instruction (key rp) (key dst) (key src) (key tp) required rest)
    ([dst; rp; src; tp] ++ rest) w2 = Ok (u2, w3) →
  stored Reserve w3 (key ri) r2 →
  ReserveLiquidity.repay (r_liquidity r2) n (Decimal.from_u64 n) = Ok l2 →
  pack (Reserve.with_liquidity r2 l2) ri w3 = Ok (tt, w4) →
  holds Reserve w4 (key ri) r ∧
  ∃ δ', Books δ' w4 ∧ ∀ s, s ≠ rl_supply_pubkey (r_liquidity r) → δ' s ≤ δ s.
Proof.
  intros Hb Hr Hsup Hn Hne Hun Hl1 Hp1 Ht Hi Hs2 Hl2 Hp2.
  pose proof (books_holds_reserve program_id _ _ _ _ Hb Hr) as Hrv.
  destruct (ok_rl_borrowed _ (ok_r_liquidity r (proj1 Hrv))) as [Hbor _].
  assert (Hd : 0 ≤ dec (Decimal.from_u64 n)).
  { cbn [dec Decimal.from_u64]. change Decimal.wad with WAD. unfold WAD. lia. }
  pose proof (liquidity_borrow_ok _ _ _ (ok_r_liquidity r (proj1 Hrv)) Hd Hl1) as Hl1ok.
  destruct (borrow_Ok _ _ _ Hl1) as (_ & _ & _ & El1).
  assert (Hvs : vaults_of (Reserve.with_liquidity r l1) = vaults_of r) by (unfold vaults_of; by rewrite El1).
  destruct (books_reserve program_id δ w r _ ri tt w1 Hb Hr (reserve_valid_liquidity _ _ Hrv Hl1ok) eq_refl Hvs Hp1)
    as (Hb1 & Hr1 & _).
  pose proof (books_transfer_out program_id _ _ _ _ _ _ _ _ _ _ Hb1 Ht Hn) as Hb2.
  pose proof (moved_reserve program_id _ _ _ _ _ (transfer_moved program_id _ _ _ _ _ _ _ _ _ Ht) Hr1) as Hr2.
  pose proof (books_invoke program_id _ _ _ _ _ _ Hb2 Hi (not_eq_sym Hne) Hun) as Hb3.
  destruct (run_cpi_frame program_id (flash_loan_instruction (key rp) (key dst) (key src) (key tp) required rest)
    _ _ _ _ _ (not_eq_sym Hne) Hi) as [Hframe _].
  pose proof (frame_reserve program_id _ _ _ _ Hframe Hr2) as Hr3.
  assert (r2 = Reserve.with_liquidity r l1) as -> by (eapply stored_inj; [exact Hs2|apply Hr3]).
  pose proof (borrow_repay_id _ _ _ _ Hn Hbor Hl1 Hl2) as ->.
  assert (Er : Reserve.with_liquidity (Reserve.with_liquidity r l1) (r_liquidity r) = r) by (by destruct r).
  rewrite Er in Hp2.
  destruct (books_reserve program_id _ w3 _ r ri tt w4 Hb3 Hr3 Hrv eq_refl (eq_sym Hvs) Hp2) as (Hb4 & Hr4 & _).
  split; [exact Hr4|]. eexists. split; [exact Hb4|]. intros s Hs. rewrite <- Hsup.
  cbn [r_liquidity Reserve.with_liquidity]. rewrite El1. cbn. slack.
Qed.

Lemma books_flash_loan δ n accounts w u w' :
  Books δ w → is_u64 n → Forall undeclared accounts →
  process_flash_loan program_id n accounts w = Ok (u, w') → Books δ w'.
Proof.
  intros Hb Hn Ha H.
  apply (flash_handler_Ok program_id) in H as (src & dst & ri & fi & hi & mi & ai & tp & rp & rest & m & r & fee
    & host & before & expected & required & l1 & r2 & l2 & after & owner_fee & w1 & w2 & w3 & w4 & w5 & u1 & []
    & -> & Hne & Hr & _ & Hsup & Hfee & Hbal & -> & -> & Hl1 & Hp1 & Ht & Hi & Hs2 & Hl2 & Hp2 & Hbal' & Hle & Hf1 & Hf2).
  pose proof (books_holds_reserve program_id _ _ _ _ Hb Hr) as [Hrok Hrv].
  assert (Hamt : 0 ≤ loan_amount r n).
  { destruct (ok_rl_available _ (ok_r_liquidity r Hrok)). unfold loan_amount. case_match; [done|apply Hn]. }
  assert (Hun : Forall undeclared ([dst; rp; src; tp] ++ rest)).
  { rewrite !Forall_cons in Ha. apply Forall_app. rewrite !Forall_cons. naive_solver. }
  destruct (books_flash_round δ w r src dst ri mi ai tp rp rest m _ _ l1 r2 l2 u1 tt w1 w2 w3 w4
    Hb Hr Hsup Hamt Hne Hun Hl1 Hp1 Ht Hi Hs2 Hl2 Hp2) as (Hr4 & δ' & Hb4 & Hδ).
  assert (Hhost : 0 ≤ host ≤ fee).
  { eapply calculate_fees_split, Hfee; [apply Hrok|]. apply validate_reserve_config_Ok in Hrv. lia. }
  rewrite <- Hsup in Hbal, Hbal'.
  pose proof (books_flash_returned δ δ' w w4 (key ri) r before after fee Hb Hr Hbal Hb4 Hr4 Hbal' Hle Hδ) as Hb5.
  rewrite Hsup in Hb5.
  destruct (books_pay_host_fee program_id _ _ _ _ _ _ _ _ _ _ _ Hb5 (proj1 Hhost) Hf1) as [Hb6 Hpos].
  pose proof (books_pay_owner_fee program_id _ _ _ _ _ _ _ _ _ _ Hb6 (Hpos ltac:(lia)) Hf2) as Hb7.
  eapply books_mono, Hb7. slack.
Qed.

End loans.
