(* ===== verification/ProcessorReach.v ===== *)
(** * What can be reached

    The accounts of the program over its lifetime: from a ledger in which it has
    stored nothing, transactions run its instructions and everything else that
    happens on the chain may intervene between them, including a change of its
    clock and of the accounts of other programs. *)

From S2P Require Import Prelude Errors FixedPoint StateBase LendingMarket Reserve.
From S2P Require Import ReserveFacts Obligation ObligationFacts Codec CodecFacts Instruction.
From S2P Require Import Solana Oracle ProcessorFacts ProcessorInvariant Processor ProcessorSafety.
From S2P Require Import Testbed TestbedFacts.

Section reach.
Context `{S : Sdk} (program_id : Pubkey).
Implicit Types (w : World).

(** Nothing is stored yet: the program's accounts hold zeros. *)
Definition genesis w : Prop :=
  (∀ k, Forall is_byte (data (account_of w k))) ∧
  ∀ k, owned program_id w k → Forall (eq 0) (data (account_of w k)).

(** An instruction that succeeds, or anything that respects the ownership of
    accounts.  A failed instruction changes nothing. *)
Inductive step : World → World → Prop :=
| step_instruction accounts input w u w' :
    Forall info_ok accounts → Forall is_byte input →
    process_instruction program_id accounts input w = Ok (u, w') → step w w'
| step_environment w w' : cpi_frame program_id w w' → step w w'.

Definition reachable w : Prop := ∃ w0, genesis w0 ∧ rtc step w0 w.

Context `{L : !SdkLaws program_id}.

Lemma genesis_World_ok w : genesis w → World_ok program_id w.
Proof.
  intros [Hb Hz]. split; [done| |].
  - intros k r Ho (_ & Hu & Hi).
    destruct (eq_true_false_abs _ Hi (reserve_zeros _ _ (Hz k Ho) Hu)).
  - intros k o Ho (_ & Hu & Hi).
    destruct (eq_true_false_abs _ Hi (obligation_zeros _ _ (Hz k Ho) Hu)).
Qed.

Lemma step_World_ok w w' : step w w' → World_ok program_id w → World_ok program_id w'.
Proof.
  intros [accounts input w1 u w2 Ha Hi Hr|w1 w2 Hf] Hw; [|by eapply World_ok_cpi].
  unfold process_instruction in Hr. apply M_bind_Ok in Hr as (i & w3 & H1 & Hr).
  apply lift_Ok in H1 as [H1 ->].
  by apply (keeps_run_instruction program_id i accounts (instruction_unpack_ok _ _ Hi H1) Ha w1 u w2).
Qed.

Lemma reachable_World_ok w : reachable w → World_ok program_id w.
Proof.
  intros (w0 & Hg & Hs). apply genesis_World_ok in Hg. induction Hs; [done|].
  eauto using step_World_ok.
Qed.

End reach.

(** ** Properties *)

(** C1: whatever instructions run, in whatever order and on whatever accounts,
    and whatever other programs do in between, every account of the program that
    holds an initialised reserve has a configuration that passed validation and
    fields within their widths, and every one that holds an initialised
    obligation has distinct reserves in its deposits and in its borrows, at most
    ten entries and fields within their widths. *)
Theorem reachable_state_valid `{S : Sdk} (program_id : Pubkey) `{L : !SdkLaws program_id}
    (w : World) (k : Pubkey) (r : Reserve) (o : Obligation)
    (Hw : reachable program_id w) (Ho : owned program_id w k) :
  (stored Reserve w k r → Reserve_ok r ∧ validate_reserve_config (r_config r) = Ok tt) ∧
  (stored Obligation w k o →
     Obligation_ok o ∧ NoDup (deposit_reserve <$> o_deposits o) ∧
     NoDup (borrow_reserve <$> o_borrows o) ∧
     (length (o_deposits o) + length (o_borrows o) ≤ 10)%nat).
Proof.
  apply reachable_World_ok in Hw; [|done]. split.
  - intros Hs. by eapply stored_reserve_valid.
  - intros Hs. pose proof (wo_obligation _ _ Hw k o Ho Hs) as Hok.
    split_and!; [done|apply Hok..].
Qed.

(** A market and an obligation account before their initialisation. *)
Definition genesis_ledger : World :=
  mkWorld
    (list_to_map
       [(9, mkAccountState solend_program_id 2000 (replicate (LEN LendingMarket) 0));
        (50, mkAccountState solend_program_id 2000 (replicate (LEN Obligation) 0));
        (test_clock_id, mkAccountState 5 1 (le_bytes 32 100 ++ le_bytes 8 1656000000))])
    [].

#[local] Existing Instance test_sdk.

Definition init_market_accounts : list AccountInfo :=
  [account 9; account 45; account test_token_id; account 40; account 41].
Definition init_obligation_accounts : list AccountInfo :=
  [account 50; account 9; signer 21; account test_clock_id; account 45; account test_token_id].

Definition market_ledger : World :=
  world_after (process_instruction solend_program_id init_market_accounts
    (LendingInstruction.pack (InitLendingMarket 21 7)) genesis_ledger).
Definition obligation_ledger : World :=
  world_after (process_instruction solend_program_id init_obligation_accounts
    (LendingInstruction.pack InitObligation) market_ledger).

Lemma genesis_ledger_genesis : genesis solend_program_id genesis_ledger.
Proof.
  assert (Ha : map_Forall (λ _ a, Forall is_byte (data a) ∧
    (owner a = solend_program_id → Forall (eq 0) (data a))) (accounts genesis_ledger)).
  { unfold genesis_ledger. cbn [accounts list_to_map foldr fst snd].
    repeat apply map_Forall_insert_2; try apply map_Forall_empty.
    1, 2: split; [apply replicate_bytes|intros _; by apply Forall_replicate].
    split; [vm_compute; by repeat constructor|done]. }
  unfold genesis, owned, account_of. split; intros k; destruct (accounts _ !! k) eqn:E; cbn; try done.
  - by apply (Ha k).
  - intros Ho. by apply (Ha k).
Qed.

Lemma obligation_ledger_reachable : reachable solend_program_id obligation_ledger.
Proof.
  exists genesis_ledger. split; [apply genesis_ledger_genesis|].
  apply rtc_l with market_ledger; [|apply rtc_once].
  - apply (step_instruction _ init_market_accounts
             (LendingInstruction.pack (InitLendingMarket 21 7)) _ tt).
    + by repeat constructor.
    + apply Forall_cons. split; [by split|]. apply Forall_app. split; apply le_bytes_is_byte.
    + vm_compute. reflexivity.
  - apply (step_instruction _ init_obligation_accounts (LendingInstruction.pack InitObligation) _ tt).
    + by repeat constructor.
    + by repeat constructor.
    + vm_compute. reflexivity.
Qed.

Lemma reachable_state_valid_witness :
  ∃ o, stored Obligation obligation_ledger 50 o ∧ o_owner o = 21 ∧
    (length (o_deposits o) + length (o_borrows o) ≤ 10)%nat.
Proof.
  destruct (unpack_from_slice (A := Obligation) (data (account_of obligation_ledger 50)))
    as [o| |] eqn:E; [|vm_compute in E; discriminate E..].
  exists o. assert (Hs : stored Obligation obligation_ledger 50 o).
  { split; [vm_compute; reflexivity|]. split; [exact E|].
    vm_compute in E. apply Ok_inj in E. by subst o. }
  split; [exact Hs|]. split; [vm_compute in E; apply Ok_inj in E; by subst o|].
  apply (reachable_state_valid solend_program_id obligation_ledger 50 sample_reserve o);
    [apply obligation_ledger_reachable|vm_compute; reflexivity|exact Hs].
Defined.
