(* ===== verification/InitSafety.v ===== *)
(** * Initialising accounts

    The three handlers that create a record do it once per account. *)

From S2P Require Import Prelude Errors FixedPoint StateBase LendingMarket Reserve.
From S2P Require Import ReserveFacts Obligation ObligationFacts Codec CodecFacts Instruction.
From S2P Require Import Solana Oracle OracleFacts ProcessorBase ProcessorFacts ProcessorInvariant ProcessorReserve.
From S2P Require Import ProcessorObligation HandlerFacts ProcessorLoan Processor ProcessorSafety.
From S2P Require Import LoanSafety Testbed TestbedFacts ProcessorReach.

Section init.
Context `{S : Sdk} (program_id : Pubkey) `{L : !SdkLaws program_id}.
Implicit Types (w : World) (accounts : list AccountInfo).

(** An account of the program that holds no record of the type yet *)
Definition vacant (T : Type) `{Pack T} `{IsInitialized T} w k : Prop :=
  owned program_id w k ∧ ∀ a : T, ¬ stored T w k a.

Lemma vacant_intro T `{Pack T} `{IsInitialized T} w k (a : T) :
  owned program_id w k → unpack_from_slice (data (account_of w k)) = Ok a →
  is_initialized a = false → vacant T w k.
Proof.
  intros Ho Hu Hi. split; [done|]. intros b (_ & Hb & Hib).
  rewrite Hu in Hb. apply Ok_inj in Hb. subst b. by rewrite Hi in Hib.
Qed.

Lemma init_market_Ok owner quote accounts w u w' :
  World_ok program_id w → is_key owner → is_key quote → Forall info_ok accounts →
  process_init_lending_market program_id owner quote accounts w = Ok (u, w') →
  ∃ mi m, mi ∈ accounts ∧ vacant LendingMarket w (key mi) ∧
    holds program_id LendingMarket w' (key mi) m ∧ lm_owner m = owner ∧
    lm_quote_currency m = quote.
Proof.
  intros Hw Ho Hq Ha. unfold process_init_lending_market. intros H. inv_handler.
  repeat match goal with H : Forall _ (_ :: _) |- _ => apply Forall_cons in H as [? H] end.
  match type of H with pack ?m ?mi _ = _ => exists mi, m; rename H into Hp end.
  apply (pack_holds program_id LendingMarket) in Hp as [Hh _]; [| |done|done|assumption].
  - split_and!; [solve_in|by eapply vacant_intro|exact Hh|done|done].
  - intros output bs. apply market_pack_back. constructor; cbn; try done. apply find_program_address_u8.
Qed.

Lemma init_obligation_Ok accounts w u w' :
  World_ok program_id w → Forall info_ok accounts →
  process_init_obligation program_id accounts w = Ok (u, w') →
  ∃ bi oi o, bi ∈ accounts ∧ oi ∈ accounts ∧ vacant Obligation w (key bi) ∧
    holds program_id Obligation w' (key bi) o ∧ o_owner o = key oi ∧ is_signer oi = true ∧
    o_deposits o = [] ∧ o_borrows o = [].
Proof.
  intros Hw Ha. unfold process_init_obligation. intros H. inv_handler.
  repeat match goal with H : Forall _ (_ :: _) |- _ => apply Forall_cons in H as [? H] end.
  match goal with Hc : clock_at _ _ _ |- _ =>
    pose proof (clock_from_account_info_u64 _ _ _ Hc) as Hslot end.
  match goal with Hu : unpack_from_slice _ = Ok ?o |- _ =>
    destruct (obligation_unpack_values _ _ (wo_bytes _ _ Hw _) Hu) as (? & ? & ? & ?) end.
  match type of H with pack ?o ?bi _ = _ => rename H into Hp; exists bi end.
  apply (pack_holds program_id Obligation) in Hp as [Hh _]; [| |done|done|assumption].
  - do 2 eexists. split_and!. 3: by eapply vacant_intro. 3: exact Hh. 3: done. 3: assumption.
    3-4: done. all: solve_in.
  - intros output bs. apply obligation_pack_back. by apply obligation_init_ok.
Qed.

(** The first deposit of a reserve mints one for one. *)
Lemma init_deposit_Ok self params n r c :
  Reserve.deposit_liquidity (Reserve.init self params) n = Ok (r, c) →
  rc_mint_total_supply (ir_collateral params) = 0 → rl_available_amount (ir_liquidity params) = 0 →
  c = n ∧ rl_available_amount (r_liquidity r) = n ∧ rc_mint_total_supply (r_collateral r) = n ∧
  rl_borrowed_amount_wads (r_liquidity r) = rl_borrowed_amount_wads (ir_liquidity params) ∧
  r_config r = ir_config params ∧ is_initialized r = true.
Proof.
  intros (Hc & _ & _ & _ & El & Ec & Er)%deposit_liquidity_Ok Hm Ha.
  assert (Ecn : c = n).
  { rewrite Hc. unfold exchange_rate_wads. cbn [Reserve.init r_collateral]. rewrite Hm. cbn [Z.eqb orb].
    by apply Z.div_mul. }
  rewrite Er, El, Ec, Ecn. cbn. rewrite Hm, Ha. by split_and!.
Qed.

Lemma init_reserve_Ok n config accounts w u w' :
  World_ok program_id w → is_u64 n → ReserveConfig_ok config → Forall info_ok accounts →
  process_init_reserve program_id n config accounts w = Ok (u, w') →
  ∃ ri r, ri ∈ accounts ∧ vacant Reserve w (key ri) ∧ holds program_id Reserve w' (key ri) r ∧
    validate_reserve_config config = Ok tt ∧ r_config r = config ∧
    rl_available_amount (r_liquidity r) = n ∧ rc_mint_total_supply (r_collateral r) = n ∧
    dec (rl_borrowed_amount_wads (r_liquidity r)) = 0.
Proof.
  intros Hw Hn Hcf Ha. unfold process_init_reserve. intros H. repeat inv_handler_step. bool_to_prop.
  repeat match goal with H : Forall _ (_ :: _) |- _ => apply Forall_cons in H as [? H] end.
  match goal with H : validate_pyth_keys _ _ _ _ = Ok _ |- _ =>
    apply validate_pyth_keys_reads in H as [-> _] end.
  match goal with H : validate_switchboard_keys _ _ _ = Ok _ |- _ =>
    apply validate_switchboard_keys_reads in H as [-> _] end.
  match goal with H : get_price _ _ _ _ = Ok _ |- _ =>
    apply get_price_reads in H as [-> ?]; [|apply Hw] end.
  match goal with H : unpack_mint _ _ = Ok (?d, _) |- _ =>
    pose proof (keeps_unpack_mint program_id _ _ _ _ Hw H) as [_ Hdec];
    unfold unpack_mint in H; inv_m end.
  match goal with Hc : clock_at _ _ _ |- _ =>
    pose proof (clock_from_account_info_u64 _ _ _ Hc) as Hslot end.
  match goal with Hd : Reserve.deposit_liquidity (Reserve.init ?self ?p) _ = Ok (?r, ?c), Hp : pack ?r ?ri w = Ok (_, ?w1) |- _ =>
    destruct (init_deposit_Ok self p n r c Hd eq_refl eq_refl) as (_ & Hav & Hms & Hbor & Hconf & Hinit);
    apply deposit_liquidity_ok in Hd as (Hr & _ & _); [|by apply reserve_init_valid|done];
    destruct (pack_reserve_holds program_id r ri w tt w1 Hr Hinit Hw) as [Hh _]; [assumption|exact Hp|];
    exists ri, r
  end.
  split; [solve_in|]. split; [by eapply vacant_intro|]. split; [|by rewrite Hbor].
  repeat match goal with
  | H : spl_token_init_account _ _ _ _ _ _ = Ok _ |- _ => apply (spl_token_init_account_Ok program_id) in H as [H _]
  | H : spl_token_init_mint _ _ _ _ _ _ = Ok _ |- _ => apply (spl_token_init_mint_Ok program_id) in H as [H _]
  | H : spl_token_transfer _ _ _ _ _ _ _ = Ok _ |- _ => apply (spl_token_transfer_Ok program_id) in H as [H _]
  | H : spl_token_mint_to _ _ _ _ _ _ _ = Ok _ |- _ => apply (spl_token_mint_to_Ok program_id) in H as [H _]
  end.
  repeat (eapply frame_reserve; [eassumption|]). exact Hh.
Qed.

End init.

(** ** Markets created and reserves reconfigured

    What a successful [process_init_lending_market] and
    [process_update_reserve_config] checked and wrote, and when the latter
    succeeds. *)

Section update.
Context `{S : Sdk} (program_id : Pubkey) `{L : !SdkLaws program_id}.
Implicit Types (w : World) (r : Reserve).

(** A new market, with the record that it gets *)
Lemma init_lending_market_stores owner quote mi ri ti oi si w u w' :
  World_ok program_id w → is_key owner → is_key quote →
  is_key (key ti) → is_key (key oi) → is_key (key si) →
  process_init_lending_market program_id owner quote [mi; ri; ti; oi; si] w = Ok (u, w') →
  vacant program_id LendingMarket w (key mi) ∧
  holds program_id LendingMarket w' (key mi)
    (mkLendingMarket PROGRAM_VERSION
       (snd (find_program_address [le_bytes 32 (key mi)] program_id))
       owner quote (key ti) (key oi) (key si)).
Proof.
  intros Hw Ho Hq Ht Hoi Hsi. unfold process_init_lending_market. intros H. inv_handler.
  match goal with E : [mi; ri; ti; oi; si] = _ |- _ => injection E as <- <- <- <- <- _ end.
  split; [by eapply vacant_intro|].
  eapply (pack_holds program_id LendingMarket) in H as [Hh _]; [exact Hh| |done|done|assumption].
  intros output bs. apply market_pack_back. constructor; cbn; try done. apply find_program_address_u8.
Qed.

(** The record that the handler writes *)
Definition reconfigured r (config : ReserveConfig) (pyth switchboard : Pubkey) : Reserve :=
  Reserve.with_config
    (Reserve.with_liquidity r (ReserveLiquidity.with_oracles (r_liquidity r) pyth switchboard)) config.

Lemma set_pyth_oracle_same r : set_pyth_oracle r (rl_pyth_oracle_pubkey (r_liquidity r)) = r.
Proof. by destruct r as [? ? ? [] ? ?]. Qed.

Lemma set_switchboard_oracle_same r :
  set_switchboard_oracle r (rl_switchboard_oracle_pubkey (r_liquidity r)) = r.
Proof. by destruct r as [? ? ? [] ? ?]. Qed.

Lemma update_pyth_Ok (m : LendingMarket) r product price w r' w' :
  (if negb (key price =? rl_pyth_oracle_pubkey (r_liquidity r)) then
     validate_pyth_keys m product price;; mret (set_pyth_oracle r (key price))
   else mret r) w = Ok (r', w') →
  w' = w ∧ r' = set_pyth_oracle r (key price).
Proof.
  destruct (Z.eqb_spec (key price) (rl_pyth_oracle_pubkey (r_liquidity r))) as [E|]; cbn [negb]; intros H.
  - apply M_ret_Ok in H as [-> ->]. by rewrite E, set_pyth_oracle_same.
  - apply M_bind_Ok in H as ([] & w1 & H1 & H2). apply validate_pyth_keys_reads in H1 as [-> _].
    by apply M_ret_Ok in H2 as [-> ->].
Qed.

Lemma update_switchboard_Ok (m : LendingMarket) r feed w r' w' :
  (if negb (key feed =? rl_switchboard_oracle_pubkey (r_liquidity r)) then
     validate_switchboard_keys m feed;; mret (set_switchboard_oracle r (key feed))
   else mret r) w = Ok (r', w') →
  w' = w ∧ r' = set_switchboard_oracle r (key feed).
Proof.
  destruct (Z.eqb_spec (key feed) (rl_switchboard_oracle_pubkey (r_liquidity r))) as [E|]; cbn [negb]; intros H.
  - apply M_ret_Ok in H as [-> ->]. by rewrite E, set_switchboard_oracle_same.
  - apply M_bind_Ok in H as ([] & w1 & H1 & H2). apply validate_switchboard_keys_reads in H1 as [-> _].
    by apply M_ret_Ok in H2 as [-> ->].
Qed.

Lemma pack_intro T `{Pack T} (a : T) info w :
  length (data (account_of w (key info))) = LEN T →
  is_Ok (pack_into_slice a (data (account_of w (key info)))) →
  ∃ w', pack a info w = Ok (tt, w').
Proof.
  intros Hl [bs Hbs]. eexists. unfold pack. eapply bind_intro; [by apply data_of_Ok|].
  eapply bind_intro; [|reflexivity]. apply lift_Ok. rewrite pack_pack_eq, decide_True by done. done.
Qed.

(** A successful update, with the record that it writes *)
Lemma update_reserve_config_Ok config ri mi ai oi product price feed rest w u w' :
  process_update_reserve_config program_id config (ri :: mi :: ai :: oi :: product :: price :: feed :: rest) w
    = Ok (u, w') →
  ∃ r m, holds program_id Reserve w (key ri) r ∧ holds program_id LendingMarket w (key mi) m ∧
    r_lending_market r = key mi ∧ lm_owner m = key oi ∧ is_signer oi = true ∧
    validate_reserve_config config = Ok tt ∧
    null_oracles (key feed) (key price) (key product) = false ∧
    pack (reconfigured r config (key price) (key feed)) ri w = Ok (u, w').
Proof.
  unfold process_update_reserve_config. intros H.
  apply M_bind_Ok in H as ([] & w1 & H1 & H). apply lift_Ok in H1 as [Hv ->].
  do 7 (apply M_bind_Ok in H as ([? ?] & ? & Hn & H); apply (next_Ok program_id) in Hn as [-> Hn];
        injection Hn as <- <-).
  apply M_bind_Ok in H as (r & w1 & H1 & H). apply (load_Ok program_id) in H1 as (-> & Hs & Ho).
  apply M_bind_Ok in H as ([] & w1 & H1 & H). apply check_Ok in H1 as [Hm ->].
  apply M_bind_Ok in H as (m & w1 & H1 & H). apply (load_Ok program_id) in H1 as (-> & Hsm & Hom).
  apply M_bind_Ok in H as ([] & w1 & H1 & H). apply check_Ok in H1 as [Hown ->].
  apply M_bind_Ok in H as ([] & w1 & H1 & H). apply check_Ok in H1 as [Hsig ->].
  apply M_bind_Ok in H as (seeds & w1 & H1 & H). apply (check_authority_Ok program_id) in H1 as (-> & _).
  apply M_bind_Ok in H as (r1 & w1 & H1 & H). apply update_pyth_Ok in H1 as [-> ->].
  apply M_bind_Ok in H as (r2 & w1 & H1 & H). apply update_switchboard_Ok in H1 as [-> ->].
  apply M_bind_Ok in H as ([] & w1 & H1 & H). apply check_Ok in H1 as [Hnull ->].
  apply Z.eqb_eq in Hm, Hown. apply negb_true_iff in Hnull.
  exists r, m. split_and!; [done..|exact Hv|exact Hnull|].
  by destruct r as [? ? ? [] ? ?].
Qed.

(** The oracle accounts that are left as they are need no check of their own. *)
Lemma update_reserve_config_accepts config ri mi ai oi product price feed rest w r m :
  holds program_id Reserve w (key ri) r → holds program_id LendingMarket w (key mi) m →
  r_lending_market r = key mi → lm_owner m = key oi → is_signer oi = true →
  create_program_address (authority_seeds m mi) program_id = Ok (key ai) →
  validate_reserve_config config = Ok tt →
  key price = rl_pyth_oracle_pubkey (r_liquidity r) →
  key feed = rl_switchboard_oracle_pubkey (r_liquidity r) →
  null_oracles (key feed) (key price) (key product) = false →
  Forall is_byte (data (account_of w (key ri))) →
  ∃ w', process_update_reserve_config program_id config
    (ri :: mi :: ai :: oi :: product :: price :: feed :: rest) w = Ok (tt, w').
Proof.
  intros [Ho Hs] [Hom Hsm] Hm Hown Hsig Hpda Hv Hp Hf Hnull Hb.
  assert (Hfits : Reserve_fits r).
  { by destruct (reserve_unpack_pack r (data (account_of w (key ri)))) as (_ & ? & _); [|apply Hs|]. }
  destruct (pack_intro Reserve (Reserve.with_config r config) ri w) as [w' Hw'].
  { apply Hs. }
  { eexists. apply reserve_pack_Ok; [done|]. destruct Hs as [-> _]. reflexivity. }
  exists w'. unfold process_update_reserve_config.
  eapply bind_intro; [by apply lift_Ok|].
  do 7 (eapply bind_intro; [by apply (next_Ok program_id)|]; cbn beta iota).
  eapply bind_intro; [by apply (load_Ok program_id)|].
  eapply bind_intro; [by apply check_intro, Z.eqb_eq|].
  eapply bind_intro; [by apply (load_Ok program_id)|].
  eapply bind_intro; [by apply check_intro, Z.eqb_eq|].
  eapply bind_intro; [by apply check_intro|].
  eapply bind_intro; [by apply (check_authority_Ok program_id)|].
  rewrite Hp, Z.eqb_refl. eapply bind_intro; [reflexivity|].
  rewrite Hf, Z.eqb_refl. eapply bind_intro; [reflexivity|].
  eapply bind_intro; [apply check_intro; by rewrite <- Hf, <- Hp, Hnull|].
  exact Hw'.
Qed.

End update.

(** ** Properties *)

(** C16: a record is created at most once per account, with what the instruction
    asked for.  Each initialising instruction requires an account of the program
    that holds no initialised record of the type, and leaves one there: a market
    with the given owner and currency, a reserve with the given validated
    configuration and exactly the first deposit, minted one for one, an empty
    obligation of an owner who signed. *)
Theorem initialised_once `{S : Sdk} (program_id : Pubkey) `{L : !SdkLaws program_id}
    (i : LendingInstruction) (accounts : list AccountInfo) (w w' : World) (u : unit)
    (Hw : World_ok program_id w) (Hi : LendingInstruction_ok i) (Ha : Forall info_ok accounts)
    (H : run_instruction program_id i accounts w = Ok (u, w')) :
  match i with
  | InitLendingMarket owner quote_currency =>
      ∃ mi m, mi ∈ accounts ∧ vacant program_id LendingMarket w (key mi) ∧
        holds program_id LendingMarket w' (key mi) m ∧ lm_owner m = owner ∧
        lm_quote_currency m = quote_currency
  | InitReserve liquidity_amount config =>
      ∃ ri r, ri ∈ accounts ∧ vacant program_id Reserve w (key ri) ∧
        holds program_id Reserve w' (key ri) r ∧
        validate_reserve_config config = Ok tt ∧ r_config r = config ∧
        rl_available_amount (r_liquidity r) = liquidity_amount ∧
        rc_mint_total_supply (r_collateral r) = liquidity_amount ∧
        dec (rl_borrowed_amount_wads (r_liquidity r)) = 0
  | InitObligation =>
      ∃ bi oi o, bi ∈ accounts ∧ oi ∈ accounts ∧ vacant program_id Obligation w (key bi) ∧
        holds program_id Obligation w' (key bi) o ∧ o_owner o = key oi ∧ is_signer oi = true ∧
        o_deposits o = [] ∧ o_borrows o = []
  | _ => True
  end.
Proof.
  destruct i; cbn [run_instruction LendingInstruction_ok] in *; try done.
  - destruct Hi. by apply (init_market_Ok program_id) in H.
  - destruct Hi. by apply (init_reserve_Ok program_id) in H.
  - by apply (init_obligation_Ok program_id) in H.
Qed.

#[local] Existing Instance test_sdk.

Lemma initialised_once_witness :
  ∃ mi m, mi ∈ init_market_accounts ∧ vacant solend_program_id LendingMarket genesis_ledger (key mi) ∧
    holds solend_program_id LendingMarket market_ledger (key mi) m ∧ lm_owner m = 21 ∧
    lm_quote_currency m = 7.
Proof.
  apply (initialised_once solend_program_id (InitLendingMarket 21 7) init_market_accounts genesis_ledger
    market_ledger tt).
  - apply genesis_World_ok, genesis_ledger_genesis.
  - split; decide_ok.
  - by repeat constructor.
  - vm_compute. reflexivity.
Defined.
