(* ===== verification/WriteSets.v ===== *)
(** * Which accounts an instruction writes

    A rule for every step of a handler that bounds the accounts of the program
    whose data it may change.  The runtime rejects a transaction that changes an
    account it does not list as writable, so an instruction that is built with
    [Builders] must mark every account that its handler writes. *)

From S2P Require Import Prelude Errors FixedPoint StateBase LendingMarket Reserve.
From S2P Require Import ReserveFacts Obligation ObligationFacts Codec Instruction Solana Builders.
From S2P Require Import Oracle ProcessorBase ProcessorFacts ProcessorInvariant Testbed TestbedFacts.
From S2P Require Import ProcessorReserve ProcessorObligation RefreshFacts HandlerFacts.
From S2P Require Import ProcessorLoan Processor.

Create HintDb touches discriminated.
#[export] Hint Constants Opaque : touches.

Section touches.
Context `{S : Sdk} (program_id : Pubkey) `{L : !SdkLaws program_id}.
Implicit Types (w : World) (P : Pubkey → Prop) (info : AccountInfo).

(** The accounts of the program stay, and those outside [P] keep their data. *)
Definition touched P w w' : Prop :=
  ∀ k a, accounts w !! k = Some a → owner a = program_id →
    ∃ a', accounts w' !! k = Some a' ∧ owner a' = program_id ∧ (¬ P k → data a' = data a).

Definition touches {A} P (m : M A) : Prop := ∀ w a w', m w = Ok (a, w') → touched P w w'.

Lemma touched_refl P w : touched P w w.
Proof. intros k a Ha Ho. eauto. Qed.

Lemma touched_trans P w1 w2 w3 : touched P w1 w2 → touched P w2 w3 → touched P w1 w3.
Proof.
  intros H1 H2 k a Ha Ho. destruct (H1 k a Ha Ho) as (b & Hb & Hob & Eb).
  destruct (H2 k b Hb Hob) as (c & Hc & Hoc & Ec). exists c. split; [done|]. split; [done|].
  intros HP. rewrite Ec, Eb by done. done.
Qed.

Lemma touches_bind {A B} P (m : M A) (f : A → M B) :
  touches P m → (∀ a, touches P (f a)) → touches P (m ≫= f).
Proof.
  intros Hm Hf w b w' Hr. apply M_bind_Ok in Hr as (a & w1 & H1 & H2).
  eapply touched_trans; [by eapply Hm|by eapply Hf].
Qed.

(** Steps that only read *)
Lemma touches_same {A} P (m : M A) : (∀ w a w', m w = Ok (a, w') → w' = w) → touches P m.
Proof. intros Hm w a w' Hr. rewrite (Hm _ _ _ Hr). apply touched_refl. Qed.

Lemma touches_ret {A} P (a : A) : touches P (mret a).
Proof. apply touches_same. intros w b w' Hr. by apply M_ret_Ok in Hr as [_ ->]. Qed.

Lemma touches_lift {A} P (m : outcome A) : touches P (lift m).
Proof. apply touches_same. intros w b w' Hr. by apply lift_Ok in Hr as [_ ->]. Qed.

Lemma touches_check P c e : touches P (check c e).
Proof. apply touches_lift. Qed.

Lemma touches_data_of P info : touches P (data_of info).
Proof. apply touches_same. intros w b w' Hr. by apply data_of_Ok in Hr as [_ ->]. Qed.

Lemma touches_owner_of P info : touches P (owner_of info).
Proof. apply touches_same. intros w b w' Hr. by apply owner_of_Ok in Hr as [_ ->]. Qed.

Lemma touches_lamports_of P info : touches P (lamports_of info).
Proof. apply touches_same. intros w b w' Hr. by apply lamports_of_Ok in Hr as [_ ->]. Qed.

Lemma touches_unpack P T `{Pack T} `{IsInitialized T} info : touches P (unpack T info).
Proof. apply touches_same. intros w b w' Hr. by apply (unpack_Ok program_id) in Hr as [-> _]. Qed.

Lemma touches_load P T `{Pack T} `{IsInitialized T} info : touches P (load T program_id info).
Proof. apply touches_same. intros w b w' Hr. by apply (load_Ok program_id) in Hr as [-> _]. Qed.

(** The accounts of a list that is known are taken from it. *)
Lemma touches_next {B} P a l (f : AccountInfo * list AccountInfo → M B) :
  touches P (f (a, l)) → touches P (next (a :: l) ≫= f).
Proof.
  intros Hf w b w' Hr. apply M_bind_Ok in Hr as (x & w1 & H1 & H2). destruct x as [a' l'].
  apply (next_Ok program_id) in H1 as [-> [= <- <-]]. by eapply Hf.
Qed.

(** A write *)
Lemma touches_pack {T} `{Pack T} P (a : T) info : P (key info) → touches P (pack a info).
Proof.
  intros HP w u w' Hr. apply (pack_Ok program_id) in Hr as (_ & bs & _ & ->).
  intros k acc Ha Ho. destruct (decide (key info = k)) as [<-|Hne].
  - exists (mkAccountState program_id (lamports acc) bs). unfold set_account, account_of. cbn.
    rewrite lookup_insert_eq, Ha. cbn. by rewrite Ho.
  - exists acc. unfold set_account. cbn. by rewrite lookup_insert_ne.
Qed.

(** Calls of other programs *)
Lemma frame_touched P w w' : cpi_frame program_id w w' → touched P w w'.
Proof.
  intros [Hf _ _] k a Ha Ho. destruct (Hf k a Ha Ho) as (a' & ? & Ho' & Hd). exists a'.
  split; [done|]. split; [congruence|done].
Qed.

Lemma touches_token P call seeds {A} (m : M A) :
  (∀ w a w', m w = Ok (a, w') → token_step program_id call seeds w w') → touches P m.
Proof. intros Hm w a w' Hr. apply Hm in Hr as [Hf _]. by apply frame_touched. Qed.

Lemma touches_transfer P src dst n auth seeds tp :
  touches P (spl_token_transfer src dst n auth seeds tp).
Proof. eapply touches_token. intros. by eapply spl_token_transfer_Ok. Qed.

Lemma touches_mint_to P mint dst n auth seeds tp :
  touches P (spl_token_mint_to mint dst n auth seeds tp).
Proof. eapply touches_token. intros. by eapply spl_token_mint_to_Ok. Qed.

Lemma touches_burn P mint src n auth seeds tp :
  touches P (spl_token_burn mint src n auth seeds tp).
Proof. eapply touches_token. intros. by eapply spl_token_burn_Ok. Qed.

Lemma touches_init_account P a m o r tp : touches P (spl_token_init_account a m o r tp).
Proof. eapply touches_token. intros. by eapply spl_token_init_account_Ok. Qed.

Lemma touches_init_mint P m r a d tp : touches P (spl_token_init_mint m r a d tp).
Proof. eapply touches_token. intros. by eapply spl_token_init_mint_Ok. Qed.

Lemma touches_invoke P ix infos : ix_program_id ix ≠ program_id → touches P (invoke ix infos).
Proof.
  intros Hne w a w' Hr. destruct (run_cpi_frame program_id _ _ _ _ _ _ Hne Hr) as [Hf _].
  by apply frame_touched.
Qed.

(** A check whose success the rest of the handler relies on *)
Lemma touches_check_then {B} P (c : bool) e (m : M B) :
  (c = true → touches P m) → touches P (check c e;; m).
Proof.
  intros Hm w b w' Hr. apply M_bind_Ok in Hr as (u & w1 & H1 & H2).
  apply check_Ok in H1 as [Hc ->]. by eapply Hm.
Qed.

(** The loops of [process_refresh_obligation] *)
Lemma touches_refresh_deposits P clock ds sums iter :
  touches P (refresh_deposits program_id clock ds sums iter).
Proof.
  apply touches_same. intros w [[ds' sums'] iter'] w' Hr.
  by apply (refresh_deposits_Ok program_id) in Hr as [-> _].
Qed.

Lemma touches_refresh_borrows P clock bs borrowed iter :
  touches P (refresh_borrows program_id clock bs borrowed iter).
Proof.
  apply touches_same. intros w [[bs' b'] iter'] w' Hr.
  by apply (refresh_borrows_Ok program_id) in Hr as [-> _].
Qed.

End touches.

#[export] Hint Resolve touches_ret touches_lift touches_check touches_data_of touches_owner_of
  touches_lamports_of touches_unpack touches_load touches_pack touches_transfer touches_mint_to
  touches_burn touches_init_account touches_init_mint touches_refresh_deposits
  touches_refresh_borrows : touches.

(** One step of a handler, by its shape *)
Ltac touches_step :=
  cbv beta iota zeta;
  lazymatch goal with
  | |- touches _ _ (next (_ :: _) ≫= _) => apply touches_next; [assumption|]
  | |- touches _ _ (_ ≫= _) => apply touches_bind; [|intros]
  | |- touches _ _ (match ?x with _ => _ end) => destruct x
  | |- touches _ _ _ => solve [eauto with touches]
  end.

Ltac touches_by_unfolding f := intros; unfold f; repeat touches_step.

Section steps.
Context `{S : Sdk} (program_id : Pubkey) `{L : !SdkLaws program_id}.
Implicit Types (P : Pubkey → Prop) (info : AccountInfo).

Lemma touches_check_owner P info : touches program_id P (check_owner program_id info).
Proof. touches_by_unfolding check_owner. Qed.

Lemma touches_clock_of P info : touches program_id P (clock_of info).
Proof. touches_by_unfolding @clock_of. Qed.

Lemma touches_rent_of P info : touches program_id P (rent_of info).
Proof. touches_by_unfolding @rent_of. Qed.

Lemma touches_check_fresh P u clock e : touches program_id P (check_fresh u clock e).
Proof. touches_by_unfolding check_fresh. Qed.

Lemma touches_load_market P i1 i2 : touches program_id P (load_market program_id i1 i2).
Proof. touches_by_unfolding @load_market. Qed.

Lemma touches_load_owned P i1 i2 i3 : touches program_id P (load_owned_obligation program_id i1 i2 i3).
Proof. touches_by_unfolding @load_owned_obligation. Qed.

Lemma touches_check_authority P m i1 i2 : touches program_id P (check_authority program_id m i1 i2).
Proof. touches_by_unfolding @check_authority. Qed.

Lemma touches_unpack_mint P info : touches program_id P (unpack_mint info).
Proof. touches_by_unfolding @unpack_mint. Qed.

Lemma touches_token_balance P info : touches program_id P (token_balance info).
Proof. touches_by_unfolding @token_balance. Qed.

Lemma touches_rent_exempt P rent info : touches program_id P (assert_rent_exempt rent info).
Proof. touches_by_unfolding @assert_rent_exempt. Qed.

Lemma touches_uninitialized P T `{Pack T} `{IsInitialized T} info :
  touches program_id P (assert_uninitialized T info).
Proof. unfold assert_uninitialized, unpack_unchecked. repeat touches_step. Qed.

Lemma touches_switchboard_price P i clock : touches program_id P (get_switchboard_price i clock).
Proof. unfold get_switchboard_price, get_switchboard_price_v2. repeat touches_step. Qed.
#[local] Hint Resolve touches_switchboard_price : touches.

Lemma touches_get_price P i1 i2 clock : touches program_id P (get_price i1 i2 clock).
Proof. touches_by_unfolding @get_price. Qed.

Lemma touches_pyth_keys P m i1 i2 : touches program_id P (validate_pyth_keys m i1 i2).
Proof. touches_by_unfolding validate_pyth_keys. Qed.

Lemma touches_switchboard_keys P m i : touches program_id P (validate_switchboard_keys m i).
Proof. touches_by_unfolding validate_switchboard_keys. Qed.

#[local] Hint Resolve touches_check_owner touches_clock_of touches_rent_of touches_check_fresh
  touches_load_market touches_load_owned touches_check_authority touches_unpack_mint
  touches_token_balance touches_rent_exempt touches_uninitialized touches_get_price
  touches_pyth_keys touches_switchboard_keys : touches.

(** The parts that handlers share *)
Lemma touches_mark_stale P info : P (key info) → touches program_id P (mark_reserve_stale info).
Proof. touches_by_unfolding @mark_reserve_stale. Qed.

Lemma touches_refresh_interest P info clock :
  P (key info) → touches program_id P (_refresh_reserve_interest program_id info clock).
Proof. touches_by_unfolding @_refresh_reserve_interest. Qed.
#[local] Hint Resolve touches_mark_stale touches_refresh_interest : touches.

Lemma touches_refresh_reserve_inner P i1 i2 i3 clock :
  P (key i1) → touches program_id P (_refresh_reserve program_id i1 i2 i3 clock).
Proof. touches_by_unfolding @_refresh_reserve. Qed.

Lemma touches_deposit_inner P n i1 i2 ri i4 i5 i6 i7 i8 clock i9 :
  P (key ri) →
  touches program_id P (_deposit_reserve_liquidity program_id n i1 i2 ri i4 i5 i6 i7 i8 clock i9).
Proof. touches_by_unfolding @_deposit_reserve_liquidity. Qed.

Lemma touches_redeem_inner P n i1 i2 ri i4 i5 i6 i7 i8 clock i9 :
  P (key ri) →
  touches program_id P (_redeem_reserve_collateral program_id n i1 i2 ri i4 i5 i6 i7 i8 clock i9).
Proof. touches_by_unfolding @_redeem_reserve_collateral. Qed.

Lemma touches_deposit_collateral_inner P n i1 i2 ri oi i5 i6 i7 clock i8 :
  P (key oi) →
  touches program_id P (_deposit_obligation_collateral program_id n i1 i2 ri oi i5 i6 i7 clock i8).
Proof. touches_by_unfolding @_deposit_obligation_collateral. Qed.

Lemma touches_withdraw_collateral_inner P n i1 i2 ri oi i5 i6 i7 clock i8 :
  P (key oi) →
  touches program_id P (_withdraw_obligation_collateral program_id n i1 i2 ri oi i5 i6 i7 clock i8).
Proof. touches_by_unfolding @_withdraw_obligation_collateral. Qed.

Lemma touches_liquidate_inner P n i1 i2 rri i4 i5 i6 oi i8 i9 i10 clock i11 :
  P (key rri) → P (key oi) →
  touches program_id P
    (_liquidate_obligation program_id n i1 i2 rri i4 i5 i6 oi i8 i9 i10 clock i11).
Proof. touches_by_unfolding @_liquidate_obligation. Qed.

Lemma touches_owner_fee P n i1 i2 i3 seeds i4 :
  touches program_id P (pay_owner_fee n i1 i2 i3 seeds i4).
Proof. touches_by_unfolding @pay_owner_fee. Qed.

Lemma touches_host_fee P fee n i1 i2 i3 seeds i4 :
  touches program_id P (pay_host_fee fee n i1 i2 i3 seeds i4).
Proof. touches_by_unfolding @pay_host_fee. Qed.

End steps.

#[export] Hint Resolve touches_check_owner touches_clock_of touches_rent_of touches_check_fresh
  touches_load_market touches_load_owned touches_check_authority touches_unpack_mint
  touches_token_balance touches_rent_exempt touches_uninitialized touches_get_price
  touches_pyth_keys touches_switchboard_keys touches_mark_stale touches_refresh_interest
  touches_refresh_reserve_inner touches_deposit_inner touches_redeem_inner
  touches_deposit_collateral_inner touches_withdraw_collateral_inner touches_liquidate_inner
  touches_owner_fee touches_host_fee : touches.

(** ** Built instructions *)

Section built.
Context `{S : Sdk} (program_id : Pubkey) `{L : !SdkLaws program_id}.

(** What the runtime hands to the program for an instruction *)
Definition infos_of (ix : Instruction) : list AccountInfo :=
  (λ m, mkAccountInfo (pubkey m) (meta_is_signer m) (meta_is_writable m)) <$> ix_accounts ix.

(** The account is listed as writable. *)
Definition marked (ix : Instruction) (k : Pubkey) : Prop :=
  Exists (λ m, meta_is_writable m = true ∧ pubkey m = k) (ix_accounts ix).

#[export] Instance marked_dec ix k : Decision (marked ix k).
Proof. unfold marked. apply _. Defined.

(** The builders, each with the instruction that its data encodes *)
Inductive builds : LendingInstruction → Instruction → Prop :=
| builds_init_lending_market owner quote k1 k2 k3 :
    builds (InitLendingMarket owner quote)
      (instruction.init_lending_market program_id owner quote k1 k2 k3)
| builds_set_lending_market_owner k1 k2 new_owner :
    builds (SetLendingMarketOwner new_owner)
      (instruction.set_lending_market_owner program_id k1 k2 new_owner)
| builds_init_reserve n config k1 k2 k3 k4 k5 k6 k7 k8 k9 k10 k11 k12 k13 :
    builds (InitReserve n config)
      (instruction.init_reserve program_id n config k1 k2 k3 k4 k5 k6 k7 k8 k9 k10 k11 k12 k13)
| builds_refresh_reserve k1 k2 k3 :
    builds RefreshReserve (instruction.refresh_reserve program_id k1 k2 k3)
| builds_deposit_reserve_liquidity n k1 k2 k3 k4 k5 k6 k7 :
    builds (DepositReserveLiquidity n)
      (instruction.deposit_reserve_liquidity program_id n k1 k2 k3 k4 k5 k6 k7)
| builds_redeem_reserve_collateral n k1 k2 k3 k4 k5 k6 k7 :
    builds (RedeemReserveCollateral n)
      (instruction.redeem_reserve_collateral program_id n k1 k2 k3 k4 k5 k6 k7)
| builds_init_obligation k1 k2 k3 :
    builds InitObligation (instruction.init_obligation program_id k1 k2 k3)
| builds_refresh_obligation k ks :
    builds RefreshObligation (instruction.refresh_obligation program_id k ks)
| builds_deposit_obligation_collateral n k1 k2 k3 k4 k5 k6 k7 :
    builds (DepositObligationCollateral n)
      (instruction.deposit_obligation_collateral program_id n k1 k2 k3 k4 k5 k6 k7)
| builds_deposit_combined n k1 k2 k3 k4 k5 k6 k7 k8 k9 k10 k11 k12 :
    builds (DepositReserveLiquidityAndObligationCollateral n)
      (instruction.deposit_reserve_liquidity_and_obligation_collateral program_id n
         k1 k2 k3 k4 k5 k6 k7 k8 k9 k10 k11 k12)
| builds_withdraw_combined n k1 k2 k3 k4 k5 k6 k7 k8 k9 k10 :
    builds (WithdrawObligationCollateralAndRedeemReserveCollateral n)
      (instruction.withdraw_obligation_collateral_and_redeem_reserve_collateral program_id n
         k1 k2 k3 k4 k5 k6 k7 k8 k9 k10)
| builds_withdraw_obligation_collateral n k1 k2 k3 k4 k5 k6 :
    builds (WithdrawObligationCollateral n)
      (instruction.withdraw_obligation_collateral program_id n k1 k2 k3 k4 k5 k6)
| builds_borrow n k1 k2 k3 k4 k5 k6 k7 host :
    builds (BorrowObligationLiquidity n)
      (instruction.borrow_obligation_liquidity program_id n k1 k2 k3 k4 k5 k6 k7 host)
| builds_repay n k1 k2 k3 k4 k5 k6 :
    builds (RepayObligationLiquidity n)
      (instruction.repay_obligation_liquidity program_id n k1 k2 k3 k4 k5 k6)
| builds_liquidate n k1 k2 k3 k4 k5 k6 k7 k8 k9 :
    builds (LiquidateObligation n)
      (instruction.liquidate_obligation program_id n k1 k2 k3 k4 k5 k6 k7 k8 k9)
| builds_generic_flash_loan n k1 k2 k3 k4 k5 k6 k7 metas :
    builds (FlashLoan n)
      (instruction.generic_flash_loan program_id n k1 k2 k3 k4 k5 k6 k7 metas)
| builds_flash_loan n k1 k2 k3 k4 k5 k6 k7 metas :
    builds (FlashLoan n) (instruction.flash_loan program_id n k1 k2 k3 k4 k5 k6 k7 metas)
| builds_update_reserve_config config k1 k2 k3 k4 k5 k6 :
    builds (UpdateReserveConfig config)
      (instruction.update_reserve_config program_id config k1 k2 k3 k4 k5 k6)
| builds_liquidate_combined n k1 k2 k3 k4 k5 k6 k7 k8 k9 k10 k11 k12 k13 :
    builds (LiquidateObligationAndRedeemReserveCollateral n)
      (instruction.liquidate_obligation_and_redeem_reserve_collateral program_id n
         k1 k2 k3 k4 k5 k6 k7 k8 k9 k10 k11 k12 k13)
| builds_redeem_fees k1 k2 k3 k4 :
    builds RedeemFees (instruction.redeem_fees program_id k1 k2 k3 k4).

End built.

(** ** The handlers, on the accounts that they read *)

Section handlers.
Context `{S : Sdk} (program_id : Pubkey) `{L : !SdkLaws program_id}.
Implicit Types (P : Pubkey → Prop) (rest : list AccountInfo).

Lemma touches_init_lending_market P owner quote i1 i2 i3 i4 i5 rest :
  P (key i1) →
  touches program_id P (process_init_lending_market program_id owner quote (i1 :: i2 :: i3 :: i4
    :: i5 :: rest)).
Proof. touches_by_unfolding @process_init_lending_market. Qed.

Lemma touches_set_lending_market_owner P owner i1 i2 rest :
  P (key i1) →
  touches program_id P (process_set_lending_market_owner program_id owner (i1 :: i2 :: rest)).
Proof. touches_by_unfolding @process_set_lending_market_owner. Qed.

Lemma touches_init_reserve P n config i1 i2 i3 i4 i5 i6 i7 i8 i9 i10 i11 i12 i13 i14 i15 i16 i17
    i18 rest :
  P (key i3) →
  touches program_id P (process_init_reserve program_id n config (i1 :: i2 :: i3 :: i4 :: i5 :: i6
    :: i7 :: i8 :: i9 :: i10 :: i11 :: i12 :: i13 :: i14 :: i15 :: i16 :: i17 :: i18 :: rest)).
Proof. touches_by_unfolding @process_init_reserve. Qed.

Lemma touches_refresh_reserve P i1 i2 i3 i4 rest :
  P (key i1) →
  touches program_id P (process_refresh_reserve program_id (i1 :: i2 :: i3 :: i4 :: rest)).
Proof. touches_by_unfolding @process_refresh_reserve. Qed.

Lemma touches_deposit_reserve_liquidity P n i1 i2 i3 i4 i5 i6 i7 i8 i9 i10 rest :
  P (key i3) →
  touches program_id P (process_deposit_reserve_liquidity program_id n (i1 :: i2 :: i3 :: i4 :: i5
    :: i6 :: i7 :: i8 :: i9 :: i10 :: rest)).
Proof. touches_by_unfolding @process_deposit_reserve_liquidity. Qed.

Lemma touches_redeem_reserve_collateral P n i1 i2 i3 i4 i5 i6 i7 i8 i9 i10 rest :
  P (key i3) →
  touches program_id P (process_redeem_reserve_collateral program_id n (i1 :: i2 :: i3 :: i4 :: i5
    :: i6 :: i7 :: i8 :: i9 :: i10 :: rest)).
Proof. touches_by_unfolding @process_redeem_reserve_collateral. Qed.

Lemma touches_init_obligation P i1 i2 i3 i4 i5 i6 rest :
  P (key i1) →
  touches program_id P (process_init_obligation program_id (i1 :: i2 :: i3 :: i4 :: i5 :: i6 ::
    rest)).
Proof. touches_by_unfolding @process_init_obligation. Qed.

Lemma touches_refresh_obligation P i1 i2 rest :
  P (key i1) →
  touches program_id P (process_refresh_obligation program_id (i1 :: i2 :: rest)).
Proof. touches_by_unfolding @process_refresh_obligation. Qed.

Lemma touches_deposit_obligation_collateral P n i1 i2 i3 i4 i5 i6 i7 i8 i9 rest :
  P (key i3) → P (key i4) →
  touches program_id P (process_deposit_obligation_collateral program_id n (i1 :: i2 :: i3 :: i4
    :: i5 :: i6 :: i7 :: i8 :: i9 :: rest)).
Proof. touches_by_unfolding @process_deposit_obligation_collateral. Qed.

Lemma touches_deposit_reserve_liquidity_and_obligation_collateral P n i1 i2 i3 i4 i5 i6 i7 i8 i9
    i10 i11 i12 i13 i14 i15 rest :
  P (key i3) → P (key i9) →
  touches program_id P (process_deposit_reserve_liquidity_and_obligation_collateral program_id n
    (i1 :: i2 :: i3 :: i4 :: i5 :: i6 :: i7 :: i8 :: i9 :: i10 :: i11 :: i12 :: i13 :: i14 ::
    i15 :: rest)).
Proof. touches_by_unfolding @process_deposit_reserve_liquidity_and_obligation_collateral. Qed.

Lemma touches_withdraw_obligation_collateral_and_redeem_reserve_liquidity P n i1 i2 i3 i4 i5 i6
    i7 i8 i9 i10 i11 i12 i13 rest :
  P (key i3) → P (key i4) →
  touches program_id P (process_withdraw_obligation_collateral_and_redeem_reserve_liquidity
    program_id n (i1 :: i2 :: i3 :: i4 :: i5 :: i6 :: i7 :: i8 :: i9 :: i10 :: i11 :: i12 :: i13
    :: rest)).
Proof. touches_by_unfolding @process_withdraw_obligation_collateral_and_redeem_reserve_liquidity. Qed.

Lemma touches_withdraw_obligation_collateral P n i1 i2 i3 i4 i5 i6 i7 i8 i9 rest :
  P (key i4) →
  touches program_id P (process_withdraw_obligation_collateral program_id n (i1 :: i2 :: i3 :: i4
    :: i5 :: i6 :: i7 :: i8 :: i9 :: rest)).
Proof. touches_by_unfolding @process_withdraw_obligation_collateral. Qed.

Lemma touches_borrow_obligation_liquidity P n i1 i2 i3 i4 i5 i6 i7 i8 i9 i10 rest :
  P (key i3) → P (key i5) →
  touches program_id P (process_borrow_obligation_liquidity program_id n (i1 :: i2 :: i3 :: i4 ::
    i5 :: i6 :: i7 :: i8 :: i9 :: i10 :: rest)).
Proof. touches_by_unfolding @process_borrow_obligation_liquidity. Qed.

Lemma touches_repay_obligation_liquidity P n i1 i2 i3 i4 i5 i6 i7 i8 rest :
  P (key i3) → P (key i4) →
  touches program_id P (process_repay_obligation_liquidity program_id n (i1 :: i2 :: i3 :: i4 ::
    i5 :: i6 :: i7 :: i8 :: rest)).
Proof. touches_by_unfolding @process_repay_obligation_liquidity. Qed.

Lemma touches_liquidate_obligation P n i1 i2 i3 i4 i5 i6 i7 i8 i9 i10 i11 i12 rest :
  P (key i3) → P (key i7) →
  touches program_id P (process_liquidate_obligation program_id n (i1 :: i2 :: i3 :: i4 :: i5 ::
    i6 :: i7 :: i8 :: i9 :: i10 :: i11 :: i12 :: rest)).
Proof. touches_by_unfolding @process_liquidate_obligation. Qed.

Lemma touches_update_reserve_config P config i1 i2 i3 i4 i5 i6 i7 rest :
  P (key i1) →
  touches program_id P (process_update_reserve_config program_id config (i1 :: i2 :: i3 :: i4 ::
    i5 :: i6 :: i7 :: rest)).
Proof. touches_by_unfolding @process_update_reserve_config. Qed.

Lemma touches_liquidate_obligation_and_redeem_reserve_collateral P n i1 i2 i3 i4 i5 i6 i7 i8 i9
    i10 i11 i12 i13 i14 i15 rest :
  P (key i4) → P (key i6) → P (key i11) →
  touches program_id P (process_liquidate_obligation_and_redeem_reserve_collateral program_id n
    (i1 :: i2 :: i3 :: i4 :: i5 :: i6 :: i7 :: i8 :: i9 :: i10 :: i11 :: i12 :: i13 :: i14 ::
    i15 :: rest)).
Proof. touches_by_unfolding @process_liquidate_obligation_and_redeem_reserve_collateral. Qed.

Lemma touches_redeem_fees P i1 i2 i3 i4 i5 i6 rest :
  P (key i1) →
  touches program_id P (process_redeem_fees program_id (i1 :: i2 :: i3 :: i4 :: i5 :: i6 ::
    rest)).
Proof. touches_by_unfolding @process_redeem_fees. Qed.

(** A flash loan calls a program of the client's choice, which the handler
    checks is not this one. *)
Lemma touches_flash_loan P n i1 i2 ri i4 i5 i6 i7 i8 i9 rest :
  P (key ri) →
  touches program_id P (process_flash_loan program_id n (i1 :: i2 :: ri :: i4 :: i5 :: i6 :: i7 :: i8 :: i9 :: rest)).
Proof.
  intros HP. unfold process_flash_loan. do 10 touches_step.
  apply touches_check_then. intros Hne. bool_to_prop.
  repeat lazymatch goal with
         | |- touches _ _ (invoke _ _ ≫= _) =>
             apply touches_bind; [apply touches_invoke; [assumption|cbn; congruence]|intros]
         | _ => touches_step
         end.
Qed.

End handlers.

#[export] Hint Resolve
  touches_init_lending_market
  touches_set_lending_market_owner
  touches_init_reserve
  touches_refresh_reserve
  touches_deposit_reserve_liquidity
  touches_redeem_reserve_collateral
  touches_init_obligation
  touches_refresh_obligation
  touches_deposit_obligation_collateral
  touches_deposit_reserve_liquidity_and_obligation_collateral
  touches_withdraw_obligation_collateral_and_redeem_reserve_liquidity
  touches_withdraw_obligation_collateral
  touches_borrow_obligation_liquidity
  touches_repay_obligation_liquidity
  touches_liquidate_obligation
  touches_update_reserve_config
  touches_liquidate_obligation_and_redeem_reserve_collateral
  touches_redeem_fees
  touches_flash_loan : touches.

Ltac solve_marked :=
  unfold marked; cbn [ix_accounts app];
  repeat first [by apply Exists_cons_hd | apply Exists_cons_tl].

(** The handler of a built instruction writes accounts that the builder marked. *)
Lemma built_touches `{S : Sdk} (program_id : Pubkey) `{L : !SdkLaws program_id} i ix :
  builds program_id i ix →
  touches program_id (marked ix) (run_instruction program_id i (infos_of ix)).
Proof.
  intros Hb. destruct Hb; cbn [run_instruction].
  all: match goal with |- touches _ _ (_ (infos_of ?ix)) =>
         let l := eval cbn in (infos_of ix) in change (infos_of ix) with l end.
  all: first [simple apply touches_init_lending_market
             | simple apply touches_set_lending_market_owner
             | simple apply touches_init_reserve
             | simple apply touches_refresh_reserve
             | simple apply touches_deposit_reserve_liquidity
             | simple apply touches_redeem_reserve_collateral
             | simple apply touches_init_obligation
             | simple apply touches_refresh_obligation
             | simple apply touches_deposit_obligation_collateral
             | simple apply touches_deposit_reserve_liquidity_and_obligation_collateral
             | simple apply touches_withdraw_obligation_collateral_and_redeem_reserve_liquidity
             | simple apply touches_withdraw_obligation_collateral
             | simple apply touches_borrow_obligation_liquidity
             | simple apply touches_repay_obligation_liquidity
             | simple apply touches_liquidate_obligation
             | simple apply touches_update_reserve_config
             | simple apply touches_liquidate_obligation_and_redeem_reserve_collateral
             | simple apply touches_redeem_fees
             | simple apply touches_flash_loan]; try assumption; solve_marked.
Qed.

(** ** Properties *)

(** C22: whatever instruction a client builds, its data decodes to that
    instruction, and when it succeeds every account of the program whose data
    changed is one that the builder marked as writable; accounts of the program
    are never given away. *)
Theorem builders_declare_writes `{S : Sdk} (program_id : Pubkey) `{L : !SdkLaws program_id}
    (i : LendingInstruction) (ix : Instruction) (w w' : World) (u : unit)
    (k : Pubkey) (a : AccountState)
    (Hi : LendingInstruction_ok i) (Hb : builds program_id i ix)
    (H : process_instruction program_id (infos_of ix) (ix_data ix) w = Ok (u, w'))
    (Ha : accounts w !! k = Some a) (Ho : owner a = program_id) :
  LendingInstruction.unpack (ix_data ix) = Ok i ∧
  ∃ a', accounts w' !! k = Some a' ∧ owner a' = program_id ∧ (data a' = data a ∨ marked ix k).
Proof.
  assert (Hu : LendingInstruction.unpack (ix_data ix) = Ok i).
  { replace (ix_data ix) with (LendingInstruction.pack i ++ []) by (rewrite app_nil_r; by destruct Hb).
    by apply instruction_unpack_pack. }
  split; [done|]. unfold process_instruction in H. rewrite Hu in H.
  destruct (built_touches program_id i ix Hb w u w' H k a Ha Ho) as (a' & ? & ? & Hd).
  exists a'. split; [done|]. split; [done|].
  destruct (decide (marked ix k)) as [|Hm]; [by right|left; by apply Hd].
Qed.

#[local] Existing Instance test_sdk.

Definition built_refresh : Instruction :=
  instruction.refresh_obligation solend_program_id 50 [31; 32; 33].

Lemma builders_declare_writes_witness :
  ∃ a a', accounts ledger !! 31 = Some a ∧
    accounts (world_after (process_instruction solend_program_id (infos_of built_refresh)
                             (ix_data built_refresh) ledger)) !! 31 = Some a' ∧
    (data a' = data a ∨ marked built_refresh 31).
Proof.
  destruct (accounts ledger !! 31) as [a|] eqn:E; [|vm_compute in E; discriminate E].
  exists a.
  destruct (builders_declare_writes solend_program_id RefreshObligation built_refresh ledger
    (world_after (process_instruction solend_program_id (infos_of built_refresh)
                    (ix_data built_refresh) ledger)) tt 31 a) as (_ & a' & Ha' & _ & Hd).
  - exact I.
  - apply builds_refresh_obligation.
  - vm_compute. reflexivity.
  - exact E.
  - vm_compute in E. by injection E as <-.
  - exists a'. split; [reflexivity|]. split; [exact Ha'|exact Hd].
Defined.
