(* ===== verification/SolvencyMarket.v ===== *)
(** * Cover and the handlers that create or configure accounts

    Markets and configurations do not touch what a reserve must cover.  A new
    obligation pledges nothing.  A new reserve gets token accounts that were not
    initialised before, so they are nobody else's. *)

From S2P Require Import Prelude Errors FixedPoint StateBase LendingMarket Reserve.
From S2P Require Import ReserveFacts LoanFacts Obligation ObligationFacts Codec CodecFacts.
From S2P Require Import Solana Oracle OracleFacts Tokens ProcessorBase ProcessorFacts ProcessorInvariant.
From S2P Require Import ProcessorReserve ProcessorObligation RefreshFacts HandlerFacts Pledges ProcessorLoan.
From S2P Require Import ProcessorSafety LoanSafety Solvency SolvencySteps SolvencyReserve InitSafety.

Section markets.
Context `{S : Sdk} `{TS : TokenSdk} (program_id : Pubkey) `{L : !SdkLaws program_id}.
Context `{TL : !TokenLaws program_id}.
Implicit Types (w : World) (k rk : Pubkey) (info : AccountInfo) (δ : Slack) (clock : Clock).
Local Abbreviation holds := (holds program_id).
Local Abbreviation Books := (Books program_id).
Local Abbreviation vault := (vault program_id).
Local Abbreviation undeclared := (undeclared program_id).

(** ** Markets *)

(** An account of a market's size holds neither a reserve nor an obligation. *)
Lemma books_market δ w m info u w' :
  Books δ w → LendingMarket_ok m → pack m info w = Ok (u, w') → Books δ w'.
Proof.
  intros [Hw Hs] Hm Hp. split; [by apply (keeps_pack_market program_id m info Hm w u w')|].
  pose proof (pack_market_tokens program_id m info w u w' Hm Hw Hp) as Ht.
  apply (pack_Ok program_id) in Hp as (Hl & bs & Hp & ->).
  destruct (market_pack_back _ _ _ Hm (wo_bytes _ _ Hw (key info)) Hp) as (Hl' & _ & _).
  apply (solvent_same_records program_id δ δ w); [| |exact Hs].
  - intros k. split; intros x; unfold HandlerFacts.holds, stored; rewrite (owned_set program_id);
      (destruct (decide (key info = k)) as [<-|Hne]; [|by rewrite data_set_ne]);
      rewrite data_set, Hl', Hl; by split; intros (_ & Hx & _).
  - intros k n Hv. exists n. split; [lia|]. eapply vault_eq, Hv. apply Ht.
Qed.

Lemma books_init_market δ owner quote accounts w u w' :
  Books δ w → is_key owner → is_key quote → Forall info_ok accounts →
  process_init_lending_market program_id owner quote accounts w = Ok (u, w') → Books δ w'.
Proof.
  intros Hb Ho Hq Ha H. unfold process_init_lending_market in H. inv_handler.
  repeat match goal with H : Forall _ (_ :: _) |- _ => apply Forall_cons in H as [? H] end.
  eapply books_market; [exact Hb| |exact H].
  constructor; cbn; try done. apply find_program_address_u8.
Qed.

Lemma books_set_owner δ new_owner accounts w u w' :
  Books δ w → is_key new_owner →
  process_set_lending_market_owner program_id new_owner accounts w = Ok (u, w') → Books δ w'.
Proof.
  intros Hb Ho H. unfold process_set_lending_market_owner in H. inv_handler.
  match goal with Hm : HandlerFacts.holds _ LendingMarket _ _ _ |- _ =>
    pose proof (stored_market_ok program_id _ _ _ (bk_world _ _ _ Hb) (proj2 Hm)) as [] end.
  eapply books_market; [exact Hb| |exact H]. by constructor.
Qed.

(** ** Configuration *)

Lemma reconfigured_ok r config price feed :
  Reserve_valid r → ReserveConfig_ok config → validate_reserve_config config = Ok tt →
  is_key price → is_key feed → Reserve_valid (reconfigured r config price feed).
Proof.
  intros [Hr _] Hc Hv Hp Hf. split; [|done]. apply with_config_ok; [|done].
  apply with_liquidity_ok; [done|]. apply with_oracles_ok; [apply Hr|done|done].
Qed.

Lemma update_config_accounts config accounts w u w' :
  process_update_reserve_config program_id config accounts w = Ok (u, w') →
  ∃ ri mi ai oi product price feed rest,
    accounts = ri :: mi :: ai :: oi :: product :: price :: feed :: rest.
Proof.
  unfold process_update_reserve_config. intros H. apply M_bind_Ok in H as (? & ? & _ & H).
  do 7 (apply M_bind_Ok in H as ([? ?] & ? & Hn & H); apply (next_Ok program_id) in Hn as [-> Hn]; subst).
  by do 8 eexists.
Qed.

Lemma books_update_config δ config accounts w u w' :
  Books δ w → ReserveConfig_ok config → Forall info_ok accounts →
  process_update_reserve_config program_id config accounts w = Ok (u, w') → Books δ w'.
Proof.
  intros Hb Hc Ha H. destruct (update_config_accounts _ _ _ _ _ H) as (ri & mi & ai & oi & product & price & feed
    & rest & ->).
  apply (update_reserve_config_Ok program_id) in H as (r & m & Hr & _ & _ & _ & _ & Hv & _ & Hp).
  rewrite !Forall_cons in Ha.
  apply (books_reserve_same program_id δ w r (reconfigured r config (key price) (key feed)) ri u w' Hb Hr); try done.
  apply reconfigured_ok; try done; [by eapply books_holds_reserve|naive_solver|naive_solver].
Qed.

(** ** New obligations *)

Lemma books_init_obligation δ accounts w u w' :
  Books δ w → Forall info_ok accounts →
  process_init_obligation program_id accounts w = Ok (u, w') → Books δ w'.
Proof.
  intros Hb Ha H. pose proof (keeps_init_obligation program_id accounts Ha w u w' (bk_world _ _ _ Hb) H) as [Hw' _].
  split; [done|]. unfold process_init_obligation in H. inv_handler.
  repeat match goal with H : Forall _ (_ :: _) |- _ => apply Forall_cons in H as [? H] end.
  match goal with Hc : clock_at _ _ _ |- _ => pose proof (clock_from_account_info_u64 _ _ _ Hc) as Hslot end.
  match goal with Hu : unpack_from_slice _ = Ok ?o, Hl : length _ = LEN Obligation, Hi : is_initialized ?o = false |- _ =>
    destruct (obligation_unpack_values _ _ (wo_bytes _ _ (bk_world _ _ _ Hb) _) Hu) as (? & ? & ? & ?);
    rename Hu into Hun; rename Hl into Hlen; rename Hi into Hinit end.
  match type of H with pack ?o1 ?bi _ = _ => rename bi into oi; assert (Hok : Obligation_ok o1) by
    (by apply obligation_init_ok); set (o' := o1) in * end.
  match goal with Ho : owned _ _ (key oi) |- _ => rename Ho into Hown end.
  pose proof (pack_obligation_tokens program_id o' oi w tt w' Hok (bk_world _ _ _ Hb) H) as Ht.
  destruct (pack_obligation_holds program_id o' oi w tt w' Hok eq_refl (bk_world _ _ _ Hb) Hown H) as [Ho' Hch].
  apply (solvent_write_obligation program_id δ δ w w' (key oi) o' Hch Ht); [|exact Ho'| | |apply Hb].
  - intros r [_ (Hl & _)]. rewrite Hlen in Hl. discriminate Hl.
  - intros c Hc. by apply elem_of_nil in Hc.
  - intros k1 r1 _. split; [lia|]. unfold pledge_at.
    destruct (record_at program_id Obligation w (key oi)) as [o1|] eqn:E.
    + apply record_at_Some in E as [_ (_ & Hu & Hi)]. rewrite Hun in Hu. apply Ok_inj in Hu. congruence.
    + change (pledge o' k1) with 0. lia.
Qed.

End markets.
