(* ===== verification/Authority.v ===== *)
(** * Who must have signed

    What an instruction may change of the records that exist, and whose
    signature each change needs.  [Kept E D w w'] follows the records through a
    handler: markets stay as they are, reserves keep their settings, obligations
    their owner and market; an obligation changes at all only if [E] holds of its
    owner, and its deposits only if [D] does.  Each step of a handler keeps the
    records in this sense, so the handlers do by transitivity; the instructions
    that change markets or settings, or that create a record, are treated one by
    one. *)

From S2P Require Import Prelude Errors FixedPoint StateBase LendingMarket Reserve.
From S2P Require Import ReserveFacts LoanFacts Obligation ObligationFacts Codec CodecFacts Instruction.
From S2P Require Import Solana Oracle OracleFacts ProcessorBase ProcessorFacts ProcessorInvariant ProcessorReserve.
From S2P Require Import ProcessorObligation RefreshFacts HandlerFacts ProcessorLoan Processor.
From S2P Require Import ProcessorSafety RefreshSafety LoanSafety RepaySafety SupplySafety CollateralSafety.
From S2P Require Import FlashSafety Pledges SolvencyLoan InitSafety SolvencyMarket Testbed TestbedFacts.

(** What only the owner of its market decides of a reserve *)
Definition settings_of (r : Reserve) : Pubkey * ReserveConfig * list Pubkey * Z :=
  (r_lending_market r, r_config r,
   [rl_mint_pubkey (r_liquidity r); rl_supply_pubkey (r_liquidity r);
    rl_pyth_oracle_pubkey (r_liquidity r); rl_switchboard_oracle_pubkey (r_liquidity r);
    rc_mint_pubkey (r_collateral r); rc_supply_pubkey (r_collateral r)],
   rl_mint_decimals (r_liquidity r)).

(** The later record of an obligation, by who its owner is *)
Record obligation_kept (E D : Pubkey → Prop) (o o' : Obligation) : Prop := {
  ok_owner : o_owner o' = o_owner o;
  ok_market : o_lending_market o' = o_lending_market o;
  ok_record : o' = o ∨ E (o_owner o);
  ok_deposits : deposits_map o' = deposits_map o ∨ D (o_owner o);
}.

#[export] Instance obligation_kept_preorder E D : PreOrder (obligation_kept E D).
Proof.
  split.
  - intros o. split; by try left.
  - intros o1 o2 o3 [Eo Em Er Ed] [Eo' Em' Er' Ed']. split; [congruence..| |].
    + destruct Er as [->|?]; [done|by right].
    + rewrite Eo in Ed'. destruct Ed' as [->|?]; [done|by right].
Qed.

Section records.
Context `{S : Sdk} (program_id : Pubkey) `{L : !SdkLaws program_id}.
Implicit Types (w : World) (k : Pubkey) (info : AccountInfo) (clock : Clock) (E D : Pubkey → Prop).
Local Abbreviation holds := (holds program_id).

(** ** Records of one type along a step *)

(** The records of the type stay at their addresses, related by [R], and there
    are no new ones. *)
Definition evolves (T : Type) `{Pack T} `{IsInitialized T} (R : relation T) w w' : Prop :=
  ∀ k, (∀ a, holds T w k a → ∃ a', holds T w' k a' ∧ R a a') ∧
       (∀ a', holds T w' k a' → ∃ a, holds T w k a).

#[export] Instance evolves_preorder T `{Pack T} `{IsInitialized T} (R : relation T) :
  PreOrder R → PreOrder (evolves T R).
Proof.
  intros HR. split.
  - intros w k. split; intros a Ha; exists a; [by split|done].
  - intros w1 w2 w3 H1 H2 k. split.
    + intros a (a' & Ha & HR1)%H1. apply H2 in Ha as (b & Hb & HR2). exists b. split; [done|by etransitivity].
    + intros a' (a & Ha)%H2. by apply H1 in Ha.
Qed.

(** An account that is the only one to change keeps the records elsewhere. *)
Lemma evolves_write T `{Pack T} `{IsInitialized T} (R : relation T) w w' k a a' :
  Reflexive R → only_changes program_id w k w' → holds T w k a → holds T w' k a' → R a a' →
  evolves T R w w'.
Proof.
  intros HR Hch Ha Ha' Haa k'. destruct (decide (k' = k)) as [->|Hne].
  - split; intros b Hb; [|by exists a]. exists a'. split; [done|].
    by replace b with a by (eapply stored_inj; [apply Ha|apply Hb]).
  - split; intros b Hb; exists b; [split; [|done]|];
      by apply (only_changes_holds program_id T w k w' k' b Hch Hne).
Qed.

(** Only an account of another size changes. *)
Lemma evolves_sized T `{Pack T} `{IsInitialized T} (R : relation T) w w' k n :
  Reflexive R → LEN T ≠ n → only_changes program_id w k w' →
  length (data (account_of w k)) = n → length (data (account_of w' k)) = n → evolves T R w w'.
Proof.
  intros HR Hne Hch Hl Hl' k'. destruct (decide (k' = k)) as [->|Hk].
  - split; intros a [_ [Ha _]]; congruence.
  - split; intros a Ha; exists a; [split; [|done]|];
      by apply (only_changes_holds program_id T w k w' k' a Hch Hk).
Qed.

(** A record of another type and size is written over one of its type. *)
Lemma evolves_other T1 T2 `{Pack T1} `{IsInitialized T1} `{Pack T2} `{IsInitialized T2} (R : relation T1)
    w w' k (b b' : T2) :
  Reflexive R → LEN T1 ≠ LEN T2 → only_changes program_id w k w' → holds T2 w k b → holds T2 w' k b' →
  evolves T1 R w w'.
Proof. intros HR Hne Hch [_ [Hl _]] [_ [Hl' _]]. by eapply evolves_sized. Qed.

(** Other programs cannot touch the records, nor make new ones out of zeros. *)
Lemma evolves_frame T `{Pack T} `{IsInitialized T} (R : relation T) w w' :
  Reflexive R → (0 < LEN T)%nat →
  (∀ bs (a : T), Forall (eq 0) bs → unpack_from_slice bs = Ok a → is_initialized a = false) →
  cpi_frame program_id w w' → evolves T R w w'.
Proof.
  intros HR HL Hz Hf k. split; intros a Ha; exists a; [split; [by eapply frame_holds|done]|].
  destruct Ha as [Ho Hs]. destruct Hf as [_ Hn _]. destruct (Hn k Ho) as [[Ho' Ed]|Hzs].
  - split; [done|]. by eapply stored_data, Hs.
  - destruct Hs as (_ & Hu & Hi). destruct (eq_true_false_abs _ Hi (Hz _ _ Hzs Hu)).
Qed.

Lemma market_zeros bs m :
  Forall (eq 0) bs → LendingMarket.unpack_from_slice bs = Ok m → LendingMarket.is_initialized m = false.
Proof.
  intros Hz. unfold LendingMarket.unpack_from_slice. case_match; [done|].
  case_match; [done|]. intros [= <-].
  unfold LendingMarket.is_initialized. cbn. rewrite of_le_bytes_zeros; [done|]. by apply Forall_seg.
Qed.

(** ** All records along a step *)

Record Kept E D w w' : Prop := {
  kt_markets : evolves LendingMarket eq w w';
  kt_reserves : evolves Reserve (λ r r', settings_of r' = settings_of r) w w';
  kt_obligations : evolves Obligation (obligation_kept E D) w w';
}.

#[export] Instance settings_preorder : PreOrder (λ r r', settings_of r' = settings_of r).
Proof. split; [done|]. intros r1 r2 r3 E1 E2. by rewrite E2, E1. Qed.

#[export] Instance kept_preorder E D : PreOrder (Kept E D).
Proof. split; [by split|]. intros w1 w2 w3 [] []. split; by etransitivity. Qed.

Lemma kept_frame E D w w' : cpi_frame program_id w w' → Kept E D w w'.
Proof.
  intros Hf. split; (apply evolves_frame; [typeclasses eauto|vm_compute; lia| |done]).
  - exact market_zeros.
  - exact reserve_zeros.
  - exact obligation_zeros.
Qed.

Lemma kept_reserve E D w r r' info w' :
  holds Reserve w (key info) r → holds Reserve w' (key info) r' ∧ only_changes program_id w (key info) w' →
  settings_of r' = settings_of r → Kept E D w w'.
Proof.
  intros Hr [Hr' Hch] Es. split.
  - by eapply (evolves_other LendingMarket Reserve).
  - by eapply evolves_write.
  - eapply (evolves_other Obligation Reserve); [typeclasses eauto|done..].
Qed.

Lemma kept_obligation E D w o o' info w' :
  holds Obligation w (key info) o → holds Obligation w' (key info) o' ∧ only_changes program_id w (key info) w' →
  obligation_kept E D o o' → Kept E D w w'.
Proof.
  intros Ho [Ho' Hch] Hk. split.
  - by eapply (evolves_other LendingMarket Obligation).
  - by eapply (evolves_other Reserve Obligation).
  - eapply evolves_write; [typeclasses eauto|done..].
Qed.

End records.

(** ** The steps of the handlers *)

Section steps.
Context `{S : Sdk} (program_id : Pubkey) `{L : !SdkLaws program_id}.
Implicit Types (w : World) (k : Pubkey) (info : AccountInfo) (clock : Clock) (E D : Pubkey → Prop).
Local Abbreviation holds := (holds program_id).
Local Abbreviation World_ok := (World_ok program_id).
Local Abbreviation Kept := (Kept program_id).

(** A step on a ledger whose records are fine keeps them so, and keeps them. *)
Definition Step E D w w' : Prop := World_ok w → World_ok w' ∧ Kept E D w w'.

#[export] Instance step_preorder E D : PreOrder (Step E D).
Proof.
  split; [by split|]. intros w1 w2 w3 H1 H2 Hw. destruct (H1 Hw) as [Hw2 ?]. destruct (H2 Hw2) as [? ?].
  split; [done|by etransitivity].
Qed.

Lemma step_frame E D w w' : cpi_frame program_id w w' → Step E D w w'.
Proof. intros Hf Hw. split; [by eapply World_ok_cpi|by apply kept_frame]. Qed.

Lemma step_transfer E D src dst n auth seeds tp w u w' :
  spl_token_transfer src dst n auth seeds tp w = Ok (u, w') → Step E D w w'.
Proof. intros H. apply (spl_token_transfer_Ok program_id) in H as [H _]. by apply step_frame. Qed.

Lemma step_mint_to E D mint dst n auth seeds tp w u w' :
  spl_token_mint_to mint dst n auth seeds tp w = Ok (u, w') → Step E D w w'.
Proof. intros H. apply (spl_token_mint_to_Ok program_id) in H as [H _]. by apply step_frame. Qed.

Lemma step_burn E D mint src n auth seeds tp w u w' :
  spl_token_burn mint src n auth seeds tp w = Ok (u, w') → Step E D w w'.
Proof. intros H. apply (spl_token_burn_Ok program_id) in H as [H _]. by apply step_frame. Qed.

(** Writing a reserve over itself with the same settings *)
Lemma step_pack_reserve E D w r r' info u w' :
  holds Reserve w (key info) r → pack r' info w = Ok (u, w') → Reserve_valid r' →
  is_initialized r' = is_initialized r → settings_of r' = settings_of r → Step E D w w'.
Proof.
  intros Hr Hp Hv Hi Es Hw. split; [by apply (keeps_pack_reserve program_id r' info Hv w u w')|].
  eapply kept_reserve; [exact Hr| |done]. eapply (pack_reserve_holds program_id); [apply Hv| |done|apply Hr|exact Hp].
  rewrite Hi. apply Hr.
Qed.

Lemma step_pack_obligation E D w o o' info u w' :
  holds Obligation w (key info) o → pack o' info w = Ok (u, w') → Obligation_ok o' →
  is_initialized o' = is_initialized o → obligation_kept E D o o' → Step E D w w'.
Proof.
  intros Ho Hp Hv Hi Hk Hw. split; [by apply (keeps_pack_obligation program_id o' info Hv w u w')|].
  eapply kept_obligation; [exact Ho| |done]. eapply (pack_obligation_holds program_id); [exact Hv| |done|apply Ho|exact Hp].
  rewrite Hi. apply Ho.
Qed.

(** ** Reserves *)

Lemma step_refresh_interest E D info clock w u w' :
  is_u64 (clock_slot clock) → _refresh_reserve_interest program_id info clock w = Ok (u, w') →
  Step E D w w'.
Proof.
  intros Hc H Hw.
  destruct (refresh_interest_Ok program_id _ _ _ _ _ Hw Hc H) as (r & r' & Hr & (r1 & Ha & ->) & Hr' & Hch & Hw').
  split; [done|]. eapply kept_reserve; [exact Hr|by split|].
  pose proof (holds_reserve_valid program_id _ _ _ Hw Hr) as [Hrok Hv].
  destruct (accrue_interest_grows r _ r1 Hrok Hc Hv Ha) as (_ & Er & Hsame & _).
  rewrite Er. unfold settings_of. cbn. by rewrite Hsame.
Qed.

(** The account is unpacked without a check of its owner. *)
Lemma step_mark_stale E D info w u w' : mark_reserve_stale info w = Ok (u, w') → Step E D w w'.
Proof.
  intros H Hw. pose proof (keeps_mark_reserve_stale program_id info w u w' Hw H) as [Hw' _].
  unfold mark_reserve_stale in H. apply M_bind_Ok in H as (r & w1 & H1 & H).
  apply (unpack_Ok program_id) in H1 as [-> Hs].
  destruct (Z.eq_dec (owner (account_of w (key info))) program_id) as [Ho|Ho].
  - pose proof (holds_reserve_valid program_id _ _ _ Hw (conj Ho Hs)) as Hv.
    by apply (step_pack_reserve E D w r (Reserve.mark_stale r) info u w' (conj Ho Hs) H
      (reserve_valid_stale _ Hv) eq_refl eq_refl).
  - split; [done|]. apply (pack_Ok program_id) in H as (_ & bs & _ & ->).
    assert (Hsame : ∀ T `{Pack T} `{IsInitialized T} k (a : T),
      holds T (set_account w (key info) bs) k a ↔ holds T w k a).
    { intros T ? ? k a. unfold HandlerFacts.holds, stored. rewrite (owned_set program_id).
      destruct (decide (key info = k)) as [<-|Hne]; [by split; intros [? _]|by rewrite data_set_ne]. }
    split; intros k; (split; intros a Ha; exists a; [split; [by apply Hsame|reflexivity]|by apply Hsame]).
Qed.

Lemma step_refresh_reserve E D info pyth feed clock w u w' :
  is_u64 (clock_slot clock) → _refresh_reserve program_id info pyth feed clock w = Ok (u, w') →
  Step E D w w'.
Proof.
  intros Hc H Hw. revert H. unfold _refresh_reserve. intros H. repeat inv_handler_step.
  match goal with Hg : get_price _ _ _ w = Ok (_, _) |- _ =>
    apply get_price_reads in Hg as [-> Hp]; [|apply Hw] end.
  match goal with Hr : HandlerFacts.holds _ Reserve w _ ?r, Hk : pack _ _ w = Ok (_, ?w1) |- _ =>
    pose proof (holds_reserve_valid program_id _ _ _ Hw Hr) as [Hrok Hrv];
    assert (Hst : Step E D w w1) by (eapply step_pack_reserve; [exact Hr|exact Hk| |done|done];
      split; [|done]; apply with_liquidity_ok; [done|]; apply with_market_price_ok; [apply Hrok|done]) end.
  revert Hw. change (Step E D w w'). etransitivity; [exact Hst|]. by eapply step_refresh_interest.
Qed.

Lemma step_deposit_inner E D n src dst ri rsi cmi mi ai ui clock tp w c w' :
  is_u64 n → _deposit_reserve_liquidity program_id n src dst ri rsi cmi mi ai ui clock tp w = Ok (c, w') →
  Step E D w w'.
Proof.
  intros Hn H Hw.
  apply (deposit_liquidity_inner_Ok program_id) in H as (m & r & total & sum & ns & r1 & w1 & w2 & u1 & u2 & Hr
    & _ & _ & _ & _ & _ & _ & _ & _ & _ & Hd & Hp & Ht1 & Ht2).
  pose proof (holds_reserve_valid program_id _ _ _ Hw Hr) as Hrv.
  destruct (deposit_liquidity_ok r n r1 c (proj1 Hrv) Hn Hd) as (Hr1 & _ & Hconf).
  destruct (deposit_liquidity_Ok r n r1 c Hd) as (_ & _ & _ & _ & El & Ec & Er).
  revert Hw. change (Step E D w w'). transitivity w1; [|transitivity w2].
  - eapply step_pack_reserve; [exact Hr|exact Hp|..].
    + apply reserve_valid_stale. by eapply reserve_valid_eq.
    + by rewrite Er.
    + rewrite Er. unfold settings_of. cbn. by rewrite El, Ec.
  - by eapply step_transfer.
  - by eapply step_mint_to.
Qed.

Lemma step_redeem_inner E D c src dst ri cmi rsi mi ai ui clock tp w n w' :
  is_u64 c → _redeem_reserve_collateral program_id c src dst ri cmi rsi mi ai ui clock tp w = Ok (n, w') →
  Step E D w w'.
Proof.
  intros Hc H Hw.
  apply (redeem_inner_Ok program_id) in H as (m & r & r1 & w1 & w2 & u1 & u2 & Hr & _ & _ & _ & _ & Hd & Hp
    & Ht1 & Ht2).
  pose proof (holds_reserve_valid program_id _ _ _ Hw Hr) as Hrv.
  destruct (redeem_collateral_ok r c r1 n (proj1 Hrv) Hc Hd) as (Hr1 & _ & Hconf).
  destruct (redeem_collateral_Ok r c r1 n (proj1 (ok_rc_mint_total_supply _ (ok_r_collateral r (proj1 Hrv)))) Hd)
    as (_ & _ & _ & _ & _ & El & Ec & Er).
  revert Hw. change (Step E D w w'). transitivity w1; [|transitivity w2].
  - eapply step_pack_reserve; [exact Hr|exact Hp|..].
    + apply reserve_valid_stale. by eapply reserve_valid_eq.
    + by rewrite Er.
    + rewrite Er. unfold settings_of. cbn. by rewrite El, Ec.
  - by eapply step_burn.
  - by eapply step_transfer.
Qed.

Lemma step_redeem_fees E D accounts w u w' :
  process_redeem_fees program_id accounts w = Ok (u, w') → Step E D w w'.
Proof.
  intros H Hw.
  apply (redeem_fees_handler_Ok program_id) in H as (ri & fi & rsi & mi & ai & tp & rest & clock & m & r & n & l & w1
    & _ & _ & Hr & _ & _ & _ & _ & Hn & _ & Hl & Hp & Ht).
  pose proof (holds_reserve_valid program_id _ _ _ Hw Hr) as Hrv.
  pose proof (calculate_redeem_fees_u64 r n (proj1 Hrv) Hn) as Hpos.
  pose proof (liquidity_redeem_fees_ok _ _ _ (ok_r_liquidity r (proj1 Hrv)) Hpos Hl) as Hlok.
  apply redeem_fees_Ok in Hl as (_ & _ & ->).
  revert Hw. change (Step E D w w'). transitivity w1; [|by eapply step_transfer].
  eapply step_pack_reserve; [exact Hr|exact Hp|..]; [|done..].
  by apply reserve_valid_stale, reserve_valid_liquidity.
Qed.

(** ** Collateral of obligations *)

(** ** Collateral and loans of obligations *)

Lemma step_pledge_inner E D n src dst ri oi mi wi ui clock tp w u w' :
  is_u64 n → is_key (key ri) → (is_signer wi = true → E (key wi) ∧ D (key wi)) →
  _deposit_obligation_collateral program_id n src dst ri oi mi wi ui clock tp w = Ok (u, w') →
  Step E D w w'.
Proof.
  intros Hn Hk Hwi H Hw.
  apply (deposit_inner_Ok program_id) in H as (r & o & o1 & w1 & [Hr Ho _ [How Hsig] _] & _ & _ & _ & Ho1 & Hp & Ht).
  pose proof (holds_obligation_ok program_id _ _ _ Hw Ho) as Hov. destruct (Hwi Hsig) as [HE HD].
  assert (Hok : Obligation_ok o1) by (by eapply deposit_collateral_ok, Ho1).
  assert (Hids : o_owner o1 = o_owner o ∧ o_lending_market o1 = o_lending_market o ∧
    is_initialized o1 = is_initialized o).
  { by apply deposit_collateral_Ok in Ho1 as [(j & c & _ & _ & _ & ->)|(_ & _ & _ & ->)]. }
  destruct Hids as (E1 & E2 & E3).
  revert Hw. change (Step E D w w'). transitivity w1; [|by eapply step_transfer].
  eapply step_pack_obligation; [exact Ho|exact Hp|by apply obligation_mark_stale_ok|exact E3|].
  split; [exact E1|exact E2|right; congruence..].
Qed.

Lemma step_withdraw_inner E D n src dst wri oi mi ai wi clock tp w a w' :
  is_u64 n → (is_signer wi = true → E (key wi) ∧ D (key wi)) →
  _withdraw_obligation_collateral program_id n src dst wri oi mi ai wi clock tp w = Ok (a, w') →
  Step E D w w'.
Proof.
  intros Hn Hwi H Hw.
  apply (withdraw_inner_Ok program_id) in H as (m & r & o & c & i & o1 & w1 & u1 & [Hr Ho _ [How Hsig] _] & _ & _
    & Hc & Hd0 & Ha & Ho1 & Hp & Ht).
  pose proof (holds_reserve_valid program_id _ _ _ Hw Hr) as [Hrok _].
  pose proof (holds_obligation_ok program_id _ _ _ Hw Ho) as Hov. destruct (Hwi Hsig) as [HE HD].
  apply find_collateral_Ok in Hc as [Hc _]. pose proof (list_elem_of_lookup_2 _ _ _ Hc) as Hcin.
  destruct (withdraw_amount_Ok o r c n a Hov Hrok Hn Hcin Hd0 Ha) as ([Hapos _] & _).
  pose proof (obligation_withdraw_ok _ _ _ _ Hov Hapos Ho1) as Hov1.
  apply obligation_withdraw_Ok in Ho1 as (l & _ & _ & ->).
  revert Hw. change (Step E D w w'). transitivity w1; [|by eapply step_transfer].
  eapply step_pack_obligation; [exact Ho|exact Hp|by apply obligation_mark_stale_ok|done|].
  split; [done|done|right; congruence..].
Qed.

(** What was paid out of a reserve leaves the records alone. *)
Lemma step_pay_owner_fee E D n src fr auth seeds tp w u w' :
  pay_owner_fee n src fr auth seeds tp w = Ok (u, w') → Step E D w w'.
Proof.
  unfold pay_owner_fee. intros H. case_match; [by eapply step_transfer|].
  by apply M_ret_Ok in H as [_ ->].
Qed.

Lemma step_pay_host_fee E D fee n hi src auth seeds tp w a w' :
  pay_host_fee fee n hi src auth seeds tp w = Ok (a, w') → Step E D w w'.
Proof.
  unfold pay_host_fee. intros H. case_match; [|by apply M_ret_Ok in H as [_ ->]].
  repeat inv_handler_step. by eapply step_transfer.
Qed.

(** A handler runs a step after writing a reserve that holds elsewhere what it held. *)
Lemma still_holds w w1 ri oi r r' (o : Obligation) :
  holds Reserve w (key ri) r → holds Obligation w (key oi) o → Reserve_valid r' →
  is_initialized r' = true → World_ok w → pack r' ri w = Ok (tt, w1) → holds Obligation w1 (key oi) o.
Proof.
  intros Hr Ho [Hv _] Hi Hw Hp.
  destruct (pack_reserve_holds program_id r' ri w tt w1 Hv Hi Hw (proj1 Hr) Hp) as [_ Hch].
  pose proof (holds_distinct program_id _ _ _ _ _ Hr Ho) as Hne.
  by apply (only_changes_holds program_id Obligation w (key ri) w1 (key oi) o Hch (not_eq_sym Hne)).
Qed.

Lemma step_borrow_payout E D iter fee host receive src fr dst auth seeds tp w w1 w2 w' owner_fee u1 u :
  (match next_account_info iter with
   | Ok (host_info, _) => pay_host_fee fee host src host_info auth seeds tp
   | Err _ => mret fee
   | Panic => lift Panic
   end) w = Ok (owner_fee, w1) →
  pay_owner_fee owner_fee src fr auth seeds tp w1 = Ok (u1, w2) →
  spl_token_transfer src dst receive auth seeds tp w2 = Ok (u, w') → Step E D w w'.
Proof.
  intros H1 H2 H3. transitivity w1; [|transitivity w2; [by eapply step_pay_owner_fee|by eapply step_transfer]].
  destruct (next_account_info iter) as [[hi rest]| |]; [by eapply step_pay_host_fee| |done].
  by apply M_ret_Ok in H1 as [_ ->].
Qed.

Lemma step_borrow E D n accounts w u w' :
  is_u64 n → Forall info_ok accounts →
  (∀ wi, wi ∈ accounts → is_signer wi = true → E (key wi) ∧ D (key wi)) →
  process_borrow_obligation_liquidity program_id n accounts w = Ok (u, w') → Step E D w w'.
Proof.
  intros Hn Ha Hwi H Hw.
  apply (borrow_handler_Ok program_id) in H as (src & dst & ri & fi & oi & mi & ai & wi & ci & tp & rest & clock & m
    & r & o & rem & cap & res & l & o1 & w1 & w2 & w3 & w4 & owner_fee & u1 & -> & _ & _ & Hr & _
    & _ & _ & _ & Ho & _ & _ & How & Hsig & _ & Hrem & Hcap & Hres & Hl & Hp1 & Ho1 & Hp2 & Hpay1 & Hpay2 & Hpay3).
  destruct (Hwi wi ltac:(solve_in) Hsig) as [HE HD].
  pose proof (holds_reserve_valid program_id _ _ _ Hw Hr) as Hrv.
  pose proof (holds_obligation_ok program_id _ _ _ Hw Ho) as Hov.
  pose proof (borrow_amount_nonneg r o n _ _ res Hrv Hov Hn Hrem Hcap Hres) as Hbor.
  pose proof (liquidity_borrow_ok _ _ _ (ok_r_liquidity r (proj1 Hrv)) Hbor Hl) as Hlok.
  apply borrow_Ok in Hl as (_ & _ & _ & ->).
  pose proof (reserve_valid_stale _ (reserve_valid_liquidity _ _ Hrv Hlok)) as Hv1.
  pose proof (still_holds w w1 ri oi r _ o Hr Ho Hv1 (proj2 (proj2 (proj2 Hr))) Hw Hp1) as Ho'.
  assert (Hk : is_key (key ri)). { rewrite Forall_forall in Ha. apply Ha. solve_in. }
  pose proof (borrow_liquidity_ok _ _ _ _ _ Hov Hk (ok_rl_cumulative _ (ok_r_liquidity r (proj1 Hrv))) Hbor Ho1) as Hov1.
  assert (Hids : o_owner o1 = o_owner o ∧ o_lending_market o1 = o_lending_market o ∧
    is_initialized o1 = is_initialized o).
  { by apply borrow_liquidity_Ok in Ho1 as [(?&?&?&?&?&->)|(?&?&?&->)]. }
  destruct Hids as (E1 & E2 & E3).
  revert Hw. change (Step E D w w'). transitivity w1; [|transitivity w2].
  - by eapply step_pack_reserve; [exact Hr|exact Hp1|..].
  - eapply step_pack_obligation; [exact Ho'|exact Hp2|by apply obligation_mark_stale_ok|exact E3|].
    split; [exact E1|exact E2|right; congruence..].
  - by eapply step_borrow_payout.
Qed.

Lemma step_repay E D n accounts w u w' :
  is_u64 n → (∀ k, E k) →
  process_repay_obligation_liquidity program_id n accounts w = Ok (u, w') → Step E D w w'.
Proof.
  intros Hn HE H Hw0.
  apply (repay_handler_Ok program_id) in H as (src & dst & ri & oi & mi & ai & ci & tp & rest & clock & w1
    & r & o & l & i & l' & res & rl & o1 & w2 & w3 & -> & Hclock & Hrf & Hr & _ & _ & _ & Ho & _ & Hfind
    & Hacc & Hres & Hrl & Hp1 & Ho1 & Hp2 & Ht).
  pose proof (step_refresh_interest E D _ _ _ _ _ (clock_at_u64 program_id _ _ _ Hclock) Hrf) as H1.
  destruct (H1 Hw0) as [Hw _].
  pose proof (holds_reserve_valid program_id _ _ _ Hw Hr) as Hrv.
  pose proof (holds_obligation_ok program_id _ _ _ Hw Ho) as Hov.
  apply find_liquidity_Ok in Hfind as [Hl Hk].
  pose proof (ok_rl_cumulative _ (ok_r_liquidity r (proj1 Hrv))) as Hrate.
  pose proof (Forall_lookup_1 _ _ _ _ (ok_o_borrows o Hov) Hl) as Hlok.
  pose proof (accrue_entry_ok o i l _ l' Hov Hrate Hl Hacc) as Hov'.
  apply liquidity_accrue_Ok in Hacc as (_ & _ & [Hd0 _] & _ & _); [|done..].
  destruct (repay_amounts_nonneg r n _ res (proj1 Hn) Hd0 Hres) as [Hs0 Hp0].
  pose proof (liquidity_repay_ok _ _ _ _ (ok_r_liquidity r (proj1 Hrv)) Hp0 Hs0 Hrl) as Hrlok.
  apply repay_Ok in Hrl as (_ & ->).
  pose proof (reserve_valid_stale _ (reserve_valid_liquidity _ _ Hrv Hrlok)) as Hv1.
  pose proof (still_holds w1 w2 ri oi r _ o Hr Ho Hv1 (proj2 (proj2 (proj2 Hr))) Hw Hp1) as Ho'.
  pose proof (obligation_repay_ok _ _ _ _ Hov' Hs0 Ho1) as Hov1.
  apply obligation_repay_Ok in Ho1 as (l1 & _ & _ & ->).
  revert Hw0. change (Step E D w w'). transitivity w1; [exact H1|]. transitivity w2; [|transitivity w3].
  - by eapply step_pack_reserve; [exact Hr|exact Hp1|..].
  - eapply step_pack_obligation; [exact Ho'|exact Hp2|by apply obligation_mark_stale_ok|done|].
    split; [done|done|by right|by left].
  - by eapply step_transfer.
Qed.

Lemma step_liquidate_inner E D n src dst ri rsi wri wsi oi mi ai ui clock tp w a w' :
  is_u64 n → (∀ k, E k ∧ D k) →
  _liquidate_obligation program_id n src dst ri rsi wri wsi oi mi ai ui clock tp w = Ok (a, w') →
  Step E D w w'.
Proof.
  intros Hn HED H Hw.
  apply (liquidate_inner_Ok program_id) in H as (m & r & wr & o & l & i & c & j & res & rl & o1 & o2 & w1 & w2 & w3
    & u1 & u2 & Hr & _ & _ & _ & _ & Hwr & _ & _ & _ & Ho & _ & _ & _ & Hl & Hc & Hres & _ & _ & -> & Hrl
    & Hp1 & Ho1 & Ho2 & Hp2 & Ht1 & Ht2).
  pose proof (holds_reserve_valid program_id _ _ _ Hw Hr) as Hrv.
  pose proof (holds_reserve_valid program_id _ _ _ Hw Hwr) as [Hwok _].
  pose proof (holds_obligation_ok program_id _ _ _ Hw Ho) as Hov.
  destruct (liquidation_amounts_nonneg wr n o _ _ _ _ _ _ res Hwok Hn Hov Hl Hc Hres) as (Hs & Hp & Hwd).
  pose proof (liquidity_repay_ok _ _ _ _ (ok_r_liquidity r (proj1 Hrv)) Hp Hs Hrl) as Hrlok.
  pose proof (obligation_repay_ok _ _ _ _ Hov Hs Ho1) as Hov1.
  pose proof (obligation_withdraw_ok _ _ _ _ Hov1 (proj1 Hwd) Ho2) as Hov2.
  apply repay_Ok in Hrl as (_ & ->).
  pose proof (reserve_valid_stale _ (reserve_valid_liquidity _ _ Hrv Hrlok)) as Hv1.
  pose proof (still_holds w w1 ri oi r _ o Hr Ho Hv1 (proj2 (proj2 (proj2 Hr))) Hw Hp1) as Ho'.
  apply obligation_withdraw_Ok in Ho2 as (c1 & _ & _ & ->).
  apply obligation_repay_Ok in Ho1 as (l1 & _ & _ & ->).
  revert Hw. change (Step E D w w'). transitivity w1; [|transitivity w2; [|transitivity w3]].
  - by eapply step_pack_reserve; [exact Hr|exact Hp1|..].
  - eapply step_pack_obligation; [exact Ho'|exact Hp2|by apply obligation_mark_stale_ok|done|].
    split; [done|done|right; apply HED..].
  - by eapply step_transfer.
  - by eapply step_transfer.
Qed.

(** A refresh values the deposits again, with the same amounts. *)
Lemma refreshed_deposits_map w clock o o' :
  refreshed program_id w clock o o' → deposits_map o' = deposits_map o.
Proof.
  intros [_ _ _ (rs & qs & cap & Hds & _)]. by eapply deposits_map_eq, refreshed_deposits.
Qed.

Lemma step_refresh_obligation E D accounts w u w' :
  (∀ k, E k) → process_refresh_obligation program_id accounts w = Ok (u, w') → Step E D w w'.
Proof.
  intros HE H Hw.
  apply (refresh_obligation_Ok program_id) in H as (info & ci & rest & clock & o & o' & -> & _ & Ho & Hrf & Hok & Hi
    & Hp); [|done].
  revert Hw. apply (step_pack_obligation E D w o o' info u w' Ho Hp Hok); [rewrite Hi; symmetry; apply Ho|].
  split; [apply Hrf|apply Hrf|by right|left; by eapply refreshed_deposits_map].
Qed.

(** ** Flash loans *)

Lemma step_flash_loan E D n accounts w u w' :
  is_u64 n → process_flash_loan program_id n accounts w = Ok (u, w') → Step E D w w'.
Proof.
  intros Hn H Hw.
  apply (flash_handler_Ok program_id) in H as (src & dst & ri & fi & hi & mi & ai & tp & rp & rest & m & r & fee
    & host & before & expected & required & l1 & r2 & l2 & after & owner_fee & w1 & w2 & w3 & w4 & w5 & u1 & []
    & -> & Hne & Hr & _ & _ & _ & _ & _ & _ & Hl1 & Hp1 & Ht & Hi & Hs2 & Hl2 & Hp2 & _ & _ & Hf1 & Hf2).
  pose proof (holds_reserve_valid program_id _ _ _ Hw Hr) as Hrv.
  destruct (ok_rl_borrowed _ (ok_r_liquidity r (proj1 Hrv))) as [Hbor _].
  assert (Hamt : 0 ≤ loan_amount r n).
  { destruct (ok_rl_available _ (ok_r_liquidity r (proj1 Hrv))). unfold loan_amount. case_match; [done|apply Hn]. }
  assert (Hd : 0 ≤ dec (Decimal.from_u64 (loan_amount r n))).
  { cbn [dec Decimal.from_u64]. change Decimal.wad with WAD. unfold WAD. lia. }
  pose proof (liquidity_borrow_ok _ _ _ (ok_r_liquidity r (proj1 Hrv)) Hd Hl1) as Hl1ok.
  destruct (borrow_Ok _ _ _ Hl1) as (_ & _ & _ & El1).
  assert (H1 : Step E D w w1).
  { eapply step_pack_reserve; [exact Hr|exact Hp1|by apply reserve_valid_liquidity|done|].
    unfold settings_of. cbn. by rewrite El1. }
  destruct (pack_reserve_holds program_id (Reserve.with_liquidity r l1) ri w tt w1) as [Hr1 _];
    [by apply with_liquidity_ok; [apply Hrv|]|apply Hr|done|apply Hr|done|].
  pose proof (moved_reserve program_id _ _ _ _ _ (transfer_moved program_id _ _ _ _ _ _ _ _ _ Ht) Hr1) as Hr2.
  destruct (run_cpi_frame program_id (flash_loan_instruction (key rp) (key dst) (key src) (key tp) required rest)
    _ _ _ _ _ (not_eq_sym Hne) Hi) as [Hframe _].
  pose proof (frame_reserve program_id _ _ _ _ Hframe Hr2) as Hr3.
  assert (r2 = Reserve.with_liquidity r l1) as -> by (eapply stored_inj; [exact Hs2|apply Hr3]).
  pose proof (borrow_repay_id _ _ _ _ Hamt Hbor Hl1 Hl2) as ->.
  revert Hw. change (Step E D w w'). transitivity w1; [exact H1|].
  transitivity w2; [by eapply step_transfer|]. transitivity w3; [by apply step_frame|].
  transitivity w4; [|transitivity w5; [by eapply step_pay_host_fee|by eapply step_pay_owner_fee]].
  assert (Er : Reserve.with_liquidity (Reserve.with_liquidity r l1) (r_liquidity r) = r) by (by destruct r).
  rewrite Er in Hp2. eapply step_pack_reserve; [exact Hr3|exact Hp2|done|done|].
  unfold settings_of. cbn. by rewrite El1.
Qed.

(** ** Whole handlers *)

(** What a run from [w0] has come to *)
Definition Run E D w0 w : Prop := World_ok w ∧ Kept E D w0 w.

Lemma run_step E D w0 w w' : Run E D w0 w → Step E D w w' → Run E D w0 w'.
Proof. intros [Hw Hk] Hs. destruct (Hs Hw). split; [done|by etransitivity]. Qed.

Definition nobody : Pubkey → Prop := λ _, False.

(** An obligation that nobody may change was there before. *)
Lemma step_nobody w w' k (o : Obligation) :
  World_ok w → Step nobody nobody w w' → holds Obligation w' k o → holds Obligation w k o.
Proof.
  intros Hw H Ho. destruct (H Hw) as [_ [_ _ Hk]]. destruct (proj2 (Hk k) o Ho) as (o0 & Ho0).
  destruct (proj1 (Hk k) o0 Ho0) as (o1 & Ho1 & [_ _ [->|[]] _]).
  by replace o with o0 by (eapply stored_inj; [apply Ho1|apply Ho]).
Qed.

Lemma step_of_run E D w w' : (Run E D w w → Run E D w w') → Step E D w w'.
Proof. intros H Hw. by apply H. Qed.

Ltac slot_u64 := solve [by eapply (clock_at_u64 program_id) | by apply (clock_get_u64 (program_id := program_id))].
Ltac next_run Hr w1 :=
  match type of Hr with Run ?E ?D ?w0 ?w =>
    let H := fresh in assert (H : Run E D w0 w1); [apply (run_step E D w0 w w1 Hr)|] end.

(** Follows the records through the next step of a run. *)
Ltac step_run :=
  match goal with
  | Hr : Run _ _ _ ?w, H : _refresh_reserve_interest _ _ _ ?w = Ok (_, ?w1) |- _ =>
      next_run Hr w1; [eapply step_refresh_interest; [|exact H]; slot_u64|]; clear H
  | Hr : Run _ _ _ ?w, H : _refresh_reserve _ _ _ _ _ ?w = Ok (_, ?w1) |- _ =>
      next_run Hr w1; [eapply step_refresh_reserve; [|exact H]; slot_u64|]; clear H
  | Hr : Run _ _ _ ?w, H : mark_reserve_stale _ ?w = Ok (_, ?w1) |- _ =>
      next_run Hr w1; [by eapply step_mark_stale|]; clear H
  | Hr : Run _ _ _ ?w, Hn : is_u64 ?n, H : _deposit_reserve_liquidity _ ?n _ _ _ _ _ _ _ _ _ _ ?w = Ok (_, ?w1) |- _ =>
      next_run Hr w1; [by eapply step_deposit_inner|];
      destruct (keeps_deposit_reserve_liquidity_inner program_id _ _ _ _ _ _ _ _ _ _ _ Hn _ _ _ (proj1 Hr) H)
        as [_ ?]; clear H
  | Hr : Run _ _ _ ?w, Hn : is_u64 ?n, H : _redeem_reserve_collateral _ ?n _ _ _ _ _ _ _ _ _ _ ?w = Ok (_, ?w1) |- _ =>
      next_run Hr w1; [by eapply step_redeem_inner|]; clear H
  | Hr : Run _ _ _ ?w, Hn : is_u64 ?n, H : _deposit_obligation_collateral _ ?n _ _ _ _ _ _ _ _ _ ?w = Ok (_, ?w1) |- _ =>
      next_run Hr w1; [eapply step_pledge_inner; [exact Hn| | |exact H]|]; clear H
  | Hr : Run _ _ _ ?w, Hn : is_u64 ?n, H : _withdraw_obligation_collateral _ ?n _ _ _ _ _ _ _ _ _ ?w = Ok (_, ?w1) |- _ =>
      next_run Hr w1; [eapply step_withdraw_inner; [exact Hn| |exact H]|];
      destruct (keeps_withdraw_obligation_collateral_inner program_id _ _ _ _ _ _ _ _ _ _ Hn _ _ _ (proj1 Hr) H)
        as [_ ?]; clear H
  | Hr : Run _ _ _ ?w, Hn : is_u64 ?n, H : _liquidate_obligation _ ?n _ _ _ _ _ _ _ _ _ _ _ _ ?w = Ok (_, ?w1) |- _ =>
      next_run Hr w1; [by eapply step_liquidate_inner|];
      destruct (keeps_liquidate_obligation_inner program_id _ _ _ _ _ _ _ _ _ _ _ _ _ Hn _ _ _ (proj1 Hr) H)
        as [_ ?]; clear H
  | Hr : Run _ _ _ ?w, H : spl_token_transfer _ _ _ _ _ _ ?w = Ok (_, ?w1) |- _ =>
      next_run Hr w1; [by eapply step_transfer|]; clear H
  | H : unpack Reserve _ _ = Ok _ |- _ => apply (unpack_Ok program_id) in H as [-> _]
  end.

(** What an account of the instruction is *)
Ltac of_accounts :=
  match goal with
  | |- is_key (key _) =>
      match goal with Ha : Forall info_ok _ |- _ => rewrite Forall_forall in Ha; apply Ha; solve_in end
  | Hwi : ∀ wi, wi ∈ _ → _ |- is_signer _ = true → _ => apply Hwi; solve_in
  end.

Ltac step_by f :=
  unfold f; intros; apply step_of_run; intros; inv_handler; repeat step_run; first [assumption|of_accounts].

Lemma step_refresh_reserve_handler E D accounts w u w' :
  process_refresh_reserve program_id accounts w = Ok (u, w') → Step E D w w'.
Proof. step_by @process_refresh_reserve. Qed.

Lemma step_deposit E D n accounts w u w' :
  is_u64 n → process_deposit_reserve_liquidity program_id n accounts w = Ok (u, w') → Step E D w w'.
Proof. step_by @process_deposit_reserve_liquidity. Qed.

Lemma step_redeem E D n accounts w u w' :
  is_u64 n → process_redeem_reserve_collateral program_id n accounts w = Ok (u, w') → Step E D w w'.
Proof. step_by @process_redeem_reserve_collateral. Qed.

(** Handlers for which the owner of the obligation signs *)
Definition by_owner (handler : Z → list AccountInfo → M unit) : Prop :=
  ∀ E D n accounts w u w', is_u64 n → Forall info_ok accounts →
    (∀ wi, wi ∈ accounts → is_signer wi = true → E (key wi) ∧ D (key wi)) →
    handler n accounts w = Ok (u, w') → Step E D w w'.

Lemma step_pledge : by_owner (process_deposit_obligation_collateral program_id).
Proof. unfold by_owner. step_by @process_deposit_obligation_collateral. Qed.

Lemma step_withdraw : by_owner (process_withdraw_obligation_collateral program_id).
Proof. unfold by_owner. step_by @process_withdraw_obligation_collateral. Qed.

Lemma step_deposit_and_pledge :
  by_owner (process_deposit_reserve_liquidity_and_obligation_collateral program_id).
Proof. unfold by_owner. step_by @process_deposit_reserve_liquidity_and_obligation_collateral. Qed.

Lemma step_withdraw_and_redeem :
  by_owner (process_withdraw_obligation_collateral_and_redeem_reserve_liquidity program_id).
Proof. unfold by_owner. step_by @process_withdraw_obligation_collateral_and_redeem_reserve_liquidity. Qed.

Lemma step_liquidate E D n accounts w u w' :
  is_u64 n → (∀ k, E k ∧ D k) →
  process_liquidate_obligation program_id n accounts w = Ok (u, w') → Step E D w w'.
Proof. step_by @process_liquidate_obligation. Qed.

Lemma step_liquidate_and_redeem E D n accounts w u w' :
  is_u64 n → (∀ k, E k ∧ D k) →
  process_liquidate_obligation_and_redeem_reserve_collateral program_id n accounts w = Ok (u, w') → Step E D w w'.
Proof. step_by @process_liquidate_obligation_and_redeem_reserve_collateral. Qed.

End steps.

(** ** Instructions that only the owner of a market gives *)

Section owners.
Context `{S : Sdk} (program_id : Pubkey) `{L : !SdkLaws program_id}.
Implicit Types (w : World) (k : Pubkey) (accounts : list AccountInfo).
Local Abbreviation holds := (holds program_id).

(** The account is among those of the instruction, as a signer. *)
Definition signed accounts k : Prop := ∃ info, info ∈ accounts ∧ key info = k ∧ is_signer info = true.

(** The market at the address has an owner who signed. *)
Definition market_owner_signed w accounts k : Prop :=
  ∃ m, holds LendingMarket w k m ∧ signed accounts (lm_owner m).

(** One market is given to a new owner by the old one. *)
Lemma set_owner_changes owner accounts w u w' :
  World_ok program_id w → is_key owner →
  process_set_lending_market_owner program_id owner accounts w = Ok (u, w') →
  ∃ mi m, holds LendingMarket w (key mi) m ∧ signed accounts (lm_owner m) ∧
    holds LendingMarket w' (key mi) (LendingMarket.set_owner m owner) ∧
    only_changes program_id w (key mi) w'.
Proof.
  unfold process_set_lending_market_owner. intros Hw Hk H. inv_handler.
  match goal with Hm : HandlerFacts.holds _ LendingMarket _ (key ?mi) ?m, Hp : pack _ _ _ = _ |- _ =>
    exists mi, m; rename Hm into Hhm;
    apply (pack_holds program_id LendingMarket) in Hp as (Hh & Hin & Hch) end.
  - split; [done|]. split; [|by split]. eexists. split; [|by split]. solve_in.
  - intros output bs. apply market_pack_back.
    pose proof (stored_market_ok program_id _ _ _ Hw (proj2 Hhm)) as []. by constructor.
  - apply Hhm.
  - done.
  - apply Hhm.
Qed.

(** A market at a vacant account *)
Lemma init_market_changes owner quote accounts w u w' :
  World_ok program_id w → is_key owner → is_key quote → Forall info_ok accounts →
  process_init_lending_market program_id owner quote accounts w = Ok (u, w') →
  ∃ mi m, length (data (account_of w (key mi))) = LEN LendingMarket ∧
    vacant program_id LendingMarket w (key mi) ∧ holds LendingMarket w' (key mi) m ∧
    only_changes program_id w (key mi) w'.
Proof.
  intros Hw Ho Hq Ha. unfold process_init_lending_market. intros H. inv_handler.
  repeat match goal with H : Forall _ (_ :: _) |- _ => apply Forall_cons in H as [? H] end.
  match type of H with pack ?m ?mi _ = _ => exists mi, m; rename H into Hp end.
  apply (pack_holds program_id LendingMarket) in Hp as (Hh & Hin & Hch); [| |done|done|assumption].
  - split; [done|]. split; [by eapply vacant_intro|]. split; [exact Hh|by split].
  - intros output bs. apply market_pack_back. constructor; cbn; try done. apply find_program_address_u8.
Qed.

(** A reserve at a vacant account, of a market whose owner signed *)
Lemma init_reserve_changes n config accounts w u w' :
  World_ok program_id w → is_u64 n → ReserveConfig_ok config → Forall info_ok accounts →
  process_init_reserve program_id n config accounts w = Ok (u, w') →
  ∃ ri r w1, length (data (account_of w (key ri))) = LEN Reserve ∧
    vacant program_id Reserve w (key ri) ∧ holds Reserve w1 (key ri) r ∧
    only_changes program_id w (key ri) w1 ∧ market_owner_signed w accounts (r_lending_market r) ∧
    ∀ E D, Kept program_id E D w1 w'.
Proof.
  intros Hw Hn Hcf Ha. unfold process_init_reserve. intros H. repeat inv_handler_step. bool_to_prop.
  repeat match goal with H : Forall _ (_ :: _) |- _ => apply Forall_cons in H as [? H] end.
  match goal with H : validate_pyth_keys _ _ _ _ = Ok _ |- _ =>
    apply validate_pyth_keys_reads in H as [-> _] end.
  match goal with H : validate_switchboard_keys _ _ _ = Ok _ |- _ =>
    apply validate_switchboard_keys_reads in H as [-> _] end.
  match goal with H : get_price _ _ _ _ = Ok _ |- _ =>
    apply get_price_reads in H as [-> ?]; [|apply Hw] end.
  match goal with H : unpack_mint _ _ = Ok (?d, _) |- _ =>
    pose proof (keeps_unpack_mint program_id _ _ _ _ Hw H) as [_ Hdec];
    unfold unpack_mint in H; inv_m end.
  match goal with Hc : clock_at _ _ _ |- _ =>
    pose proof (clock_from_account_info_u64 _ _ _ Hc) as Hslot end.
  match goal with Hd : Reserve.deposit_liquidity (Reserve.init ?self ?p) _ = Ok (?r, ?c), Hp : pack ?r ?ri w = Ok (_, ?w1) |- _ =>
    destruct (init_deposit_Ok self p n r c Hd eq_refl eq_refl) as (_ & _ & _ & _ & _ & Hinit);
    pose proof (deposit_liquidity_Ok _ _ _ _ Hd) as (_ & _ & _ & _ & _ & _ & Er);
    apply deposit_liquidity_ok in Hd as (Hr & _ & _); [|by apply reserve_init_valid|done];
    destruct (pack_reserve_holds program_id r ri w tt w1 Hr Hinit Hw) as [Hh Hch]; [assumption|exact Hp|];
    exists ri, r, w1
  end.
  split; [done|]. split; [by eapply vacant_intro|]. do 2 (split; [done|]). split.
  - rewrite Er. eexists. split; [by split; eassumption|]. eexists. split; [|split; [by symmetry|assumption]]. solve_in.
  - intros E D. repeat match goal with
    | H : spl_token_init_account _ _ _ _ _ _ = Ok _ |- _ => apply (spl_token_init_account_Ok program_id) in H as [H _]
    | H : spl_token_init_mint _ _ _ _ _ _ = Ok _ |- _ => apply (spl_token_init_mint_Ok program_id) in H as [H _]
    | H : spl_token_transfer _ _ _ _ _ _ _ = Ok _ |- _ => apply (spl_token_transfer_Ok program_id) in H as [H _]
    | H : spl_token_mint_to _ _ _ _ _ _ _ = Ok _ |- _ => apply (spl_token_mint_to_Ok program_id) in H as [H _]
    end.
    repeat (etransitivity; [eapply (kept_frame program_id); eassumption|]). reflexivity.
Qed.

(** An obligation at a vacant account, of an owner who signed *)
Lemma init_obligation_changes accounts w u w' :
  World_ok program_id w → Forall info_ok accounts →
  process_init_obligation program_id accounts w = Ok (u, w') →
  ∃ bi o, length (data (account_of w (key bi))) = LEN Obligation ∧
    vacant program_id Obligation w (key bi) ∧ holds Obligation w' (key bi) o ∧
    only_changes program_id w (key bi) w' ∧ signed accounts (o_owner o).
Proof.
  intros Hw Ha. unfold process_init_obligation. intros H. inv_handler.
  repeat match goal with H : Forall _ (_ :: _) |- _ => apply Forall_cons in H as [? H] end.
  match goal with Hc : clock_at _ _ _ |- _ =>
    pose proof (clock_from_account_info_u64 _ _ _ Hc) as Hslot end.
  match goal with Hu : unpack_from_slice _ = Ok ?o |- _ =>
    destruct (obligation_unpack_values _ _ (wo_bytes _ _ Hw _) Hu) as (? & ? & ? & ?) end.
  match type of H with pack ?o ?bi _ = _ => rename H into Hp; exists bi, o end.
  apply (pack_holds program_id Obligation) in Hp as (Hh & Hin & Hch); [| |done|done|assumption].
  - split_and!; [done|by eapply vacant_intro|exact Hh|by split|].
    eexists. split; [|split; [reflexivity|assumption]]. solve_in.
  - intros output bs. apply obligation_pack_back. by apply obligation_init_ok.
Qed.

(** One reserve is reconfigured by the owner of its market. *)
Lemma update_config_changes config accounts w u w' :
  World_ok program_id w → ReserveConfig_ok config → Forall info_ok accounts →
  process_update_reserve_config program_id config accounts w = Ok (u, w') →
  ∃ ri r r', holds Reserve w (key ri) r ∧ holds Reserve w' (key ri) r' ∧ only_changes program_id w (key ri) w' ∧
    r_lending_market r' = r_lending_market r ∧ market_owner_signed w accounts (r_lending_market r).
Proof.
  intros Hw Hc Ha H. destruct (update_config_accounts program_id _ _ _ _ _ H) as (ri & mi & ai & oi & product & price & feed
    & rest & ->).
  apply (update_reserve_config_Ok program_id) in H as (r & m & Hr & Hm & Em & Eo & Hsig & Hv & _ & Hp).
  rewrite !Forall_cons in Ha.
  pose proof (holds_reserve_valid program_id _ _ _ Hw Hr) as Hrv.
  destruct (pack_reserve_holds program_id (reconfigured r config (key price) (key feed)) ri w u w') as [Hr' Hch];
    [apply reconfigured_ok; try done; naive_solver|apply Hr|done|apply Hr|done|].
  exists ri, r. eexists. split_and!; [done|exact Hr'|done|done|].
  exists m. rewrite Em. split; [done|]. exists oi. split_and!; [solve_in|by symmetry|done].
Qed.
End owners.

(** ** Properties *)

(** Instructions that anyone may give for an obligation: a refresh and a
    repayment, which leave its deposits, and the liquidations. *)
Definition liquidates (i : LendingInstruction) : Prop :=
  match i with
  | LiquidateObligation _ | LiquidateObligationAndRedeemReserveCollateral _ => True
  | _ => False
  end.

Definition settles (i : LendingInstruction) : Prop :=
  match i with
  | RefreshObligation | RepayObligationLiquidity _ => True
  | _ => liquidates i
  end.

(** The records before and after an instruction, with the signatures that the
    changes need *)
Record Authorised `{S : Sdk} (program_id : Pubkey) (i : LendingInstruction) (accounts : list AccountInfo)
    (w w' : World) : Prop := {
  au_market : ∀ k m, holds program_id LendingMarket w k m →
    ∃ m', holds program_id LendingMarket w' k m' ∧
      (m' = m ∨ (signed accounts (lm_owner m) ∧ ∃ owner, m' = LendingMarket.set_owner m owner));
  au_reserve : ∀ k r, holds program_id Reserve w k r →
    ∃ r', holds program_id Reserve w' k r' ∧ r_lending_market r' = r_lending_market r ∧
      (settings_of r' = settings_of r ∨ market_owner_signed program_id w accounts (r_lending_market r));
  au_new_reserve : ∀ k r', holds program_id Reserve w' k r' →
    (∃ r, holds program_id Reserve w k r) ∨ market_owner_signed program_id w accounts (r_lending_market r');
  au_obligation : ∀ k o, holds program_id Obligation w k o →
    ∃ o', holds program_id Obligation w' k o' ∧ o_owner o' = o_owner o ∧
      o_lending_market o' = o_lending_market o ∧
      (o' = o ∨ signed accounts (o_owner o) ∨ settles i) ∧
      (deposits_map o' = deposits_map o ∨ signed accounts (o_owner o) ∨ liquidates i);
  au_new_obligation : ∀ k o', holds program_id Obligation w' k o' →
    (∃ o, holds program_id Obligation w k o) ∨ signed accounts (o_owner o');
}.

Section authorised.
Context `{S : Sdk} (program_id : Pubkey) `{L : !SdkLaws program_id}.
Implicit Types (w : World) (k : Pubkey) (accounts : list AccountInfo).
Local Abbreviation holds := (holds program_id).
Local Abbreviation Authorised := (Authorised program_id).

(** Who may change an obligation, and its deposits, with the instruction *)
Definition may_change i accounts k : Prop := signed accounts k ∨ settles i.
Definition may_move i accounts k : Prop := signed accounts k ∨ liquidates i.
Local Abbreviation Follows i accounts := (Kept program_id (may_change i accounts) (may_move i accounts)).

Lemma settings_market r r' : settings_of r' = settings_of r → r_lending_market r' = r_lending_market r.
Proof. by intros [= ? _ _ _]. Qed.

(** An obligation followed by [Kept] is one that was authorised to change. *)
Lemma kept_obligations_authorised i accounts w w' :
  evolves program_id Obligation (obligation_kept (may_change i accounts) (may_move i accounts)) w w' →
  ∀ k o, holds Obligation w k o → ∃ o', holds Obligation w' k o' ∧ o_owner o' = o_owner o ∧
      o_lending_market o' = o_lending_market o ∧
      (o' = o ∨ signed accounts (o_owner o) ∨ settles i) ∧
      (deposits_map o' = deposits_map o ∨ signed accounts (o_owner o) ∨ liquidates i).
Proof.
  intros H k o Ho. destruct (proj1 (H k) o Ho) as (o' & Ho' & []). by exists o'.
Qed.

Lemma kept_authorised i accounts w w' : Follows i accounts w w' → Authorised i accounts w w'.
Proof.
  intros [Hm Hr Ho]. split.
  - intros k m (m' & Hm' & ->)%Hm. exists m'. by split; [|left].
  - intros k r (r' & Hr' & Es)%Hr. exists r'. split; [done|]. split; [by apply settings_market|by left].
  - intros k r' H%Hr. by left.
  - by apply kept_obligations_authorised.
  - intros k o' H%Ho. by left.
Qed.

Lemma step_authorised i accounts w w' :
  World_ok program_id w → Step program_id (may_change i accounts) (may_move i accounts) w w' →
  Authorised i accounts w w'.
Proof. intros Hw H. by apply kept_authorised, H. Qed.

(** A signer may change what is his. *)
Lemma signer_may i accounts info :
  info ∈ accounts → is_signer info = true → may_change i accounts (key info) ∧ may_move i accounts (key info).
Proof. intros Hi Hs. split; left; by exists info. Qed.

(** Writing a market leaves reserves and obligations alone. *)
Lemma market_write_others R1 R2 w w' k :
  Reflexive R1 → Reflexive R2 → only_changes program_id w k w' →
  length (data (account_of w k)) = LEN LendingMarket → length (data (account_of w' k)) = LEN LendingMarket →
  evolves program_id Reserve R1 w w' ∧ evolves program_id Obligation R2 w w'.
Proof. intros. split; by eapply (evolves_sized program_id _ _ w w' k (LEN LendingMarket)). Qed.

Lemma set_owner_authorised owner accounts w u w' :
  World_ok program_id w → is_key owner →
  process_set_lending_market_owner program_id owner accounts w = Ok (u, w') →
  Authorised (SetLendingMarketOwner owner) accounts w w'.
Proof.
  intros Hw Hk H. destruct (set_owner_changes program_id _ _ _ _ _ Hw Hk H) as (mi & m & Hm & Hsig & Hm' & Hch).
  destruct (market_write_others (λ r r', settings_of r' = settings_of r)
    (obligation_kept (may_change (SetLendingMarketOwner owner) accounts)
       (may_move (SetLendingMarketOwner owner) accounts)) w w' (key mi))
    as [Hr Ho]; [typeclasses eauto..|done|apply Hm|apply Hm'|].
  split.
  - intros k m0 Hm0. destruct (decide (k = key mi)) as [->|Hne].
    + replace m0 with m by (eapply stored_inj; [apply Hm|apply Hm0]). eexists. split; [exact Hm'|].
      right. split; [done|by eexists].
    + exists m0. split; [by apply (only_changes_holds program_id LendingMarket w (key mi))|by left].
  - intros k r (r' & Hr' & Es)%Hr. exists r'. split; [done|]. split; [by apply settings_market|by left].
  - intros k r' H'%Hr. by left.
  - by apply kept_obligations_authorised.
  - intros k o' H'%Ho. by left.
Qed.

Lemma init_market_authorised owner quote accounts w u w' :
  World_ok program_id w → is_key owner → is_key quote → Forall info_ok accounts →
  process_init_lending_market program_id owner quote accounts w = Ok (u, w') →
  Authorised (InitLendingMarket owner quote) accounts w w'.
Proof.
  intros Hw Ho Hq Ha H.
  destruct (init_market_changes program_id _ _ _ _ _ _ Hw Ho Hq Ha H) as (mi & m & Hlen & [_ Hno] & Hm' & Hch).
  destruct (market_write_others (λ r r', settings_of r' = settings_of r)
    (obligation_kept (may_change (InitLendingMarket owner quote) accounts)
       (may_move (InitLendingMarket owner quote) accounts)) w w' (key mi))
    as [Hr Hob]; [typeclasses eauto..|done|done|apply Hm'|].
  split.
  - intros k m0 Hm0. assert (k ≠ key mi) by (intros ->; by eapply Hno, Hm0).
    exists m0. split; [by apply (only_changes_holds program_id LendingMarket w (key mi))|by left].
  - intros k r (r' & Hr' & Es)%Hr. exists r'. split; [done|]. split; [by apply settings_market|by left].
  - intros k r' H'%Hr. by left.
  - by apply kept_obligations_authorised.
  - intros k o' H'%Hob. by left.
Qed.

(** A new record of one size leaves the records of other sizes alone. *)
Lemma new_record_others T1 T2 `{Pack T1} `{IsInitialized T1} `{Pack T2} `{IsInitialized T2} (R : relation T1)
    w w' k (a : T2) :
  Reflexive R → LEN T1 ≠ LEN T2 → length (data (account_of w k)) = LEN T2 → holds T2 w' k a →
  only_changes program_id w k w' → evolves program_id T1 R w w'.
Proof. intros HR Hne Hl [_ [Hl' _]] Hch. by eapply (evolves_sized program_id). Qed.

Lemma init_reserve_authorised n config accounts w u w' :
  World_ok program_id w → is_u64 n → ReserveConfig_ok config → Forall info_ok accounts →
  process_init_reserve program_id n config accounts w = Ok (u, w') →
  Authorised (InitReserve n config) accounts w w'.
Proof.
  intros Hw Hn Hcf Ha H.
  destruct (init_reserve_changes program_id _ _ _ _ _ _ Hw Hn Hcf Ha H)
    as (ri & r & w1 & Hlen & [_ Hno] & Hr & Hch & Hsig & Hk).
  destruct (Hk (may_change (InitReserve n config) accounts) (may_move (InitReserve n config) accounts))
    as [Hm2 Hr2 Ho2].
  assert (Hm1 : evolves program_id LendingMarket eq w w1)
    by (eapply (new_record_others LendingMarket Reserve); [typeclasses eauto|done|exact Hlen|exact Hr|done]).
  assert (Ho1 : evolves program_id Obligation (obligation_kept (may_change (InitReserve n config) accounts)
    (may_move (InitReserve n config) accounts)) w w1)
    by (eapply (new_record_others Obligation Reserve); [typeclasses eauto|done|exact Hlen|exact Hr|done]).
  split.
  - intros k m (m1 & (m2 & Hm' & ->)%Hm2 & ->)%Hm1. exists m2. by split; [|left].
  - intros k r0 Hr0. assert (k ≠ key ri) by (intros ->; by eapply Hno, Hr0).
    assert (Hr1 : holds Reserve w1 k r0) by (by apply (only_changes_holds program_id Reserve w (key ri))).
    apply Hr2 in Hr1 as (r' & Hr' & Es). exists r'. split; [done|]. split; [by apply settings_market|by left].
  - intros k r' Hr'. destruct (proj2 (Hr2 k) r' Hr') as (r1 & Hr1). destruct (decide (k = key ri)) as [->|Hne].
    + right. replace r1 with r in Hr1 by (eapply stored_inj; [apply Hr|apply Hr1]).
      apply Hr2 in Hr1 as (r'' & Hr'' & Es).
      replace r'' with r' in Es by (eapply stored_inj; [apply Hr'|apply Hr'']).
      by rewrite (settings_market _ _ Es).
    + left. exists r1. by apply (only_changes_holds program_id Reserve w (key ri) w1).
  - apply kept_obligations_authorised. by transitivity w1.
  - intros k o' (o1 & H1%Ho1)%Ho2. by left.
Qed.

Lemma init_obligation_authorised accounts w u w' :
  World_ok program_id w → Forall info_ok accounts →
  process_init_obligation program_id accounts w = Ok (u, w') → Authorised InitObligation accounts w w'.
Proof.
  intros Hw Ha H.
  destruct (init_obligation_changes program_id _ _ _ _ Hw Ha H) as (bi & o & Hlen & [_ Hno] & Ho & Hch & Hsig).
  assert (Hm : evolves program_id LendingMarket eq w w')
    by (eapply (new_record_others LendingMarket Obligation); [typeclasses eauto|done|exact Hlen|exact Ho|done]).
  assert (Hr : evolves program_id Reserve (λ r r', settings_of r' = settings_of r) w w')
    by (eapply (new_record_others Reserve Obligation); [typeclasses eauto|done|exact Hlen|exact Ho|done]).
  split.
  - intros k m (m' & Hm' & ->)%Hm. exists m'. by split; [|left].
  - intros k r (r' & Hr' & Es)%Hr. exists r'. split; [done|]. split; [by apply settings_market|by left].
  - intros k r' H'%Hr. by left.
  - intros k o0 Ho0. assert (k ≠ key bi) by (intros ->; by eapply Hno, Ho0).
    exists o0. split; [by apply (only_changes_holds program_id Obligation w (key bi))|].
    split_and!; by try left.
  - intros k o' Ho'. destruct (decide (k = key bi)) as [->|Hne].
    + right. by replace o' with o by (eapply stored_inj; [apply Ho|apply Ho']).
    + left. exists o'. by apply (only_changes_holds program_id Obligation w (key bi) w').
Qed.

Lemma update_config_authorised config accounts w u w' :
  World_ok program_id w → ReserveConfig_ok config → Forall info_ok accounts →
  process_update_reserve_config program_id config accounts w = Ok (u, w') →
  Authorised (UpdateReserveConfig config) accounts w w'.
Proof.
  intros Hw Hc Ha H.
  destruct (update_config_changes program_id _ _ _ _ _ Hw Hc Ha H) as (ri & r & r' & Hr & Hr' & Hch & Em & Hsig).
  assert (Hm : evolves program_id LendingMarket eq w w')
    by (by eapply (evolves_other program_id LendingMarket Reserve)).
  assert (Ho : evolves program_id Obligation (obligation_kept (may_change (UpdateReserveConfig config) accounts)
    (may_move (UpdateReserveConfig config) accounts)) w w')
    by (eapply (evolves_other program_id Obligation Reserve); [typeclasses eauto|done..]).
  split.
  - intros k m (m' & Hm' & ->)%Hm. exists m'. by split; [|left].
  - intros k r0 Hr0. destruct (decide (k = key ri)) as [->|Hne].
    + replace r0 with r by (eapply stored_inj; [apply Hr|apply Hr0]). exists r'. by split; [|split; [|right]].
    + exists r0. split; [by apply (only_changes_holds program_id Reserve w (key ri))|by split; [|left]].
  - intros k r0 Hr0. left. destruct (decide (k = key ri)) as [->|Hne]; [by exists r|].
    exists r0. by apply (only_changes_holds program_id Reserve w (key ri) w').
  - by apply kept_obligations_authorised.
  - intros k o' H'%Ho. by left.
Qed.

End authorised.

(** C8: every change is authorised.  Whatever instruction succeeds, with whatever
    accounts: an existing market changes only in its owner, and only if the owner
    that it recorded is among the accounts as a signer; an existing reserve stays
    in its market, and its configuration, oracles, mints and token accounts
    change only, and a new reserve appears only, if the owner recorded in the
    very market of that reserve is a signer.  An obligation stays with its owner
    and market, and appears only with the signature of its owner; its record
    changes only if its own recorded owner is a signer, refreshes, repayments and
    liquidations apart, and the collateral it has on deposit only if that owner
    is a signer, liquidations apart, which anyone may give. *)
Theorem privileged_instructions_signed `{S : Sdk} (program_id : Pubkey) `{L : !SdkLaws program_id}
    (i : LendingInstruction) (accounts : list AccountInfo) (w w' : World) (u : unit)
    (Hw : World_ok program_id w) (Hi : LendingInstruction_ok i) (Ha : Forall info_ok accounts)
    (H : run_instruction program_id i accounts w = Ok (u, w')) :
  Authorised program_id i accounts w w'.
Proof.
  pose proof (signer_may i accounts) as Hs.
  destruct i; cbn [run_instruction LendingInstruction_ok] in *.
  - destruct Hi. by eapply init_market_authorised.
  - by eapply set_owner_authorised.
  - destruct Hi. by eapply init_reserve_authorised.
  - apply step_authorised; [done|]. by eapply step_refresh_reserve_handler.
  - apply step_authorised; [done|]. by eapply step_deposit.
  - apply step_authorised; [done|]. by eapply step_redeem.
  - by eapply init_obligation_authorised.
  - apply step_authorised; [done|]. exact (step_refresh_obligation program_id _ _ _ _ _ _ (λ _, or_intror I) H).
  - apply step_authorised; [done|]. by eapply step_pledge.
  - apply step_authorised; [done|]. by eapply step_withdraw.
  - apply step_authorised; [done|]. by eapply step_borrow.
  - apply step_authorised; [done|]. exact (step_repay program_id _ _ _ _ _ _ _ Hi (λ _, or_intror I) H).
  - apply step_authorised; [done|]. exact (step_liquidate program_id _ _ _ _ _ _ _ Hi (λ _, conj (or_intror I) (or_intror I)) H).
  - apply step_authorised; [done|]. by eapply step_flash_loan.
  - apply step_authorised; [done|]. by eapply step_deposit_and_pledge.
  - apply step_authorised; [done|]. by eapply step_withdraw_and_redeem.
  - by eapply update_config_authorised.
  - apply step_authorised; [done|]. exact (step_liquidate_and_redeem program_id _ _ _ _ _ _ _ Hi (λ _, conj (or_intror I) (or_intror I)) H).
  - apply step_authorised; [done|]. by eapply step_redeem_fees.
Qed.

#[local] Existing Instance test_sdk.

Lemma privileged_instructions_signed_witness :
  Authorised solend_program_id (BorrowObligationLiquidity 100) borrow_accounts ledger
    (world_after (process_borrow_obligation_liquidity solend_program_id 100 borrow_accounts ledger)).
Proof.
  apply (privileged_instructions_signed solend_program_id (BorrowObligationLiquidity 100) borrow_accounts ledger
    (world_after (process_borrow_obligation_liquidity solend_program_id 100 borrow_accounts ledger)) tt).
  - apply ledger_ok.
  - change (is_u64 100); decide_ok.
  - by repeat constructor.
  - vm_compute. reflexivity.
Defined.
