(* ===== verification/CombinedSafety.v ===== *)
(** * Handlers that combine others

    Depositing liquidity and pledging the collateral, withdrawing collateral and
    redeeming it, and liquidating and redeeming what was seized, each in one
    instruction: what their parts did, one after the other. *)

From S2P Require Import Prelude Errors FixedPoint StateBase LendingMarket Reserve.
From S2P Require Import ReserveFacts LoanFacts Obligation ObligationFacts Liquidation Codec CodecFacts.
From S2P Require Import Solana Oracle ProcessorBase ProcessorFacts ProcessorInvariant ProcessorReserve.
From S2P Require Import ProcessorObligation RefreshFacts HandlerFacts ProcessorLoan ProcessorSafety.
From S2P Require Import LoanSafety RepaySafety SupplySafety CollateralSafety Authority WriteSets.
From S2P Require Import Testbed TestbedFacts.

(** The reserve that is redeemed from after a liquidation: the reserve of the
    collateral, untouched, or with the repayment when it is the repaid one too *)
Definition redeemed_from (ri wri : Pubkey) (r wr : Reserve) (repaid settle : Z) (wr1 : Reserve) : Prop :=
  if decide (wri = ri) then
    rl_available_amount (r_liquidity wr1) = rl_available_amount (r_liquidity r) + repaid ∧
    dec (rl_borrowed_amount_wads (r_liquidity wr1))
      = Z.max 0 (dec (rl_borrowed_amount_wads (r_liquidity r)) - settle)
  else wr1 = wr.

Section combined.
Context `{S : Sdk} (program_id : Pubkey) `{L : !SdkLaws program_id}.
Implicit Types (w : World) (k : Pubkey) (info : AccountInfo) (clock : Clock).

(** ** What a part leaves to the next *)

(** The records of an account are still there. *)
Definition carried w w' k : Prop :=
  (∀ r : Reserve, holds program_id Reserve w k r → holds program_id Reserve w' k r) ∧
  (∀ o : Obligation, holds program_id Obligation w k o → holds program_id Obligation w' k o).

Lemma carried_trans w1 w2 w3 k : carried w1 w2 k → carried w2 w3 k → carried w1 w3 k.
Proof. intros [? ?] [? ?]. split; auto. Qed.

Lemma touched_holds T `{Pack T} `{IsInitialized T} P w w' k (a : T) :
  (0 < LEN T)%nat → touched program_id P w w' → ¬ P k →
  holds program_id T w k a → holds program_id T w' k a.
Proof.
  intros Hlen Ht Hk [Ho (Hl & Hu & Hi)]. unfold owned, stored, account_of in *.
  destruct (accounts w !! k) as [b|] eqn:E; cbn in *; [|lia].
  destruct (Ht k b E Ho) as (b' & E' & Ho' & Hd). unfold holds, owned, stored, account_of.
  rewrite E'. cbn. by rewrite Hd.
Qed.

(** A step carries the records outside the accounts that it writes. *)
Lemma touched_carried P w w' k : touched program_id P w w' → ¬ P k → carried w w' k.
Proof.
  intros Ht Hp. split; intros a Ha; (eapply touched_holds; [by apply Nat.ltb_lt|exact Ht|exact Hp|exact Ha]).
Qed.

Lemma only_changes_carried w k w' k' : only_changes program_id w k w' → k' ≠ k → carried w w' k'.
Proof.
  intros Hc Hk. split; intros a Ha.
  - by apply (only_changes_holds program_id Reserve w k w' k' a Hc Hk).
  - by apply (only_changes_holds program_id Obligation w k w' k' a Hc Hk).
Qed.

Lemma moved_carried w w' cs k : moved program_id w w' cs → carried w w' k.
Proof. split; intros a; [by eapply moved_reserve|by eapply moved_obligation]. Qed.

(** What was booked stays booked while the records are carried. *)
Lemma withdrawal_booked_carried w w' wri oi o a :
  carried w w' oi → withdrawal_booked program_id w wri oi o a → withdrawal_booked program_id w' wri oi o a.
Proof. intros [_ Hc] [(o' & Ho' & Hrest)]. split. exists o'. split; [by apply Hc|done]. Qed.

Lemma repay_booked_carried w w' ri r repaid settle :
  carried w w' ri → repay_booked program_id w ri r repaid settle → repay_booked program_id w' ri r repaid settle.
Proof. intros [Hc _] [(r' & Hr' & Hrest)]. split. exists r'. split; [by apply Hc|done]. Qed.

Lemma redemption_booked_carried w w' ri r c n :
  carried w w' ri → redemption_booked program_id w ri r c n → redemption_booked program_id w' ri r c n.
Proof. intros [Hc _] [(r' & Hr' & Hrest)]. split. exists r'. split; [by apply Hc|done]. Qed.

(** Interest that was brought up to date in this slot is up to date. *)
Lemma accrued_same_slot r clock r' :
  slot (r_last_update r) = clock_slot clock → accrued r clock r' →
  r' = Reserve.update_slot r (clock_slot clock).
Proof.
  intros E (r1 & Hr1 & ->). unfold Reserve.accrue_interest in Hr1.
  apply bind_Ok in Hr1 as (n & [-> _]%slots_elapsed_Ok & Hr1). rewrite E, Z.sub_diag in Hr1.
  cbn in Hr1. by injection Hr1 as <-.
Qed.

Lemma accrued_fresh r clock r' : fresh (r_last_update r) clock → accrued r clock r' → r' = r.
Proof.
  intros Hf Ha. apply fresh_slot in Hf as [Hs Hst]. rewrite (accrued_same_slot r clock r' Hs Ha), <- Hs.
  by destruct r as [? [? ?] ? ? ? ?]; cbn in *; subst.
Qed.

(** A redemption in the terms of its reserve *)
Lemma redeem_inner_booked c src dst ri cmi rsi mi ai ui clock tp w n w' :
  World_ok program_id w → is_u64 c →
  _redeem_reserve_collateral program_id c src dst ri cmi rsi mi ai ui clock tp w = Ok (n, w') →
  ∃ m r,
    holds program_id Reserve w (key ri) r ∧ r_lending_market r = key mi ∧
    rl_supply_pubkey (r_liquidity r) = key rsi ∧ rc_mint_pubkey (r_collateral r) = key cmi ∧
    n = c * WAD / exchange_rate_wads r ∧ n ≤ rl_available_amount (r_liquidity r) ∧
    redemption_booked program_id w' (key ri) r c n ∧ World_ok program_id w' ∧
    paid w w' ([(burn (key tp) (key src) (key cmi) (key ui) [] c, [])] ++
               payments tp rsi ai (authority_seeds m mi) [(key dst, n)]).
Proof.
  intros Hw Hc H.
  destruct (redeem_inner_spec program_id _ _ _ _ _ _ _ _ _ _ _ _ _ _ Hw Hc H)
    as (m & r & r1 & Hr & Hm & Hsup & Hmint & Hd & Hh & Hw' & Hpaid).
  pose proof (holds_reserve_valid program_id _ _ _ Hw Hr) as [Hrok _].
  destruct (redemption_booked_intro program_id _ _ _ _ _ _ (LastUpdate.mark_stale (r_last_update r1)) Hrok Hd Hh eq_refl) as (Hn & Hav & Hb).
  exists m, r. by split_and!.
Qed.

(** The debt and the collateral that a liquidation left on the obligation *)
Definition obligation_booked_by w' (ri wri oi : Pubkey) (o : Obligation) (settle seized : Z) : Prop :=
  ∃ o', holds program_id Obligation w' oi o' ∧ stale (o_last_update o') = true ∧
    borrows_map o' = map_take ri settle (borrows_map o) ∧
    deposits_map o' = map_take wri seized (deposits_map o).

Lemma obligation_booked_by_carried w w' ri wri oi o settle seized :
  carried w w' oi → obligation_booked_by w ri wri oi o settle seized →
  obligation_booked_by w' ri wri oi o settle seized.
Proof. intros [_ Hc] (o' & Ho' & Hrest). exists o'. split; [by apply Hc|done]. Qed.

(** Between liquidation and redemption the reserve's interest is refreshed, which
    changes nothing: the liquidation demanded fresh reserves. *)
Lemma refreshed_after_liquidation w w1 w2 clock ri wri r wr repaid settle u :
  World_ok program_id w1 → is_u64 (clock_slot clock) →
  fresh (r_last_update r) clock → fresh (r_last_update wr) clock →
  holds program_id Reserve w (key wri) wr → (key wri ≠ key ri → carried w w1 (key wri)) →
  repay_booked program_id w1 (key ri) r repaid settle →
  _refresh_reserve_interest program_id wri clock w1 = Ok (u, w2) →
  World_ok program_id w2 ∧ inner w2 = inner w1 ∧
  (∀ k, k ≠ key wri → carried w1 w2 k) ∧
  ∃ wr1, holds program_id Reserve w2 (key wri) wr1 ∧ redeemed_from (key ri) (key wri) r wr repaid settle wr1.
Proof.
  intros Hw1 Hslot Hfr Hfwr Hwr Hcar [(r' & Hr' & _ & Hav & Hbor & _ & Hs)] H.
  destruct (refresh_interest_Ok program_id _ _ _ _ _ Hw1 Hslot H) as (r0 & wr1 & Hr0 & Hacc & Hh & Hch & Hw2).
  split; [done|]. split; [apply Hch|]. split; [intros; by eapply only_changes_carried|].
  exists wr1. split; [done|]. unfold redeemed_from. case_decide as E.
  - rewrite E in Hr0. assert (r0 = r') as -> by (eapply stored_inj; [apply Hr0|apply Hr']).
    rewrite (accrued_same_slot r' clock wr1); [done| |done].
    rewrite Hs. by apply fresh_slot in Hfr as [-> _].
  - destruct (Hcar E) as [Hc _]. specialize (Hc wr Hwr).
    assert (r0 = wr) as -> by (eapply stored_inj; [apply Hr0|apply Hc]).
    by apply (accrued_fresh wr clock).
Qed.

Lemma liquidate_then_redeem n src usr dst ri rsi wri cmi wsi wlsi oi mi ai ui clock tp w seized w1 u w2 paid_out w3 :
  World_ok program_id w → is_u64 n → is_u64 (clock_slot clock) →
  _liquidate_obligation program_id n src usr ri rsi wri wsi oi mi ai ui clock tp w = Ok (seized, w1) →
  _refresh_reserve_interest program_id wri clock w1 = Ok (u, w2) →
  _redeem_reserve_collateral program_id seized usr dst wri cmi wlsi mi ai ui clock tp w2 = Ok (paid_out, w3) →
  ∃ m m' r wr o l c settle repaid wr1,
    liquidatable program_id w clock (key ri) (key wri) (key oi) r wr o l c ∧
    terms_ok n wr l c settle repaid seized ∧
    redeemed_from (key ri) (key wri) r wr repaid settle wr1 ∧
    (key wri ≠ key ri → repay_booked program_id w3 (key ri) r repaid settle) ∧
    obligation_booked_by w3 (key ri) (key wri) (key oi) o settle seized ∧
    paid_out = seized * WAD / exchange_rate_wads wr1 ∧
    redemption_booked program_id w3 (key wri) wr1 seized paid_out ∧
    World_ok program_id w3 ∧ is_u64 paid_out ∧
    paid w w3 (payments tp src ui [] [(key rsi, repaid)] ++
               payments tp wsi ai (authority_seeds m mi) [(key usr, seized)] ++
               [(burn (key tp) (key usr) (key cmi) (key ui) [] seized, [])] ++
               payments tp wlsi ai (authority_seeds m' mi) [(key dst, paid_out)]).
Proof.
  intros Hw Hn Hslot H1 H2 H3.
  destruct (liquidate_inner_spec program_id _ _ _ _ _ _ _ _ _ _ _ _ _ _ _ _ Hw Hn H1)
    as (m & r & wr & o & l & c & settle & repaid & Hq & Ht & [Hb (o' & Ho' & Hrest)] & Hp1).
  destruct (keeps_liquidate_obligation_inner program_id _ _ _ _ _ _ _ _ _ _ _ _ _ Hn _ _ _ Hw H1) as [Hw1 Hs64].
  pose proof (touches_liquidate_inner program_id (λ k, k = key ri ∨ k = key oi) _ _ _ _ _ _ _ _ _ _ _ _ _
    (or_introl eq_refl) (or_intror eq_refl) _ _ _ H1) as Ht1.
  pose proof (touches_redeem_inner program_id (eq (key wri)) _ _ _ _ _ _ _ _ _ _ _ eq_refl _ _ _ H3) as Ht3.
  destruct Hq as [Hr Hwr Ho Hm (Hfr & Hfwr & Hfo) Hun Hl Hc].
  pose proof (holds_distinct program_id _ _ _ _ _ Hwr Ho) as Hne.
  destruct (refreshed_after_liquidation w w1 w2 clock ri wri r wr repaid settle u Hw1 Hslot Hfr Hfwr Hwr)
    as (Hw2 & Ei & Hcar & wr1 & Hwr1 & Hfrom); [|done|done|].
  { intros E. eapply touched_carried; [exact Ht1|]. naive_solver. }
  destruct (redeem_inner_booked _ _ _ _ _ _ _ _ _ _ _ _ _ _ Hw2 Hs64 H3)
    as (m' & r3 & Hr3 & _ & _ & _ & Hpo & _ & Hb3 & Hw3 & Hp3).
  destruct (keeps_redeem_reserve_collateral_inner program_id _ _ _ _ _ _ _ _ _ _ _ Hs64 _ _ _ Hw2 H3) as [_ Hp64].
  assert (r3 = wr1) as -> by (eapply stored_inj; [apply Hr3|apply Hwr1]).
  assert (Hcar3 : ∀ k, k ≠ key wri → carried w1 w3 k).
  { intros k Hk. eapply carried_trans; [by apply Hcar|]. eapply touched_carried; [exact Ht3|]. congruence. }
  exists m, m', r, wr, o, l, c, settle, repaid, wr1.
  split; [by split|]. split; [done|]. split; [done|].
  split; [intros E; by eapply repay_booked_carried, Hb; apply Hcar3|].
  split; [eapply obligation_booked_by_carried; [by apply Hcar3|by exists o']|].
  do 4 (split; [done|]).
  rewrite (assoc_L (++)). eapply paid_app; [exact Hp1|]. destruct Hp3 as (invs & E & HF). exists invs.
  by rewrite E, Ei.
Qed.

(** ** Depositing and pledging *)

(** What pledging [n] collateral tokens of the reserve changed *)
Record pledge_booked w' (ri oi : Pubkey) (o : Obligation) (n : Z) : Prop := {
  pb_obligation : ∃ o', holds program_id Obligation w' oi o' ∧ stale (o_last_update o') = true ∧
    deposits_map o' = map_add ri n (deposits_map o) ∧ borrows_map o' = borrows_map o;
}.

Lemma pledge_inner_spec n src dst ri oi mi wi ui clock tp w u w' :
  World_ok program_id w → is_u64 n → is_key (key ri) →
  _deposit_obligation_collateral program_id n src dst ri oi mi wi ui clock tp w = Ok (u, w') →
  ∃ r o,
    owner_access program_id w clock (key ri) (key oi) (key mi) wi r o ∧
    rc_supply_pubkey (r_collateral r) = key dst ∧ loan_to_value_ratio (r_config r) ≠ 0 ∧
    pledge_booked w' (key ri) (key oi) o n ∧ holds program_id Reserve w' (key ri) r ∧
    World_ok program_id w' ∧ paid w w' (payments tp src ui [] [(key dst, n)]).
Proof.
  intros Hw Hn Hk H.
  destruct (keeps_deposit_obligation_collateral_inner program_id n src dst ri oi mi wi ui clock tp Hn Hk w u w' Hw H)
    as [Hw' _].
  apply (deposit_inner_Ok program_id) in H as (r & o & o1 & w1 & Hacc & Hsup & _ & Hltv & Ho1 & Hp & Ht).
  pose proof (oa_obligation _ _ _ _ _ _ _ _ _ Hacc) as Ho.
  pose proof (holds_obligation_ok program_id _ _ _ Hw Ho) as Hov.
  destruct (deposit_collateral_map o o1 _ _ Hov Ho1) as [Ed Eb].
  assert (Hi : is_initialized (Obligation.mark_stale o1) = is_initialized o).
  { by apply deposit_collateral_Ok in Ho1 as [(j & c & _ & _ & _ & ->)|(_ & _ & _ & ->)]. }
  destruct (obligation_booked program_id o _ oi w w1 w' _ Hw Ho
    (obligation_mark_stale_ok _ (deposit_collateral_ok _ _ _ _ Hov Hk Hn Ho1)) Hi Hp
    (transfer_moved program_id _ _ _ _ _ _ _ _ _ Ht)) as (Ho' & Hpaid & Hres).
  exists r, o. split_and!; try done; [|by apply Hres, Hacc].
  split. exists (Obligation.mark_stale o1). by split_and!.
Qed.

Lemma pledge_booked_carried w w' ri oi o n :
  carried w w' oi → pledge_booked w ri oi o n → pledge_booked w' ri oi o n.
Proof. intros [_ Hc] [(o' & Ho' & Hrest)]. split. exists o'. split; [by apply Hc|done]. Qed.

Lemma deposit_then_pledge n src usr dst ri rsi cmi oi mi ai wi ui clock tp w u1 w1 c w2 u2 w3 u3 w4 u4 w' :
  World_ok program_id w → is_u64 n → is_u64 (clock_slot clock) → is_key (key ri) →
  _refresh_reserve_interest program_id ri clock w = Ok (u1, w1) →
  _deposit_reserve_liquidity program_id n src usr ri rsi cmi mi ai ui clock tp w1 = Ok (c, w2) →
  _refresh_reserve_interest program_id ri clock w2 = Ok (u2, w3) →
  _deposit_obligation_collateral program_id c usr dst ri oi mi wi ui clock tp w3 = Ok (u3, w4) →
  mark_reserve_stale ri w4 = Ok (u4, w') →
  ∃ m r0 r o,
    holds program_id Reserve w (key ri) r0 ∧ accrued r0 clock r ∧
    r_lending_market r = key mi ∧ rl_supply_pubkey (r_liquidity r) = key rsi ∧
    rc_mint_pubkey (r_collateral r) = key cmi ∧ loan_to_value_ratio (r_config r) ≠ 0 ∧
    holds program_id Obligation w (key oi) o ∧ o_lending_market o = key mi ∧
    o_owner o = key wi ∧ is_signer wi = true ∧
    (supply_wads (r_liquidity r) + WAD * n) / WAD ≤ deposit_limit (r_config r) ∧
    c = n * exchange_rate_wads r / WAD ∧
    deposit_booked program_id w' (key ri) r n c ∧ pledge_booked w' (key ri) (key oi) o c ∧
    paid w w' (payments tp src ui [] [(key rsi, n)] ++
               [(mint_to (key tp) (key cmi) (key usr) (key ai) [] c, authority_seeds m mi)] ++
               payments tp usr ui [] [(key dst, c)]).
Proof.
  intros Hw Hn Hslot Hk H1 H2 H3 H4 H5.
  destruct (refresh_interest_Ok program_id _ _ _ _ _ Hw Hslot H1) as (r0 & r & Hr0 & Hacc & Hr & Hch1 & Hw1).
  destruct (deposit_inner_spec program_id _ _ _ _ _ _ _ _ _ _ _ _ _ _ Hw1 Hn H2)
    as (m & r' & Hr' & Hm & Hsup & Hmint & Hlim & Hc & [(r2 & Hr2 & _ & Es & Ea & Ec & Ecfg & Esl)] & Hp2).
  assert (r' = r) as -> by (eapply stored_inj; [apply Hr'|apply Hr]).
  assert (Hsr : slot (r_last_update r) = clock_slot clock) by (by destruct Hacc as (? & _ & ->)).
  destruct (keeps_deposit_reserve_liquidity_inner program_id _ _ _ _ _ _ _ _ _ _ _ Hn _ _ _ Hw1 H2) as [Hw2 Hc64].
  destruct (refresh_interest_Ok program_id _ _ _ _ _ Hw2 Hslot H3) as (r2' & r3 & Hr2' & Hacc3 & Hr3 & Hch3 & Hw3).
  assert (r2' = r2) as -> by (eapply stored_inj; [apply Hr2'|apply Hr2]).
  assert (r3 = Reserve.update_slot r2 (clock_slot clock)) as ->.
  { apply accrued_same_slot; [|done]. by rewrite Esl. }
  destruct (pledge_inner_spec _ _ _ _ _ _ _ _ _ _ _ _ _ Hw3 Hc64 Hk H4)
    as (r4 & o & [Hr4 Ho [_ Hom] [How Hsig] _] & _ & Hltv & Hpl & Hh4 & Hw4 & Hp4).
  assert (r4 = Reserve.update_slot r2 (clock_slot clock)) as -> by (eapply stored_inj; [apply Hr4|apply Hr3]).
  destruct (mark_reserve_stale_Ok program_id _ _ _ _ _ Hw4 Hh4 H5) as [Hh5 Ei5].
  assert (Hk3 : Step program_id nobody nobody w w3).
  { transitivity w1; [exact (step_refresh_interest program_id _ _ _ _ _ _ _ Hslot H1)|].
    transitivity w2; [exact (step_deposit_inner program_id _ _ _ _ _ _ _ _ _ _ _ _ _ _ _ _ Hn H2)|].
    exact (step_refresh_interest program_id _ _ _ _ _ _ _ Hslot H3). }
  pose proof (touches_mark_stale program_id (eq (key ri)) ri eq_refl _ _ _ H5) as Ht5.
  pose proof (holds_distinct program_id _ _ _ _ _ Hr4 Ho) as Hne.
  exists m, r0, r, o. do 5 (split; [done|]).
  split; [cbn in Hltv; by rewrite <- Ecfg|]. split; [exact (step_nobody program_id _ _ _ _ Hw Hk3 Ho)|].
  do 5 (split; [done|]). split; [|split].
  - split. eexists. split; [exact Hh5|]. by rewrite Hsr.
  - eapply pledge_booked_carried, Hpl. by eapply touched_carried; [exact Ht5|].
  - destruct Hp2 as (invs & E2 & HF2). rewrite (assoc_L (++)). eapply paid_app.
    + exists invs. rewrite E2, (proj1 Hch1). split; [reflexivity|exact HF2].
    + destruct Hp4 as (invs4 & E4 & HF4). exists invs4. by rewrite Ei5, E4, (proj1 Hch3).
Qed.

End combined.

(** ** Properties *)

(** C14: depositing and pledging in one instruction mints collateral for the
    deposit, as a deposit does, and pledges exactly what was minted to an
    obligation whose owner signed.  The reserve and the obligation end stale, and
    the collateral passes through the user's account. *)
Theorem deposit_and_pledge_pledges_minted `{S : Sdk} (program_id : Pubkey) `{L : !SdkLaws program_id}
    (n : Z) (accounts : list AccountInfo) (w w' : World) (u : unit)
    (Hw : World_ok program_id w) (Hn : is_u64 n) (Ha : Forall info_ok accounts)
    (H : process_deposit_reserve_liquidity_and_obligation_collateral program_id n accounts w = Ok (u, w')) :
  ∃ src usr ri rsi cmi mi ai dst oi wi pi si ui ci tp rest clock m r0 r o minted,
    accounts = src :: usr :: ri :: rsi :: cmi :: mi :: ai :: dst :: oi :: wi :: pi :: si :: ui :: ci
                 :: tp :: rest ∧
    clock_at w ci clock ∧ holds program_id Reserve w (key ri) r0 ∧ accrued r0 clock r ∧
    r_lending_market r = key mi ∧ rl_supply_pubkey (r_liquidity r) = key rsi ∧
    rc_mint_pubkey (r_collateral r) = key cmi ∧ loan_to_value_ratio (r_config r) ≠ 0 ∧
    holds program_id Obligation w (key oi) o ∧ o_lending_market o = key mi ∧
    o_owner o = key wi ∧ is_signer wi = true ∧
    (supply_wads (r_liquidity r) + WAD * n) / WAD ≤ deposit_limit (r_config r) ∧
    minted = n * exchange_rate_wads r / WAD ∧
    deposit_booked program_id w' (key ri) r n minted ∧
    pledge_booked program_id w' (key ri) (key oi) o minted ∧
    paid w w' (payments tp src ui [] [(key rsi, n)] ++
               [(mint_to (key tp) (key cmi) (key usr) (key ai) [] minted, authority_seeds m mi)] ++
               payments tp usr ui [] [(key dst, minted)]).
Proof.
  unfold process_deposit_reserve_liquidity_and_obligation_collateral in H. inv_handler.
  repeat match goal with H : Forall _ (_ :: _) |- _ => apply Forall_cons in H as [? H] end.
  match goal with
  | Hc : clock_at w _ _, H1 : _refresh_reserve_interest _ ?ri _ w = Ok (_, ?w1),
    H2 : _deposit_reserve_liquidity _ _ _ _ _ _ _ _ _ _ _ _ ?w1 = Ok (?c, ?w2),
    H3 : _refresh_reserve_interest _ _ _ ?w2 = Ok (_, ?w3),
    H4 : _deposit_obligation_collateral _ _ _ _ _ _ _ _ _ _ _ ?w3 = Ok (_, ?w4),
    H5 : mark_reserve_stale _ ?w4 = Ok _, Hk : info_ok ?ri |- _ =>
      pose proof (clock_at_u64 program_id _ _ _ Hc) as Hslot;
      destruct (deposit_then_pledge program_id _ _ _ _ _ _ _ _ _ _ _ _ _ _ _ _ _ _ _ _ _ _ _ _ _
                  Hw Hn Hslot Hk H1 H2 H3 H4 H5) as (m & r0 & r & o & Hend);
      do 16 eexists; eexists; exists m, r0, r, o, c
  end.
  split; [reflexivity|]. split; [eassumption|exact Hend].
Qed.

(** C15: withdrawing and redeeming in one instruction pays out, in liquidity, what
    the withdrawn collateral is worth at the rate of the reserve that the
    withdrawal was checked against.  The obligation loses exactly that collateral
    and its debt stays covered, as in a withdrawal; the reserve burns it and pays
    the rest, as in a redemption; the collateral passes through the user's account.
    A request of zero is let through, and takes nothing from an obligation without
    debt. *)
Theorem withdraw_and_redeem_pays_collateral `{S : Sdk} (program_id : Pubkey) `{L : !SdkLaws program_id}
    (n : Z) (accounts : list AccountInfo) (w w' : World) (u : unit)
    (Hw : World_ok program_id w) (Hn : is_u64 n)
    (H : process_withdraw_obligation_collateral_and_redeem_reserve_liquidity program_id n accounts w
           = Ok (u, w')) :
  ∃ src usr ri oi mi ai dst cmi rsi wi ui ci tp rest clock m m' r o c a paid_out,
    accounts = src :: usr :: ri :: oi :: mi :: ai :: dst :: cmi :: rsi :: wi :: ui :: ci :: tp :: rest ∧
    clock_at w ci clock ∧
    owner_access program_id w clock (key ri) (key oi) (key mi) wi r o ∧
    fresh (o_last_update o) clock ∧ c ∈ o_deposits o ∧ deposit_reserve c = key ri ∧
    0 ≤ a ≤ deposited_amount c ∧ (a = 0 → n = 0 ∧ o_borrows o = []) ∧
    (n ≠ u64_MAX → a ≤ n) ∧ still_allowed o r c a ∧
    paid_out = a * WAD / exchange_rate_wads r ∧ paid_out ≤ rl_available_amount (r_liquidity r) ∧
    withdrawal_booked program_id w' (key ri) (key oi) o a ∧
    redemption_booked program_id w' (key ri) r a paid_out ∧
    paid w w' (payments tp src ai (authority_seeds m mi) [(key usr, a)] ++
               [(burn (key tp) (key usr) (key cmi) (key ui) [] a, [])] ++
               payments tp rsi ai (authority_seeds m' mi) [(key dst, paid_out)]).
Proof.
  unfold process_withdraw_obligation_collateral_and_redeem_reserve_liquidity in H. inv_handler.
  match goal with
  | H1 : _withdraw_obligation_collateral _ _ _ _ ?ri ?oi _ _ _ _ _ _ = Ok _,
    H2 : _redeem_reserve_collateral _ _ _ _ _ _ _ _ _ _ _ _ _ = Ok _ |- _ =>
      destruct (withdraw_inner_spec program_id _ _ _ _ _ _ _ _ _ _ _ _ _ Hw Hn H1)
        as (m & r & o & c & Hacc & Hfo & Hc & Hck & Ha & Hzero & Han & Hst & Hb1 & Hp1);
      destruct (keeps_withdraw_obligation_collateral_inner program_id _ _ _ _ _ _ _ _ _ _ Hn _ _ _ Hw H1)
        as [Hw1 Ha64];
      destruct (redeem_inner_booked program_id _ _ _ _ _ _ _ _ _ _ _ _ _ _ Hw1 Ha64 H2)
        as (m' & r' & Hr' & Hm' & _ & _ & Hpo & Hav & Hb2 & _ & Hp2);
      pose proof (touches_withdraw_collateral_inner program_id (eq (key oi)) _ _ _ _ _ _ _ _ _ _ eq_refl _ _ _ H1) as Ht1;
      pose proof (touches_redeem_inner program_id (eq (key ri)) _ _ _ _ _ _ _ _ _ _ _ eq_refl _ _ _ H2) as Ht2
  end.
  pose proof (oa_reserve _ _ _ _ _ _ _ _ _ Hacc) as Hr. pose proof (oa_obligation _ _ _ _ _ _ _ _ _ Hacc) as Ho.
  pose proof (holds_distinct program_id _ _ _ _ _ Hr Ho) as Hne.
  destruct (touched_carried program_id _ _ _ _ Ht1 (not_eq_sym Hne)) as [Hr1 _]. specialize (Hr1 r Hr).
  assert (r' = r) as -> by (eapply stored_inj; [apply Hr'|apply Hr1]).
  pose proof (withdrawal_booked_carried program_id _ _ _ _ _ _ (touched_carried program_id _ _ _ _ Ht2 Hne) Hb1)
    as Hb1'.
  pose proof (paid_app _ _ _ _ _ Hp1 Hp2) as Hp.
  match type of Hpo with ?q = ?a * _ / _ =>
    do 14 eexists; exists x, m, m', r, o, c, a, q end.
  split_and!; try reflexivity; eassumption || lia.
Qed.

(** C13: liquidating and redeeming in one instruction is a liquidation followed by a
    redemption of exactly what was seized, at the reserve's rate of this slot,
    less a protocol fee of one token unit.  The obligation and the repaid reserve
    keep what the liquidation booked. *)
Theorem liquidate_and_redeem_pays_seized `{S : Sdk} (program_id : Pubkey) `{L : !SdkLaws program_id}
    (n : Z) (accounts : list AccountInfo) (w w' : World) (u : unit)
    (Hw : World_ok program_id w) (Hn : is_u64 n)
    (H : process_liquidate_obligation_and_redeem_reserve_collateral program_id n accounts w = Ok (u, w')) :
  ∃ src usr dst ri rsi wri cmi wsi wlsi fri oi mi ai ui tp rest clock m m' r wr o l c settle repaid seized
    wr1 paid_out,
    accounts = src :: usr :: dst :: ri :: rsi :: wri :: cmi :: wsi :: wlsi :: fri :: oi :: mi :: ai :: ui
                 :: tp :: rest ∧
    clock_get = Ok clock ∧
    liquidatable program_id w clock (key ri) (key wri) (key oi) r wr o l c ∧
    terms_ok n wr l c settle repaid seized ∧
    redeemed_from (key ri) (key wri) r wr repaid settle wr1 ∧
    (key wri ≠ key ri → repay_booked program_id w' (key ri) r repaid settle) ∧
    obligation_booked_by program_id w' (key ri) (key wri) (key oi) o settle seized ∧
    paid_out = seized * WAD / exchange_rate_wads wr1 ∧
    redemption_booked program_id w' (key wri) wr1 seized paid_out ∧
    fee_receiver (r_config wr1) = key fri ∧
    paid w w' (payments tp src ui [] [(key rsi, repaid)] ++
               payments tp wsi ai (authority_seeds m mi) [(key usr, seized)] ++
               [(burn (key tp) (key usr) (key cmi) (key ui) [] seized, [])] ++
               payments tp wlsi ai (authority_seeds m' mi) [(key dst, paid_out)] ++
               payments tp dst ui [] [(key fri, 1)]).
Proof.
  unfold process_liquidate_obligation_and_redeem_reserve_collateral in H. inv_handler.
  match goal with
  | Hck : clock_get = Ok _, H1 : _liquidate_obligation _ _ _ _ _ _ _ _ _ _ _ _ _ _ _ = Ok _,
    H2 : _refresh_reserve_interest _ _ _ _ = Ok _,
    H3 : _redeem_reserve_collateral _ _ _ _ _ _ _ _ _ _ _ _ _ = Ok _ |- _ =>
      destruct (liquidate_then_redeem program_id _ _ _ _ _ _ _ _ _ _ _ _ _ _ _ _ _ _ _ _ _ _ _ Hw Hn
                  (clock_get_u64 _ Hck) H1 H2 H3)
        as (m & m' & r & wr & o & l & c & settle & repaid & wr1 & Hq & Ht & Hfrom & Hrep & Hob & Hpo & Hb & Hw3
            & Hp64 & Hp)
  end.
  match goal with Hu : unpack Reserve _ _ = Ok _ |- _ => apply (unpack_Ok program_id) in Hu as [-> Hs] end.
  destruct Hb as [(r' & Hr' & Hrest)].
  match type of Hs with stored _ _ _ ?x => assert (x = r') as -> by (eapply stored_inj; [exact Hs|apply Hr']) end.
  destruct (holds_reserve_valid program_id _ _ _ Hw3 Hr') as [Hrok _].
  match goal with Hf : Reserve.calculate_protocol_liquidation_fee _ _ = Ok _ |- _ =>
    rewrite (calculate_protocol_liquidation_fee_one _ _ (ok_r_config _ Hrok) Hp64) in Hf; injection Hf as <- end.
  apply (transfer_moved program_id) in H as Hm.
  pose proof (paid_app _ _ _ _ _ Hp (proj2 Hm)) as Hpaid. rewrite <- !(assoc_L (++)) in Hpaid.
  match type of Hpo with ?q = ?seized * _ / _ =>
    do 16 eexists; eexists; exists m, m', r, wr, o, l, c, settle, repaid, seized, wr1, q end.
  split; [reflexivity|]. split; [eassumption|]. split; [exact Hq|]. split; [exact Ht|]. split; [exact Hfrom|].
  split; [intros E; by eapply repay_booked_carried, Hrep; [eapply moved_carried, Hm|]|].
  split; [by eapply obligation_booked_by_carried, Hob; eapply moved_carried, Hm|].
  split; [exact Hpo|]. split; [|split; [|exact Hpaid]].
  - eapply redemption_booked_carried; [eapply moved_carried, Hm|]. split. by exists r'.
  - destruct Hrest as (_ & _ & _ & _ & <-). assumption.
Qed.

#[local] Existing Instance test_sdk.

Definition deposit_and_pledge_accounts : list AccountInfo :=
  [account 60; account 61; account 31; account 12; account 15; account 9; account test_authority;
   account 16; account 50; signer 21; account 13; account 14; signer 70; account test_clock_id;
   account test_token_id].

Definition withdraw_and_redeem_accounts : list AccountInfo :=
  [account 16; account 61; account 31; account 50; account 9; account test_authority; account 62;
   account 15; account 12; signer 21; signer 70; account test_clock_id; account test_token_id].

Definition liquidate_and_redeem_accounts : list AccountInfo :=
  [account 60; account 61; account 62; account 33; account 12; account 31; account 15; account 16;
   account 12; account 77; account 50; account 9; account test_authority; signer 70;
   account test_token_id].

Lemma deposit_and_pledge_pledges_minted_witness :
  ∃ r o minted, let w' := world_after (process_deposit_reserve_liquidity_and_obligation_collateral
      solend_program_id 280 deposit_and_pledge_accounts ledger) in
    deposit_booked solend_program_id w' 31 r 280 minted ∧ pledge_booked solend_program_id w' 31 50 o minted.
Proof.
  destruct (deposit_and_pledge_pledges_minted solend_program_id 280 deposit_and_pledge_accounts ledger
    (world_after (process_deposit_reserve_liquidity_and_obligation_collateral
      solend_program_id 280 deposit_and_pledge_accounts ledger)) tt)
    as (src & usr & ri & rsi & cmi & mi & ai & dst & oi & wi & pi & si & ui & ci & tp & rest & clock & m & r0 & r & o
        & minted & Ea & _ & _ & _ & _ & _ & _ & _ & _ & _ & _ & _ & _ & _ & Hd & Hp & _).
  - apply ledger_ok.
  - decide_ok.
  - repeat (apply Forall_cons_2; [split; vm_compute; congruence|]). apply Forall_nil_2.
  - vm_compute. reflexivity.
  - exists r, o, minted. injection Ea as <- <- <- <- <- <- <- <- <- <- <- <- <- <- <- <-.
    split; [exact Hd|exact Hp].
Defined.

Lemma withdraw_and_redeem_pays_collateral_witness :
  ∃ r o a paid_out, let w' := world_after (process_withdraw_obligation_collateral_and_redeem_reserve_liquidity
      solend_program_id 20 withdraw_and_redeem_accounts ledger) in
    withdrawal_booked solend_program_id w' 31 50 o a ∧ redemption_booked solend_program_id w' 31 r a paid_out ∧
    0 < a ≤ 20.
Proof.
  destruct (withdraw_and_redeem_pays_collateral solend_program_id 20 withdraw_and_redeem_accounts ledger
    (world_after (process_withdraw_obligation_collateral_and_redeem_reserve_liquidity
      solend_program_id 20 withdraw_and_redeem_accounts ledger)) tt)
    as (src & usr & ri & oi & mi & ai & dst & cmi & rsi & wi & ui & ci & tp & rest & clock & m & m' & r & o & c & a
        & paid_out & Ea & _ & _ & _ & _ & _ & Hpos & Hzero & Hmax & _ & _ & _ & Hb & Hr & _).
  - apply ledger_ok.
  - decide_ok.
  - vm_compute. reflexivity.
  - exists r, o, a, paid_out. injection Ea as <- <- <- <- <- <- <- <- <- <- <- <- <- <-.
    split; [exact Hb|]. split; [exact Hr|]. split; [|by apply Hmax].
    destruct (Z.eq_dec a 0) as [E|E]; [destruct (Hzero E); discriminate|lia].
Defined.

Lemma liquidate_and_redeem_pays_seized_witness :
  ∃ wr1 o settle seized paid_out, let w' := world_after (process_liquidate_obligation_and_redeem_reserve_collateral
      solend_program_id 20 liquidate_and_redeem_accounts sick_ledger) in
    obligation_booked_by solend_program_id w' 33 31 50 o settle seized ∧
    redemption_booked solend_program_id w' 31 wr1 seized paid_out.
Proof.
  destruct (liquidate_and_redeem_pays_seized solend_program_id 20 liquidate_and_redeem_accounts sick_ledger
    (world_after (process_liquidate_obligation_and_redeem_reserve_collateral
      solend_program_id 20 liquidate_and_redeem_accounts sick_ledger)) tt)
    as (src & usr & dst & ri & rsi & wri & cmi & wsi & wlsi & fri & oi & mi & ai & ui & tp & rest & clock & m & m'
        & r & wr & o & l & c & settle & repaid & seized & wr1 & paid_out & Ea & _ & _ & _ & _ & _ & Ho & _ & Hb & _).
  - apply sick_ledger_ok.
  - decide_ok.
  - vm_compute. reflexivity.
  - exists wr1, o, settle, seized, paid_out.
    injection Ea as <- <- <- <- <- <- <- <- <- <- <- <- <- <- <- <-. split; [exact Ho|exact Hb].
Defined.
