(* ===== verification/SolvencyInit.v ===== *)
(** * Cover and new reserves

    [process_init_reserve] opens token accounts that were not initialised
    before, so no other reserve counts on them, and books as available exactly
    the deposit that it transfers into the new account. *)

From S2P Require Import Prelude Errors FixedPoint StateBase LendingMarket Reserve.
From S2P Require Import ReserveFacts LoanFacts Obligation ObligationFacts Codec CodecFacts.
From S2P Require Import Solana Oracle OracleFacts Tokens ProcessorBase ProcessorFacts ProcessorInvariant.
From S2P Require Import ProcessorReserve ProcessorObligation RefreshFacts HandlerFacts Pledges ProcessorLoan.
From S2P Require Import ProcessorSafety LoanSafety Solvency SolvencySteps InitSafety.

Section init.
Context `{S : Sdk} `{TS : TokenSdk} (program_id : Pubkey) `{L : !SdkLaws program_id}.
Context `{TL : !TokenLaws program_id}.
Implicit Types (w : World) (k rk : Pubkey) (info : AccountInfo) (δ : Slack) (clock : Clock).
Local Abbreviation holds := (holds program_id).
Local Abbreviation Books := (Books program_id).
Local Abbreviation vault := (vault program_id).
Local Abbreviation vaults_kept := (vaults_kept program_id).
Local Abbreviation undeclared := (undeclared program_id).

(** ** Adding a reserve to the ledger *)

(** Other records are as before. *)
Definition others_same w w' k : Prop :=
  ∀ k', k' ≠ k → (∀ r : Reserve, holds Reserve w' k' r ↔ holds Reserve w k' r) ∧
                 (∀ o : Obligation, holds Obligation w' k' o ↔ holds Obligation w k' o).

Lemma pledged_new_reserve δ w w' k r :
  Solvent program_id δ w → others_same w w' k → (∀ r, ¬ holds Reserve w k r) →
  (∀ o, ¬ holds Obligation w k o) → holds Reserve w' k r →
  pledged program_id w' k = 0 ∧ ∀ rk, pledged program_id w' rk = pledged program_id w rk.
Proof.
  intros Hs Hsame Hnr Hno Hr. assert (Heq : ∀ rk k', pledge_at program_id w' rk k' = pledge_at program_id w rk k').
  { intros rk k'. unfold pledge_at. rewrite (record_at_iff program_id Obligation w w' k'); [done|].
    intros o. destruct (decide (k' = k)) as [->|Hne]; [|by apply Hsame].
    split; intros Ho; exfalso; [|by apply (Hno o)].
    by destruct (holds_distinct program_id _ _ _ _ _ Hr Ho). }
  split; [|intros rk; by apply (pledged_same program_id)].
  apply sum_over_zero. intros k' _. rewrite Heq. unfold pledge_at.
  destruct (record_at program_id Obligation w k') as [o|] eqn:E; [|done].
  apply record_at_Some in E. unfold pledge.
  destruct (deposits_map o !! k) as [n|] eqn:Ed; [exfalso|done].
  assert (Hin : k ∈ dom (deposits_map o)) by (apply elem_of_dom; by eexists).
  apply deposits_dom in Hin as (c & Hc & Hck).
  destruct (sv_known _ _ _ Hs k' o c E Hc) as [r0 Hr0]. rewrite Hck in Hr0. by apply (Hnr r0).
Qed.

Lemma solvent_new_reserve δ w w' k r n m :
  Solvent program_id δ w → others_same w w' k → (∀ r, ¬ holds Reserve w k r) →
  (∀ o, ¬ holds Obligation w k o) → holds Reserve w' k r → vaults_kept (accounts w) (accounts w') →
  (∀ x j, x ∈ vaults_of r → ¬ vault (accounts w) x j) →
  rl_supply_pubkey (r_liquidity r) ≠ rc_supply_pubkey (r_collateral r) →
  vault (accounts w') (rl_supply_pubkey (r_liquidity r)) n →
  rl_available_amount (r_liquidity r) ≤ n + δ (rl_supply_pubkey (r_liquidity r)) →
  vault (accounts w') (rc_supply_pubkey (r_collateral r)) m →
  0 ≤ m + δ (rc_supply_pubkey (r_collateral r)) →
  Solvent program_id δ w'.
Proof.
  intros Hs Hsame Hnr Hno Hr Hkept Hfresh Hne Hvn Hn Hvm Hm.
  destruct (pledged_new_reserve δ w w' k r Hs Hsame Hnr Hno Hr) as [Hp0 Hp].
  destruct Hs as [Hs Hc Ha Hd Hk].
  assert (Hback : ∀ k' r1, holds Reserve w' k' r1 → (k' = k ∧ r1 = r) ∨ (k' ≠ k ∧ holds Reserve w k' r1)).
  { intros k' r1 H1. destruct (decide (k' = k)) as [->|Hne']; [left|right].
    - split; [done|]. by eapply stored_inj; [apply H1|apply Hr].
    - split; [done|]. by apply Hsame. }
  assert (Hold : ∀ k' r1 x, holds Reserve w k' r1 → x ∈ vaults_of r1 → ∃ j, vault (accounts w) x j).
  { intros k' r1 x H1 [->|[->|[]%elem_of_nil]%elem_of_cons]%elem_of_cons.
    - destruct (Hs k' r1 H1) as (j & ? & _). by exists j.
    - destruct (Hc k' r1 H1) as (j & ? & _). by exists j. }
  split.
  - intros k' r1 [[-> ->]|[_ H1]]%Hback; [by exists n|].
    destruct (Hs k' r1 H1) as (j & Hv & ?). destruct (Hkept _ _ Hv) as (j' & ? & ?). exists j'. split; [done|lia].
  - intros k' r1 H1. destruct (Hback k' r1 H1) as [[-> ->]|[_ H2]]; [exists m; split; [done|lia]|].
    rewrite Hp. destruct (Hc k' r1 H2) as (j & Hv & ?). destruct (Hkept _ _ Hv) as (j' & ? & ?).
    exists j'. split; [done|lia].
  - intros k' r1 [[-> ->]|[_ H1]]%Hback; [done|by apply (Ha k')].
  - intros k1 r1 k2 r2 x [[-> ->]|[Hn1 H1]]%Hback [[-> ->]|[Hn2 H2]]%Hback Hx1 Hx2; [done| | |by apply (Hd k1 r1 k2 r2 x)].
    + destruct (Hold k2 r2 x H2 Hx2) as [j Hj]. by destruct (Hfresh x j Hx1).
    + destruct (Hold k1 r1 x H1 Hx1) as [j Hj]. by destruct (Hfresh x j Hx2).
  - intros k' o c Ho Hin. destruct (decide (k' = k)) as [->|Hne'].
    + by destruct (holds_distinct program_id _ _ _ _ _ Hr Ho).
    + apply Hsame in Ho; [|done]. destruct (Hk k' o c Ho Hin) as [r1 H1]. exists r1.
      apply Hsame; [|done]. intros E. rewrite E in H1. by apply (Hnr r1).
Qed.

(** ** The run *)

(** The record that an initialisation writes *)
Record new_reserve w w1 (ri lsi csi : AccountInfo) (n c : Z) (r : Reserve) : Prop := {
  nr_owned : owned program_id w (key ri);
  nr_vacant : ∃ r0 : Reserve, length (data (account_of w (key ri))) = LEN Reserve ∧
    unpack_from_slice (data (account_of w (key ri))) = Ok r0 ∧ is_initialized r0 = false;
  nr_ok : Reserve_ok r ∧ is_initialized r = true;
  nr_available : rl_available_amount (r_liquidity r) = n;
  nr_minted : 0 ≤ c;
  nr_vaults : vaults_of r = [key lsi; key csi];
  nr_packed : pack r ri w = Ok (tt, w1);
}.

Lemma init_deposit_vaults self params n r c :
  Reserve.deposit_liquidity (Reserve.init self params) n = Ok (r, c) →
  vaults_of r = [rl_supply_pubkey (ir_liquidity params); rc_supply_pubkey (ir_collateral params)].
Proof. intros (_ & _ & _ & _ & El & Ec & _)%deposit_liquidity_Ok. unfold vaults_of. by rewrite El, Ec. Qed.

(** The steps of a successful initialisation, from the record to the first mint *)
Lemma init_reserve_run n config accounts w u w' :
  World_ok program_id w → is_u64 n → ReserveConfig_ok config → Forall info_ok accounts →
  process_init_reserve program_id n config accounts w = Ok (u, w') →
  ∃ src dst ri lmi lsi lfi cmi csi ai ui rti tp m mi r c d w1 w2 w3 w4 w5 w6 w7,
    Forall (λ i, i ∈ accounts) [src; dst; lmi; lsi; lfi; cmi; csi; ai; ui; rti; tp] ∧
    new_reserve w w1 ri lsi csi n c r ∧ key lsi ≠ key src ∧
    create_program_address (authority_seeds m mi) program_id = Ok (key ai) ∧
    spl_token_init_account lsi lmi ai rti tp w1 = Ok (tt, w2) ∧
    spl_token_init_account lfi lmi ai rti tp w2 = Ok (tt, w3) ∧
    spl_token_init_mint cmi rti (key ai) d tp w3 = Ok (tt, w4) ∧
    spl_token_init_account csi cmi ai rti tp w4 = Ok (tt, w5) ∧
    spl_token_init_account dst cmi ui rti tp w5 = Ok (tt, w6) ∧
    spl_token_transfer src lsi n ui [] tp w6 = Ok (tt, w7) ∧
    spl_token_mint_to cmi dst c ai (authority_seeds m mi) tp w7 = Ok (u, w').
Proof.
  intros Hw Hn Hcf Ha H. unfold process_init_reserve in H. repeat inv_handler_step. bool_to_prop.
  pose proof Ha as Hin. repeat match goal with H : Forall info_ok (_ :: _) |- _ => apply Forall_cons in H as [? H] end.
  match goal with H : validate_pyth_keys _ _ _ _ = Ok _ |- _ =>
    apply validate_pyth_keys_reads in H as [-> _] end.
  match goal with H : validate_switchboard_keys _ _ _ = Ok _ |- _ =>
    apply validate_switchboard_keys_reads in H as [-> _] end.
  match goal with H : get_price _ _ _ _ = Ok _ |- _ =>
    apply get_price_reads in H as [-> ?]; [|apply Hw] end.
  match goal with H : unpack_mint _ _ = Ok (?d, _) |- _ =>
    pose proof (keeps_unpack_mint program_id _ _ _ _ Hw H) as [_ Hdec];
    unfold unpack_mint in H; inv_m end.
  match goal with Hc : clock_at _ _ _ |- _ =>
    pose proof (clock_from_account_info_u64 _ _ _ Hc) as Hslot end.
  match goal with Hd : Reserve.deposit_liquidity (Reserve.init ?self ?p) _ = Ok (?r, ?c) |- _ =>
    destruct (init_deposit_Ok self p n r c Hd eq_refl eq_refl) as (_ & Hav & _ & _ & _ & Hinit);
    pose proof (init_deposit_vaults self p n r c Hd) as Hvs;
    apply deposit_liquidity_ok in Hd as (Hr & [Hc0 _] & _); [|by apply reserve_init_valid|done]
  end.
  match goal with
  | Hp : pack ?r ?ri w = Ok (_, ?w1), H1 : spl_token_init_account ?lsi ?lmi ?ai ?rti ?tp ?w1 = Ok _,
    H2 : spl_token_init_account ?lfi _ _ _ _ ?w2 = Ok (_, ?w3), H3 : spl_token_init_mint ?cmi _ _ ?d _ ?w3 = Ok (_, ?w4),
    H4 : spl_token_init_account ?csi _ _ _ _ ?w4 = Ok (_, ?w5), H5 : spl_token_init_account ?dst _ ?ui _ _ ?w5 = Ok (_, ?w6),
    H6 : spl_token_transfer ?src _ _ _ _ _ ?w6 = Ok (_, ?w7),
    H7 : spl_token_mint_to _ _ ?c _ (authority_seeds ?m ?mi) _ ?w7 = Ok _ |- _ =>
      exists src, dst, ri, lmi, lsi, lfi, cmi, csi, ai, ui, rti, tp, m, mi, r, c, d, w1, w2, w3, w4, w5, w6, w7
  end.
  split; [repeat (apply Forall_cons_2; [solve_in|]); apply Forall_nil_2|].
  split; [|split_and!; congruence || eassumption].
  split; try done. by eexists.
Qed.

(** ** The token accounts of a new reserve *)

Lemma vaults_kept_init a mint own rent tp w u w' :
  spl_token_init_account a mint own rent tp w = Ok (u, w') → vaults_kept (accounts w) (accounts w').
Proof.
  intros Hr%(init_account_ran program_id) k n Hv. exists n. split; [done|].
  rewrite <- (Z.add_0_r n). exact (ran_vault program_id _ _ _ _ _ _ _ Hr Hv).
Qed.

Lemma init_account_fresh a mint own rent tp w u w' :
  derived program_id (key own) → spl_token_init_account a mint own rent tp w = Ok (u, w') →
  token_at (accounts w) (key a) = None ∧ ∃ n, 0 ≤ n ∧ vault (accounts w') (key a) n.
Proof.
  intros Hd Hr%(init_account_ran program_id). pose proof (ran_effect program_id _ _ _ _ _ Hr) as He.
  split; [apply He|]. by eapply initialize_account_vault.
Qed.

Lemma kept_not_none w w' k n :
  vaults_kept (accounts w) (accounts w') → token_at (accounts w') k = None → ¬ vault (accounts w) k n.
Proof. intros Hk Ht (n' & _ & Hv)%Hk. by eapply vault_token_at. Qed.

(** What the token calls of an initialisation leave: two new vaults, one of them
    with the first deposit, and all others as full as before *)
Lemma new_reserve_vaults src dst lmi lsi lfi cmi csi ai ui rti tp seeds n c d w1 w2 w3 w4 w5 w6 w7 w' u :
  derived program_id (key ai) → key lsi ≠ key src → 0 ≤ n → 0 ≤ c → Forall undeclared [src; lsi; ui; tp] →
  spl_token_init_account lsi lmi ai rti tp w1 = Ok (tt, w2) →
  spl_token_init_account lfi lmi ai rti tp w2 = Ok (tt, w3) →
  spl_token_init_mint cmi rti (key ai) d tp w3 = Ok (tt, w4) →
  spl_token_init_account csi cmi ai rti tp w4 = Ok (tt, w5) →
  spl_token_init_account dst cmi ui rti tp w5 = Ok (tt, w6) →
  spl_token_transfer src lsi n ui [] tp w6 = Ok (tt, w7) →
  spl_token_mint_to cmi dst c ai seeds tp w7 = Ok (u, w') →
  vaults_kept (accounts w1) (accounts w') ∧
  (∀ x j, x ∈ [key lsi; key csi] → ¬ vault (accounts w1) x j) ∧ key lsi ≠ key csi ∧
  (∃ j, n ≤ j ∧ vault (accounts w') (key lsi) j) ∧ (∃ j, 0 ≤ j ∧ vault (accounts w') (key csi) j).
Proof.
  intros Hd Hne Hn Hc Ha H1 H2 H3 H4 H5 H6 H7.
  assert (K3 : vaults_kept (accounts w3) (accounts w4)).
  { apply (init_mint_ran program_id) in H3. intros k m Hv. exists m. split; [done|].
    rewrite <- (Z.add_0_r m). exact (ran_vault program_id _ _ _ _ _ _ _ H3 Hv). }
  apply (transfer_ran program_id) in H6. apply (mint_to_ran program_id) in H7.
  assert (K6 : vaults_kept (accounts w6) (accounts w7)) by (by eapply (ran_unsigned program_id)).
  assert (K7 : vaults_kept (accounts w7) (accounts w')).
  { intros k m Hv. eexists. split; [|exact (ran_vault program_id _ _ _ _ _ _ _ H7 Hv)]. cbn [gain].
    case_decide; lia. }
  destruct (init_account_fresh _ _ _ _ _ _ _ _ Hd H1) as (T1 & n1 & Hn1 & V1).
  destruct (init_account_fresh _ _ _ _ _ _ _ _ Hd H4) as (T4 & n4 & Hn4 & V4).
  apply vaults_kept_init in H1, H2, H4, H5.
  pose proof (vaults_kept_trans _ _ _ _ H2 K3) as K24.
  pose proof (vaults_kept_trans _ _ _ _ H1 K24) as K14.
  pose proof (vaults_kept_trans _ _ _ _ H4 H5) as K46.
  pose proof (vaults_kept_trans _ _ _ _ K6 K7) as K68.
  split; [by do 2 (eapply vaults_kept_trans; [eassumption|])|].
  split; [intros x j [->|[->|[]%elem_of_nil]%elem_of_cons]%elem_of_cons|].
  { intros Hv. by eapply (vault_token_at program_id). }
  { by apply (kept_not_none w1 w4). }
  split; [intros E; rewrite <- E in T4; by apply (kept_not_none w2 w4 _ n1 K24 T4)|]. split.
  - destruct (vaults_kept_trans _ _ _ _ K24 K46 _ _ V1) as (n6 & Hn6 & V6).
    apply (ran_vault program_id _ _ _ _ _ _ _ H6) in V6. cbn [gain] in V6.
    rewrite (decide_False (P := key src = key lsi)), decide_True, (decide_False (P := key lsi = key src)) in V6 by congruence.
    destruct (K7 _ _ V6) as (n8 & Hn8 & V8). exists n8. split; [lia|done].
  - destruct (vaults_kept_trans _ _ _ _ H5 K68 _ _ V4) as (n8 & Hn8 & V8). exists n8. split; [lia|done].
Qed.

(** The token calls change no record. *)
Lemma new_reserve_frame src dst lmi lsi lfi cmi csi ai ui rti tp seeds n c d w1 w2 w3 w4 w5 w6 w7 w' u :
  spl_token_init_account lsi lmi ai rti tp w1 = Ok (tt, w2) →
  spl_token_init_account lfi lmi ai rti tp w2 = Ok (tt, w3) →
  spl_token_init_mint cmi rti (key ai) d tp w3 = Ok (tt, w4) →
  spl_token_init_account csi cmi ai rti tp w4 = Ok (tt, w5) →
  spl_token_init_account dst cmi ui rti tp w5 = Ok (tt, w6) →
  spl_token_transfer src lsi n ui [] tp w6 = Ok (tt, w7) →
  spl_token_mint_to cmi dst c ai seeds tp w7 = Ok (u, w') →
  cpi_frame program_id w1 w'.
Proof.
  intros [F1 _]%(init_account_ran program_id) [F2 _]%(init_account_ran program_id)
    [F3 _]%(init_mint_ran program_id) [F4 _]%(init_account_ran program_id) [F5 _]%(init_account_ran program_id)
    [F6 _]%(transfer_ran program_id) [F7 _]%(mint_to_ran program_id).
  do 6 (eapply (cpi_frame_trans program_id); [eassumption|]). exact F7.
Qed.

Lemma books_init_reserve n config accounts w u w' :
  Books no_slack w → is_u64 n → ReserveConfig_ok config → Forall info_ok accounts →
  Forall undeclared accounts → process_init_reserve program_id n config accounts w = Ok (u, w') →
  Books no_slack w'.
Proof.
  intros Hb Hn Hcf Ha Hun H. pose proof (bk_world _ _ _ Hb) as Hw.
  split; [by apply (keeps_init_reserve program_id n config accounts Hn Hcf Ha w u w')|].
  apply init_reserve_run in H as (src & dst & ri & lmi & lsi & lfi & cmi & csi & ai & ui & rti & tp & m & mi & r & c & d
    & w1 & w2 & w3 & w4 & w5 & w6 & w7 & Hin & [Ho (r0 & _ & Hu0 & Hi0) [Hr Hinit] Hav Hc Hvs Hp] & Hne & Hpda
    & H1 & H2 & H3 & H4 & H5 & H6 & H7); [|done..].
  destruct (pack_reserve_holds program_id r ri w tt w1 Hr Hinit Hw Ho Hp) as [Hh Hch].
  pose proof (pack_reserve_tokens program_id r ri w tt w1 Hr Hw Hp) as Ht.
  apply (pack_Ok program_id) in Hp as (Hlen & _).
  pose proof (new_reserve_frame _ _ _ _ _ _ _ _ _ _ _ _ _ _ _ _ _ _ _ _ _ _ _ _ H1 H2 H3 H4 H5 H6 H7) as Hf.
  pose proof (cpi_same_records program_id _ _ Hf) as Hsame.
  assert (Hun' : Forall undeclared [src; lsi; ui; tp]).
  { rewrite !Forall_cons in Hin. rewrite (Forall_forall _ accounts) in Hun. rewrite !Forall_cons. naive_solver. }
  destruct (new_reserve_vaults _ _ _ _ _ _ _ _ _ _ _ _ _ _ _ _ _ _ _ _ _ _ _ _ (ex_intro _ _ Hpda) Hne (proj1 Hn)
    Hc Hun' H1 H2 H3 H4 H5 H6 H7) as (Hkept & Hfresh & Hapart & (j & Hj & Vj) & (i & Hi & Vi)).
  injection Hvs as Es Ec.
  apply (solvent_new_reserve no_slack w w' (key ri) r j i).
  - apply Hb.
  - intros k Hk. destruct (Hsame k) as [S1 S2].
    split; intros x; [rewrite S1|rewrite S2]; by apply (only_changes_holds program_id _ w (key ri) w1).
  - intros r1 [_ (_ & Hu & Hi1)]. rewrite Hu0 in Hu. apply Ok_inj in Hu. congruence.
  - intros o [_ (Hl & _)]. rewrite Hlen in Hl. discriminate Hl.
  - by apply Hsame.
  - intros k m0 Hv. apply (Hkept k m0). eapply vault_eq, Hv. apply Ht.
  - intros x m0 Hx Hv. unfold vaults_of in Hx. rewrite Es, Ec in Hx. apply (Hfresh x m0 Hx).
    eapply vault_eq, Hv. apply Ht.
  - by rewrite Es, Ec.
  - by rewrite Es.
  - unfold no_slack. lia.
  - by rewrite Ec.
  - unfold no_slack. lia.
Qed.

End init.
