(* ===== verification/SolvencyReach.v ===== *)
(** * The reserves stay covered

    Every instruction keeps the cover, so it holds in every state that the
    program can reach, whatever other programs do in between without the
    program's signature. *)

From S2P Require Import Prelude Errors FixedPoint StateBase LendingMarket Reserve.
From S2P Require Import ReserveFacts LoanFacts Obligation ObligationFacts Codec CodecFacts Instruction.
From S2P Require Import Solana Oracle Tokens ProcessorBase ProcessorFacts ProcessorInvariant ProcessorReserve.
From S2P Require Import ProcessorObligation RefreshFacts HandlerFacts Pledges ProcessorLoan Processor.
From S2P Require Import ProcessorSafety LoanSafety Solvency SolvencySteps RepaySafety SupplySafety.
From S2P Require Import SolvencyReserve CollateralSafety FlashSafety SolvencyLoan ProcessorReach.
From S2P Require Import SolvencyMarket SolvencyInit Testbed TestbedFacts VaultTestbed.

Section reach.
Context `{S : Sdk} `{TS : TokenSdk} (program_id : Pubkey) `{L : !SdkLaws program_id}.
Context `{TL : !TokenLaws program_id}.
Implicit Types (w : World) (k rk : Pubkey) (info : AccountInfo) (δ : Slack) (clock : Clock).
Local Abbreviation holds := (holds program_id).
Local Abbreviation Books := (Books program_id).
Local Abbreviation vault := (vault program_id).
Local Abbreviation undeclared := (undeclared program_id).

(** ** The remaining handlers *)

Ltac no_signers :=
  match goal with H : Forall (Tokens.undeclared _) (_ :: _) |- Forall (Tokens.undeclared _) _ =>
    rewrite !Forall_cons in H; rewrite ?Forall_cons; naive_solver end.

Ltac slot_ok := solve [by eapply (clock_at_u64 program_id) | by apply (clock_get_u64 (program_id := program_id))].

(** Carries [Books] through the next step of a run. *)
Ltac books_step :=
  match goal with
  | Hb : Books ?δ ?w, H : _refresh_reserve_interest _ _ _ ?w = Ok (_, ?w1) |- _ =>
      assert (Books δ w1) by (eapply (books_refresh_interest program_id); [exact Hb| |exact H]; slot_ok); clear H
  | Hb : Books ?δ ?w, H : _refresh_reserve _ _ _ _ _ ?w = Ok (_, ?w1) |- _ =>
      assert (Books δ w1) by (eapply (books_refresh_reserve program_id); [exact Hb| |exact H]; slot_ok); clear H
  | Hb : Books ?δ ?w, H : mark_reserve_stale _ ?w = Ok (_, ?w1) |- _ =>
      assert (Books δ w1) by (eapply (books_mark_stale program_id); [exact Hb|exact H]); clear H
  | Hb : Books ?δ ?w, Hn : is_u64 ?n, H : _deposit_reserve_liquidity _ ?n _ _ _ _ _ _ _ _ _ _ ?w = Ok (_, ?w1) |- _ =>
      assert (Books δ w1) by (eapply (books_deposit_inner program_id); [exact Hb|exact Hn| |exact H]; no_signers);
      destruct (keeps_deposit_reserve_liquidity_inner program_id _ _ _ _ _ _ _ _ _ _ _ Hn _ _ _ (bk_world _ _ _ Hb) H)
        as [_ ?]; clear H
  | Hb : Books ?δ ?w, Hn : is_u64 ?n, H : _redeem_reserve_collateral _ ?n _ _ _ _ _ _ _ _ _ _ ?w = Ok (_, ?w1) |- _ =>
      assert (Books δ w1) by (eapply (books_redeem_inner program_id); [exact Hb|exact Hn| |exact H]; no_signers);
      clear H
  | Hb : Books ?δ ?w, Hn : is_u64 ?n, Hk : info_ok ?ri,
    H : _deposit_obligation_collateral _ ?n _ _ ?ri _ _ _ _ _ _ ?w = Ok (_, ?w1) |- _ =>
      assert (Books δ w1) by (eapply (books_pledge_inner program_id); [exact Hb|exact Hn|exact Hk| |exact H]; no_signers);
      clear H
  | Hb : Books ?δ ?w, Hn : is_u64 ?n, H : _withdraw_obligation_collateral _ ?n _ _ _ _ _ _ _ _ _ ?w = Ok (_, ?w1) |- _ =>
      assert (Books δ w1) by (eapply (books_withdraw_inner program_id); [exact Hb|exact Hn|exact H]);
      destruct (keeps_withdraw_obligation_collateral_inner program_id _ _ _ _ _ _ _ _ _ _ Hn _ _ _ (bk_world _ _ _ Hb) H)
        as [_ ?]; clear H
  | Hb : Books ?δ ?w, Hn : is_u64 ?n, H : _liquidate_obligation _ ?n _ _ _ _ _ _ _ _ _ _ _ _ ?w = Ok (_, ?w1) |- _ =>
      assert (Books δ w1) by (eapply (books_liquidate_inner program_id); [exact Hb|exact Hn| |exact H]; no_signers);
      destruct (keeps_liquidate_obligation_inner program_id _ _ _ _ _ _ _ _ _ _ _ _ _ Hn _ _ _ (bk_world _ _ _ Hb) H)
        as [_ ?]; clear H
  | Hb : Books ?δ ?w, H : spl_token_transfer _ _ _ _ [] _ ?w = Ok (_, ?w1) |- _ =>
      assert (Books δ w1) by (eapply (books_transfer_user program_id); [exact Hb|exact H|]; no_signers); clear H
  | H : unpack Reserve _ _ = Ok _ |- _ => apply (unpack_Ok program_id) in H as [-> _]
  end.

(** What each account of the instruction is *)
Ltac open_infos :=
  repeat match goal with
         | H : Forall info_ok (?a :: _) |- _ => apply Forall_cons in H as [? H]
         end.

Ltac books_by f := unfold f; repeat intro; inv_handler; open_infos; repeat books_step; assumption.

Lemma books_refresh_reserve_handler δ accounts w u w' :
  Books δ w → process_refresh_reserve program_id accounts w = Ok (u, w') → Books δ w'.
Proof. books_by @process_refresh_reserve. Qed.

(** The handler of an instruction with an amount keeps every reserve covered. *)
Definition upholds (handler : Z → list AccountInfo → M unit) : Prop :=
  ∀ δ n accounts w u w', Books δ w → is_u64 n → Forall info_ok accounts → Forall undeclared accounts →
    handler n accounts w = Ok (u, w') → Books δ w'.

Lemma books_deposit_handler : upholds (process_deposit_reserve_liquidity program_id).
Proof. books_by @process_deposit_reserve_liquidity. Qed.

Lemma books_redeem_handler : upholds (process_redeem_reserve_collateral program_id).
Proof. books_by @process_redeem_reserve_collateral. Qed.

Lemma books_pledge_handler : upholds (process_deposit_obligation_collateral program_id).
Proof. books_by @process_deposit_obligation_collateral. Qed.

Lemma books_deposit_and_pledge_handler : upholds (process_deposit_reserve_liquidity_and_obligation_collateral program_id).
Proof. books_by @process_deposit_reserve_liquidity_and_obligation_collateral. Qed.

Lemma books_withdraw_handler : upholds (process_withdraw_obligation_collateral program_id).
Proof. books_by @process_withdraw_obligation_collateral. Qed.

Lemma books_withdraw_and_redeem_handler : upholds (process_withdraw_obligation_collateral_and_redeem_reserve_liquidity program_id).
Proof. books_by @process_withdraw_obligation_collateral_and_redeem_reserve_liquidity. Qed.

Lemma books_liquidate_handler : upholds (process_liquidate_obligation program_id).
Proof. books_by @process_liquidate_obligation. Qed.

Lemma books_liquidate_and_redeem_handler : upholds (process_liquidate_obligation_and_redeem_reserve_collateral program_id).
Proof. books_by @process_liquidate_obligation_and_redeem_reserve_collateral. Qed.

(** ** Every instruction, every reachable state *)

Ltac upheld_by lem := match goal with H : _ = Ok _ |- _ => eapply lem in H; [exact H|eassumption..] end.

Lemma books_run_instruction i accounts w u w' :
  Books no_slack w → LendingInstruction_ok i → Forall info_ok accounts → Forall undeclared accounts →
  run_instruction program_id i accounts w = Ok (u, w') → Books no_slack w'.
Proof.
  intros Hb Hi Hk Ha H. destruct i; cbn [run_instruction LendingInstruction_ok] in *.
  - destruct Hi. upheld_by (books_init_market program_id).
  - upheld_by (books_set_owner program_id).
  - destruct Hi. upheld_by (books_init_reserve program_id).
  - upheld_by books_refresh_reserve_handler.
  - upheld_by books_deposit_handler.
  - upheld_by books_redeem_handler.
  - upheld_by (books_init_obligation program_id).
  - upheld_by (books_refresh_obligation program_id).
  - upheld_by books_pledge_handler.
  - upheld_by books_withdraw_handler.
  - upheld_by (books_borrow program_id).
  - upheld_by (books_repay program_id).
  - upheld_by books_liquidate_handler.
  - upheld_by (books_flash_loan program_id).
  - upheld_by books_deposit_and_pledge_handler.
  - upheld_by books_withdraw_and_redeem_handler.
  - upheld_by (books_update_config program_id).
  - upheld_by books_liquidate_and_redeem_handler.
  - upheld_by (books_redeem_fees program_id).
Qed.

(** A step of the chain: an instruction of the program, whose transaction cannot
    have been signed for a derived address, or anything else that respects the
    ownership of accounts and was not signed by the program *)
Inductive guarded_step : World → World → Prop :=
| guarded_instruction accounts input w u w' :
    Forall info_ok accounts → Forall undeclared accounts → Forall is_byte input →
    process_instruction program_id accounts input w = Ok (u, w') → guarded_step w w'
| guarded_environment w w' :
    cpi_frame program_id w w' → vaults_kept program_id (accounts w) (accounts w') → guarded_step w w'.

Definition guarded_reachable w : Prop := ∃ w0, genesis program_id w0 ∧ rtc guarded_step w0 w.

Lemma genesis_books w : genesis program_id w → Books no_slack w.
Proof.
  intros Hg. split; [by apply genesis_World_ok|]. destruct Hg as [_ Hz].
  assert (Hnr : ∀ k r, ¬ holds Reserve w k r).
  { intros k r (Ho & _ & Hu & Hi). exact (eq_true_false_abs _ Hi (reserve_zeros _ _ (Hz k Ho) Hu)). }
  assert (Hno : ∀ k o, ¬ holds Obligation w k o).
  { intros k o (Ho & _ & Hu & Hi). exact (eq_true_false_abs _ Hi (obligation_zeros _ _ (Hz k Ho) Hu)). }
  split; try (intros ? ? Hr; exfalso; by apply (Hnr _ _ Hr)).
  - intros k r ? ? ? Hr. exfalso. by apply (Hnr _ _ Hr).
  - intros k o c Ho. exfalso. by apply (Hno _ _ Ho).
Qed.

Lemma step_books w w' : guarded_step w w' → Books no_slack w → Books no_slack w'.
Proof.
  intros [accounts input w1 u w2 Hk Ha Hi Hr|w1 w2 Hf Hv] Hb; [|by eapply (books_vaults_kept program_id)].
  unfold process_instruction in Hr. apply M_bind_Ok in Hr as (i & w3 & H1 & Hr). apply lift_Ok in H1 as [H1 ->].
  by apply (books_run_instruction i accounts w1 u w2 Hb (instruction_unpack_ok _ _ Hi H1) Hk Ha).
Qed.

Lemma reachable_books w : guarded_reachable w → Books no_slack w.
Proof.
  intros (w0 & Hg & Hs). apply genesis_books in Hg. induction Hs; [done|]. eauto using step_books.
Qed.

End reach.

(** ** Properties *)

(** C2: the deposits are there.  In every state that the program can reach, from
    a ledger in which it has stored nothing, by any instructions with any
    accounts and with anything in between that the program did not sign, every
    reserve owns a liquidity account that holds at least the liquidity that the
    reserve calls available, and a collateral account that holds at least the
    collateral tokens that all obligations together have on deposit with it; both
    accounts are of an address for which only the program can sign, and no two
    reserves share one. *)
Theorem reserves_stay_covered `{S : Sdk} `{TS : TokenSdk} (program_id : Pubkey) `{L : !SdkLaws program_id}
    `{TL : !TokenLaws program_id} (w : World) (k : Pubkey) (r : Reserve)
    (Hw : guarded_reachable program_id w) (Hr : holds program_id Reserve w k r) :
  (∃ n, vault program_id (accounts w) (rl_supply_pubkey (r_liquidity r)) n ∧
     rl_available_amount (r_liquidity r) ≤ n) ∧
  (∃ n, vault program_id (accounts w) (rc_supply_pubkey (r_collateral r)) n ∧
     pledged program_id w k ≤ n ∧
     ∀ k' o, holds program_id Obligation w k' o → pledge o k ≤ n) ∧
  NoDup (vaults_of r) ∧
  ∀ k' r', holds program_id Reserve w k' r' → k' ≠ k → vaults_of r ## vaults_of r'.
Proof.
  apply (reachable_books program_id) in Hw as [Hok Hs]. split_and!.
  - destruct (sv_supply _ _ _ Hs k r Hr) as (n & Hv & Hn). exists n. split; [done|].
    unfold no_slack in Hn. lia.
  - destruct (sv_collateral _ _ _ Hs k r Hr) as (n & Hv & Hn). exists n. unfold no_slack in Hn.
    split; [done|]. split; [lia|]. intros k' o Ho.
    pose proof (pledge_le_pledged program_id w k k' o Hok Ho). lia.
  - pose proof (sv_apart _ _ _ Hs k r Hr). unfold vaults_of. apply NoDup_cons_2; [set_solver|apply NoDup_singleton].
  - intros k' r' Hr' Hne s Hs1 Hs2. apply Hne. symmetry. by apply (sv_distinct _ _ _ Hs k r k' r' s).
Qed.

#[local] Existing Instance vault_sdk.

(** The user 21 creates the market and its reserve with a million tokens, and
    deposits and pledges half a million more. *)
Definition run (accounts : list AccountInfo) (i : LendingInstruction) (w : World) : World :=
  world_after (process_instruction solend_program_id accounts (LendingInstruction.pack i) w).

Definition create_market_accounts : list AccountInfo :=
  [account 9; account 45; account test_token_id; account 40; account 41].
Definition create_reserve_accounts : list AccountInfo :=
  [account 60; account 64; account 31; account 70; account 61; account 62; account 71; account 63;
   account NULL_PUBKEY; account NULL_PUBKEY; account 72; account 9; account vault_authority; signer 21;
   signer 21; account test_clock_id; account 45; account test_token_id].
Definition create_obligation_accounts : list AccountInfo :=
  [account 50; account 9; signer 21; account test_clock_id; account 45; account test_token_id].
Definition pledge_accounts : list AccountInfo :=
  [account 60; account 64; account 31; account 61; account 71; account 9; account vault_authority;
   account 63; account 50; signer 21; account NULL_PUBKEY; account 72; signer 21; account test_clock_id;
   account test_token_id].

Definition created_market : World := run create_market_accounts (InitLendingMarket 21 7) vault_genesis.
Definition created_reserve : World :=
  run create_reserve_accounts (InitReserve 1000000 sample_config) created_market.
Definition created_obligation : World := run create_obligation_accounts InitObligation created_reserve.
Definition pledged_ledger : World :=
  run pledge_accounts (DepositReserveLiquidityAndObligationCollateral 500000) created_obligation.

Lemma vault_genesis_genesis : genesis solend_program_id vault_genesis.
Proof.
  assert (Ha : map_Forall (λ _ a, Forall is_byte (data a) ∧
    (owner a = solend_program_id → Forall (eq 0) (data a))) (accounts vault_genesis)).
  { unfold vault_genesis. cbn [accounts list_to_map foldr fst snd].
    repeat apply map_Forall_insert_2; try apply map_Forall_empty.
    all: split; [|first [done|intros _; by apply Forall_replicate]].
    all: first [apply replicate_bytes|apply vault_pack_bytes|vm_compute; by repeat constructor]. }
  unfold genesis, owned, account_of. split; intros k; destruct (accounts _ !! k) eqn:E; cbn; try done.
  - by apply (Ha k).
  - intros Ho. by apply (Ha k).
Qed.

Lemma run_guarded accounts i w :
  Forall info_ok accounts → user_signed accounts = true → Forall is_byte (LendingInstruction.pack i) →
  is_Ok (process_instruction solend_program_id accounts (LendingInstruction.pack i) w) →
  guarded_step solend_program_id w (run accounts i w).
Proof.
  intros Hk Hs Hb [[[] w'] Hr]. unfold run. rewrite Hr.
  by eapply guarded_instruction; [|apply user_signed_undeclared| |].
Qed.

Lemma pledged_ledger_reachable : guarded_reachable solend_program_id pledged_ledger.
Proof.
  exists vault_genesis. split; [apply vault_genesis_genesis|].
  apply rtc_l with created_market; [|apply rtc_l with created_reserve;
    [|apply rtc_l with created_obligation; [|apply rtc_once]]].
  all: apply run_guarded; [|reflexivity| |vm_compute; by eexists].
  all: repeat (apply Forall_cons_2; [split; vm_compute; congruence|]); try apply Forall_nil_2.
  all: vm_compute; repeat (apply Forall_cons_2; [split; congruence|]); apply Forall_nil_2.
Qed.

Lemma reserves_stay_covered_witness :
  ∃ n m, vault solend_program_id (accounts pledged_ledger) 61 n ∧ 1500000 ≤ n ∧
    vault solend_program_id (accounts pledged_ledger) 63 m ∧ 500000 ≤ m.
Proof.
  destruct (unpack_from_slice (A := Reserve) (data (account_of pledged_ledger 31)))
    as [r| |] eqn:E; [|vm_compute in E; discriminate E..].
  assert (Hr : holds solend_program_id Reserve pledged_ledger 31 r).
  { split; [vm_compute; reflexivity|]. split; [vm_compute; reflexivity|]. split; [exact E|].
    vm_compute in E. by injection E as <-. }
  destruct (reserves_stay_covered solend_program_id pledged_ledger 31 r pledged_ledger_reachable Hr)
    as ((n & Hn & Hle) & (m & Hm & Hp & _) & _).
  exists n, m. vm_compute in E. injection E as <-.
  split; [exact Hn|]. split; [exact Hle|]. split; [exact Hm|].
  etransitivity; [|exact Hp]. vm_compute. congruence.
Defined.
