(* ===== verification/LendingCli.v ===== *)
(** * The command line of the lending program

    The commands of [token-lending/cli/src/main.rs]: creating a market, adding a
    reserve and updating the configuration of a reserve.  A command asks a node,
    and signs and sends transactions; the text that it prints is left out, and
    the parsing of arguments is that of the library clap, so the arms of [main]
    take parsed values. *)

From Stdlib Require Import Floats.SpecFloat.
From Stdlib Require Import Ascii String.
From stdpp Require Import strings.
From S2P Require Import Prelude Errors FixedPoint StateBase LendingMarket Reserve Codec Solana.
From S2P Require Import Builders Oracle.

Module cli.

(** ** Transactions, errors and the monad of a command *)

Record Transaction : Type := mkTransaction {
  tx_instructions : list Instruction;
  tx_payer : Pubkey;
  tx_signers : list Pubkey;
}.

(** [Box<dyn Error>]: an error of the client's requests, of the program's types,
    or the text of [check_fee_payer_balance] *)
Inductive Error : Type :=
| ClientError
| Program (e : ProgramError)
| InsufficientBalance (required available : Z).

(** A command has sent transactions by the time it fails, so a run is its result
    with the transactions that the node accepted, in order. *)
Definition Run (A : Type) : Type := result Error A * list Transaction.

#[export] Instance Run_ret : MRet Run := λ A a, (Ok a, []).
#[export] Instance Run_bind : MBind Run := λ A B f m,
  match m.1 with
  | Ok a => let r := f a in (r.1, m.2 ++ r.2)
  | Err e => (Err e, m.2)
  | Panic => (Panic, m.2)
  end.

Definition run {A} (m : result Error A) : Run A := (m, []).

(** [?] on a request, and on a [ProgramError] *)
Definition request {A} (answer : option A) : Run A := run (ok_or ClientError answer).
Definition try_program {A} (m : outcome A) : Run A := run (map_err Program m).

(** ** Code outside the repository *)

Class CliSdk : Type := {
  (* solana_sdk::system_instruction: from, to, lamports, space, owner *)
  create_account : Pubkey → Pubkey → Z → nat → Pubkey → Instruction;
  (* spl_token::instruction: program, source, delegate, owner, amount; and without
     delegate and amount *)
  approve : Pubkey → Pubkey → Pubkey → Pubkey → Z → outcome Instruction;
  revoke : Pubkey → Pubkey → Pubkey → outcome Instruction;
  (* spl_token: the sizes of its records, their fields, and amounts as written *)
  MINT_LEN : nat;
  TOKEN_LEN : nat;
  token_mint : list Z → outcome Pubkey;
  mint_unpack_decimals : list Z → outcome Z;
  ui_amount_to_amount : spec_float → Z → Z;
  (* Transaction::sign: whether the keys fit the signers of the instructions *)
  signs : list Pubkey → Pubkey → list Instruction → bool;
  (* Pubkey::from_str *)
  cli_pubkey_from_str : string → option Pubkey;
  (* whether the build checks the overflow of plain arithmetic *)
  cli_overflow_checks : bool;
}.

(** The node's answers, [None] for an error: the exemption from rent for a size, a
    blockhash with the fee that it asks for instructions and payer, the payer's
    balance, accounts, and whether a transaction is accepted (or its simulation
    answered, in a dry run) *)
Record Node : Type := mkNode {
  get_minimum_balance_for_rent_exemption : nat → option Z;
  get_recent_blockhash : option (list Instruction → Pubkey → Z);
  get_balance : Pubkey → option Z;
  get_account : Pubkey → option AccountState;
  accepts : Transaction → bool;
}.

Record Config : Type := mkConfig {
  rpc_client : Node;
  fee_payer : Pubkey;
  lending_program_id : Pubkey;
}.

Section commands.
Context `{Sdk} `{CliSdk}.
Implicit Types (config : Config).

(** ** Helpers *)

(** [+] on u64 *)
Definition plain_add (a b : Z) : Run Z :=
  if a + b <? 2 ^ 64 then mret (a + b)
  else if cli_overflow_checks then run Panic
  else mret ((a + b) mod 2 ^ 64).

Definition check_fee_payer_balance config (required_balance : Z) : Run unit :=
  balance ← request (get_balance (rpc_client config) (fee_payer config));
  if balance <? required_balance then run (Err (InsufficientBalance required_balance balance))
  else mret tt.

(** [transaction.sign] panics when the keys do not fit. *)
Definition sign (instructions : list Instruction) (payer : Pubkey) (signers : list Pubkey) :
    Run Transaction :=
  if signs signers payer instructions then mret (mkTransaction instructions payer signers)
  else run Panic.

Definition send_transaction config (transaction : Transaction) : Run unit :=
  if accepts (rpc_client config) transaction then (Ok tt, [transaction])
  else run (Err ClientError).

(** The bytes of a string *)
Definition bytes_of (s : string) : list Z := (λ c, Z.of_nat (nat_of_ascii c)) <$> String.list_ascii_of_string s.

(** [bytes32[0..len].clone_from_slice(bytes)] over zeros, as a number *)
Definition bytes32 (s : string) : Z := of_le_bytes (bytes_of s).

Definition quote_currency_of (value : option string) : result Error (option Z) :=
  match value with
  | None => mret None
  | Some value =>
      if bool_decide (value = "USD"%string) then mret (Some (of_le_bytes [85; 83; 68]))
      else if (length (bytes_of value) <=? 32)%nat then mret (Some (bytes32 value))
      else
        key ← unwrap (cli_pubkey_from_str value);
        mret (Some key)
  end.

(** ** Creating a market

    [lending_market] is the key that [Keypair::new] makes. *)
Definition command_create_lending_market config (lending_market lending_market_owner : Pubkey)
    (quote_currency : Z) (oracle_program_id switchboard_oracle_program_id : Pubkey) : Run unit :=
  let rpc := rpc_client config in
  lending_market_balance ← request (get_minimum_balance_for_rent_exemption rpc (LEN LendingMarket));
  let instructions :=
    [create_account (fee_payer config) lending_market lending_market_balance (LEN LendingMarket)
       (lending_program_id config);
     instruction.init_lending_market (lending_program_id config) lending_market_owner quote_currency
       lending_market oracle_program_id switchboard_oracle_program_id] in
  calculate_fee ← request (get_recent_blockhash rpc);
  required ← plain_add lending_market_balance (calculate_fee instructions (fee_payer config));
  _ ← check_fee_payer_balance config required;
  transaction ← sign instructions (fee_payer config) [fee_payer config; lending_market];
  _ ← send_transaction config transaction;
  account ← request (get_account rpc lending_market);
  market ← try_program (unpack_from_slice (data account) : outcome LendingMarket);
  _ ← try_program (create_program_address
                     [le_bytes 32 lending_market; le_bytes 1 (lm_bump_seed market)]
                     (lending_program_id config));
  mret tt.

(** ** Adding a reserve *)

(** The keys that the command and [main] make *)
Record NewKeys : Type := mkNewKeys {
  k_reserve : Pubkey;
  k_collateral_mint : Pubkey;
  k_collateral_supply : Pubkey;
  k_liquidity_supply : Pubkey;
  k_user_collateral : Pubkey;
  k_user_transfer_authority : Pubkey;
  k_liquidity_fee_receiver : Pubkey;
}.

Definition create_token_account config (account : Pubkey) (balance : Z) : Instruction :=
  create_account (fee_payer config) account balance TOKEN_LEN spl_token_id.

Definition command_add_reserve config (keys : NewKeys) (liquidity_amount : Z)
    (reserve_config : ReserveConfig)
    (source_liquidity source_liquidity_owner lending_market lending_market_owner pyth_product
     pyth_price switchboard_feed source_liquidity_mint : Pubkey) : Run unit :=
  let rpc := rpc_client config in
  let payer := fee_payer config in
  reserve_balance ← request (get_minimum_balance_for_rent_exemption rpc (LEN Reserve));
  collateral_mint_balance ← request (get_minimum_balance_for_rent_exemption rpc MINT_LEN);
  token_account_balance ← request (get_minimum_balance_for_rent_exemption rpc TOKEN_LEN);
  total_balance ← plain_add reserve_balance collateral_mint_balance;
  total_balance ← plain_add total_balance token_account_balance;
  total_balance ← plain_add total_balance token_account_balance;
  total_balance ← plain_add total_balance token_account_balance;
  total_balance ← plain_add total_balance token_account_balance;
  let instructions_1 :=
    [create_account payer (k_reserve keys) reserve_balance (LEN Reserve) (lending_program_id config);
     create_account payer (k_collateral_mint keys) collateral_mint_balance MINT_LEN spl_token_id;
     create_token_account config (k_collateral_supply keys) token_account_balance;
     create_token_account config (k_user_collateral keys) token_account_balance] in
  let instructions_2 :=
    [create_token_account config (k_liquidity_supply keys) token_account_balance;
     create_token_account config (k_liquidity_fee_receiver keys) token_account_balance] in
  approve_ix ← run (unwrap_result (approve spl_token_id source_liquidity (k_user_transfer_authority keys)
                                 source_liquidity_owner liquidity_amount));
  revoke_ix ← run (unwrap_result (revoke spl_token_id source_liquidity source_liquidity_owner));
  let instructions_3 :=
    [approve_ix;
     instruction.init_reserve (lending_program_id config) liquidity_amount reserve_config
       source_liquidity (k_user_collateral keys) (k_reserve keys) source_liquidity_mint
       (k_liquidity_supply keys) (k_collateral_mint keys) (k_collateral_supply keys) pyth_product
       pyth_price switchboard_feed lending_market lending_market_owner (k_user_transfer_authority keys);
     revoke_ix] in
  calculate_fee ← request (get_recent_blockhash rpc);
  required ← plain_add total_balance (calculate_fee instructions_1 payer);
  required ← plain_add required (calculate_fee instructions_2 payer);
  required ← plain_add required (calculate_fee instructions_3 payer);
  _ ← check_fee_payer_balance config required;
  transaction_1 ← sign instructions_1 payer
    [payer; k_reserve keys; k_collateral_mint keys; k_collateral_supply keys; k_user_collateral keys];
  transaction_2 ← sign instructions_2 payer
    [payer; k_liquidity_supply keys; k_liquidity_fee_receiver keys];
  transaction_3 ← sign instructions_3 payer
    [payer; source_liquidity_owner; lending_market_owner; k_user_transfer_authority keys];
  _ ← send_transaction config transaction_1;
  _ ← send_transaction config transaction_2;
  send_transaction config transaction_3.

(** ** Updating a reserve *)

Record PartialReserveFees : Type := mkPartialReserveFees {
  p_borrow_fee_wad : option Z;
  p_flash_loan_fee_wad : option Z;
  p_host_fee_percentage : option Z;
}.

Record PartialReserveConfig : Type := mkPartialReserveConfig {
  p_optimal_utilization_rate : option Z;
  p_loan_to_value_ratio : option Z;
  p_liquidation_bonus : option Z;
  p_liquidation_threshold : option Z;
  p_min_borrow_rate : option Z;
  p_optimal_borrow_rate : option Z;
  p_max_borrow_rate : option Z;
  p_fees : PartialReserveFees;
  p_deposit_limit : option Z;
  p_borrow_limit : option Z;
  p_fee_receiver : option Pubkey;
  p_protocol_liquidation_fee : option Z;
  p_protocol_take_rate : option Z;
}.

(** A limit is given in whole tokens. *)
Definition updated_limit (limit : option Z) (old decimals : Z) : Z :=
  match limit with
  | Some limit => ui_amount_to_amount (f64_of_Z limit) decimals
  | None => old
  end.

(** Each option that is given replaces its field. *)
Definition updated_config (config : ReserveConfig) (partial : PartialReserveConfig) (decimals : Z) :
    ReserveConfig := {|
  optimal_utilization_rate :=
    default (optimal_utilization_rate config) (p_optimal_utilization_rate partial);
  loan_to_value_ratio := default (loan_to_value_ratio config) (p_loan_to_value_ratio partial);
  liquidation_bonus := default (liquidation_bonus config) (p_liquidation_bonus partial);
  liquidation_threshold := default (liquidation_threshold config) (p_liquidation_threshold partial);
  min_borrow_rate := default (min_borrow_rate config) (p_min_borrow_rate partial);
  optimal_borrow_rate := default (optimal_borrow_rate config) (p_optimal_borrow_rate partial);
  max_borrow_rate := default (max_borrow_rate config) (p_max_borrow_rate partial);
  fees := {|
    borrow_fee_wad := default (borrow_fee_wad (fees config)) (p_borrow_fee_wad (p_fees partial));
    flash_loan_fee_wad :=
      default (flash_loan_fee_wad (fees config)) (p_flash_loan_fee_wad (p_fees partial));
    host_fee_percentage :=
      default (host_fee_percentage (fees config)) (p_host_fee_percentage (p_fees partial));
  |};
  deposit_limit := updated_limit (p_deposit_limit partial) (deposit_limit config) decimals;
  borrow_limit := updated_limit (p_borrow_limit partial) (borrow_limit config) decimals;
  fee_receiver := default (fee_receiver config) (p_fee_receiver partial);
  protocol_liquidation_fee :=
    default (protocol_liquidation_fee config) (p_protocol_liquidation_fee partial);
  protocol_take_rate := default (protocol_take_rate config) (p_protocol_take_rate partial);
|}.

(** The Pyth accounts of the instruction: the product is only known with a new
    price account, and unwrapped then. *)
Definition updated_pyth (pyth_product pyth_price : option Pubkey) (old_price : Pubkey) :
    Run (Pubkey * Pubkey) :=
  match pyth_price with
  | Some pyth_price =>
      pyth_product ← run (unwrap pyth_product);
      mret (pyth_product, pyth_price)
  | None => mret (NULL_PUBKEY, old_price)
  end.

Definition command_update_reserve config (reserve_config : PartialReserveConfig)
    (pyth_product pyth_price switchboard_feed : option Pubkey)
    (reserve_pubkey lending_market lending_market_owner : Pubkey) : Run unit :=
  let rpc := rpc_client config in
  reserve_info ← request (get_account rpc reserve_pubkey);
  reserve ← try_program (unpack_from_slice (data reserve_info) : outcome Reserve);
  '(new_pyth_product, new_pyth_price) ←
    updated_pyth pyth_product pyth_price (rl_pyth_oracle_pubkey (r_liquidity reserve));
  let new_switchboard :=
    default (rl_switchboard_oracle_pubkey (r_liquidity reserve)) switchboard_feed in
  let instructions :=
    [instruction.update_reserve_config (lending_program_id config)
       (updated_config (r_config reserve) reserve_config (rl_mint_decimals (r_liquidity reserve)))
       reserve_pubkey lending_market lending_market_owner new_pyth_product new_pyth_price
       new_switchboard] in
  calculate_fee ← request (get_recent_blockhash rpc);
  _ ← check_fee_payer_balance config (calculate_fee instructions (fee_payer config));
  transaction ← sign instructions (fee_payer config) [fee_payer config; lending_market_owner];
  send_transaction config transaction.

(** ** The arms of [main]

    Their parsed arguments; fees and amounts are floats. *)

(** [(fee * WAD as f64) as u64] *)
Definition fee_wad (fee : spec_float) : Z :=
  Z.min (f64_as_u128 (f64_mul fee (f64_of_Z Decimal.wad))) (2 ^ 64 - 1).

Definition main_create_market config (lending_market lending_market_owner : Pubkey)
    (quote_currency : option string) (oracle_program_id switchboard_oracle_program_id : Pubkey) :
    Run unit :=
  quote_currency ← run (quote_currency_of quote_currency);
  quote_currency ← run (unwrap quote_currency);
  command_create_lending_market config lending_market lending_market_owner quote_currency
    oracle_program_id switchboard_oracle_program_id.

(** The rates, percentages and fees of the new reserve: a configuration whose
    amounts, fees and fee receiver are not set yet *)
Definition main_add_reserve config (keys : NewKeys) (rates : ReserveConfig)
    (liquidity_amount deposit_limit_ui borrow_limit_ui borrow_fee flash_loan_fee : spec_float)
    (source_liquidity source_liquidity_owner lending_market lending_market_owner pyth_product
     pyth_price switchboard_feed : Pubkey) : Run unit :=
  let rpc := rpc_client config in
  source_liquidity_account ← run (unwrap (get_account rpc source_liquidity));
  source_liquidity_mint ← run (unwrap_result (token_mint (data source_liquidity_account)));
  mint_account ← run (unwrap (get_account rpc source_liquidity_mint));
  decimals ← run (unwrap_result (mint_unpack_decimals (data mint_account)));
  command_add_reserve config keys (ui_amount_to_amount liquidity_amount decimals)
    {|
      optimal_utilization_rate := optimal_utilization_rate rates;
      loan_to_value_ratio := loan_to_value_ratio rates;
      liquidation_bonus := liquidation_bonus rates;
      liquidation_threshold := liquidation_threshold rates;
      min_borrow_rate := min_borrow_rate rates;
      optimal_borrow_rate := optimal_borrow_rate rates;
      max_borrow_rate := max_borrow_rate rates;
      fees := {|
        borrow_fee_wad := fee_wad borrow_fee;
        flash_loan_fee_wad := fee_wad flash_loan_fee;
        host_fee_percentage := host_fee_percentage (fees rates);
      |};
      deposit_limit := ui_amount_to_amount deposit_limit_ui decimals;
      borrow_limit := ui_amount_to_amount borrow_limit_ui decimals;
      fee_receiver := k_liquidity_fee_receiver keys;
      protocol_liquidation_fee := protocol_liquidation_fee rates;
      protocol_take_rate := protocol_take_rate rates;
    |}
    source_liquidity source_liquidity_owner lending_market lending_market_owner pyth_product
    pyth_price switchboard_feed source_liquidity_mint.

(** The fees of [partial] are not set yet. *)
Definition main_update_reserve config (partial : PartialReserveConfig)
    (borrow_fee flash_loan_fee : option spec_float)
    (pyth_product pyth_price switchboard_feed : option Pubkey)
    (reserve lending_market lending_market_owner : Pubkey) : Run unit :=
  command_update_reserve config
    (mkPartialReserveConfig (p_optimal_utilization_rate partial) (p_loan_to_value_ratio partial)
       (p_liquidation_bonus partial) (p_liquidation_threshold partial) (p_min_borrow_rate partial)
       (p_optimal_borrow_rate partial) (p_max_borrow_rate partial)
       (mkPartialReserveFees (fee_wad <$> borrow_fee) (fee_wad <$> flash_loan_fee)
          (p_host_fee_percentage (p_fees partial)))
       (p_deposit_limit partial) (p_borrow_limit partial) (p_fee_receiver partial)
       (p_protocol_liquidation_fee partial) (p_protocol_take_rate partial))
    pyth_product pyth_price switchboard_feed reserve lending_market lending_market_owner.

End commands.
End cli.
