(* ===== verification/CliFacts.v ===== *)
(** * What the command line does

    Theorems about LendingCli: what a command sends and when, that its signatures
    fit, and what its instructions do once the program processes them. *)

From Stdlib Require Import Floats.SpecFloat Ascii String.
From S2P Require Import Prelude Errors FixedPoint StateBase LendingMarket Reserve.
From S2P Require Import ReserveFacts Codec CodecFacts Instruction Solana Builders Oracle.
From S2P Require Import ProcessorBase ProcessorFacts ProcessorInvariant ProcessorReserve.
From S2P Require Import HandlerFacts ProcessorSafety Processor Testbed TestbedFacts WriteSets.
From S2P Require Import InitSafety LendingCli.

Import cli.

(** ** The libraries that the commands call *)

(** The keys that a list of instructions wants signed *)
Definition required_signers (payer : Pubkey) (ixs : list Instruction) : list Pubkey :=
  payer :: (pubkey <$> filter (λ meta, meta_is_signer meta = true) (ixs ≫= ix_accounts)).

Class CliLaws `{Sdk} `{CliSdk} : Prop := {
  (* funder and new account sign and are written *)
  create_account_accounts : ∀ from to lamports space owner,
    ix_accounts (create_account from to lamports space owner) = [meta_new from true; meta_new to true];
  (* for the token program itself, with the source's owner as the only signer *)
  approve_Ok : ∀ source delegate owner amount, ∃ ix, approve spl_token_id source delegate owner amount = Ok ix ∧
    ix_accounts ix = [meta_new source false; meta_new_readonly delegate false; meta_new_readonly owner true];
  revoke_Ok : ∀ source owner, ∃ ix, revoke spl_token_id source owner = Ok ix ∧
    ix_accounts ix = [meta_new source false; meta_new_readonly owner true];
  (* exactly the keys that are wanted must sign *)
  signs_spec : ∀ keys payer ixs,
    signs keys payer ixs = true ↔ ∀ k, k ∈ keys ↔ k ∈ required_signers payer ixs;
  ui_amount_to_amount_u64 : ∀ amount decimals, is_u64 (ui_amount_to_amount amount decimals);
}.

(** ** Runs *)

(** [m.1] and [m.2] of a run of several steps *)
Lemma Run_bind_Ok {A B} (m : Run A) (f : A → Run B) b sent :
  (m ≫= f) = (Ok b, sent) ↔
  ∃ a sent1 sent2, m = (Ok a, sent1) ∧ f a = (Ok b, sent2) ∧ sent = sent1 ++ sent2.
Proof.
  unfold mbind, Run_bind. destruct m as [[a|e|] s]; cbn; split; try naive_solver.
  - intros [= E <-]. exists a, s, (f a).2. split; [done|]. split; [by rewrite <- E; destruct (f a)|done].
  - intros (a' & s1 & s2 & [= -> ->] & -> & ->). done.
Qed.

Lemma run_Ok {A} (m : result Error A) a sent : run m = (Ok a, sent) ↔ m = Ok a ∧ sent = [].
Proof. unfold run. naive_solver. Qed.

Lemma request_Ok {A} (answer : option A) a sent :
  request answer = (Ok a, sent) ↔ answer = Some a ∧ sent = [].
Proof. unfold request. by rewrite run_Ok, ok_or_Ok. Qed.

Lemma try_program_Ok {A} (m : outcome A) a sent :
  try_program m = (Ok a, sent) ↔ m = Ok a ∧ sent = [].
Proof. unfold try_program. by rewrite run_Ok, map_err_Ok. Qed.

Lemma Run_ret_Ok {A} (a b : A) sent : (mret a : Run A) = (Ok b, sent) ↔ b = a ∧ sent = [].
Proof. unfold mret, Run_ret. naive_solver. Qed.

Section commands.
Context `{S : Sdk} `{C : CliSdk} `{L : !CliLaws}.
Implicit Types (config : cli.Config).

Lemma send_transaction_Ok config tx sent :
  send_transaction config tx = (Ok tt, sent) ↔
  accepts (rpc_client config) tx = true ∧ sent = [tx].
Proof. unfold send_transaction, run. destruct (accepts _ _); naive_solver. Qed.

Lemma sign_Ok ixs payer keys tx sent :
  sign ixs payer keys = (Ok tx, sent) ↔
  signs keys payer ixs = true ∧ tx = mkTransaction ixs payer keys ∧ sent = [].
Proof. unfold sign, mret, Run_ret, run. destruct (signs _ _ _); naive_solver. Qed.

Lemma check_fee_payer_balance_eq config required balance :
  get_balance (rpc_client config) (fee_payer config) = Some balance →
  check_fee_payer_balance config required =
    (if balance <? required then Err (InsufficientBalance required balance) else Ok tt, []).
Proof. intros Hb. unfold check_fee_payer_balance. rewrite Hb. cbn. by destruct (_ <? _). Qed.

Lemma check_fee_payer_balance_Ok config required u sent :
  check_fee_payer_balance config required = (Ok u, sent) →
  sent = [] ∧ ∃ balance, get_balance (rpc_client config) (fee_payer config) = Some balance ∧ required ≤ balance.
Proof.
  unfold check_fee_payer_balance. intros (b & s1 & s2 & [Hb ->]%request_Ok & H & ->)%Run_bind_Ok.
  destruct (Z.ltb_spec b required); [done|]. apply Run_ret_Ok in H as [-> ->]. split; [done|]. by exists b.
Qed.

End commands.

(** ** Quote currencies *)

Lemma of_le_bytes_padded bs n : of_le_bytes (bs ++ replicate n 0) = of_le_bytes bs.
Proof.
  induction bs as [|b bs IH]; cbn; [|by rewrite IH].
  induction n as [|n IH]; cbn; [done|by rewrite IH].
Qed.

(** The arm for "USD" gives what the general one gives. *)
Lemma quote_currency_of_short `{CliSdk} s :
  (length (bytes_of s) ≤ 32)%nat → quote_currency_of (Some s) = Ok (Some (of_le_bytes (bytes_of s))).
Proof.
  intros Hs. unfold quote_currency_of. case_bool_decide as E; [by rewrite E|].
  by rewrite (proj2 (Nat.leb_le _ _) Hs).
Qed.

Lemma bytes_of_bytes s : Forall is_byte (bytes_of s).
Proof.
  unfold bytes_of. apply Forall_fmap, Forall_true. intros c. cbn.
  pose proof (nat_ascii_bounded c). unfold is_byte, in_width. lia.
Qed.

(** ** Creating a market and adding a reserve *)

Lemma Run_bind_pure {A B} (m : Run A) (f : A → Run B) a : m = (Ok a, []) → (m ≫= f) = f a.
Proof. intros ->. unfold mbind, Run_bind. cbn. by destruct (f a). Qed.

Lemma plain_add_fits `{CliSdk} a b : a + b < 2 ^ 64 → plain_add a b = (Ok (a + b), []).
Proof. intros Hab. unfold plain_add. by rewrite (proj2 (Z.ltb_lt _ _) Hab). Qed.

(** The transactions in order, until the node refuses one *)
Fixpoint send_all (node : Node) (txs : list Transaction) : Run unit :=
  match txs with
  | [] => mret tt
  | tx :: txs =>
      if accepts node tx then let rest := send_all node txs in (rest.1, tx :: rest.2)
      else (Err ClientError, [])
  end.

Section adding.
Context `{S : Sdk} `{C : CliSdk} `{L : !CliLaws}.
Implicit Types (config : cli.Config).

Lemma send_all_cons config tx txs :
  send_all (rpc_client config) (tx :: txs) =
  (send_transaction config tx ≫= λ _ : unit, send_all (rpc_client config) txs).
Proof.
  cbn [send_all]. unfold send_transaction, run. by destruct (accepts _ _).
Qed.

Lemma send_all_last config tx : send_all (rpc_client config) [tx] = send_transaction config tx.
Proof. cbn. unfold send_transaction, run. by destruct (accepts _ _). Qed.

(** The signers of a transaction's instructions, one after the other *)
Lemma elem_of_required_signers k payer ixs :
  k ∈ required_signers payer ixs ↔
  k = payer ∨ Exists (λ ix, k ∈ pubkey <$> filter (λ meta, meta_is_signer meta = true) (ix_accounts ix)) ixs.
Proof.
  unfold required_signers. rewrite elem_of_cons. f_equiv. induction ixs as [|ix ixs IH].
  - rewrite Exists_nil. cbn. by rewrite elem_of_nil.
  - rewrite Exists_cons, <- IH. cbn [mbind list_bind]. by rewrite filter_app, fmap_app, elem_of_app.
Qed.

Definition signed_by (keys : list Pubkey) (ix : Instruction) : Prop :=
  pubkey <$> filter (λ meta, meta_is_signer meta = true) (ix_accounts ix) = keys.

(** Signing works when the keys are the payer's and those of the instructions. *)
Lemma sign_pure ixs payer keys keyss :
  Forall2 signed_by keyss ixs → (∀ k, k ∈ keys ↔ k = payer ∨ Exists (k ∈.) keyss) →
  sign ixs payer keys = (Ok (mkTransaction ixs payer keys), []).
Proof.
  intros Hks Hk. apply sign_Ok. split; [|done]. apply signs_spec. intros k.
  rewrite Hk, elem_of_required_signers. f_equiv. clear Hk.
  induction Hks as [|ks ix keyss ixs E _ IH]; [by rewrite !Exists_nil|].
  rewrite !Exists_cons, IH, E. done.
Qed.

Lemma create_account_signed from to lamports space owner :
  signed_by [from; to] (create_account from to lamports space owner).
Proof. unfold signed_by. by rewrite create_account_accounts. Qed.

Lemma init_reserve_signers pid n c k1 k2 k3 k4 k5 k6 k7 k8 k9 k10 k11 owner authority :
  signed_by [owner; authority]
    (instruction.init_reserve pid n c k1 k2 k3 k4 k5 k6 k7 k8 k9 k10 k11 owner authority).
Proof. reflexivity. Qed.

Lemma approve_signed source delegate owner amount :
  ∃ ix, approve spl_token_id source delegate owner amount = Ok ix ∧ signed_by [owner] ix.
Proof.
  destruct (approve_Ok source delegate owner amount) as (ix & Hix & E). exists ix. split; [done|].
  unfold signed_by. by rewrite E.
Qed.

Lemma revoke_signed source owner :
  ∃ ix, revoke spl_token_id source owner = Ok ix ∧ signed_by [owner] ix.
Proof.
  destruct (revoke_Ok source owner) as (ix & Hix & E). exists ix. split; [done|].
  unfold signed_by. by rewrite E.
Qed.

End adding.

(** [Run_bind_Ok] for the requests, sums and checks of a command *)
Ltac inv_run_step :=
  match goal with
  | H : (_ ≫= _) = (Ok _, _) |- _ => apply Run_bind_Ok in H as (? & ? & ? & ? & H & ->)
  | H : request _ = (Ok _, _) |- _ => apply request_Ok in H as [? ->]
  | H : try_program _ = (Ok _, _) |- _ => apply try_program_Ok in H as [? ->]
  | H : run _ = (Ok _, _) |- _ => apply run_Ok in H as [? ->]
  | H : sign _ _ _ = (Ok _, _) |- _ => apply sign_Ok in H as (? & -> & ->)
  | H : check_fee_payer_balance _ _ = (Ok _, _) |- _ => apply check_fee_payer_balance_Ok in H as [-> _]
  | H : mret _ = (Ok _, _) |- _ => apply Run_ret_Ok in H as [? ->]
  end.

Lemma plain_add_silent `{CliSdk} a b n sent : plain_add a b = (Ok n, sent) → sent = [].
Proof.
  unfold plain_add. case_match; [by intros [_ ->]%Run_ret_Ok|].
  case_match; [by intros [_ ->]%run_Ok|by intros [_ ->]%Run_ret_Ok].
Qed.

Section creating.
Context `{S : Sdk} `{C : CliSdk} `{L : !CliLaws}.

Lemma command_create_lending_market_Ok (config : cli.Config) market owner quote pyth switchboard sent :
  command_create_lending_market config market owner quote pyth switchboard = (Ok tt, sent) →
  ∃ rent, get_minimum_balance_for_rent_exemption (rpc_client config) (LEN LendingMarket) = Some rent ∧
    let ixs :=
      [create_account (fee_payer config) market rent (LEN LendingMarket) (lending_program_id config);
       instruction.init_lending_market (lending_program_id config) owner quote market pyth switchboard] in
    let tx := mkTransaction ixs (fee_payer config) [fee_payer config; market] in
    signs (tx_signers tx) (tx_payer tx) ixs = true ∧ sent = [tx].
Proof.
  unfold command_create_lending_market. intros Hc. repeat inv_run_step.
  match goal with H : plain_add _ _ = _ |- _ => apply plain_add_silent in H as -> end.
  match goal with H : send_transaction _ _ = (Ok ?u, _) |- _ =>
    destruct u; apply send_transaction_Ok in H as [_ ->] end.
  eexists. split; [eassumption|]. split; [eassumption|done].
Qed.

End creating.

(** Signing with the keys of the instructions *)
Ltac sign_with :=
  eapply sign_pure;
    [repeat (apply Forall2_cons_2; [solve [apply create_account_signed | eassumption | apply init_reserve_signers]|]);
     apply Forall2_nil_2
    |intros ?; rewrite ?Exists_cons, ?Exists_nil, ?elem_of_cons, ?elem_of_nil; tauto].

(** ** Updating a reserve *)

(** What the parser of arguments gives: values of the width of their field *)
Definition opt_ok {A} (P : A → Prop) (o : option A) : Prop := from_option P True o.

Record PartialReserveConfig_ok (p : PartialReserveConfig) : Prop := {
  ok_p_optimal_utilization_rate : opt_ok is_u8 (p_optimal_utilization_rate p);
  ok_p_loan_to_value_ratio : opt_ok is_u8 (p_loan_to_value_ratio p);
  ok_p_liquidation_bonus : opt_ok is_u8 (p_liquidation_bonus p);
  ok_p_liquidation_threshold : opt_ok is_u8 (p_liquidation_threshold p);
  ok_p_min_borrow_rate : opt_ok is_u8 (p_min_borrow_rate p);
  ok_p_optimal_borrow_rate : opt_ok is_u8 (p_optimal_borrow_rate p);
  ok_p_max_borrow_rate : opt_ok is_u8 (p_max_borrow_rate p);
  ok_p_borrow_fee_wad : opt_ok is_u64 (p_borrow_fee_wad (p_fees p));
  ok_p_flash_loan_fee_wad : opt_ok is_u64 (p_flash_loan_fee_wad (p_fees p));
  ok_p_host_fee_percentage : opt_ok is_u8 (p_host_fee_percentage (p_fees p));
  ok_p_fee_receiver : opt_ok is_key (p_fee_receiver p);
  ok_p_protocol_liquidation_fee : opt_ok is_u8 (p_protocol_liquidation_fee p);
  ok_p_protocol_take_rate : opt_ok is_u8 (p_protocol_take_rate p);
}.

Lemma default_ok {A} (P : A → Prop) a o : P a → opt_ok P o → P (default a o).
Proof. by destruct o. Qed.

Section update.
Context `{S : Sdk} `{C : CliSdk} `{L : !CliLaws}.
Implicit Types (config : cli.Config).

Lemma updated_config_ok c p decimals :
  ReserveConfig_ok c → PartialReserveConfig_ok p → ReserveConfig_ok (updated_config c p decimals).
Proof.
  intros Hc Hp. assert (Hl : ∀ old o, is_u64 old → is_u64 (updated_limit o old decimals)).
  { intros old [n|] ?; [apply ui_amount_to_amount_u64|done]. }
  destruct (ok_fees c Hc).
  split; cbn; try (apply Hl; apply Hc); try (apply default_ok; by destruct Hc, Hp).
  split; cbn; apply default_ok; by destruct Hp.
Qed.

(** The instruction of the command *)
Definition update_ix config p price product feed reserve market owner r : Instruction :=
  instruction.update_reserve_config (lending_program_id config)
    (updated_config (r_config r) p (rl_mint_decimals (r_liquidity r))) reserve market owner
    (default NULL_PUBKEY (price ≫= λ _ : Pubkey, product))
    (default (rl_pyth_oracle_pubkey (r_liquidity r)) price)
    (default (rl_switchboard_oracle_pubkey (r_liquidity r)) feed).

Lemma updated_pyth_Ok product price old keys sent :
  updated_pyth product price old = (Ok keys, sent) →
  keys = (default NULL_PUBKEY (price ≫= λ _ : Pubkey, product), default old price) ∧ sent = [].
Proof.
  unfold updated_pyth. destruct price as [price|].
  - intros (k & s1 & s2 & [Hk ->]%run_Ok & [-> ->]%Run_ret_Ok & ->)%Run_bind_Ok.
    by destruct product; [injection Hk as ->|].
  - by intros [-> ->]%Run_ret_Ok.
Qed.

Lemma command_update_reserve_Ok config p product price feed reserve market owner sent :
  command_update_reserve config p product price feed reserve market owner = (Ok tt, sent) →
  ∃ a r tx, get_account (rpc_client config) reserve = Some a ∧ unpack_from_slice (data a) = Ok r ∧
    sent = [tx] ∧ accepts (rpc_client config) tx = true ∧
    tx_instructions tx = [update_ix config p price product feed reserve market owner r] ∧
    ∀ k, k ∈ tx_signers tx ↔ k ∈ required_signers (tx_payer tx) (tx_instructions tx).
Proof.
  unfold command_update_reserve.
  intros (a & s1 & ? & [Ha ->]%request_Ok & H & ->)%Run_bind_Ok.
  apply Run_bind_Ok in H as (r & s1 & ? & [Hr ->]%try_program_Ok & H & ->).
  apply Run_bind_Ok in H as (keys & s1 & ? & [-> ->]%updated_pyth_Ok & H & ->).
  apply Run_bind_Ok in H as (fee & s1 & ? & [_ ->]%request_Ok & H & ->).
  apply Run_bind_Ok in H as (u & s1 & ? & [-> _]%check_fee_payer_balance_Ok & H & ->).
  apply Run_bind_Ok in H as (tx & s1 & ? & (Hs & -> & ->)%sign_Ok & H & ->).
  apply send_transaction_Ok in H as [Hacc ->].
  eexists a, r, _. split; [done|]. split; [done|]. split; [done|]. split; [exact Hacc|].
  split; [done|]. by apply signs_spec.
Qed.

End update.

(** ** What the program does with the update *)

Section processed.
Context `{S : Sdk} (program_id : Pubkey) `{LP : !SdkLaws program_id}.

(** The instruction of the builder reaches its handler. *)
Lemma built_update_runs c reserve market owner product price feed w :
  let ix := instruction.update_reserve_config program_id c reserve market owner product price feed in
  ReserveConfig_ok c →
  process_instruction program_id (infos_of ix) (ix_data ix) w =
  process_update_reserve_config program_id c (infos_of ix) w.
Proof.
  intros ix Hc. unfold process_instruction. rewrite <- (app_nil_r (ix_data ix)).
  by rewrite (instruction_unpack_pack (UpdateReserveConfig c)) by done.
Qed.

Lemma built_init_runs owner quote market pyth switchboard w :
  let ix := instruction.init_lending_market program_id owner quote market pyth switchboard in
  is_key owner → is_key quote →
  process_instruction program_id (infos_of ix) (ix_data ix) w =
  process_init_lending_market program_id owner quote (infos_of ix) w.
Proof.
  intros ix Ho Hq. unfold process_instruction. rewrite <- (app_nil_r (ix_data ix)).
  by rewrite (instruction_unpack_pack (InitLendingMarket owner quote)) by done.
Qed.

Lemma built_update_Ok c reserve market owner product price feed w u w' :
  let ix := instruction.update_reserve_config program_id c reserve market owner product price feed in
  ReserveConfig_ok c →
  process_instruction program_id (infos_of ix) (ix_data ix) w = Ok (u, w') →
  ∃ r m, holds program_id Reserve w reserve r ∧ holds program_id LendingMarket w market m ∧
    r_lending_market r = market ∧ lm_owner m = owner ∧
    validate_reserve_config c = Ok tt ∧ null_oracles feed price product = false ∧
    (World_ok program_id w → is_key price → is_key feed →
     holds program_id Reserve w' reserve (reconfigured r c price feed) ∧
     only_changes program_id w reserve w').
Proof.
  intros ix Hc H. unfold ix in H. rewrite built_update_runs in H by done. unfold infos_of in H. cbn in H.
  apply (update_reserve_config_Ok program_id) in H as (r & m & Hr & Hm & E & Eo & _ & Hv & Hn & Hpk).
  cbn in *. exists r, m. do 6 (split; [done|]). intros Hw Hp Hf.
  assert (Hrok : Reserve_ok r) by (eapply (stored_reserve_ok program_id); [exact Hw|apply Hr]).
  eapply (pack_reserve_holds program_id) in Hpk; [exact Hpk| | |exact Hw|apply Hr].
  - unfold reconfigured. apply with_config_ok; [|done]. apply with_liquidity_ok; [done|].
    apply with_oracles_ok; [by destruct Hrok|done..].
  - destruct Hr as [_ (_ & _ & Hi)]. by destruct r.
Qed.

End processed.

(** ** A concrete environment

    An executable instance of [CliSdk] that satisfies [CliLaws], and a node that
    answers from Testbed's ledger: the theorems about commands are applied to it. *)

Definition test_ui_amount (amount : spec_float) (decimals : Z) : Z :=
  f64_as_u128 (f64_mul amount (f64_of_Z (10 ^ decimals))) mod 2 ^ 64.

Definition test_cli : CliSdk := {|
  create_account from to lamports space owner :=
    mkInstruction 0 [meta_new from true; meta_new to true] (le_bytes 8 lamports ++ le_bytes 8 (Z.of_nat space));
  approve _ source delegate owner amount :=
    Ok (mkInstruction test_token_id
          [meta_new source false; meta_new_readonly delegate false; meta_new_readonly owner true]
          (4 :: le_bytes 8 amount));
  revoke _ source owner :=
    Ok (mkInstruction test_token_id [meta_new source false; meta_new_readonly owner true] [5]);
  MINT_LEN := 82;
  TOKEN_LEN := 165;
  token_mint bs := Ok (of_le_bytes (take 32 bs));
  mint_unpack_decimals bs := Ok (nth 44 bs 0);
  ui_amount_to_amount := test_ui_amount;
  signs keys payer ixs :=
    bool_decide (list_to_set keys =@{gset Z} list_to_set (required_signers payer ixs));
  cli_pubkey_from_str _ := Some 7;
  cli_overflow_checks := true;
|}.

#[export] Instance test_cli_laws : CliLaws (H := test_sdk) (H0 := test_cli).
Proof.
  split; cbn; try done.
  - intros source delegate owner amount. by eexists.
  - intros source owner. by eexists.
  - intros keys payer ixs. rewrite bool_decide_eq_true. set_solver.
  - intros amount decimals. apply Z.mod_pos_bound. lia.
Qed.

(** The node: every size is exempt from rent with a thousand, a transaction costs
    five per instruction, and [accepts] is left open. *)
Definition test_node (balance : Z) (w : World) (accepts : Transaction → bool) : Node := {|
  get_minimum_balance_for_rent_exemption _ := Some 1000;
  get_recent_blockhash := Some (λ ixs _, 5 * Z.of_nat (length ixs));
  get_balance _ := Some balance;
  get_account k := accounts w !! k;
  accepts := accepts;
|}.

Definition test_config (node : Node) : cli.Config := mkConfig node 1 solend_program_id.
