(* ===== verification/CliSafety.v ===== *)
(** * Properties of the command line *)

From Stdlib Require Import Floats.SpecFloat Ascii String.
From S2P Require Import Prelude Errors FixedPoint StateBase LendingMarket Reserve.
From S2P Require Import ReserveFacts Obligation ObligationFacts Codec CodecFacts.
From S2P Require Import Instruction Solana Builders Oracle OracleFacts.
From S2P Require Import ProcessorBase ProcessorFacts ProcessorInvariant ProcessorReserve.
From S2P Require Import HandlerFacts ProcessorSafety Processor Testbed TestbedFacts InitSafety WriteSets.
From S2P Require Import ProcessorReach InitSafety LendingCli CliFacts.

Import cli.

(** The keys fit the instructions of a transaction. *)
Definition fully_signed (tx : Transaction) : Prop :=
  ∀ k, k ∈ tx_signers tx ↔ k ∈ required_signers (tx_payer tx) (tx_instructions tx).

(** The values of a configuration, and what each option of an update sets: the
    limits are given in whole tokens. *)
Definition config_values (c : ReserveConfig) : list Z :=
  [optimal_utilization_rate c; loan_to_value_ratio c; liquidation_bonus c; liquidation_threshold c;
   min_borrow_rate c; optimal_borrow_rate c; max_borrow_rate c; borrow_fee_wad (fees c);
   flash_loan_fee_wad (fees c); host_fee_percentage (fees c); deposit_limit c; borrow_limit c;
   fee_receiver c; protocol_liquidation_fee c; protocol_take_rate c].

Definition option_values `{CliSdk} (p : PartialReserveConfig) (decimals : Z) : list (option Z) :=
  let tokens limit := ui_amount_to_amount (f64_of_Z limit) decimals in
  [p_optimal_utilization_rate p; p_loan_to_value_ratio p; p_liquidation_bonus p;
   p_liquidation_threshold p; p_min_borrow_rate p; p_optimal_borrow_rate p; p_max_borrow_rate p;
   p_borrow_fee_wad (p_fees p); p_flash_loan_fee_wad (p_fees p); p_host_fee_percentage (p_fees p);
   tokens <$> p_deposit_limit p; tokens <$> p_borrow_limit p; p_fee_receiver p;
   p_protocol_liquidation_fee p; p_protocol_take_rate p].

Definition overridden `{CliSdk} (p : PartialReserveConfig) (decimals : Z) (old new : ReserveConfig) : Prop :=
  config_values new
    = zip_with (λ value option, default value option) (config_values old) (option_values p decimals).

Lemma updated_config_overridden `{CliSdk} c p decimals :
  overridden p decimals c (updated_config c p decimals).
Proof.
  unfold overridden, updated_config, updated_limit, config_values, option_values.
  by destruct (p_deposit_limit p), (p_borrow_limit p).
Qed.

(** C20: a successful update sends one fully signed transaction with one
    instruction.  If the program processes it, the reserve gets exactly the given
    options over its old configuration and oracles, and nothing else of the
    program changes; and with the oracles left as they are, a switchboard feed,
    the market's owner and a valid result, the program does accept it. *)
Theorem update_takes_effect `{S : Sdk} `{C : CliSdk} `{L : !CliLaws} (config : cli.Config)
    `{LP : !SdkLaws (lending_program_id config)} (p : PartialReserveConfig)
    (product price feed : option Pubkey) (reserve market owner : Pubkey) (w : World)
    (sent : list Transaction)
    (Hw : World_ok (lending_program_id config) w) (Hp : PartialReserveConfig_ok p)
    (Hprice : opt_ok is_key price) (Hfeed : opt_ok is_key feed)
    (Hnode : get_account (rpc_client config) reserve = accounts w !! reserve)
    (H : command_update_reserve config p product price feed reserve market owner = (Ok tt, sent)) :
  let program_id := lending_program_id config in
  ∃ r new tx ix, sent = [tx] ∧ tx_instructions tx = [ix] ∧ fully_signed tx ∧
    unpack_from_slice (data (account_of w reserve)) = Ok r ∧
    overridden p (rl_mint_decimals (r_liquidity r)) (r_config r) new ∧
    let pyth := rl_pyth_oracle_pubkey (r_liquidity r) in
    let switchboard := rl_switchboard_oracle_pubkey (r_liquidity r) in
    (∀ u w', process_instruction program_id (infos_of ix) (ix_data ix) w = Ok (u, w') →
      holds program_id Reserve w' reserve
        (reconfigured r new (default pyth price) (default switchboard feed)) ∧
      only_changes program_id w reserve w') ∧
    (∀ m, holds program_id Reserve w reserve r → holds program_id LendingMarket w market m →
      r_lending_market r = market → lm_owner m = owner →
      create_program_address [le_bytes 32 market; le_bytes 1 (lm_bump_seed m)] program_id
        = Ok (instruction.lending_market_authority program_id market) →
      validate_reserve_config new = Ok tt → price = None → feed = None → switchboard ≠ NULL_PUBKEY →
      ∃ w', process_instruction program_id (infos_of ix) (ix_data ix) w = Ok (tt, w')).
Proof.
  intros program_id.
  apply command_update_reserve_Ok in H as (a & r & tx & Ha & Hr & Hsent & _ & Hix & Hs).
  assert (Hacc : account_of w reserve = a) by (unfold account_of; by rewrite <- Hnode, Ha).
  assert (Hrok : Reserve_ok r).
  { eapply reserve_unpack_pack, Hr. rewrite <- Hacc. apply (wo_bytes program_id w Hw). }
  exists r. do 3 eexists. split; [exact Hsent|]. split; [exact Hix|]. split; [exact Hs|].
  rewrite Hacc. split; [exact Hr|]. split; [apply updated_config_overridden|]. cbv zeta.
  assert (Hcok : ReserveConfig_ok (updated_config (r_config r) p (rl_mint_decimals (r_liquidity r)))).
  { apply updated_config_ok; [apply Hrok|done]. }
  pose proof (ok_r_liquidity r Hrok) as Hl. unfold update_ix. split.
  - intros u w' Hrun. apply (built_update_Ok program_id) in Hrun as (r' & m & Hh & _ & _ & _ & _ & _ & Hend); [|done].
    assert (r' = r) as ->.
    { destruct Hh as [_ (_ & Hu & _)]. rewrite Hacc in Hu. rewrite Hr in Hu. by injection Hu. }
    apply Hend; [done|apply default_ok; [apply Hl|done]..].
  - intros m Hh Hm Emarket Eowner Hpda Hv -> -> Hnull.
    rewrite (built_update_runs program_id) by done. unfold infos_of. cbn.
    eapply (update_reserve_config_accepts program_id); cbn; try done.
    + apply andb_false_iff. left. by apply Z.eqb_neq.
    + apply (wo_bytes program_id w Hw).
Qed.

#[local] Existing Instance test_sdk.
#[local] Existing Instance test_cli.

(** A new protocol take rate and borrow limit for reserve 31 *)
Definition new_take_rate : PartialReserveConfig :=
  mkPartialReserveConfig None None None None None None None (mkPartialReserveFees None None None)
    None (Some 5000) None None (Some 15).

Definition update_config : cli.Config := test_config (test_node 2000 ledger (λ _, true)).

Definition update_sent : list Transaction :=
  (command_update_reserve update_config new_take_rate None None None 31 9 21).2.

Lemma update_takes_effect_witness :
  ∃ tx ix w' new, update_sent = [tx] ∧ tx_instructions tx = [ix] ∧
    process_instruction solend_program_id (infos_of ix) (ix_data ix) ledger = Ok (tt, w') ∧
    new = mkReserveConfig 80 50 5 55 0 4 30 (mkReserveFees 10000000000000000 3000000000000000 20)
            u64_MAX 5000000000 77 10 15 ∧
    holds solend_program_id Reserve w' 31 (reconfigured sample_reserve new 13 14).
Proof.
  destruct (update_takes_effect update_config new_take_rate None None None 31 9 21 ledger update_sent)
    as (r & new & tx & ix & Hsent & Hix & _ & Hr & Hnew & Heff & Hacc).
  - apply ledger_ok.
  - split; try exact I; vm_compute; split; congruence.
  - exact I.
  - exact I.
  - reflexivity.
  - vm_compute. reflexivity.
  - assert (r = sample_reserve) as -> by (vm_compute in Hr; by injection Hr as <-).
    assert (En : new = updated_config sample_config new_take_rate 6).
    { destruct new as [? ? ? ? ? ? ? [? ? ?] ? ? ? ? ?]. vm_compute in Hnew.
      injection Hnew as -> -> -> -> -> -> -> -> -> -> -> -> -> -> ->.
      vm_compute. reflexivity. }
    destruct (Hacc sample_market) as [w' Hw'];
      [| |reflexivity|reflexivity|vm_compute; reflexivity|rewrite En; vm_compute; reflexivity|done|done
       |vm_compute; congruence|].
    + split; [|split; [|split]]; vm_compute; reflexivity.
    + split; [|split; [|split]]; vm_compute; reflexivity.
    + exists tx, ix, w', new. split; [exact Hsent|]. split; [exact Hix|]. split; [exact Hw'|].
      split; [rewrite En; vm_compute; reflexivity|]. apply (Heff _ _ Hw').
Defined.

(** C21: when a reserve has no switchboard feed, the update that the command sends
    without new oracles is one that the program rejects in every state, whatever
    options it has: it names the null account as the Pyth product. *)
Theorem pyth_only_update_is_rejected `{S : Sdk} `{C : CliSdk} `{L : !CliLaws} (config : cli.Config)
    `{LP : !SdkLaws (lending_program_id config)} (p : PartialReserveConfig)
    (product : option Pubkey) (reserve market owner : Pubkey) (a : AccountState) (r : Reserve)
    (sent : list Transaction)
    (Hp : PartialReserveConfig_ok p) (Hb : Forall is_byte (data a))
    (Hnode : get_account (rpc_client config) reserve = Some a)
    (Hr : unpack_from_slice (data a) = Ok r)
    (Hnull : rl_switchboard_oracle_pubkey (r_liquidity r) = NULL_PUBKEY)
    (H : command_update_reserve config p product None None reserve market owner = (Ok tt, sent)) :
  ∃ tx ix, sent = [tx] ∧ tx_instructions tx = [ix] ∧
    ∀ w w', process_instruction (lending_program_id config) (infos_of ix) (ix_data ix) w
      ≠ Ok (tt, w').
Proof.
  apply command_update_reserve_Ok in H as (a' & r' & tx & Ha & Hr' & Hsent & _ & Hix & _).
  assert (a' = a) as -> by congruence. assert (r' = r) as -> by (rewrite Hr in Hr'; by injection Hr').
  exists tx. eexists. split; [exact Hsent|]. split; [exact Hix|]. intros w w' Hrun.
  apply (built_update_Ok (lending_program_id config)) in Hrun as (_ & _ & _ & _ & _ & _ & _ & Hn & _).
  - unfold null_oracles in Hn. cbn in Hn. rewrite Hnull in Hn.
    rewrite !Z.eqb_refl in Hn. by rewrite orb_true_r in Hn.
  - apply updated_config_ok; [|done]. by eapply reserve_unpack_pack, Hr.
Qed.

(** Reserve 31 with the Pyth feed alone *)
Definition pyth_only_reserve : Reserve := set_switchboard_oracle sample_reserve NULL_PUBKEY.
Definition pyth_only_ledger : World := ledger_of pyth_only_reserve sample_reserve sample_obligation.
Definition pyth_only_config : cli.Config := test_config (test_node 2000 pyth_only_ledger (λ _, true)).
Definition pyth_only_sent : list Transaction :=
  (command_update_reserve pyth_only_config new_take_rate None None None 31 9 21).2.

Lemma pyth_only_update_is_rejected_witness :
  ∃ tx ix, pyth_only_sent = [tx] ∧ tx_instructions tx = [ix] ∧
    process_instruction solend_program_id (infos_of ix) (ix_data ix) pyth_only_ledger
      = Err (ProgramError_from InvalidOracleConfig) ∧
    ∀ w w', process_instruction solend_program_id (infos_of ix) (ix_data ix) w ≠ Ok (tt, w').
Proof.
  destruct (pyth_only_update_is_rejected pyth_only_config new_take_rate None 31 9 21
              (packed_account pyth_only_reserve) pyth_only_reserve pyth_only_sent)
    as (tx & ix & Hsent & Hix & Hnever).
  - split; try exact I; vm_compute; split; congruence.
  - apply (bool_decide_unpack _). vm_compute. reflexivity.
  - vm_compute. reflexivity.
  - vm_compute. reflexivity.
  - reflexivity.
  - vm_compute. reflexivity.
  - exists tx, ix. split; [exact Hsent|]. split; [exact Hix|]. split; [|exact Hnever].
    vm_compute in Hsent. injection Hsent as <-. vm_compute in Hix. injection Hix as <-.
    vm_compute. reflexivity.
Defined.

(** ** Adding a reserve *)

(** The transactions of the command, their rents [reserve], [mint] and [token] *)
Definition add_txs `{Sdk} `{CliSdk} (config : cli.Config) (keys : NewKeys) (liquidity_amount : Z)
    (reserve_config : ReserveConfig)
    (source source_owner market owner product price feed mint : Pubkey)
    (reserve_rent mint_rent token_rent : Z) (approve_ix revoke_ix : Instruction) : list Transaction :=
  let payer := fee_payer config in
  [mkTransaction
     [create_account payer (k_reserve keys) reserve_rent (LEN Reserve) (lending_program_id config);
      create_account payer (k_collateral_mint keys) mint_rent MINT_LEN spl_token_id;
      create_account payer (k_collateral_supply keys) token_rent TOKEN_LEN spl_token_id;
      create_account payer (k_user_collateral keys) token_rent TOKEN_LEN spl_token_id]
     payer
     [payer; k_reserve keys; k_collateral_mint keys; k_collateral_supply keys; k_user_collateral keys];
   mkTransaction
     [create_account payer (k_liquidity_supply keys) token_rent TOKEN_LEN spl_token_id;
      create_account payer (k_liquidity_fee_receiver keys) token_rent TOKEN_LEN spl_token_id]
     payer
     [payer; k_liquidity_supply keys; k_liquidity_fee_receiver keys];
   mkTransaction
     [approve_ix;
      instruction.init_reserve (lending_program_id config) liquidity_amount reserve_config source
        (k_user_collateral keys) (k_reserve keys) mint (k_liquidity_supply keys)
        (k_collateral_mint keys) (k_collateral_supply keys) product price feed market owner
        (k_user_transfer_authority keys);
      revoke_ix]
     payer
     [payer; source_owner; owner; k_user_transfer_authority keys]].

(** with the node's answers and a sum that fits in 64 bits, the command never
    panics: it stops before it sends anything when the payer cannot pay for the six
    accounts and the three transactions, and otherwise sends the three, in order,
    until the node refuses one.  Each carries exactly the signatures it needs. *)
Theorem add_reserve_sends_in_order `{S : Sdk} `{C : CliSdk} `{L : !CliLaws} (config : cli.Config)
    (keys : NewKeys) (liquidity_amount : Z) (reserve_config : ReserveConfig)
    (source source_owner market owner product price feed mint : Pubkey)
    (reserve_rent mint_rent token_rent balance : Z) (fee : list Instruction → Pubkey → Z)
    (Hr : get_minimum_balance_for_rent_exemption (rpc_client config) (LEN Reserve) = Some reserve_rent)
    (Hm : get_minimum_balance_for_rent_exemption (rpc_client config) MINT_LEN = Some mint_rent)
    (Ht : get_minimum_balance_for_rent_exemption (rpc_client config) TOKEN_LEN = Some token_rent)
    (Hfee : get_recent_blockhash (rpc_client config) = Some fee)
    (Hb : get_balance (rpc_client config) (fee_payer config) = Some balance)
    (Hrents : 0 ≤ reserve_rent ∧ 0 ≤ mint_rent ∧ 0 ≤ token_rent)
    (Hfees : ∀ ixs, 0 ≤ fee ixs (fee_payer config)) :
  ∃ approve_ix revoke_ix,
    approve spl_token_id source (k_user_transfer_authority keys) source_owner liquidity_amount
      = Ok approve_ix ∧
    revoke spl_token_id source source_owner = Ok revoke_ix ∧
    let txs := add_txs config keys liquidity_amount reserve_config source source_owner market owner
                 product price feed mint reserve_rent mint_rent token_rent approve_ix revoke_ix in
    let rents := reserve_rent + mint_rent + token_rent + token_rent + token_rent + token_rent in
    let total := foldl (λ n tx, n + fee (tx_instructions tx) (fee_payer config)) rents txs in
    Forall fully_signed txs ∧
    (total < 2 ^ 64 →
     command_add_reserve config keys liquidity_amount reserve_config source source_owner market owner
       product price feed mint =
     if balance <? total then (Err (InsufficientBalance total balance), [])
     else send_all (rpc_client config) txs).
Proof.
  destruct (approve_signed source (k_user_transfer_authority keys) source_owner liquidity_amount)
    as (aix & Ea & Ma).
  destruct (revoke_signed source source_owner) as (rix & Er & Mr).
  exists aix, rix. split; [exact Ea|]. split; [exact Er|]. intros txs rents total.
  assert (Hsign : Forall (λ tx, sign (tx_instructions tx) (tx_payer tx) (tx_signers tx) = (Ok tx, [])) txs).
  { unfold txs, add_txs. repeat apply Forall_cons_2; [sign_with..|apply Forall_nil_2]. }
  split.
  { eapply Forall_impl; [exact Hsign|]. intros tx [Hs _]%sign_Ok. exact (proj1 (signs_spec _ _ _) Hs). }
  intros Hfits. apply Forall_cons in Hsign as [Hs1 Hsign]. apply Forall_cons in Hsign as [Hs2 Hsign].
  apply Forall_cons in Hsign as [Hs3 _]. cbn in Hs1, Hs2, Hs3.
  unfold total, txs, add_txs in Hfits |- *. cbn [foldl tx_instructions] in Hfits |- *.
  match type of Hfits with _ + fee ?i1 _ + fee ?i2 _ + fee ?i3 _ < _ =>
    pose proof (Hfees i1); pose proof (Hfees i2); pose proof (Hfees i3) end.
  unfold command_add_reserve, create_token_account. unfold rents in *.
  do 3 (erewrite Run_bind_pure by (apply request_Ok; split; [eassumption|done])).
  do 5 (erewrite Run_bind_pure by (apply plain_add_fits; lia)).
  do 2 (erewrite Run_bind_pure by (apply run_Ok; split; [eassumption || (rewrite ?Ea, ?Er; reflexivity)|done])).
  cbv zeta.
  erewrite Run_bind_pure by (apply request_Ok; split; [eassumption|done]).
  do 3 (erewrite Run_bind_pure by (apply plain_add_fits; lia)).
  rewrite (check_fee_payer_balance_eq _ _ _ Hb).
  match goal with |- context [balance <? ?t] => destruct (balance <? t) end; [reflexivity|].
  erewrite Run_bind_pure by reflexivity.
  do 3 (erewrite Run_bind_pure by eassumption).
  rewrite 2!send_all_cons, send_all_last. reflexivity.
Qed.

(** A node that refuses the transaction that initialises the reserve *)
Definition add_config (balance : Z) : cli.Config :=
  test_config (test_node balance ledger (λ tx, negb (length (tx_instructions tx) =? 3)%nat)).

Definition add_keys : NewKeys := mkNewKeys 101 102 103 104 105 106 107.

Definition add_run (balance : Z) : Run unit :=
  command_add_reserve (add_config balance) add_keys 1000 sample_config 12 22 9 21 40 13 14 11.

Lemma add_reserve_sends_in_order_witness :
  (add_run 6044).1 = Err (InsufficientBalance 6045 6044) ∧
  ∃ tx1 tx2, add_run 6045 = (Err ClientError, [tx1; tx2]) ∧ fully_signed tx1 ∧ fully_signed tx2.
Proof.
  split; [vm_compute; reflexivity|].
  destruct (add_reserve_sends_in_order (add_config 6045) add_keys 1000 sample_config 12 22 9 21 40 13 14 11
              1000 1000 1000 6045 (λ ixs _, 5 * Z.of_nat (length ixs)))
    as (approve_ix & revoke_ix & _ & _ & Hsigned & Hrun).
  - reflexivity.
  - reflexivity.
  - reflexivity.
  - reflexivity.
  - reflexivity.
  - lia.
  - intros ixs. lia.
  - apply Forall_cons in Hsigned as [H1 Hsigned]. apply Forall_cons in Hsigned as [H2 _].
    eexists _, _. split; [|split; [exact H1|exact H2]].
    unfold add_run. rewrite Hrun by (vm_compute; reflexivity). reflexivity.
Defined.

(** ** Creating a market *)

(** A market that the command creates is initialised in the transaction that
    creates its account; once the program processes it, the market is new, belongs
    to the given owner and takes the prices of the Pyth products whose attribute
    [quote_currency] is the given string. *)
Theorem created_market_matches_products `{S : Sdk} `{C : CliSdk} `{L : !CliLaws} (config : cli.Config)
    `{LP : !SdkLaws (lending_program_id config)} (market owner pyth switchboard : Pubkey)
    (quote : string) (sent : list Transaction)
    (Howner : is_key owner) (Hpyth : is_key pyth) (Hswitchboard : is_key switchboard)
    (Htoken : is_key spl_token_id) (Hquote : (length (bytes_of quote) ≤ 32)%nat)
    (H : main_create_market config market owner (Some quote) pyth switchboard = (Ok tt, sent)) :
  let program_id := lending_program_id config in
  ∃ tx ix1 ix2, sent = [tx] ∧ tx_instructions tx = [ix1; ix2] ∧ fully_signed tx ∧
    (∃ rent, ix1 = create_account (fee_payer config) market rent (LEN LendingMarket) program_id) ∧
    ∀ w u w', World_ok program_id w →
      process_instruction program_id (infos_of ix2) (ix_data ix2) w = Ok (u, w') →
      ∃ m, vacant program_id LendingMarket w market ∧ holds program_id LendingMarket w' market m ∧
        lm_owner m = owner ∧ lm_oracle_program_id m = pyth ∧
        lm_switchboard_oracle_program_id m = switchboard ∧
        ∀ product pre post rest, length (pyth.attr product) = pyth.PROD_ATTR_SIZE →
          pyth.attr product = attr_bytes (pre ++ (QUOTE_CURRENCY_KEY, bytes_of quote) :: post) ++ rest →
          Forall (λ kv, kv.1 ≠ QUOTE_CURRENCY_KEY) pre →
          get_pyth_product_quote_currency product = Ok (lm_quote_currency m).
Proof.
  intros program_id. unfold main_create_market in H. rewrite quote_currency_of_short in H by done.
  apply Run_bind_Ok in H as (q & ? & ? & [[= <-] ->]%run_Ok & H & ->).
  apply Run_bind_Ok in H as (q & ? & ? & [[= <-] ->]%run_Ok & H & ->).
  apply command_create_lending_market_Ok in H as (rent & _ & Hs & ->).
  eexists _, _, _. split; [reflexivity|]. split; [reflexivity|].
  split; [exact (proj1 (signs_spec _ _ _) Hs)|]. split; [by exists rent|].
  intros w u w' Hw Hrun.
  assert (Hq : is_key (of_le_bytes (bytes_of quote))).
  { pose proof (of_le_bytes_bound _ (bytes_of_bytes quote)) as [? Hlt]. split; [done|].
    eapply Z.lt_le_trans; [exact Hlt|]. apply Z.pow_le_mono_r; lia. }
  rewrite (built_init_runs program_id) in Hrun by done.
  apply (init_lending_market_stores program_id) in Hrun as [Hv Hh]; try done.
  eexists. split; [exact Hv|]. split; [exact Hh|]. do 3 (split; [done|]).
  intros product pre post rest Hlen Hattr Hpre.
  erewrite quote_currency_entry by done. by rewrite of_le_bytes_padded.
Qed.

(** The market 9 of the genesis ledger, created with the currency "USD"; the node
    answers from the ledger that has it. *)
Definition created_config : cli.Config := test_config (test_node 2000 market_ledger (λ _, true)).

Definition created_sent : list Transaction :=
  (main_create_market created_config 9 21 (Some "USD"%string) 40 41).2.

Lemma created_market_matches_products_witness :
  ∃ tx ix1 ix2 w' m, created_sent = [tx] ∧ tx_instructions tx = [ix1; ix2] ∧
    process_instruction solend_program_id (infos_of ix2) (ix_data ix2) genesis_ledger = Ok (tt, w') ∧
    holds solend_program_id LendingMarket w' 9 m ∧ lm_owner m = 21 ∧
    get_pyth_product_quote_currency sample_product = Ok (lm_quote_currency m).
Proof.
  destruct (created_market_matches_products created_config 9 21 40 41 "USD"%string created_sent)
    as (tx & ix1 & ix2 & Hsent & Hixs & _ & _ & Hnew).
  - decide_ok.
  - decide_ok.
  - decide_ok.
  - decide_ok.
  - vm_compute. lia.
  - vm_compute. reflexivity.
  - set (w' := world_after (process_instruction solend_program_id (infos_of ix2) (ix_data ix2) genesis_ledger)).
    assert (Hrun : process_instruction solend_program_id (infos_of ix2) (ix_data ix2) genesis_ledger = Ok (tt, w')).
    { subst w'. vm_compute in Hsent. injection Hsent as <-. vm_compute in Hixs. injection Hixs as <- <-.
      vm_compute. reflexivity. }
    destruct (Hnew genesis_ledger tt w') as (m & _ & Hh & Howner & _ & _ & Hproduct);
      [apply genesis_World_ok, genesis_ledger_genesis|exact Hrun|].
    exists tx, ix1, ix2, w', m. split; [exact Hsent|]. split; [exact Hixs|]. split; [exact Hrun|].
    split; [exact Hh|]. split; [exact Howner|].
    apply (Hproduct sample_product [([115; 121; 109; 98; 111; 108], [65])] []
             (replicate (pyth.PROD_ATTR_SIZE - 28) 0)).
    + vm_compute. reflexivity.
    + vm_compute. reflexivity.
    + constructor; [discriminate|constructor].
Defined.
