(* ===== verification/ClientModel.v ===== *)
(** * The liquidator's data

    [solend-liquidator/src/client_model.rs], [model.rs] and [constants.rs]: the
    configuration that the client downloads, the snapshot it keeps of a market,
    and the values it derives.  What the client calls outside the repository is
    the class [ClientSdk]; the answers of the node it talks to are a [Node]. *)

From stdpp Require Export strings.
From Stdlib Require Import Floats.SpecFloat.
From S2P Require Import Prelude Errors FixedPoint StateBase Reserve Obligation Solana Switchboard.
From S2P Require Import Oracle.

Open Scope Z_scope.

(** ** Errors

    [Box<dyn Error>] holds an error of either of the program's types, or the
    client's own [LiquidationAndRedeemError]. *)

Inductive LiquidationAndRedeemError : Type := ReservesAreNotIdentified.

Inductive BoxedError : Type :=
| BoxedLending (e : LendingError)
| BoxedProgram (e : ProgramError)
| BoxedLiquidation (e : LiquidationAndRedeemError).

Abbreviation boxed := (result BoxedError).

(** [?] on a [Result<_, ProgramError>] *)
Definition boxed_try {A} (m : outcome A) : boxed A := map_err BoxedProgram m.

(** ** 256-bit integers

    [construct_uint! { pub struct U256(4); }]: arithmetic panics on overflow. *)

Definition U256_from_i64 (z : Z) : boxed Z := if z <? 0 then Panic else Ok z.

Definition U256_mul (a b : Z) : boxed Z := unwrap (checked_mul 256 a b).

Definition U256_div (a b : Z) : boxed Z := unwrap (checked_div a b).

Definition U256_as_u64 (a : Z) : boxed Z := unwrap (narrow 64 a).

Definition wad : Z := 1000000000000000000.

(** [decimal.0.to_little_endian], [U256::from_little_endian] and the division *)
Definition decimal_to_u256 (decimal : Decimal) : Z :=
  of_le_bytes (le_bytes (8 * 3) (dec decimal)) / 1000000000000000000.

(** ** Configuration *)

Record LiquidityToken : Type := mkLiquidityToken {
  lt_coingecko_id : string;
  lt_decimals : Z;
  lt_logo : string;
  lt_mint : string;
  lt_name : string;
  lt_symbol : string;
  lt_volume24h : string;
}.

(** [user_supply_cap] and [user_borrow_cap], JSON values that no code reads, are
    left out. *)
Record Resef : Type := mkResef {
  rs_liquidity_token : LiquidityToken;
  rs_pyth_oracle : string;
  rs_switchboard_oracle : string;
  rs_address : string;
  rs_collateral_mint_address : string;
  rs_collateral_supply_address : string;
  rs_liquidity_address : string;
  rs_liquidity_fee_receiver_address : string;
}.

Record Market : Type := mkMarket {
  mk_name : string;
  mk_is_primary : bool;
  mk_description : option string;
  mk_creator : string;
  mk_address : string;
  mk_authority_address : string;
  mk_owner : string;
  mk_reserves : list Resef;
}.

Definition SolendConfig : Type := list Market.

(** ** The snapshot and what is derived from it *)

Record Enhanced (T : Type) : Type := mkEnhanced {
  e_inner : T;
  e_pubkey : Pubkey;
}.
Arguments mkEnhanced {T} _ _.
Arguments e_inner {T} _.
Arguments e_pubkey {T} _.

Record OracleData : Type := mkOracleData {
  od_symbol : string;
  od_reserve_address : Pubkey;
  od_mint_address : Pubkey;
  od_decimals : Z;
  od_price : Z;
}.

Record Borrow : Type := mkBorrow {
  b_borrow_reserve : Pubkey;
  b_borrow_amount_wads : Decimal;
  b_market_value : Decimal;
  b_mint_address : Pubkey;
  b_symbol : string;
}.

Record Deposit : Type := mkDeposit {
  d_deposit_reserve : Pubkey;
  d_deposit_amount : Z;
  d_market_value : Decimal;
  d_symbol : string;
}.

Record WalletBalanceData : Type := mkWalletBalanceData {
  wb_balance : Z;
  wb_symbol : string;
}.

(** [client.rs]: what the client knows of one market *)
Record MarketData : Type := mkMarketData {
  md_oracle_data : gmap Pubkey OracleData;
  md_obligations : gmap Pubkey (Enhanced Obligation);
  md_reserves : gmap Pubkey (Enhanced Reserve);
}.

(** ** Addresses *)

Definition SWITCHBOARD_V1_ADDRESS : Pubkey :=
  Eval vm_compute in declare_id "DtmE9D2CSB4L5D6A15mraeEjrGMm6auWVzgaD8hK2tZM".
Definition SWITCHBOARD_V2_ADDRESS : Pubkey :=
  Eval vm_compute in declare_id "SW1TCH7qEPTdLsDHRgPuMQjbQxKdH2aBStViMFnt64f".
Definition NULL_ORACLE : Pubkey :=
  Eval vm_compute in declare_id "nu11111111111111111111111111111111111111111".
Definition SOLEND_PROGRAM_ID : Pubkey :=
  Eval vm_compute in declare_id "So1endDq2YkqhipRh3WViPa8hdiSpxWy6z3Z6tMCpAo".

(** ** Code outside the repository *)

Class ClientSdk : Type := {
  (* Pubkey::from_str; [None] is its error *)
  pubkey_from_str : string → option Pubkey;
  (* spl_associated_token_account: the address, and the instruction for a funder,
     a wallet and a mint *)
  get_associated_token_address : Pubkey → Pubkey → Pubkey;
  create_associated_token_account : Pubkey → Pubkey → Pubkey → Instruction;
  (* pyth_sdk_solana::load_price_feed_from_account and the feed's current price *)
  pyth_current_price : Pubkey → AccountState → option Z;
  (* AggregatorState::try_from_slice *)
  aggregator_try_from_slice : list Z → option AggregatorState;
  (* rust_decimal's conversions behind TryInto<f64> for SwitchboardDecimal *)
  switchboard_decimal_to_f64 : SwitchboardDecimal → option spec_float;
  (* spl_token::state::Account::unpack, then its amount *)
  spl_token_amount : list Z → option Z;
  (* the order in which a HashSet yields its elements *)
  hash_set_into_iter : gset Pubkey → list Pubkey;
  (* whether the build checks the overflow of plain arithmetic: debug builds do,
     release builds wrap *)
  overflow_checks : bool;
}.

(** A HashSet yields every element once, in an order of its own. *)
Class ClientLaws `{ClientSdk} : Prop := {
  hash_set_into_iter_perm : ∀ X, hash_set_into_iter X ≡ₚ elements X;
}.

(** ** The node

    The answers that requests get, [None] for an error.  One value stands for one
    moment; every round of the client's loop sees another. *)
Record Node : Type := mkNode {
  (* get_account, get_account_data *)
  get_account : Pubkey → option AccountState;
  (* get_program_accounts_with_config, with its two filters: the owner, the
     bytes that the data holds at an offset, and the length of the data *)
  get_program_accounts : Pubkey → Z * list Z → Z → option (list (Pubkey * AccountState));
  get_latest_blockhash : option Z;
  (* send_transaction_with_config: whether it is accepted *)
  send_transaction : list Instruction → bool;
}.

(** [Pubkey::from_str(s).unwrap()] *)
Definition parse_pubkey `{ClientSdk} (s : string) : boxed Pubkey := unwrap (pubkey_from_str s).
