(* ===== verification/ClientFetch.v ===== *)
(** * The liquidator's requests

    The functions of [solend-liquidator/src/client.rs] that turn the answers of
    the node into the snapshot of a market.  Tasks that fill one map under a lock
    are folded in the order in which they are spawned; the keys that they insert
    are the addresses of different accounts.

    With a concrete environment: an executable instance of [ClientSdk] that
    satisfies [ClientLaws], and the configuration of the market on Testbed's
    ledger. *)

From stdpp Require Import gmap.
From Stdlib Require Import Ascii Floats.SpecFloat.
From S2P Require Import ClientModel.
From S2P Require Import Prelude Errors FixedPoint StateBase Reserve Obligation Codec Solana.
From S2P Require Import Switchboard Oracle Builders Testbed.

Open Scope Z_scope.

Module ClientFetch.
Section fetch.
Context `{Sdk} `{ClientSdk}.

(** ** Prices *)

(** [10i64.pow(exponent as u32)] *)
Definition pow10_i64 (exponent : Z) : boxed Z :=
  let power := 10 ^ (exponent mod 2 ^ 32) in
  if power <? 2 ^ 63 then Ok power
  else if overflow_checks then Panic
  else Ok (to_signed 64 (power mod 2 ^ 64)).

(** [f64 as u64] truncates and saturates. *)
Definition f64_as_u64 (f : spec_float) : Z := Z.min (f64_as_u128 f) (2 ^ 64 - 1).

Definition precision : spec_float := f64_of_Z (10 ^ 9).

(** [U256::from((result * precision) as u64).mul(decimals).div(precision as u64)] *)
Definition scaled_price (result : spec_float) (decimals : Z) : boxed Z :=
  factor ← U256_from_i64 decimals;
  product ← U256_mul (f64_as_u64 (f64_mul result precision)) factor;
  U256_div product (f64_as_u64 precision).

Definition switchboard_v1_price (info : AccountState) (decimals : Z) : boxed (option Z) :=
  match aggregator_try_from_slice (data info) with
  | None => mret None
  | Some aggregator =>
      round ← unwrap (ag_last_round_result aggregator);
      result ← unwrap (rr_result round);
      price ← scaled_price result decimals;
      mret (Some price)
  end.

Definition switchboard_v2_price (info : AccountState) (decimals : Z) : boxed (option Z) :=
  aggregator ← unwrap_result (AggregatorAccountData.new (data info));
  retrieved ← unwrap_result (AggregatorAccountData.get_result aggregator);
  retrieved ← unwrap (switchboard_decimal_to_f64 retrieved);
  price ← scaled_price retrieved decimals;
  mret (Some price).

Definition get_oracle_data (node : Node) (reserve : Resef) : boxed (option OracleData) :=
  price_address ← parse_pubkey (rs_pyth_oracle reserve);
  switchboard_feed_address ← parse_pubkey (rs_switchboard_oracle reserve);
  decimals ← pow10_i64 (lt_decimals (rs_liquidity_token reserve));
  price ←
    (if negb (price_address =? NULL_ORACLE) then
       result ← unwrap (get_account node price_address);
       price ← unwrap (pyth_current_price price_address result);
       price ← U256_from_i64 price;
       mret (Some price)
     else
       info ← unwrap (get_account node switchboard_feed_address);
       if owner info =? SWITCHBOARD_V1_ADDRESS then switchboard_v1_price info decimals
       else if owner info =? SWITCHBOARD_V2_ADDRESS then switchboard_v2_price info decimals
       else mret None);
  match price with
  | Some price =>
      reserve_address ← parse_pubkey (rs_address reserve);
      mint_address ← parse_pubkey (lt_mint (rs_liquidity_token reserve));
      price ← U256_as_u64 price;
      mret (Some (mkOracleData (lt_symbol (rs_liquidity_token reserve)) reserve_address mint_address
                    decimals price))
  | None => mret None
  end.

Definition get_token_oracle_data (node : Node) (market_reserves : list Resef) :
    boxed (gmap Pubkey OracleData) :=
  try_fold
    (λ result market_reserve,
      oracle_data ← get_oracle_data node market_reserve;
      mret (match oracle_data with
            | Some oracle_data => <[od_reserve_address oracle_data := oracle_data]> result
            | None => result
            end))
    ∅ market_reserves.

(** ** Accounts *)

(** [T::unpack(&account.data).unwrap()] *)
Definition unpack_or_panic (T : Type) `{Pack T} `{IsInitialized T} (bs : list Z) : boxed T :=
  unwrap_result (pack_unpack bs).

Definition get_obligation (node : Node) (data_pubkey : Pubkey) :
    boxed (option (Enhanced Obligation)) :=
  match get_account node data_pubkey with
  | Some account =>
      obligation ← unpack_or_panic Obligation (data account);
      mret (Some (mkEnhanced obligation data_pubkey))
  | None => mret None
  end.

Definition update_obligations (node : Node) (obligations : list Pubkey) :
    boxed (gmap Pubkey (Enhanced Obligation)) :=
  try_fold
    (λ result obligation_pubkey,
      account ← unwrap (get_account node obligation_pubkey);
      obligation ← unpack_or_panic Obligation (data account);
      mret (<[obligation_pubkey := mkEnhanced obligation obligation_pubkey]> result))
    ∅ obligations.

(** The memcmp filter: the data at offset 10 is the market's address. *)
Definition market_filter (market : Pubkey) : Z * list Z := (10, le_bytes 32 market).

(** The accounts of the program that belong to a market and have a given size,
    decoded; no account when the request fails. *)
Definition get_records (T : Type) `{Pack T} `{IsInitialized T} (node : Node)
    (market_address : string) (data_size : Z) : boxed (gmap Pubkey (Enhanced T)) :=
  market ← parse_pubkey market_address;
  match get_program_accounts node SOLEND_PROGRAM_ID (market_filter market) data_size with
  | None => mret ∅
  | Some encoded =>
      try_fold
        (λ result entry,
          record ← unpack_or_panic T (data entry.2);
          mret (<[entry.1 := mkEnhanced record entry.1]> result))
        ∅ encoded
  end.

Definition get_obligations (node : Node) (market_address : string) :
    boxed (gmap Pubkey (Enhanced Obligation)) :=
  get_records Obligation node market_address 1300.

Definition get_reserves (node : Node) (market_address : string) :
    boxed (gmap Pubkey (Enhanced Reserve)) :=
  get_records Reserve node market_address 619.

(** ** The wallet *)

Definition get_wallet_token_data (node : Node) (wallet_address mint_address : Pubkey)
    (symbol : string) : boxed (option WalletBalanceData) :=
  match get_account node (get_associated_token_address wallet_address mint_address) with
  | Some account =>
      amount ← unwrap (spl_token_amount (data account));
      mret (Some (mkWalletBalanceData amount symbol))
  | None => mret None
  end.

(** [get_or_create_account_data]: the address, and the transaction that it sends
    when the node does not know the account *)
Definition get_or_create_account_data (node : Node)
    (funding_address wallet_address spl_token_mint_address : Pubkey) :
    boxed (Pubkey * option (list Instruction)) :=
  let associated_token_address :=
    get_associated_token_address wallet_address spl_token_mint_address in
  match get_account node associated_token_address with
  | None =>
      let ix := create_associated_token_account funding_address wallet_address spl_token_mint_address in
      _recent_blockhash ← unwrap (get_latest_blockhash node);
      if send_transaction node [ix] then mret (associated_token_address, Some [ix]) else Panic
  | Some _ => mret (associated_token_address, None)
  end.

End fetch.
End ClientFetch.

(** ** A concrete client environment

    Addresses are written as decimal numerals. *)

Fixpoint numeral_from (acc : Z) (s : string) : option Z :=
  match s with
  | EmptyString => Some acc
  | String c s =>
      let digit := Z.of_nat (nat_of_ascii c) - 48 in
      if (0 <=? digit) && (digit <? 10) then numeral_from (10 * acc + digit) s else None
  end.

Definition test_from_str (s : string) : option Pubkey :=
  match s with
  | EmptyString => None
  | _ => numeral_from 0 s
  end.

Definition test_client : ClientSdk := {|
  pubkey_from_str := test_from_str;
  get_associated_token_address wallet mint := (wallet * 1000 + mint) mod 2 ^ 256;
  create_associated_token_account funder wallet mint :=
    mkInstruction 2000 [meta_new funder true; meta_new wallet false; meta_new_readonly mint false] [];
  pyth_current_price _ _ := Some 30;
  aggregator_try_from_slice _ := None;
  switchboard_decimal_to_f64 _ := None;
  spl_token_amount bs := match test_token_amount bs with Ok n => Some n | _ => None end;
  hash_set_into_iter X := elements X;
  overflow_checks := true;
|}.

#[export] Instance test_client_laws : ClientLaws (H := test_client).
Proof. by split. Qed.

(** The market 9 with its reserves 31, 32 and 33 *)
Definition sample_resef (symbol mint address : string) : Resef :=
  mkResef (mkLiquidityToken symbol 6 symbol mint symbol symbol symbol) "16" "16" address "15" "16" "60" "61".

Definition sample_config_market : Market :=
  mkMarket "main" true None "21" "9" "12345" "21"
    [sample_resef "SOL" "131" "31"; sample_resef "BTC" "132" "32"; sample_resef "USDC" "133" "33"].
