(* ===== verification/ClientSnapshot.v ===== *)
(** * What the liquidator's snapshot holds

    Theorems about ClientFetch: when the node answers with the accounts of one
    ledger, the client's requests return exactly the records of the market, and
    the prices it keeps are labelled by the market's configuration. *)

From stdpp Require Import gmap.
From Stdlib Require Import Floats.SpecFloat.
From S2P Require Import ClientModel.
From S2P Require Import Prelude Errors FixedPoint StateBase Reserve Obligation Codec Solana.
From S2P Require Import Oracle ProcessorFacts ProcessorInvariant HandlerFacts Testbed TestbedFacts.
From S2P Require Import ClientFetch.

(** ** A node that answers with one ledger *)

Definition matches_filter (filter : Z * list Z) (bs : list Z) : Prop :=
  take (length filter.2) (drop (Z.to_nat filter.1) bs) = filter.2.

#[export] Instance matches_filter_dec filter bs : Decision (matches_filter filter bs).
Proof. unfold matches_filter. apply _. Defined.

Record answers (node : Node) (w : World) : Prop := {
  ans_account : ∀ k, get_account node k = accounts w !! k;
  ans_program : ∀ program_id filter size, ∃ l,
    get_program_accounts node program_id filter size = Some l ∧ NoDup l.*1 ∧
    ∀ k a, (k, a) ∈ l ↔
      accounts w !! k = Some a ∧ owner a = program_id ∧
      matches_filter filter (data a) ∧ Z.of_nat (length (data a)) = size;
}.

Definition node_of (w : World) : Node := {|
  get_account k := accounts w !! k;
  get_program_accounts program_id filter size :=
    Some (base.filter (λ ka, owner ka.2 = program_id ∧ matches_filter filter (data ka.2) ∧
                   Z.of_nat (length (data ka.2)) = size)
            (map_to_list (accounts w)));
  get_latest_blockhash := Some 0;
  send_transaction _ := true;
|}.

Lemma node_of_answers w : answers (node_of w) w.
Proof.
  split; [done|]. intros program_id f size. eexists. split; [reflexivity|]. split.
  - eapply sublist_NoDup; [apply (NoDup_fst_map_to_list (accounts w))|].
    apply fmap_sublist, sublist_filter.
  - intros k a. rewrite list_elem_of_filter, elem_of_map_to_list. cbn. tauto.
Qed.

(** ** The filter on the market *)

(** Records that keep their market at the offset of the filter *)
Class MarketRecord (T : Type) `{Pack T} : Type := {
  market_of : T → Pubkey;
  market_of_unpack : ∀ bs a, unpack_from_slice bs = Ok a →
    market_of a = of_le_bytes (take 32 (drop 10 bs));
}.

#[export] Program Instance reserve_market : MarketRecord Reserve := {| market_of := r_lending_market |}.
Next Obligation.
  intros bs r. cbn. unfold ReserveCodec.unpack_from_slice. case_match; [done|]. case_match; [done|].
  intros (st & _ & [= <-])%bind_Ok. cbn [r_lending_market]. unfold array_refs, seg. cbn [ReserveCodec.layout nth].
  by rewrite !drop_drop.
Qed.

#[export] Program Instance obligation_market : MarketRecord Obligation :=
  {| market_of := o_lending_market |}.
Next Obligation.
  intros bs o. cbn. unfold ObligationCodec.unpack_from_slice. case_match; [done|]. case_match; [done|].
  intros ([ds flat] & _ & ([ls flat'] & _ & (st & _ & [= <-])%bind_Ok)%bind_Ok)%bind_Ok.
  cbn [o_lending_market]. unfold array_refs, seg. cbn [ObligationCodec.layout nth].
  by rewrite !drop_drop.
Qed.

(** The filter selects the records of the market. *)
Lemma market_filter_spec market bs :
  is_key market → Forall is_byte bs → (42 ≤ length bs)%nat →
  matches_filter (ClientFetch.market_filter market) bs ↔ of_le_bytes (take 32 (drop 10 bs)) = market.
Proof.
  intros Hm Hb Hl. unfold matches_filter, ClientFetch.market_filter. cbn [fst snd].
  rewrite length_le_bytes. change (Z.to_nat 10) with 10%nat. split.
  - intros ->. by apply of_le_bytes_le_bytes.
  - intros <-. set (s := take 32 (drop 10 bs)).
    assert (length s = 32%nat) as Hs by (unfold s; rewrite length_take, length_drop; lia).
    rewrite <- Hs at 1. symmetry. apply le_bytes_of_le_bytes. by apply Forall_take, Forall_drop.
Qed.

(** ** The records of a market *)

Section records.
Context `{S : Sdk} `{C : !ClientSdk} `{L : !SdkLaws SOLEND_PROGRAM_ID}.
Context (T : Type) `{!Pack T} `{!IsInitialized T} `{M : !MarketRecord T}.
Context (node : Node) (w : World) (Hans : answers node w).
Context (Hbytes : ∀ k, Forall is_byte (data (account_of w k))).
Implicit Types (k market : Pubkey) (a : T).

(** A record of the market, at an address *)
Definition market_record market k a : Prop :=
  holds SOLEND_PROGRAM_ID T w k a ∧ market_of a = market.

Lemma account_of_Some k acc : accounts w !! k = Some acc → account_of w k = acc.
Proof. unfold account_of. by intros ->. Qed.

Lemma stored_account k a :
  (42 ≤ LEN T)%nat → stored T w k a → accounts w !! k = Some (account_of w k).
Proof.
  intros Hlen (Hl & _). unfold account_of in *. destruct (accounts w !! k); [done|].
  cbn in Hl. lia.
Qed.

Lemma unpack_or_panic_stored k acc a :
  accounts w !! k = Some acc →
  ClientFetch.unpack_or_panic T (data acc) = Ok a ↔ stored T w k a.
Proof.
  intros Hk. unfold ClientFetch.unpack_or_panic, stored.
  by rewrite unwrap_result_Ok, (pack_unpack_Ok SOLEND_PROGRAM_ID), (account_of_Some k acc Hk).
Qed.

Definition decode_entry (entry : Pubkey * AccountState) : boxed (Enhanced T) :=
  a ← ClientFetch.unpack_or_panic T (data entry.2); mret (mkEnhanced a entry.1).

(** What the filters select *)
Definition selected market (l : list (Pubkey * AccountState)) : Prop :=
  NoDup l.*1 ∧ ∀ k acc, (k, acc) ∈ l ↔ accounts w !! k = Some acc ∧ owned SOLEND_PROGRAM_ID w k ∧
    length (data (account_of w k)) = LEN T ∧
    of_le_bytes (take 32 (drop 10 (data (account_of w k)))) = market.

Lemma get_records_eq market_address market :
  (42 ≤ LEN T)%nat → is_key market → pubkey_from_str market_address = Some market →
  ∃ l, selected market l ∧
    ClientFetch.get_records T node market_address (Z.of_nat (LEN T))
    = try_fold (λ m entry, e ← decode_entry entry; mret (<[entry.1 := e]> m)) ∅ l.
Proof.
  intros Hlen Hmk Hparse. unfold ClientFetch.get_records, parse_pubkey. rewrite Hparse.
  cbn [unwrap mbind result_bind].
  destruct (ans_program node w Hans SOLEND_PROGRAM_ID (ClientFetch.market_filter market)
              (Z.of_nat (LEN T))) as (l & -> & Hnd & Hl).
  exists l. split; [split; [exact Hnd|]|].
  - intros k acc. rewrite Hl. unfold owned. pose proof (Hbytes k) as Hb. split.
    + intros (Ha & Ho & Hf & Hsz). apply Nat2Z.inj in Hsz. rewrite (account_of_Some k acc Ha) in *.
      split_and!; [done..|]. apply market_filter_spec; [done..|lia|done].
    + intros (Ha & Ho & Hsz & Hm). rewrite (account_of_Some k acc Ha) in *.
      split_and!; [done..| |by rewrite Hsz]. apply market_filter_spec; [done..|lia|done].
  - apply try_fold_ext. intros m1 entry. unfold decode_entry.
    by destruct (ClientFetch.unpack_or_panic _ _).
Qed.

(** When the request succeeds, it returns the records of the market. *)
Lemma get_records_exact market_address market m :
  (42 ≤ LEN T)%nat → is_key market → pubkey_from_str market_address = Some market →
  ClientFetch.get_records T node market_address (Z.of_nat (LEN T)) = Ok m →
  ∀ k e, m !! k = Some e ↔ e_pubkey e = k ∧ market_record market k (e_inner e).
Proof.
  intros Hlen Hmk Hparse Hm.
  destruct (get_records_eq market_address market Hlen Hmk Hparse) as (l & [Hnd Hl] & E). rewrite E in Hm.
  apply try_fold_insert in Hm as [Hin Hout]; [|done].
  intros k e. split.
  - intros Hk. destruct (decide (k ∈ l.*1)) as [Hkl|]; [|by rewrite Hout, lookup_empty in Hk].
    apply list_elem_of_fmap in Hkl as ([k' acc] & -> & Hkl).
    destruct (Hin _ Hkl) as (e' & He' & Hm'). cbn [fst] in *. rewrite Hm' in Hk. injection Hk as ->.
    apply Hl in Hkl as (Hacc & Ho & _ & Hmk').
    apply bind_Ok in He' as (a & Ha & [= <-]). apply (unpack_or_panic_stored k' acc a Hacc) in Ha.
    split; [done|]. split; [by split|]. by rewrite (market_of_unpack _ _ (proj1 (proj2 Ha))).
  - intros (<- & (Ho & Hs) & Hmk'). pose proof (stored_account _ _ Hlen Hs) as Hacc.
    assert (Hkl : (e_pubkey e, account_of w (e_pubkey e)) ∈ l).
    { apply Hl. destruct Hs as (Hsz & Hu & _). split_and!; [done..|]. by rewrite <- (market_of_unpack _ _ Hu). }
    destruct (Hin _ Hkl) as (e' & He' & Hm'). unfold decode_entry in He'. cbn [fst snd] in He', Hm'.
    rewrite Hm'.
    rewrite (proj2 (unpack_or_panic_stored _ _ _ Hacc) Hs) in He'. injection He' as <-. by destruct e.
Qed.

(** Every account that the filters select is a record of the market. *)
Definition all_decode market : Prop :=
  ∀ k, owned SOLEND_PROGRAM_ID w k → length (data (account_of w k)) = LEN T →
    of_le_bytes (take 32 (drop 10 (data (account_of w k)))) = market → ∃ a, stored T w k a.

Lemma get_records_is_Ok market_address market :
  (42 ≤ LEN T)%nat → is_key market → pubkey_from_str market_address = Some market →
  all_decode market → is_Ok (ClientFetch.get_records T node market_address (Z.of_nat (LEN T))).
Proof.
  intros Hlen Hmk Hparse Hall.
  destruct (get_records_eq market_address market Hlen Hmk Hparse) as (l & [_ Hl] & ->).
  apply try_fold_is_Ok. intros m [k acc] (Hk & Ho & Hsz & Hm)%Hl. destruct (Hall k Ho Hsz Hm) as [a Ha].
  unfold decode_entry. cbn [fst snd]. rewrite (proj2 (unpack_or_panic_stored k acc a Hk) Ha). by eexists.
Qed.

End records.

Lemma obligation_len : (42 ≤ LEN Obligation)%nat.
Proof. cbn. unfold ObligationCodec.OBLIGATION_LEN. lia. Qed.

Lemma reserve_len : (42 ≤ LEN Reserve)%nat.
Proof. cbn. unfold ReserveCodec.RESERVE_LEN. lia. Qed.

(** ** Snapshots are keyed by address *)

Definition keyed {T} (m : gmap Pubkey (Enhanced T)) : Prop := ∀ k e, m !! k = Some e → e_pubkey e = k.

Lemma keyed_empty {T} : keyed (T := T) ∅.
Proof. intros k e. by rewrite lookup_empty. Qed.

Lemma keyed_insert {T} (m : gmap Pubkey (Enhanced T)) e : keyed m → keyed (<[e_pubkey e := e]> m).
Proof.
  intros Hm k e'. destruct (decide (e_pubkey e = k)) as [<-|].
  - rewrite lookup_insert_eq. by intros [= <-].
  - rewrite lookup_insert_ne by done. apply Hm.
Qed.

Lemma get_records_keyed `{Sdk} `{ClientSdk} (T : Type) `{!Pack T} `{!IsInitialized T} node addr size m :
  ClientFetch.get_records T node addr size = Ok m → keyed m.
Proof.
  unfold ClientFetch.get_records. intros (k & _ & Hrun)%bind_Ok.
  destruct (get_program_accounts _ _ _ _) as [l|]; [|injection Hrun as <-; apply keyed_empty].
  pattern m. apply (try_fold_ind _ _ _ _ _ Hrun); [apply keyed_empty|].
  intros m1 entry m2 _ Hm1 (a & _ & [= <-])%bind_Ok. by apply (keyed_insert m1 (mkEnhanced a entry.1)).
Qed.

Lemma update_obligations_keyed `{Sdk} node ks m :
  ClientFetch.update_obligations node ks = Ok m → keyed m.
Proof.
  intros Hrun. pattern m. apply (try_fold_ind _ _ _ _ _ Hrun); [apply keyed_empty|].
  intros m1 k m2 _ Hm1 (acc & _ & (o & _ & [= <-])%bind_Ok)%bind_Ok.
  by apply (keyed_insert m1 (mkEnhanced o k)).
Qed.

(** ** Obligations that are known already *)

Section known.
Context `{S : Sdk} `{C : !ClientSdk} `{L : !SdkLaws SOLEND_PROGRAM_ID}.
Context (node : Node) (w : World) (Hans : answers node w).
Implicit Types (k : Pubkey) (ks : list Pubkey).

Definition fetch_known k : boxed (Enhanced Obligation) :=
  account ← unwrap (get_account node k);
  obligation ← ClientFetch.unpack_or_panic Obligation (data account);
  mret (mkEnhanced obligation k).

Lemma fetch_known_Ok k e :
  fetch_known k = Ok e ↔ e_pubkey e = k ∧ stored Obligation w k (e_inner e).
Proof.
  unfold fetch_known. rewrite (ans_account node w Hans). split.
  - intros (acc & Hacc%unwrap_Ok & Hrun)%bind_Ok. apply bind_Ok in Hrun as (o & Ho & [= <-]).
    split; [done|]. by apply (unpack_or_panic_stored Obligation w k acc).
  - intros (<- & Hs).
    pose proof (stored_account Obligation w _ _ obligation_len Hs) as Hacc. rewrite Hacc.
    cbn [unwrap mbind result_bind].
    rewrite (proj2 (unpack_or_panic_stored Obligation w _ _ _ Hacc) Hs). cbn. by destruct e.
Qed.

Lemma update_obligations_eq ks :
  ClientFetch.update_obligations node ks
  = try_fold (λ (m : gmap Pubkey (Enhanced Obligation)) k, e ← fetch_known k; mret (<[k := e]> m)) ∅ ks.
Proof.
  apply try_fold_ext. intros m k. unfold fetch_known. destruct (unwrap (get_account node k)); [|done..].
  cbn [mbind result_bind]. by destruct (ClientFetch.unpack_or_panic _ _).
Qed.

(** Whatever the node answers, the same keys come back. *)
Lemma update_obligations_dom ks m :
  NoDup ks → ClientFetch.update_obligations node ks = Ok m → dom m = list_to_set ks.
Proof.
  intros Hd Hm. rewrite update_obligations_eq in Hm.
  apply try_fold_insert in Hm as [Hin Hout]; [|by rewrite list_fmap_id].
  rewrite list_fmap_id in Hout. apply set_eq. intros k. rewrite elem_of_dom, elem_of_list_to_set. split.
  - intros [e He]. destruct (decide (k ∈ ks)) as [|Hk]; [done|]. by rewrite Hout, lookup_empty in He.
  - intros Hk. destruct (Hin k Hk) as (e & _ & He). by exists e.
Qed.

Lemma update_obligations_exact ks m :
  NoDup ks → ClientFetch.update_obligations node ks = Ok m →
  ∀ k e, m !! k = Some e ↔ k ∈ ks ∧ e_pubkey e = k ∧ stored Obligation w k (e_inner e).
Proof.
  intros Hd Hm. rewrite update_obligations_eq in Hm.
  apply try_fold_insert in Hm as [Hin Hout]; [|by rewrite list_fmap_id].
  rewrite list_fmap_id in Hout. intros k e. split.
  - intros Hk. destruct (decide (k ∈ ks)) as [Hkk|]; [|by rewrite Hout, lookup_empty in Hk].
    destruct (Hin k Hkk) as (e' & He' & Hm'). rewrite Hm' in Hk. injection Hk as ->.
    split; [done|]. by apply fetch_known_Ok.
  - intros (Hk & He). destruct (Hin k Hk) as (e' & He' & ->).
    apply (fetch_known_Ok k e) in He. congruence.
Qed.

Lemma update_obligations_is_Ok ks :
  (∀ k, k ∈ ks → ∃ o, stored Obligation w k o) → is_Ok (ClientFetch.update_obligations node ks).
Proof.
  intros Hks. rewrite update_obligations_eq. apply try_fold_is_Ok. intros m k (o & Ho)%Hks.
  rewrite (proj2 (fetch_known_Ok k (mkEnhanced o k)) (conj eq_refl Ho)). by eexists.
Qed.

End known.

(** ** Prices *)

Section prices.
Context `{S : Sdk} `{C : !ClientSdk}.

(** An entry of the prices is labelled as the configuration labels the reserve. *)
Definition labelled_by (reserve : Resef) (od : OracleData) : Prop :=
  od_symbol od = lt_symbol (rs_liquidity_token reserve) ∧
  pubkey_from_str (rs_address reserve) = Some (od_reserve_address od) ∧
  pubkey_from_str (lt_mint (rs_liquidity_token reserve)) = Some (od_mint_address od).

Lemma get_oracle_data_labelled node reserve od :
  ClientFetch.get_oracle_data node reserve = Ok (Some od) → labelled_by reserve od.
Proof.
  unfold ClientFetch.get_oracle_data, parse_pubkey.
  intros (a & _ & (b & _ & (c & _ & (price & _ & Hrun)%bind_Ok)%bind_Ok)%bind_Ok)%bind_Ok.
  destruct price as [price|]; [|done].
  apply bind_Ok in Hrun as (k & Hk%unwrap_Ok & Hrun).
  apply bind_Ok in Hrun as (mint & Hmint%unwrap_Ok & Hrun).
  apply bind_Ok in Hrun as (p & _ & [= <-]). by split.
Qed.

Lemma get_token_oracle_data_lookup node reserves m k od :
  ClientFetch.get_token_oracle_data node reserves = Ok m → m !! k = Some od →
  ∃ reserve, reserve ∈ reserves ∧ labelled_by reserve od ∧ od_reserve_address od = k.
Proof.
  intros Hm. revert k od. pattern m. apply (try_fold_ind _ _ _ _ _ Hm).
  - intros k od. by rewrite lookup_empty.
  - intros m1 reserve m2 Hin IH Hrun k od.
    apply bind_Ok in Hrun as (o & Ho & [= <-]).
    destruct o as [od'|]; [|by apply IH].
    destruct (decide (od_reserve_address od' = k)) as [<-|Hne].
    + rewrite lookup_insert_eq. intros [= <-]. exists reserve. split; [done|]. split; [|done].
      by eapply get_oracle_data_labelled.
    + rewrite lookup_insert_ne by done. apply IH.
Qed.

End prices.

(** ** Properties *)

(** C23: the snapshot is exact.  When the node answers with one ledger and every
    account of the program that has the size of a record and names the market is
    a record, the client's requests succeed, without a panic, and return exactly
    the market's obligations and exactly its reserves, each under its address;
    refreshing the obligations that are known returns the same. *)
Theorem snapshot_is_exact `{S : Sdk} `{C : ClientSdk} `{L : !SdkLaws SOLEND_PROGRAM_ID}
    (node : Node) (w : World) (market_address : string) (market : Pubkey)
    (Hans : answers node w) (Hbytes : ∀ k, Forall is_byte (data (account_of w k)))
    (Hparse : pubkey_from_str market_address = Some market) (Hmarket : is_key market)
    (Hr : all_decode Reserve w market) (Ho : all_decode Obligation w market) :
  ∃ obligations reserves,
    ClientFetch.get_obligations node market_address = Ok obligations ∧
    ClientFetch.get_reserves node market_address = Ok reserves ∧
    ClientFetch.update_obligations node (elements (dom obligations)) = Ok obligations ∧
    (∀ k e, obligations !! k = Some e ↔
       e_pubkey e = k ∧ market_record Obligation w market k (e_inner e)) ∧
    (∀ k e, reserves !! k = Some e ↔
       e_pubkey e = k ∧ market_record Reserve w market k (e_inner e)).
Proof.
  destruct (get_records_is_Ok Obligation node w Hans Hbytes market_address market obligation_len) as [os Hos];
    [done..|].
  destruct (get_records_is_Ok Reserve node w Hans Hbytes market_address market reserve_len) as [rs Hrs];
    [done..|].
  pose proof (get_records_exact Obligation node w Hans Hbytes _ _ _ obligation_len Hmarket Hparse Hos) as Hose.
  pose proof (get_records_exact Reserve node w Hans Hbytes _ _ _ reserve_len Hmarket Hparse Hrs) as Hrse.
  destruct (update_obligations_is_Ok node w Hans (elements (dom os))) as [us Hus].
  - intros k [e He]%elem_of_elements%elem_of_dom. apply Hose in He as (_ & (_ & Hs) & _). eauto.
  - exists os, rs. split; [exact Hos|]. split; [exact Hrs|]. split; [|by split].
    pose proof (update_obligations_exact node w Hans _ _ (NoDup_elements _) Hus) as Huse.
    rewrite Hus. f_equal. apply map_eq. intros k. apply option_eq. intros e.
    rewrite Huse, elem_of_elements, elem_of_dom. split.
    + intros ([e' He'] & He & Hs). rewrite He'. f_equal.
      apply Hose in He' as (Hk' & (_ & Hs') & _). destruct e, e'; cbn in *. f_equal; [|congruence].
      eapply stored_inj; done.
    + intros He. split; [by eexists|]. apply Hose in He as (Hk & (_ & Hs) & _). done.
Qed.

#[local] Existing Instance test_sdk.
#[local] Existing Instance test_client.

(** [all_decode] as a test of every account *)
Definition decodes (T : Type) `{Pack T} `{IsInitialized T} (a : AccountState) : bool :=
  negb (length (data a) =? LEN T)%nat ||
  match unpack_from_slice (data a) with Ok x => is_initialized x | _ => false end.

Lemma all_decode_intro T `{Pack T} `{IsInitialized T} w market :
  (0 < LEN T)%nat → forallb (λ ka, decodes T ka.2) (map_to_list (accounts w)) = true →
  all_decode T w market.
Proof.
  intros Hlen Hall k _ Hl _. unfold stored, account_of in *.
  destruct (accounts w !! k) as [a|] eqn:E; cbn [from_option id default data length] in *; [|lia].
  rewrite forallb_forall in Hall. specialize (Hall (k, a)).
  rewrite <- list_elem_of_In, elem_of_map_to_list in Hall. specialize (Hall E).
  unfold decodes in Hall. cbn [snd] in Hall. rewrite Hl, Nat.eqb_refl in Hall. cbn [negb orb] in Hall.
  destruct (unpack_from_slice (data a)) as [x| |]; [|done..]. by exists x.
Qed.

Lemma snapshot_is_exact_witness :
  ∃ obligations reserves,
    ClientFetch.get_obligations (node_of ledger) "9" = Ok obligations ∧
    ClientFetch.get_reserves (node_of ledger) "9" = Ok reserves ∧
    (∀ k e, reserves !! k = Some e ↔ e_pubkey e = k ∧ market_record Reserve ledger 9 k (e_inner e)).
Proof.
  destruct (snapshot_is_exact (node_of ledger) ledger "9" 9) as (os & rs & Ho & Hr & _ & _ & Hex).
  - apply node_of_answers.
  - intros k. apply (wo_bytes solend_program_id ledger ledger_ok).
  - reflexivity.
  - split; vm_compute; congruence.
  - apply all_decode_intro; [cbn; unfold ReserveCodec.RESERVE_LEN; lia|vm_compute; reflexivity].
  - apply all_decode_intro; [cbn; unfold ObligationCodec.OBLIGATION_LEN; lia|vm_compute; reflexivity].
  - exists os, rs. split; [exact Ho|]. split; [exact Hr|]. exact Hex.
Defined.
