(* ===== verification/ClientRefresh.v ===== *)
(** * The liquidator's valuation of an obligation

    [solend-liquidator/src/binding.rs]: the client's own copy of the program's
    refresh, over its snapshot of the reserves, and the theorem that the two
    agree. *)

From S2P Require Import Prelude Errors FixedPoint StateBase LendingMarket Reserve.
From S2P Require Import ReserveFacts LoanFacts Obligation ObligationFacts Codec Solana Oracle.
From S2P Require Import ProcessorBase ProcessorFacts ProcessorInvariant ProcessorReserve.
From S2P Require Import ProcessorObligation RefreshFacts HandlerFacts ProcessorSafety.
From S2P Require Import RefreshSafety Testbed TestbedFacts ClientModel.

Module binding.

(** [tokens_oracle.get(..)], [all_reserves.get(..)] with their early returns *)
Definition lookup_or_invalid {A} (m : gmap Pubkey A) (k : Pubkey) : boxed A :=
  ok_or (BoxedLending InvalidAccountInput) (m !! k).

Definition decimals_of (reserve : Reserve) : boxed Z :=
  ok_or (BoxedLending MathOverflow) (checked_pow 64 10 (rl_mint_decimals (r_liquidity reserve))).

Definition deposit_market_value (deposit_reserve : Reserve) (collateral : ObligationCollateral) :
    boxed Decimal :=
  decimals ← decimals_of deposit_reserve;
  rate ← boxed_try (Reserve.collateral_exchange_rate deposit_reserve);
  liquidity ← boxed_try (CollateralExchangeRate.decimal_collateral_to_liquidity rate
                           (Decimal.from_u64 (deposited_amount collateral)));
  priced ← boxed_try (try_mul liquidity (rl_market_price (r_liquidity deposit_reserve)));
  boxed_try (try_div priced decimals).

Definition borrow_market_value (borrow_reserve : Reserve) (liquidity : ObligationLiquidity) :
    boxed Decimal :=
  decimals ← decimals_of borrow_reserve;
  priced ← boxed_try (try_mul (ol_borrowed_amount_wads liquidity)
                        (rl_market_price (r_liquidity borrow_reserve)));
  boxed_try (try_div priced decimals).

(** The running sums of the first loop *)
Record Values : Type := mkValues {
  deposited_value : Decimal;
  allowed_borrow_value : Decimal;
  unhealthy_borrow_value : Decimal;
}.

Definition add_deposit (values : Values) (config : ReserveConfig) (market_value : Decimal) :
    boxed Values :=
  let loan_to_value_rate := Rate.from_percent (loan_to_value_ratio config) in
  let liquidation_threshold_rate := Rate.from_percent (liquidation_threshold config) in
  deposited ← boxed_try (try_add (deposited_value values) market_value);
  allowed ← boxed_try (try_mul market_value loan_to_value_rate);
  allowed ← boxed_try (try_add (allowed_borrow_value values) allowed);
  unhealthy ← boxed_try (try_mul market_value liquidation_threshold_rate);
  unhealthy ← boxed_try (try_add (unhealthy_borrow_value values) unhealthy);
  mret (mkValues deposited allowed unhealthy).

Section loops.
Context (all_reserves : gmap Pubkey (Enhanced Reserve)) (tokens_oracle : gmap Pubkey OracleData).

(** The loop over [obligation.deposits], which it updates in place *)
Fixpoint refresh_deposits (entries : list ObligationCollateral) (values : Values) :
    boxed (list ObligationCollateral * list Deposit * Values) :=
  match entries with
  | [] => mret ([], [], values)
  | collateral :: entries =>
      reserve ← lookup_or_invalid all_reserves (deposit_reserve collateral);
      token_oracle ← lookup_or_invalid tokens_oracle (deposit_reserve collateral);
      market_value ← deposit_market_value (e_inner reserve) collateral;
      values ← add_deposit values (r_config (e_inner reserve)) market_value;
      '(entries, deposits, values) ← refresh_deposits entries values;
      mret (ObligationCollateral.with_market_value collateral market_value :: entries,
            mkDeposit (deposit_reserve collateral) (deposited_amount collateral) market_value
              (od_symbol token_oracle) :: deposits,
            values)
  end.

(** The loop over [obligation.borrows] *)
Fixpoint refresh_borrows (entries : list ObligationLiquidity) (borrowed_value : Decimal) :
    boxed (list ObligationLiquidity * list Borrow * Decimal) :=
  match entries with
  | [] => mret ([], [], borrowed_value)
  | liquidity :: entries =>
      token_oracle ← lookup_or_invalid tokens_oracle (borrow_reserve liquidity);
      reserve ← lookup_or_invalid all_reserves (borrow_reserve liquidity);
      liquidity ←
        boxed_try (ObligationLiquidity.accrue_interest liquidity
                     (rl_cumulative_borrow_rate_wads (r_liquidity (e_inner reserve))));
      market_value ← borrow_market_value (e_inner reserve) liquidity;
      borrowed_value ← boxed_try (try_add borrowed_value market_value);
      '(entries, borrows, borrowed_value) ← refresh_borrows entries borrowed_value;
      mret (ObligationLiquidity.with_market_value liquidity market_value :: entries,
            mkBorrow (borrow_reserve liquidity) (ol_borrowed_amount_wads liquidity) market_value
              (od_mint_address token_oracle) (od_symbol token_oracle) :: borrows,
            borrowed_value)
  end.

Definition refresh_obligation (enhanced_obligation : Enhanced Obligation) :
    boxed (Obligation * list Deposit * list Borrow) :=
  let obligation := e_inner enhanced_obligation in
  '(collaterals, deposits, values) ←
    refresh_deposits (o_deposits obligation) (mkValues Decimal.zero Decimal.zero Decimal.zero);
  '(liquidities, borrows, borrowed_value) ← refresh_borrows (o_borrows obligation) Decimal.zero;
  let obligation := Obligation.with_entries obligation collaterals liquidities in
  mret (Obligation.with_values obligation (deposited_value values) borrowed_value
          (allowed_borrow_value values) (unhealthy_borrow_value values), deposits, borrows).

End loops.
End binding.

(** ** The client's steps and the program's *)

Lemma boxed_try_Ok {A} (m : outcome A) a : boxed_try m = Ok a ↔ m = Ok a.
Proof. apply map_err_Ok. Qed.

Lemma lookup_or_invalid_Ok {A} (m : gmap Pubkey A) k a :
  binding.lookup_or_invalid m k = Ok a ↔ m !! k = Some a.
Proof. apply ok_or_Ok. Qed.

Lemma decimals_of_Ok r n :
  binding.decimals_of r = Ok n ↔
  ok_or_overflow (checked_pow 64 10 (rl_mint_decimals (r_liquidity r))) = Ok n.
Proof. unfold binding.decimals_of. by rewrite ok_or_Ok, ok_or_overflow_Ok. Qed.

(** Relates a run of the client's copy to a run of the program's definition,
    step by step: the results agree, the errors are boxed. *)
Ltac same_steps :=
  repeat (setoid_rewrite bind_Ok || setoid_rewrite boxed_try_Ok || setoid_rewrite decimals_of_Ok).

Lemma deposit_market_value_agrees r c v :
  binding.deposit_market_value r c = Ok v ↔ deposit_market_value r c = Ok v.
Proof. unfold binding.deposit_market_value, deposit_market_value. by same_steps. Qed.

Lemma borrow_market_value_agrees r l v :
  binding.borrow_market_value r l = Ok v ↔ borrow_market_value r l = Ok v.
Proof. unfold binding.borrow_market_value, borrow_market_value. by same_steps. Qed.

Definition program_values (v : binding.Values) : DepositValues :=
  mkDepositValues (binding.deposited_value v) (binding.allowed_borrow_value v)
    (binding.unhealthy_borrow_value v).

Definition client_values (v : DepositValues) : binding.Values :=
  binding.mkValues (dv_deposited v) (dv_allowed v) (dv_unhealthy v).

(** A step that both take: the client only boxes its error. *)
Ltac same_step :=
  match goal with
  | |- context [boxed_try ?m] => is_step m; destruct m as [?|?|]; cbn; try done
  end
with is_step m := lazymatch m with _ ≫= _ => fail | _ => idtac end.

Lemma add_deposit_agrees v config mv :
  binding.add_deposit (client_values v) config mv =
  client_values <$> boxed_try (add_deposit_value v config mv).
Proof.
  unfold binding.add_deposit, add_deposit_value. cbn [binding.deposited_value
    binding.allowed_borrow_value binding.unhealthy_borrow_value client_values].
  repeat same_step.
Qed.

(** ** Agreement *)

Section agreement.
Context `{S : Sdk} (program_id : Pubkey) `{L : !SdkLaws program_id}.
Context (all_reserves : gmap Pubkey (Enhanced Reserve)) (tokens_oracle : gmap Pubkey OracleData).
Implicit Types (w : World) (clock : Clock).

(** The snapshot holds the reserve at [k] as the chain does, and a price source
    for it. *)
Definition sees w (k : Pubkey) : Prop :=
  ∃ e od, all_reserves !! k = Some e ∧ tokens_oracle !! k = Some od ∧
    holds program_id Reserve w k (e_inner e).

(** What the client lists for an entry, besides its refreshed record *)
Definition deposit_listed (c : ObligationCollateral) (d : Deposit) : Prop :=
  d_deposit_reserve d = deposit_reserve c ∧ d_deposit_amount d = deposited_amount c ∧
  d_market_value d = oc_market_value c ∧ od_symbol <$> tokens_oracle !! deposit_reserve c = Some (d_symbol d).

Definition borrow_listed (l : ObligationLiquidity) (b : Borrow) : Prop :=
  b_borrow_reserve b = borrow_reserve l ∧ b_borrow_amount_wads b = ol_borrowed_amount_wads l ∧
  b_market_value b = ol_market_value l ∧
  (λ od, (od_mint_address od, od_symbol od)) <$> tokens_oracle !! borrow_reserve l
    = Some (b_mint_address b, b_symbol b).

Lemma sees_reserve w k r : sees w k → holds program_id Reserve w k r →
  ∃ e od, all_reserves !! k = Some e ∧ tokens_oracle !! k = Some od ∧ e_inner e = r.
Proof.
  intros (e & od & He & Hod & Hh) Hr. exists e, od. split_and!; [done..|].
  eapply stored_inj; [apply Hh|apply Hr].
Qed.

Lemma next_entry_reserve_holds clock k iter w r iter' w' :
  next_entry_reserve program_id clock k iter w = Ok ((r, iter'), w') →
  w' = w ∧ holds program_id Reserve w k r.
Proof.
  intros (-> & (Ho & Hs & _) & _)%next_entry_reserve_Ok; [|done]. by split.
Qed.

Lemma refresh_deposits_agrees clock ds sums iter w ds' sums' iter' w' :
  refresh_deposits program_id clock ds sums iter w = Ok ((ds', sums', iter'), w') →
  Forall (sees w) (deposit_reserve <$> ds) →
  ∃ listed,
    binding.refresh_deposits all_reserves tokens_oracle ds (client_values sums)
      = Ok (ds', listed, client_values sums') ∧ Forall2 deposit_listed ds' listed.
Proof.
  revert sums iter ds' sums' iter' w'.
  induction ds as [|c ds IH]; intros sums iter ds' sums' iter' w' Hr Hsee; cbn [refresh_deposits] in Hr.
  - apply M_ret_Ok in Hr as [[= -> -> ->] ->]. exists []. by split.
  - apply M_bind_Ok in Hr as ([r iter1] & w1 & H1 & Hr).
    apply next_entry_reserve_holds in H1 as [-> He].
    apply M_bind_Ok in Hr as (v & w1 & H1 & Hr). apply lift_Ok in H1 as [Hv ->].
    apply M_bind_Ok in Hr as (sums1 & w1 & H1 & Hr). apply lift_Ok in H1 as [Hs ->].
    apply M_bind_Ok in Hr as ([[ds1 sums2] iter2] & w1 & H1 & Hr).
    apply M_ret_Ok in Hr as [[= -> -> ->] ->].
    cbn [fmap list_fmap] in Hsee. apply Forall_cons in Hsee as [Hc Hsee].
    destruct (sees_reserve _ _ _ Hc He) as (e & od & Hl & Hod & <-).
    destruct (IH _ _ _ _ _ _ H1 Hsee) as (listed & Hrun & Hlisted).
    eexists. cbn [binding.refresh_deposits].
    rewrite (proj2 (lookup_or_invalid_Ok _ _ _) Hl), (proj2 (lookup_or_invalid_Ok _ _ _) Hod).
    cbn [mbind result_bind]. rewrite (proj2 (deposit_market_value_agrees _ _ _) Hv).
    cbn [mbind result_bind]. rewrite add_deposit_agrees, Hs. cbn [boxed_try map_err fmap result_fmap mbind result_bind].
    rewrite Hrun. cbn [mbind result_bind mret result_ret]. split; [reflexivity|].
    constructor; [|done]. unfold deposit_listed. cbn. by rewrite Hod.
Qed.

Lemma refresh_borrows_agrees clock bs borrowed iter w bs' borrowed' iter' w' :
  refresh_borrows program_id clock bs borrowed iter w = Ok ((bs', borrowed', iter'), w') →
  Forall (sees w) (borrow_reserve <$> bs) →
  ∃ listed,
    binding.refresh_borrows all_reserves tokens_oracle bs borrowed = Ok (bs', listed, borrowed') ∧
    Forall2 borrow_listed bs' listed.
Proof.
  revert borrowed iter bs' borrowed' iter' w'.
  induction bs as [|l bs IH]; intros borrowed iter bs' borrowed' iter' w' Hr Hsee; cbn [refresh_borrows] in Hr.
  - apply M_ret_Ok in Hr as [[= -> -> ->] ->]. exists []. by split.
  - apply M_bind_Ok in Hr as ([r iter1] & w1 & H1 & Hr).
    apply next_entry_reserve_holds in H1 as [-> He].
    apply M_bind_Ok in Hr as (l1 & w1 & H1 & Hr). apply lift_Ok in H1 as [Hl1 ->].
    apply M_bind_Ok in Hr as (v & w1 & H1 & Hr). apply lift_Ok in H1 as [Hv ->].
    apply M_bind_Ok in Hr as (b1 & w1 & H1 & Hr). apply lift_Ok in H1 as [Hb ->].
    apply M_bind_Ok in Hr as ([[bs1 b2] iter2] & w1 & H1 & Hr).
    apply M_ret_Ok in Hr as [[= -> -> ->] ->].
    cbn [fmap list_fmap] in Hsee. apply Forall_cons in Hsee as [Hc Hsee].
    destruct (sees_reserve _ _ _ Hc He) as (e & od & Hl & Hod & <-).
    destruct (IH _ _ _ _ _ _ H1 Hsee) as (listed & Hrun & Hlisted).
    eexists. cbn [binding.refresh_borrows].
    rewrite (proj2 (lookup_or_invalid_Ok _ _ _) Hod), (proj2 (lookup_or_invalid_Ok _ _ _) Hl).
    cbn [mbind result_bind]. rewrite (proj2 (boxed_try_Ok _ _) Hl1).
    cbn [mbind result_bind]. rewrite (proj2 (borrow_market_value_agrees _ _ _) Hv).
    cbn [mbind result_bind]. rewrite (proj2 (boxed_try_Ok _ _) Hb).
    cbn [mbind result_bind]. rewrite Hrun. cbn [mbind result_bind mret result_ret].
    split; [reflexivity|]. constructor; [|done].
    assert (borrow_reserve l1 = borrow_reserve l) as E.
    { apply liquidity_accrue_reserve in Hl1. done. }
    unfold borrow_listed. cbn. by rewrite E, Hod.
Qed.

End agreement.

(** The whole refresh *)
Lemma refresh_agrees `{S : Sdk} (program_id : Pubkey) `{L : !SdkLaws program_id}
    (all_reserves : gmap Pubkey (Enhanced Reserve)) (tokens_oracle : gmap Pubkey OracleData)
    (enhanced : Enhanced Obligation) (accounts : list AccountInfo) (w w' : World) (u : unit)
    (Hw : World_ok program_id w)
    (H : process_refresh_obligation program_id accounts w = Ok (u, w'))
    (Ho : ∀ info rest, accounts = info :: rest →
          e_pubkey enhanced = key info ∧ holds program_id Obligation w (key info) (e_inner enhanced))
    (Hd : Forall (sees program_id all_reserves tokens_oracle w)
            (deposit_reserve <$> o_deposits (e_inner enhanced)))
    (Hb : Forall (sees program_id all_reserves tokens_oracle w)
            (borrow_reserve <$> o_borrows (e_inner enhanced))) :
  ∃ o deposits borrows o' cap,
    binding.refresh_obligation all_reserves tokens_oracle enhanced = Ok (o, deposits, borrows) ∧
    Forall2 (deposit_listed tokens_oracle) (o_deposits o) deposits ∧
    Forall2 (borrow_listed tokens_oracle) (o_borrows o) borrows ∧
    holds program_id Obligation w' (e_pubkey enhanced) o' ∧
    o_deposits o' = o_deposits o ∧ o_borrows o' = o_borrows o ∧
    o_deposited_value o' = o_deposited_value o ∧ o_borrowed_value o' = o_borrowed_value o ∧
    dec (o_allowed_borrow_value o') = Z.min (dec (o_allowed_borrow_value o)) (cap - WAD * 5000000) ∧
    dec (o_unhealthy_borrow_value o') = Z.min (dec (o_unhealthy_borrow_value o)) cap ∧
    WAD * 50000000 ≤ cap ≤ WAD * 120000000.
Proof.
  apply (refresh_obligation_run program_id) in H as (info & ci & rest & clock & o & ds & sums & rest1 & bs
    & borrowed & rest2 & cap & allowed & -> & Hclock & Hho & H1 & H2 & Hcap & Hall & Hp).
  destruct (Ho info _ eq_refl) as [Hk Hh].
  assert (e_inner enhanced = o) as Eo by (eapply stored_inj; [apply Hh|apply Hho]).
  rewrite Eo in Hd, Hb.
  destruct (refreshed_record_ok program_id w clock o ds sums rest rest1 bs borrowed rest2 cap allowed)
    as [Eall Hok']; [done|by eapply clock_at_u64|by eapply holds_obligation_ok|done..|].
  destruct (pack_obligation_holds program_id _ info w u w' Hok' (proj2 (proj2 (proj2 Hho))) Hw (proj1 Hho) Hp)
    as [Hh' _].
  destruct (refresh_deposits_agrees program_id all_reserves tokens_oracle _ _ _ _ _ _ _ _ _ H1 Hd)
    as (deposits & Hrd & Hld).
  destruct (refresh_borrows_agrees program_id all_reserves tokens_oracle _ _ _ _ _ _ _ _ _ H2 Hb)
    as (borrows & Hrb & Hlb).
  apply global_unhealthy_borrow_value_Ok in Hcap as Hrange.
  eexists _, deposits, borrows, _, (dec cap). unfold binding.refresh_obligation. rewrite Eo.
  change (binding.mkValues Decimal.zero Decimal.zero Decimal.zero)
    with (client_values (mkDepositValues Decimal.zero Decimal.zero Decimal.zero)).
  rewrite Hrd. cbn [mbind result_bind]. rewrite Hrb. cbn [mbind result_bind mret result_ret].
  cbn [dec Decimal.from_u64] in Hrange. change Decimal.wad with WAD in Hrange.
  rewrite Hk. split; [reflexivity|]. split; [exact Hld|]. split; [exact Hlb|]. split; [exact Hh'|].
  cbn. rewrite !Decimal_min_dec, Eall. split_and!; try done; unfold WAD in *; lia.
Qed.

(** ** Properties *)

(** C18: the liquidator values an obligation as the program does.  When the
    program refreshes an obligation and the client's snapshot holds the same
    obligation, the same reserves and a price source for each of them, the
    client's refresh succeeds too, with the same entries, the same deposited and
    borrowed value, and the allowed and unhealthy values before the program's
    global cap; the deposits and borrows that it lists are the entries. *)
Theorem client_refresh_agrees `{S : Sdk} (program_id : Pubkey) `{L : !SdkLaws program_id}
    (all_reserves : gmap Pubkey (Enhanced Reserve)) (tokens_oracle : gmap Pubkey OracleData)
    (enhanced : Enhanced Obligation) (accounts : list AccountInfo) (w w' : World) (u : unit)
    (Hw : World_ok program_id w)
    (H : process_refresh_obligation program_id accounts w = Ok (u, w'))
    (Ho : ∀ info rest, accounts = info :: rest →
          e_pubkey enhanced = key info ∧ holds program_id Obligation w (key info) (e_inner enhanced))
    (Hd : Forall (sees program_id all_reserves tokens_oracle w)
            (deposit_reserve <$> o_deposits (e_inner enhanced)))
    (Hb : Forall (sees program_id all_reserves tokens_oracle w)
            (borrow_reserve <$> o_borrows (e_inner enhanced))) :
  ∃ o deposits borrows o' cap,
    binding.refresh_obligation all_reserves tokens_oracle enhanced = Ok (o, deposits, borrows) ∧
    Forall2 (deposit_listed tokens_oracle) (o_deposits o) deposits ∧
    Forall2 (borrow_listed tokens_oracle) (o_borrows o) borrows ∧
    holds program_id Obligation w' (e_pubkey enhanced) o' ∧
    o_deposits o' = o_deposits o ∧ o_borrows o' = o_borrows o ∧
    o_deposited_value o' = o_deposited_value o ∧ o_borrowed_value o' = o_borrowed_value o ∧
    dec (o_allowed_borrow_value o') = Z.min (dec (o_allowed_borrow_value o)) (cap - WAD * 5000000) ∧
    dec (o_unhealthy_borrow_value o') = Z.min (dec (o_unhealthy_borrow_value o)) cap ∧
    WAD * 50000000 ≤ cap ≤ WAD * 120000000.
Proof. by eapply refresh_agrees. Qed.

#[local] Existing Instance test_sdk.

(** A snapshot of the ledger *)
Definition sample_reserves : gmap Pubkey (Enhanced Reserve) :=
  list_to_map ((λ k, (k, mkEnhanced sample_reserve k)) <$> [31; 32; 33]).
Definition sample_oracles : gmap Pubkey OracleData :=
  list_to_map [(31, mkOracleData "SOL" 31 131 1000000000 30);
               (32, mkOracleData "BTC" 32 132 1000000 20000);
               (33, mkOracleData "USDC" 33 133 1000000 1)].

Lemma sample_sees o k :
  k ∈ [31; 32; 33] →
  sees solend_program_id sample_reserves sample_oracles (ledger_of sample_reserve sample_reserve o) k.
Proof.
  pose proof (ledger_sample_reserves o) as Hr. rewrite Forall_forall in Hr. intros Hk.
  specialize (Hr k Hk). repeat (apply elem_of_cons in Hk as [->|Hk]); [..|by apply elem_of_nil in Hk].
  all: do 2 eexists; split; [reflexivity|split; [reflexivity|done]].
Qed.

Lemma client_refresh_agrees_witness :
  ∃ o deposits borrows o' cap,
    binding.refresh_obligation sample_reserves sample_oracles (mkEnhanced sample_obligation 50)
      = Ok (o, deposits, borrows) ∧
    o_deposited_value o' = o_deposited_value o ∧
    dec (o_unhealthy_borrow_value o') = Z.min (dec (o_unhealthy_borrow_value o)) cap.
Proof.
  destruct (client_refresh_agrees solend_program_id sample_reserves sample_oracles
    (mkEnhanced sample_obligation 50) refresh_accounts ledger
    (world_after (process_refresh_obligation solend_program_id refresh_accounts ledger)) tt)
    as (o & ds & bs & o' & cap & Hr & _ & _ & _ & _ & _ & Hv & _ & _ & Hu & _).
  - apply ledger_ok.
  - vm_compute. reflexivity.
  - intros info rest Ha. injection Ha as <- _. split; [reflexivity|].
    split; [vm_compute; reflexivity|apply ledger_obligation_50].
  - repeat constructor; apply (sample_sees sample_obligation); solve_in.
  - repeat constructor; apply (sample_sees sample_obligation); solve_in.
  - exists o, ds, bs, o', cap. split; [exact Hr|]. split; [exact Hv|exact Hu].
Defined.
