(* ===== verification/ClientSelect.v ===== *)
(** * What the liquidator liquidates

    The part of [solend-liquidator/src/helpers.rs] between the snapshot and the
    transaction: which obligations are under water, and which debt is repaid for
    which collateral.  The theorem relates the choice to the guards of the
    program's liquidation. *)

From S2P Require Import ClientModel.
From S2P Require Import Prelude Errors FixedPoint StateBase LendingMarket Reserve.
From S2P Require Import ReserveFacts LoanFacts Obligation ObligationFacts Codec Solana Oracle.
From S2P Require Import ProcessorBase ProcessorFacts ProcessorInvariant ProcessorReserve.
From S2P Require Import ProcessorObligation RefreshFacts HandlerFacts ProcessorSafety.
From S2P Require Import RefreshSafety Testbed TestbedFacts ClientRefresh.

(** ** [slice::sort_by] with a key: a stable sort *)

Section sort.
Context {A : Type} (key : A → Z).

Fixpoint insert_by (x : A) (l : list A) : list A :=
  match l with
  | [] => [x]
  | y :: l => if key x <=? key y then x :: y :: l else y :: insert_by x l
  end.

Definition sort_by (l : list A) : list A := foldr insert_by [] l.

End sort.

Module helpers.

(** [!(borrowed_value == 0 || unhealthy_borrow_value == 0 || borrowed_value <= unhealthy_borrow_value)] *)
Definition underwater (refreshed_obligation : Obligation) : bool :=
  let borrowed_value := o_borrowed_value refreshed_obligation in
  let unhealthy_borrow_value := o_unhealthy_borrow_value refreshed_obligation in
  negb (Decimal.eqb borrowed_value (Decimal.from_u64 0)
        || Decimal.eqb unhealthy_borrow_value (Decimal.from_u64 0)
        || Decimal.leb borrowed_value unhealthy_borrow_value).

(** The deposit and the borrow of the greatest market value *)
Definition select (deposits : list Deposit) (borrows : list Borrow) : option (Deposit * Borrow) :=
  selected_deposit ← last (sort_by (λ d, dec (d_market_value d)) deposits);
  selected_borrow ← last (sort_by (λ b, dec (b_market_value b)) borrows);
  Some (selected_deposit, selected_borrow).

(** The task that [process_markets] runs for one obligation: [None] unless it is
    to be liquidated.  An error of the refresh counts as [None], a panic ends the
    task. *)
Definition assess (all_reserves : gmap Pubkey (Enhanced Reserve))
    (tokens_oracle : gmap Pubkey OracleData) (r_obligation : Enhanced Obligation) :
    boxed (option (Deposit * Borrow)) :=
  match binding.refresh_obligation all_reserves tokens_oracle r_obligation with
  | Err _ => mret None
  | Panic => Panic
  | Ok (refreshed_obligation, deposits, borrows) =>
      mret (if underwater refreshed_obligation then select deposits borrows else None)
  end.

End helpers.

(** ** The sort *)

Section sort_facts.
Context {A : Type} (key : A → Z).
Implicit Types (l : list A).

Lemma insert_by_Permutation x l : insert_by key x l ≡ₚ x :: l.
Proof.
  induction l as [|y l IH]; [done|]. cbn. destruct (_ <=? _); [done|]. rewrite IH. constructor.
Qed.

Lemma sort_by_Permutation l : sort_by key l ≡ₚ l.
Proof. induction l as [|x l IH]; [done|]. cbn. rewrite insert_by_Permutation. by constructor. Qed.

(** Inserting changes the last element only when the new one is greater than all. *)
Lemma insert_by_last x l m :
  last l = Some m → Forall (λ y, key y ≤ key m) l →
  last (insert_by key x l) = Some (if key x <=? key m then m else x).
Proof.
  revert m. induction l as [|y l IH]; intros m Hl Hm; [done|].
  apply Forall_cons in Hm as [Hy Hm]. cbn [insert_by].
  destruct (Z.leb_spec (key x) (key y)).
  - destruct (Z.leb_spec (key x) (key m)); [|lia]. exact Hl.
  - destruct l as [|z l].
    + injection Hl as ->. cbn. by destruct (Z.leb_spec (key x) (key m)); [lia|].
    + rewrite last_cons_cons in Hl. specialize (IH m Hl Hm).
      by rewrite last_cons, IH.
Qed.

(** The last element of the sorted list is the last of the greatest ones. *)
Lemma sort_by_last l m :
  last (sort_by key l) = Some m →
  ∃ l1 l2, l = l1 ++ m :: l2 ∧ Forall (λ y, key y ≤ key m) l1 ∧ Forall (λ y, key y < key m) l2.
Proof.
  revert m. induction l as [|x l IH]; intros m Hm; [done|]. cbn [sort_by foldr] in Hm.
  change (foldr (insert_by key) [] l) with (sort_by key l) in Hm.
  destruct (last (sort_by key l)) as [m'|] eqn:E.
  - destruct (IH m' eq_refl) as (l1 & l2 & -> & H1 & H2).
    assert (Hall : Forall (λ y, key y ≤ key m') (sort_by key (l1 ++ m' :: l2))).
    { rewrite sort_by_Permutation. apply Forall_app. split; [done|]. constructor; [lia|].
      eapply Forall_impl; [exact H2|]. cbn. lia. }
    rewrite (insert_by_last x _ m' E Hall) in Hm.
    destruct (Z.leb_spec (key x) (key m')); injection Hm as <-.
    + exists (x :: l1), l2. split_and!; [done|by constructor|done].
    + exists [], (l1 ++ m' :: l2). split_and!; [done|constructor|].
      apply Forall_app. split; [|constructor; [done|]].
      * eapply Forall_impl; [exact H1|]. cbn. lia.
      * eapply Forall_impl; [exact H2|]. cbn. lia.
  - apply last_None in E. assert (l = []) as ->.
    { apply Permutation_nil_r. by rewrite <- (sort_by_Permutation l), E. }
    injection Hm as <-. exists [], []. split_and!; [done|constructor..].
Qed.

Lemma sort_by_last_max l m :
  last (sort_by key l) = Some m → m ∈ l ∧ Forall (λ y, key y ≤ key m) l.
Proof.
  intros (l1 & l2 & -> & H1 & H2)%sort_by_last. split.
  - apply elem_of_app. right. apply list_elem_of_here.
  - apply Forall_app. split; [done|]. constructor; [lia|]. eapply Forall_impl; [exact H2|]. cbn. lia.
Qed.

Lemma sort_by_last_Some l : l ≠ [] → is_Some (last (sort_by key l)).
Proof.
  intros Hl. destruct (last (sort_by key l)) as [m|] eqn:E; [by eexists|].
  apply last_None in E. destruct Hl. apply Permutation_nil_r.
  by rewrite <- (sort_by_Permutation l), E.
Qed.

End sort_facts.

Lemma select_Some deposits borrows d b :
  helpers.select deposits borrows = Some (d, b) →
  d ∈ deposits ∧ Forall (λ d', dec (d_market_value d') ≤ dec (d_market_value d)) deposits ∧
  b ∈ borrows ∧ Forall (λ b', dec (b_market_value b') ≤ dec (b_market_value b)) borrows.
Proof.
  unfold helpers.select. intros H. apply bind_Some in H as (d' & E1 & H).
  apply bind_Some in H as (b' & E2 & [= -> ->]).
  apply sort_by_last_max in E1 as [? ?]. apply sort_by_last_max in E2 as [? ?]. by split_and!.
Qed.

(** ** The guards of the program's liquidation *)

(** What [_liquidate_obligation] demands of an obligation and of the two entries
    chosen, before it computes amounts *)
Record liquidatable (o : Obligation) (repay withdraw : Pubkey) : Prop := {
  lq_deposited : Decimal.eqb (o_deposited_value o) Decimal.zero = false;
  lq_borrowed : Decimal.eqb (o_borrowed_value o) Decimal.zero = false;
  lq_unhealthy : Decimal.ltb (o_borrowed_value o) (o_unhealthy_borrow_value o) = false;
  lq_liquidity : ∃ l i, Obligation.find_liquidity_in_borrows o repay = Ok (l, i) ∧
    Decimal.eqb (ol_market_value l) Decimal.zero = false ∧
    Forall (λ l', dec (ol_market_value l') ≤ dec (ol_market_value l)) (o_borrows o);
  lq_collateral : ∃ c i, Obligation.find_collateral_in_deposits o withdraw = Ok (c, i) ∧
    Decimal.eqb (oc_market_value c) Decimal.zero = false ∧
    Forall (λ c', dec (oc_market_value c') ≤ dec (oc_market_value c)) (o_deposits o);
}.

(** A sum is positive only if its greatest term is. *)
Lemma sum_Z_pos l m : 0 < sum_Z l → Forall (λ x, x ≤ m) l → 0 < m.
Proof.
  intros Hs Hl. destruct (Z.lt_ge_cases 0 m) as [|Hm]; [done|].
  enough (sum_Z l ≤ 0) by lia. clear Hs. induction Hl; [done|]. rewrite sum_Z_cons. lia.
Qed.

Lemma weighted_pos pct ds rs m :
  Forall (λ c, 0 ≤ dec (oc_market_value c) ≤ m) ds → 0 < weighted pct ds rs → 0 < m.
Proof.
  intros Hds Hw. destruct (Z.lt_ge_cases 0 m) as [|Hm]; [done|].
  enough (weighted pct ds rs = 0) by lia. clear Hw. unfold weighted. revert rs.
  induction Hds as [|c ds Hc Hds IH]; intros [|r rs]; try done.
  cbn [zip_with]. rewrite sum_Z_cons, IH. unfold percent_of.
  replace (dec (oc_market_value c)) with 0 by lia. done.
Qed.

Lemma find_collateral_intro o i c :
  NoDup (deposit_reserve <$> o_deposits o) → o_deposits o !! i = Some c →
  Obligation.find_collateral_in_deposits o (deposit_reserve c) = Ok (c, i).
Proof.
  intros Hd Hi. unfold Obligation.find_collateral_in_deposits, Obligation._find_collateral_index_in_deposits.
  destruct (decide _) as [E|]; [by rewrite E in Hi|].
  rewrite (position_unique _ _ _ _ _ Hd Hi eq_refl). cbn. by rewrite Hi.
Qed.

Lemma find_liquidity_intro o i l :
  NoDup (borrow_reserve <$> o_borrows o) → o_borrows o !! i = Some l →
  Obligation.find_liquidity_in_borrows o (borrow_reserve l) = Ok (l, i).
Proof.
  intros Hd Hi. unfold Obligation.find_liquidity_in_borrows, Obligation._find_liquidity_index_in_borrows.
  destruct (decide _) as [E|]; [by rewrite E in Hi|].
  rewrite (position_unique _ _ _ _ _ Hd Hi eq_refl). cbn. by rewrite Hi.
Qed.

Lemma mv_bounds o :
  Obligation_ok o →
  Forall (λ c, 0 ≤ dec (oc_market_value c)) (o_deposits o) ∧
  Forall (λ l, 0 ≤ dec (ol_market_value l)) (o_borrows o).
Proof.
  intros Ho. split.
  - eapply Forall_impl; [apply (ok_o_deposits o Ho)|]. intros c Hc. apply (ok_oc_market_value c Hc).
  - eapply Forall_impl; [apply (ok_o_borrows o Ho)|]. intros l Hl. apply (ok_ol_market_value l Hl).
Qed.

(** An element of the list is listed for an entry. *)
Lemma Forall2_elem_r {A B} (P : A → B → Prop) l l' y :
  Forall2 P l l' → y ∈ l' → ∃ i x, l !! i = Some x ∧ P x y.
Proof.
  intros HP [i Hi]%list_elem_of_lookup_1. destruct (Forall2_lookup_r _ _ _ _ _ HP Hi) as (x & ? & ?). eauto.
Qed.

Lemma Forall2_max {A B} (P : A → B → Prop) (f : A → Z) (g : B → Z) l l' m :
  Forall2 P l l' → (∀ x y, P x y → g y = f x) → Forall (λ y, g y ≤ m) l' → Forall (λ x, f x ≤ m) l.
Proof.
  intros HP Hfg. induction HP as [|x y l l' Hxy HP IH]; [constructor|].
  intros [Hy Hl]%Forall_cons. constructor; [by rewrite <- (Hfg x y Hxy)|by apply IH].
Qed.

Lemma Decimal_eqb_pos d : 0 < dec d → Decimal.eqb d Decimal.zero = false.
Proof. intros. apply Z.eqb_neq. cbn. lia. Qed.

(** A refreshed obligation whose debt exceeds its unhealthy value, with the
    choice of the greatest entries *)
Lemma liquidatable_choice (o : Obligation) rs d b deposits borrows tokens_oracle :
  Obligation_ok o →
  Forall2 (deposit_listed tokens_oracle) (o_deposits o) deposits →
  Forall2 (borrow_listed tokens_oracle) (o_borrows o) borrows →
  dec (o_deposited_value o) = sum_Z (dec ∘ oc_market_value <$> o_deposits o) →
  dec (o_borrowed_value o) = sum_Z (dec ∘ ol_market_value <$> o_borrows o) →
  0 < dec (o_borrowed_value o) → 0 < weighted liquidation_threshold (o_deposits o) rs →
  dec (o_unhealthy_borrow_value o) ≤ dec (o_borrowed_value o) →
  helpers.select deposits borrows = Some (d, b) →
  liquidatable o (b_borrow_reserve b) (d_deposit_reserve d).
Proof.
  intros Ho Hld Hlb Hds Hbs Hpos Hweight Hle (Hd & Hdm & Hb & Hbm)%select_Some.
  pose proof (mv_bounds o Ho) as [Hmd Hmb].
  destruct (Forall2_elem_r _ _ _ _ Hld Hd) as (i & c & Hc & Ek & _ & Ev & _).
  destruct (Forall2_elem_r _ _ _ _ Hlb Hb) as (j & l & Hl & Ekl & _ & Evl & _).
  eapply (Forall2_max _ (dec ∘ oc_market_value)) in Hdm; [|exact Hld|by intros x y (_ & _ & -> & _)].
  eapply (Forall2_max _ (dec ∘ ol_market_value)) in Hbm; [|exact Hlb|by intros x y (_ & _ & -> & _)].
  rewrite Ev in Hdm. rewrite Evl in Hbm. unfold compose in Hdm, Hbm.
  assert (Hcv : 0 < dec (oc_market_value c)).
  { eapply weighted_pos, Hweight. apply Forall_and. by split. }
  assert (Hlv : 0 < dec (ol_market_value l)).
  { apply (sum_Z_pos (dec ∘ ol_market_value <$> o_borrows o)); [by rewrite <- Hbs|].
    by apply Forall_fmap. }
  rewrite Ek, Ekl. split.
  - apply Decimal_eqb_pos. rewrite Hds.
    apply list_elem_of_lookup_2, list_elem_of_split in Hc as (l1 & l2 & E).
    rewrite E in Hmd |- *. apply Forall_app in Hmd as [H1 [_ H2]%Forall_cons].
    rewrite fmap_app, sum_Z_app. cbn [fmap list_fmap]. rewrite sum_Z_cons.
    pose proof (sum_Z_nonneg (dec ∘ oc_market_value <$> l1) (proj2 (Forall_fmap _ _ _) H1)).
    pose proof (sum_Z_nonneg (dec ∘ oc_market_value <$> l2) (proj2 (Forall_fmap _ _ _) H2)).
    unfold compose in *. lia.
  - by apply Decimal_eqb_pos.
  - apply Z.ltb_ge. exact Hle.
  - exists l, j. split; [apply find_liquidity_intro; [apply Ho|done]|].
    split; [by apply Decimal_eqb_pos|done].
  - exists c, i. split; [apply find_collateral_intro; [apply Ho|done]|].
    split; [by apply Decimal_eqb_pos|done].
Qed.

(** What the client picks is liquidatable once the program has refreshed it from
    the reserves that the client saw: the refreshed record passes every guard of
    the liquidation handler that concerns the obligation. *)
Lemma targets_liquidatable `{S : Sdk} (program_id : Pubkey) `{L : !SdkLaws program_id}
    (all_reserves : gmap Pubkey (Enhanced Reserve)) (tokens_oracle : gmap Pubkey OracleData)
    (enhanced : Enhanced Obligation) (accounts : list AccountInfo) (w w' : World) (u : unit)
    (d : Deposit) (b : Borrow)
    (Hw : World_ok program_id w)
    (H : process_refresh_obligation program_id accounts w = Ok (u, w'))
    (Ho : ∀ info rest, accounts = info :: rest →
          e_pubkey enhanced = key info ∧ holds program_id Obligation w (key info) (e_inner enhanced))
    (Hd : Forall (sees program_id all_reserves tokens_oracle w)
            (deposit_reserve <$> o_deposits (e_inner enhanced)))
    (Hb : Forall (sees program_id all_reserves tokens_oracle w)
            (borrow_reserve <$> o_borrows (e_inner enhanced)))
    (Hpick : helpers.assess all_reserves tokens_oracle enhanced = Ok (Some (d, b))) :
  ∃ info clock_info rest clock o',
    accounts = info :: clock_info :: rest ∧ clock_at w clock_info clock ∧
    holds program_id Obligation w' (e_pubkey enhanced) o' ∧ fresh (o_last_update o') clock ∧
    liquidatable o' (b_borrow_reserve b) (d_deposit_reserve d).
Proof.
  destruct (refresh_agrees program_id all_reserves tokens_oracle enhanced accounts w w' u Hw H Ho Hd Hb)
    as (o & deposits & borrows & o' & cap & Hrun & Hld & Hlb & Hh & Ed & Eb & _ & Ebv & _ & Eu & Hcap).
  apply (refresh_obligation_Ok program_id) in H
    as (info & ci & rest & clock & o0 & o1 & -> & Hc & Ho0 & Hr & Hok & Hi & Hp); [|done].
  destruct (pack_obligation_holds program_id o1 info w u w' Hok Hi Hw (proj1 Ho0) Hp) as [Hh1 _].
  destruct (Ho info _ eq_refl) as [Hk _]. rewrite Hk in Hh.
  assert (o1 = o') as -> by (eapply stored_inj; [apply Hh1|apply Hh]).
  exists info, ci, rest, clock, o'. rewrite Hk. split_and!; [done..|apply Hr|].
  destruct Hr as [_ _ _ (rs & qs & cap' & _ & _ & Hcap' & Hdv & Hbv & _ & Huv)].
  unfold helpers.assess in Hpick. rewrite Hrun in Hpick. injection Hpick as Hpick.
  destruct (helpers.underwater o) eqn:Hu; [|done].
  unfold helpers.underwater in Hu. rewrite <- Ebv in Hu. apply negb_true_iff in Hu.
  apply orb_false_iff in Hu as [[H1 H2]%orb_false_iff H3].
  apply Z.eqb_neq in H1, H2. apply Z.leb_gt in H3. cbn [Decimal.from_u64 dec] in H1, H2.
  pose proof (ok_o_borrowed_value o' Hok) as [? _]. pose proof (ok_o_unhealthy_borrow_value o' Hok) as [? _].
  apply (liquidatable_choice o' rs d b deposits borrows tokens_oracle); try done.
  - by rewrite Ed.
  - by rewrite Eb.
  - lia.
  - unfold WAD in *. lia.
  - lia.
Qed.

(** ** A sample that is under water *)

#[local] Existing Instance test_sdk.

(** The sample obligation with a debt that its collateral does not carry *)
Definition deep_obligation : Obligation :=
  Obligation.with_borrows sample_obligation
    [mkObligationLiquidity 33 Decimal.one (Decimal.from_u64 30000) (Decimal.from_u64 300)].

Definition deep_ledger : World := ledger_of sample_reserve sample_reserve deep_obligation.

Lemma deep_obligation_ok : Obligation_ok deep_obligation.
Proof.
  destruct sample_obligation_ok. constructor; try done. repeat constructor; decide_ok.
Qed.

Lemma deep_ledger_ok : World_ok solend_program_id deep_ledger.
Proof.
  apply ledger_of_ok;
    [apply sample_reserve_valid|by eexists|apply sample_reserve_valid|by eexists
    |apply deep_obligation_ok|by eexists].
Qed.

Lemma deep_ledger_obligation : stored Obligation deep_ledger 50 deep_obligation.
Proof. apply ledger_obligation; [apply deep_obligation_ok|by eexists|done]. Qed.
