(* ===== verification/ClientTransaction.v ===== *)
(** * The liquidator's transaction

    [Client::liquidate_and_redeem] of [solend-liquidator/src/client.rs]: the
    instructions of the transaction that it sends for a picked deposit and
    borrow.  The result is the list of instructions that is signed and sent: a
    send that fails is retried until the node accepts it, and the outcome is
    [Ok] in any case. *)

From S2P Require Import ClientModel.
From S2P Require Import Prelude Errors FixedPoint StateBase Reserve Obligation Solana Instruction.
From S2P Require Import Builders Oracle.

Module Client.
Section client.
Context `{Sdk} `{ClientSdk}.

(** [list[list.iter().position(predicate).unwrap()].clone()] *)
Fixpoint find_where {T} (list : list T) (predicate : T → boxed bool) : boxed T :=
  match list with
  | [] => Panic
  | x :: list =>
      found ← predicate x;
      if (found : bool) then mret x else find_where list predicate
  end.

(** [get_or_substitute_account_data]: the associated token account, with the
    instruction that creates it when the node does not know it *)
Definition get_or_substitute_account_data (node : Node)
    (funding_address wallet_address spl_token_mint_address : Pubkey) :
    Pubkey * option Instruction :=
  let associated_token_address :=
    get_associated_token_address wallet_address spl_token_mint_address in
  match get_account node associated_token_address with
  | None =>
      (associated_token_address,
       Some (create_associated_token_account funding_address wallet_address spl_token_mint_address))
  | Some _ => (associated_token_address, None)
  end.

Definition total_reserves (obligation : Obligation) : list Pubkey :=
  (deposit_reserve <$> o_deposits obligation) ++ (borrow_reserve <$> o_borrows obligation).

Definition uniq_reserve_addresses (obligation : Obligation) : list Pubkey :=
  hash_set_into_iter (list_to_set (total_reserves obligation)).

Definition refresh_reserve_ix (lending_market : Market) (reserve : Pubkey) : boxed Instruction :=
  reserve_info ←
    find_where (mk_reserves lending_market)
      (λ x, address ← parse_pubkey (rs_address x); mret (address =? reserve));
  pyth_oracle ← parse_pubkey (rs_pyth_oracle reserve_info);
  switchboard_oracle ← parse_pubkey (rs_switchboard_oracle reserve_info);
  mret (instruction.refresh_reserve SOLEND_PROGRAM_ID reserve pyth_oracle switchboard_oracle).

Definition find_by_symbol (lending_market : Market) (symbol : string) : boxed Resef :=
  find_where (mk_reserves lending_market)
    (λ x, mret (bool_decide (lt_symbol (rs_liquidity_token x) = symbol))).

(** Later reserves replace earlier ones of the same symbol. *)
Definition reserve_symbol_to_reserve_map (lending_market : Market) : gmap string Resef :=
  foldl (λ m r, <[lt_symbol (rs_liquidity_token r) := r]> m) ∅ (mk_reserves lending_market).

Definition liquidate_and_redeem (node : Node) (payer_pubkey : Pubkey) (liqudity_amount : Z)
    (selected_borrow : Borrow) (selected_deposit : Deposit) (lending_market : Market)
    (obligation : Enhanced Obligation) : boxed (list Instruction) :=
  let repay_token_symbol := b_symbol selected_borrow in
  let withdraw_token_symbol := d_symbol selected_deposit in
  refresh_ixs ←
    try_fold
      (λ ixs reserve, ix ← refresh_reserve_ix lending_market reserve; mret (ixs ++ [ix]))
      [] (uniq_reserve_addresses (e_inner obligation));
  let refresh_obligation_ix :=
    instruction.refresh_obligation SOLEND_PROGRAM_ID (e_pubkey obligation)
      (total_reserves (e_inner obligation)) in
  repay_token_info ← find_by_symbol lending_market repay_token_symbol;
  repay_mint ← parse_pubkey (lt_mint (rs_liquidity_token repay_token_info));
  let repay_account := get_associated_token_address payer_pubkey repay_mint in
  let repay_reserve := reserve_symbol_to_reserve_map lending_market !! repay_token_symbol in
  let withdraw_reserve := reserve_symbol_to_reserve_map lending_market !! withdraw_token_symbol in
  withdraw_token_info ← find_by_symbol lending_market withdraw_token_symbol;
  match withdraw_reserve, repay_reserve with
  | Some withdraw_reserve, Some repay_reserve =>
      collateral_mint ← parse_pubkey (rs_collateral_mint_address withdraw_reserve);
      let '(rewarded_withdrawal_collateral_account, collateral_ix) :=
        get_or_substitute_account_data node payer_pubkey payer_pubkey collateral_mint in
      withdraw_mint ← parse_pubkey (lt_mint (rs_liquidity_token withdraw_token_info));
      let '(rewarded_withdrawal_liquidity_account, liquidity_ix) :=
        get_or_substitute_account_data node payer_pubkey payer_pubkey withdraw_mint in
      repay_reserve_pubkey ← parse_pubkey (rs_address repay_reserve);
      repay_reserve_liquidity_supply_pubkey ← parse_pubkey (rs_liquidity_address repay_reserve);
      withdraw_reserve_pubkey ← parse_pubkey (rs_address withdraw_reserve);
      withdraw_reserve_collateral_mint_pubkey ←
        parse_pubkey (rs_collateral_mint_address withdraw_reserve);
      withdraw_reserve_collateral_supply_pubkey ←
        parse_pubkey (rs_collateral_supply_address withdraw_reserve);
      withdraw_reserve_liquidity_supply_pubkey ←
        parse_pubkey (rs_liquidity_address withdraw_reserve);
      withdraw_reserve_liquidity_fee_receiver_pubkey ←
        parse_pubkey (rs_liquidity_fee_receiver_address withdraw_reserve);
      lending_market_pubkey ← parse_pubkey (mk_address lending_market);
      _recent_blockhash ← unwrap (get_latest_blockhash node);
      mret
        (refresh_ixs ++ [refresh_obligation_ix] ++ option_list collateral_ix
         ++ option_list liquidity_ix
         ++ [instruction.liquidate_obligation_and_redeem_reserve_collateral SOLEND_PROGRAM_ID
               liqudity_amount repay_account rewarded_withdrawal_collateral_account
               rewarded_withdrawal_liquidity_account repay_reserve_pubkey
               repay_reserve_liquidity_supply_pubkey withdraw_reserve_pubkey
               withdraw_reserve_collateral_mint_pubkey withdraw_reserve_collateral_supply_pubkey
               withdraw_reserve_liquidity_supply_pubkey
               withdraw_reserve_liquidity_fee_receiver_pubkey (e_pubkey obligation)
               lending_market_pubkey payer_pubkey])
  | _, _ => Err (BoxedLiquidation ReservesAreNotIdentified)
  end.

End client.
End Client.
