(* ===== verification/ClientLiquidation.v ===== *)
(** * What the liquidator sends

    Theorems about the transaction of [liquidate_and_redeem]: its instructions,
    the accounts that it names, and the one error that it could return. *)

From stdpp Require Import gmap.
From S2P Require Import ClientModel.
From S2P Require Import Prelude Errors FixedPoint StateBase LendingMarket Reserve Obligation.
From S2P Require Import ObligationFacts Solana Instruction Builders Oracle Testbed ClientFetch ClientSnapshot.
From S2P Require Import ClientRefresh ClientSelect ClientTransaction.

(** ** Searches *)

(** The first and the last element of a list with a property *)
Definition first_with {T} (P : T → Prop) (l : list T) (x : T) : Prop :=
  ∃ l1 l2, l = l1 ++ x :: l2 ∧ P x ∧ Forall (λ y, ¬ P y) l1.

Definition last_with {T} (P : T → Prop) (l : list T) (x : T) : Prop :=
  ∃ l1 l2, l = l1 ++ x :: l2 ∧ P x ∧ Forall (λ y, ¬ P y) l2.

Lemma first_with_elem {T} (P : T → Prop) l x : first_with P l x → x ∈ l ∧ P x.
Proof. intros (l1 & l2 & -> & HP & _). split; [|done]. apply elem_of_app. right. apply list_elem_of_here. Qed.

Lemma last_with_elem {T} (P : T → Prop) l x : last_with P l x → x ∈ l ∧ P x.
Proof. intros (l1 & l2 & -> & HP & _). split; [|done]. apply elem_of_app. right. apply list_elem_of_here. Qed.

Lemma find_where_Ok {T} (P : T → Prop) (predicate : T → boxed bool) l x :
  (∀ y b, predicate y = Ok b → b = true ↔ P y) →
  Client.find_where l predicate = Ok x → first_with P l x.
Proof.
  intros HP. revert x. induction l as [|y l IH]; intros x; cbn [Client.find_where]; [done|].
  intros (b & Hb & Hrun)%bind_Ok. destruct b.
  - injection Hrun as ->. exists [], l. split_and!; [done| |constructor]. by apply (HP x true).
  - destruct (IH x Hrun) as (l1 & l2 & -> & Hx & Hl). exists (y :: l1), l2. split_and!; [done..|].
    constructor; [|done]. intros Hy%(HP y false Hb). done.
Qed.

Lemma find_where_elem {T} (predicate : T → boxed bool) l x :
  Client.find_where l predicate = Ok x → x ∈ l.
Proof.
  revert x. induction l as [|y l IH]; intros x; cbn [Client.find_where]; [done|].
  intros ([|] & Hb & Hrun)%bind_Ok; [injection Hrun as ->; apply list_elem_of_here|].
  apply list_elem_of_further. by apply IH.
Qed.

Lemma find_where_is_Ok {T} (predicate : T → boxed bool) (l : list T) x :
  (∀ y, y ∈ l → is_Ok (predicate y)) → x ∈ l → predicate x = Ok true →
  is_Ok (Client.find_where l predicate).
Proof.
  intros Hl Hx Hp. induction l as [|y l IH]; [by apply elem_of_nil in Hx|].
  cbn [Client.find_where]. destruct (Hl y) as [[|] E]; [apply list_elem_of_here|..];
    rewrite E; cbn [mbind result_bind]; [by eexists|].
  apply IH; [intros z Hz; by apply Hl, list_elem_of_further|].
  apply elem_of_cons in Hx as [->|]; [congruence|done].
Qed.

(** It panics where nothing is found; it has no error of its own. *)
Lemma find_where_not_Err {T} (predicate : T → boxed bool) l e :
  (∀ y e', predicate y ≠ Err e') → Client.find_where l predicate ≠ Err e.
Proof.
  intros Hp. induction l as [|y l IH]; cbn [Client.find_where]; [done|].
  intros [He|(b & _ & He)]%bind_Err; [by eapply Hp|]. by destruct b.
Qed.

Definition has_symbol (symbol : string) (r : Resef) : Prop := lt_symbol (rs_liquidity_token r) = symbol.

Lemma find_by_symbol_Ok `{ClientSdk} market symbol r :
  Client.find_by_symbol market symbol = Ok r → first_with (has_symbol symbol) (mk_reserves market) r.
Proof.
  apply find_where_Ok. intros y b [= <-]. unfold has_symbol. by rewrite bool_decide_eq_true.
Qed.

Lemma last_case {T} (l1 l2 l : list T) r x :
  l ++ [x] = l1 ++ r :: l2 → (r = x ∧ l2 = []) ∨ ∃ l3, l2 = l3 ++ [x] ∧ l = l1 ++ r :: l3.
Proof.
  destruct l2 as [|z l2 _] using rev_ind; intros Hl.
  - apply app_inj_tail in Hl as [_ ->]. by left.
  - right. exists l2. rewrite app_comm_cons, (assoc_L (++)) in Hl. by apply app_inj_tail in Hl as [-> ->].
Qed.

(** The map by symbol holds the last reserve of each symbol. *)
Lemma reserve_symbol_map_Some market symbol r :
  Client.reserve_symbol_to_reserve_map market !! symbol = Some r ↔
  last_with (has_symbol symbol) (mk_reserves market) r.
Proof.
  unfold Client.reserve_symbol_to_reserve_map. set (l := mk_reserves market). clearbody l.
  induction l as [|x l IH] using rev_ind.
  - cbn. split; [done|]. intros ([|? ?] & ? & ? & _); discriminate.
  - rewrite foldl_app. cbn [foldl]. destruct (decide (lt_symbol (rs_liquidity_token x) = symbol)) as [E|E].
    + rewrite E, lookup_insert_eq. split.
      * intros [= <-]. exists l, []. split_and!; [done..|constructor].
      * intros (l1 & l2 & Hl & Hr & Hall). destruct (last_case l1 l2 l r x Hl) as [[-> ->]|(l3 & -> & _)]; [done|].
        apply Forall_app in Hall as [_ [Hx _]%Forall_cons]. destruct (Hx E).
    + rewrite lookup_insert_ne, IH by done. split.
      * intros (l1 & l2 & -> & Hr & Hall). exists l1, (l2 ++ [x]).
        rewrite app_comm_cons, (assoc_L (++)). split_and!; [done..|].
        apply Forall_app. split; [done|]. by constructor.
      * intros (l1 & l2 & Hl & Hr & Hall). destruct (last_case l1 l2 l r x Hl) as [[-> _]|(l3 & -> & ->)]; [done|].
        apply Forall_app in Hall as [Hall _]. by exists l1, l3.
Qed.

Lemma reserve_symbol_map_elem market symbol r :
  r ∈ mk_reserves market → has_symbol symbol r →
  ∃ r', Client.reserve_symbol_to_reserve_map market !! symbol = Some r'.
Proof.
  intros Hr Hs. unfold Client.reserve_symbol_to_reserve_map. set (l := mk_reserves market) in *.
  clearbody l. induction l as [|x l IH] using rev_ind; [by apply elem_of_nil in Hr|].
  rewrite foldl_app. cbn [foldl]. destruct (decide (lt_symbol (rs_liquidity_token x) = symbol)) as [E|E].
  - exists x. by rewrite E, lookup_insert_eq.
  - rewrite lookup_insert_ne by done. apply IH.
    apply elem_of_app in Hr as [|Hx]; [done|]. apply list_elem_of_singleton in Hx as ->. done.
Qed.

(** When symbols are distinct, there is one reserve to find. *)
Definition distinct_symbols (market : Market) : Prop :=
  NoDup (lt_symbol ∘ rs_liquidity_token <$> mk_reserves market).

Lemma distinct_symbols_eq market symbol r r' :
  distinct_symbols market → r ∈ mk_reserves market → r' ∈ mk_reserves market →
  has_symbol symbol r → has_symbol symbol r' → r = r'.
Proof.
  intros Hd [i Hi]%list_elem_of_lookup [j Hj]%list_elem_of_lookup Hs Hs'.
  assert (i = j) as <-; [|congruence]. unfold has_symbol in *.
  eapply (NoDup_lookup _ i j symbol Hd); by rewrite list_lookup_fmap, ?Hi, ?Hj; cbn; f_equal.
Qed.

(** ** The parts of the transaction *)

Section transaction.
Context `{S : Sdk} `{C : !ClientSdk}.
Implicit Types (node : Node) (market : Market) (obligation : Enhanced Obligation).

(** The instruction that refreshes a reserve, with the oracles of its entry in
    the configuration *)
Definition refreshes_reserve market (k : Pubkey) (ix : Instruction) : Prop :=
  ∃ info pyth switchboard,
    first_with (λ r, pubkey_from_str (rs_address r) = Some k) (mk_reserves market) info ∧
    pubkey_from_str (rs_pyth_oracle info) = Some pyth ∧
    pubkey_from_str (rs_switchboard_oracle info) = Some switchboard ∧
    ix = instruction.refresh_reserve SOLEND_PROGRAM_ID k pyth switchboard.

Lemma refresh_reserve_ix_Ok market k ix :
  Client.refresh_reserve_ix market k = Ok ix → refreshes_reserve market k ix.
Proof.
  unfold Client.refresh_reserve_ix, parse_pubkey.
  intros (info & Hinfo & (pyth & Hp%unwrap_Ok & (sb & Hs%unwrap_Ok & [= <-])%bind_Ok)%bind_Ok)%bind_Ok.
  exists info, pyth, sb. split_and!; [|done..]. eapply find_where_Ok, Hinfo.
  intros y b (k' & Hk'%unwrap_Ok & [= <-])%bind_Ok. rewrite Hk', Z.eqb_eq. naive_solver.
Qed.

(** The accounts of the liquidation instruction *)
Record Plan : Type := mkPlan {
  p_repay_mint : Pubkey;
  p_repay_reserve : Pubkey;
  p_repay_supply : Pubkey;
  p_withdraw_mint : Pubkey;
  p_withdraw_reserve : Pubkey;
  p_collateral_mint : Pubkey;
  p_collateral_supply : Pubkey;
  p_withdraw_supply : Pubkey;
  p_fee_receiver : Pubkey;
  p_market : Pubkey;
}.

(** Where the configuration has them: the mints of the two tokens from the first
    reserve of their symbol, everything else from the last *)
Record planned market (repay_symbol withdraw_symbol : string) (p : Plan) : Prop := {
  pl_repay_info : ∃ r, first_with (has_symbol repay_symbol) (mk_reserves market) r ∧
    pubkey_from_str (lt_mint (rs_liquidity_token r)) = Some (p_repay_mint p);
  pl_repay : ∃ r, last_with (has_symbol repay_symbol) (mk_reserves market) r ∧
    pubkey_from_str (rs_address r) = Some (p_repay_reserve p) ∧
    pubkey_from_str (rs_liquidity_address r) = Some (p_repay_supply p);
  pl_withdraw_info : ∃ r, first_with (has_symbol withdraw_symbol) (mk_reserves market) r ∧
    pubkey_from_str (lt_mint (rs_liquidity_token r)) = Some (p_withdraw_mint p);
  pl_withdraw : ∃ r, last_with (has_symbol withdraw_symbol) (mk_reserves market) r ∧
    pubkey_from_str (rs_address r) = Some (p_withdraw_reserve p) ∧
    pubkey_from_str (rs_collateral_mint_address r) = Some (p_collateral_mint p) ∧
    pubkey_from_str (rs_collateral_supply_address r) = Some (p_collateral_supply p) ∧
    pubkey_from_str (rs_liquidity_address r) = Some (p_withdraw_supply p) ∧
    pubkey_from_str (rs_liquidity_fee_receiver_address r) = Some (p_fee_receiver p);
  pl_market : pubkey_from_str (mk_address market) = Some (p_market p);
}.

Definition liquidation_ix (payer amount obligation_key : Z) (p : Plan) : Instruction :=
  instruction.liquidate_obligation_and_redeem_reserve_collateral SOLEND_PROGRAM_ID amount
    (get_associated_token_address payer (p_repay_mint p))
    (get_associated_token_address payer (p_collateral_mint p))
    (get_associated_token_address payer (p_withdraw_mint p))
    (p_repay_reserve p) (p_repay_supply p) (p_withdraw_reserve p) (p_collateral_mint p)
    (p_collateral_supply p) (p_withdraw_supply p) (p_fee_receiver p) obligation_key (p_market p) payer.

(** The instructions that create a token account of the payer that the node does
    not know *)
Definition creation node (payer mint : Pubkey) : list Instruction :=
  match get_account node (get_associated_token_address payer mint) with
  | None => [create_associated_token_account payer payer mint]
  | Some _ => []
  end.

Lemma substitute_eq node payer mint :
  ∃ o, Client.get_or_substitute_account_data node payer payer mint
       = (get_associated_token_address payer mint, o) ∧ option_list o = creation node payer mint.
Proof.
  unfold Client.get_or_substitute_account_data, creation.
  destruct (get_account _ _); eexists; by split.
Qed.

Lemma liquidate_and_redeem_Ok node payer amount b d market obligation ixs :
  Client.liquidate_and_redeem node payer amount b d market obligation = Ok ixs →
  ∃ refreshes p,
    Forall2 (refreshes_reserve market) (Client.uniq_reserve_addresses (e_inner obligation)) refreshes ∧
    planned market (b_symbol b) (d_symbol d) p ∧
    ixs = refreshes
      ++ [instruction.refresh_obligation SOLEND_PROGRAM_ID (e_pubkey obligation)
            (Client.total_reserves (e_inner obligation))]
      ++ creation node payer (p_collateral_mint p) ++ creation node payer (p_withdraw_mint p)
      ++ [liquidation_ix payer amount (e_pubkey obligation) p].
Proof.
  unfold Client.liquidate_and_redeem. intros (refreshes & Hr & Hrun)%bind_Ok.
  apply try_fold_push in Hr as (bs & -> & Hr). cbn [app].
  apply bind_Ok in Hrun as (repay_info & Hri & Hrun).
  apply bind_Ok in Hrun as (repay_mint & Hrm & Hrun).
  apply bind_Ok in Hrun as (withdraw_info & Hwi & Hrun).
  destruct (Client.reserve_symbol_to_reserve_map market !! d_symbol d) as [withdraw|] eqn:Ew; [|done].
  destruct (Client.reserve_symbol_to_reserve_map market !! b_symbol b) as [repay|] eqn:Er; [|done].
  apply bind_Ok in Hrun as (cm & Hcm & Hrun).
  destruct (substitute_eq node payer cm) as (o1 & E1 & C1). rewrite E1 in Hrun.
  apply bind_Ok in Hrun as (wm & Hwm & Hrun).
  destruct (substitute_eq node payer wm) as (o2 & E2 & C2). rewrite E2 in Hrun.
  apply bind_Ok in Hrun as (k1 & H1 & Hrun). apply bind_Ok in Hrun as (k2 & H2 & Hrun).
  apply bind_Ok in Hrun as (k3 & H3 & Hrun). apply bind_Ok in Hrun as (k4 & H4 & Hrun).
  apply bind_Ok in Hrun as (k5 & H5 & Hrun). apply bind_Ok in Hrun as (k6 & H6 & Hrun).
  apply bind_Ok in Hrun as (k7 & H7 & Hrun). apply bind_Ok in Hrun as (k8 & H8 & Hrun).
  apply bind_Ok in Hrun as (hash & _ & Hrun).
  injection Hrun as <-. unfold parse_pubkey in *.
  repeat match goal with H : unwrap _ = Ok _ |- _ => apply unwrap_Ok in H end.
  assert (k4 = cm) as -> by congruence.
  exists bs, (mkPlan repay_mint k1 k2 wm k3 cm k5 k6 k7 k8).
  split; [|split].
  - eapply Forall2_impl; [exact Hr|]. cbn. intros k ix. apply refresh_reserve_ix_Ok.
  - apply find_by_symbol_Ok in Hri, Hwi. apply reserve_symbol_map_Some in Ew, Er.
    split; cbn; [by exists repay_info|by exists repay|by exists withdraw_info|by exists withdraw|done].
  - cbn [p_collateral_mint p_withdraw_mint]. by rewrite <- C1, <- C2.
Qed.

Lemma parse_not_Err s e : (parse_pubkey s : boxed Pubkey) ≠ Err e.
Proof. unfold parse_pubkey. by destruct (pubkey_from_str s). Qed.

Lemma refresh_reserve_ix_not_Err market k e : Client.refresh_reserve_ix market k ≠ Err e.
Proof.
  unfold Client.refresh_reserve_ix. intros [He|(info & _ & He)]%bind_Err.
  - apply find_where_not_Err in He; [done|]. intros y e'.
    by intros [Hp%parse_not_Err|(k' & _ & Hp)]%bind_Err.
  - apply bind_Err in He as [He%parse_not_Err|(k1 & _ & He)]; [done|].
    by apply bind_Err in He as [He%parse_not_Err|(k2 & _ & He)].
Qed.

Lemma liquidate_and_redeem_not_Err node payer amount b d market obligation e :
  Client.liquidate_and_redeem node payer amount b d market obligation ≠ Err e.
Proof.
  unfold Client.liquidate_and_redeem. intros [He|(refreshes & _ & He)]%bind_Err.
  { apply try_fold_Err in He as (ixs & k & _ & He).
    apply bind_Err in He as [He%refresh_reserve_ix_not_Err|(ix & _ & He)]; done. }
  apply bind_Err in He as [He|(ri & Hri & He)]; [by apply find_where_not_Err in He|].
  apply bind_Err in He as [He%parse_not_Err|(k & _ & He)]; [done|].
  apply bind_Err in He as [He|(wi & Hwi & He)]; [by apply find_where_not_Err in He|].
  apply find_by_symbol_Ok, first_with_elem in Hri as [Hri Hrs], Hwi as [Hwi Hws].
  destruct (reserve_symbol_map_elem _ _ _ Hri Hrs) as [r Hr].
  destruct (reserve_symbol_map_elem _ _ _ Hwi Hws) as [w Hw]. rewrite Hr, Hw in He.
  apply bind_Err in He as [He%parse_not_Err|(k1 & _ & He)]; [done|].
  destruct (Client.get_or_substitute_account_data _ _ _ k1) as [a1 o1].
  apply bind_Err in He as [He%parse_not_Err|(k2 & _ & He)]; [done|].
  destruct (Client.get_or_substitute_account_data _ _ _ k2) as [a2 o2].
  do 8 (apply bind_Err in He as [He%parse_not_Err|(? & _ & He)]; [done|]).
  by destruct (get_latest_blockhash node).
Qed.

Lemma uniq_reserve_addresses_spec `{L : !ClientLaws} (o : Obligation) :
  NoDup (Client.uniq_reserve_addresses o) ∧
  ∀ k, k ∈ Client.uniq_reserve_addresses o ↔ k ∈ Client.total_reserves o.
Proof.
  unfold Client.uniq_reserve_addresses.
  split.
  - rewrite (hash_set_into_iter_perm _). apply NoDup_elements.
  - intros k. by rewrite (hash_set_into_iter_perm _), elem_of_elements, elem_of_list_to_set.
Qed.

End transaction.

(** ** What the client lists comes from its prices *)

Section listed.
Context (all_reserves : gmap Pubkey (Enhanced Reserve)) (tokens_oracle : gmap Pubkey OracleData).

Definition deposit_labelled (d : Deposit) : Prop :=
  od_symbol <$> tokens_oracle !! d_deposit_reserve d = Some (d_symbol d).

Definition borrow_labelled (b : Borrow) : Prop :=
  (λ od, (od_mint_address od, od_symbol od)) <$> tokens_oracle !! b_borrow_reserve b
  = Some (b_mint_address b, b_symbol b).

Lemma refresh_deposits_labelled entries values entries' deposits values' :
  binding.refresh_deposits all_reserves tokens_oracle entries values = Ok (entries', deposits, values') →
  Forall deposit_labelled deposits ∧ d_deposit_reserve <$> deposits = deposit_reserve <$> entries ∧
  Forall (λ k, is_Some (all_reserves !! k)) (deposit_reserve <$> entries).
Proof.
  revert values entries' deposits values'.
  induction entries as [|c entries IH]; intros values entries' deposits values'; cbn [binding.refresh_deposits].
  - intros [= <- <- <-]. by split.
  - intros (e & He%lookup_or_invalid_Ok & Hrun)%bind_Ok. apply bind_Ok in Hrun as (od & Hod%lookup_or_invalid_Ok & Hrun).
    apply bind_Ok in Hrun as (v & Hv & Hrun). apply bind_Ok in Hrun as (values1 & Hs & Hrun).
    apply bind_Ok in Hrun as ([[l1 l2] values2] & Hl & [= <- <- <-]).
    destruct (IH _ _ _ _ Hl) as (IH1 & IH2 & IH3).
    split; [|split; [by cbn; f_equal|cbn; constructor; [by eexists|done]]].
    constructor; [|done]. unfold deposit_labelled. cbn. by rewrite Hod.
Qed.

Lemma refresh_borrows_labelled entries borrowed entries' borrows borrowed' :
  binding.refresh_borrows all_reserves tokens_oracle entries borrowed = Ok (entries', borrows, borrowed') →
  Forall borrow_labelled borrows ∧ b_borrow_reserve <$> borrows = borrow_reserve <$> entries ∧
  Forall (λ k, is_Some (all_reserves !! k)) (borrow_reserve <$> entries).
Proof.
  revert borrowed entries' borrows borrowed'.
  induction entries as [|l entries IH]; intros borrowed entries' borrows borrowed'; cbn [binding.refresh_borrows].
  - intros [= <- <- <-]. by split.
  - intros (od & Hod%lookup_or_invalid_Ok & Hrun)%bind_Ok. apply bind_Ok in Hrun as (e & He%lookup_or_invalid_Ok & Hrun).
    apply bind_Ok in Hrun as (l1 & Hl1%boxed_try_Ok & Hrun). apply bind_Ok in Hrun as (v & Hv & Hrun).
    apply bind_Ok in Hrun as (b1 & Hb & Hrun).
    apply bind_Ok in Hrun as ([[l2 l3] b2] & Hl & [= <- <- <-]).
    destruct (IH _ _ _ _ Hl) as (IH1 & IH2 & IH3). apply liquidity_accrue_reserve in Hl1 as E.
    split; [|split; [by cbn; f_equal|cbn; constructor; [by eexists|done]]]. constructor; [|done]. unfold borrow_labelled. cbn. by rewrite E, Hod.
Qed.

(** What is picked is an entry of the obligation, labelled by the prices, which
    cover every entry. *)
Lemma assess_Some obligation d b :
  helpers.assess all_reserves tokens_oracle obligation = Ok (Some (d, b)) →
  deposit_labelled d ∧ d_deposit_reserve d ∈ deposit_reserve <$> o_deposits (e_inner obligation) ∧
  borrow_labelled b ∧ b_borrow_reserve b ∈ borrow_reserve <$> o_borrows (e_inner obligation) ∧
  ∀ k, k ∈ Client.total_reserves (e_inner obligation) →
    is_Some (tokens_oracle !! k) ∧ is_Some (all_reserves !! k).
Proof.
  unfold helpers.assess. destruct (binding.refresh_obligation _ _ _) as [[[o ds] bs]|e|] eqn:E; [|done..].
  intros [= Hpick]. destruct (helpers.underwater o); [|done].
  apply select_Some in Hpick as (Hd & _ & Hb & _).
  unfold binding.refresh_obligation in E. apply bind_Ok in E as ([[cs ds'] vs] & Hds & E).
  apply bind_Ok in E as ([[ls bs'] bv] & Hbs & [= _ -> ->]).
  apply refresh_deposits_labelled in Hds as (Hdl & Hde & Hdr).
  apply refresh_borrows_labelled in Hbs as (Hbl & Hbe & Hbr).
  assert (Hall : ∀ k, k ∈ Client.total_reserves (e_inner obligation) → is_Some (all_reserves !! k)).
  { apply Forall_forall. unfold Client.total_reserves. by apply Forall_app. }
  rewrite Forall_forall in Hdl. rewrite Forall_forall in Hbl.
  split; [by apply Hdl|]. split; [by rewrite <- Hde; apply list_elem_of_fmap_2|].
  split; [by apply Hbl|]. split; [by rewrite <- Hbe; apply list_elem_of_fmap_2|].
  intros k Hk. split; [|by apply Hall]. revert Hk.
  unfold Client.total_reserves. rewrite <- Hde, <- Hbe.
  intros [(x & -> & Hx)%list_elem_of_fmap|(x & -> & Hx)%list_elem_of_fmap]%elem_of_app.
  - specialize (Hdl x Hx). unfold deposit_labelled in Hdl. by destruct (tokens_oracle !! _).
  - specialize (Hbl x Hx). unfold borrow_labelled in Hbl. by destruct (tokens_oracle !! _).
Qed.

End listed.

(** ** The picked reserves in the configuration *)

Section picked.
Context `{S : Sdk} `{C : !ClientSdk}.
Context (node : Node) (market : Market) (tokens_oracle : gmap Pubkey OracleData).
Context (Horacle : ClientFetch.get_token_oracle_data node (mk_reserves market) = Ok tokens_oracle).

Lemma deposit_labelled_reserve d :
  deposit_labelled tokens_oracle d →
  ∃ r, r ∈ mk_reserves market ∧ has_symbol (d_symbol d) r ∧
    pubkey_from_str (rs_address r) = Some (d_deposit_reserve d).
Proof.
  unfold deposit_labelled. destruct (tokens_oracle !! d_deposit_reserve d) as [od|] eqn:E; [|done].
  intros [= <-]. destruct (get_token_oracle_data_lookup _ _ _ _ _ Horacle E) as (r & Hr & (Hs & Ha & _) & <-).
  by exists r.
Qed.

Lemma borrow_labelled_reserve b :
  borrow_labelled tokens_oracle b →
  ∃ r, r ∈ mk_reserves market ∧ has_symbol (b_symbol b) r ∧
    pubkey_from_str (rs_address r) = Some (b_borrow_reserve b) ∧
    pubkey_from_str (lt_mint (rs_liquidity_token r)) = Some (b_mint_address b).
Proof.
  unfold borrow_labelled. destruct (tokens_oracle !! b_borrow_reserve b) as [od|] eqn:E; [|done].
  intros [= <- <-]. destruct (get_token_oracle_data_lookup _ _ _ _ _ Horacle E) as (r & Hr & (Hs & Ha & Hm) & <-).
  by exists r.
Qed.

(** With distinct symbols, the plan names the picked reserves. *)
Lemma planned_picked d b p :
  distinct_symbols market → deposit_labelled tokens_oracle d → borrow_labelled tokens_oracle b →
  planned market (b_symbol b) (d_symbol d) p →
  p_repay_reserve p = b_borrow_reserve b ∧ p_repay_mint p = b_mint_address b ∧
  p_withdraw_reserve p = d_deposit_reserve d.
Proof.
  intros Hd (rd & Hrd & Hsd & Had)%deposit_labelled_reserve (rb & Hrb & Hsb & Hab & Hmb)%borrow_labelled_reserve.
  intros [(r1 & [Hr1 Hs1]%first_with_elem & Hm1) (r2 & [Hr2 Hs2]%last_with_elem & Ha2 & _)
    _ (r4 & [Hr4 Hs4]%last_with_elem & Ha4 & _) _].
  rewrite (distinct_symbols_eq market (b_symbol b) r1 rb) in Hm1 by done.
  rewrite (distinct_symbols_eq market (b_symbol b) r2 rb) in Ha2 by done.
  rewrite (distinct_symbols_eq market (d_symbol d) r4 rd) in Ha4 by done.
  split_and!; congruence.
Qed.

(** Every address of the configuration parses. *)
Definition parses (s : string) : Prop := is_Some (pubkey_from_str s).

Record config_parses : Prop := {
  cp_market : parses (mk_address market);
  cp_reserves : ∀ r, r ∈ mk_reserves market →
    parses (rs_address r) ∧ parses (rs_pyth_oracle r) ∧ parses (rs_switchboard_oracle r) ∧
    parses (lt_mint (rs_liquidity_token r)) ∧ parses (rs_collateral_mint_address r) ∧
    parses (rs_collateral_supply_address r) ∧ parses (rs_liquidity_address r) ∧
    parses (rs_liquidity_fee_receiver_address r);
}.

Lemma parse_is_Ok s : parses s → ∃ k, (parse_pubkey s : boxed Pubkey) = Ok k.
Proof. intros [k Hk]. exists k. unfold parse_pubkey. by rewrite Hk. Qed.

Lemma refresh_reserve_ix_is_Ok k :
  config_parses → is_Some (tokens_oracle !! k) → is_Ok (Client.refresh_reserve_ix market k).
Proof.
  intros Hc [od Hod].
  destruct (get_token_oracle_data_lookup _ _ _ _ _ Horacle Hod) as (r & Hr & (_ & Ha & _) & <-).
  unfold Client.refresh_reserve_ix.
  match goal with |- is_Ok (Client.find_where ?l ?f ≫= _) => destruct (find_where_is_Ok f l r) as [info Hi] end.
  - intros y Hy. destruct (parse_is_Ok (rs_address y)) as [k Hk]; [by apply Hc|]. rewrite Hk. by eexists.
  - done.
  - unfold parse_pubkey. rewrite Ha. cbn. by rewrite Z.eqb_refl.
  - rewrite Hi. cbn [mbind result_bind]. apply find_where_elem in Hi.
    destruct (cp_reserves Hc info Hi) as (_ & [k1 H1]%parse_is_Ok & [k2 H2]%parse_is_Ok & _).
    rewrite H1. cbn [mbind result_bind]. rewrite H2. by eexists.
Qed.

Lemma find_by_symbol_is_Ok symbol r :
  r ∈ mk_reserves market → has_symbol symbol r → is_Ok (Client.find_by_symbol market symbol).
Proof.
  intros Hr Hs. unfold Client.find_by_symbol. eapply find_where_is_Ok; [|exact Hr|].
  - intros y _. by eexists.
  - unfold mret, result_ret. by rewrite bool_decide_eq_true_2.
Qed.

(** What is picked is sent. *)
Lemma liquidate_and_redeem_is_Ok node' payer amount all_reserves obligation d b `{!ClientLaws} :
  config_parses → is_Some (get_latest_blockhash node') →
  helpers.assess all_reserves tokens_oracle obligation = Ok (Some (d, b)) →
  ∃ ixs, Client.liquidate_and_redeem node' payer amount b d market obligation = Ok ixs.
Proof.
  intros Hc [hash Hhash] (Hd & _ & Hb & _ & Hk)%assess_Some.
  apply deposit_labelled_reserve in Hd as (rd & Hrd & Hsd & _).
  apply borrow_labelled_reserve in Hb as (rb & Hrb & Hsb & _).
  destruct (find_by_symbol_is_Ok _ _ Hrd Hsd) as [wi Hwi]. destruct (find_by_symbol_is_Ok _ _ Hrb Hsb) as [ri Hri].
  destruct (reserve_symbol_map_elem _ _ _ Hrd Hsd) as [w Hw]. destruct (reserve_symbol_map_elem _ _ _ Hrb Hsb) as [r Hr].
  assert (Hin : ∀ x, x ∈ [wi; ri; w; r] → x ∈ mk_reserves market).
  { apply find_by_symbol_Ok, first_with_elem in Hwi as [Hwi _], Hri as [Hri _].
    apply reserve_symbol_map_Some, last_with_elem in Hw as [Hw _], Hr as [Hr _].
    by intros x [->|[->|[->|[->|?%elem_of_nil]%elem_of_cons]%elem_of_cons]%elem_of_cons]%elem_of_cons. }
  unfold Client.liquidate_and_redeem.
  match goal with |- ∃ ixs, (?run ≫= _) = _ => destruct run as [refreshes|e|] eqn:Erun end.
  2,3: exfalso; match type of Erun with try_fold ?f ?acc ?l = _ =>
         destruct (try_fold_is_Ok f acc l) as [m' Hm'];
           [|congruence] end; intros ixs k Hku; apply uniq_reserve_addresses_spec in Hku;
         destruct (refresh_reserve_ix_is_Ok k Hc (proj1 (Hk k Hku))) as [ix Hix]; rewrite Hix; by eexists.
  destruct (cp_reserves Hc ri) as (_ & _ & _ & [k1 H1]%parse_is_Ok & _); [apply Hin; solve_in|].
  destruct (cp_reserves Hc wi) as (_ & _ & _ & [k2 H2]%parse_is_Ok & _); [apply Hin; solve_in|].
  destruct (cp_reserves Hc w) as ([k3 H3]%parse_is_Ok & _ & _ & _ & [k4 H4]%parse_is_Ok &
    [k5 H5]%parse_is_Ok & [k6 H6]%parse_is_Ok & [k7 H7]%parse_is_Ok); [apply Hin; solve_in|].
  destruct (cp_reserves Hc r) as ([k8 H8]%parse_is_Ok & _ & _ & _ & _ & _ & [k9 H9]%parse_is_Ok & _);
    [apply Hin; solve_in|].
  destruct (parse_is_Ok _ (cp_market Hc)) as [km Hkm].
  cbn [mbind result_bind]. rewrite Hri. cbn [mbind result_bind]. rewrite H1. cbn [mbind result_bind].
  rewrite Hwi. cbn [mbind result_bind]. rewrite Hw, Hr, H4. cbn [mbind result_bind].
  destruct (substitute_eq node' payer k4) as (o1 & -> & _).
  rewrite H2. cbn [mbind result_bind]. destruct (substitute_eq node' payer k2) as (o2 & -> & _).
  rewrite H8, H9. cbn [mbind result_bind]. rewrite H3, H5. cbn [mbind result_bind].
  rewrite H6, H7, Hkm, Hhash. cbn [mbind result_bind mret result_ret]. by eexists.
Qed.

End picked.

(** ** Properties *)

(** The transaction that the liquidator sends.  It refreshes every reserve of
    the obligation exactly once, then the obligation, with its reserves listed in
    the order of its deposits and then its borrows, then creates the token
    accounts that the payer lacks, and last liquidates and redeems: paying from
    the payer's account of the repaid token into the accounts of the two
    configuration entries with the picked symbols. *)
Theorem liquidation_transaction `{S : Sdk} `{C : ClientSdk} `{L : !ClientLaws}
    (node : Node) (payer amount : Z) (b : Borrow) (d : Deposit) (market : Market)
    (obligation : Enhanced Obligation) (ixs : list Instruction)
    (H : Client.liquidate_and_redeem node payer amount b d market obligation = Ok ixs) :
  ∃ keys refreshes p,
    NoDup keys ∧ (∀ k, k ∈ keys ↔ k ∈ Client.total_reserves (e_inner obligation)) ∧
    Forall2 (refreshes_reserve market) keys refreshes ∧
    planned market (b_symbol b) (d_symbol d) p ∧
    ixs = refreshes
      ++ [instruction.refresh_obligation SOLEND_PROGRAM_ID (e_pubkey obligation)
            (Client.total_reserves (e_inner obligation))]
      ++ creation node payer (p_collateral_mint p) ++ creation node payer (p_withdraw_mint p)
      ++ [liquidation_ix payer amount (e_pubkey obligation) p].
Proof.
  destruct (liquidate_and_redeem_Ok _ _ _ _ _ _ _ _ H) as (refreshes & p & Hr & Hp & E).
  destruct (uniq_reserve_addresses_spec (e_inner obligation)) as [Hd Hk].
  by exists (Client.uniq_reserve_addresses (e_inner obligation)), refreshes, p.
Qed.

(** C19: what the liquidator picks, it liquidates.  When the configuration's
    addresses parse and its symbols are distinct and the node answers, a deposit and a borrow picked
    with the prices of that configuration always lead to a transaction, whose
    last instruction repays the picked borrow's reserve, from the payer's account
    of that borrow's mint, and withdraws from the picked deposit's reserve, for
    that obligation; both are entries of the obligation. *)
Theorem picked_reserves_are_liquidated `{S : Sdk} `{C : ClientSdk} `{L : !ClientLaws}
    (node node' : Node) (payer amount : Z) (market : Market)
    (all_reserves : gmap Pubkey (Enhanced Reserve)) (tokens_oracle : gmap Pubkey OracleData)
    (obligation : Enhanced Obligation) (d : Deposit) (b : Borrow)
    (Hsymbols : distinct_symbols market) (Hparses : config_parses market)
    (Hblockhash : is_Some (get_latest_blockhash node'))
    (Horacle : ClientFetch.get_token_oracle_data node (mk_reserves market) = Ok tokens_oracle)
    (Hpick : helpers.assess all_reserves tokens_oracle obligation = Ok (Some (d, b))) :
  ∃ before p,
    Client.liquidate_and_redeem node' payer amount b d market obligation
      = Ok (before ++ [liquidation_ix payer amount (e_pubkey obligation) p]) ∧
    p_repay_reserve p = b_borrow_reserve b ∧ p_repay_mint p = b_mint_address b ∧
    p_withdraw_reserve p = d_deposit_reserve d ∧
    b_borrow_reserve b ∈ borrow_reserve <$> o_borrows (e_inner obligation) ∧
    d_deposit_reserve d ∈ deposit_reserve <$> o_deposits (e_inner obligation).
Proof.
  destruct (liquidate_and_redeem_is_Ok node market tokens_oracle Horacle node' payer amount
    all_reserves obligation d b Hparses Hblockhash Hpick) as [ixs Hixs].
  destruct (liquidate_and_redeem_Ok _ _ _ _ _ _ _ _ Hixs) as (refreshes & p & _ & Hp & E).
  apply assess_Some in Hpick as (Hd & Hdi & Hb & Hbi & _).
  destruct (planned_picked node market tokens_oracle Horacle d b p Hsymbols Hd Hb Hp) as (E1 & E2 & E3).
  eexists _, p. rewrite Hixs, E, !(assoc_L (++)). split; [reflexivity|]. by split_and!.
Qed.

(** The error that callers handle does not occur.  [liquidate_and_redeem]
    never returns [ReservesAreNotIdentified], nor any error: when no reserve of
    the configuration has the symbol of the borrow or of the deposit, the search
    before the test panics. *)
Theorem reserves_are_always_identified `{S : Sdk} `{C : ClientSdk}
    (node : Node) (payer amount : Z) (b : Borrow) (d : Deposit) (market : Market)
    (obligation : Enhanced Obligation) :
  (∀ e, Client.liquidate_and_redeem node payer amount b d market obligation ≠ Err e) ∧
  (Forall (λ r, ¬ has_symbol (b_symbol b) r) (mk_reserves market) ∨
   Forall (λ r, ¬ has_symbol (d_symbol d) r) (mk_reserves market) →
   Client.liquidate_and_redeem node payer amount b d market obligation = Panic).
Proof.
  assert (Hne : ∀ e, Client.liquidate_and_redeem node payer amount b d market obligation ≠ Err e).
  { intros e. apply liquidate_and_redeem_not_Err. }
  split; [done|]. intros Hnone.
  destruct (Client.liquidate_and_redeem _ _ _ _ _ _ _) as [ixs|e|] eqn:E; [|by destruct (Hne e)|done].
  apply liquidate_and_redeem_Ok in E as (_ & p & _ & [(r & Hr & _) _ (r' & Hr' & _) _ _] & _).
  apply first_with_elem in Hr as [Hr Hs], Hr' as [Hr' Hs'].
  exfalso. destruct Hnone as [Hn|Hn]; rewrite Forall_forall in Hn; [by apply (Hn r)|by apply (Hn r')].
Qed.

#[local] Existing Instance test_sdk.
#[local] Existing Instance test_client.

(** The prices of the sample configuration *)
Definition config_oracles : gmap Pubkey OracleData :=
  match ClientFetch.get_token_oracle_data (node_of deep_ledger) (mk_reserves sample_config_market) with
  | Ok m => m
  | _ => ∅
  end.

Lemma config_market_parses : config_parses sample_config_market.
Proof.
  split; [by eexists|]. intros r Hr.
  repeat (apply elem_of_cons in Hr as [->|Hr]); [..|by apply elem_of_nil in Hr].
  all: split_and!; by eexists.
Qed.

Lemma picked_reserves_are_liquidated_witness :
  ∃ d b before p,
    helpers.assess sample_reserves config_oracles (mkEnhanced deep_obligation 50) = Ok (Some (d, b)) ∧
    Client.liquidate_and_redeem (node_of deep_ledger) 21 500 b d sample_config_market
      (mkEnhanced deep_obligation 50) = Ok (before ++ [liquidation_ix 21 500 50 p]) ∧
    p_repay_reserve p = 33 ∧ p_repay_mint p = 133 ∧ p_withdraw_reserve p = 31.
Proof.
  destruct (helpers.assess sample_reserves config_oracles (mkEnhanced deep_obligation 50))
    as [[[d b]|]| |] eqn:E; try (vm_compute in E; discriminate E).
  assert (Hk : d_deposit_reserve d = 31 ∧ b_borrow_reserve b = 33 ∧ b_mint_address b = 133).
  { vm_compute in E. injection E as <- <-. by split. }
  destruct (picked_reserves_are_liquidated (node_of deep_ledger) (node_of deep_ledger) 21 500
    sample_config_market sample_reserves config_oracles (mkEnhanced deep_obligation 50) d b)
    as (before & p & Hix & H1 & H2 & H3 & _).
  - unfold distinct_symbols. by apply (bool_decide_unpack _); vm_compute.
  - apply config_market_parses.
  - by eexists.
  - vm_compute. reflexivity.
  - exact E.
  - destruct Hk as (E1 & E2 & E3). rewrite E1, E2, E3 in *.
    exists d, b, before, p. split; [reflexivity|]. split; [exact Hix|]. by split_and!.
Defined.

Lemma liquidation_transaction_witness :
  ∃ ixs (keys : list Pubkey) (refreshes : list Instruction),
    Client.liquidate_and_redeem (node_of deep_ledger) 21 500
      (mkBorrow 33 Decimal.one Decimal.one 133 "USDC") (mkDeposit 31 1 Decimal.one "SOL")
      sample_config_market (mkEnhanced deep_obligation 50) = Ok ixs ∧ length ixs = 7%nat ∧
    NoDup keys ∧ (∀ k, k ∈ keys ↔ k ∈ Client.total_reserves deep_obligation) ∧
    Forall2 (refreshes_reserve sample_config_market) keys refreshes ∧
    take (length refreshes) ixs = refreshes.
Proof.
  destruct (Client.liquidate_and_redeem (node_of deep_ledger) 21 500
      (mkBorrow 33 Decimal.one Decimal.one 133 "USDC") (mkDeposit 31 1 Decimal.one "SOL")
      sample_config_market (mkEnhanced deep_obligation 50)) as [ixs| |] eqn:E;
    try (vm_compute in E; discriminate E).
  destruct (liquidation_transaction _ _ _ _ _ _ _ _ E) as (keys & refreshes & p & Hd & Hk & Hr & _ & Hixs).
  exists ixs, keys, refreshes. split; [reflexivity|]. split; [vm_compute in E; injection E as <-; reflexivity|].
  split; [exact Hd|]. split; [exact Hk|]. split; [exact Hr|]. rewrite Hixs. apply take_app_length.
Defined.

Lemma reserves_are_always_identified_witness :
  Client.liquidate_and_redeem (node_of deep_ledger) 21 500
      (mkBorrow 33 Decimal.one Decimal.one 133 "NONE") (mkDeposit 31 1 Decimal.one "SOL")
      sample_config_market (mkEnhanced deep_obligation 50) = Panic.
Proof.
  apply (reserves_are_always_identified (node_of deep_ledger) 21 500
    (mkBorrow 33 Decimal.one Decimal.one 133 "NONE")).
  left. repeat constructor; discriminate.
Defined.
