(* ===== verification/ClientMarkets.v ===== *)
(** * The liquidator's loop

    The state that the client keeps ([MarketsCapsule], [MarketReservesRetriever]
    of [solend-liquidator/src/client.rs]), one round over it ([process_markets] of
    [helpers.rs]) and the runs of rounds.  The tasks of a round are awaited in the
    order in which they are spawned; tasks that write the shared capsule may do so
    in any order, which the properties cover.  A panic in any task ends the
    client, so it is the outcome of the round.  With the modes of [main.rs] and the
    meter of [performance.rs] that times a round. *)

From Stdlib Require Import Sorting.Sorted.
From S2P Require Import ClientModel.
From S2P Require Import Prelude Errors FixedPoint StateBase Reserve Obligation Solana.
From S2P Require Import Builders Oracle ClientFetch ClientRefresh ClientSelect ClientTransaction.

(** ** The state *)

Record MarketReservesRetriever : Type := mkMarketReservesRetriever {
  mr_inner : MarketData;
  mr_lending_market : string;
  mr_input_reserves : option (list Resef);
  mr_initialized : bool;
}.

(** [Default] *)
Definition default_MarketData : MarketData := mkMarketData ∅ ∅ ∅.

Definition set_inner (self : MarketReservesRetriever) (data : MarketData) (initialized : bool) :
    MarketReservesRetriever :=
  mkMarketReservesRetriever data (mr_lending_market self) (mr_input_reserves self) initialized.

Module MarketReservesRetriever.
Section retriever.
Context `{Sdk} `{ClientSdk}.

Definition new (lending_market : string) (input_reserves : list Resef) : MarketReservesRetriever :=
  mkMarketReservesRetriever default_MarketData lending_market (Some input_reserves) false.

Definition update_market_data (self : MarketReservesRetriever) (market_data : MarketData) :
    MarketReservesRetriever :=
  set_inner self market_data true.

Definition update_distinct_obligation (self : MarketReservesRetriever)
    (obligation : Enhanced Obligation) : MarketReservesRetriever :=
  set_inner self
    (mkMarketData (md_oracle_data (mr_inner self))
       (<[e_pubkey obligation := obligation]> (md_obligations (mr_inner self)))
       (md_reserves (mr_inner self)))
    (mr_initialized self).

(** The three requests run together. *)
Definition fetch_market_data (self : MarketReservesRetriever) (node : Node) : boxed MarketData :=
  input_reserves ← unwrap (mr_input_reserves self);
  let lending_market := mr_lending_market self in
  let obligation_pubkeys := hash_set_into_iter (dom (md_obligations (mr_inner self))) in
  reserves ← ClientFetch.get_reserves node lending_market;
  oracle_data ← ClientFetch.get_token_oracle_data node input_reserves;
  all_obligations ←
    (if negb (mr_initialized self) then ClientFetch.get_obligations node lending_market
     else ClientFetch.update_obligations node obligation_pubkeys);
  mret (mkMarketData oracle_data all_obligations reserves).

End retriever.
End MarketReservesRetriever.

(** The capsule's client is the one that runs. *)
Abbreviation MarketsCapsule := (gmap string MarketReservesRetriever).

Module MarketsCapsule.
Section capsule.
Context `{Sdk} `{ClientSdk}.
Implicit Types (self : MarketsCapsule).

Definition new : MarketsCapsule := ∅.

(** Both updates do nothing for a market that the capsule does not have. *)
Definition update_market_data_for self (market : string) (market_data : MarketData) : MarketsCapsule :=
  alter (λ target, MarketReservesRetriever.update_market_data target market_data) market self.

Definition update_distinct_obligation_for self (market : string) (obligation : Enhanced Obligation) :
    MarketsCapsule :=
  alter (λ target, MarketReservesRetriever.update_distinct_obligation target obligation) market self.

Definition update_initially self (market : string) (input_reserves : list Resef) : MarketsCapsule :=
  <[market := MarketReservesRetriever.new market input_reserves]> self.

Definition read_for self (market : string) : boxed MarketReservesRetriever := unwrap (self !! market).

Definition fetch_market_data_for self (market : string) (node : Node) : boxed MarketData :=
  market ← unwrap (self !! market);
  MarketReservesRetriever.fetch_market_data market node.

Definition fetch_distinct_obligation_for (node : Node) (obligation : Pubkey) :
    boxed (Enhanced Obligation) :=
  updated_obligation ← ClientFetch.get_obligation node obligation;
  unwrap updated_obligation.

End capsule.
End MarketsCapsule.

(** ** One round *)

(** What the node answers to the tasks of a round: to the fetch of a market, and
    to the steps of the task that liquidates an obligation *)
Record Round : Type := mkRound {
  rd_fetch : string → Node;
  rd_create : Pubkey → Node;
  rd_wallet : Pubkey → Node;
  rd_trade : Pubkey → Node;
  rd_after : Pubkey → Node;
}.

(** The transactions that a task sends, and what it learns of the obligation *)
Record Outcome : Type := mkOutcome {
  oc_sent : list (list Instruction);
  oc_update : option (string * Enhanced Obligation);
}.

Section round.
Context `{Sdk} `{ClientSdk}.
Context (payer : Pubkey) (round : Round).

(** The task that liquidates a picked obligation *)
Definition liquidate (current_market : Market) (r_obligation : Enhanced Obligation)
    (r : option (Deposit * Borrow)) : boxed Outcome :=
  match r with
  | None => mret (mkOutcome [] None)
  | Some (selected_deposit, selected_borrow) =>
      let key := e_pubkey r_obligation in
      '(_, created) ←
        ClientFetch.get_or_create_account_data (rd_create round key) payer payer
          (b_mint_address selected_borrow);
      retrieved_wallet_data ←
        ClientFetch.get_wallet_token_data (rd_wallet round key) payer
          (b_mint_address selected_borrow) (b_symbol selected_borrow);
      retrieved_wallet_data ← unwrap retrieved_wallet_data;
      if wb_balance retrieved_wallet_data =? 0 then mret (mkOutcome (option_list created) None)
      else
        liqudity_amount ← U256_as_u64 (wb_balance retrieved_wallet_data);
        match Client.liquidate_and_redeem (rd_trade round key) payer liqudity_amount
                selected_borrow selected_deposit current_market r_obligation with
        | Ok sent =>
            updated_obligation ← ClientFetch.get_obligation (rd_after round key) key;
            updated_obligation ← unwrap updated_obligation;
            mret (mkOutcome (option_list created ++ [sent])
                    (Some (mk_address current_market, updated_obligation)))
        | Err _ => mret (mkOutcome (option_list created) None)
        | Panic => Panic
        end
  end.

(** The entries of a map, in the order of their keys *)
Definition entries (all_obligations : gmap Pubkey (Enhanced Obligation)) : list (Enhanced Obligation) :=
  omap (λ k, all_obligations !! k) (hash_set_into_iter (dom all_obligations)).

(** The task of one market: every obligation is assessed, then the picked ones
    are liquidated. *)
Definition process_market (markets : MarketData) (current_market : Market) : boxed (list Outcome) :=
  let all_obligations := entries (md_obligations markets) in
  picks ←
    mapM (λ r_obligation, helpers.assess (md_reserves markets) (md_oracle_data markets) r_obligation)
      all_obligations;
  mapM (λ '(r_obligation, r), liquidate current_market r_obligation r) (zip all_obligations picks).

Definition fetch_all (markets_list : SolendConfig) (markets_capsule : MarketsCapsule) :
    boxed (list (string * MarketData)) :=
  mapM
    (λ current_market,
      let market := mk_address current_market in
      data ← MarketsCapsule.fetch_market_data_for markets_capsule market (rd_fetch round market);
      mret (market, data))
    markets_list.

Definition persist (markets_capsule : MarketsCapsule) (fetched : list (string * MarketData)) :
    MarketsCapsule :=
  foldl (λ w '(market, market_data), MarketsCapsule.update_market_data_for w market market_data)
    markets_capsule fetched.

Definition process_all (markets_list : SolendConfig) (markets_capsule : MarketsCapsule) :
    boxed (list (list Outcome)) :=
  mapM
    (λ current_market,
      markets ← MarketsCapsule.read_for markets_capsule (mk_address current_market);
      process_market (mr_inner markets) current_market)
    markets_list.

Definition apply_updates (markets_capsule : MarketsCapsule)
    (updates : list (string * Enhanced Obligation)) : MarketsCapsule :=
  foldl (λ w '(lending_market, updated_obligation),
          MarketsCapsule.update_distinct_obligation_for w lending_market updated_obligation)
    markets_capsule updates.

Definition process_markets (markets_list : SolendConfig) (markets_capsule : MarketsCapsule) :
    boxed (MarketsCapsule * list Outcome) :=
  fetched ← fetch_all markets_list markets_capsule;
  let markets_capsule := persist markets_capsule fetched in
  outcomes ← process_all markets_list markets_capsule;
  let outcomes := concat outcomes in
  mret (apply_updates markets_capsule (omap oc_update outcomes), outcomes).

End round.

(** ** Runs *)

(** The capsule before the first round *)
Definition initial_capsule (solend_cfg : SolendConfig) : MarketsCapsule :=
  foldl (λ w current_market,
          MarketsCapsule.update_initially w (mk_address current_market) (mk_reserves current_market))
    MarketsCapsule.new solend_cfg.

Section run.
Context `{Sdk} `{ClientSdk}.
Context (payer : Pubkey) (solend_cfg : SolendConfig).

(** [run_liquidator_iter] *)
Definition run_liquidator_iter (round : Round) : boxed (MarketsCapsule * list Outcome) :=
  process_markets payer round solend_cfg (initial_capsule solend_cfg).

(** [run_eternal_liquidator] after the given rounds *)
Definition run_rounds (rounds : list Round) : boxed MarketsCapsule :=
  try_fold
    (λ markets_capsule round, '(markets_capsule, _) ← process_markets payer round solend_cfg markets_capsule;
                              mret markets_capsule)
    (initial_capsule solend_cfg) rounds.

(** [main]: the mode of the command line *)
Definition main (mode : string) (rounds : list Round) : boxed MarketsCapsule :=
  if decide (mode = "eternal"%string) then run_rounds rounds
  else if decide (mode = "iter"%string) then
    match rounds with
    | round :: _ => fst <$> run_liquidator_iter round
    | [] => mret (initial_capsule solend_cfg)
    end
  else Panic.

(** A run of one round is the eternal run that is stopped after it. *)
Lemma iter_is_first_round round : main "iter" [round] = main "eternal" [round].
Proof.
  unfold main. cbn. unfold run_liquidator_iter. destruct (process_markets _ _ _ _) as [[m o]| |]; done.
Qed.

End run.

(** ** [performance.rs]: the times of a round *)

Inductive Setting : Type := Ms | Micros.

Record PerformanceMeter : Type := mkPerformanceMeter {
  points_table : gmap string Z;
  points_order : list string;
  setting : Setting;
}.

Module PerformanceMeter.
Implicit Types (self : PerformanceMeter).

Definition new (setting : Setting) : PerformanceMeter := mkPerformanceMeter ∅ [] setting.

(** The clock, in microseconds since the epoch, is given. *)
Definition timestamp self (clock : Z) : Z :=
  match setting self with Ms => clock `div` 1000 | Micros => clock end.

Definition add_point self (tag : string) (clock : Z) : PerformanceMeter :=
  mkPerformanceMeter (<[tag := timestamp self clock]> (points_table self)) (points_order self ++ [tag]) (setting self).

Definition clear self : PerformanceMeter := mkPerformanceMeter ∅ [] (setting self).

(** A subtraction of [u128]: without [overflow_checks], as in a release build, it wraps. *)
Definition sub_u128 (overflow_checks : bool) (x y : Z) : boxed Z :=
  if x <? y then if overflow_checks then Panic else Ok ((x - y) mod 2 ^ 128) else Ok (x - y).

(** One line that is printed: two tags and the time between them *)
Definition measure_line (overflow_checks : bool) (table : gmap string Z) (points : string * string) :
    boxed (string * string * Z) :=
  current ← unwrap (table !! points.1);
  next ← unwrap (table !! points.2);
  took ← sub_u128 overflow_checks next current;
  mret (points, took).

(** Without a point [n - 1] underflows, or it wraps and the first index is out of
    bounds. *)
Definition measure (overflow_checks : bool) self : boxed (list (string * string * Z)) :=
  match points_order self with
  | [] => Panic
  | (_ :: rest) as order => mapM (measure_line overflow_checks (points_table self)) (zip order rest)
  end.

(** *** What is measured *)

Definition add_points self (points : list (string * Z)) : PerformanceMeter :=
  foldl (λ m p, add_point m (fst p) (snd p)) self points.

Lemma add_points_order self points : points_order (add_points self points) = points_order self ++ (fst <$> points).
Proof.
  revert self. induction points as [|[t n] points IH]; intros self; cbn; [by rewrite app_nil_r|].
  rewrite IH. cbn. by rewrite <- (assoc_L (++)).
Qed.

Lemma add_points_setting self points : setting (add_points self points) = setting self.
Proof. revert self. induction points as [|p points IH]; intros self; cbn; [done|]. by rewrite IH. Qed.

Lemma add_points_other self points t :
  t ∉ fst <$> points → points_table (add_points self points) !! t = points_table self !! t.
Proof.
  revert self. induction points as [|[t' n] points IH]; intros self Hn; cbn in *; [done|].
  rewrite IH by set_solver. cbn. by rewrite lookup_insert_ne by set_solver.
Qed.

Lemma add_points_lookup self points t n :
  NoDup (fst <$> points) → (t, n) ∈ points → points_table (add_points self points) !! t = Some (timestamp self n).
Proof.
  revert self. induction points as [|[t' n'] points IH]; intros self Hnd Hin; [by apply not_elem_of_nil in Hin|].
  cbn in Hnd. apply NoDup_cons in Hnd as [Ht Hnd]. cbn. apply elem_of_cons in Hin as [[= <- <-]|Hin].
  - rewrite add_points_other by done. cbn. by rewrite lookup_insert_eq.
  - by rewrite IH.
Qed.

(** The time between each point and the next *)
Fixpoint spans (self : PerformanceMeter) (points : list (string * Z)) : list (string * string * Z) :=
  match points with
  | (a, n) :: ((b, m) :: _) as rest => (a, b, timestamp self m - timestamp self n) :: spans self rest
  | _ => []
  end.

Lemma timestamp_mono self n m : n ≤ m → timestamp self n ≤ timestamp self m.
Proof. intros. unfold timestamp. destruct (setting self); [by apply Z.div_le_mono|done]. Qed.

(** With distinct tags, and a clock that does not go back, the times are right; *)
Lemma measure_spans overflow_checks st points :
  points ≠ [] → NoDup (fst <$> points) → StronglySorted Z.le (snd <$> points) →
  measure overflow_checks (add_points (new st) points) = Ok (spans (new st) points).
Proof.
  intros Hne Hnd Hs. unfold measure. rewrite add_points_order. cbn [points_order new app].
  set (table := points_table (add_points (new st) points)).
  assert (Ht : ∀ t n, (t, n) ∈ points → table !! t = Some (timestamp (new st) n)).
  { intros t n Hin. unfold table. rewrite (add_points_lookup _ _ t n) by done. done. }
  clearbody table. clear Hnd. destruct points as [|[a n] points]; [done|]. clear Hne. cbn [fmap list_fmap fst snd] in *.
  revert a n Ht Hs. induction points as [|[b m] points IH]; intros a n Ht Hs; [done|].
  cbn [fmap list_fmap fst snd] in *. apply StronglySorted_inv in Hs as [Hs Hle]. apply Forall_cons in Hle as [Hnm _].
  assert (Hline : measure_line overflow_checks table (a, b) =
                  Ok (a, b, timestamp (new st) m - timestamp (new st) n)).
  { unfold measure_line. cbn [fst snd]. rewrite (Ht a n), (Ht b m) by set_solver. cbn [unwrap mbind result_bind].
    unfold sub_u128. by rewrite (proj2 (Z.ltb_ge _ _)) by (by apply timestamp_mono). }
  change (zip (a :: b :: points.*1) (b :: points.*1)) with ((a, b) :: zip (b :: points.*1) points.*1).
  cbn [mapM]. rewrite Hline. cbn [mbind result_bind]. rewrite (IH b m); [done| |done].
  intros t k Hin. apply Ht. set_solver.
Qed.

(** but a clock that is set back ends a build with checks, and gives nonsense in one
    without, and so does a tag that is used twice, whose first time is lost. *)
Example measure_clock_set_back :
  let m := add_points (new Ms) [("fetch"%string, 5000); ("calculate"%string, 3000)] in
  measure true m = Panic ∧ measure false m = Ok [("fetch"%string, "calculate"%string, 2 ^ 128 - 2)].
Proof. by vm_compute. Qed.

Example measure_tag_twice :
  measure true (add_points (new Ms) [("a"%string, 1000); ("b"%string, 2000); ("a"%string, 3000)]) = Panic.
Proof. by vm_compute. Qed.

End PerformanceMeter.
