(* ===== verification/ClientRounds.v ===== *)
(** * The liquidator's rounds

    Theorems about ClientMarkets: the order in which concurrent tasks write the
    capsule does not matter, what the capsule keeps from round to round, which
    obligations the client can ever see, and which it liquidates. *)

From stdpp Require Import gmap.
From S2P Require Import ClientModel.
From S2P Require Import Prelude Errors FixedPoint StateBase LendingMarket Reserve Obligation.
From S2P Require Import ObligationFacts Codec Solana Builders Oracle ProcessorFacts ProcessorInvariant.
From S2P Require Import ProcessorObligation HandlerFacts RefreshSafety Testbed TestbedFacts.
From S2P Require Import ClientFetch ClientSnapshot ClientRefresh ClientSelect.
From S2P Require Import ClientTransaction ClientLiquidation ClientMarkets.

(** ** Writes that commute *)

(** A fold whose steps commute on distinct keys does not depend on the order. *)
Lemma foldl_distinct {S A K} (key : A → K) (f : S → A → S) s l l' :
  (∀ s a b, key a ≠ key b → f (f s a) b = f (f s b) a) →
  l ≡ₚ l' → NoDup (key <$> l) → foldl f s l = foldl f s l'.
Proof.
  intros Hf Hl. revert s. induction Hl as [|a l l' Hl IH|a b l|l1 l2 l3 H1 IH1 H2 IH2]; intros s Hd; cbn.
  - done.
  - apply NoDup_cons in Hd as [_ Hd]. by apply IH.
  - cbn in Hd. apply NoDup_cons in Hd as [Hb _]. rewrite Hf; [done|].
    intros E. apply Hb. rewrite E. apply list_elem_of_here.
  - rewrite IH1 by done. apply IH2. by rewrite <- H1.
Qed.

Lemma persist_order c l l' : l ≡ₚ l' → NoDup l.*1 → persist c l = persist c l'.
Proof.
  apply (foldl_distinct fst). intros s [m1 d1] [m2 d2] Hne. cbn in *.
  by apply alter_alter_ne.
Qed.

Definition update_key (u : string * Enhanced Obligation) : string * Pubkey := (u.1, e_pubkey u.2).

Lemma apply_updates_order c l l' :
  l ≡ₚ l' → NoDup (update_key <$> l) → apply_updates c l = apply_updates c l'.
Proof.
  apply (foldl_distinct update_key). intros s [m1 o1] [m2 o2] Hne. cbn in *.
  unfold MarketsCapsule.update_distinct_obligation_for.
  destruct (decide (m1 = m2)) as [<-|]; [|by apply alter_alter_ne].
  etrans; [apply alter_alter_eq|]. etrans; [|symmetry; apply alter_alter_eq]. apply alter_ext. intros mr _. cbn.
  unfold MarketReservesRetriever.update_distinct_obligation, set_inner. cbn.
  do 2 f_equal. apply insert_insert_ne. intros E. apply Hne. unfold update_key. cbn. by rewrite E.
Qed.

(** ** A task and a market *)

Section market.
Context `{S : Sdk} `{C : ClientSdk}.
Context (payer : Pubkey) (round : Round).
Implicit Types (e : Enhanced Obligation) (market : Market).

(** The wallet's account holds [amount] tokens of the borrow's mint. *)
Definition wallet_holds (key : Pubkey) (b : Borrow) (amount : Z) : Prop :=
  ∃ acc, get_account (rd_wallet round key) (get_associated_token_address payer (b_mint_address b)) = Some acc ∧
    spl_token_amount (data acc) = Some amount.

(** What the task of an obligation has sent when it ends, also when it ends in a
    panic: the transaction that creates the wallet's account, then the
    liquidation. *)
Definition task_log market e (r : option (Deposit * Borrow)) : list (list Instruction) :=
  match r with
  | None => []
  | Some (d, b) =>
      let key := e_pubkey e in
      match ClientFetch.get_or_create_account_data (rd_create round key) payer payer (b_mint_address b) with
      | Ok (_, created) =>
          option_list created ++
          match (wallet ← ClientFetch.get_wallet_token_data (rd_wallet round key) payer (b_mint_address b) (b_symbol b);
                 unwrap wallet) with
          | Ok wallet =>
              if wb_balance wallet =? 0 then []
              else
                match (amount ← U256_as_u64 (wb_balance wallet);
                       Client.liquidate_and_redeem (rd_trade round key) payer amount b d market e) with
                | Ok sent => [sent]
                | _ => []
                end
          | _ => []
          end
      | _ => []
      end
  end.

(** It is what a task that ends well reports. *)
Lemma liquidate_log market e r out :
  liquidate payer round market e r = Ok out → oc_sent out = task_log market e r.
Proof.
  destruct r as [[d b]|]; cbn [liquidate task_log]; [|by intros [= <-]].
  intros ([a created] & -> & Hrun)%bind_Ok.
  apply bind_Ok in Hrun as (wallet & -> & Hrun). apply bind_Ok in Hrun as (wd & Hwd & Hrun).
  cbn [mbind result_bind]. rewrite Hwd.
  destruct (wb_balance wd =? 0); [injection Hrun as <-; cbn [oc_sent]; by rewrite app_nil_r|].
  apply bind_Ok in Hrun as (amount & -> & Hrun). cbn [mbind result_bind].
  destruct (Client.liquidate_and_redeem _ _ _ _ _ _ _); [|injection Hrun as <-; cbn [oc_sent]; by rewrite app_nil_r|done].
  apply bind_Ok in Hrun as (upd & _ & Hrun). by apply bind_Ok in Hrun as (upd' & _ & [= <-]).
Qed.

(** Every transaction of a task creates the wallet's account or liquidates what
    was picked, with the wallet's whole balance. *)
Lemma task_sent market e r ixs :
  ixs ∈ task_log market e r →
  ∃ d b, r = Some (d, b) ∧
    (ixs = [create_associated_token_account payer payer (b_mint_address b)] ∨
     ∃ amount, amount ≠ 0 ∧ amount < 2 ^ 64 ∧ wallet_holds (e_pubkey e) b amount ∧
       Client.liquidate_and_redeem (rd_trade round (e_pubkey e)) payer amount b d market e = Ok ixs).
Proof.
  destruct r as [[d b]|]; cbn [task_log]; [|by intros ?%elem_of_nil]. intros Hin. exists d, b. split; [done|].
  destruct (ClientFetch.get_or_create_account_data _ _ _ _) as [[a created]| |] eqn:Hc; [|by apply elem_of_nil in Hin..].
  apply elem_of_app in Hin as [Hin|Hin].
  { left. unfold ClientFetch.get_or_create_account_data in Hc.
    destruct (get_account _ _); [injection Hc as _ <-; by apply elem_of_nil in Hin|].
    apply bind_Ok in Hc as (hash & _ & Hc). destruct (send_transaction _ _); [|done].
    injection Hc as _ <-. by apply list_elem_of_singleton in Hin. }
  right. destruct (_ ≫= _) as [wd| |] eqn:Hw; [|by apply elem_of_nil in Hin..].
  apply bind_Ok in Hw as (wallet & Hwallet & Hwd%unwrap_Ok). subst wallet.
  unfold ClientFetch.get_wallet_token_data in Hwallet.
  destruct (get_account _ _) as [acc|] eqn:Eacc; [|done].
  apply bind_Ok in Hwallet as (amount & Ham%unwrap_Ok & [= <-]). cbn [wb_balance] in Hin.
  destruct (Z.eqb_spec amount 0); [by apply elem_of_nil in Hin|].
  destruct (_ ≫= _) as [sent| |] eqn:Hs in Hin; [|by apply elem_of_nil in Hin..].
  apply list_elem_of_singleton in Hin as ->. apply bind_Ok in Hs as (amount' & Hnarrow & Hs).
  unfold U256_as_u64 in Hnarrow. apply unwrap_Ok, narrow_Some in Hnarrow as [-> Hlt].
  exists amount. split_and!; [done..|by exists acc|done].
Qed.

Lemma liquidate_update market e r out addr o :
  liquidate payer round market e r = Ok out → oc_update out = Some (addr, o) →
  addr = mk_address market ∧ e_pubkey o = e_pubkey e.
Proof.
  destruct r as [[d b]|]; cbn [liquidate]; [|by intros [= <-]].
  intros ([a created] & _ & Hrun)%bind_Ok. apply bind_Ok in Hrun as (wallet & _ & Hrun).
  apply bind_Ok in Hrun as (wd & _ & Hrun). destruct (_ =? _); [by injection Hrun as <-|].
  apply bind_Ok in Hrun as (amount & _ & Hrun).
  destruct (Client.liquidate_and_redeem _ _ _ _ _ _ _); [|by injection Hrun as <-|done].
  apply bind_Ok in Hrun as (upd & Hupd & Hrun). apply bind_Ok in Hrun as (upd' & Hupd'%unwrap_Ok & [= <-]).
  subst upd. cbn [oc_update]. intros [= <- <-]. split; [done|].
  unfold ClientFetch.get_obligation in Hupd. destruct (get_account _ _); [|done].
  by apply bind_Ok in Hupd as (x & _ & [= <-]).
Qed.

Lemma entries_elem `{!ClientLaws} (m : gmap Pubkey (Enhanced Obligation)) e :
  e ∈ entries m ↔ ∃ k, m !! k = Some e.
Proof.
  unfold entries. rewrite list_elem_of_omap. split.
  { intros (k & _ & Hk). by exists k. }
  intros [k Hk]. exists k. split; [|done]. rewrite (hash_set_into_iter_perm _), elem_of_elements.
  by apply elem_of_dom_2 in Hk.
Qed.

Lemma entries_keys `{!ClientLaws} (m : gmap Pubkey (Enhanced Obligation)) :
  keyed m → e_pubkey <$> entries m = hash_set_into_iter (dom m).
Proof.
  intros Hm. unfold entries.
  assert (Hall : Forall (λ k, is_Some (m !! k)) (hash_set_into_iter (dom m))).
  { apply Forall_forall. intros k. rewrite (hash_set_into_iter_perm _), elem_of_elements. by intros ?%elem_of_dom. }
  induction Hall as [|k l [e He] _ IH]; [done|]. cbn. rewrite He. cbn. by rewrite IH, (Hm k e He).
Qed.

(** The task of a market, obligation by obligation *)
Lemma process_market_Ok data market outs :
  process_market payer round data market = Ok outs →
  Forall2 (λ e out, ∃ r, helpers.assess (md_reserves data) (md_oracle_data data) e = Ok r ∧
                         liquidate payer round market e r = Ok out)
    (entries (md_obligations data)) outs.
Proof.
  unfold process_market. set (l := entries (md_obligations data)). clearbody l.
  intros (picks & Hp%mapM_Ok & Ho%mapM_Ok)%bind_Ok.
  revert outs Ho. induction Hp as [|e r l picks Hr Hp IH]; intros outs; cbn [zip zip_with].
  - intros ->%Forall2_nil_inv_l. constructor.
  - intros (out & outs' & Ho & Hos & ->)%Forall2_cons_inv_l. constructor; [by exists r|by apply IH].
Qed.

(** What the tasks of a market have sent, also when one of them panics; a task
    whose obligation cannot be assessed sends nothing. *)
Definition market_log data market : list (list Instruction) :=
  e ← entries (md_obligations data);
  match helpers.assess (md_reserves data) (md_oracle_data data) e with
  | Ok r => task_log market e r
  | _ => []
  end.

Lemma process_market_log data market outs :
  process_market payer round data market = Ok outs → outs ≫= oc_sent = market_log data market.
Proof.
  intros Ho%process_market_Ok. unfold market_log.
  induction Ho as [|e out l outs (r & Er & Hl) Ho IH]; [done|]. cbn. by rewrite Er, (liquidate_log _ _ _ _ Hl), IH.
Qed.

Lemma process_market_updates `{!ClientLaws} data market outs :
  keyed (md_obligations data) → process_market payer round data market = Ok outs →
  Forall (λ u, u.1 = mk_address market ∧ e_pubkey u.2 ∈ dom (md_obligations data)) (omap oc_update outs) ∧
  NoDup (update_key <$> omap oc_update outs).
Proof.
  intros Hk Ho%process_market_Ok. pose proof (entries_keys _ Hk) as Ek.
  assert (Hd : NoDup (e_pubkey <$> entries (md_obligations data))).
  { rewrite Ek, (hash_set_into_iter_perm _). apply NoDup_elements. }
  assert (Hsub : Forall (λ e, e_pubkey e ∈ dom (md_obligations data)) (entries (md_obligations data))).
  { apply Forall_forall. intros e [k He]%entries_elem. rewrite (Hk k e He). by apply elem_of_dom_2 in He. }
  set (D := dom (md_obligations data)) in *. clearbody D. clear Ek. revert Hd Hsub.
  induction Ho as [|e out l outs (r & _ & Hl) Ho IH]; intros Hd Hsub; [split; constructor|].
  cbn in Hd. apply NoDup_cons in Hd as [He Hd]. apply Forall_cons in Hsub as [HeD Hsub].
  destruct (IH Hd Hsub) as [IH1 IH2]. cbn [omap list_omap].
  destruct (oc_update out) as [[addr o]|] eqn:E; [|done].
  destruct (liquidate_update _ _ _ _ _ _ Hl E) as [-> Ho']. split.
  - constructor; [|done]. cbn. by rewrite Ho'.
  - cbn. apply NoDup_cons. split; [|done]. unfold update_key at 1. cbn. rewrite Ho'.
    intros ([addr' o'] & Ea & Hin)%list_elem_of_fmap. unfold update_key in Ea. cbn in Ea.
    injection Ea as _ Ea. apply He. rewrite Ea. clear -Ho Hin.
    induction Ho as [|e1 out1 l outs (r & _ & Hl) Ho IH]; cbn [omap list_omap] in Hin; [by apply elem_of_nil in Hin|].
    destruct (oc_update out1) as [[a1 o1]|] eqn:E; [|apply list_elem_of_further; auto].
    apply elem_of_cons in Hin as [[= -> ->]|Hin]; [|apply list_elem_of_further; auto].
    destruct (liquidate_update _ _ _ _ _ _ Hl E) as [_ ->]. apply list_elem_of_here.
Qed.

End market.

(** ** A fetch *)

Section fetch.
Context `{S : Sdk} `{C : ClientSdk}.
Implicit Types (mr : MarketReservesRetriever) (node : Node).

Lemma fetch_market_data_Ok mr node data :
  MarketReservesRetriever.fetch_market_data mr node = Ok data →
  ∃ input_reserves, mr_input_reserves mr = Some input_reserves ∧
    ClientFetch.get_reserves node (mr_lending_market mr) = Ok (md_reserves data) ∧
    ClientFetch.get_token_oracle_data node input_reserves = Ok (md_oracle_data data) ∧
    (if mr_initialized mr
     then ClientFetch.update_obligations node (hash_set_into_iter (dom (md_obligations (mr_inner mr))))
     else ClientFetch.get_obligations node (mr_lending_market mr)) = Ok (md_obligations data).
Proof.
  unfold MarketReservesRetriever.fetch_market_data.
  intros (rs & Hrs%unwrap_Ok & Hrun)%bind_Ok. apply bind_Ok in Hrun as (reserves & Hr & Hrun).
  apply bind_Ok in Hrun as (oracle & Ho & Hrun). apply bind_Ok in Hrun as (obligations & Hob & [= <-]).
  exists rs. cbn. split_and!; [done..|]. by destruct (mr_initialized mr).
Qed.

Lemma fetch_keyed mr node data :
  MarketReservesRetriever.fetch_market_data mr node = Ok data → keyed (md_obligations data).
Proof.
  intros (rs & _ & _ & _ & Ho)%fetch_market_data_Ok. destruct (mr_initialized mr).
  - by eapply update_obligations_keyed.
  - by eapply get_records_keyed.
Qed.

Lemma fetch_dom `{!ClientLaws} mr node data :
  mr_initialized mr = true → MarketReservesRetriever.fetch_market_data mr node = Ok data →
  dom (md_obligations data) = dom (md_obligations (mr_inner mr)).
Proof.
  intros Hi (rs & _ & _ & _ & Ho)%fetch_market_data_Ok. rewrite Hi in Ho.
  apply update_obligations_dom in Ho.
  - rewrite Ho. apply set_eq. intros k.
    by rewrite elem_of_list_to_set, (hash_set_into_iter_perm _), elem_of_elements.
  - rewrite (hash_set_into_iter_perm _). apply NoDup_elements.
Qed.

Lemma fetch_failed mr node data market :
  mr_initialized mr = false → pubkey_from_str (mr_lending_market mr) = Some market →
  get_program_accounts node SOLEND_PROGRAM_ID (ClientFetch.market_filter market) 1300 = None →
  MarketReservesRetriever.fetch_market_data mr node = Ok data → md_obligations data = ∅.
Proof.
  intros Hi Hm Hn (rs & _ & _ & _ & Ho)%fetch_market_data_Ok. rewrite Hi in Ho.
  unfold ClientFetch.get_obligations, ClientFetch.get_records, parse_pubkey in Ho.
  rewrite Hm in Ho. cbn [unwrap mbind result_bind] in Ho. rewrite Hn in Ho. by injection Ho.
Qed.

End fetch.

(** ** The capsule from round to round *)

Section rounds.
Context `{S : Sdk} `{C : ClientSdk} `{L : !ClientLaws}.
Context (payer : Pubkey) (config : SolendConfig) (Hconfig : NoDup (mk_address <$> config)).
Implicit Types (c : MarketsCapsule) (round : Round) (market : Market).

(** The retriever of a market, set up from the configuration *)
Definition set_up market (mr : MarketReservesRetriever) : Prop :=
  mr_lending_market mr = mk_address market ∧ mr_input_reserves mr = Some (mk_reserves market) ∧
  keyed (md_obligations (mr_inner mr)).

(** Exactly the markets of the configuration are kept, with the given phase. *)
Record capsule_ok (initialized : bool) c : Prop := {
  co_dom : dom c = list_to_set (mk_address <$> config);
  co_market : ∀ market mr, market ∈ config → c !! mk_address market = Some mr →
    set_up market mr ∧ mr_initialized mr = initialized;
}.

Lemma co_lookup initialized c market :
  capsule_ok initialized c → market ∈ config →
  ∃ mr, c !! mk_address market = Some mr ∧ set_up market mr ∧ mr_initialized mr = initialized.
Proof.
  intros Hc Hm. assert (is_Some (c !! mk_address market)) as [mr Hmr].
  { apply elem_of_dom. rewrite (co_dom _ _ Hc), elem_of_list_to_set. by apply list_elem_of_fmap_2. }
  exists mr. split; [done|]. by apply (co_market _ _ Hc).
Qed.

Lemma config_eq market market' :
  market ∈ config → market' ∈ config → mk_address market = mk_address market' → market = market'.
Proof.
  intros [i Hi]%list_elem_of_lookup [j Hj]%list_elem_of_lookup E.
  assert (i = j) as <-; [|congruence].
  eapply (NoDup_lookup _ i j (mk_address market) Hconfig); by rewrite list_lookup_fmap, ?Hi, ?Hj; cbn; f_equal.
Qed.

Lemma initial_capsule_ok : capsule_ok false (initial_capsule config).
Proof.
  assert (Hgen : ∀ l, l ⊆ config →
    dom (initial_capsule l) = list_to_set (mk_address <$> l) ∧
    ∀ market mr, market ∈ config → initial_capsule l !! mk_address market = Some mr →
      set_up market mr ∧ mr_initialized mr = false).
  { intros l. induction l as [|m l IH] using rev_ind; intros Hl.
    - split; [done|]. intros market mr _. cbn. unfold MarketsCapsule.new. by rewrite lookup_empty.
    - destruct IH as [IH1 IH2]; [set_solver|]. unfold initial_capsule in *. rewrite foldl_app. cbn [foldl].
      set (w := foldl _ _ l) in *. unfold MarketsCapsule.update_initially. split.
      + rewrite dom_insert_L, IH1, fmap_app, list_to_set_app_L. cbn. set_solver.
      + intros market mr Hm. destruct (decide (mk_address m = mk_address market)) as [E|E].
        * assert (m = market) as -> by (apply config_eq; [set_solver|done..]).
          rewrite lookup_insert_eq. intros [= <-]. split; [|done]. split_and!; [done..|apply keyed_empty].
        * rewrite lookup_insert_ne by done. by apply IH2. }
  destruct (Hgen config) as [H1 H2]; [done|]. by split.
Qed.

(** *** What a round does to a market *)

Lemma persist_cons c addr data fetched :
  persist c ((addr, data) :: fetched)
  = persist (alter (λ mr, MarketReservesRetriever.update_market_data mr data) addr c) fetched.
Proof. done. Qed.

Lemma persist_lookup c fetched addr :
  NoDup fetched.*1 →
  persist c fetched !! addr =
  match c !! addr with
  | Some mr => Some match list_to_map (M := gmap string MarketData) fetched !! addr with
                    | Some data => MarketReservesRetriever.update_market_data mr data
                    | None => mr
                    end
  | None => None
  end.
Proof.
  revert c. induction fetched as [|[a data] fetched IH]; intros c.
  - intros _. cbn. by destruct (c !! addr).
  - cbn [fmap list_fmap]. intros [Ha Hd]%NoDup_cons. rewrite persist_cons, IH by done. cbn [list_to_map foldr fst snd curry uncurry].
    destruct (decide (a = addr)) as [<-|Hne].
    + rewrite lookup_alter_eq. cbn. rewrite lookup_insert_eq, (not_elem_of_list_to_map_1 _ _ Ha).
      by destruct (c !! a).
    + rewrite lookup_alter_ne by done. cbn. by rewrite lookup_insert_ne.
Qed.

Lemma fetch_all_Ok round c fetched :
  fetch_all round config c = Ok fetched →
  fetched.*1 = mk_address <$> config ∧
  ∀ market, market ∈ config → ∃ mr data,
    c !! mk_address market = Some mr ∧
    MarketReservesRetriever.fetch_market_data mr (rd_fetch round (mk_address market)) = Ok data ∧
    list_to_map (M := gmap string MarketData) fetched !! mk_address market = Some data.
Proof.
  intros Hf%mapM_Ok. assert (Ek : fetched.*1 = mk_address <$> config).
  { clear Hconfig. induction Hf as [|m [a data] l fetched Hm Hf IH]; [done|]. cbn. rewrite IH. f_equal.
    cbn in Hm. by apply bind_Ok in Hm as (d & _ & [= <- _]). }
  split; [done|]. intros market [i Hi]%list_elem_of_lookup_1.
  destruct (Forall2_lookup_l _ _ _ _ _ Hf Hi) as ([a data] & Hfi & Hrun). cbn in Hrun.
  apply bind_Ok in Hrun as (d & Hrun & [= <- <-]).
  apply bind_Ok in Hrun as (mr & Hmr%unwrap_Ok & Hrun).
  exists mr, d. split; [done|]. split; [done|]. apply elem_of_list_to_map_1; [by rewrite Ek|].
  by eapply list_elem_of_lookup_2.
Qed.

(** What updates of known obligations leave of a market *)
Record same_market (mr mr' : MarketReservesRetriever) : Prop := {
  sm_lending_market : mr_lending_market mr' = mr_lending_market mr;
  sm_input_reserves : mr_input_reserves mr' = mr_input_reserves mr;
  sm_initialized : mr_initialized mr' = mr_initialized mr;
  sm_dom : dom (md_obligations (mr_inner mr')) = dom (md_obligations (mr_inner mr));
  sm_keyed : keyed (md_obligations (mr_inner mr)) → keyed (md_obligations (mr_inner mr'));
}.

Lemma same_market_refl mr : same_market mr mr.
Proof. by split. Qed.

Lemma same_market_trans mr1 mr2 mr3 : same_market mr1 mr2 → same_market mr2 mr3 → same_market mr1 mr3.
Proof. intros [] []. split; first [congruence|auto]. Qed.

Lemma same_market_update mr o :
  e_pubkey o ∈ dom (md_obligations (mr_inner mr)) →
  same_market mr (MarketReservesRetriever.update_distinct_obligation mr o).
Proof.
  intros Ho. split; [done..| |by apply keyed_insert].
  cbn. rewrite dom_insert_L. set_solver.
Qed.

Lemma apply_updates_lookup c updates addr mr :
  c !! addr = Some mr →
  (∀ o, (addr, o) ∈ updates → e_pubkey o ∈ dom (md_obligations (mr_inner mr))) →
  ∃ mr', apply_updates c updates !! addr = Some mr' ∧ same_market mr mr'.
Proof.
  revert c mr. induction updates as [|[a o] updates IH]; intros c mr Hc Ho.
  - exists mr. split; [done|]. apply same_market_refl.
  - change (apply_updates c ((a, o) :: updates)) with
      (apply_updates (alter (λ mr, MarketReservesRetriever.update_distinct_obligation mr o) a c) updates).
    destruct (decide (a = addr)) as [->|Hne].
    + assert (Hs : same_market mr (MarketReservesRetriever.update_distinct_obligation mr o))
        by (apply same_market_update, Ho, list_elem_of_here).
      destruct (IH (alter (λ mr, MarketReservesRetriever.update_distinct_obligation mr o) addr c)
                  (MarketReservesRetriever.update_distinct_obligation mr o)) as (mr' & Hmr' & Hs').
      * by rewrite lookup_alter_eq, Hc.
      * intros o' Ho'. rewrite (sm_dom _ _ Hs). by apply Ho, list_elem_of_further.
      * exists mr'. split; [done|]. by eapply same_market_trans.
    + apply IH; [by rewrite lookup_alter_ne|]. intros o' Ho'. by apply Ho, list_elem_of_further.
Qed.

Lemma apply_updates_dom c updates : dom (apply_updates c updates) = dom c.
Proof.
  revert c. induction updates as [|[a o] updates IH]; intros c; [done|].
  change (apply_updates c ((a, o) :: updates)) with
    (apply_updates (alter (λ mr, MarketReservesRetriever.update_distinct_obligation mr o) a c) updates).
  by rewrite IH, dom_alter_L.
Qed.

Lemma persist_dom c fetched : dom (persist c fetched) = dom c.
Proof.
  revert c. induction fetched as [|[a d] fetched IH]; intros c; [done|]. by rewrite persist_cons, IH, dom_alter_L.
Qed.

(** The parts of a round *)
Lemma process_markets_Ok initialized round c c' outcomes :
  capsule_ok initialized c → process_markets payer round config c = Ok (c', outcomes) →
  ∃ fetched outs,
    fetch_all round config c = Ok fetched ∧ process_all payer round config (persist c fetched) = Ok outs ∧
    outcomes = concat outs ∧ c' = apply_updates (persist c fetched) (omap oc_update outcomes) ∧
    NoDup fetched.*1 ∧
    Forall2 (λ market out, ∃ mr data,
      c !! mk_address market = Some mr ∧ set_up market mr ∧ mr_initialized mr = initialized ∧
      MarketReservesRetriever.fetch_market_data mr (rd_fetch round (mk_address market)) = Ok data ∧
      persist c fetched !! mk_address market = Some (MarketReservesRetriever.update_market_data mr data) ∧
      process_market payer round data market = Ok out) config outs.
Proof.
  intros Hc Hrun. apply bind_Ok in Hrun as (fetched & Hf & Hrun).
  apply bind_Ok in Hrun as (outs & Ho & [= <- <-]).
  destruct (fetch_all_Ok _ _ _ Hf) as [Ek Hm].
  assert (Hd : NoDup fetched.*1) by (by rewrite Ek).
  exists fetched, outs. split_and!; [done..|]. pose proof Ho as Ho'%mapM_Ok.
  apply Forall2_same_length_lookup. split; [by eapply Forall2_length|].
  intros i market out Hi Hout. assert (Hin : market ∈ config) by (by eapply list_elem_of_lookup_2).
  destruct (Hm market Hin) as (mr & data & Hmr & Hdata & Hl).
  destruct (co_market _ _ Hc _ _ Hin Hmr) as [Hset Hini].
  pose proof (persist_lookup c fetched (mk_address market) Hd) as Hp. rewrite Hmr, Hl in Hp.
  exists mr, data. split_and!; [done..|].
  pose proof (Forall2_lookup_lr _ _ _ _ _ _ Ho' Hi Hout) as Hpm. cbn in Hpm.
  apply bind_Ok in Hpm as (mr' & Hmr'%unwrap_Ok & Hpm). rewrite Hp in Hmr'. by injection Hmr' as <-.
Qed.

(** What a round has sent, whatever becomes of it: no task runs before all markets
    are fetched, and then a panic in one task does not take back what others, or
    the task itself, have sent. *)
Definition round_log round c : list (list Instruction) :=
  match fetch_all round config c with
  | Ok fetched =>
      market ← config;
      match persist c fetched !! mk_address market with
      | Some mr => market_log payer round (mr_inner mr) market
      | None => []
      end
  | _ => []
  end.

(** It is what a round that ends well reports. *)
Lemma round_log_reported initialized round c c' outcomes :
  capsule_ok initialized c → process_markets payer round config c = Ok (c', outcomes) →
  outcomes ≫= oc_sent = round_log round c.
Proof.
  intros Hc Hrun. destruct (process_markets_Ok _ _ _ _ _ Hc Hrun) as (fetched & outs & Hf & _ & -> & _ & _ & Hall).
  unfold round_log. rewrite Hf. clear Hf Hrun Hc Hconfig.
  induction Hall as [|market out l outs (mr & data & _ & _ & _ & _ & Hp & Ho) Hall IH]; [done|].
  cbn. rewrite Hp, bind_app, IH. by rewrite (process_market_log _ _ _ _ _ Ho).
Qed.

(** A transaction of a round is one of a task of a market that was fetched. *)
Lemma round_log_elem initialized round c ixs :
  capsule_ok initialized c → ixs ∈ round_log round c →
  ∃ market mr data e r, market ∈ config ∧ set_up market mr ∧
    MarketReservesRetriever.fetch_market_data mr (rd_fetch round (mk_address market)) = Ok data ∧
    e ∈ entries (md_obligations data) ∧
    helpers.assess (md_reserves data) (md_oracle_data data) e = Ok r ∧ ixs ∈ task_log payer round market e r.
Proof.
  intros Hc. unfold round_log. destruct (fetch_all round config c) as [fetched| |] eqn:Hf; [|by intros ?%elem_of_nil..].
  intros (market & Hin & Hm)%list_elem_of_bind. destruct (fetch_all_Ok _ _ _ Hf) as [Ek Hall].
  destruct (Hall market Hm) as (mr & data & Hmr & Hdata & Hl).
  pose proof (persist_lookup c fetched (mk_address market)) as Hp. rewrite Hmr, Hl, Ek in Hp.
  rewrite (Hp Hconfig) in Hin. apply list_elem_of_bind in Hin as (e & Hin & He). cbn [mr_inner MarketReservesRetriever.update_market_data set_inner] in *.
  destruct (helpers.assess _ _ e) as [r| |] eqn:Hr; [|by apply elem_of_nil in Hin..].
  exists market, mr, data, e, r. split_and!; [done| |done..]. by apply (co_market _ _ Hc _ _ Hm Hmr).
Qed.

(** The update is of an obligation that the capsule has. *)
Definition known c (u : string * Enhanced Obligation) : Prop :=
  ∃ mr, c !! u.1 = Some mr ∧ e_pubkey u.2 ∈ dom (md_obligations (mr_inner mr)).

Lemma round_updates c round markets outs :
  NoDup (mk_address <$> markets) →
  Forall2 (λ market out, ∃ mr,
      c !! mk_address market = Some mr ∧ keyed (md_obligations (mr_inner mr)) ∧
      process_market payer round (mr_inner mr) market = Ok out) markets outs →
  let updates := omap oc_update (concat outs) in
  Forall (known c) updates ∧ Forall (λ u, u.1 ∈ mk_address <$> markets) updates ∧
  NoDup (update_key <$> updates).
Proof.
  intros Hd Ho. induction Ho as [|market out markets outs (mr & Hmr & Hk & Hp) Ho IH]; cbn; [split_and!; constructor|].
  cbn in Hd. apply NoDup_cons in Hd as [Hm Hd]. destruct (IH Hd) as (IH1 & IH2 & IH3).
  destruct (process_market_updates payer round _ _ _ Hk Hp) as [Hu Hdu].
  rewrite omap_app, fmap_app. split_and!.
  - apply Forall_app. split; [|done]. eapply Forall_impl; [exact Hu|].
    intros u [E Hin]. exists mr. by rewrite E.
  - apply Forall_app. split.
    + eapply Forall_impl; [exact Hu|]. intros u [-> _]. apply list_elem_of_here.
    + eapply Forall_impl; [exact IH2|]. intros u Hin. by apply list_elem_of_further.
  - apply NoDup_app. split; [done|]. split; [|done].
    intros k (u & -> & Hin)%list_elem_of_fmap (u' & E & Hin')%list_elem_of_fmap.
    rewrite Forall_forall in Hu. destruct (Hu u Hin) as [Eu _].
    rewrite Forall_forall in IH2. specialize (IH2 u' Hin'). apply Hm. rewrite <- Eu.
    injection E as E _. by rewrite E.
Qed.

Lemma set_up_update market mr node data :
  set_up market mr → MarketReservesRetriever.fetch_market_data mr node = Ok data →
  set_up market (MarketReservesRetriever.update_market_data mr data).
Proof. intros (? & ? & _) Hf%fetch_keyed. by split_and!. Qed.

(** What a round leaves of each market *)
Lemma round_market initialized round c c' outcomes market :
  capsule_ok initialized c → process_markets payer round config c = Ok (c', outcomes) →
  market ∈ config →
  ∃ mr data mr',
    c !! mk_address market = Some mr ∧ set_up market mr ∧ mr_initialized mr = initialized ∧
    MarketReservesRetriever.fetch_market_data mr (rd_fetch round (mk_address market)) = Ok data ∧
    c' !! mk_address market = Some mr' ∧
    same_market (MarketReservesRetriever.update_market_data mr data) mr'.
Proof.
  intros Hc Hrun Hin.
  destruct (process_markets_Ok _ _ _ _ _ Hc Hrun) as (fetched & outs & _ & _ & -> & -> & _ & Hall).
  destruct (round_updates (persist c fetched) round config outs Hconfig) as (Hknown & _ & _).
  { eapply Forall2_impl; [exact Hall|]. intros m out (mr & data & _ & _ & _ & Hf & Hp & Ho).
    exists (MarketReservesRetriever.update_market_data mr data). split; [done|]. split; [by apply fetch_keyed in Hf|done]. }
  apply list_elem_of_lookup_1 in Hin as [i Hi].
  destruct (Forall2_lookup_l _ _ _ _ _ Hall Hi) as (out & _ & mr & data & Hmr & Hset & Hini & Hf & Hp & _).
  destruct (apply_updates_lookup _ (omap oc_update (concat outs)) _ _ Hp) as (mr' & Hmr' & Hs).
  - intros o Ho. rewrite Forall_forall in Hknown. destruct (Hknown _ Ho) as (mr1 & Hmr1 & Hdom).
    cbn in Hmr1, Hdom. rewrite Hp in Hmr1. by injection Hmr1 as <-.
  - by exists mr, data, mr'.
Qed.

Lemma round_ok initialized round c c' outcomes :
  capsule_ok initialized c → process_markets payer round config c = Ok (c', outcomes) → capsule_ok true c'.
Proof.
  intros Hc Hrun. split.
  - destruct (process_markets_Ok _ _ _ _ _ Hc Hrun) as (fetched & outs & _ & _ & _ & -> & _).
    rewrite apply_updates_dom, persist_dom. apply Hc.
  - intros market mr1 Hin Hmr1.
    destruct (round_market _ _ _ _ _ _ Hc Hrun Hin) as (mr & data & mr' & _ & Hset & _ & Hf & Hmr' & Hs).
    rewrite Hmr1 in Hmr'. injection Hmr' as <-. destruct (set_up_update _ _ _ _ Hset Hf) as (E1 & E2 & E3).
    destruct Hs as [S1 S2 S3 _ S5]. split; [split_and!; [congruence|congruence|by apply S5]|by rewrite S3].
Qed.

End rounds.

(** ** What a round sends *)

Section sent.
Context `{S : Sdk} `{C : ClientSdk} `{LS : !SdkLaws SOLEND_PROGRAM_ID} `{L : !ClientLaws}.
Context (payer : Pubkey) (node : Node) (w : World) (market : Market) (market_key : Pubkey).
Context (Hans : answers node w) (Hw : World_ok SOLEND_PROGRAM_ID w).
Context (Hkey : pubkey_from_str (mk_address market) = Some market_key) (Hk : is_key market_key).
Implicit Types (mr : MarketReservesRetriever) (e : Enhanced Obligation).

(** The snapshot holds what the ledger holds. *)
Lemma fetched_obligation mr data k e :
  set_up market mr → MarketReservesRetriever.fetch_market_data mr node = Ok data →
  md_obligations data !! k = Some e → e_pubkey e = k ∧ stored Obligation w k (e_inner e).
Proof.
  intros (E & _) (rs & _ & _ & _ & Ho)%fetch_market_data_Ok He. destruct (mr_initialized mr).
  - assert (Hd : NoDup (hash_set_into_iter (dom (md_obligations (mr_inner mr)))))
      by (rewrite (hash_set_into_iter_perm _); apply NoDup_elements).
    by destruct (proj1 (update_obligations_exact node w Hans _ _ Hd Ho k e) He) as (_ & ? & ?).
  - rewrite E in Ho.
    by destruct (proj1 (get_records_exact Obligation node w Hans (wo_bytes _ _ Hw) _ _ _
      obligation_len Hk Hkey Ho k e) He) as (? & (_ & ?) & _).
Qed.

Lemma fetched_reserve mr data k (r : Enhanced Reserve) :
  set_up market mr → MarketReservesRetriever.fetch_market_data mr node = Ok data →
  md_reserves data !! k = Some r → holds SOLEND_PROGRAM_ID Reserve w k (e_inner r).
Proof.
  intros (E & _) (rs & _ & Hr & _)%fetch_market_data_Ok He. rewrite E in Hr.
  by destruct (proj1 (get_records_exact Reserve node w Hans (wo_bytes _ _ Hw) _ _ _
    reserve_len Hk Hkey Hr k r) He) as (_ & ? & _).
Qed.

(** What the client picks from such a snapshot, the program finds liquidatable. *)
Lemma fetched_targets mr data k e d b accounts w' u :
  set_up market mr → MarketReservesRetriever.fetch_market_data mr node = Ok data →
  md_obligations data !! k = Some e →
  helpers.assess (md_reserves data) (md_oracle_data data) e = Ok (Some (d, b)) →
  (∃ info rest, accounts = info :: rest ∧ key info = e_pubkey e) →
  process_refresh_obligation SOLEND_PROGRAM_ID accounts w = Ok (u, w') →
  ∃ clock_info clock o', clock_info ∈ accounts ∧ clock_at w clock_info clock ∧
    holds SOLEND_PROGRAM_ID Obligation w' (e_pubkey e) o' ∧ fresh (o_last_update o') clock ∧
    liquidatable o' (b_borrow_reserve b) (d_deposit_reserve d).
Proof.
  intros Hset Hf He Hpick (info & rest & -> & Ek) Hrun.
  destruct (fetched_obligation _ _ _ _ Hset Hf He) as [Epub Hs].
  assert (Hsee : Forall (sees SOLEND_PROGRAM_ID (md_reserves data) (md_oracle_data data) w)
            (Client.total_reserves (e_inner e))).
  { apply Forall_forall. intros k' Hk'. destruct (assess_Some _ _ _ _ _ Hpick) as (_ & _ & _ & _ & Hall).
    destruct (Hall k' Hk') as [[od Hod] [r Hr]]. exists r, od. split_and!; [done..|].
    by apply (fetched_reserve _ _ _ _ Hset Hf). }
  apply Forall_app in Hsee as [Hd Hb].
  pose proof (refresh_obligation_run SOLEND_PROGRAM_ID _ _ _ _ Hrun)
    as (i1 & ci & r1 & clock & o & _ & _ & _ & _ & _ & _ & _ & _ & Ea & _ & [Hown _] & _).
  injection Ea as <- ->.
  destruct (targets_liquidatable SOLEND_PROGRAM_ID (md_reserves data) (md_oracle_data data) e _ _ _ _ d b
    Hw Hrun) as (i2 & ci2 & r2 & clock2 & o' & Ea & Hc & Hh & Hfresh & Hl); [|done..|].
  { intros i2 r2 [= <- _]. split; [done|]. split; [done|]. by rewrite Ek, Epub. }
  injection Ea as <- <- <-. exists ci, clock2, o'. split; [solve_in|]. by split_and!.
Qed.

End sent.

Section runs.
Context `{S : Sdk} `{C : ClientSdk} `{L : !ClientLaws}.
Context (payer : Pubkey) (config : SolendConfig) (Hconfig : NoDup (mk_address <$> config)).

(** Running further rounds from a capsule *)
Definition run_from (c : MarketsCapsule) (rounds : list Round) : boxed MarketsCapsule :=
  try_fold
    (λ markets_capsule round, '(markets_capsule, _) ← process_markets payer round config markets_capsule;
                              mret markets_capsule)
    c rounds.

Lemma run_from_cons c round rounds c' :
  run_from c (round :: rounds) = Ok c' ↔
  ∃ c1 outcomes, process_markets payer round config c = Ok (c1, outcomes) ∧ run_from c1 rounds = Ok c'.
Proof.
  unfold run_from at 1. cbn [try_fold]. rewrite bind_Ok. split.
  - intros (c1 & Hc1 & Hrun). apply bind_Ok in Hc1 as ([c1' outs] & Hp & [= <-]). by exists c1', outs.
  - intros (c1 & outs & Hp & Hrun). exists c1. rewrite Hp. by split.
Qed.

Lemma run_from_ok initialized c rounds c' :
  capsule_ok config initialized c → run_from c rounds = Ok c' →
  capsule_ok config (initialized || negb (bool_decide (rounds = []))) c'.
Proof.
  revert initialized c. induction rounds as [|round rounds IH]; intros initialized c Hc.
  - intros [= <-]. rewrite bool_decide_eq_true_2 by done. by rewrite orb_false_r.
  - intros (c1 & outs & Hp & Hrun)%run_from_cons. rewrite bool_decide_eq_false_2 by done.
    rewrite orb_true_r. eapply round_ok in Hp; [|done..]. by apply (IH true c1).
Qed.

(** Once a market is initialised, its obligations stay the same ones. *)
Lemma run_from_dom c rounds c' market mr mr' :
  capsule_ok config true c → run_from c rounds = Ok c' → market ∈ config →
  c !! mk_address market = Some mr → c' !! mk_address market = Some mr' →
  dom (md_obligations (mr_inner mr')) = dom (md_obligations (mr_inner mr)).
Proof.
  intros Hc Hrun Hin Hmr Hmr'. revert c mr Hc Hmr Hrun. induction rounds as [|round rounds IH]; intros c mr Hc Hmr.
  - intros [= ->]. by simplify_eq.
  - intros (c1 & outs & Hp & Hrun)%run_from_cons.
    destruct (round_market payer config Hconfig _ _ _ _ _ _ Hc Hp Hin)
      as (mr0 & data & mr1 & Hmr0 & _ & Hini & Hf & Hmr1 & Hs).
    assert (mr0 = mr) as -> by congruence.
    rewrite (IH c1 mr1) by (done || by eapply round_ok). rewrite (sm_dom _ _ Hs). cbn.
    by apply (fetch_dom mr (rd_fetch round (mk_address market))).
Qed.

End runs.

(** ** Properties *)

(** Concurrent writes do not race.  The tasks of a round write the fetched
    markets, and later the obligations that they have seen after a liquidation,
    in any order: every order leaves the same capsule. *)
Theorem round_order_irrelevant `{S : Sdk} `{C : ClientSdk} `{L : !ClientLaws}
    (payer : Pubkey) (config : SolendConfig) (round : Round) (initialized : bool)
    (c c' : MarketsCapsule) (outcomes : list Outcome)
    (Hconfig : NoDup (mk_address <$> config)) (Hc : capsule_ok config initialized c)
    (H : process_markets payer round config c = Ok (c', outcomes)) :
  ∃ fetched, fetch_all round config c = Ok fetched ∧
    ∀ fetched' updates', fetched' ≡ₚ fetched → updates' ≡ₚ omap oc_update outcomes →
      apply_updates (persist c fetched') updates' = c'.
Proof.
  destruct (process_markets_Ok payer config Hconfig _ _ _ _ _ Hc H)
    as (fetched & outs & Hf & _ & -> & -> & Hd & Hall).
  exists fetched. split; [done|]. intros fetched' updates' Hpf Hpu.
  destruct (round_updates payer (persist c fetched) round config outs Hconfig) as (_ & _ & Hdu).
  { eapply Forall2_impl; [exact Hall|]. intros m out (mr & data & _ & _ & _ & Hfetch & Hp & Ho).
    exists (MarketReservesRetriever.update_market_data mr data).
    split; [done|]. split; [by apply fetch_keyed in Hfetch|done]. }
  rewrite <- (persist_order c fetched fetched') by done. symmetry. by apply apply_updates_order.
Qed.

(** The capsule's invariant.  After any number of rounds, the capsule holds
    exactly the markets of the configuration, each under its address and with
    its reserves, each obligation under its own address, and a market counts as
    initialised from the first round on. *)
Lemma capsule_invariant `{S : Sdk} `{C : ClientSdk} `{L : !ClientLaws}
    (payer : Pubkey) (config : SolendConfig) (rounds : list Round) (c : MarketsCapsule)
    (Hconfig : NoDup (mk_address <$> config)) (H : run_rounds payer config rounds = Ok c) :
  capsule_ok config (negb (bool_decide (rounds = []))) c.
Proof.
  apply (run_from_ok payer config Hconfig false (initial_capsule config)); [|done].
  by apply initial_capsule_ok.
Qed.

(** Obligations are found once.  The obligations that the client watches in
    a market are those of its first round: later rounds refresh them, and never
    find another.  When the listing of the first round fails, the client watches
    no obligation of that market, however many rounds follow. *)
Theorem obligations_are_found_once `{S : Sdk} `{C : ClientSdk} `{L : !ClientLaws}
    (payer : Pubkey) (config : SolendConfig) (first : Round) (rounds : list Round)
    (c1 c2 : MarketsCapsule) (market : Market) (mr1 mr2 : MarketReservesRetriever)
    (Hconfig : NoDup (mk_address <$> config)) (Hin : market ∈ config)
    (H1 : run_rounds payer config [first] = Ok c1)
    (H2 : run_rounds payer config (first :: rounds) = Ok c2)
    (Hmr1 : c1 !! mk_address market = Some mr1) (Hmr2 : c2 !! mk_address market = Some mr2) :
  dom (md_obligations (mr_inner mr2)) = dom (md_obligations (mr_inner mr1)) ∧
  (∀ key, pubkey_from_str (mk_address market) = Some key →
     get_program_accounts (rd_fetch first (mk_address market)) SOLEND_PROGRAM_ID
       (ClientFetch.market_filter key) 1300 = None →
     md_obligations (mr_inner mr2) = ∅).
Proof.
  pose proof (initial_capsule_ok config Hconfig) as H0.
  apply (run_from_cons payer config (initial_capsule config)) in H1 as (c1' & outs & Hp & [= ->]).
  apply (run_from_cons payer config (initial_capsule config)) in H2 as (c1' & outs' & Hp' & Hrun).
  rewrite Hp in Hp'. injection Hp' as <- <-.
  pose proof (round_ok payer config Hconfig _ _ _ _ _ H0 Hp) as Hc1.
  assert (Hdom := run_from_dom payer config Hconfig c1 rounds c2 market mr1 mr2 Hc1 Hrun Hin Hmr1 Hmr2).
  split; [done|]. intros key Hkey Hnone.
  destruct (round_market payer config Hconfig _ _ _ _ _ _ H0 Hp Hin)
    as (mr0 & data & mr' & _ & (Elm & _) & Hini & Hf & Hmr' & Hs).
  rewrite Hmr1 in Hmr'. injection Hmr' as <-.
  rewrite <- Elm in Hkey. pose proof (fetch_failed _ _ _ _ Hini Hkey Hnone Hf) as Hempty.
  apply dom_empty_inv_L. rewrite Hdom, (sm_dom _ _ Hs). cbn. rewrite Hempty. apply dom_empty_L.
Qed.

(** C17: the liquidator only liquidates what the program lets it liquidate.
    For a configuration whose market addresses are distinct and parse and in
    whose markets no two reserves share a token symbol: in any round, from the
    first one or after others, and also in one that later ends in a panic, a
    transaction that a task has sent either creates the payer's token account, or
    ends in a liquidation that spends the payer's whole balance of the repaid
    token on an obligation of the market; and when the answers to the round's
    fetch come from one ledger, the program, once it has refreshed that
    obligation on that ledger, finds it unhealthy, with the two reserves that the
    instruction names among its entries, of positive and of the greatest value. *)
Theorem rounds_liquidate_the_liquidatable `{S : Sdk} `{C : ClientSdk}
    `{LS : !SdkLaws SOLEND_PROGRAM_ID} `{L : !ClientLaws}
    (payer : Pubkey) (config : SolendConfig) (round : Round) (initialized : bool)
    (c : MarketsCapsule)
    (Hconfig : NoDup (mk_address <$> config))
    (Hsymbols : Forall distinct_symbols config)
    (Hkeys : Forall (λ market, ∃ k, pubkey_from_str (mk_address market) = Some k ∧ is_key k) config)
    (Hc : capsule_ok config initialized c) :
  (∀ c' outcomes, process_markets payer round config c = Ok (c', outcomes) →
     outcomes ≫= oc_sent = round_log payer config round c) ∧
  ∀ ixs, ixs ∈ round_log payer config round c →
  (∃ mint, ixs = [create_associated_token_account payer payer mint]) ∨
  ∃ market (obligation : Enhanced Obligation) b before amount p,
    market ∈ config ∧ ixs = before ++ [liquidation_ix payer amount (e_pubkey obligation) p] ∧
    p_repay_mint p = b_mint_address b ∧
    amount ≠ 0 ∧ wallet_holds payer round (e_pubkey obligation) b amount ∧
    ∀ w accounts w' u,
      answers (rd_fetch round (mk_address market)) w → World_ok SOLEND_PROGRAM_ID w →
      (∃ info rest, accounts = info :: rest ∧ key info = e_pubkey obligation) →
      process_refresh_obligation SOLEND_PROGRAM_ID accounts w = Ok (u, w') →
      ∃ clock_info clock o', clock_info ∈ accounts ∧ clock_at w clock_info clock ∧
        holds SOLEND_PROGRAM_ID Obligation w' (e_pubkey obligation) o' ∧
        fresh (o_last_update o') clock ∧ liquidatable o' (p_repay_reserve p) (p_withdraw_reserve p).
Proof.
  split; [intros c' outcomes; by apply (round_log_reported payer config Hconfig initialized)|].
  intros ixs Hixs. destruct (round_log_elem payer config Hconfig _ _ _ _ Hc Hixs)
    as (market & mr & data & e & r & Hm & Hset & Hf & He & Hr & Hlog).
  apply entries_elem in He as [k He].
  destruct (task_sent _ _ _ _ _ _ Hlog) as (d & b & -> & [->|(amount & Hne & Hlt & Hwal & Hsend)]);
    [left; by eexists|right].
  destruct (liquidate_and_redeem_Ok _ _ _ _ _ _ _ _ Hsend) as (refreshes & p & _ & Hplan & E).
  destruct (fetch_market_data_Ok _ _ _ Hf) as (rs & Hrs & _ & Horacle & _).
  destruct Hset as (Elm & Ein & Hkeyed). rewrite Ein in Hrs. injection Hrs as <-.
  destruct (assess_Some _ _ _ _ _ Hr) as (Hd & _ & Hb & _).
  rewrite Forall_forall in Hsymbols, Hkeys.
  destruct (planned_picked _ market _ Horacle d b p (Hsymbols _ Hm) Hd Hb Hplan) as (E1 & E2 & E3).
  destruct (Hkeys market Hm) as (mk & Hmk & Hismk).
  eexists market, e, b, _, amount, p. split; [done|]. split; [rewrite E, !(assoc_L (++)); reflexivity|].
  do 3 (split; [done|]). intros w accounts w' u Hans Hw Hacc Hrefresh. rewrite E1, E3.
  by eapply (fetched_targets _ w market mk Hans Hw Hmk Hismk mr data k e d b).
Qed.

#[local] Existing Instance test_sdk.
#[local] Existing Instance test_client.

(** The payer 21 has 500 tokens of the mint 133. *)
Definition wallet_world : World :=
  mkWorld (<[21133 := token_account 500]> (accounts deep_ledger)) [].

(** A round that sees the ledger whose obligation is under water *)
Definition sample_round : Round :=
  mkRound (λ _, node_of deep_ledger) (λ _, node_of wallet_world) (λ _, node_of wallet_world)
    (λ _, node_of wallet_world) (λ _, node_of ledger).

(** The round whose listing of accounts fails *)
Definition silent_node : Node := {|
  get_account := get_account (node_of ledger);
  get_program_accounts _ _ _ := None;
  get_latest_blockhash := Some 0;
  send_transaction _ := true;
|}.
Definition silent_round : Round :=
  mkRound (λ _, silent_node) (λ _, silent_node) (λ _, silent_node) (λ _, silent_node) (λ _, silent_node).

Definition sample_config : SolendConfig := [sample_config_market].

Lemma sample_config_addresses : NoDup (mk_address <$> sample_config).
Proof. by apply (bool_decide_unpack _); vm_compute. Qed.

Definition ok_or_empty (m : boxed MarketsCapsule) : MarketsCapsule := match m with Ok c => c | _ => ∅ end.

Definition sample_run (rounds : list Round) : MarketsCapsule :=
  ok_or_empty (run_rounds 21 sample_config rounds).

Definition sample_outcome : boxed (MarketsCapsule * list Outcome) :=
  process_markets 21 sample_round sample_config (initial_capsule sample_config).

Lemma round_order_irrelevant_witness :
  ∃ c' outcomes fetched, sample_outcome = Ok (c', outcomes) ∧
    fetch_all sample_round sample_config (initial_capsule sample_config) = Ok fetched ∧
    apply_updates (persist (initial_capsule sample_config) (rev fetched)) (rev (omap oc_update outcomes)) = c'.
Proof.
  destruct sample_outcome as [[c' outcomes]| |] eqn:E; try (vm_compute in E; discriminate E).
  destruct (round_order_irrelevant 21 sample_config sample_round false (initial_capsule sample_config)
    c' outcomes sample_config_addresses (initial_capsule_ok _ sample_config_addresses) E)
    as (fetched & Hf & Hall).
  exists c', outcomes, fetched. split; [reflexivity|]. split; [exact Hf|].
  apply Hall; symmetry; apply Permutation_rev.
Defined.

Lemma capsule_invariant_witness :
  capsule_ok sample_config true (sample_run [sample_round; sample_round]).
Proof.
  apply (capsule_invariant 21 sample_config [sample_round; sample_round]
    (sample_run [sample_round; sample_round]) sample_config_addresses).
  destruct (run_rounds 21 sample_config [sample_round; sample_round]) eqn:E;
    [|vm_compute in E; discriminate E..].
  unfold sample_run. rewrite E. reflexivity.
Defined.

Lemma obligations_are_found_once_witness :
  ∃ mr2, sample_run [silent_round; sample_round] !! "9"%string = Some mr2 ∧
    md_obligations (mr_inner mr2) = ∅.
Proof.
  destruct (run_rounds 21 sample_config [silent_round]) as [c1| |] eqn:E1;
    [|vm_compute in E1; discriminate E1..].
  destruct (run_rounds 21 sample_config [silent_round; sample_round]) as [c2| |] eqn:E2;
    [|vm_compute in E2; discriminate E2..].
  assert (Hc1 : c1 = sample_run [silent_round]) by (unfold sample_run; by rewrite E1).
  assert (Hc2 : c2 = sample_run [silent_round; sample_round]) by (unfold sample_run; by rewrite E2).
  destruct (c1 !! "9"%string) as [mr1|] eqn:M1; [|rewrite Hc1 in M1; vm_compute in M1; discriminate M1].
  destruct (c2 !! "9"%string) as [mr2|] eqn:M2; [|rewrite Hc2 in M2; vm_compute in M2; discriminate M2].
  exists mr2. rewrite <- Hc2. split; [exact M2|].
  apply (obligations_are_found_once 21 sample_config silent_round [sample_round] c1 c2
    sample_config_market mr1 mr2 sample_config_addresses (list_elem_of_here _ _) E1 E2 M1 M2) with (key := 9);
    reflexivity.
Defined.

Definition sample_sent : list (list Instruction) :=
  round_log 21 sample_config sample_round (initial_capsule sample_config).

(** The same round, but the node does not answer after the liquidation: the task
    panics when it reads the obligation again, and the liquidation is sent. *)
Definition broken_round : Round :=
  mkRound (rd_fetch sample_round) (rd_create sample_round) (rd_wallet sample_round) (rd_trade sample_round)
    (λ _, mkNode (λ _, None) (λ _ _ _, None) None (λ _, false)).

Example broken_round_has_sent :
  process_markets 21 broken_round sample_config (initial_capsule sample_config) = Panic ∧
  round_log 21 sample_config broken_round (initial_capsule sample_config) = sample_sent.
Proof. split; vm_compute; reflexivity. Qed.

(** The obligation that the last instruction names *)
Definition named_obligation (ixs : list Instruction) : option Pubkey :=
  ix ← last ixs; info ← ix_accounts ix !! 10%nat; Some (pubkey info).

(** The sample round liquidates the obligation 50. *)
Lemma rounds_liquidate_the_liquidatable_witness :
  ∃ ixs before amount p o' w',
    sample_sent = [ixs] ∧ ixs = before ++ [liquidation_ix 21 amount 50 p] ∧ amount ≠ 0 ∧
    process_refresh_obligation SOLEND_PROGRAM_ID refresh_accounts deep_ledger = Ok (tt, w') ∧
    holds SOLEND_PROGRAM_ID Obligation w' 50 o' ∧
    liquidatable o' (p_repay_reserve p) (p_withdraw_reserve p).
Proof.
  destruct sample_sent as [|ixs [|? ?]] eqn:Esent; try (vm_compute in Esent; discriminate Esent).
  assert (Hk : named_obligation ixs = Some 50 ∧ length ixs = 7%nat).
  { vm_compute in Esent. injection Esent as <-. by split. }
  destruct Hk as [Hk Hlen].
  assert (Hin : ixs ∈ sample_sent) by (rewrite Esent; apply list_elem_of_here).
  assert (Hsym : Forall distinct_symbols sample_config).
  { constructor; [|constructor]. unfold distinct_symbols. by apply (bool_decide_unpack _); vm_compute. }
  assert (Hkeys : Forall (λ market, ∃ k, pubkey_from_str (mk_address market) = Some k ∧ is_key k) sample_config).
  { constructor; [|constructor]. exists 9. split; [reflexivity|]. split; vm_compute; congruence. }
  destruct (rounds_liquidate_the_liquidatable 21 sample_config sample_round false (initial_capsule sample_config)
    sample_config_addresses Hsym Hkeys (initial_capsule_ok _ sample_config_addresses)) as [_ Hsent].
  destruct (Hsent ixs Hin) as [[mint ->]|(market & e & b & before & amount & p & Hm & Eixs & _ & Hne & _ & Hall)].
  - discriminate Hlen.
  - assert (e_pubkey e = 50) as Epub.
    { rewrite Eixs in Hk. unfold named_obligation in Hk. rewrite last_snoc in Hk. by injection Hk. }
    rewrite Epub in *.
    destruct (Hall deep_ledger refresh_accounts
      (world_after (process_refresh_obligation SOLEND_PROGRAM_ID refresh_accounts deep_ledger)) tt)
      as (ci & clock & o' & _ & _ & Hh & _ & Hl).
    + apply node_of_answers.
    + apply deep_ledger_ok.
    + eexists _, _. split; reflexivity.
    + vm_compute. reflexivity.
    + exists ixs, before, amount, p, o',
        (world_after (process_refresh_obligation SOLEND_PROGRAM_ID refresh_accounts deep_ledger)).
      split; [reflexivity|]. split; [exact Eixs|]. split; [exact Hne|].
      split; [vm_compute; reflexivity|]. split; [exact Hh|exact Hl].
Defined.
